(* ===== verification/_CoqProject ===== *)
-Q . S2P
Prelude.v
Timeval.v
In6.v
Rtsold.v
NdOpt.v
RaTimer.v
RtMsg.v
Rainfo.v
RaState.v
RaInv.v
RaOps.v
Rrenum.v
Rtadvd.v
RtadvdSafe.v
RtadvdFun.v
Interop.v
Advcap.v
Config.v
ConfigArea.v
ConfigSafe.v
ConfigFun.v
ConfigFile.v
Stdio.v
Md5.v
NodeInfo.v
Tally.v
Ping6.v
Ping6Fun.v
NameInterop.v
Cksum.v
Ping.v
PingFun.v
PingSafe.v
PingEcho.v
Tracert.v
TracertFun.v
TracertRoute.v
TracertSafe.v
TracertOpt.v
Kdumpd.v
KdumpdFun.v
TcpSeq.v
TcpReass.v
TcpReassFun.v
TcpOpt.v
TcpSack.v
TcpSackFun.v
TcpSackOps.v
TcpSender.v
