(* ===== verification/Prelude.v ===== *)
(** * network_cmds: a verification development

    The repository holds the network commands of Darwin together with the BSD
    part of the kernel. This development models, as a shallow embedding, the
    programs of it that parse packets, keep protocol state or compute: the
    router advertisement daemon rtadvd (rtadvd.tproj), the router solicitation
    daemon rtsold (rtsol.tproj), ping6 with its MD5 (ping6.tproj), ping
    (ping.tproj), traceroute (traceroute.tproj), the kernel core dump server
    kdumpd (kdumpd.tproj), and of the kernel the selective acknowledgements of
    TCP with the parts of it that they work with (bsd/netinet).

    ** How the code is modelled

    A C integer is a [Z] kept in its width by [u8], [u16], [u32], [s32] and the
    like where the code can leave it; memory is a list of octets ([bytes]); a
    pointer into a buffer is an offset. A function that can call [exit] or
    access memory outside its buffers is a value of the type [outcome]: [Ret],
    [Exit] with its status, or [Crash]; reads and writes are checked ([rd8],
    [rd16], [read_at]). A function on the state of the program is a value of
    the state monad [ST] over [outcome]. Printed text is the list of the
    [printf] calls. What the kernel and the C library answer (sysctl, ioctl,
    getifaddrs, inet_pton, gettimeofday, the random numbers, the received
    packets) is an argument of the definitions; the hypotheses on it are the
    predicates named in the theorems ([answers_ok], [kernel_answers],
    [delivered], [env_ok] and the like).

    ** The files

    - Prelude: integers, octets, the two monads with their Hoare triples,
      record update, lemmas, tactics and the hint database [netcmds].
    - Timeval: the timeval macros of rtadvd's timer.c and of rtsold.c.
    - In6: prefixes and addresses; [prefix_match] of rtadvd.c is equality of
      the leading bits.
    - Rtsold: rtsold.c, rtsol.c, probe.c and if.c: the interface states, timers,
      solicitations and received advertisements, as operations and as the step
      relation [rtsold_step].
    - NdOpt, RaTimer, RtMsg: [nd6_options] of rtadvd.c; timer.c, against the
      class [TimerHost] of programs that own timers; the routing messages and
      the interface list of if.c.
    - Rainfo: struct rainfo, and [make_packet] of config.c with all options.
    - RaState, RaInv, RaOps: the heap of rtadvd (interfaces, prefixes, timers and
      the pointers between them), its invariant, and the operations of config.c
      on prefixes.
    - Rrenum: router renumbering (rrenum.c).
    - Rtadvd, RtadvdSafe, RtadvdFun: the packet handlers and the main loop of
      rtadvd.c; they keep the invariant and never fault; what each handler does.
    - Interop: rtadvd and rtsold against each other.
    - Advcap: the capability database (advcap.c) on its buffers.
    - Config, ConfigArea, ConfigSafe, ConfigFun, ConfigFile: [getconfig] of
      config.c against the class [CapDb] of databases; the space its strings
      take; its safety, with the whole daemon from the configuration to the
      main loop; its results; the same on a file read with [tgetent].
    - Stdio: printed output and the character functions.
    - Md5: md5.c against RFC 1321. NodeInfo: [dnsdecode], [pr_suptypes],
      [pr_nodeaddr] and [nigroup] of ping6.c.
    - Tally: counting replies with a bitmap, the part that ping and ping6 share:
      the specification with a set, and the class [Counter] of programs that
      implement it.
    - Ping6, Ping6Fun: ping6.c (sending, receiving, the loop) and its properties.
    - NameInterop: the names that rtadvd encodes are decoded by ping6.
    - Cksum: the Internet checksums of ping.c and traceroute.c against RFC 1071.
    - Ping, PingFun, PingSafe, PingEcho: ping.c from the parsed options on;
      counting and checksums; buffers and the end of the loop; the round trip
      of a query.
    - Tracert, TracertFun, TracertRoute, TracertSafe, TracertOpt: traceroute.c;
      the probes and the answers of the five protocols and the loops over hops,
      probes and packets; what a probe holds and how it is recognised in an
      answer; the printed route for a path of nodes; any packets in the
      buffer; the command line with [getopt] and [strtol] up to the loops.
    - Kdumpd, KdumpdFun: kdumpd.c and kdumpsubs.c: the request, the transfer
      with its two buffers and its timer, the conversions; the transfer
      between a kernel and the server, as the step relation [system_step].
    - TcpSeq: the comparisons of tcp_seq.h, and intervals of sequence numbers.
    - TcpReass, TcpReassFun: the receiving side of TCP: trimming a segment to the
      window, the reassembly queue, the SACK list and the option (tcp_input.c,
      tcp_sack.c, tcp_output.c); what the socket gets.
    - TcpOpt: [tcp_dooptions], the options of a received segment.
    - TcpSack: the sending side: the scoreboard (tcp_sack.c), the list of
      retransmitted segments (tcp_subr.c), the processing of acknowledgements
      (tcp_input.c), the choice of what to send (tcp_output.c) and the
      retransmission timeout (tcp_timer.c).
    - TcpSackFun, TcpSackOps, TcpSender: [tcp_sack_doack] against a set of
      missing octets; the invariant of the other operations; all of them as
      the events of a sender, with the relation [reachable].

    ** What the theorems show

    - Safety and invariants: whatever the configuration, rtadvd reaches its loop
      in the invariant, exits with status 1, or faults in the lookups of a
      malformed entry ([daemon_safe], [getconfig_correct], [getconfig_file]), and
      then any sequence of packets, routing messages and timeouts keeps the
      invariant ([main_turn_safe]); every reachable state of rtsold is well
      formed; ping stays inside its buffers ([ping_safe]), and so does
      traceroute from any command line on ([traceroute_safe]); traceroute never
      names a node on the line of another hop ([trace_attribution]); the dump
      server stays inside its buffers and creates only new files with plain
      names ([kdumpd_safe]), and over a network that loses, repeats and
      reorders packets its file is what the kernel sent ([transfer_correct]);
      no acknowledgement, whatever its options, makes a check of the SACK code
      of the kernel fail ([sender_safe]).
    - Functional correctness: the packets that are built and the options that
      are recognised, timers, prefixes, renumbering, names, bitmaps, checksums;
      TCP gives the octets of a stream to the socket in order and once
      ([tcp_input_data_correct]).
    - Refinement and equivalence: the bitmaps and counters of ping and ping6
      implement counting with a set; MD5 is that of RFC 1321, the checksum that
      of RFC 1071, [prefix_match] a comparison of bits; the scoreboard of TCP is
      the set of the octets that were not reported ([sack_doack_correct]), and
      the hints it caches are what a walk finds ([sack_hint_correct]).
    - Round trips: between rtadvd and rtsold, between a query and its reply in
      ping and ping6, between an entry of the database and its lookups, between
      the encoder and the decoder of names, between a probe of traceroute and
      the message that quotes it, between a text and its netascii blocks.
    - Liveness: the solicitations of rtsold, the route of traceroute and the
      transfer of a dump come to their end.
    - Termination and errors: loops that end, with the exit status, and inputs
      for which a loop does not end or a table is left.

    ** Fuel

    A loop whose recursion is not structural has a bound that the callers
    choose so large that it is not reached: the length of the buffer plus one
    where every iteration advances by an octet (capability database, options,
    routing messages, names); the number of timers; the length of the IP header
    (61 for the IP options, 60 octets at most); 65535 for the fill pattern; the
    number of blocks and holes in [tcp_sack_doack], each turn of whose loop
    leaves one of them behind.
    Running out is [Crash], so that the theorems that exclude [Crash] show that
    the bound is enough. Where the code itself does not end (rr_loop, the list
    of interfaces with a repeated index) the theorem says so for every bound.

    ** Not modelled

    The command lines of the modelled programs other than traceroute, their
    socket options, the fork and the chroot of kdumpd, dumps and logs, the names
    of hosts and autonomous systems
    that traceroute prints, the round trip statistics in floating point, extension headers
    and path MTU notices of ping6. The other commands of the repository (arp,
    ndp, ifconfig, route, netstat and the like) are front ends that pass one
    request to the kernel and print its tables. Of TCP the header prediction,
    the handshake, MPTCP, sending a FIN, the urgent pointer, congestion control,
    round trip times, the detection of spurious timeouts, tail loss probes and
    the timers other than the retransmission timeout are left out; the windows of
    the congestion control are inputs of the events. The rest of the kernel
    sources (bsd) is used only for the structures and constants of the headers.

    ** This file

    The shared vocabulary: machine integers, network byte order, the monads,
    record update, list and arithmetic lemmas, tactics and the hint database. *)

From stdpp Require Export prelude strings.
From Stdlib Require Export ZArith Lia.

Open Scope Z_scope.
#[export] Set Warnings "-clear-no-such-hyp".

(** [lia] with quotients and remainders by constants. *)
Ltac zlia := Z.to_euclidean_division_equations; lia.

(** ** Machine integers

    An unsigned integer of width [w] is a [Z] reduced modulo [2 ^ w]; a
    signed one is reduced to [[-2^(w-1), 2^(w-1))]. *)

Definition u8 (x : Z) : Z := x mod 2 ^ 8.
Definition u16 (x : Z) : Z := x mod 2 ^ 16.
Definition u32 (x : Z) : Z := x mod 2 ^ 32.
Definition u64 (x : Z) : Z := x mod 2 ^ 64.
Definition s32 (x : Z) : Z := (x + 2 ^ 31) mod 2 ^ 32 - 2 ^ 31.
Definition s64 (x : Z) : Z := (x + 2 ^ 63) mod 2 ^ 64 - 2 ^ 63.

(** C truth values of integers. *)
Definition truthy (x : Z) : bool := negb (x =? 0).
Definition bool_int (b : bool) : Z := if b then 1 else 0.

(** A buffer of octets. *)
Abbreviation bytes := (list Z).
Definition byte_ok (b : Z) : Prop := 0 <= b < 256.
Abbreviation bytes_ok := (Forall byte_ok).

#[global] Instance byte_ok_dec b : Decision (byte_ok b).
Proof. unfold byte_ok. apply _. Defined.

(** ** The outcome of a C function

    [Ret] is a normal return, [Exit] a call of [exit(code)], and [Crash] an
    access outside the object a pointer points into. *)

Inductive outcome (A : Type) : Type :=
  | Ret (a : A)
  | Exit (code : Z)
  | Crash.
Arguments Ret {A} a.
Arguments Exit {A} code.
Arguments Crash {A}.

#[global] Instance outcome_eq_dec `{EqDecision A} : EqDecision (outcome A).
Proof. solve_decision. Defined.

#[global] Instance outcome_ret : MRet outcome := @Ret.
#[global] Instance outcome_bind : MBind outcome := λ A B f m,
  match m with
  | Ret a => f a
  | Exit c => Exit c
  | Crash => Crash
  end.
#[global] Instance outcome_fmap : FMap outcome := λ A B f m,
  match m with
  | Ret a => Ret (f a)
  | Exit c => Exit c
  | Crash => Crash
  end.

(** [m] does not return normally with a value outside [Q]. *)
Definition on_ret {A} (m : outcome A) (Q : A → Prop) : Prop :=
  match m with Ret a => Q a | _ => True end.

(** [m] returns normally, with a value in [Q]. *)
Definition returns {A} (m : outcome A) (Q : A → Prop) : Prop :=
  match m with Ret a => Q a | _ => False end.

Definition of_opt {A} (o : option A) : outcome A :=
  match o with Some a => Ret a | None => Crash end.

Lemma on_ret_bind {A B} (m : outcome A) (f : A → outcome B) (P : A → Prop) (Q : B → Prop) :
  on_ret m P → (∀ a, P a → on_ret (f a) Q) → on_ret (m ≫= f) Q.
Proof. destruct m; simpl; auto. Qed.

Lemma on_ret_weaken {A} (m : outcome A) (P Q : A → Prop) :
  on_ret m P → (∀ a, P a → Q a) → on_ret m Q.
Proof. destruct m; simpl; auto. Qed.

Lemma returns_bind {A B} (m : outcome A) (f : A → outcome B) (P : A → Prop) (Q : B → Prop) :
  returns m P → (∀ a, P a → returns (f a) Q) → returns (m ≫= f) Q.
Proof. destruct m; simpl; tauto || auto. Qed.

Lemma returns_impl {A} (m : outcome A) (P Q : A → Prop) :
  (∀ a, P a → Q a) → returns m P → returns m Q.
Proof. destruct m; simpl; auto. Qed.

Lemma returns_inv {A} (m : outcome A) (Q : A → Prop) :
  returns m Q → ∃ a, m = Ret a ∧ Q a.
Proof. destruct m; simpl; [eauto | tauto | tauto]. Qed.

Lemma bind_ret_inv {A B} (m : outcome A) (f : A → outcome B) b :
  m ≫= f = Ret b → ∃ a, m = Ret a ∧ f a = Ret b.
Proof. destruct m; simpl; [eauto | discriminate | discriminate]. Qed.

(** ** Stateful C functions

    A function that reads and writes the program's state of type [S]. *)

Definition ST (S A : Type) : Type := S → outcome (A * S).
#[global] Instance ST_ret S : MRet (ST S) := λ A a s, Ret (a, s).
#[global] Instance ST_bind S : MBind (ST S) := λ A B f m s,
  match m s with
  | Ret (a, s') => f a s'
  | Exit c => Exit c
  | Crash => Crash
  end.

Definition get {S} : ST S S := λ s, Ret (s, s).
Definition put {S} (s : S) : ST S unit := λ _, Ret (tt, s).
Definition modify {S} (f : S → S) : ST S unit := λ s, Ret (tt, f s).
Definition lift {S A} (m : outcome A) : ST S A := λ s, a ← m; Ret (a, s).
Definition exit {S A} (code : Z) : ST S A := λ _, Exit code.
Definition skip {S} : ST S unit := λ s, Ret (tt, s).
Definition when {S} (b : bool) (m : ST S unit) : ST S unit := if b then m else skip.

Lemma bind_run {S A B} (m : ST S A) (f : A → ST S B) s a s' :
  m s = Ret (a, s') → (m ≫= f) s = f a s'.
Proof. intros E. unfold mbind, ST_bind. by rewrite E. Qed.

Lemma get_run {S B} (f : S → ST S B) s : (get ≫= f) s = f s s.
Proof. done. Qed.
Lemma modify_run {S B} (g : S → S) (f : unit → ST S B) s : (modify g ≫= f) s = f tt (g s).
Proof. done. Qed.
Lemma mret_run {S A B} (a : A) (f : A → ST S B) s : (mret a ≫= f) s = f a s.
Proof. done. Qed.
Lemma lift_run {S A B} (m : outcome A) (f : A → ST S B) s a :
  m = Ret a → (lift m ≫= f) s = f a s.
Proof. by intros ->. Qed.

(** Hoare triples: from a state in [P] the function returns normally, in [Q]. *)
Definition triple {S A} (P : S → Prop) (m : ST S A) (Q : A → S → Prop) : Prop :=
  ∀ s, P s → returns (m s) (λ '(a, s'), Q a s').

(** The partial version: whenever the function returns, in [Q]. *)
Definition ptriple {S A} (P : S → Prop) (m : ST S A) (Q : A → S → Prop) : Prop :=
  ∀ s, P s → on_ret (m s) (λ '(a, s'), Q a s').

Lemma triple_bind {S A B} (P : S → Prop) (m : ST S A) R (f : A → ST S B) Q :
  triple P m R → (∀ a, triple (R a) (f a) Q) → triple P (m ≫= f) Q.
Proof.
  intros Hm Hf s Hs. specialize (Hm s Hs). unfold mbind, ST_bind.
  destruct (m s) as [[a s']| |]; simpl in *; try tauto. by apply Hf.
Qed.

Lemma triple_weaken {S A} (P P' : S → Prop) (m : ST S A) Q Q' :
  triple P m Q → (∀ s, P' s → P s) → (∀ a s, Q a s → Q' a s) → triple P' m Q'.
Proof.
  intros Hm Hp Hq s Hs. specialize (Hm s (Hp s Hs)).
  destruct (m s) as [[a s']| |]; simpl in *; auto.
Qed.

Lemma ptriple_bind {S A B} (P : S → Prop) (m : ST S A) R (f : A → ST S B) Q :
  ptriple P m R → (∀ a, ptriple (R a) (f a) Q) → ptriple P (m ≫= f) Q.
Proof.
  intros Hm Hf s Hs. specialize (Hm s Hs). unfold mbind, ST_bind.
  destruct (m s) as [[a s']| |]; simpl in *; try tauto. by apply Hf.
Qed.

Lemma ptriple_weaken {S A} (P P' : S → Prop) (m : ST S A) Q Q' :
  ptriple P m Q → (∀ s, P' s → P s) → (∀ a s, Q a s → Q' a s) → ptriple P' m Q'.
Proof.
  intros Hm Hp Hq s Hs. specialize (Hm s (Hp s Hs)).
  destruct (m s) as [[a s']| |]; simpl in *; auto.
Qed.

(** ** Record update

    [r <| field := v |>] for a record whose eta expansion is declared. The
    setter of a field is derived from the eta expansion by abstracting the
    projection. *)

Class Eta (R : Type) := eta_of : R → R.
Class Update {R T : Type} (field : R → T) := update_field : (T → T) → R → R.

Ltac derive_update :=
  match goal with
  | |- @Update ?R ?T ?field =>
      let inst := constr:(_ : Eta R) in
      let upd := constr:(fun (g : T → T) (r : R) =>
        ltac:(let body := eval hnf in (inst r) in
              match eval pattern (field r) in body with
              | ?ctx _ => let t := eval cbv beta in (ctx (g (field r))) in exact t
              end)) in
      exact upd
  end.
#[export] Hint Extern 1 (Update _) => derive_update : typeclass_instances.

Declare Scope c_scope.
Delimit Scope c_scope with c.
#[warnings="-postfix-notation-not-level-1"]
Notation "r <| f := v |>" := (@update_field _ _ f _ (λ _, v) r)
  (at level 12, left associativity, f at level 9, v at level 200,
   format "r  <| f  :=  v |>") : c_scope.
Open Scope c_scope.

(** ** Network byte order *)

Definition be16 (x : Z) : bytes := [u8 (Z.shiftr x 8); u8 x].
Definition be32 (x : Z) : bytes :=
  [u8 (Z.shiftr x 24); u8 (Z.shiftr x 16); u8 (Z.shiftr x 8); u8 x].

(** The value of a big-endian octet string. *)
Definition be_val (l : bytes) : Z := foldl (λ acc b, acc * 256 + b) 0 l.

(** [n] octets at offset [off]; out of the buffer is a bad access. *)
Definition read_at (buf : bytes) (off n : nat) : option bytes :=
  if bool_decide (off + n <= length buf)%nat then Some (take n (drop off buf)) else None.
Definition rd8 (buf : bytes) (off : nat) : option Z := buf !! off.
Definition rd16 (buf : bytes) (off : nat) : option Z := be_val <$> read_at buf off 2.
Definition rd32 (buf : bytes) (off : nat) : option Z := be_val <$> read_at buf off 4.

(** The same for integers in host order (little-endian). *)
Definition le_val (l : bytes) : Z := be_val (reverse l).
Definition rd16le (buf : bytes) (off : nat) : option Z := le_val <$> read_at buf off 2.
Definition rd32le (buf : bytes) (off : nat) : option Z := s32 ∘ le_val <$> read_at buf off 4.

(** ** Lists *)

Lemma take_eq_total (a b : bytes) n :
  length a = length b → (n <= length a)%nat →
  take n a = take n b ↔ (∀ i, (i < n)%nat → a !!! i = b !!! i).
Proof.
  intros Hl Hn. split.
  - intros E i Hi. rewrite !list_lookup_total_alt.
    rewrite <- (lookup_take_lt a n i), <- (lookup_take_lt b n i) by done. by rewrite E.
  - intros H. apply list_eq. intros i. destruct (decide (i < n)%nat).
    + rewrite !lookup_take_lt by done.
      destruct (lookup_lt_is_Some_2 a i) as [x Hx]; [lia|].
      destruct (lookup_lt_is_Some_2 b i) as [y Hy]; [lia|].
      specialize (H i ltac:(done)).
      rewrite !list_lookup_total_alt, Hx, Hy in H. simpl in H. congruence.
    + rewrite !lookup_take_ge by lia. done.
Qed.

Lemma bytes_ok_total (a : bytes) i : bytes_ok a → byte_ok (a !!! i).
Proof.
  intros H. rewrite list_lookup_total_alt.
  destruct (a !! i) eqn:E; simpl; [eapply Forall_lookup_1; eauto|].
  unfold byte_ok. simpl. lia.
Qed.

Lemma take_add {A} (l : list A) n m : take (n + m) l = take n l ++ take m (drop n l).
Proof.
  revert l. induction n as [|n IH]; intros l; [done|]. destruct l; simpl; [by rewrite take_nil|].
  by rewrite IH.
Qed.

Lemma elem_of_middle {A} (l1 l2 : list A) x : x ∈ l1 ++ x :: l2.
Proof. apply elem_of_app. right. apply list_elem_of_here. Qed.

Lemma filter_all {A} (P : A → Prop) `{!∀ x, Decision (P x)} (l : list A) :
  (∀ x, x ∈ l → P x) → filter P l = l.
Proof.
  induction l as [|x l IH]; intros Hl; [done|]. rewrite filter_cons_True by apply Hl, list_elem_of_here.
  rewrite IH; [done|]. intros y Hy. apply Hl. by right.
Qed.

Lemma Forall_filter_keep {A} (P Q : A → Prop) `{!∀ x, Decision (Q x)} (l : list A) :
  Forall P l → Forall P (filter Q l).
Proof. rewrite !Forall_forall. intros Hl x Hx. apply list_elem_of_filter in Hx as [_ ?]. auto. Qed.

Lemma rd8_app (pre l : bytes) k : rd8 (pre ++ l) (length pre + k) = l !! k.
Proof. unfold rd8. rewrite lookup_app_r by lia. f_equal. lia. Qed.

Lemma u8_ok x : byte_ok (u8 x).
Proof. unfold byte_ok, u8. zlia. Qed.
Lemma u8_id x : byte_ok x → u8 x = x.
Proof. unfold byte_ok, u8. intros. zlia. Qed.
Lemma be16_ok x : bytes_ok (be16 x).
Proof. repeat constructor; apply u8_ok. Qed.
Lemma be32_ok x : bytes_ok (be32 x).
Proof. repeat constructor; apply u8_ok. Qed.
Lemma bytes_ok_zeros n : bytes_ok (replicate n 0).
Proof. apply Forall_replicate. unfold byte_ok. lia. Qed.
Lemma be_val_be16_mod x : be_val (be16 x) = x mod 65536.
Proof. unfold be_val, be16, u8. simpl. rewrite Z.shiftr_div_pow2 by lia. change (2 ^ 8) with 256. zlia. Qed.
(** Reads inside a buffer. *)
Lemma rd8_returns buf off : bytes_ok buf → (off < length buf)%nat → ∃ b, rd8 buf off = Some b ∧ 0 <= b < 256.
Proof.
  intros Hbuf H. destruct (lookup_lt_is_Some_2 buf off H) as [b Hb]. exists b. split; [done|].
  by apply (Forall_lookup_1 _ _ _ _ Hbuf Hb).
Qed.
Lemma read_returns (buf : bytes) off n : (off + n <= length buf)%nat → ∃ v, read_at buf off n = Some v.
Proof. intros H. unfold read_at. rewrite bool_decide_true by done. eauto. Qed.
Lemma read_at_0 (l : bytes) n : (n <= length l)%nat → read_at l 0 n = Some (take n l).
Proof. intros. unfold read_at. by rewrite bool_decide_true. Qed.
Lemma bytes_ok_concat (ls : list bytes) : Forall bytes_ok ls → bytes_ok (concat ls).
Proof. induction 1; simpl; [constructor|]. by apply Forall_app. Qed.

(** Reads inside the middle part of a buffer. *)
Lemma read_at_mid (pre m post : bytes) k n :
  (k + n <= length m)%nat → read_at (pre ++ m ++ post) (length pre + k) n = read_at m k n.
Proof.
  intros Hk. unfold read_at. rewrite !bool_decide_true by (rewrite ?length_app; lia).
  f_equal. rewrite <- drop_drop, drop_app_length. rewrite drop_app_le by lia.
  rewrite take_app_le; [done|]. rewrite length_drop. lia.
Qed.
Lemma rd8_mid (pre m post : bytes) k :
  (k < length m)%nat → rd8 (pre ++ m ++ post) (length pre + k) = m !! k.
Proof. intros. rewrite rd8_app. by rewrite lookup_app_l. Qed.
Lemma rd16le_mid (pre m post : bytes) k :
  (k + 2 <= length m)%nat → rd16le (pre ++ m ++ post) (length pre + k) = rd16le m k.
Proof. intros. unfold rd16le. by rewrite read_at_mid. Qed.
Lemma rd32le_mid (pre m post : bytes) k :
  (k + 4 <= length m)%nat → rd32le (pre ++ m ++ post) (length pre + k) = rd32le m k.
Proof. intros. unfold rd32le. by rewrite read_at_mid. Qed.

Create HintDb netcmds.
#[export] Hint Resolve bytes_ok_total elem_of_middle u8_ok be16_ok be32_ok bytes_ok_zeros
  bytes_ok_concat Forall_nil_2 Forall_cons_2 Forall_app_2 Forall_take Forall_drop : netcmds.
#[export] Hint Extern 5 (byte_ok _) => (unfold byte_ok; lia) : netcmds.
