(* ===== verification/Timeval.v ===== *)
(** * Timeval: the [struct timeval] arithmetic of the two daemons

    [TIMEVAL_LT], [TIMEVAL_LEQ] are the macros of rtadvd.tproj/timer.h;
    [TIMEVAL_EQUAL], [TIMEVAL_ADD], [TIMEVAL_SUB] and [tm_max] are those of
    rtadvd.tproj/timer.c (rtsold.c carries its own copies, see Rtsold.v).
    The refinement lemmas relate them to arithmetic on microseconds. *)

From S2P Require Import Prelude.

Record timeval := TV { tv_sec : Z; tv_usec : Z }.
#[export] Instance eta_timeval : Eta timeval := λ t, TV (tv_sec t) (tv_usec t).
#[export] Instance timeval_eq_dec : EqDecision timeval.
Proof. solve_decision. Defined.

Definition MILLION : Z := 1000000.

Definition TIMEVAL_LT (a b : timeval) : bool :=
  (tv_sec a <? tv_sec b) || ((tv_sec a =? tv_sec b) && (tv_usec a <? tv_usec b)).

Definition TIMEVAL_LEQ (a b : timeval) : bool :=
  (tv_sec a <? tv_sec b) || ((tv_sec a =? tv_sec b) && (tv_usec a <=? tv_usec b)).

Definition TIMEVAL_EQUAL (a b : timeval) : bool :=
  (tv_sec a =? tv_sec b) && (tv_usec a =? tv_usec b).

Definition TIMEVAL_ADD (a b : timeval) : timeval :=
  let l := tv_usec a + tv_usec b in
  if l <? MILLION
  then TV (tv_sec a + tv_sec b) l
  else TV (tv_sec a + tv_sec b + 1) (l - MILLION).

Definition TIMEVAL_SUB (a b : timeval) : timeval :=
  let l := tv_usec a - tv_usec b in
  if 0 <=? l
  then TV (tv_sec a - tv_sec b) l
  else TV (tv_sec a - tv_sec b - 1) (MILLION + l).

(** The value of a stopped timer. *)
Definition tm_max : timeval := TV 0x7fffffff 0x7fffffff.

(** ** Microseconds *)

Definition usecs (t : timeval) : Z := tv_sec t * MILLION + tv_usec t.
Definition normal (t : timeval) : Prop := 0 <= tv_usec t < MILLION.

(** A reading of the clock, and any deadline the daemons compute from one,
    is normal and earlier than the sentinel's second. *)
Definition deadline (t : timeval) : Prop := normal t ∧ 0 <= tv_sec t < 0x7fffffff.

#[export] Instance normal_dec t : Decision (normal t).
Proof. unfold normal. apply _. Defined.
#[export] Instance deadline_dec t : Decision (deadline t).
Proof. unfold deadline. apply _. Defined.

Ltac tv_lia :=
  unfold deadline, normal, usecs, TIMEVAL_LT, TIMEVAL_LEQ, TIMEVAL_EQUAL,
    TIMEVAL_ADD, TIMEVAL_SUB, tm_max, MILLION in *; cbv zeta in *;
  repeat match goal with
  | t : timeval |- _ => destruct t
  | |- context [if ?b then _ else _] => destruct b eqn:?
  end; simpl in *; lia.

Lemma TIMEVAL_LT_spec a b :
  normal a → normal b → TIMEVAL_LT a b = true ↔ usecs a < usecs b.
Proof. intros. tv_lia. Qed.

Lemma TIMEVAL_LEQ_spec a b :
  normal a → normal b → TIMEVAL_LEQ a b = true ↔ usecs a <= usecs b.
Proof. intros. tv_lia. Qed.

Lemma TIMEVAL_EQUAL_spec a b : TIMEVAL_EQUAL a b = true ↔ a = b.
Proof.
  destruct a as [s u], b as [s' u']. unfold TIMEVAL_EQUAL; simpl.
  rewrite andb_true_iff, !Z.eqb_eq. split; [intros [-> ->] | intros [= -> ->]]; auto.
Qed.

Lemma TIMEVAL_ADD_spec a b :
  normal a → normal b →
  normal (TIMEVAL_ADD a b) ∧ usecs (TIMEVAL_ADD a b) = usecs a + usecs b.
Proof. intros. split; tv_lia. Qed.

Lemma TIMEVAL_SUB_spec a b :
  normal a → normal b →
  normal (TIMEVAL_SUB a b) ∧ usecs (TIMEVAL_SUB a b) = usecs a - usecs b.
Proof. intros. split; tv_lia. Qed.

Lemma usecs_inj a b : normal a → normal b → usecs a = usecs b → a = b.
Proof.
  destruct a as [s u], b as [s' u']. unfold normal, usecs, MILLION; simpl. intros.
  f_equal; lia.
Qed.

(** The order of the macros, without normality: a strict total order with
    [tm_max] above every deadline. *)
Lemma TIMEVAL_LT_irrefl a : TIMEVAL_LT a a = false.
Proof. tv_lia. Qed.
Lemma TIMEVAL_LT_trans a b c :
  TIMEVAL_LT a b = true → TIMEVAL_LT b c = true → TIMEVAL_LT a c = true.
Proof. tv_lia. Qed.
Lemma TIMEVAL_LEQ_LT a b : TIMEVAL_LEQ a b = negb (TIMEVAL_LT b a).
Proof. tv_lia. Qed.
Lemma TIMEVAL_LT_deadline_max t : deadline t → TIMEVAL_LT t tm_max = true.
Proof. tv_lia. Qed.
Lemma TIMEVAL_LEQ_max_deadline t : deadline t → TIMEVAL_LEQ tm_max t = false.
Proof. tv_lia. Qed.
Lemma deadline_not_max t : deadline t → t ≠ tm_max.
Proof. intros [_ H] ->. simpl in H. lia. Qed.

(** Clamped difference: the timeout handed to [select]. *)
Definition remaining (t now : timeval) : timeval :=
  if TIMEVAL_LT t now then TV 0 0 else TIMEVAL_SUB t now.

Lemma remaining_spec t now :
  normal t → normal now →
  normal (remaining t now) ∧ usecs (remaining t now) = Z.max 0 (usecs t - usecs now).
Proof. intros. unfold remaining. split; tv_lia. Qed.

Create HintDb tv.
#[export] Hint Resolve TIMEVAL_LT_deadline_max TIMEVAL_LEQ_max_deadline deadline_not_max : tv.
