(* ===== verification/In6.v ===== *)
(** * In6: IPv6 addresses, link-level addresses and prefix comparison

    The address predicates of bsd/netinet6/in6.h, the [sockaddr_dl] of
    bsd/net/if_dl.h, and the prefix arithmetic of rtadvd: [prefix_match] and
    the comparison inside [find_prefix] (rtadvd.c), [prefixlen] (if.c). The
    comparison is proved equivalent to equality of the leading address bits. *)

From S2P Require Import Prelude.

(** An address is its sixteen octets. *)
Abbreviation in6_addr := bytes.
Definition addr_ok (a : in6_addr) : Prop := length a = 16%nat ∧ bytes_ok a.
Definition in6addr_any : in6_addr := replicate 16 0.

#[export] Instance addr_ok_dec a : Decision (addr_ok a).
Proof. unfold addr_ok. apply _. Defined.

Definition IN6_IS_ADDR_UNSPECIFIED (a : in6_addr) : bool := forallb (Z.eqb 0) (take 16 a).
Definition IN6_IS_ADDR_LINKLOCAL (a : in6_addr) : bool :=
  (a !!! 0%nat =? 0xfe) && (Z.land (a !!! 1%nat) 0xc0 =? 0x80).
Definition IN6_IS_ADDR_MULTICAST (a : in6_addr) : bool := a !!! 0%nat =? 0xff.
Definition IPV6_ADDR_MC_FLAGS (a : in6_addr) : Z := Z.land (a !!! 1%nat) 0xf0.
Definition IPV6_ADDR_MC_SCOPE (a : in6_addr) : Z := Z.land (a !!! 1%nat) 0x0f.
Definition IN6_IS_ADDR_MC_LINKLOCAL (a : in6_addr) : bool :=
  IN6_IS_ADDR_MULTICAST a && negb (IPV6_ADDR_MC_FLAGS a =? 0x30)
    && (IPV6_ADDR_MC_SCOPE a =? 0x02).
Definition IN6_IS_ADDR_MC_SITELOCAL (a : in6_addr) : bool :=
  IN6_IS_ADDR_MULTICAST a && (IPV6_ADDR_MC_SCOPE a =? 0x05).
Definition IN6_ARE_ADDR_EQUAL (a b : in6_addr) : bool := bool_decide (take 16 a = take 16 b).

(** [struct sockaddr_dl]: the interface name and the link-level address share
    [sdl_data]; [LLADDR] is the part after the name. *)
Record sockaddr_dl := Sdl {
  sdl_index : Z;
  sdl_type : Z;
  sdl_nlen : nat;
  sdl_alen : nat;
  sdl_data : bytes }.
Definition LLADDR (s : sockaddr_dl) : bytes := drop (sdl_nlen s) (sdl_data s).
Definition IFT_ETHER : Z := 6.
Definition ETHER_ADDR_LEN : Z := 6.
Definition ROUNDUP8 (a : Z) : Z := 1 + Z.lor (a - 1) 7.
Definition IFF_UP : Z := 0x1.
Definition is_up (flags : Z) : bool := negb (Z.land flags IFF_UP =? 0).
Definition IFF_LOOPBACK : Z := 0x8.
Definition IFF_POINTOPOINT : Z := 0x10.
Definition IFF_RUNNING : Z := 0x40.
Definition IFF_MULTICAST : Z := 0x8000.
Definition AF_INET : Z := 2.
Definition AF_LINK : Z := 18.
Definition AF_INET6 : Z := 30.

(** The test shared by [find_prefix] and [prefix_match]: [memcmp] of the
    whole octets, then the masked comparison of the partial one. *)
Definition prefix_bits_eq (p0 p1 : in6_addr) (plen : Z) : bool :=
  let bytelen := Z.to_nat (plen / 8) in
  let bitlen := plen mod 8 in
  let bitmask := u8 (Z.shiftl 0xff (8 - bitlen)) in
  if bool_decide (take bytelen p0 = take bytelen p1)
  then (bitlen =? 0)
       || (Z.land (p0 !!! bytelen) bitmask =? Z.land (p1 !!! bytelen) bitmask)
  else false.

Definition prefix_match (p0 : in6_addr) (plen0 : Z) (p1 : in6_addr) (plen1 : Z) : Z :=
  if plen0 <? plen1 then 0 else if prefix_bits_eq p0 p1 plen1 then 1 else 0.

(** The octet lengths [prefixlen] accepts. *)
Definition mask_octet_len (b : Z) : option Z :=
  if b =? 0xff then Some 8 else if b =? 0xfe then Some 7 else
  if b =? 0xfc then Some 6 else if b =? 0xf8 then Some 5 else
  if b =? 0xf0 then Some 4 else if b =? 0xe0 then Some 3 else
  if b =? 0xc0 then Some 2 else if b =? 0x80 then Some 1 else
  if b =? 0x00 then Some 0 else None.

Fixpoint prefixlen_loop (masklen : Z) (p : bytes) : Z :=
  match p with
  | [] => masklen
  | b :: p' =>
      match mask_octet_len b with
      | Some n => prefixlen_loop (masklen + n) p'
      | None => -1
      end
  end.
Definition prefixlen (p : bytes) : Z := prefixlen_loop 0 p.

(** ** Bits of an address *)

Definition addr_bit (a : in6_addr) (i : Z) : bool :=
  Z.testbit (a !!! Z.to_nat (i / 8)) (7 - i mod 8).

Definition same_prefix (plen : Z) (a b : in6_addr) : Prop :=
  ∀ i, 0 <= i < plen → addr_bit a i = addr_bit b i.

Lemma byte_bits_ext x y :
  byte_ok x → byte_ok y → (∀ j, 0 <= j < 8 → Z.testbit x j = Z.testbit y j) → x = y.
Proof.
  intros Hx Hy H. apply Z.bits_inj'. intros j Hj.
  destruct (Z.lt_ge_cases j 8); [auto with lia|].
  unfold byte_ok in *. rewrite !Z.testbit_eqb by lia.
  assert (Hp : 2 ^ 8 <= 2 ^ j) by (apply Z.pow_le_mono_r; lia).
  rewrite !Z.div_small by lia. reflexivity.
Qed.

(** The partial-octet mask keeps the [k] leading bits of an octet. *)
Lemma octet_mask_testbit x k j :
  byte_ok x → 0 < k < 8 → 0 <= j < 8 →
  Z.testbit (Z.land x (u8 (Z.shiftl 0xff (8 - k)))) j = Z.testbit x j && (8 - k <=? j).
Proof.
  intros Hx Hk Hj. rewrite Z.land_spec. f_equal. unfold u8.
  rewrite Z.mod_pow2_bits_low by lia. rewrite Z.shiftl_spec by lia.
  destruct (Z.leb_spec (8 - k) j).
  - change 255 with (Z.ones 8). rewrite Z.ones_spec_low by lia. reflexivity.
  - rewrite Z.testbit_neg_r by lia. reflexivity.
Qed.

Lemma octet_mask_eq x y k :
  byte_ok x → byte_ok y → 0 < k < 8 →
  Z.land x (u8 (Z.shiftl 0xff (8 - k))) = Z.land y (u8 (Z.shiftl 0xff (8 - k))) ↔
  (∀ j, 0 <= j < k → Z.testbit x (7 - j) = Z.testbit y (7 - j)).
Proof.
  intros Hx Hy Hk.
  assert (Hb : ∀ z, byte_ok z → byte_ok (Z.land z (u8 (Z.shiftl 255 (8 - k))))).
  { intros z Hz. unfold byte_ok in *. split; [apply Z.land_nonneg; lia|].
    destruct (Z.eq_dec (Z.land z (u8 (Z.shiftl 255 (8 - k)))) 0) as [->|]; [lia|].
    apply Z.log2_lt_cancel. eapply Z.le_lt_trans; [apply Z.log2_land; [lia|]|].
    - unfold u8. apply Z.mod_pos_bound. lia.
    - assert (Z.log2 z <= 7); [|change (Z.log2 256) with 8; lia].
      change 7 with (Z.log2 255). apply Z.log2_le_mono. lia. }
  split.
  - intros E j Hj.
    assert (E' := f_equal (λ z, Z.testbit z (7 - j)) E). cbv beta in E'.
    rewrite !octet_mask_testbit in E' by (auto; lia).
    replace (8 - k <=? 7 - j) with true in E' by lia. by rewrite !andb_true_r in E'.
  - intros H. apply byte_bits_ext; auto. intros j Hj.
    rewrite !octet_mask_testbit by (auto; lia).
    destruct (Z.leb_spec (8 - k) j); [|by rewrite !andb_false_r].
    specialize (H (7 - j)). replace (7 - (7 - j)) with j in H by lia. rewrite H by lia. done.
Qed.

Lemma octets_eq_bits a b n :
  addr_ok a → addr_ok b → 0 <= n <= 16 →
  take (Z.to_nat n) a = take (Z.to_nat n) b ↔ same_prefix (8 * n) a b.
Proof.
  intros [La Ha] [Lb Hb] Hn. rewrite take_eq_total by zlia. split.
  - intros H i Hi. unfold addr_bit. rewrite H; [done|].
    apply Nat2Z.inj_lt. rewrite !Z2Nat.id by (try apply Z.div_pos; lia).
    apply Z.div_lt_upper_bound; lia.
  - intros H i Hi. apply byte_bits_ext; [auto with netcmds..|]. intros j Hj.
    specialize (H (8 * Z.of_nat i + (7 - j)) ltac:(zlia)). unfold addr_bit in H.
    replace ((8 * Z.of_nat i + (7 - j)) / 8) with (Z.of_nat i) in H by zlia.
    replace (7 - (8 * Z.of_nat i + (7 - j)) mod 8) with j in H by zlia.
    by rewrite !Nat2Z.id in H.
Qed.

Lemma same_prefix_split plen a b :
  0 <= plen →
  same_prefix plen a b ↔
  same_prefix (8 * (plen / 8)) a b ∧
  (∀ j, 0 <= j < plen mod 8 →
     Z.testbit (a !!! Z.to_nat (plen / 8)) (7 - j) = Z.testbit (b !!! Z.to_nat (plen / 8)) (7 - j)).
Proof.
  intros Hp. split.
  - intros H. split; [intros i Hi; apply H; zlia|]. intros j Hj.
    specialize (H (8 * (plen / 8) + j) ltac:(zlia)). unfold addr_bit in H.
    replace ((8 * (plen / 8) + j) / 8) with (plen / 8) in H by zlia.
    by replace ((8 * (plen / 8) + j) mod 8) with j in H by zlia.
  - intros [H1 H2] i Hi. destruct (decide (i < 8 * (plen / 8))); [apply H1; zlia|].
    unfold addr_bit. replace (i / 8) with (plen / 8) by zlia.
    apply H2. zlia.
Qed.

Lemma prefix_bits_eq_spec a b plen :
  addr_ok a → addr_ok b → 0 <= plen <= 128 →
  prefix_bits_eq a b plen = true ↔ same_prefix plen a b.
Proof.
  intros Ha Hb Hp. unfold prefix_bits_eq. rewrite same_prefix_split by zlia.
  rewrite <- (octets_eq_bits a b (plen / 8)) by (auto; zlia).
  case_bool_decide as E; [|split; [done|tauto]].
  rewrite orb_true_iff, Z.eqb_eq, Z.eqb_eq.
  destruct (Z.eq_dec (plen mod 8) 0) as [->|Hm].
  - split; [|auto]. intros _. split; [done|lia].
  - rewrite octet_mask_eq by (try apply bytes_ok_total; try apply Ha; try apply Hb; zlia).
    intuition lia.
Qed.

Lemma same_prefix_refl n a : same_prefix n a a.
Proof. by intros i. Qed.
Lemma same_prefix_sym n a b : same_prefix n a b → same_prefix n b a.
Proof. intros H i Hi. symmetry. auto. Qed.
Lemma same_prefix_trans n a b c : same_prefix n a b → same_prefix n b c → same_prefix n a c.
Proof. intros H1 H2 i Hi. rewrite H1 by done. auto. Qed.

#[export] Instance same_prefix_equiv n : Equivalence (same_prefix n).
Proof.
  split; [intros ?; apply same_prefix_refl | intros ???; by apply same_prefix_sym
         | intros ?????; by eapply same_prefix_trans].
Qed.

(** ** Netmasks *)

Lemma mask_octet_len_bound b k : mask_octet_len b = Some k → 0 <= k <= 8.
Proof. unfold mask_octet_len. intros E. repeat case_match; simplify_eq; lia. Qed.

Lemma prefixlen_loop_bound p : ∀ m, 0 <= m →
  prefixlen_loop m p = -1 ∨ m <= prefixlen_loop m p <= m + 8 * Z.of_nat (length p).
Proof.
  induction p as [|b p IH]; intros m Hm; simpl; [lia|].
  destruct (mask_octet_len b) as [k|] eqn:E; [|lia].
  apply mask_octet_len_bound in E. destruct (IH (m + k)); lia.
Qed.

Lemma prefixlen_loop_acc p : ∀ m, 0 <= m →
  prefixlen_loop m p = if prefixlen p =? -1 then -1 else m + prefixlen p.
Proof.
  unfold prefixlen. induction p as [|b p IH]; intros m Hm; simpl; [lia|].
  destruct (mask_octet_len b) as [k|] eqn:E; [|done].
  apply mask_octet_len_bound in E.
  rewrite (IH (m + k)), (IH (0 + k)) by lia.
  destruct (prefixlen_loop_bound p 0); repeat case_match; lia.
Qed.

(** The octets of a mask of [n] one bits followed by zero bits. *)
Definition contiguous_mask (p : bytes) (n : Z) : Prop :=
  ∀ i, 0 <= i < 8 * Z.of_nat (length p) → addr_bit p i = (i <? n).

Definition octet_of_len (k : Z) : Z := 256 - 2 ^ (8 - k).

Lemma octet_of_len_mask k : 0 <= k <= 8 → mask_octet_len (octet_of_len k) = Some k.
Proof.
  intros Hk. assert (k = 0 ∨ k = 1 ∨ k = 2 ∨ k = 3 ∨ k = 4 ∨ k = 5 ∨ k = 6 ∨ k = 7 ∨ k = 8)
    as Hc by zlia.
  destruct_or! Hc; subst; reflexivity.
Qed.

Lemma octet_of_len_testbit k j :
  0 <= k <= 8 → 0 <= j < 8 → Z.testbit (octet_of_len k) (7 - j) = (j <? k).
Proof.
  intros Hk Hj.
  assert (octet_of_len k = Z.shiftl (Z.ones k) (8 - k)) as ->.
  { rewrite Z.shiftl_mul_pow2, Z.ones_equiv by zlia. unfold octet_of_len.
    replace 256 with (2 ^ (k + (8 - k))) by (replace (k + (8 - k)) with 8 by zlia; done).
    rewrite Z.pow_add_r by zlia. lia. }
  rewrite Z.shiftl_spec by zlia.
  destruct (Z.ltb_spec j k).
  - apply Z.ones_spec_low. lia.
  - destruct (Z.lt_ge_cases (7 - j - (8 - k)) 0); [by rewrite Z.testbit_neg_r|lia].
Qed.

Lemma octet_of_bits b k :
  byte_ok b → 0 <= k <= 8 → (∀ j, 0 <= j < 8 → Z.testbit b (7 - j) = (j <? k)) →
  b = octet_of_len k.
Proof.
  intros Hb Hk H. apply byte_bits_ext; [done| |].
  - unfold byte_ok, octet_of_len.
    assert (1 <= 2 ^ (8 - k) <= 2 ^ 8); [|lia].
    split; [apply Z.pow_le_mono_r with (b := 0); lia | apply Z.pow_le_mono_r; lia].
  - intros j Hj. specialize (H (7 - j) ltac:(zlia)).
    replace (7 - (7 - j)) with j in H by zlia. rewrite H.
    rewrite <- (octet_of_len_testbit k (7 - j)) by zlia. f_equal. lia.
Qed.

Lemma contiguous_mask_cons b p n :
  contiguous_mask (b :: p) n →
  (∀ j, 0 <= j < 8 → Z.testbit b (7 - j) = (j <? n)) ∧ contiguous_mask p (n - 8).
Proof.
  intros H. split.
  - intros j Hj. specialize (H j). simpl length in H. rewrite Nat2Z.inj_succ in H.
    rewrite <- H by zlia. unfold addr_bit.
    replace (j / 8) with 0 by zlia. by replace (j mod 8) with j by zlia.
  - intros i Hi. specialize (H (i + 8)). simpl length in H. rewrite Nat2Z.inj_succ in H.
    specialize (H ltac:(zlia)). unfold addr_bit in *.
    replace ((i + 8) / 8) with (i / 8 + 1) in H by zlia.
    replace ((i + 8) mod 8) with (i mod 8) in H by zlia.
    rewrite Z2Nat.inj_add in H by zlia. rewrite Nat.add_comm in H. simpl in H.
    rewrite H. lia.
Qed.

Lemma prefixlen_contiguous_aux p : ∀ n,
  bytes_ok p → 0 <= n <= 8 * Z.of_nat (length p) → contiguous_mask p n → prefixlen p = n.
Proof.
  induction p as [|b p IH]; intros n Hok Hn Hc.
  - simpl in Hn. unfold prefixlen; simpl. lia.
  - apply Forall_cons in Hok as [Hb Hok].
    destruct (contiguous_mask_cons _ _ _ Hc) as [Hh Ht].
    simpl length in Hn. rewrite Nat2Z.inj_succ in Hn.
    unfold prefixlen. simpl. destruct (decide (n <= 8)).
    + rewrite (octet_of_bits b n), octet_of_len_mask by (auto; zlia).
      assert (Hz : contiguous_mask p 0).
      { intros i Hi. specialize (Ht i Hi). rewrite Ht. lia. }
      rewrite prefixlen_loop_acc by zlia. rewrite (IH 0) by (auto; zlia). simpl. lia.
    + rewrite (octet_of_bits b 8), octet_of_len_mask by (auto; lia || (intros j Hj; rewrite Hh by zlia; lia)).
      rewrite prefixlen_loop_acc by zlia. rewrite (IH (n - 8)) by (auto; zlia).
      case_match; lia.
Qed.

(** [prefix_match] answers 1 exactly when the first prefix is at least as
    long as the second and agrees with it on all the bits of the second one;
    its comparison of whole octets and a masked partial octet is the
    comparison of the leading bits. *)
Lemma prefix_match_spec a plen0 b plen1 :
  addr_ok a → addr_ok b → 0 <= plen1 <= 128 →
  (prefix_match a plen0 b plen1 = 1 ↔ plen1 <= plen0 ∧ same_prefix plen1 a b) ∧
  (prefix_match a plen0 b plen1 = 0 ∨ prefix_match a plen0 b plen1 = 1).
Proof.
  intros Ha Hb Hp. unfold prefix_match. rewrite <- (prefix_bits_eq_spec a b plen1 Ha Hb Hp).
  destruct (Z.ltb_spec plen0 plen1), (prefix_bits_eq a b plen1); (split; [split|]); auto; lia || naive_solver lia.
Qed.

Lemma prefix_match_spec_witness :
  prefix_match (0x20 :: 0x01 :: 0xff :: replicate 13 0) 64 (0x20 :: 0x01 :: 0xc0 :: replicate 13 0) 18 = 1.
Proof.
  apply (prefix_match_spec (0x20 :: 0x01 :: 0xff :: replicate 13 0) 64
    (0x20 :: 0x01 :: 0xc0 :: replicate 13 0) 18).
  - split; [done|]. apply (bool_decide_eq_true_1 (bytes_ok _)). reflexivity.
  - split; [done|]. apply (bool_decide_eq_true_1 (bytes_ok _)). reflexivity.
  - lia.
  - split; [lia|]. intros i Hi.
    assert (Hc : i ∈ seqZ 0 18) by (apply elem_of_seqZ; lia).
    clear Hi. revert i Hc. apply Forall_forall. vm_compute. repeat constructor.
Defined.

(** [prefixlen] returns the number of leading one bits of every netmask, of
    any length, and -1 or a number of bits of the mask on any other octets. *)
Lemma prefixlen_netmask p :
  bytes_ok p →
  (∀ n, 0 <= n <= 8 * Z.of_nat (length p) → contiguous_mask p n → prefixlen p = n) ∧
  (prefixlen p = -1 ∨ 0 <= prefixlen p <= 8 * Z.of_nat (length p)).
Proof.
  intros Hp. split; [intros n; by apply prefixlen_contiguous_aux|].
  destruct (prefixlen_loop_bound p 0); [lia|auto|]. right. unfold prefixlen. lia.
Qed.

Lemma prefixlen_netmask_witness : prefixlen [0xff; 0xff; 0xf8; 0] = 21.
Proof.
  apply (prefixlen_netmask [0xff; 0xff; 0xf8; 0]).
  - apply (bool_decide_eq_true_1 (bytes_ok _)). reflexivity.
  - simpl. lia.
  - intros i Hi. simpl in Hi. assert (Hc : i ∈ seqZ 0 32) by (apply elem_of_seqZ; lia).
    clear Hi. revert i Hc. apply Forall_forall. vm_compute. repeat constructor.
Defined.
