(* ===== verification/Rtsold.v ===== *)
(** * Rtsold: the router solicitation daemon (rtsol.tproj)

    The per-interface state machine of rtsold.c ([rtsol_check_timer],
    [rtsol_timer_update], [ifconfig]), the packets of rtsol.c ([sendpacket],
    [rtsol_input]), the interface queries of if.c ([interface_up],
    [interface_status], [get_llflag], [lladdropt_fill]) and the default-router
    probe of probe.c. System calls are answered by a [kernel] record that is
    an argument; packets sent and flags set are events. *)

From S2P Require Import Prelude Timeval In6.

(** ** Data *)

Inductive ifstate :=
  | IFS_IDLE | IFS_DELAY | IFS_PROBE | IFS_DOWN | IFS_TENTATIVE | IFS_OPTIMISTIC.
#[export] Instance ifstate_eq_dec : EqDecision ifstate.
Proof. solve_decision. Defined.

Record ifinfo := Ifinfo {
  sdl : sockaddr_dl;
  ifname : string;
  active : Z;
  probeinterval : Z;
  probetimer : Z;
  mediareqok : Z;
  state : ifstate;
  probes : Z;
  dadcount : Z;
  timer : timeval;
  expire : timeval;
  errors : Z;
  racnt : Z;
  rs_datalen : Z;
  rs_data : bytes }.
#[export] Instance eta_ifinfo : Eta ifinfo := λ i,
  Ifinfo (sdl i) (ifname i) (active i) (probeinterval i) (probetimer i) (mediareqok i)
    (state i) (probes i) (dadcount i) (timer i) (expire i) (errors i) (racnt i)
    (rs_datalen i) (rs_data i).

Definition MAX_RTR_SOLICITATION_DELAY : Z := 1.
Definition RTR_SOLICITATION_INTERVAL : Z := 4.
Definition MAX_RTR_SOLICITATIONS : Z := 3.
Definition PROBE_INTERVAL : Z := 60.
Definition DADRETRY : Z := 10.
Definition ND_ROUTER_SOLICIT : Z := 133.
Definition ND_ROUTER_ADVERT : Z := 134.
Definition ND_OPT_SOURCE_LINKADDR : Z := 1.
Definition IN6_IFF_TENTATIVE : Z := 0x0002.
Definition IN6_IFF_DUPLICATED : Z := 0x0004.
Definition IN6_IFF_OPTIMISTIC : Z := 0x0200.
Definition IN6_IFF_DADPROGRESS : Z := Z.lor IN6_IFF_TENTATIVE IN6_IFF_OPTIMISTIC.
Definition IN6_IFF_NOTREADY : Z := Z.lor IN6_IFF_TENTATIVE IN6_IFF_DUPLICATED.
Definition IFM_AVALID : Z := 0x1.
Definition IFM_ACTIVE : Z := 0x2.
Definition IFM_NMASK : Z := 0xe0.
Definition IFM_ETHER : Z := 0x20.

(** One entry of [getifaddrs], with the answer of [SIOCGIFAFLAG_IN6] on it. *)
Record ifaddr := Ifaddr {
  ifa_name : string;
  ifa_flags : Z;
  ifa_family : Z;
  ifa_addr : in6_addr;
  ifa_flags6 : option Z }.

(** The answer of [SIOCGIFMEDIA]: status and active words, or [errno]. *)
Inductive media_answer :=
  | MediaOk (ifm_status ifm_active : Z)
  | MediaEINVAL
  | MediaError.

(** What the kernel answers while one interface is being handled. *)
Record kernel := Kernel {
  k_now : timeval;
  k_random : Z;
  k_flags : option Z;
  k_media : media_answer;
  k_ifaddrs : list ifaddr;
  k_drlist : option (list (Z * in6_addr)) }.

Inductive event :=
  | EvSendRS (ifindex : Z) (data : bytes)
  | EvProbe (ifindex : Z) (router : in6_addr)
  | EvSetFlags (name : string) (flags : Z).

(** ** timeval utilities of rtsold.c *)

Definition TIMEVAL_EQ (a b : timeval) : bool :=
  (tv_sec a =? tv_sec b) && (tv_usec a =? tv_usec b).

Definition rtsold_TIMEVAL_ADD (a b : timeval) : timeval :=
  let l := tv_usec a + tv_usec b in
  if l <? MILLION
  then TV (tv_sec a + tv_sec b) l
  else TV (tv_sec a + tv_sec b + 1) (l - MILLION).

Definition rtsold_TIMEVAL_SUB (a b : timeval) : timeval :=
  let l := tv_usec a - tv_usec b in
  if 0 <=? l
  then TV (tv_sec a - tv_sec b) l
  else TV (tv_sec a - tv_sec b - 1) (MILLION + l).

(** ** if.c *)

(** The flags of the first link-local address of the interface; -1 when there
    is none. *)
Fixpoint get_llflag (ifas : list ifaddr) (name : string) : outcome Z :=
  match ifas with
  | [] => Ret (-1)
  | ifa :: ifas' =>
      if negb (bool_decide (ifa_name ifa = name)) then get_llflag ifas' name
      else if negb (ifa_family ifa =? AF_INET6) then get_llflag ifas' name
      else if negb (IN6_IS_ADDR_LINKLOCAL (ifa_addr ifa)) then get_llflag ifas' name
      else match ifa_flags6 ifa with
           | None => Exit 1
           | Some flags6 => Ret flags6
           end
  end.

(** Returns 0 when the interface is ready, [IFS_TENTATIVE] (4) or
    [IFS_OPTIMISTIC] (5) during duplicate address detection, -1 otherwise. *)
Definition interface_up (k : kernel) (name : string) : outcome (Z * list event) :=
  match k_flags k with
  | None => Ret (-1, [])
  | Some flags =>
      if negb (truthy (Z.land flags IFF_UP))
      then Ret (-1, [EvSetFlags name (Z.lor flags IFF_UP)])
      else
        llflag ← get_llflag (k_ifaddrs k) name;
        if llflag <? 0 then Ret (0, [])
        else if negb (truthy (Z.land llflag (Z.lor IN6_IFF_NOTREADY IN6_IFF_DADPROGRESS)))
        then Ret (0, [])
        else if truthy (Z.land llflag IN6_IFF_TENTATIVE) then Ret (4, [])
        else if truthy (Z.land llflag IN6_IFF_OPTIMISTIC) then Ret (5, [])
        else Ret (-1, [])
  end.

(** Returns the status and the interface, whose [mediareqok] is cleared when
    the driver has no media ioctl. *)
Definition interface_status (k : kernel) (i : ifinfo) : Z * ifinfo :=
  match k_flags k with
  | None => (-1, i)
  | Some flags =>
      if negb (Z.land flags (Z.lor IFF_UP IFF_RUNNING) =? Z.lor IFF_UP IFF_RUNNING)
      then (0, i)
      else if negb (truthy (mediareqok i)) then (1, i)
      else match k_media k with
           | MediaError => (-1, i)
           | MediaEINVAL => (1, i <| mediareqok := 0 |>)
           | MediaOk ifm_status ifm_active =>
               if truthy (Z.land ifm_status IFM_AVALID)
               then if Z.land ifm_active IFM_NMASK =? IFM_ETHER
                    then if truthy (Z.land ifm_status IFM_ACTIVE) then (1, i) else (0, i)
                    else (0, i)
               else (0, i)
           end
  end.

Definition lladdropt_length (s : sockaddr_dl) : Z :=
  if sdl_type s =? IFT_ETHER then ROUNDUP8 (ETHER_ADDR_LEN + 2) else 0.

Definition lladdropt_fill (s : sockaddr_dl) : outcome bytes :=
  if sdl_type s =? IFT_ETHER
  then addr ← of_opt (read_at (LLADDR s) 0 (Z.to_nat ETHER_ADDR_LEN));
       Ret (ND_OPT_SOURCE_LINKADDR :: u8 (Z.shiftr (ROUNDUP8 (ETHER_ADDR_LEN + 2)) 3) :: addr)
  else Exit 1.

(** ** rtsold.c: the solicitation message and its transmission *)

Definition make_packet (i : ifinfo) : outcome ifinfo :=
  let lladdroptlen := lladdropt_length (sdl i) in
  let packlen := 8 + lladdroptlen in
  let rs := [ND_ROUTER_SOLICIT; 0; 0; 0; 0; 0; 0; 0] in
  opt ← (if truthy lladdroptlen then lladdropt_fill (sdl i) else Ret []);
  Ret (i <| rs_datalen := packlen |> <| rs_data := rs ++ opt |>).

(** Sends the message to ff02::2 with hop limit 255; the result of [sendmsg]
    is only logged. *)
Definition sendpacket (i : ifinfo) : ifinfo * list event :=
  (i <| probes := probes i + 1 |>, [EvSendRS (sdl_index (sdl i)) (rs_data i)]).

(** The loop reads the entry before it tests the index against [PRLSTSIZ], so
    a table without a zero entry is read past its end. *)
Fixpoint defrouter_loop (ifindex : Z) (dr : list (Z * in6_addr)) : outcome (list event) :=
  match dr with
  | [] => Crash
  | (if_index, rtaddr) :: dr' =>
      if if_index =? 0 then Ret []
      else
        rest ← defrouter_loop ifindex dr';
        if truthy ifindex && (if_index =? ifindex) && IN6_IS_ADDR_LINKLOCAL rtaddr
        then Ret (EvProbe if_index rtaddr :: rest)
        else Ret rest
  end.
Definition defrouter_probe (k : kernel) (ifindex : Z) : outcome (list event) :=
  match k_drlist k with
  | None => Ret []
  | Some dr => defrouter_loop ifindex dr
  end.

(** ** rtsold.c: timers *)

(** The end of [rtsol_timer_update]: the deadline for a new timer value. *)
Definition reset_timer (k : kernel) (i : ifinfo) : ifinfo :=
  if TIMEVAL_EQ (timer i) tm_max then i <| expire := tm_max |>
  else i <| expire := rtsold_TIMEVAL_ADD (k_now k) (timer i) |>.

Definition rtsol_timer_update (mobile_node : bool) (k : kernel) (i0 : ifinfo) : ifinfo :=
  let i := i0 <| timer := TV 0 0 |> in
  match state i with
  | IFS_DOWN | IFS_TENTATIVE =>
      let i := i <| dadcount := dadcount i + 1 |> in
      reset_timer k (if DADRETRY <? dadcount i
                     then i <| dadcount := 0 |> <| timer := TV PROBE_INTERVAL 0 |>
                     else i <| timer := TV 1 0 |>)
  | IFS_IDLE =>
      reset_timer k (i <| timer := if mobile_node then TV 3 0 else tm_max |>)
  | IFS_DELAY =>
      let interval := k_random k mod (MAX_RTR_SOLICITATION_DELAY * MILLION) in
      reset_timer k (i <| timer := TV (interval / MILLION) (interval mod MILLION) |>)
  | IFS_PROBE =>
      reset_timer k (i <| timer := if probes i <? MAX_RTR_SOLICITATIONS
                           then TV RTR_SOLICITATION_INTERVAL 0
                           else TV MAX_RTR_SOLICITATION_DELAY 0 |>)
  | IFS_OPTIMISTIC => i
  end.

(** The state an answer of [interface_up] puts an interface in. *)
Definition state_of_flags (flags : Z) : ifstate :=
  if flags =? 0 then IFS_DELAY else if flags =? 4 then IFS_TENTATIVE else IFS_DOWN.

(** The switch of [rtsol_check_timer] on an interface whose timer expired,
    followed by [rtsol_timer_update]. *)
Definition timer_expired (mobile_node : bool) (k : kernel) (i : ifinfo)
    : outcome (ifinfo * list event) :=
  '(i', ev) ←
    match state i with
    | IFS_DOWN | IFS_TENTATIVE =>
        '(flags, ev) ← interface_up k (ifname i);
        Ret (i <| state := state_of_flags flags |>, ev)
    | IFS_IDLE =>
        let oldstatus := active i in
        let '(st, i) := interface_status k i in
        let i := i <| active := st |> in
        let '(i, probe) :=
          if negb (oldstatus =? active i) then (i <| state := IFS_DELAY |>, true)
          else if truthy (probeinterval i) then
            let i := i <| probetimer := s32 (probetimer i - tv_sec (timer i)) |> in
            if probetimer i <=? 0
            then (i <| probetimer := probeinterval i |> <| state := IFS_PROBE |>, true)
            else (i, false)
          else (i, false) in
        ev ← (if probe && mobile_node then defrouter_probe k (sdl_index (sdl i)) else Ret []);
        Ret (i, ev)
    | IFS_DELAY => Ret (sendpacket (i <| state := IFS_PROBE |>))
    | IFS_PROBE =>
        if probes i <? MAX_RTR_SOLICITATIONS then Ret (sendpacket i)
        else Ret (i <| probes := 0 |> <| state := IFS_IDLE |>, [])
    | IFS_OPTIMISTIC => Ret (i, [])
    end;
  Ret (rtsol_timer_update mobile_node k i', ev).

(** The loop of [rtsol_check_timer] over [iflist]; [ks n] answers the calls
    made for the [n]-th interface. *)
Fixpoint check_loop (mobile_node : bool) (now : timeval) (ks : nat → kernel)
    (l : list ifinfo) (rtsol_timer : timeval)
    : outcome (list ifinfo * timeval * list event) :=
  match l with
  | [] => Ret ([], rtsol_timer, [])
  | i :: l' =>
      '(i, ev) ← (if TIMEVAL_LEQ (expire i) now
                  then timer_expired mobile_node (ks 0%nat) i else Ret (i, []));
      let rtsol_timer := if TIMEVAL_LT (expire i) rtsol_timer then expire i else rtsol_timer in
      '(l', t, ev') ← check_loop mobile_node now (λ n, ks (S n)) l' rtsol_timer;
      Ret (i :: l', t, ev ++ ev')
  end.

(** Returns the new interface list, the timeout for [select] ([None] is a
    null pointer: wait for ever) and the events. *)
Definition rtsol_check_timer (mobile_node : bool) (now : timeval) (ks : nat → kernel)
    (iflist : list ifinfo) : outcome (list ifinfo * option timeval * list event) :=
  '(l, rtsol_timer, ev) ← check_loop mobile_node now ks iflist tm_max;
  if TIMEVAL_EQ rtsol_timer tm_max then Ret (l, None, ev)
  else if TIMEVAL_LT rtsol_timer now then Ret (l, Some (TV 0 0), ev)
  else Ret (l, Some (rtsold_TIMEVAL_SUB rtsol_timer now), ev).

(** ** rtsold.c: configuration, rtsol.c: reception *)

Fixpoint find_ifinfo (iflist : list ifinfo) (ifindex : Z) : option ifinfo :=
  match iflist with
  | [] => None
  | i :: l => if sdl_index (sdl i) =? ifindex then Some i else find_ifinfo l ifindex
  end.

Definition empty_ifinfo (s : sockaddr_dl) (name : string) : ifinfo :=
  Ifinfo s name 0 0 0 0 IFS_IDLE 0 0 (TV 0 0) (TV 0 0) 0 0 0 [].

(** [ifconfig]: the result is -1 and an unchanged list on failure. *)
Definition ifconfig (mobile_node : bool) (k : kernel) (osdl : option sockaddr_dl)
    (name : string) (iflist : list ifinfo) : outcome (Z * list ifinfo * list event) :=
  match osdl with
  | None => Ret (-1, iflist, [])
  | Some s =>
      match find_ifinfo iflist (sdl_index s) with
      | Some _ => Ret (-1, iflist, [])
      | None =>
          i ← make_packet (empty_ifinfo s name);
          let '(st, i) := interface_status k (i <| mediareqok := 1 |>) in
          let i := i <| active := st |> in
          let i := if truthy (mediareqok i) then i else i <| probeinterval := PROBE_INTERVAL |> in
          '(flags, ev) ← interface_up k (ifname i);
          let i := rtsol_timer_update mobile_node k (i <| state := state_of_flags flags |>) in
          Ret (0, i :: iflist, ev)
      end
  end.

(** The control messages of a received packet that [rtsol_input] looks at. *)
Inductive cmsg := CmsgPktinfo (ipi6_ifindex : Z) | CmsgHoplimit (hlim : Z) | CmsgOther.

Definition cmsg_pktinfo (cms : list cmsg) : option Z :=
  foldl (λ acc c, match c with CmsgPktinfo i => Some i | _ => acc end) None cms.
Definition cmsg_hoplimit (cms : list cmsg) : option Z :=
  foldl (λ acc c, match c with CmsgHoplimit h => Some h | _ => acc end) None cms.

Fixpoint update_ifinfo (ifindex : Z) (f : ifinfo → ifinfo) (l : list ifinfo) : list ifinfo :=
  match l with
  | [] => []
  | i :: l => if sdl_index (sdl i) =? ifindex then f i :: l else i :: update_ifinfo ifindex f l
  end.

(** What a valid advertisement does to the interface it arrived on. *)
Definition ra_received (mobile_node : bool) (k : kernel) (i : ifinfo) : ifinfo :=
  let i := i <| racnt := racnt i + 1 |> in
  match state i with
  | IFS_PROBE => rtsol_timer_update mobile_node k (i <| state := IFS_IDLE |> <| probes := 0 |>)
  | _ => i
  end.

(** [msg] is the received datagram ([None]: [recvmsg] failed). *)
Definition rtsol_input (mobile_node : bool) (k : kernel) (msg : option bytes)
    (cms : list cmsg) (from : in6_addr) (iflist : list ifinfo) : list ifinfo :=
  match msg with
  | None => iflist
  | Some icp =>
      match cmsg_pktinfo cms, cmsg_hoplimit cms with
      | Some ifindex, Some hlim =>
          if ifindex =? 0 then iflist
          else if (length icp <? 16)%nat then iflist
          else if negb (icp !!! 0%nat =? ND_ROUTER_ADVERT) then iflist
          else if negb (icp !!! 1%nat =? 0) then iflist
          else if negb (hlim =? 255) then iflist
          else if negb (IN6_IS_ADDR_LINKLOCAL from) then iflist
          else match find_ifinfo iflist ifindex with
               | None => iflist
               | Some _ => update_ifinfo ifindex (ra_received mobile_node k) iflist
               end
      | _, _ => iflist
      end
  end.

(** The test of the main loop that ends a run with [-1] (or as [rtsol]). *)
Definition once_done (timeout : option timeval) (iflist : list ifinfo) : bool :=
  match timeout with
  | None => true
  | Some _ => forallb (λ i, bool_decide (state i = IFS_DOWN) || negb (racnt i =? 0)) iflist
  end.

(** ** Invariant *)

(** The clock is normal and more than [PROBE_INTERVAL] before the second of
    [tm_max] (January 2038), so that no deadline reaches the sentinel. *)
Definition clock_ok (k : kernel) : Prop :=
  normal (k_now k) ∧ 0 <= tv_sec (k_now k) < 0x7fffffff - PROBE_INTERVAL.

(** The part of the invariant that does not mention the timer. *)
Definition counters_ok (i : ifinfo) : Prop :=
  0 <= probes i <= MAX_RTR_SOLICITATIONS ∧ 0 <= dadcount i <= DADRETRY ∧
  state i ≠ IFS_OPTIMISTIC ∧ (state i ≠ IFS_PROBE → probes i = 0).

Definition timer_ok (mobile_node : bool) (i : ifinfo) : Prop :=
  match state i with
  | IFS_IDLE => timer i = if mobile_node then TV 3 0 else tm_max
  | IFS_DELAY => tv_sec (timer i) = 0 ∧ normal (timer i)
  | IFS_PROBE => timer i = if probes i <? MAX_RTR_SOLICITATIONS then TV 4 0 else TV 1 0
  | IFS_DOWN | IFS_TENTATIVE => timer i = TV 1 0 ∨ timer i = TV PROBE_INTERVAL 0
  | IFS_OPTIMISTIC => False
  end.

Definition wf_if (mobile_node : bool) (i : ifinfo) : Prop :=
  counters_ok i ∧ timer_ok mobile_node i ∧
  (timer i = tm_max ∧ expire i = tm_max ∨ timer i ≠ tm_max ∧ deadline (expire i)).

Lemma deadline_add k t :
  clock_ok k → normal t → 0 <= tv_sec t < PROBE_INTERVAL ∨ t = TV PROBE_INTERVAL 0 →
  deadline (rtsold_TIMEVAL_ADD (k_now k) t).
Proof.
  unfold clock_ok, rtsold_TIMEVAL_ADD. intros Hk Ht Hb.
  destruct (k_now k) as [s u], t as [s' u'].
  destruct Hb as [Hb|[= -> ->]];
    unfold deadline, normal, PROBE_INTERVAL, MILLION in *; simpl in *; case_match; simpl; lia.
Qed.

Lemma TIMEVAL_EQ_eq a b : TIMEVAL_EQ a b = bool_decide (a = b).
Proof.
  change (TIMEVAL_EQ a b) with (TIMEVAL_EQUAL a b). case_bool_decide as E.
  - by apply TIMEVAL_EQUAL_spec.
  - destruct (TIMEVAL_EQUAL a b) eqn:H; [|done]. by apply TIMEVAL_EQUAL_spec in H.
Qed.

(** Timer values the state machine uses. *)
Definition short_timer (t : timeval) : Prop :=
  normal t ∧ (0 <= tv_sec t < PROBE_INTERVAL ∨ t = TV PROBE_INTERVAL 0).

Lemma reset_timer_wf mobile_node k i :
  clock_ok k → counters_ok i → timer_ok mobile_node i →
  timer i = tm_max ∨ short_timer (timer i) → wf_if mobile_node (reset_timer k i).
Proof.
  intros Hk Hc Ht Hs. unfold reset_timer. rewrite TIMEVAL_EQ_eq.
  case_bool_decide as E; (split; [done|split; [done|]]); simpl; [by left|].
  right. split; [done|]. destruct Hs as [?|[??]]; [done|]. by apply deadline_add.
Qed.

Lemma timer_update_wf mobile_node k i :
  clock_ok k → counters_ok i → wf_if mobile_node (rtsol_timer_update mobile_node k i).
Proof.
  intros Hk (Hp & Hd & Ho & Hs). unfold rtsol_timer_update. simpl.
  assert (Hr := Z.mod_pos_bound (k_random k) MILLION ltac:(done)).
  destruct (state i) eqn:Es; try done; repeat case_match;
    (apply reset_timer_wf; [done|..];
     unfold counters_ok, timer_ok, short_timer, normal, DADRETRY, MAX_RTR_SOLICITATION_DELAY,
       PROBE_INTERVAL, RTR_SOLICITATION_INTERVAL, MILLION in *; simpl; rewrite ?Es;
     split_and?; auto with zarith; try zlia;
     try (right; split; [simpl; zlia|]; first [by left; simpl; zlia | by right]); try by left);
    by case_match.
Qed.

(** Closes the conjuncts of [counters_ok] after unfolding. *)
Ltac counters_tac := split_and!; auto; first [lia | done | intros; solve [auto with lia]].

Lemma interface_status_fields k i st i' :
  interface_status k i = (st, i') → ∃ m, i' = i <| mediareqok := m |>.
Proof.
  assert (Hid : ∃ m, i = i <| mediareqok := m |>) by (exists (mediareqok i); by destruct i).
  unfold interface_status. intros E. repeat case_match; simplify_eq; eauto.
Qed.

Lemma counters_ok_state i st :
  counters_ok i → state i ≠ IFS_PROBE → st ≠ IFS_OPTIMISTIC →
  counters_ok (i <| state := st |>).
Proof. intros (Hp & Hd & _ & Hs) H Ho. unfold counters_ok; simpl. auto. Qed.

Lemma state_of_flags_cases f :
  state_of_flags f = IFS_DELAY ∨ state_of_flags f = IFS_TENTATIVE ∨ state_of_flags f = IFS_DOWN.
Proof. unfold state_of_flags. repeat case_match; auto. Qed.

(** Running the switch of [rtsol_check_timer] keeps the invariant. *)
Lemma timer_expired_wf mobile_node k i i' ev :
  clock_ok k → wf_if mobile_node i →
  timer_expired mobile_node k i = Ret (i', ev) → wf_if mobile_node i'.
Proof.
  intros Hk (Hc & _ & _). assert (Hc' := Hc). destruct Hc' as (Hp & Hd & Ho & Hs).
  unfold timer_expired. intros [[j ev'] [E1 E2]]%bind_ret_inv. simplify_eq E2; intros <- <-.
  apply timer_update_wf; [done|].
  unfold MAX_RTR_SOLICITATIONS in *. destruct (state i) eqn:Es.
  - destruct (interface_status k i) as [st i1] eqn:Ei.
    apply interface_status_fields in Ei as [m ->].
    case_match eqn:Em. apply bind_ret_inv in E1 as [ev1 [_ [= <- <-]]].
    simpl in Em. repeat case_match; simplify_eq; unfold counters_ok; simpl; rewrite ?Es;
      unfold MAX_RTR_SOLICITATIONS; counters_tac.
  - simplify_eq E1; intros <- <-. unfold counters_ok, MAX_RTR_SOLICITATIONS; simpl.
    rewrite Hs by done. counters_tac.
  - case_match; simplify_eq E1; intros <- <-;
      unfold counters_ok, MAX_RTR_SOLICITATIONS; simpl; rewrite ?Es; counters_tac.
  - apply bind_ret_inv in E1 as [[f e] [_ [= <- <-]]].
    destruct (state_of_flags_cases f) as [->|[->| ->]]; apply counters_ok_state; by rewrite ?Es.
  - apply bind_ret_inv in E1 as [[f e] [_ [= <- <-]]].
    destruct (state_of_flags_cases f) as [->|[->| ->]]; apply counters_ok_state; by rewrite ?Es.
  - done.
Qed.

Lemma check_loop_wf mobile_node now l : ∀ ks t0 l' t ev,
  (∀ n, clock_ok (ks n)) → Forall (wf_if mobile_node) l →
  check_loop mobile_node now ks l t0 = Ret (l', t, ev) → Forall (wf_if mobile_node) l'.
Proof.
  induction l as [|i l IH]; intros ks t0 l' t ev Hk Hl E; simpl in E.
  - by simplify_eq.
  - apply Forall_cons in Hl as [Hi Hl].
    apply bind_ret_inv in E as [[i1 ev1] [E1 E]].
    apply bind_ret_inv in E as [[[l1 t1] ev2] [E2 [= <- <- <-]]].
    constructor; [|eapply IH; [| |exact E2]; eauto].
    destruct (TIMEVAL_LEQ (expire i) now); [by eapply timer_expired_wf; eauto|by simplify_eq].
Qed.

Lemma ra_received_wf mobile_node k i :
  clock_ok k → wf_if mobile_node i → wf_if mobile_node (ra_received mobile_node k i).
Proof.
  intros Hk Hw. unfold ra_received; simpl. destruct (state i) eqn:Es; try exact Hw.
  destruct Hw as ((Hp & Hd & Ho & Hs) & _). apply timer_update_wf; [done|].
  unfold counters_ok, MAX_RTR_SOLICITATIONS; simpl. counters_tac.
Qed.

Lemma update_ifinfo_Forall P n f l :
  Forall P l → (∀ i, P i → P (f i)) → Forall P (update_ifinfo n f l).
Proof.
  intros Hl Hf. induction Hl as [|i l Hi Hl IH]; simpl; [constructor|].
  case_match; constructor; auto.
Qed.

(** ** The daemon as a transition system

    The steps of [main]: configuring an interface given on the command line,
    checking the timers, receiving a packet. *)
Inductive rtsold_step (mobile_node : bool) : list ifinfo → list ifinfo → Prop :=
  | step_ifconfig k osdl name l r l' ev :
      clock_ok k → ifconfig mobile_node k osdl name l = Ret (r, l', ev) →
      rtsold_step mobile_node l l'
  | step_check_timer now ks l l' t ev :
      (∀ n, clock_ok (ks n)) → rtsol_check_timer mobile_node now ks l = Ret (l', t, ev) →
      rtsold_step mobile_node l l'
  | step_input k msg cms from l :
      clock_ok k → rtsold_step mobile_node l (rtsol_input mobile_node k msg cms from l).

Definition rtsold_reachable (mobile_node : bool) : list ifinfo → Prop :=
  rtc (rtsold_step mobile_node) [].

Lemma make_packet_counters i i' :
  make_packet i = Ret i' →
  state i' = state i ∧ probes i' = probes i ∧ dadcount i' = dadcount i ∧ sdl i' = sdl i
  ∧ ifname i' = ifname i.
Proof.
  unfold make_packet. intros [opt [_ [= <-]]]%bind_ret_inv. done.
Qed.

Lemma ifconfig_wf mobile_node k osdl name l r l' ev :
  clock_ok k → Forall (wf_if mobile_node) l →
  ifconfig mobile_node k osdl name l = Ret (r, l', ev) → Forall (wf_if mobile_node) l'.
Proof.
  intros Hk Hl. unfold ifconfig. destruct osdl as [s|]; [|by intros [= <- <- <-]].
  destruct (find_ifinfo l (sdl_index s)); [by intros [= <- <- <-]|].
  intros [i [Ei E]]%bind_ret_inv. apply make_packet_counters in Ei as (Hs & Hp & Hd & _).
  simpl in Hs, Hp, Hd.
  destruct (interface_status k (i <| mediareqok := 1 |>)) as [st i1] eqn:Est.
  apply interface_status_fields in Est as [m ->].
  apply bind_ret_inv in E as [[f e] [_ [= <- <- <-]]]. constructor; [|done].
  apply timer_update_wf; [done|].
  unfold counters_ok, MAX_RTR_SOLICITATIONS, DADRETRY. simpl.
  destruct (state_of_flags_cases f) as [->|[->| ->]]; case_match; simpl; rewrite ?Hp, ?Hd;
    counters_tac.
Qed.

(** The index of an interface never changes, so the list stays free of
    duplicates. *)
Abbreviation ifindex_of := (λ i, sdl_index (sdl i)).

Lemma timer_update_sdl mobile_node k i : sdl (rtsol_timer_update mobile_node k i) = sdl i.
Proof. unfold rtsol_timer_update, reset_timer; simpl. repeat case_match; done. Qed.

Lemma timer_expired_sdl mobile_node k i i' ev :
  timer_expired mobile_node k i = Ret (i', ev) → sdl i' = sdl i.
Proof.
  unfold timer_expired. intros [[j ev'] [E1 [= <- <-]]]%bind_ret_inv.
  rewrite timer_update_sdl. destruct (state i) eqn:Es; try (by simplify_eq);
    try (by apply bind_ret_inv in E1 as [[f e] [_ [= <- <-]]]).
  - destruct (interface_status k i) as [st i1] eqn:Ei.
    apply interface_status_fields in Ei as [m ->].
    case_match eqn:Em. apply bind_ret_inv in E1 as [ev1 [_ [= <- <-]]].
    simpl in Em. repeat case_match; by simplify_eq.
  - case_match; by simplify_eq.
Qed.

Lemma check_loop_sdl mobile_node now l : ∀ ks t0 l' t ev,
  check_loop mobile_node now ks l t0 = Ret (l', t, ev) → sdl <$> l' = sdl <$> l.
Proof.
  induction l as [|i l IH]; intros ks t0 l' t ev E; simpl in E; [by simplify_eq|].
  apply bind_ret_inv in E as [[i1 ev1] [E1 E]].
  apply bind_ret_inv in E as [[[l1 t1] ev2] [E2 [= <- <- <-]]].
  simpl. f_equal; [|by eapply IH].
  destruct (TIMEVAL_LEQ (expire i) now); [by eapply timer_expired_sdl|by simplify_eq].
Qed.

Lemma update_ifinfo_sdl n f l :
  (∀ i, sdl (f i) = sdl i) → sdl <$> update_ifinfo n f l = sdl <$> l.
Proof.
  intros Hf. induction l as [|i l IH]; simpl; [done|].
  case_match; rewrite !fmap_cons; [by rewrite Hf|by rewrite IH].
Qed.

Lemma find_ifinfo_None l n : find_ifinfo l n = None → n ∉ ifindex_of <$> l.
Proof.
  induction l as [|i l IH]; simpl; [set_solver|]. case_match eqn:E; [done|].
  intros H. apply IH in H. rewrite elem_of_cons. intros [->|?]; [lia|done].
Qed.

Lemma ifindex_of_sdl (l l' : list ifinfo) : sdl <$> l' = sdl <$> l → ifindex_of <$> l' = ifindex_of <$> l.
Proof.
  intros H. change ifindex_of with (sdl_index ∘ sdl). by rewrite !list_fmap_compose, H.
Qed.

Lemma ifconfig_nodup mobile_node k osdl name l r l' ev :
  NoDup (ifindex_of <$> l) → ifconfig mobile_node k osdl name l = Ret (r, l', ev) →
  NoDup (ifindex_of <$> l').
Proof.
  intros Hl. unfold ifconfig. destruct osdl as [s|]; [|by intros [= <- <- <-]].
  destruct (find_ifinfo l (sdl_index s)) eqn:Ef; [by intros [= <- <- <-]|].
  apply find_ifinfo_None in Ef.
  intros [i [Ei E]]%bind_ret_inv. apply make_packet_counters in Ei as (_ & _ & _ & Hs & _).
  destruct (interface_status k (i <| mediareqok := 1 |>)) as [st i1] eqn:Est.
  apply interface_status_fields in Est as [m ->].
  apply bind_ret_inv in E as [[f e] [_ [= <- <- <-]]]. rewrite fmap_cons.
  constructor; [|done]. rewrite timer_update_sdl. case_match; simpl; by rewrite Hs.
Qed.

Lemma ra_received_sdl mobile_node k i : sdl (ra_received mobile_node k i) = sdl i.
Proof. unfold ra_received. case_match; try done. by rewrite timer_update_sdl. Qed.

Lemma rtsold_step_inv mobile_node l l' :
  rtsold_step mobile_node l l' →
  Forall (wf_if mobile_node) l ∧ NoDup (ifindex_of <$> l) →
  Forall (wf_if mobile_node) l' ∧ NoDup (ifindex_of <$> l').
Proof.
  intros Hstep [Hl Hn].
  destruct Hstep as [k osdl name l r l' ev Hk E|now ks l l' t ev Hk E|k msg cms from l Hk].
  - split; [by eapply ifconfig_wf|by eapply ifconfig_nodup].
  - unfold rtsol_check_timer in E. apply bind_ret_inv in E as [[[l1 t1] ev1] [E1 E2]].
    assert (E3 := check_loop_sdl _ _ _ _ _ _ _ _ E1). apply ifindex_of_sdl in E3.
    apply check_loop_wf in E1; [|done..].
    assert (l1 = l') as -> by (repeat case_match; by simplify_eq). by rewrite E3.
  - unfold rtsol_input. repeat case_match; try done. split.
    + apply update_ifinfo_Forall; [done|]. intros. by apply ra_received_wf.
    + rewrite (ifindex_of_sdl l); [done|]. apply update_ifinfo_sdl, ra_received_sdl.
Qed.

(** C7: in every state rtsold can reach, each interface is configured once
    and satisfies the invariant of the state machine: at most
    [MAX_RTR_SOLICITATIONS] probes are outstanding and none outside
    [IFS_PROBE], the retry counter of duplicate address detection stays within
    [DADRETRY], the timer has the value prescribed for the state, and the
    deadline is the sentinel exactly for a stopped timer. *)
Theorem rtsold_reachable_wf mobile_node l :
  rtsold_reachable mobile_node l →
  Forall (wf_if mobile_node) l ∧ NoDup (ifindex_of <$> l).
Proof.
  intros H. assert (Hg : ∀ l0, rtc (rtsold_step mobile_node) l0 l →
    Forall (wf_if mobile_node) l0 ∧ NoDup (ifindex_of <$> l0) →
    Forall (wf_if mobile_node) l ∧ NoDup (ifindex_of <$> l)).
  { clear H. induction 1; eauto using rtsold_step_inv. }
  apply (Hg [] H). split; constructor.
Qed.

(** ** The timeout handed to select *)

Lemma check_loop_min mobile_node now l : ∀ ks t0 l' t ev,
  check_loop mobile_node now ks l t0 = Ret (l', t, ev) →
  (t = t0 ∨ ∃ i, i ∈ l' ∧ t = expire i) ∧ TIMEVAL_LT t0 t = false ∧
  ∀ i, i ∈ l' → TIMEVAL_LT (expire i) t = false.
Proof.
  induction l as [|i l IH]; intros ks t0 l' t ev E; simpl in E.
  - simplify_eq. split_and!; [by left|apply TIMEVAL_LT_irrefl|set_solver].
  - apply bind_ret_inv in E as [[i1 ev1] [_ E]].
    apply bind_ret_inv in E as [[[l1 t1] ev2] [E2 [= <- <- <-]]].
    apply IH in E2 as (H1 & H2 & H3). setoid_rewrite elem_of_cons.
    destruct (TIMEVAL_LT (expire i1) t0) eqn:Elt; split_and!.
    + destruct H1 as [->|(j & ? & ->)]; eauto.
    + clear -H2 Elt. tv_lia.
    + intros j [->|?]; auto.
    + destruct H1 as [->|(j & ? & ->)]; eauto.
    + done.
    + intros j [->|?]; [clear -H2 Elt; tv_lia|auto].
Qed.

(** [rtsol_check_timer] returns a null timeout exactly when every timer is
    stopped; otherwise the timeout is normal, equals the time left until the
    deadline of some interface (zero if it has passed) and exceeds the time
    left of no interface, so [select] wakes up for the earliest deadline. *)
Lemma rtsol_check_timer_timeout mobile_node now ks l l' t ev :
  deadline now → (∀ n, clock_ok (ks n)) → Forall (wf_if mobile_node) l →
  rtsol_check_timer mobile_node now ks l = Ret (l', t, ev) →
  match t with
  | None => Forall (λ i, expire i = tm_max) l'
  | Some tv =>
      normal tv ∧
      (∃ i, i ∈ l' ∧ deadline (expire i) ∧
            usecs tv = Z.max 0 (usecs (expire i) - usecs now)) ∧
      (∀ i, i ∈ l' → deadline (expire i) →
            usecs tv <= Z.max 0 (usecs (expire i) - usecs now))
  end.
Proof.
  intros Hnow Hk Hl E. unfold rtsol_check_timer in E.
  apply bind_ret_inv in E as [[[l1 t1] ev1] [E1 E]].
  assert (Hw := check_loop_wf _ _ _ _ _ _ _ _ Hk Hl E1).
  destruct (check_loop_min _ _ _ _ _ _ _ _ E1) as (H1 & H2 & H3).
  rewrite Forall_forall in Hw. rewrite TIMEVAL_EQ_eq in E. case_bool_decide as Em.
  - subst t1. simplify_eq E; intros <- <- <-. apply Forall_forall. intros i Hi.
    destruct (Hw i Hi) as (_ & _ & [[_ ?]|[_ Hd]]); [done|].
    apply TIMEVAL_LT_deadline_max in Hd. by rewrite H3 in Hd.
  - destruct H1 as [->|(i & Hi & ->)]; [done|].
    assert (Hd : deadline (expire i)).
    { destruct (Hw i Hi) as (_ & _ & [[_ ?]|[_ ?]]); done. }
    assert (Et : l1 = l' ∧ t = Some (remaining (expire i) now)).
    { unfold remaining. destruct (TIMEVAL_LT (expire i) now);
        [|change (rtsold_TIMEVAL_SUB) with TIMEVAL_SUB in E]; by simplify_eq. }
    destruct Et as [-> ->].
    destruct (remaining_spec (expire i) now) as [Hn Hu]; [apply Hd|apply Hnow|].
    split; [done|]. split; [by exists i|]. intros j Hj Hdj. rewrite Hu.
    assert (usecs (expire i) <= usecs (expire j)); [|lia].
    specialize (H3 j Hj). clear -H3 Hd Hdj. tv_lia.
Qed.

(** ** When a pass over the timers fails *)

(** The kernel reports the flags of every address, and the default router
    table it returns has an unused (zero) entry. *)
Definition kernel_answers (k : kernel) : Prop :=
  Forall (λ ifa, is_Some (ifa_flags6 ifa)) (k_ifaddrs k) ∧
  match k_drlist k with Some dr => Exists (λ e, e.1 = 0) dr | None => True end.

Lemma get_llflag_returns ifas name :
  Forall (λ ifa, is_Some (ifa_flags6 ifa)) ifas → ∃ f, get_llflag ifas name = Ret f.
Proof.
  induction 1 as [|ifa ifas [f Hf] _ IH]; simpl; [eauto|].
  repeat case_match; eauto; simplify_eq.
Qed.

Lemma interface_up_returns k name :
  kernel_answers k → ∃ r, interface_up k name = Ret r.
Proof.
  intros [H _]. destruct (get_llflag_returns _ name H) as [f Hf].
  unfold interface_up. rewrite Hf. simpl. repeat case_match; eauto.
Qed.

Lemma defrouter_loop_returns ifindex dr :
  Exists (λ e, e.1 = 0) dr → ∃ ev, defrouter_loop ifindex dr = Ret ev.
Proof.
  induction 1 as [[n a] dr Hz|[n a] dr _ [ev IH]]; simpl in *.
  - subst n. eauto.
  - rewrite IH. simpl. repeat case_match; eauto.
Qed.

Lemma defrouter_loop_overread ifindex dr :
  Forall (λ e, e.1 ≠ 0) dr → defrouter_loop ifindex dr = Crash.
Proof.
  induction 1 as [|[n a] dr Hz _ IH]; simpl in *; [done|].
  rewrite (proj2 (Z.eqb_neq n 0)), IH by done. done.
Qed.

Lemma timer_expired_returns mobile_node k i :
  kernel_answers k → ∃ r, timer_expired mobile_node k i = Ret r.
Proof.
  intros Hk. unfold timer_expired.
  assert (∃ r, interface_up k (ifname i) = Ret r) as [[f e] Hu] by by apply interface_up_returns.
  assert (∀ n, ∃ ev, defrouter_probe k n = Ret ev) as Hd.
  { intros n. unfold defrouter_probe. destruct Hk as [_ Hk].
    destruct (k_drlist k); [by apply defrouter_loop_returns|eauto]. }
  destruct (state i); rewrite ?Hu; simpl; eauto.
  - destruct (interface_status k i) as [st i1].
    match goal with |- context [let '(_, _) := ?x in _] => destruct x as [i2 pr] end.
    destruct (pr && mobile_node); simpl; [|eauto].
    destruct (Hd (sdl_index (sdl i2))) as [ev ->]. simpl. eauto.
  - case_match; simpl; eauto.
Qed.

Lemma check_loop_returns mobile_node now l : ∀ ks t0,
  (∀ n, kernel_answers (ks n)) → ∃ r, check_loop mobile_node now ks l t0 = Ret r.
Proof.
  induction l as [|i l IH]; intros ks t0 Hk; simpl; [eauto|].
  assert (∃ r, (if TIMEVAL_LEQ (expire i) now then timer_expired mobile_node (ks 0%nat) i
                else Ret (i, [])) = Ret r) as [[i1 ev] ->].
  { case_match; [by apply timer_expired_returns|eauto]. }
  simpl. edestruct (IH (λ n, ks (S n))) as [[[l1 t1] ev1] ->]; [auto|]. simpl. eauto.
Qed.

(** A pass over the timers always returns when the kernel reports the
    flags of the addresses and leaves an unused entry in the default router
    table; it neither exits nor reads outside the table. *)
Lemma rtsol_check_timer_returns mobile_node now ks l :
  (∀ n, kernel_answers (ks n)) → ∃ r, rtsol_check_timer mobile_node now ks l = Ret r.
Proof.
  intros Hk. unfold rtsol_check_timer.
  destruct (check_loop_returns mobile_node now l ks tm_max Hk) as [[[l1 t1] ev] ->].
  simpl. repeat case_match; eauto.
Qed.

(** [defrouter_probe] reads past the end of the default router table
    exactly when the table has no unused entry: the loop condition reads
    [defrouter[i].if_index] before it compares [i] with [PRLSTSIZ]. *)
Lemma defrouter_probe_overread k dr ifindex :
  k_drlist k = Some dr →
  defrouter_probe k ifindex = Crash ↔ Forall (λ e, e.1 ≠ 0) dr.
Proof.
  intros E. unfold defrouter_probe. rewrite E. split; [|apply defrouter_loop_overread].
  intros Hc. destruct (decide (Exists (λ e, e.1 = 0) dr)) as [H|H].
  - destruct (defrouter_loop_returns ifindex dr H) as [ev Hr]. congruence.
  - by apply not_Exists_Forall in H; [|intros; apply _].
Qed.

(** ** Solicitation *)

(** Successive expirations of the timer of one interface, with no
    advertisement received in between. *)
Fixpoint expirations (mobile_node : bool) (ks : list kernel) (i : ifinfo)
    : outcome (ifinfo * list event) :=
  match ks with
  | [] => Ret (i, [])
  | k :: ks =>
      '(i, ev) ← timer_expired mobile_node k i;
      '(i, ev') ← expirations mobile_node ks i;
      Ret (i, ev ++ ev')
  end.

Definition rs_event (i : ifinfo) : event := EvSendRS (sdl_index (sdl i)) (rs_data i).

Lemma timer_update_fields mobile_node k i :
  state (rtsol_timer_update mobile_node k i) = state i ∧
  probes (rtsol_timer_update mobile_node k i) = probes i ∧
  rs_data (rtsol_timer_update mobile_node k i) = rs_data i ∧
  racnt (rtsol_timer_update mobile_node k i) = racnt i.
Proof. unfold rtsol_timer_update, reset_timer; simpl. repeat case_match; done. Qed.

Lemma delay_expired mobile_node k i :
  state i = IFS_DELAY → probes i = 0 →
  ∃ i', timer_expired mobile_node k i = Ret (i', [rs_event i]) ∧
        state i' = IFS_PROBE ∧ probes i' = 1 ∧ rs_event i' = rs_event i.
Proof.
  intros Hs Hp. unfold timer_expired. rewrite Hs. simpl. eexists. split; [reflexivity|].
  edestruct timer_update_fields as (-> & -> & Hd & _).
  unfold rs_event. rewrite Hd, timer_update_sdl. simpl. by rewrite Hp.
Qed.

Lemma probe_expired mobile_node k i :
  state i = IFS_PROBE → probes i < MAX_RTR_SOLICITATIONS →
  ∃ i', timer_expired mobile_node k i = Ret (i', [rs_event i]) ∧
        state i' = IFS_PROBE ∧ probes i' = probes i + 1 ∧ rs_event i' = rs_event i.
Proof.
  intros Hs Hp. unfold timer_expired. rewrite Hs. apply Z.ltb_lt in Hp. rewrite Hp. simpl.
  eexists. split; [reflexivity|].
  edestruct timer_update_fields as (-> & -> & Hd & _).
  unfold rs_event. by rewrite Hd, timer_update_sdl.
Qed.

Lemma probe_given_up mobile_node k i :
  state i = IFS_PROBE → MAX_RTR_SOLICITATIONS <= probes i →
  ∃ i', timer_expired mobile_node k i = Ret (i', []) ∧ state i' = IFS_IDLE ∧ probes i' = 0.
Proof.
  intros Hs Hp. unfold timer_expired. rewrite Hs. apply Z.ltb_ge in Hp. rewrite Hp. simpl.
  eexists. split; [reflexivity|]. by edestruct timer_update_fields as (-> & -> & _).
Qed.

(** an interface that enters [IFS_DELAY] and hears no advertisement sends
    its solicitation exactly [MAX_RTR_SOLICITATIONS] times and is idle after
    four expirations of its timer. *)
Lemma solicitation_round mobile_node k1 k2 k3 k4 i :
  wf_if mobile_node i → state i = IFS_DELAY →
  ∃ i', expirations mobile_node [k1; k2; k3; k4] i
          = Ret (i', replicate (Z.to_nat MAX_RTR_SOLICITATIONS) (rs_event i)) ∧
        state i' = IFS_IDLE ∧ probes i' = 0.
Proof.
  intros ((_ & _ & _ & Hp) & _) Hs. simpl.
  destruct (delay_expired mobile_node k1 i) as (i1 & -> & S1 & P1 & R1);
    [done|apply Hp; by rewrite Hs|]. simpl.
  destruct (probe_expired mobile_node k2 i1) as (i2 & -> & S2 & P2 & R2);
    [done|by rewrite P1|]. simpl.
  destruct (probe_expired mobile_node k3 i2) as (i3 & -> & S3 & P3 & R3);
    [done|by rewrite P2, P1|]. simpl.
  destruct (probe_given_up mobile_node k4 i3) as (i4 & -> & S4 & P4);
    [done|by rewrite P3, P2, P1|].
  exists i4. simpl. rewrite R2, R1. done.
Qed.

(** ** Reception *)

(** The checks of [rtsol_input]: an advertisement of at least 16 octets with
    code 0, hop limit 255 and a link-local source, received on [ifindex]. *)
Definition valid_ra (msg : option bytes) (cms : list cmsg) (from : in6_addr) (ifindex : Z) : bool :=
  match msg with
  | None => false
  | Some icp =>
      bool_decide (cmsg_pktinfo cms = Some ifindex) && negb (ifindex =? 0)
      && bool_decide (cmsg_hoplimit cms = Some 255) && (16 <=? length icp)%nat
      && (icp !!! 0%nat =? ND_ROUTER_ADVERT) && (icp !!! 1%nat =? 0)
      && IN6_IS_ADDR_LINKLOCAL from
  end.

Lemma valid_ra_index msg cms from n :
  valid_ra msg cms from n = true → cmsg_pktinfo cms = Some n.
Proof.
  unfold valid_ra. destruct msg; [|done]. case_bool_decide as E; [done|]. by simpl.
Qed.

Lemma rtsol_input_invalid mobile_node k msg cms from l :
  (∀ n, valid_ra msg cms from n = false) → rtsol_input mobile_node k msg cms from l = l.
Proof.
  intros Hv. unfold rtsol_input. destruct msg as [icp|]; [|done].
  destruct (cmsg_pktinfo cms) as [n|] eqn:E1, (cmsg_hoplimit cms) as [h|] eqn:E2; try done.
  specialize (Hv n). unfold valid_ra in Hv. rewrite E1, E2 in Hv.
  rewrite bool_decide_true in Hv by done. repeat case_match; try done.
  rewrite bool_decide_true in Hv by (f_equal; lia). exfalso. rewrite ?negb_false_iff in *.
  rewrite H1, H2, H4, !andb_true_r in Hv. apply Nat.ltb_ge in H0. apply Nat.leb_le in H0. rewrite H0 in Hv. discriminate.
Qed.

Lemma rtsol_input_valid mobile_node k msg cms from l n :
  valid_ra msg cms from n = true →
  rtsol_input mobile_node k msg cms from l = update_ifinfo n (ra_received mobile_node k) l.
Proof.
  unfold valid_ra, rtsol_input. destruct msg as [icp|]; [|done].
  rewrite !andb_true_iff, !bool_decide_eq_true.
  intros ((((((-> & Hn) & ->) & Hl) & H0) & H1) & Hf).
  apply negb_true_iff in Hn. rewrite Hn, H0, H1, Hf.
  apply Nat.leb_le, Nat.ltb_ge in Hl. rewrite Hl. simpl.
  case_match eqn:Ef; [done|]. apply find_ifinfo_None in Ef.
  induction l as [|i l IH]; simpl in *; [done|].
  apply not_elem_of_cons in Ef as [Hne Ef].
  rewrite (proj2 (Z.eqb_neq _ n)) by done. f_equal. auto.
Qed.

Lemma update_ifinfo_Forall2 n f l :
  NoDup (ifindex_of <$> l) →
  Forall2 (λ i i', i' = if ifindex_of i =? n then f i else i) l (update_ifinfo n f l).
Proof.
  induction l as [|i l IH]; simpl; [constructor|].
  intros [Hni Hnd]%NoDup_cons. destruct (sdl_index (sdl i) =? n) eqn:E.
  - constructor; [by rewrite E|]. apply Forall_Forall2_diag, Forall_forall.
    intros j Hj. case_match eqn:Ej; [|done]. destruct Hni.
    apply list_elem_of_fmap. exists j. split; [lia|done].
  - constructor; [by rewrite E|]. by apply IH.
Qed.

(** A received packet changes an interface only when it is a valid
    advertisement that arrived on it; then [racnt] grows by one, and a probing
    interface becomes idle with no outstanding probe, its timer stopped (or
    set to 3 s on a mobile node). Every other interface is left untouched. *)
Lemma rtsol_input_effect mobile_node k msg cms from l :
  clock_ok k → Forall (wf_if mobile_node) l → NoDup (ifindex_of <$> l) →
  Forall2 (λ i i',
      if valid_ra msg cms from (ifindex_of i)
      then racnt i' = racnt i + 1 ∧ sdl i' = sdl i ∧
           (state i ≠ IFS_PROBE → i' = i <| racnt := racnt i + 1 |>) ∧
           (state i = IFS_PROBE → state i' = IFS_IDLE ∧ probes i' = 0 ∧
              timer i' = if mobile_node then TV 3 0 else tm_max)
      else i' = i)
    l (rtsol_input mobile_node k msg cms from l).
Proof.
  intros Hk Hw Hn.
  assert (Hsame : (∀ m, valid_ra msg cms from m = false) → rtsol_input mobile_node k msg cms from l = l)
    by apply rtsol_input_invalid.
  assert (Hdiag : ∀ P : ifinfo → ifinfo → Prop, (∀ i, P i i) → Forall2 P l l)
    by (intros P HP; apply Forall_Forall2_diag, Forall_forall; auto).
  destruct (cmsg_pktinfo cms) as [n|] eqn:En.
  2: { assert (Hall : ∀ m, valid_ra msg cms from m = false).
       { intros m. destruct (valid_ra msg cms from m) eqn:E; [|done].
         apply valid_ra_index in E. congruence. }
       rewrite Hsame by done. apply Hdiag. intros i. by rewrite Hall. }
  assert (Hother : ∀ m, m ≠ n → valid_ra msg cms from m = false).
  { intros m Hm. destruct (valid_ra msg cms from m) eqn:E; [|done].
    apply valid_ra_index in E. congruence. }
  destruct (valid_ra msg cms from n) eqn:Ev.
  - rewrite (rtsol_input_valid _ _ _ _ _ _ n) by done.
    eapply Forall2_impl; [eapply Forall2_same_length_lookup_2 with (P := λ i i', wf_if mobile_node i ∧
      i' = if ifindex_of i =? n then ra_received mobile_node k i else i)|].
    + by eapply Forall2_length, update_ifinfo_Forall2.
    + intros j x y Hx Hy. split; [by eapply Forall_lookup_1 in Hw|].
      by eapply (Forall2_lookup_lr _ _ _ j x y (update_ifinfo_Forall2 n (ra_received mobile_node k) l Hn)).
    + intros i i' [Hi ->]. destruct (sdl_index (sdl i) =? n) eqn:Ei.
      2: { rewrite Hother by lia. done. }
      apply Z.eqb_eq in Ei. rewrite Ei, Ev. unfold ra_received; simpl.
      split_and!; [| by case_match; rewrite ?timer_update_sdl |..].
      * case_match; try done. by edestruct timer_update_fields as (_ & _ & _ & ->).
      * intros Hs. by destruct (state i).
      * intros ->. edestruct timer_update_fields as (-> & -> & _). split_and!; [done..|].
        unfold rtsol_timer_update, reset_timer; simpl. by destruct mobile_node.
  - assert (Hall : ∀ m, valid_ra msg cms from m = false).
    { intros m. destruct (decide (m = n)) as [->|]; auto. }
    rewrite Hsame by done. apply Hdiag. intros i. by rewrite Hall.
Qed.

(** ** Witnesses: one Ethernet interface with a ready link-local address *)

Definition ex_lladdr : in6_addr := [0xfe; 0x80; 0; 0; 0; 0; 0; 0; 2; 0; 0; 0xff; 0xfe; 0; 0; 1].
Definition ex_sdl : sockaddr_dl := Sdl 4 IFT_ETHER 3 6 [101; 110; 48; 2; 0; 0; 0; 0; 1].
Definition ex_kernel (sec : Z) : kernel :=
  Kernel (TV sec 5) 123456 (Some 0x8041) (MediaOk 3 0x20)
    [Ifaddr "en0" 0x8041 AF_INET6 ex_lladdr (Some 0)] (Some [(4, ex_lladdr); (0, in6addr_any)]).
Definition ex_if : ifinfo :=
  Ifinfo ex_sdl "en0" 1 0 0 1 IFS_DELAY 0 0 (TV 0 123456) (TV 1000 123461) 0 0 16
    [133; 0; 0; 0; 0; 0; 0; 0; 1; 1; 2; 0; 0; 0; 0; 1].
Definition ex_probing : ifinfo :=
  ex_if <| state := IFS_PROBE |> <| probes := 1 |> <| timer := TV 4 0 |> <| expire := TV 1005 5 |>.

Lemma ex_clock_ok s : 0 <= s < 2000000000 → clock_ok (ex_kernel s).
Proof. intros. unfold clock_ok, normal, MILLION, PROBE_INTERVAL. simpl. lia. Qed.

Lemma ex_if_wf : Forall (wf_if false) [ex_if].
Proof.
  constructor; [|constructor]. unfold wf_if, counters_ok, timer_ok, MAX_RTR_SOLICITATIONS, DADRETRY.
  simpl. split_and!; try lia; try done; try (unfold normal, MILLION; simpl; lia).
  right. split; [done|]. unfold deadline, normal, MILLION. simpl. lia.
Qed.

Lemma ex_probing_wf : Forall (wf_if false) [ex_probing].
Proof.
  constructor; [|constructor]. unfold wf_if, counters_ok, timer_ok, MAX_RTR_SOLICITATIONS, DADRETRY.
  simpl. split_and!; try lia; try done.
  right. split; [done|]. unfold deadline, normal, MILLION. simpl. lia.
Qed.

Lemma rtsold_reachable_wf_witness :
  rtsold_reachable false [ex_if] ∧ Forall (wf_if false) [ex_if] ∧ NoDup (ifindex_of <$> [ex_if]).
Proof.
  assert (H : rtsold_reachable false [ex_if]).
  { apply rtc_once. eapply (step_ifconfig _ (ex_kernel 1000) (Some ex_sdl) "en0").
    - apply ex_clock_ok. lia.
    - reflexivity. }
  split; [exact H|]. exact (rtsold_reachable_wf false [ex_if] H).
Defined.

Lemma rtsol_check_timer_timeout_witness :
  ∃ l' tv ev, rtsol_check_timer false (TV 1001 0) (λ _, ex_kernel 1001) [ex_if] = Ret (l', Some tv, ev)
    ∧ normal tv.
Proof.
  do 3 eexists. split; [reflexivity|].
  refine (proj1 (rtsol_check_timer_timeout false (TV 1001 0) (λ _, ex_kernel 1001) [ex_if]
                   _ (Some _) _ _ _ _ eq_refl)).
  - unfold deadline, normal, MILLION. simpl. lia.
  - intros _. apply ex_clock_ok. lia.
  - exact ex_if_wf.
Defined.

Lemma rtsol_check_timer_returns_witness :
  ∃ r, rtsol_check_timer true (TV 1001 0) (λ _, ex_kernel 1001) [ex_if] = Ret r.
Proof.
  apply (rtsol_check_timer_returns true (TV 1001 0) (λ _, ex_kernel 1001) [ex_if]).
  intros _. split; simpl.
  - constructor; [by eexists|constructor].
  - right. by left.
Defined.

Lemma defrouter_probe_overread_witness :
  defrouter_probe (Kernel (TV 0 0) 0 None MediaError [] (Some (replicate 10 (4, ex_lladdr)))) 4 = Crash.
Proof.
  apply (defrouter_probe_overread (Kernel (TV 0 0) 0 None MediaError []
           (Some (replicate 10 (4, ex_lladdr)))) (replicate 10 (4, ex_lladdr)) 4 eq_refl).
  repeat constructor; simpl; lia.
Defined.

Lemma solicitation_round_witness :
  ∃ i', expirations false [ex_kernel 1001; ex_kernel 1005; ex_kernel 1009; ex_kernel 1010] ex_if
          = Ret (i', replicate 3 (rs_event ex_if)) ∧ state i' = IFS_IDLE ∧ probes i' = 0.
Proof.
  apply (solicitation_round false (ex_kernel 1001) (ex_kernel 1005) (ex_kernel 1009) (ex_kernel 1010)).
  - by apply (Forall_inv ex_if_wf).
  - reflexivity.
Defined.

Lemma rtsol_input_effect_witness :
  ∃ i', rtsol_input false (ex_kernel 1003) (Some (ND_ROUTER_ADVERT :: replicate 15 0))
          [CmsgPktinfo 4; CmsgHoplimit 255] ex_lladdr [ex_probing] = [i'] ∧ state i' = IFS_IDLE.
Proof.
  eexists. split; [reflexivity|].
  assert (H := rtsol_input_effect false (ex_kernel 1003) (Some (ND_ROUTER_ADVERT :: replicate 15 0))
    [CmsgPktinfo 4; CmsgHoplimit 255] ex_lladdr [ex_probing]).
  assert (Hk : clock_ok (ex_kernel 1003)) by (apply ex_clock_ok; lia).
  assert (Hn : NoDup (ifindex_of <$> [ex_probing])) by (apply NoDup_singleton).
  specialize (H Hk ex_probing_wf Hn). apply Forall2_cons_1 in H as [H _].
  destruct H as (_ & _ & _ & H). apply (H eq_refl).
Defined.
