(* ===== verification/NdOpt.v ===== *)
(** * NdOpt: the neighbour discovery option parser of rtadvd.c

    [nd6_options] walks the options of a received message and records, as
    offsets into the packet, the ones the caller asked for. The theorems show
    that it accepts exactly the well-formed option areas, that what it records
    is described by a declarative specification on the list of options, and
    that it never reads outside the message. *)

From S2P Require Import Prelude.

Definition ND_OPT_SOURCE_LINKADDR : Z := 1.
Definition ND_OPT_TARGET_LINKADDR : Z := 2.
Definition ND_OPT_PREFIX_INFORMATION : Z := 3.
Definition ND_OPT_REDIRECTED_HEADER : Z := 4.
Definition ND_OPT_MTU : Z := 5.
Definition ND_OPT_ROUTE_INFO : Z := 24.
Definition ND_OPT_RDNSS : Z := 25.
Definition ND_OPT_DNSSL : Z := 31.
Definition ND_OPT_CAPTIVE_PORTAL : Z := 37.
Definition ND_OPT_PREF64 : Z := 38.

Definition NDOPT_FLAG_SRCLINKADDR : Z := 0x1.
Definition NDOPT_FLAG_TGTLINKADDR : Z := 0x2.
Definition NDOPT_FLAG_PREFIXINFO : Z := 0x4.
Definition NDOPT_FLAG_RDHDR : Z := 0x8.
Definition NDOPT_FLAG_MTU : Z := 0x10.

Definition ndopt_flags : list Z :=
  [0; NDOPT_FLAG_SRCLINKADDR; NDOPT_FLAG_TGTLINKADDR; NDOPT_FLAG_PREFIXINFO;
   NDOPT_FLAG_RDHDR; NDOPT_FLAG_MTU].

Definition sizeof_nd_opt_mtu : Z := 8.
Definition sizeof_nd_opt_prefix_info : Z := 32.

(** [union nd_opts]: pointers into the packet, as offsets; [nd_opts_list] is
    the chain of further prefix options. *)
Record nd_opts := NdOpts {
  nd_opts_src_lladdr : option nat;
  nd_opts_tgt_lladdr : option nat;
  nd_opts_pi : option nat;
  nd_opts_rh : option nat;
  nd_opts_mtu : option nat;
  nd_opts_list : list nat }.
#[export] Instance eta_nd_opts : Eta nd_opts := λ n,
  NdOpts (nd_opts_src_lladdr n) (nd_opts_tgt_lladdr n) (nd_opts_pi n) (nd_opts_rh n)
    (nd_opts_mtu n) (nd_opts_list n).

Definition no_opts : nd_opts := NdOpts None None None None None [].

(** One option with header at [off]: the body of the loop from the type test
    to the switch. *)
Definition record_option (off : nat) (nd_opt_type optlen optflags : Z) (ndopts : nd_opts) : nd_opts :=
  if ND_OPT_MTU <? nd_opt_type then ndopts
  else if Z.land (ndopt_flags !!! Z.to_nat nd_opt_type) optflags =? 0 then ndopts
  else if ((nd_opt_type =? ND_OPT_MTU) && negb (optlen =? sizeof_nd_opt_mtu))
          || ((nd_opt_type =? ND_OPT_PREFIX_INFORMATION)
              && negb (optlen =? sizeof_nd_opt_prefix_info)) then ndopts
  else if nd_opt_type =? ND_OPT_SOURCE_LINKADDR then ndopts <| nd_opts_src_lladdr := Some off |>
  else if nd_opt_type =? ND_OPT_MTU then ndopts <| nd_opts_mtu := Some off |>
  else if nd_opt_type =? ND_OPT_PREFIX_INFORMATION then
    match nd_opts_pi ndopts with
    | None => ndopts <| nd_opts_pi := Some off |>
    | Some _ => ndopts <| nd_opts_list := off :: nd_opts_list ndopts |>
    end
  else ndopts.

(** The loop: [off] is the position of the next header, [limit] the octets
    left. A bad option area gives -1. *)
Fixpoint nd6_options_loop (fuel : nat) (buf : bytes) (off : nat) (limit : Z)
    (ndopts : nd_opts) (optflags : Z) : outcome (Z * nd_opts) :=
  match fuel with
  | O => Crash
  | S fuel =>
      if limit <=? 0 then Ret (0, ndopts)
      else if limit <? 2 then Ret (-1, ndopts)
      else
        nd_opt_type ← of_opt (rd8 buf off);
        nd_opt_len ← of_opt (rd8 buf (off + 1));
        if nd_opt_len =? 0 then Ret (-1, ndopts)
        else
          let optlen := Z.shiftl nd_opt_len 3 in
          if limit <? optlen then Ret (-1, ndopts)
          else nd6_options_loop fuel buf (off + Z.to_nat optlen) (limit - optlen)
                 (record_option off nd_opt_type optlen optflags ndopts) optflags
  end.

(** Every option takes at least eight octets, so [limit] iterations and one
    more for the exit test are enough. *)
Definition nd6_options (buf : bytes) (off : nat) (limit optflags : Z) : outcome (Z * nd_opts) :=
  nd6_options_loop (S (Z.to_nat limit)) buf off limit no_opts optflags.

(** ** Specification *)

(** An option: its type and the octets after the two-octet header. *)
Abbreviation nd_opt := (Z * bytes)%type.

Definition opt_len (o : nd_opt) : Z := Z.of_nat (length o.2) + 2.
Definition opt_wf (o : nd_opt) : Prop :=
  byte_ok o.1 ∧ bytes_ok o.2 ∧ opt_len o mod 8 = 0 ∧ opt_len o <= 255 * 8.
Definition encode_opt (o : nd_opt) : bytes := o.1 :: opt_len o / 8 :: o.2.
Definition encode_opts (os : list nd_opt) : bytes := concat (encode_opt <$> os).

(** The options with the offset of each. *)
Fixpoint placed (off : nat) (os : list nd_opt) : list (nat * nd_opt) :=
  match os with
  | [] => []
  | o :: os => (off, o) :: placed (off + length (encode_opt o)) os
  end.

(** Options of type [t] the caller wants, of the length the type requires. *)
Definition wanted (optflags t : Z) (o : nd_opt) : bool :=
  (o.1 =? t) && negb (Z.land (ndopt_flags !!! Z.to_nat t) optflags =? 0)
  && (if t =? ND_OPT_MTU then opt_len o =? sizeof_nd_opt_mtu
      else if t =? ND_OPT_PREFIX_INFORMATION then opt_len o =? sizeof_nd_opt_prefix_info
      else true).

Definition wanted_at (optflags t : Z) (ps : list (nat * nd_opt)) : list nat :=
  (filter (λ p, wanted optflags t p.2 = true) ps).*1.

(** Last source link-layer address and MTU option; first prefix option, and
    the other prefix options in reverse order. *)
Definition collected (optflags : Z) (ps : list (nat * nd_opt)) : nd_opts :=
  NdOpts (last (wanted_at optflags ND_OPT_SOURCE_LINKADDR ps)) None
    (head (wanted_at optflags ND_OPT_PREFIX_INFORMATION ps)) None
    (last (wanted_at optflags ND_OPT_MTU ps))
    (reverse (tail (wanted_at optflags ND_OPT_PREFIX_INFORMATION ps))).

(** ** The recorded options *)

Lemma wanted_at_app flags t ps qs :
  wanted_at flags t (ps ++ qs) = wanted_at flags t ps ++ wanted_at flags t qs.
Proof. unfold wanted_at. by rewrite filter_app, fmap_app. Qed.

Lemma wanted_at_singleton flags t off o :
  wanted_at flags t [(off, o)] = if wanted flags t o then [off] else [].
Proof. unfold wanted_at. rewrite filter_cons. simpl. case_decide as E; by destruct (wanted flags t o). Qed.

Lemma wanted_other flags t o : o.1 ≠ t → wanted flags t o = false.
Proof. intros H. unfold wanted. apply Z.eqb_neq in H. by rewrite H. Qed.

Lemma record_collected flags ps off o :
  byte_ok o.1 →
  record_option off o.1 (opt_len o) flags (collected flags ps)
  = collected flags (ps ++ [(off, o)]).
Proof.
  intros Hb. unfold collected. rewrite !wanted_at_app, !wanted_at_singleton.
  unfold record_option, byte_ok, ND_OPT_MTU, ND_OPT_PREFIX_INFORMATION, ND_OPT_SOURCE_LINKADDR in *.
  destruct (Z.ltb_spec 5 o.1) as [Hgt|Hle].
  { rewrite !wanted_other by lia. by rewrite !app_nil_r. }
  set (p := wanted_at flags 3 ps).
  assert (o.1 = 0 ∨ o.1 = 1 ∨ o.1 = 2 ∨ o.1 = 3 ∨ o.1 = 4 ∨ o.1 = 5) as Hc by lia.
  assert (Hw : ∀ t, o.1 = t → wanted flags t o =
    negb (Z.land (ndopt_flags !!! Z.to_nat t) flags =? 0)
    && (if t =? 5 then opt_len o =? 8 else if t =? 3 then opt_len o =? 32 else true)).
  { intros t <-. unfold wanted. by rewrite Z.eqb_refl. }
  unfold sizeof_nd_opt_mtu, sizeof_nd_opt_prefix_info.
  destruct_or! Hc; rewrite Hc in *;
    rewrite ?(Hw _ eq_refl), ?wanted_other, ?app_nil_r by lia; clear Hw; simpl.
  - done.
  - destruct (Z.land _ _ =? 0); simpl; by rewrite ?app_nil_r, ?last_snoc.
  - by destruct (Z.land _ _ =? 0).
  - destruct (Z.land _ _ =? 0), (opt_len o =? 32); simpl; rewrite ?app_nil_r; try done.
    destruct p; [done|]. simpl. by rewrite reverse_snoc.
  - by destruct (Z.land _ _ =? 0).
  - destruct (Z.land _ _ =? 0), (opt_len o =? 8); simpl; by rewrite ?app_nil_r, ?last_snoc.
Qed.

(** ** The loop *)

Lemma opt_len_length o : Z.of_nat (length (encode_opt o)) = opt_len o.
Proof. unfold opt_len. simpl. lia. Qed.

Lemma encode_opts_cons o os : encode_opts (o :: os) = encode_opt o ++ encode_opts os.
Proof. done. Qed.

Lemma opt_wf_len o : opt_wf o → 8 <= opt_len o <= 2040 ∧ opt_len o = 8 * (opt_len o / 8).
Proof. intros (_ & _ & Hm & Hl). unfold opt_len in *. zlia. Qed.

(** Well-formed option areas. *)
Definition option_area (area : bytes) (os : list nd_opt) : Prop :=
  area = encode_opts os ∧ Forall opt_wf os.

Lemma option_area_cons t n area' os :
  option_area (t :: n :: area') os →
  ∃ body os', os = (t, body) :: os' ∧ opt_wf (t, body) ∧ opt_len (t, body) = 8 * n ∧
              area' = body ++ encode_opts os' ∧ option_area (encode_opts os') os'.
Proof.
  intros [E Hw]. destruct os as [|[t' body] os']; [done|].
  rewrite encode_opts_cons in E. simpl in E. simplify_eq E; intros -> -> ->.
  apply Forall_cons in Hw as [Ho Hw]. exists body, os'. split_and!; try done.
  destruct (opt_wf_len _ Ho) as [_ H]. exact H.
Qed.

Lemma encode_opts_inj os os' :
  Forall opt_wf os → Forall opt_wf os' → encode_opts os = encode_opts os' → os = os'.
Proof.
  revert os'. induction os as [|o os IH]; intros os' Hw Hw' E.
  - destruct os' as [|o' os']; [done|]. by destruct o'.
  - destruct o as [t body]. rewrite encode_opts_cons in E. simpl in E.
    assert (Ha : option_area (t :: opt_len (t, body) / 8 :: body ++ encode_opts os) os') by done.
    apply option_area_cons in Ha as (body' & os'' & -> & Ho' & El & Eb & _).
    apply Forall_cons in Hw as [Ho Hw]. apply Forall_cons in Hw' as [_ Hw'].
    destruct (opt_wf_len _ Ho) as [_ El']. unfold opt_len in El, El'. simpl in El, El'.
    apply app_inj_1 in Eb as [-> Eb]; [|lia]. f_equal. by apply IH.
Qed.

(** One iteration on a header followed by at least the announced octets. *)
Lemma loop_step fuel pre t n body rest post nd flags :
  0 < n → Z.of_nat (length body) + 2 = 8 * n →
  nd6_options_loop (S fuel) (pre ++ (t :: n :: body ++ rest) ++ post) (length pre)
    (Z.of_nat (length (t :: n :: body ++ rest))) nd flags
  = nd6_options_loop fuel ((pre ++ t :: n :: body) ++ rest ++ post)
      (length (pre ++ t :: n :: body)) (Z.of_nat (length rest))
      (record_option (length pre) t (8 * n) flags nd) flags.
Proof.
  intros Hn Hl.
  replace (Z.of_nat (length (t :: n :: body ++ rest))) with (8 * n + Z.of_nat (length rest))
    by (simpl; rewrite length_app; lia).
  cbn [nd6_options_loop].
  rewrite (proj2 (Z.leb_gt _ _)), (proj2 (Z.ltb_ge _ _)) by lia.
  rewrite rd8_app. replace (length pre) with (length pre + 0)%nat at 1 by lia.
  rewrite rd8_app. cbn [app lookup list_lookup of_opt mbind outcome_bind].
  rewrite (proj2 (Z.eqb_neq _ _)) by lia.
  rewrite Z.shiftl_mul_pow2 by lia. change (2 ^ 3) with 8.
  rewrite (proj2 (Z.ltb_ge _ _)) by lia.
  f_equal; [by rewrite <- !app_assoc | rewrite length_app; simpl; lia | lia | f_equal; lia].
Qed.

(** A header that announces nothing, or more than is left, is refused. *)
Lemma loop_bad fuel pre t n area post nd flags :
  ¬ (0 < n ∧ 8 * n <= Z.of_nat (length area) + 2) → byte_ok n →
  nd6_options_loop (S fuel) (pre ++ (t :: n :: area) ++ post) (length pre)
    (Z.of_nat (length (t :: n :: area))) nd flags = Ret (-1, nd).
Proof.
  intros Hbad Hn. unfold byte_ok in Hn. cbn [nd6_options_loop].
  assert (Hl : Z.of_nat (length (t :: n :: area)) = Z.of_nat (length area) + 2) by (simpl; lia).
  rewrite Hl. rewrite (proj2 (Z.leb_gt _ _)), (proj2 (Z.ltb_ge _ _)) by lia.
  rewrite rd8_app. replace (length pre) with (length pre + 0)%nat at 1 by lia.
  rewrite rd8_app. cbn [app lookup list_lookup of_opt mbind outcome_bind].
  destruct (n =? 0) eqn:E; [done|]. rewrite Z.shiftl_mul_pow2 by lia. change (2 ^ 3) with 8.
  by rewrite (proj2 (Z.ltb_lt _ _)) by lia.
Qed.

(** The loop on an arbitrary area: it returns 0 with the collected options
    when the area is a sequence of options, and -1 when it is not. *)
Lemma loop_spec fuel : ∀ pre area post ps flags,
  bytes_ok area → (length area < fuel)%nat →
  (∃ os, option_area area os ∧
     nd6_options_loop fuel (pre ++ area ++ post) (length pre) (Z.of_nat (length area))
       (collected flags ps) flags = Ret (0, collected flags (ps ++ placed (length pre) os))) ∨
  ((∀ os, ¬ option_area area os) ∧
   ∃ nd, nd6_options_loop fuel (pre ++ area ++ post) (length pre) (Z.of_nat (length area))
       (collected flags ps) flags = Ret (-1, nd)).
Proof.
  induction fuel as [|fuel IH]; intros pre area post ps flags Hok Hf; [lia|].
  destruct area as [|t [|n area']].
  - left. exists []. split; [by split|]. simpl. by rewrite app_nil_r.
  - right. split; [|simpl; eauto]. intros os [E Hw].
    destruct os as [|o os]; [done|]. apply (f_equal length) in E.
    apply Forall_cons in Hw as [Ho _]. apply opt_wf_len in Ho as [Ho _].
    rewrite encode_opts_cons, length_app in E. assert (Hl := opt_len_length o). simpl in E, Hl. lia.
  - apply Forall_cons in Hok as [Ht Hok]. apply Forall_cons in Hok as [Hn Hok].
    destruct (decide (0 < n ∧ 8 * n <= Z.of_nat (length area') + 2)) as [[Hn0 Hfit]|Hbad].
    + set (k := Z.to_nat (8 * n - 2)).
      rewrite <- (take_drop k area').
      assert (Hk : length (take k area') = k) by (rewrite length_take; lia).
      rewrite loop_step by lia.
      assert (Ho : opt_wf (t, take k area')).
      { unfold opt_wf, opt_len, byte_ok in *; simpl. rewrite Hk.
        split_and!; try lia; [by apply Forall_take|zlia]. }
      assert (El : opt_len (t, take k area') = 8 * n) by (unfold opt_len; simpl; lia).
      rewrite <- El.
      assert (R := record_collected flags ps (length pre) (t, take k area') Ht).
      cbn [fst] in R. rewrite R. clear R.
      set (o := (t, take k area')) in *.
      assert (Eo : t :: n :: take k area' = encode_opt o)
        by (unfold encode_opt; rewrite El; simpl; do 2 f_equal; zlia).
      destruct (IH (pre ++ encode_opt o) (drop k area') post (ps ++ [(length pre, o)]) flags)
        as [(os & [Ea Hw] & E)|[Hno (nd & E)]].
      { by apply Forall_drop. }
      { rewrite length_drop. simpl in Hf. lia. }
      * left. exists (o :: os). split; [|by rewrite Eo, E, <- !app_assoc, length_app].
        split; [|by constructor]. by rewrite encode_opts_cons, <- Eo, <- Ea.
      * right. split; [|rewrite Eo; eauto]. intros os Ho'.
        apply option_area_cons in Ho' as (body & os' & -> & _ & El' & Ea & Hos').
        apply app_inj_1 in Ea as [_ Ea]; [by apply (Hno os'); rewrite Ea|].
        unfold opt_len in El, El'. simpl in El, El'. lia.
    + right. split; [|rewrite loop_bad by done; eauto]. intros os Ho'.
      apply option_area_cons in Ho' as (body & os' & -> & Ho & El & -> & _).
      apply opt_wf_len in Ho as [Ho _]. apply Hbad. rewrite length_app.
      unfold opt_len in El, Ho. simpl in El, Ho. lia.
Qed.

Lemma bytes_ok_encode os : Forall opt_wf os → bytes_ok (encode_opts os).
Proof.
  intros Hw. apply bytes_ok_concat, Forall_fmap. eapply Forall_impl; [done|].
  intros o Ho. pose proof (opt_wf_len o Ho). destruct Ho as (Ht & Hb & _).
  apply Forall_cons_2; [done|]. apply Forall_cons_2; [unfold byte_ok; lia|done].
Qed.

(** The loop on a known sequence of options. *)
Lemma nd6_options_encoded pre os post flags :
  Forall opt_wf os →
  nd6_options (pre ++ encode_opts os ++ post) (length pre) (Z.of_nat (length (encode_opts os))) flags
  = Ret (0, collected flags (placed (length pre) os)).
Proof.
  intros Hw. unfold nd6_options. rewrite Nat2Z.id. change no_opts with (collected flags []).
  destruct (loop_spec (S (length (encode_opts os))) pre (encode_opts os) post [] flags)
    as [(os' & [Ea Hw'] & E)|[Hno _]]; [by apply bytes_ok_encode|lia| |by destruct (Hno os)].
  rewrite E. by rewrite (encode_opts_inj os os').
Qed.

(** C6: [nd6_options] returns on every option area of a packet, reads nothing
    outside it, accepts exactly the areas that are a sequence of options (each
    with a non-zero length that fits), and then records the last source
    link-layer and MTU options, the first prefix option and the other prefix
    options in reverse order, among those wanted and of the required size. *)
Theorem nd6_options_correct pre area post flags :
  bytes_ok area →
  ∃ r nd, nd6_options (pre ++ area ++ post) (length pre) (Z.of_nat (length area)) flags
            = Ret (r, nd) ∧
    (r = 0 ∨ r = -1) ∧
    (r = 0 ↔ ∃ os, area = encode_opts os ∧ Forall opt_wf os) ∧
    (∀ os, area = encode_opts os → Forall opt_wf os →
       nd = collected flags (placed (length pre) os)).
Proof.
  intros Hok. unfold nd6_options. rewrite Nat2Z.id.
  destruct (loop_spec (S (length area)) pre area post [] flags Hok ltac:(lia))
    as [(os & [Ea Hw] & E)|[Hno (nd & E)]]; change no_opts with (collected flags []); rewrite E.
  - eexists _, _; split; [done|]. split_and!; [by left|naive_solver|].
    intros os' Ea' Hw'. by rewrite (encode_opts_inj os os') by congruence.
  - eexists _, _; split; [done|]. split_and!; [by right| |].
    + split; [done|]. intros (os & ? & ?). by destruct (Hno os).
    + intros os ? ?. by destruct (Hno os).
Qed.

Lemma nd6_options_correct_witness :
  nd6_options (replicate 16 0 ++ encode_opts [(5, [0; 0; 0; 0; 5; 220])] ++ []) 16 8
    NDOPT_FLAG_MTU = Ret (0, NdOpts None None None None (Some 16%nat) []).
Proof.
  destruct (nd6_options_correct (replicate 16 0) (encode_opts [(5, [0; 0; 0; 0; 5; 220])]) []
              NDOPT_FLAG_MTU) as (r & nd & E & _ & Hr & Hnd).
  { apply (bool_decide_eq_true_1 (bytes_ok _)). reflexivity. }
  assert (Hw : Forall opt_wf [(5, [0; 0; 0; 0; 5; 220])]).
  { apply Forall_singleton. split_and!; try done.
    apply (bool_decide_eq_true_1 (bytes_ok [0; 0; 0; 0; 5; 220])). reflexivity. }
  rewrite (Hnd _ eq_refl Hw) in E. rewrite (proj2 Hr (ex_intro _ _ (conj eq_refl Hw))) in E.
  exact E.
Defined.
