(* ===== verification/RaTimer.v ===== *)
(** * RaTimer: the timer queue of rtadvd (timer.c)

    The doubly linked list of timers is a list of nodes with their addresses,
    front first ([insque] links a node after the head). The functions a timer
    calls belong to the program that uses the queue, which is described by the
    interface [TimerHost]; the theorems about [rtadvd_check_timer] hold for
    every host that obeys the laws [TimerHostLaws]. *)

From S2P Require Import Prelude Timeval.

(** [struct rtadvd_timer]: its address, the functions to call with their
    argument (as one value of type [D]) and the time it expires. *)
Record rtadvd_timer (D : Type) := Timer {
  tm_id : nat;
  tm_expire : D;
  tm_tm : timeval }.
Arguments Timer {D}. Arguments tm_id {D}. Arguments tm_expire {D}. Arguments tm_tm {D}.
#[export] Instance eta_rtadvd_timer D : Eta (rtadvd_timer D) := λ t,
  Timer (tm_id t) (tm_expire t) (tm_tm t).

(** [timer_head]: the next expiration time and the list; [tq_next] is the
    address of the next node to be allocated. *)
Record timer_queue (D : Type) := TQ {
  tq_tm : timeval;
  tq_list : list (rtadvd_timer D);
  tq_next : nat }.
Arguments TQ {D}. Arguments tq_tm {D}. Arguments tq_list {D}. Arguments tq_next {D}.
#[export] Instance eta_timer_queue D : Eta (timer_queue D) := λ q,
  TQ (tq_tm q) (tq_list q) (tq_next q).

Section queue.
Context {D : Type}.
Implicit Types q : timer_queue D.

Definition rtadvd_timer_init (next : nat) : timer_queue D := TQ tm_max [] next.

Definition rtadvd_add_timer (timeout : D) q : nat * timer_queue D :=
  (tq_next q,
   TQ (tq_tm q) (Timer (tq_next q) timeout tm_max :: tq_list q) (S (tq_next q))).

(** Splits the list at the node [id]. *)
Fixpoint find_timer (id : nat) (l : list (rtadvd_timer D)) :
    option (list (rtadvd_timer D) * rtadvd_timer D * list (rtadvd_timer D)) :=
  match l with
  | [] => None
  | t :: l' =>
      if (tm_id t =? id)%nat then Some ([], t, l')
      else '(l1, t', l2) ← find_timer id l'; Some (t :: l1, t', l2)
  end.

(** [remque] and [free]; a node that is not in the list is a dangling
    pointer. *)
Definition rtadvd_remove_timer (id : nat) q : outcome (timer_queue D) :=
  '(l1, _, l2) ← of_opt (find_timer id (tq_list q));
  Ret (q <| tq_list := l1 ++ l2 |>).

(** Assignment to the [tm] field of a node. *)
Definition write_tm (id : nat) (tm : timeval) q : outcome (timer_queue D) :=
  '(l1, t, l2) ← of_opt (find_timer id (tq_list q));
  Ret (q <| tq_list := l1 ++ t <| tm_tm := tm |> :: l2 |>).

(** [if (TIMEVAL_LT(tm, timer_head.tm)) timer_head.tm = tm]. *)
Definition note_tm (tm : timeval) q : timer_queue D :=
  if TIMEVAL_LT tm (tq_tm q) then q <| tq_tm := tm |> else q.

Definition rtadvd_set_timer (now tm : timeval) (id : nat) q : outcome (timer_queue D) :=
  let tm' := TIMEVAL_ADD now tm in
  q' ← write_tm id tm' q;
  Ret (note_tm tm' q').

Definition rtadvd_timer_rest (now : timeval) (id : nat) q : outcome timeval :=
  '(_, t, _) ← of_opt (find_timer id (tq_list q));
  Ret (if TIMEVAL_LEQ (tm_tm t) now then TV 0 0 else TIMEVAL_SUB (tm_tm t) now).

End queue.

(** ** The host program *)

(** What [rtadvd_check_timer] uses of the program: its queue, the clock, the
    function called when a timer expires ([false] is a NULL result) and the
    one that computes the next interval, which may be missing. *)
Class TimerHost (D W : Type) := {
  host_queue : W → timer_queue D;
  host_set_queue : timer_queue D → W → W;
  host_now : ST W timeval;
  host_expire : D → ST W bool;
  host_update : D → option (ST W timeval) }.

Section check.
Context {D W : Type} `{TimerHost D W}.

Definition on_queue (f : timer_queue D → outcome (timer_queue D)) : ST W unit :=
  λ w, q ← f (host_queue w); Ret (tt, host_set_queue q w).

(** The body of the loop for the node [t] that has expired: the functions it
    calls, and the new expiration time. [false] means [continue]. *)
Definition fire (now : timeval) (t : rtadvd_timer D) : ST W bool :=
  alive ← host_expire (tm_expire t);
  if alive : bool then
    _ ← match host_update (tm_expire t) with
        | Some update => tm ← update; on_queue (write_tm (tm_id t) tm)
        | None => skip
        end;
    _ ← on_queue (λ q, '(_, t', _) ← of_opt (find_timer (tm_id t) (tq_list q));
                       write_tm (tm_id t) (TIMEVAL_ADD (tm_tm t') now) q);
    mret true
  else mret false.

(** The loop over the list from the node [cur] ([None] is the head, reached
    again). The next node is read before the functions are called. *)
Fixpoint check_timers (fuel : nat) (now : timeval) (cur : option nat) : ST W unit :=
  match cur, fuel with
  | None, _ => skip
  | Some _, O => lift Crash
  | Some id, S fuel =>
      w ← get;
      '(_, t, rest) ← lift (of_opt (find_timer id (tq_list (host_queue w))));
      let tm_next := tm_id <$> head rest in
      keep ← (if TIMEVAL_LEQ (tm_tm t) now then fire now t else mret true);
      _ ← (if keep : bool then
             on_queue (λ q, '(_, t', _) ← of_opt (find_timer id (tq_list q));
                            Ret (note_tm (tm_tm t') q))
           else skip);
      check_timers fuel now tm_next
  end.

(** The result is the timeout for [select], [None] for a NULL pointer. *)
Definition rtadvd_check_timer : ST W (option timeval) :=
  now ← host_now;
  _ ← modify (λ w, host_set_queue (host_queue w <| tq_tm := tm_max |>) w);
  w ← get;
  let l := tq_list (host_queue w) in
  _ ← check_timers (length l) now (tm_id <$> head l);
  w ← get;
  let head_tm := tq_tm (host_queue w) in
  mret (if TIMEVAL_EQUAL tm_max head_tm then None
        else if TIMEVAL_LT head_tm now then Some (TV 0 0)
        else Some (TIMEVAL_SUB head_tm now)).

End check.

(** ** Laws of a host

    Under its invariant the host's functions return; [host_expire] keeps the
    other timers and, when it does not return NULL, its own timer too. *)

Definition same_nodes {D} (l l' : list (rtadvd_timer D)) : Prop :=
  ((λ t, (tm_id t, tm_expire t)) <$> l) = ((λ t, (tm_id t, tm_expire t)) <$> l').

Class TimerHostLaws (D W : Type) `{TimerHost D W} (inv : W → Prop) := {
  host_queue_set : ∀ q w, host_queue (host_set_queue q w) = q;
  host_inv_nodup : ∀ w, inv w → NoDup (tm_id <$> tq_list (host_queue w));
  host_inv_set : ∀ w q, inv w → same_nodes (tq_list (host_queue w)) (tq_list q) →
    tq_next q = tq_next (host_queue w) → inv (host_set_queue q w);
  host_now_law : ∀ w, inv w → ∃ now w', host_now w = Ret (now, w') ∧
    inv w' ∧ host_queue w' = host_queue w;
  host_expire_law : ∀ w l1 t l2, inv w → tq_list (host_queue w) = l1 ++ t :: l2 →
    ∃ alive w', host_expire (tm_expire t) w = Ret (alive, w') ∧ inv w' ∧
      tq_tm (host_queue w') = tq_tm (host_queue w) ∧
      (tq_list (host_queue w') = tq_list (host_queue w) ∨
       alive = false ∧ tq_list (host_queue w') = l1 ++ l2);
  host_update_law : ∀ w t u, inv w → t ∈ tq_list (host_queue w) →
    host_update (tm_expire t) = Some u →
    ∃ tm w', u w = Ret (tm, w') ∧ inv w' ∧ host_queue w' = host_queue w }.

(** What one pass does to the list: a timer that has not expired is left
    alone; one that has is removed, left alone or given a new deadline. *)
Inductive swept {D} (now : timeval) : list (rtadvd_timer D) → list (rtadvd_timer D) → Prop :=
  | swept_nil : swept now [] []
  | swept_kept t l l' : TIMEVAL_LEQ (tm_tm t) now = false →
      swept now l l' → swept now (t :: l) (t :: l')
  | swept_removed t l l' : TIMEVAL_LEQ (tm_tm t) now = true →
      swept now l l' → swept now (t :: l) l'
  | swept_fired t tm l l' : TIMEVAL_LEQ (tm_tm t) now = true →
      swept now l l' → swept now (t :: l) (t <| tm_tm := tm |> :: l').

(** [head] is the earliest deadline of [l], where expired timers may be left
    out: a lower bound of the deadlines after [now], attained or [tm_max]. *)
Definition earliest {D} (now : timeval) (l : list (rtadvd_timer D)) (head : timeval) : Prop :=
  (∀ t, t ∈ l → TIMEVAL_LT now (tm_tm t) = true → TIMEVAL_LEQ head (tm_tm t) = true) ∧
  (head = tm_max ∨ ∃ t, t ∈ l ∧ tm_tm t = head).

Section find.
Context {D : Type}.

Lemma find_timer_middle (l1 l2 : list (rtadvd_timer D)) t id :
  tm_id t = id → NoDup (tm_id <$> l1 ++ t :: l2) → find_timer id (l1 ++ t :: l2) = Some (l1, t, l2).
Proof.
  intros <-. induction l1 as [|t1 l1 IH]; simpl; intros Hn.
  - by rewrite Nat.eqb_refl.
  - apply NoDup_cons in Hn as [Hni Hn]. rewrite IH by done.
    rewrite (proj2 (Nat.eqb_neq _ _)); [done|]. intros E. apply Hni. rewrite E.
    rewrite fmap_app. set_solver.
Qed.

Lemma write_tm_middle (l1 l2 : list (rtadvd_timer D)) t tm q :
  tq_list q = l1 ++ t :: l2 → NoDup (tm_id <$> tq_list q) →
  write_tm (tm_id t) tm q = Ret (q <| tq_list := l1 ++ t <| tm_tm := tm |> :: l2 |>).
Proof.
  intros E Hn. unfold write_tm. rewrite E in Hn |- *.
  by rewrite (find_timer_middle l1 l2 t).
Qed.

End find.

Section correctness.
Context {D W : Type} `{TimerHost D W} (inv : W → Prop) `{!TimerHostLaws D W inv}.

Lemma same_nodes_tm (l1 l2 : list (rtadvd_timer D)) t tm :
  same_nodes (l1 ++ t :: l2) (l1 ++ t <| tm_tm := tm |> :: l2).
Proof. unfold same_nodes. by rewrite !fmap_app. Qed.

(** Writing a deadline through [on_queue]. *)
Lemma on_queue_write w l1 t l2 tm :
  inv w → tq_list (host_queue w) = l1 ++ t :: l2 →
  ∃ w', on_queue (write_tm (tm_id t) tm) w = Ret (tt, w') ∧ inv w' ∧
    tq_tm (host_queue w') = tq_tm (host_queue w) ∧
    tq_list (host_queue w') = l1 ++ t <| tm_tm := tm |> :: l2.
Proof.
  intros Hi E. unfold on_queue.
  rewrite (write_tm_middle l1 l2 t tm _ E (host_inv_nodup _ Hi)). simpl.
  eexists. split; [done|]. rewrite host_queue_set. split_and!; [|done..].
  apply host_inv_set; [done| |done]. rewrite E. apply same_nodes_tm.
Qed.

(** An expired timer is removed, or kept with some deadline. *)
Lemma fire_spec now w l1 t l2 :
  inv w → tq_list (host_queue w) = l1 ++ t :: l2 →
  ∃ keep w', fire now t w = Ret (keep, w') ∧ inv w' ∧
    tq_tm (host_queue w') = tq_tm (host_queue w) ∧
    (keep = true ∧ (∃ tm, tq_list (host_queue w') = l1 ++ t <| tm_tm := tm |> :: l2) ∨
     keep = false ∧ (tq_list (host_queue w') = l1 ++ t :: l2 ∨
                     tq_list (host_queue w') = l1 ++ l2)).
Proof.
  intros Hi E. destruct (host_expire_law w l1 t l2 Hi E) as (alive & w1 & E1 & Hi1 & Ht1 & Hl1).
  unfold fire. rewrite (bind_run _ _ _ _ _ E1). destruct alive.
  2:{ exists false, w1. split_and!; try done.
      right. destruct Hl1 as [->|[_ ->]]; auto. }
  destruct Hl1 as [El1|[? _]]; [|done]. rewrite E in El1.
  assert (Hu : ∃ tm w2,
    match host_update (tm_expire t) with
    | Some update => tm ← update; on_queue (write_tm (tm_id t) tm)
    | None => skip
    end w1 = Ret (tt, w2) ∧ inv w2 ∧ tq_tm (host_queue w2) = tq_tm (host_queue w) ∧
    tq_list (host_queue w2) = l1 ++ t <| tm_tm := tm |> :: l2).
  { destruct (host_update (tm_expire t)) as [u|] eqn:Eu.
    - destruct (host_update_law w1 t u Hi1) as (tm & w2 & E2 & Hi2 & Eq2);
        [rewrite El1; apply elem_of_middle|done|].
      exists tm. rewrite (bind_run _ _ _ _ _ E2), <- Ht1, <- Eq2.
      apply on_queue_write; [done|by rewrite Eq2].
    - exists (tm_tm t), w1. split_and!; try done. rewrite El1. by destruct t. }
  destruct Hu as (tm & w2 & E2 & Hi2 & Ht2 & El2). rewrite (bind_run _ _ _ _ _ E2).
  destruct (on_queue_write w2 l1 (t <| tm_tm := tm |>) l2 (TIMEVAL_ADD tm now) Hi2 El2)
    as (w3 & E3 & Hi3 & Ht3 & El3).
  exists true, w3. split.
  { erewrite bind_run; [done|]. rewrite <- E3. unfold on_queue. rewrite El2 at 1.
    rewrite (find_timer_middle l1 l2 (t <| tm_tm := tm |>) (tm_id t)); [done..|].
    rewrite <- El2. by apply host_inv_nodup. }
  split_and!; [done|by rewrite Ht3|]. left. split; [done|]. by exists (TIMEVAL_ADD tm now).
Qed.

(** [note_tm] in the middle of the pass. *)
Lemma note_spec now w l1 t l2 :
  inv w → tq_list (host_queue w) = l1 ++ t :: l2 → earliest now l1 (tq_tm (host_queue w)) →
  ∃ w', on_queue (λ q, '(_, t', _) ← of_opt (find_timer (tm_id t) (tq_list q));
                       Ret (note_tm (tm_tm t') q)) w = Ret (tt, w') ∧ inv w' ∧
    tq_list (host_queue w') = l1 ++ t :: l2 ∧ earliest now (l1 ++ [t]) (tq_tm (host_queue w')).
Proof.
  intros Hi E He.
  exists (host_set_queue (note_tm (tm_tm t) (host_queue w)) w). split.
  { unfold on_queue. rewrite E at 1. rewrite (find_timer_middle l1 l2 t (tm_id t)); [done..|].
    rewrite <- E. by apply host_inv_nodup. }
  rewrite host_queue_set.
  split; [apply host_inv_set; [done|by unfold note_tm; case_match..]|].
  unfold note_tm. destruct He as [Hb Ha].
  destruct (TIMEVAL_LT (tm_tm t) (tq_tm (host_queue w))) eqn:El; simpl.
  - split; [done|]. split.
    + intros t' Ht' Hlt. apply elem_of_app in Ht' as [Ht'|?%list_elem_of_singleton].
      * specialize (Hb t' Ht' Hlt). revert Hb El. clear. tv_lia.
      * subst. clear. tv_lia.
    + right. exists t. split; [apply elem_of_middle|done].
  - split; [done|]. split.
    + intros t' Ht' Hlt. apply elem_of_app in Ht' as [Ht'|?%list_elem_of_singleton]; [auto|].
      subst. revert El. clear. tv_lia.
    + destruct Ha as [?|(t' & ? & ?)]; [by left|right]. exists t'. rewrite elem_of_app. auto.
Qed.

(** One iteration of the loop. *)
Lemma visit_spec now w l t rest :
  inv w → tq_list (host_queue w) = l ++ t :: rest → earliest now l (tq_tm (host_queue w)) →
  ∃ w' l', check_timers (S (length rest)) now (Some (tm_id t)) w
             = check_timers (length rest) now (tm_id <$> head rest) w' ∧ inv w' ∧
    tq_list (host_queue w') = (l ++ l') ++ rest ∧ earliest now (l ++ l') (tq_tm (host_queue w')) ∧
    swept now [t] l'.
Proof.
  intros Hi E He. cbn [check_timers].
  assert (Hf : find_timer (tm_id t) (tq_list (host_queue w)) = Some (l, t, rest)).
  { rewrite E. apply find_timer_middle; [done|]. rewrite <- E. by apply host_inv_nodup. }
  rewrite get_run, (lift_run _ _ _ (l, t, rest)) by (by rewrite Hf).
  destruct (TIMEVAL_LEQ (tm_tm t) now) eqn:Et.
  - destruct (fire_spec now w l t rest Hi E) as (keep & w1 & E1 & Hi1 & Ht1 & Hl1).
    rewrite (bind_run _ _ _ _ _ E1). rewrite <- Ht1 in He.
    destruct Hl1 as [[-> [tm El]]|[-> [El|El]]].
    + destruct (note_spec now w1 l (t <| tm_tm := tm |>) rest Hi1 El He) as (w2 & E2 & Hi2 & El2 & He2).
      rewrite (bind_run _ _ _ _ _ E2). exists w2, [t <| tm_tm := tm |>].
      rewrite <- app_assoc. split_and!; try done. by apply swept_fired, swept_nil.
    + exists w1, [t]. rewrite <- app_assoc. split_and!; try done.
      * destruct He as [Hb Ha]. split.
        -- intros t' Ht' Hlt. apply elem_of_app in Ht' as [?|Ht']; [auto|].
           apply list_elem_of_singleton in Ht' as ->.
           rewrite TIMEVAL_LEQ_LT, Hlt in Et. done.
        -- destruct Ha as [?|(t' & ? & ?)]; [by left|right]. exists t'. rewrite elem_of_app. auto.
      * destruct t as [i d tm]. apply (swept_fired now (Timer i d tm) tm []); [done|apply swept_nil].
    + exists w1, []. rewrite app_nil_r. split_and!; try done. by apply swept_removed, swept_nil.
  - destruct (note_spec now w l t rest Hi E He) as (w2 & E2 & Hi2 & El2 & He2).
    rewrite (bind_run _ _ w true w eq_refl), (bind_run _ _ _ _ _ E2). exists w2, [t].
    rewrite <- app_assoc. split_and!; try done. by apply swept_kept, swept_nil.
Qed.

Lemma swept_app now (l1 l2 l1' l2' : list (rtadvd_timer D)) :
  swept now l1 l1' → swept now l2 l2' → swept now (l1 ++ l2) (l1' ++ l2').
Proof. induction 1; simpl; auto using swept. Qed.

Lemma check_timers_spec now : ∀ rest l w,
  inv w → tq_list (host_queue w) = l ++ rest → earliest now l (tq_tm (host_queue w)) →
  ∃ w' rest', check_timers (length rest) now (tm_id <$> head rest) w = Ret (tt, w') ∧ inv w' ∧
    tq_list (host_queue w') = l ++ rest' ∧ swept now rest rest' ∧
    earliest now (l ++ rest') (tq_tm (host_queue w')).
Proof.
  induction rest as [|t rest IH]; intros l w Hi E He.
  { exists w, []. rewrite app_nil_r in *. split_and!; try done. apply swept_nil. }
  destruct (visit_spec now w l t rest Hi E He) as (w1 & l' & E1 & Hi1 & El1 & He1 & Hs1).
  destruct (IH (l ++ l') w1 Hi1 El1 He1) as (w2 & rest' & E2 & Hi2 & El2 & Hs2 & He2).
  exists w2, (l' ++ rest'). cbn [length head fmap option_fmap option_map].
  rewrite E1, E2, app_assoc. split_and!; try done. by apply (swept_app now [t] rest).
Qed.

(** For every host that obeys the laws, a pass of [rtadvd_check_timer]
    returns (no freed node is followed), keeps the invariant, does not touch
    a timer that has not expired and calls the functions of each expired one,
    and leaves in [timer_head.tm] the earliest deadline; its result is NULL
    when no deadline is left, and otherwise the time to the earliest one,
    clamped at zero. *)
Lemma check_timer_pass w :
  inv w →
  ∃ now w0 r w', host_now w = Ret (now, w0) ∧ rtadvd_check_timer w = Ret (r, w') ∧ inv w' ∧
    swept now (tq_list (host_queue w)) (tq_list (host_queue w')) ∧
    earliest now (tq_list (host_queue w')) (tq_tm (host_queue w')) ∧
    r = if decide (tq_tm (host_queue w') = tm_max) then None
        else Some (remaining (tq_tm (host_queue w')) now).
Proof.
  intros Hi. destruct (host_now_law w Hi) as (now & w0 & E0 & Hi0 & Eq0).
  set (w1 := host_set_queue (host_queue w0 <| tq_tm := tm_max |>) w0).
  assert (Hi1 : inv w1) by (by apply host_inv_set).
  assert (Eq1 : host_queue w1 = host_queue w0 <| tq_tm := tm_max |>) by apply host_queue_set.
  destruct (check_timers_spec now (tq_list (host_queue w1)) [] w1 Hi1 eq_refl)
    as (w2 & l & E2 & Hi2 & El2 & Hs2 & He2).
  { rewrite Eq1. split; [set_solver|by left]. }
  eexists now, w0, _, w2. split; [done|]. split.
  { unfold rtadvd_check_timer. rewrite (bind_run _ _ _ _ _ E0), modify_run. fold w1.
    rewrite get_run, (bind_run _ _ _ _ _ E2). done. }
  rewrite El2. split_and!; try done; [by rewrite Eq1, Eq0 in Hs2|].
  unfold remaining. destruct (TIMEVAL_EQUAL tm_max _) eqn:Em.
  - apply TIMEVAL_EQUAL_spec in Em. by rewrite decide_True.
  - rewrite decide_False; [by destruct (TIMEVAL_LT _ _)|].
    intros Ex. rewrite Ex in Em. by rewrite (proj2 (TIMEVAL_EQUAL_spec _ _) eq_refl) in Em.
Qed.

End correctness.
