(* ===== verification/RtMsg.v ===== *)
(** * RtMsg: routing messages and the interface list (rtadvd.tproj/if.c)

    Routing messages are octets in host byte order, at the offsets of
    [struct rt_msghdr] (bsd/net/route.h), [struct if_msghdr] and
    [struct ifa_msghdr] (bsd/net/if.h); pointers into a buffer are offsets.
    A read outside the buffer is [Crash]. Loops that the code does not bound
    return [None] when their fuel runs out. *)

From S2P Require Import Prelude In6.

Definition RTM_ADD : Z := 0x1.
Definition RTM_DELETE : Z := 0x2.
Definition RTM_GET : Z := 0x4.
Definition RTM_NEWADDR : Z := 0xc.
Definition RTM_DELADDR : Z := 0xd.
Definition RTM_IFINFO : Z := 0xe.

Definition RTAX_DST : nat := 0.
Definition RTAX_GATEWAY : nat := 1.
Definition RTAX_NETMASK : nat := 2.
Definition RTAX_IFP : nat := 4.
Definition RTAX_IFA : nat := 5.
Definition RTAX_MAX : nat := 8.

Definition sizeof_rt_msghdr : nat := 92.
Definition sizeof_if_msghdr : nat := 112.
Definition sizeof_ifa_msghdr : nat := 20.

Definition ROUNDUP (a size : Z) : Z :=
  if truthy (Z.land a (size - 1)) then 1 + Z.lor a (size - 1) else a.

(** The step from a sockaddr to the next. *)
Definition NEXT_SA (sa_len : Z) : nat :=
  Z.to_nat (if truthy sa_len then ROUNDUP sa_len 4 else 4).

Definition RTADV_TYPE2BITMASK (type : Z) : Z := Z.shiftl 1 type.
Definition FILTER_MATCH (type filter : Z) : bool := truthy (Z.land (Z.shiftl 1 type) filter).

(** ** Fields of the messages at [p] *)

Section fields.
Context (buf : bytes).

Definition rtmsg_len (p : nat) : outcome Z := of_opt (rd16le buf p).
Definition rtmsg_type (p : nat) : outcome Z := of_opt (rd8 buf (p + 3)).
Definition rtm_addrs (p : nat) : outcome Z := of_opt (rd32le buf (p + 12)).
(** [struct if_msghdr] and [struct ifa_msghdr] agree on these fields. *)
Definition ifm_addrs (p : nat) : outcome Z := of_opt (rd32le buf (p + 4)).
Definition get_ifm_flags (p : nat) : outcome Z := of_opt (rd32le buf (p + 8)).
Definition get_ifm_ifindex (p : nat) : outcome Z := of_opt (rd16le buf (p + 12)).
Definition get_ifam_ifindex (p : nat) : outcome Z := of_opt (rd16le buf (p + 12)).

Definition sa_len (sa : nat) : outcome Z := of_opt (rd8 buf sa).
Definition sa_family (sa : nat) : outcome Z := of_opt (rd8 buf (sa + 1)).
Definition sin6_addr (sa : nat) : outcome in6_addr := of_opt (read_at buf (sa + 8) 16).
Definition sdl_index_at (sa : nat) : outcome Z := of_opt (rd16le buf (sa + 2)).

(** [rti_info] from index [i] on: the sockaddrs whose bit is set follow each
    other. *)
Fixpoint get_rtaddrs_from (n : nat) (i : Z) (addrs : Z) (sa : nat) : outcome (list (option nat)) :=
  match n with
  | O => Ret []
  | S n =>
      if Z.testbit addrs i then
        len ← sa_len sa;
        rest ← get_rtaddrs_from n (i + 1) addrs (sa + NEXT_SA len);
        Ret (Some sa :: rest)
      else
        rest ← get_rtaddrs_from n (i + 1) addrs sa;
        Ret (None :: rest)
  end.

Definition get_rtaddrs (addrs : Z) (sa : nat) : outcome (list (option nat)) :=
  get_rtaddrs_from RTAX_MAX 0 addrs sa.

(** A pointer of [rti_info]; NULL is not dereferenced. *)
Definition info (rti : list (option nat)) (i : nat) : option nat := mjoin (rti !! i).

(** The checks of [get_next_msg] on the message at [p]: whether it is one the
    caller wants. *)
Definition wanted_msg (p : nat) (ifindex type : Z) : outcome bool :=
  if (type =? RTM_GET) || (type =? RTM_ADD) || (type =? RTM_DELETE) then
    addrs ← rtm_addrs p;
    rti ← get_rtaddrs addrs (p + sizeof_rt_msghdr);
    match info rti RTAX_DST with
    | None => Ret false
    | Some dst =>
        fam ← sa_family dst;
        if negb (fam =? AF_INET6) then Ret false else
        a ← sin6_addr dst;
        if IN6_IS_ADDR_LINKLOCAL a || IN6_IS_ADDR_MULTICAST a then Ret false else
        match info rti RTAX_GATEWAY with
        | None => Ret false
        | Some gw =>
            gfam ← sa_family gw;
            if negb (gfam =? AF_LINK) then Ret false else
            idx ← (if truthy ifindex then sdl_index_at gw else Ret ifindex);
            if negb (idx =? ifindex) then Ret false else
            Ret (bool_decide (is_Some (info rti RTAX_NETMASK)))
        end
    end
  else if (type =? RTM_NEWADDR) || (type =? RTM_DELADDR) then
    addrs ← ifm_addrs p;
    rti ← get_rtaddrs addrs (p + sizeof_ifa_msghdr);
    match info rti RTAX_IFA with
    | None => Ret false
    | Some ifa =>
        fam ← sa_family ifa;
        if negb ((fam =? AF_INET) || (fam =? AF_INET6)) then Ret false else
        bad ← (if fam =? AF_INET6 then
                 a ← sin6_addr ifa;
                 Ret (IN6_IS_ADDR_LINKLOCAL a || IN6_IS_ADDR_MULTICAST a)
               else Ret false);
        if bad : bool then Ret false else
        idx ← (if truthy ifindex then get_ifam_ifindex p else Ret ifindex);
        Ret (idx =? ifindex)
    end
  else Ret (type =? RTM_IFINFO).

(** The position of the first wanted message and its length, or the position
    where the search stopped and 0. Every iteration advances, so [lim]
    iterations are enough. *)
Fixpoint next_msg_loop (fuel : nat) (rtm lim : nat) (ifindex filter : Z) : outcome (nat * Z) :=
  match fuel with
  | O => Ret (rtm, 0)
  | S fuel =>
      if (lim <=? rtm)%nat then Ret (rtm, 0) else
      len ← rtmsg_len rtm;
      if len =? 0 then Ret (rtm, 0) else
      type ← rtmsg_type rtm;
      hit ← (if FILTER_MATCH type filter then wanted_msg rtm ifindex type else Ret false);
      if hit : bool then Ret (rtm, len)
      else next_msg_loop fuel (rtm + Z.to_nat len) lim ifindex filter
  end.

Definition get_next_msg (p lim : nat) (ifindex filter : Z) : outcome (nat * Z) :=
  next_msg_loop (S (lim - p)) p lim ifindex filter.

(** The accessors of a RTM_ADD or RTM_DELETE message dereference the pointers
    without a test. *)
Definition rtm_info (p : nat) (i : nat) : outcome nat :=
  addrs ← rtm_addrs p;
  rti ← get_rtaddrs addrs (p + sizeof_rt_msghdr);
  of_opt (info rti i).

Definition get_addr (p : nat) : outcome in6_addr := sa ← rtm_info p RTAX_DST; sin6_addr sa.
Definition get_rtm_ifindex (p : nat) : outcome Z :=
  sa ← rtm_info p RTAX_GATEWAY; sdl_index_at sa.

(** The octets of the netmask from the address field up to [sa_len]. *)
Definition get_prefixlen (p : nat) : outcome Z :=
  sa ← rtm_info p RTAX_NETMASK;
  len ← sa_len sa;
  mask ← of_opt (read_at buf (sa + 8) (Z.to_nat len - 8));
  Ret (prefixlen mask).

End fields.

(** ** The link-level address of an interface *)

(** The [sockaddr_dl] at [sa]; [sdl_data] runs up to [sdl_len]. *)
Definition read_sdl (buf : bytes) (sa : nat) : outcome sockaddr_dl :=
  len ← sa_len buf sa;
  index ← of_opt (rd16le buf (sa + 2));
  type ← of_opt (rd8 buf (sa + 4));
  nlen ← of_opt (rd8 buf (sa + 5));
  alen ← of_opt (rd8 buf (sa + 6));
  data ← of_opt (read_at buf (sa + 8) (Z.to_nat len - 8));
  Ret (Sdl index type (Z.to_nat nlen) (Z.to_nat alen) data).

(** [strncmp] of [name] with the octets at [sdl_data], of the same length. *)
Definition sdl_has_name (buf : bytes) (sa : nat) (name : bytes) : outcome bool :=
  nlen ← of_opt (rd8 buf (sa + 5));
  if negb (Z.of_nat (length name) =? nlen) then Ret false else
  data ← of_opt (read_at buf (sa + 8) (Z.to_nat nlen));
  Ret (bool_decide (data = name)).

(** One message: the AF_LINK sockaddr looked at, and whether it matches. *)
Definition sdl_of_msg (buf : bytes) (next : nat) (name : bytes) : outcome (option nat * bool) :=
  type ← of_opt (rd8 buf (next + 3));
  if negb (type =? RTM_IFINFO) then Ret (None, false) else
  addrs ← ifm_addrs buf next;
  rti ← get_rtaddrs buf addrs (next + sizeof_if_msghdr);
  match info rti RTAX_IFP with
  | None => Ret (None, false)
  | Some sa =>
      fam ← sa_family buf sa;
      if negb (fam =? AF_LINK) then Ret (None, false) else
      same ← sdl_has_name buf sa name;
      Ret (Some sa, same)
  end.

(** [sdl] is the last sockaddr looked at; it is returned when a message
    length runs over the end of the block. *)
Fixpoint nametosdl_loop (fuel : nat) (buf : bytes) (next : nat) (sdl : option nat) (name : bytes) :
    outcome (option (option sockaddr_dl)) :=
  match fuel with
  | O => Ret None
  | S fuel =>
      if (length buf <=? next)%nat then
        match sdl with
        | Some sa => if (next =? length buf)%nat then Ret (Some None)
                     else s ← read_sdl buf sa; Ret (Some (Some s))
        | None => Ret (Some None)
        end
      else
        '(looked, same) ← sdl_of_msg buf next name;
        match looked with
        | Some sa => if same : bool then s ← read_sdl buf sa; Ret (Some (Some s))
                     else len ← rtmsg_len buf next;
                          nametosdl_loop fuel buf (next + Z.to_nat len) (Some sa) name
        | None => len ← rtmsg_len buf next;
                  nametosdl_loop fuel buf (next + Z.to_nat len) sdl name
        end
  end.

(** [dump] is the answer of [sysctl(NET_RT_IFLIST)], [None] if it fails. *)
Definition if_nametosdl (fuel : nat) (dump : option bytes) (name : bytes) :
    outcome (option (option sockaddr_dl)) :=
  match dump with
  | None => Ret (Some None)
  | Some buf => nametosdl_loop fuel buf 0 None name
  end.

(** ** MTU and flags *)

(** [addrs] is the answer of [getifaddrs], the name and the MTU of the
    [ifa_data] of each entry; [siocgifmtu] the answer of the ioctl. *)
Definition if_getmtu (addrs : option (list (bytes * option Z))) (siocgifmtu : option Z)
    (name : bytes) : Z :=
  match addrs with
  | None => 0
  | Some l =>
      let mtu := match list_find (λ e, e.1 = name) l with
                 | Some (_, (_, Some m)) => s32 m
                 | _ => 0
                 end in
      if mtu =? 0 then default 0 siocgifmtu else mtu
  end.

(** [siocgifflags] is the answer of the ioctl, [None] if it fails. *)
Definition if_getflags (siocgifflags : option Z) (oifflags : Z) : Z :=
  match siocgifflags with
  | Some flags => flags
  | None => Z.land oifflags (Z.lnot IFF_UP)
  end.

(** ** The interface list *)

(** What the daemon uses of an [if_msghdr]; the list is in insertion order. *)
Record if_msghdr := Ifm { ifm_index : Z; ifm_flags : Z }.
#[export] Instance eta_if_msghdr : Eta if_msghdr := λ i, Ifm (ifm_index i) (ifm_flags i).
Abbreviation ifilist := (list if_msghdr).

Fixpoint get_interface_entry (if_index : Z) (l : ifilist) : option if_msghdr :=
  match l with
  | [] => None
  | ifm :: l' => if if_index =? ifm_index ifm then Some ifm else get_interface_entry if_index l'
  end.

(** Assignment to [ifm_flags] of the entry [get_interface_entry] returns. *)
Fixpoint set_interface_flags (if_index flags : Z) (l : ifilist) : ifilist :=
  match l with
  | [] => []
  | ifm :: l' =>
      if if_index =? ifm_index ifm then ifm <| ifm_flags := flags |> :: l'
      else ifm :: set_interface_flags if_index flags l'
  end.

(** The inner loop: the position after the RTM_NEWADDR messages from [ifam]
    on; [None] for the early return on a zero length. *)
Fixpoint skip_ifams (fuel : nat) (buf : bytes) (ifam : nat) : outcome (option nat) :=
  match fuel with
  | O => Ret (Some ifam)
  | S fuel =>
      if (length buf <=? ifam)%nat then Ret (Some ifam) else
      len ← rtmsg_len buf ifam;
      if len =? 0 then Ret None else
      type ← rtmsg_type buf ifam;
      if negb (type =? RTM_NEWADDR) then Ret (Some ifam)
      else skip_ifams fuel buf (ifam + Z.to_nat len)
  end.

(** The outer loop from [p]. [None]: out of fuel. An interface that is
    already listed is skipped without advancing. *)
Fixpoint parse_iflist_loop (fuel : nat) (buf : bytes) (p : nat) (l : ifilist) :
    outcome (option ifilist) :=
  match fuel with
  | O => Ret None
  | S fuel =>
      if (length buf <=? p)%nat then Ret (Some l) else
      len ← rtmsg_len buf p;
      if len =? 0 then Ret (Some l) else
      type ← rtmsg_type buf p;
      if negb (type =? RTM_IFINFO) then Exit 1 else
      index ← get_ifm_ifindex buf p;
      match get_interface_entry index l with
      | Some _ => parse_iflist_loop fuel buf p l
      | None =>
          flags ← get_ifm_flags buf p;
          let l := l ++ [Ifm index flags] in
          next ← skip_ifams (S (length buf)) buf (p + Z.to_nat len);
          match next with
          | None => Ret (Some l)
          | Some next => parse_iflist_loop fuel buf next l
          end
      end
  end.

Definition parse_iflist (fuel : nat) (buf : bytes) (l : ifilist) : outcome (option ifilist) :=
  parse_iflist_loop fuel buf 0 l.

(** [purge_iflist] empties the list, [get_iflist] exits if the sysctl fails. *)
Definition purge_iflist (l : ifilist) : ifilist := [].
Definition get_iflist (dump : option bytes) : outcome bytes :=
  match dump with Some buf => Ret buf | None => Exit 1 end.
Definition init_iflist (fuel : nat) (dump : option bytes) (l : ifilist) : outcome (option ifilist) :=
  let l := purge_iflist l in
  buf ← get_iflist dump;
  parse_iflist fuel buf l.

(** ** The search for a message *)

(** The messages that follow each other from [p] to the first position not
    below [lim], by position and length. *)
Inductive messages (buf : bytes) (lim : nat) : nat → list (nat * Z) → nat → Prop :=
  | messages_end p : (lim <= p)%nat → messages buf lim p [] p
  | messages_cons p len ps fin :
      (p < lim)%nat → rtmsg_len buf p = Ret len → 0 < len →
      messages buf lim (p + Z.to_nat len) ps fin → messages buf lim p ((p, len) :: ps) fin.

(** Whether the message at [p] is one the caller asked for. *)
Definition selected (buf : bytes) (ifindex filter : Z) (p : nat) : outcome bool :=
  type ← rtmsg_type buf p;
  if FILTER_MATCH type filter then wanted_msg buf p ifindex type else Ret false.

Lemma next_msg_loop_spec buf lim ifindex filter p ps fin :
  messages buf lim p ps fin →
  (∀ q len, (q, len) ∈ ps → ∃ b, selected buf ifindex filter q = Ret b) →
  ∀ fuel, (lim - p < fuel)%nat →
  next_msg_loop buf fuel p lim ifindex filter =
    Ret match list_find (λ m, selected buf ifindex filter m.1 = Ret true) ps with
        | Some (_, m) => m
        | None => (fin, 0)
        end.
Proof.
  induction 1 as [p Hp|p len ps fin Hp Hl Hpos Hm IH]; intros Hsel fuel Hf;
    (destruct fuel as [|fuel]; [lia|]); cbn [next_msg_loop].
  - by rewrite (proj2 (Nat.leb_le _ _)).
  - rewrite (proj2 (Nat.leb_gt _ _)) by done. rewrite Hl. cbn [mbind outcome_bind].
    rewrite (proj2 (Z.eqb_neq _ _)) by lia.
    destruct (Hsel p len) as [b Hb]; [apply list_elem_of_here|].
    cbn [list_find fst]. unfold selected in Hb.
    destruct (rtmsg_type buf p) as [type| |] eqn:Et; try done. cbn [mbind outcome_bind] in *.
    rewrite Hb. cbn [mbind outcome_bind]. destruct b.
    + rewrite decide_True; [done|]. unfold selected. by rewrite Et.
    + rewrite decide_False by (unfold selected; rewrite Et; cbn [mbind outcome_bind]; by rewrite Hb).
      rewrite IH; [|intros q l' Hq; apply (Hsel q l'); by right|lia].
      by destruct (list_find _ ps) as [[]|].
Qed.

(** On a block of messages that can all be examined, [get_next_msg]
    returns the position and the length of the first one the filter and the
    address checks select, and length 0 if there is none. *)
Lemma get_next_msg_first buf p lim ifindex filter ps fin :
  messages buf lim p ps fin →
  (∀ q len, (q, len) ∈ ps → ∃ b, selected buf ifindex filter q = Ret b) →
  get_next_msg buf p lim ifindex filter =
    Ret match list_find (λ m, selected buf ifindex filter m.1 = Ret true) ps with
        | Some (_, m) => m
        | None => (fin, 0)
        end.
Proof. intros. by eapply next_msg_loop_spec; eauto with lia. Qed.

(** A routing change of four octets followed by an interface message. *)
Definition two_messages : bytes := [4; 0; 5; 3] ++ [16; 0; 5; 14; 0; 0; 0; 0; 1; 0; 0; 0; 7; 0; 0; 0].

Lemma get_next_msg_first_witness :
  get_next_msg two_messages 0 20 0 (RTADV_TYPE2BITMASK RTM_IFINFO) = Ret (4%nat, 16).
Proof.
  rewrite (get_next_msg_first two_messages 0 20 0 _ [(0%nat, 4); (4%nat, 16)] 20).
  - vm_compute. reflexivity.
  - apply messages_cons; [lia|reflexivity|lia|].
    apply messages_cons; [simpl; lia|reflexivity|lia|]. apply messages_end. simpl. lia.
  - intros q len H. apply elem_of_cons in H as [[= -> ->]|H].
    + exists false. reflexivity.
    + apply list_elem_of_singleton in H as [= -> ->]. exists true. reflexivity.
Defined.

(** ** The interface list of a well-formed block *)

(** A message of the given type, with its length in its header. *)
Definition msg_of_type (type : Z) (m : bytes) : Prop :=
  (16 <= length m)%nat ∧ rd16le m 0 = Some (Z.of_nat (length m)) ∧ m !! 3%nat = Some type.

(** An interface message followed by the messages of its addresses. *)
Abbreviation if_group := (bytes * list bytes)%type.
Definition group_ok (g : if_group) : Prop :=
  msg_of_type RTM_IFINFO g.1 ∧ Forall (msg_of_type RTM_NEWADDR) g.2.
Definition group_bytes (g : if_group) : bytes := g.1 ++ concat g.2.
Definition group_ifm (g : if_group) : if_msghdr :=
  Ifm (default 0 (rd16le g.1 12)) (default 0 (rd32le g.1 8)).

Lemma rd_some (buf : bytes) (off n : nat) :
  (off + n <= length buf)%nat → is_Some (read_at buf off n).
Proof. intros. unfold read_at. rewrite bool_decide_true by done. eauto. Qed.

Lemma rd16le_default m k : (k + 2 <= length m)%nat → rd16le m k = Some (default 0 (rd16le m k)).
Proof. intros H. destruct (rd_some m k 2 H) as [x E]. unfold rd16le. by rewrite E. Qed.
Lemma rd32le_default m k : (k + 4 <= length m)%nat → rd32le m k = Some (default 0 (rd32le m k)).
Proof. intros H. destruct (rd_some m k 4 H) as [x E]. unfold rd32le. by rewrite E. Qed.

(** The header fields of a message inside a block. *)
Lemma msg_header pre m post type :
  msg_of_type type m →
  rtmsg_len (pre ++ m ++ post) (length pre) = Ret (Z.of_nat (length m)) ∧
  rtmsg_type (pre ++ m ++ post) (length pre) = Ret type ∧
  get_ifm_ifindex (pre ++ m ++ post) (length pre) = Ret (default 0 (rd16le m 12)) ∧
  get_ifm_flags (pre ++ m ++ post) (length pre) = Ret (default 0 (rd32le m 8)).
Proof.
  intros (Hl & E0 & E3). unfold rtmsg_len, rtmsg_type, get_ifm_ifindex, get_ifm_flags.
  rewrite <- (Nat.add_0_r (length pre)) at 1.
  rewrite !rd16le_mid, rd8_mid, rd32le_mid, E0, E3 by lia.
  by rewrite rd16le_default, rd32le_default by lia.
Qed.

Lemma skip_ifams_spec fuel : ∀ pre ms post,
  Forall (msg_of_type RTM_NEWADDR) ms →
  (post = [] ∨ ∃ m post', post = m ++ post' ∧ msg_of_type RTM_IFINFO m) →
  (length ms < fuel)%nat →
  skip_ifams fuel (pre ++ concat ms ++ post) (length pre)
  = Ret (Some (length pre + length (concat ms))%nat).
Proof.
  induction fuel as [|fuel IH]; intros pre ms post Hms Hpost Hf; [lia|].
  cbn [skip_ifams]. destruct ms as [|m ms]; simpl concat.
  - rewrite Nat.add_0_r. destruct Hpost as [->|(m & post' & -> & Hm)].
    + rewrite !app_nil_r. by rewrite (proj2 (Nat.leb_le _ _)).
    + destruct (msg_header pre m post' _ Hm) as (E1 & E2 & _). destruct Hm as (Hl & _).
      rewrite (proj2 (Nat.leb_gt _ _)) by (rewrite !length_app; lia).
      simpl app. rewrite E1. cbn [mbind outcome_bind].
      rewrite (proj2 (Z.eqb_neq _ _)) by lia. by rewrite E2.
  - apply Forall_cons in Hms as [Hm Hms]. rewrite <- app_assoc.
    destruct (msg_header pre m (concat ms ++ post) _ Hm) as (E1 & E2 & _).
    destruct Hm as (Hl & _).
    rewrite (proj2 (Nat.leb_gt _ _)) by (rewrite !length_app; lia).
    rewrite E1. cbn [mbind outcome_bind]. rewrite (proj2 (Z.eqb_neq _ _)) by lia.
    rewrite E2. cbn [mbind outcome_bind]. rewrite Nat2Z.id, <- length_app. simpl negb. cbv iota.
    rewrite app_assoc, IH; [|done|done|simpl in Hf; lia]. rewrite !length_app. do 2 f_equal. lia.
Qed.

Lemma get_interface_entry_none i l :
  get_interface_entry i l = None ↔ i ∉ ifm_index <$> l.
Proof.
  induction l as [|x l IH]; simpl.
  { split; [|done]. intros _ H. by apply elem_of_nil in H. }
  rewrite not_elem_of_cons, <- IH. destruct (Z.eqb_spec i (ifm_index x)); split; [done|by intros []|done|by intros []].
Qed.

Abbreviation dump_bytes gs := (concat (group_bytes <$> (gs : list if_group))).

Lemma dump_cons g gs : dump_bytes (g :: gs) = g.1 ++ concat g.2 ++ dump_bytes gs.
Proof. cbn [fmap list_fmap concat]. unfold group_bytes at 1. by rewrite <- app_assoc. Qed.

(** One group whose interface is listed already: the loop does not move. *)
Lemma parse_stuck pre g gs l fuel :
  group_ok g → ifm_index (group_ifm g) ∈ ifm_index <$> l →
  parse_iflist_loop fuel (pre ++ dump_bytes (g :: gs)) (length pre) l = Ret None.
Proof.
  intros [Hm _] Hin. rewrite dump_cons.
  destruct (msg_header pre g.1 (concat g.2 ++ dump_bytes gs) _ Hm) as (E1 & E2 & E3 & _).
  destruct Hm as (Hl & _). induction fuel as [|fuel IH]; [done|]. cbn [parse_iflist_loop].
  rewrite (proj2 (Nat.leb_gt _ _)) by (rewrite !length_app; lia).
  rewrite E1. cbn [mbind outcome_bind]. rewrite (proj2 (Z.eqb_neq _ _)) by lia.
  rewrite E2. cbn [mbind outcome_bind]. simpl negb. cbv iota. rewrite E3. cbn [mbind outcome_bind].
  destruct (get_interface_entry _ l) eqn:E; [done|].
  by apply get_interface_entry_none in E.
Qed.

(** One group whose interface is new: it is appended. *)
Lemma parse_new pre g gs l fuel :
  Forall group_ok (g :: gs) → ifm_index (group_ifm g) ∉ ifm_index <$> l →
  parse_iflist_loop (S fuel) (pre ++ dump_bytes (g :: gs)) (length pre) l
  = parse_iflist_loop fuel ((pre ++ group_bytes g) ++ dump_bytes gs)
      (length (pre ++ group_bytes g)) (l ++ [group_ifm g]).
Proof.
  intros Hok Hin. apply Forall_cons in Hok as [[Hm Has] Hok]. rewrite dump_cons.
  cbn [parse_iflist_loop].
  destruct (msg_header pre g.1 (concat g.2 ++ dump_bytes gs) _ Hm) as (E1 & E2 & E3 & E4).
  assert (Hl := proj1 Hm). rewrite (proj2 (Nat.leb_gt _ _)) by (rewrite !length_app; lia).
  rewrite E1. cbn [mbind outcome_bind]. rewrite (proj2 (Z.eqb_neq _ _)) by lia.
  rewrite E2. cbn [mbind outcome_bind]. simpl negb. cbv iota. rewrite E3. cbn [mbind outcome_bind].
  rewrite (proj2 (get_interface_entry_none _ l)) by exact Hin.
  rewrite E4. cbn [mbind outcome_bind]. rewrite Nat2Z.id, <- length_app.
  replace (pre ++ g.1 ++ concat g.2 ++ dump_bytes gs)
    with ((pre ++ g.1) ++ concat g.2 ++ dump_bytes gs) by (by rewrite <- app_assoc).
  rewrite skip_ifams_spec; [|done| |].
  - cbn [mbind outcome_bind]. rewrite <- length_app, <- !app_assoc.
    change (group_bytes g) with (g.1 ++ concat g.2). by rewrite <- app_assoc.
  - destruct gs as [|g' gs]; [by left|right]. apply Forall_cons in Hok as [[Hm' _] _].
    exists g'.1, (concat g'.2 ++ dump_bytes gs). split; [|done]. apply dump_cons.
  - rewrite !length_app. assert (length g.2 <= length (concat g.2))%nat; [|lia].
    clear -Has. induction Has as [|m ms (? & _) _ IH]; simpl; [lia|]. rewrite length_app. lia.
Qed.

Lemma parse_loop_spec gs : ∀ pre l,
  Forall group_ok gs → NoDup (ifm_index <$> l) →
  (NoDup (ifm_index <$> l ++ (group_ifm <$> gs)) → ∀ fuel, (length gs < fuel)%nat →
     parse_iflist_loop fuel (pre ++ dump_bytes gs) (length pre) l
     = Ret (Some (l ++ (group_ifm <$> gs)))) ∧
  (¬ NoDup (ifm_index <$> l ++ (group_ifm <$> gs)) → ∀ fuel,
     parse_iflist_loop fuel (pre ++ dump_bytes gs) (length pre) l = Ret None).
Proof.
  induction gs as [|g gs IH]; intros pre l Hok Hl.
  { simpl. rewrite !app_nil_r. split; [|done]. intros _ [|fuel]; [lia|]. simpl.
    by rewrite (proj2 (Nat.leb_le _ _)). }
  destruct (decide (ifm_index (group_ifm g) ∈ ifm_index <$> l)) as [Hin|Hin].
  - split; intros Hnd fuel; [|by apply parse_stuck; [apply Forall_cons in Hok as []|]].
    exfalso. rewrite fmap_app in Hnd. apply NoDup_app in Hnd as (_ & Hd & _).
    apply (Hd _ Hin). apply list_elem_of_here.
  - assert (Hl' : NoDup (ifm_index <$> l ++ [group_ifm g])).
    { rewrite fmap_app. apply NoDup_app. split_and!; [done| |apply NoDup_singleton].
      intros i Hi Hg. apply list_elem_of_singleton in Hg as ->. done. }
    destruct (IH (pre ++ group_bytes g) (l ++ [group_ifm g])) as [IH1 IH2];
      [by apply Forall_cons in Hok as []|done|]. rewrite <- !app_assoc in IH1, IH2.
    split; intros Hnd [|fuel]; try done; try lia; rewrite parse_new by done.
    + intros Hf. rewrite <- app_assoc. apply IH1; [done|]. simpl in Hf. lia.
    + rewrite <- app_assoc. by apply IH2.
Qed.

(** On a well-formed answer of the kernel (interface messages, each
    followed by its address messages) [parse_iflist] lists the interfaces in
    order with their indices and flags if no index is repeated, and never
    returns if one is. *)
Lemma parse_iflist_correct gs :
  Forall group_ok gs →
  let buf := dump_bytes gs in
  (NoDup (ifm_index <$> (group_ifm <$> gs)) → ∀ fuel, (length gs < fuel)%nat →
     parse_iflist fuel buf [] = Ret (Some (group_ifm <$> gs))) ∧
  (¬ NoDup (ifm_index <$> (group_ifm <$> gs)) → ∀ fuel, parse_iflist fuel buf [] = Ret None).
Proof. intros Hok. by apply (parse_loop_spec gs [] []); [|constructor]. Qed.

Definition if_msg (index : Z) : bytes := [16; 0; 5; 14; 0; 0; 0; 0; 1; 0; 0; 0; index; 0; 0; 0].
Definition addr_msg : bytes := [16; 0; 5; 12; 0; 0; 0; 0; 0; 0; 0; 0; 4; 0; 0; 0].

Lemma parse_iflist_correct_witness :
  parse_iflist 3 (dump_bytes [(if_msg 4, [addr_msg]); (if_msg 5, [])]) [] = Ret (Some [Ifm 4 1; Ifm 5 1])
  ∧ ∀ fuel, parse_iflist fuel (dump_bytes [(if_msg 4, [addr_msg]); (if_msg 4, [])]) [] = Ret None.
Proof.
  split.
  - apply (parse_iflist_correct [(if_msg 4, [addr_msg]); (if_msg 5, [])]).
    + repeat constructor; simpl; lia.
    + vm_compute. repeat constructor; intros H; inversion H; subst; by inversion H2.
    + simpl. lia.
  - apply (parse_iflist_correct [(if_msg 4, [addr_msg]); (if_msg 4, [])]).
    + repeat constructor; simpl; lia.
    + vm_compute. intros H. inversion H as [|? ? Hn]; subst. apply Hn. constructor.
Defined.
