(* ===== verification/Rainfo.v ===== *)
(** * Rainfo: the state of an advertising interface and its packet

    The records of rtadvd.tproj/rtadvd.h and the construction of the Router
    Advertisement: [make_packet] and [encode_domain] of config.c,
    [lladdropt_length] and [lladdropt_fill] of if.c. Pointers to [struct
    prefix], [struct rainfo] and [struct rtadvd_timer] are numbers. *)

From S2P Require Import Prelude Timeval In6 NdOpt.

(** [struct prefix]: [pfx_id] is its address, [pfx_rainfo] the back pointer,
    [pfx_timer] the expiration timer. *)
Record prefix := Pfx {
  pfx_id : nat;
  pfx_rainfo : nat;
  pfx_timer : option nat;
  pfx_validlifetime : Z;
  pfx_vltimeexpire : Z;
  pfx_preflifetime : Z;
  pfx_pltimeexpire : Z;
  pfx_onlinkflg : Z;
  pfx_autoconfflg : Z;
  pfx_prefixlen : Z;
  pfx_origin : Z;
  pfx_prefix : in6_addr }.
#[export] Instance eta_prefix : Eta prefix := λ p,
  Pfx (pfx_id p) (pfx_rainfo p) (pfx_timer p) (pfx_validlifetime p) (pfx_vltimeexpire p)
    (pfx_preflifetime p) (pfx_pltimeexpire p) (pfx_onlinkflg p) (pfx_autoconfflg p)
    (pfx_prefixlen p) (pfx_origin p) (pfx_prefix p).
#[export] Instance prefix_eq_dec : EqDecision prefix.
Proof. solve_decision. Defined.

Definition PREFIX_FROM_KERNEL : Z := 1.
Definition PREFIX_FROM_CONFIG : Z := 2.
Definition PREFIX_FROM_DYNAMIC : Z := 3.

(** [struct rtinfo] *)
Record rtinfo := Rti {
  rti_ltime : Z;
  rti_rtpref : Z;
  rti_prefixlen : Z;
  rti_prefix : in6_addr }.
#[export] Instance eta_rtinfo : Eta rtinfo := λ r,
  Rti (rti_ltime r) (rti_rtpref r) (rti_prefixlen r) (rti_prefix r).
#[export] Instance rtinfo_eq_dec : EqDecision rtinfo.
Proof. solve_decision. Defined.

(** [struct rainfo]: the linked lists are lists, front first. *)
Record rainfo := Rai {
  rai_id : nat;
  rai_timer : option nat;
  rai_initcounter : Z;
  rai_lastsent : timeval;
  rai_waiting : Z;
  rai_ifindex : Z;
  rai_advlinkopt : Z;
  rai_sdl : option sockaddr_dl;
  rai_ifname : bytes;
  rai_phymtu : Z;
  rai_lifetime : Z;
  rai_maxinterval : Z;
  rai_mininterval : Z;
  rai_managedflg : Z;
  rai_otherflg : Z;
  rai_rtpref : Z;
  rai_linkmtu : Z;
  rai_reachabletime : Z;
  rai_retranstimer : Z;
  rai_hoplimit : Z;
  rai_prefix : list prefix;
  rai_pfxs : Z;
  rai_clockskew : Z;
  rai_route : list rtinfo;
  rai_routes : Z;
  rai_rdnss_list : list in6_addr;
  rai_rdnss_length : Z;
  rai_rdnss_lifetime : Z;
  rai_dnssl_list : list bytes;
  rai_dnssl_length : Z;
  rai_dnssl_lifetime : Z;
  rai_dnssl_option_length : Z;
  rai_capport : option bytes;
  rai_capport_length : Z;
  rai_capport_option_length : Z;
  rai_pref64_specified : bool;
  rai_pref64_prefix_length : Z;
  rai_pref64_lifetime_plc : Z;
  rai_pref64_addr : in6_addr;
  rai_ra_datalen : Z;
  rai_ra_data : option bytes;
  rai_raoutput : Z;
  rai_rainput : Z;
  rai_rainconsistent : Z;
  rai_rsinput : Z;
  rai_soliciter : list in6_addr }.
#[export] Instance eta_rainfo : Eta rainfo := λ r,
  Rai (rai_id r) (rai_timer r) (rai_initcounter r) (rai_lastsent r) (rai_waiting r)
    (rai_ifindex r) (rai_advlinkopt r) (rai_sdl r) (rai_ifname r) (rai_phymtu r)
    (rai_lifetime r) (rai_maxinterval r) (rai_mininterval r) (rai_managedflg r)
    (rai_otherflg r) (rai_rtpref r) (rai_linkmtu r) (rai_reachabletime r)
    (rai_retranstimer r) (rai_hoplimit r) (rai_prefix r) (rai_pfxs r) (rai_clockskew r)
    (rai_route r) (rai_routes r) (rai_rdnss_list r) (rai_rdnss_length r)
    (rai_rdnss_lifetime r) (rai_dnssl_list r) (rai_dnssl_length r) (rai_dnssl_lifetime r)
    (rai_dnssl_option_length r) (rai_capport r) (rai_capport_length r)
    (rai_capport_option_length r) (rai_pref64_specified r) (rai_pref64_prefix_length r)
    (rai_pref64_lifetime_plc r) (rai_pref64_addr r) (rai_ra_datalen r) (rai_ra_data r)
    (rai_raoutput r) (rai_rainput r) (rai_rainconsistent r) (rai_rsinput r)
    (rai_soliciter r).

(** What [ELM_MALLOC] leaves in a fresh [struct rainfo]. *)
Definition zero_rainfo (id : nat) : rainfo :=
  Rai id None 0 (TV 0 0) 0 0 0 None [] 0 0 0 0 0 0 0 0 0 0 0 [] 0 0 [] 0 [] 0 0 [] 0 0 0
    None 0 0 false 0 0 in6addr_any 0 None 0 0 0 0 [].

(** ** Link-layer address option *)

Definition lladdropt_length (sdl : sockaddr_dl) : Z :=
  if sdl_type sdl =? IFT_ETHER then ROUNDUP8 (ETHER_ADDR_LEN + 2) else 0.

Definition lladdropt_fill (sdl : sockaddr_dl) : outcome bytes :=
  if sdl_type sdl =? IFT_ETHER then
    addr ← of_opt (read_at (LLADDR sdl) 0 (Z.to_nat ETHER_ADDR_LEN));
    Ret ([ND_OPT_SOURCE_LINKADDR; Z.shiftr (ROUNDUP8 (ETHER_ADDR_LEN + 2)) 3] ++ addr)
  else Exit 1.

(** ** Domain names *)

Definition DOT : Z := 46.

(** The labels [strsep(&input, ".")] returns one after the other. *)
Fixpoint strsep_dots (d : bytes) : list bytes :=
  match d with
  | [] => [[]]
  | c :: d' =>
      if c =? DOT then [] :: strsep_dots d'
      else match strsep_dots d' with
           | l :: ls => (c :: l) :: ls
           | [] => [[c]]
           end
  end.

Definition encode_label (label : bytes) : bytes :=
  let label_len := Z.land (Z.of_nat (length label)) 0x3f in
  if 0 <? label_len then label_len :: take (Z.to_nat label_len) label else [].

Definition encode_domain (domain : bytes) : bytes :=
  concat (encode_label <$> strsep_dots domain) ++ [0].

(** ** The packet *)

Definition ND_ROUTER_SOLICIT : Z := 133.
Definition ND_ROUTER_ADVERT : Z := 134.
Definition ND_RA_FLAG_MANAGED : Z := 0x80.
Definition ND_RA_FLAG_OTHER : Z := 0x40.
Definition ND_RA_FLAG_RTPREF_MASK : Z := 0x18.
Definition ND_RA_FLAG_RTPREF_HIGH : Z := 0x08.
Definition ND_RA_FLAG_RTPREF_LOW : Z := 0x18.
Definition ND_RA_FLAG_RTPREF_RSV : Z := 0x10.
Definition ND_OPT_PI_FLAG_ONLINK : Z := 0x80.
Definition ND_OPT_PI_FLAG_AUTO : Z := 0x40.
Definition sizeof_nd_router_advert : Z := 16.
Definition sizeof_nd_opt_route_info : Z := 8.
Definition sizeof_nd_opt_pref64 : Z := 16.

(** Number of 8-octet units of a route prefix. *)
Definition rti_psize (r : rtinfo) : Z := Z.shiftr (rti_prefixlen r + 0x3f) 6.

(** The total length computed before the packet is allocated. *)
Definition packet_length (r : rainfo) (lladdroptlen : Z) : Z :=
  sizeof_nd_router_advert + lladdroptlen
  + (if truthy (rai_pfxs r) then sizeof_nd_opt_prefix_info * rai_pfxs r else 0)
  + (if truthy (rai_linkmtu r) then sizeof_nd_opt_mtu else 0)
  + foldr (λ rti acc, sizeof_nd_opt_route_info + rti_psize rti * 8 + acc) 0 (rai_route r)
  + (if 0 <? rai_rdnss_length r then 8 + 16 * rai_rdnss_length r else 0)
  + (if 0 <? rai_dnssl_length r then rai_dnssl_option_length r else 0)
  + rai_capport_option_length r
  + (if rai_pref64_specified r then sizeof_nd_opt_pref64 else 0).

(** Storing octets at an offset of the allocated packet. *)
Definition store (buf : bytes) (off : nat) (w : bytes) : outcome bytes :=
  if bool_decide (off + length w <= length buf)%nat
  then Ret (take off buf ++ w ++ drop (off + length w) buf) else Crash.

(** The packet and the position the code writes at. *)
Abbreviation cursor := (bytes * nat)%type.
Definition emit (w : bytes) (c : cursor) : outcome cursor :=
  buf ← store c.1 c.2 w; Ret (buf, (c.2 + length w)%nat).

Definition ra_header (r : rainfo) : bytes :=
  [ND_ROUTER_ADVERT; 0; 0; 0; u8 (Z.land 0xff (rai_hoplimit r));
   u8 (Z.lor (Z.lor (Z.land 0xff (rai_rtpref r))
                    (if truthy (rai_managedflg r) then ND_RA_FLAG_MANAGED else 0))
             (if truthy (rai_otherflg r) then ND_RA_FLAG_OTHER else 0))]
  ++ be16 (rai_lifetime r) ++ be32 (rai_reachabletime r) ++ be32 (rai_retranstimer r).

Definition mtu_option (r : rainfo) : bytes := [ND_OPT_MTU; 1; 0; 0] ++ be32 (rai_linkmtu r).

(** The lifetimes put in the packet; [now] is read only if one of them is
    decremented in real time. *)
Definition lifetime_left (expire lifetime now : Z) : Z :=
  if expire =? 0 then lifetime else if now <? expire then u32 (expire - now) else 0.
Definition pi_lifetimes (p : prefix) (now : timeval) : Z * Z :=
  let vltime := if pfx_timer p is Some _ then 0
                else lifetime_left (pfx_vltimeexpire p) (pfx_validlifetime p) (tv_sec now) in
  let pltime := if pfx_timer p is Some _ then 0
                else lifetime_left (pfx_pltimeexpire p) (pfx_preflifetime p) (tv_sec now) in
  (vltime, if vltime <? pltime then vltime else pltime).
Definition reads_clock (p : prefix) : bool :=
  match pfx_timer p with
  | Some _ => false
  | None => truthy (pfx_vltimeexpire p) || truthy (pfx_pltimeexpire p)
  end.

Definition pi_flags (p : prefix) : Z :=
  Z.lor (if truthy (pfx_onlinkflg p) then ND_OPT_PI_FLAG_ONLINK else 0)
        (if truthy (pfx_autoconfflg p) then ND_OPT_PI_FLAG_AUTO else 0).
Definition pi_option (p : prefix) (now : timeval) : bytes :=
  let '(vltime, pltime) := pi_lifetimes p now in
  [ND_OPT_PREFIX_INFORMATION; 4; u8 (pfx_prefixlen p); pi_flags p]
  ++ be32 vltime ++ be32 pltime ++ be32 0 ++ pfx_prefix p.

Definition rti_option (r : rtinfo) : outcome bytes :=
  let psize := u8 (rti_psize r) in
  pfx ← of_opt (read_at (rti_prefix r) 0 (Z.to_nat (psize * 8)));
  Ret ([ND_OPT_ROUTE_INFO; u8 (1 + psize); u8 (rti_prefixlen r); Z.land 0xff (rti_rtpref r)]
       ++ be32 (rti_ltime r) ++ pfx).

Definition rdnss_header (r : rainfo) : bytes :=
  [ND_OPT_RDNSS; u8 (1 + rai_rdnss_length r * 2); 0; 0] ++ be32 (rai_rdnss_lifetime r).

Definition dnssl_header (r : rainfo) : bytes :=
  [ND_OPT_DNSSL; u8 (Z.shiftr (rai_dnssl_option_length r) 3); 0; 0] ++ be32 (rai_dnssl_lifetime r).

(** The search list option: zeroed, then filled; the position moves by the
    length of the option whatever was written. *)
Definition emit_dnssl (r : rainfo) (c : cursor) : outcome cursor :=
  let len := Z.to_nat (rai_dnssl_option_length r) in
  buf ← store c.1 c.2 (replicate len 0);
  c1 ← emit (dnssl_header r) (buf, c.2);
  c2 ← foldl (λ acc d, acc ≫= emit (encode_domain d)) (Ret c1) (rai_dnssl_list r);
  Ret (c2.1, (c.2 + len)%nat).

Definition emit_capport (r : rainfo) (capport : bytes) (c : cursor) : outcome cursor :=
  c1 ← emit [ND_OPT_CAPTIVE_PORTAL; u8 (Z.shiftr (rai_capport_option_length r) 3)] c;
  text ← of_opt (read_at capport 0 (Z.to_nat (rai_capport_length r)));
  c2 ← emit text c1;
  let zero_space := u32 (rai_capport_option_length r - 2 - rai_capport_length r) in
  emit (replicate (Z.to_nat zero_space) 0) c2.

Definition emit_pref64 (r : rainfo) (c : cursor) : outcome cursor :=
  let prefix_length_bytes := u8 (rai_pref64_prefix_length r / 8) in
  let zero_bytes := u8 (12 - prefix_length_bytes) in
  c1 ← emit ([ND_OPT_PREF64; Z.shiftr sizeof_nd_opt_pref64 3] ++ be16 (rai_pref64_lifetime_plc r)) c;
  pfx ← of_opt (read_at (rai_pref64_addr r) 0 (Z.to_nat prefix_length_bytes));
  c2 ← emit pfx c1;
  c3 ← emit (replicate (Z.to_nat zero_bytes) 0) c2;
  Ret (c3.1, (c.2 + Z.to_nat sizeof_nd_opt_pref64)%nat).

Section packet.
(** The successive readings of the clock, and the contents of fresh memory. *)
Context (clock : nat → timeval) (junk : nat → Z).

Fixpoint emit_prefixes (ps : list prefix) (tick : nat) (c : cursor) : outcome (cursor * nat) :=
  match ps with
  | [] => Ret (c, tick)
  | p :: ps =>
      c' ← emit (pi_option p (clock tick)) c;
      emit_prefixes ps (if reads_clock p then S tick else tick) c'
  end.

(** The construction of the packet, from the header to the last option. *)
Definition fill_packet (r : rainfo) (tick : nat) (c : cursor) : outcome (cursor * nat) :=
  c ← emit (ra_header r) c;
  c ← (if truthy (rai_advlinkopt r)
       then sdl ← of_opt (rai_sdl r); w ← lladdropt_fill sdl; emit w c else Ret c);
  c ← (if truthy (rai_linkmtu r) then emit (mtu_option r) c else Ret c);
  '(c, tick) ← emit_prefixes (rai_prefix r) tick c;
  c ← foldl (λ acc rti, c ← acc; w ← rti_option rti; emit w c) (Ret c) (rai_route r);
  c ← (if 0 <? rai_rdnss_length r
       then c ← emit (rdnss_header r) c;
            foldl (λ acc a, acc ≫= emit a) (Ret c) (rai_rdnss_list r) else Ret c);
  c ← (if 0 <? rai_dnssl_length r then emit_dnssl r c else Ret c);
  c ← match rai_capport r with Some url => emit_capport r url c | None => Ret c end;
  c ← (if rai_pref64_specified r then emit_pref64 r c else Ret c);
  Ret (c, tick).

Definition make_packet (rainfo : rainfo) (tick : nat) : outcome (Rainfo.rainfo * nat) :=
  lladdroptlen ← (if truthy (rai_advlinkopt rainfo)
                  then sdl ← of_opt (rai_sdl rainfo); Ret (lladdropt_length sdl) else Ret 0);
  let r := if truthy (rai_advlinkopt rainfo) && (lladdroptlen =? 0)
           then rainfo <| rai_advlinkopt := 0 |> else rainfo in
  let packlen := packet_length r lladdroptlen in
  '(c, tick) ← fill_packet r tick (junk <$> seq 0 (Z.to_nat packlen), O);
  if packlen =? Z.of_nat c.2
  then Ret (r <| rai_ra_data := Some c.1 |> <| rai_ra_datalen := packlen |>, tick)
  else Exit 1.

End packet.

(** ** Well-formed interfaces *)

Definition u32_ok (x : Z) : Prop := 0 <= x < 2 ^ 32.

(** A prefix as the configuration and the kernel give it. *)
Record pfx_wf (p : prefix) : Prop := {
  pfx_wf_addr : addr_ok (pfx_prefix p);
  pfx_wf_len : 0 <= pfx_prefixlen p <= 128;
  pfx_wf_vl : u32_ok (pfx_validlifetime p);
  pfx_wf_pl : u32_ok (pfx_preflifetime p) }.

Record rti_wf (r : rtinfo) : Prop := {
  rti_wf_addr : addr_ok (rti_prefix r);
  rti_wf_len : 0 <= rti_prefixlen r <= 128 }.

(** Octets the domain names of the search list take. *)
Definition domains_bytes (ds : list bytes) : bytes := concat (encode_domain <$> ds).

(** The invariant of the packet-building fields of a [struct rainfo]. *)
Record rai_wf (r : rainfo) : Prop := {
  rai_wf_sdl : rai_advlinkopt r ≠ 0 → ∃ sdl, rai_sdl r = Some sdl ∧
    (sdl_type sdl = IFT_ETHER → (6 <= length (LLADDR sdl))%nat ∧ bytes_ok (LLADDR sdl));
  rai_wf_pfxs : rai_pfxs r = Z.of_nat (length (rai_prefix r));
  rai_wf_prefix : Forall pfx_wf (rai_prefix r);
  rai_wf_route : Forall rti_wf (rai_route r);
  rai_wf_rdnss_len : 0 < rai_rdnss_length r →
    rai_rdnss_length r = Z.of_nat (length (rai_rdnss_list r)) ∧ rai_rdnss_length r <= 127;
  rai_wf_rdnss : Forall addr_ok (rai_rdnss_list r);
  rai_wf_dnssl_len : 0 < rai_dnssl_length r →
    rai_dnssl_option_length r mod 8 = 0 ∧
    8 + Z.of_nat (length (domains_bytes (rai_dnssl_list r))) <= rai_dnssl_option_length r <= 2040;
  rai_wf_dnssl : Forall bytes_ok (rai_dnssl_list r);
  rai_wf_capport : match rai_capport r with
    | None => rai_capport_option_length r = 0
    | Some url => bytes_ok url ∧ rai_capport_length r = Z.of_nat (length url) ∧
        rai_capport_option_length r mod 8 = 0 ∧
        2 + rai_capport_length r <= rai_capport_option_length r <= 2040
    end;
  rai_wf_pref64 : rai_pref64_specified r = true →
    addr_ok (rai_pref64_addr r) ∧ 0 <= rai_pref64_prefix_length r <= 96 }.

(** ** What the packet should contain *)

Definition lladdr_opts (r : rainfo) : list nd_opt :=
  if truthy (rai_advlinkopt r) then
    match rai_sdl r with
    | Some sdl => if sdl_type sdl =? IFT_ETHER
                  then [(ND_OPT_SOURCE_LINKADDR, take 6 (LLADDR sdl))] else []
    | None => []
    end
  else [].

Definition pi_opt (p : prefix) (now : timeval) : nd_opt :=
  let '(vltime, pltime) := pi_lifetimes p now in
  (ND_OPT_PREFIX_INFORMATION,
   [pfx_prefixlen p; pi_flags p] ++ be32 vltime ++ be32 pltime ++ be32 0 ++ pfx_prefix p).

Fixpoint pi_opts (clock : nat → timeval) (ps : list prefix) (tick : nat) : list nd_opt :=
  match ps with
  | [] => []
  | p :: ps => pi_opt p (clock tick) :: pi_opts clock ps (if reads_clock p then S tick else tick)
  end.
Definition pi_ticks (ps : list prefix) : nat := length (filter (λ p, reads_clock p = true) ps).

Definition rti_opt (r : rtinfo) : nd_opt :=
  (ND_OPT_ROUTE_INFO,
   [rti_prefixlen r; Z.land 0xff (rti_rtpref r)] ++ be32 (rti_ltime r)
   ++ take (8 * Z.to_nat (rti_psize r)) (rti_prefix r)).

Definition rdnss_opt (r : rainfo) : nd_opt :=
  (ND_OPT_RDNSS, [0; 0] ++ be32 (rai_rdnss_lifetime r) ++ concat (rai_rdnss_list r)).

Definition dnssl_opt (r : rainfo) : nd_opt :=
  let ds := domains_bytes (rai_dnssl_list r) in
  (ND_OPT_DNSSL, [0; 0] ++ be32 (rai_dnssl_lifetime r) ++ ds
     ++ replicate (Z.to_nat (rai_dnssl_option_length r) - 8 - length ds) 0).

Definition capport_opt (r : rainfo) (url : bytes) : nd_opt :=
  (ND_OPT_CAPTIVE_PORTAL,
   url ++ replicate (Z.to_nat (rai_capport_option_length r) - 2 - length url) 0).

Definition pref64_opt (r : rainfo) : nd_opt :=
  let n := Z.to_nat (rai_pref64_prefix_length r / 8) in
  (ND_OPT_PREF64, be16 (rai_pref64_lifetime_plc r) ++ take n (rai_pref64_addr r)
                  ++ replicate (12 - n) 0).

Definition ra_options (clock : nat → timeval) (r : rainfo) (tick : nat) : list nd_opt :=
  lladdr_opts r
  ++ (if truthy (rai_linkmtu r) then [(ND_OPT_MTU, [0; 0] ++ be32 (rai_linkmtu r))] else [])
  ++ pi_opts clock (rai_prefix r) tick
  ++ (rti_opt <$> rai_route r)
  ++ (if 0 <? rai_rdnss_length r then [rdnss_opt r] else [])
  ++ (if 0 <? rai_dnssl_length r then [dnssl_opt r] else [])
  ++ match rai_capport r with Some url => [capport_opt r url] | None => [] end
  ++ (if rai_pref64_specified r then [pref64_opt r] else []).

(** ** Domain names *)

Lemma strsep_dots_length d :
  (length (concat (strsep_dots d)) + length (strsep_dots d) = S (length d))%nat.
Proof.
  induction d as [|c d IH]; [done|]. simpl. destruct (c =? DOT); simpl; [lia|].
  destruct (strsep_dots d) as [|l ls]; simpl in *; [done|lia].
Qed.

Lemma strsep_dots_ok d : bytes_ok d → Forall bytes_ok (strsep_dots d).
Proof.
  induction 1 as [|c d Hc Hd IH]; simpl; [auto with netcmds|].
  destruct (c =? DOT); [auto with netcmds|].
  destruct (strsep_dots d); [auto with netcmds|].
  apply Forall_cons in IH as [? ?]. auto with netcmds.
Qed.

Lemma label_len_bound (l : bytes) : 0 <= Z.land (Z.of_nat (length l)) 0x3f < 64.
Proof. change 0x3f with (Z.ones 6). rewrite Z.land_ones by lia. zlia. Qed.

Lemma encode_label_length l : (length (encode_label l) <= S (length l))%nat.
Proof.
  unfold encode_label. destruct (0 <? _); simpl; [|lia]. rewrite length_take. lia.
Qed.

Lemma encode_label_ok l : bytes_ok l → bytes_ok (encode_label l).
Proof.
  intros H. unfold encode_label. destruct (0 <? _); [|constructor].
  constructor; [|by apply Forall_take].
  pose proof (label_len_bound l). unfold byte_ok. lia.
Qed.

Lemma encode_domain_ok d : bytes_ok d → bytes_ok (encode_domain d).
Proof.
  intros H. unfold encode_domain. apply Forall_app. split; [|by apply Forall_singleton].
  apply bytes_ok_concat, Forall_fmap. eapply Forall_impl; [by apply strsep_dots_ok|].
  apply encode_label_ok.
Qed.

(** Two octets more than the name are always enough, as [getconfig] counts. *)
Lemma encode_domain_length d : (length (encode_domain d) <= length d + 2)%nat.
Proof.
  unfold encode_domain. rewrite length_app. simpl.
  assert (H : ∀ ls, (length (concat (encode_label <$> ls)) <= length (concat ls) + length ls)%nat).
  { induction ls as [|l ls IH]; csimpl; [simpl; lia|]. rewrite !length_app.
    pose proof (encode_label_length l). lia. }
  specialize (H (strsep_dots d)). pose proof (strsep_dots_length d). lia.
Qed.

Lemma domains_bytes_ok ds : Forall bytes_ok ds → bytes_ok (domains_bytes ds).
Proof.
  intros H. apply bytes_ok_concat, Forall_fmap. eapply Forall_impl; [done|]. apply encode_domain_ok.
Qed.

(** ** Writing the packet *)

(** [m] appends [w] to what is written, if there is room for it. *)
Definition writes (m : cursor → outcome cursor) (w : bytes) : Prop :=
  ∀ pre rest, (length w <= length rest)%nat → ∃ rest',
    m (pre ++ rest, length pre) = Ret ((pre ++ w) ++ rest', length (pre ++ w)) ∧
    length rest = (length w + length rest')%nat.

Lemma store_app pre rest w :
  (length w <= length rest)%nat →
  store (pre ++ rest) (length pre) w = Ret (pre ++ w ++ drop (length w) rest).
Proof.
  intros H. unfold store. rewrite bool_decide_true by (rewrite length_app; lia).
  rewrite take_app_length. f_equal. f_equal. f_equal.
  by rewrite <- drop_drop, drop_app_length.
Qed.

Lemma emit_app w pre rest :
  (length w <= length rest)%nat →
  emit w (pre ++ rest, length pre) = Ret ((pre ++ w) ++ drop (length w) rest, length (pre ++ w)).
Proof.
  intros H. unfold emit. cbn [fst snd]. rewrite store_app by done. cbn [mbind outcome_bind].
  by rewrite app_assoc, length_app.
Qed.

Lemma writes_emit w : writes (emit w) w.
Proof.
  intros pre rest H. exists (drop (length w) rest). rewrite emit_app by done.
  split; [done|]. rewrite length_drop. lia.
Qed.

Lemma writes_nil : writes Ret [].
Proof. intros pre rest H. exists rest. by rewrite app_nil_r. Qed.

Lemma writes_bind m m' w w' :
  writes m w → writes m' w' → writes (λ c, m c ≫= m') (w ++ w').
Proof.
  intros Hm Hm' pre rest H. rewrite length_app in H.
  destruct (Hm pre rest) as (rest1 & E1 & L1); [lia|].
  destruct (Hm' (pre ++ w) rest1) as (rest2 & E2 & L2); [lia|].
  exists rest2. rewrite E1. cbn [mbind outcome_bind]. rewrite E2, !app_assoc.
  split; [done|]. rewrite length_app. lia.
Qed.

Lemma writes_if (b : bool) m w :
  (b = true → writes m w) → writes (λ c, if b then m c else Ret c) (if b then w else []).
Proof. destruct b; [auto|intros _; apply writes_nil]. Qed.

Lemma writes_foldl {A} (f : A → cursor → outcome cursor) (g : A → bytes) (l : list A) :
  (∀ a, a ∈ l → writes (f a) (g a)) →
  writes (λ c, foldl (λ acc a, acc ≫= f a) (Ret c) l) (concat (g <$> l)).
Proof.
  assert (Hs : ∀ l (m : outcome cursor), foldl (λ acc a, acc ≫= f a) m l
             = m ≫= λ c, foldl (λ acc a, acc ≫= f a) (Ret c) l).
  { clear l. induction l as [|a l IH]; intros m; simpl; [by destruct m|].
    rewrite IH. destruct m as [c| |]; simpl; [|done|done]. by rewrite (IH (f a c)). }
  induction l as [|a l IH]; intros H; [apply writes_nil|].
  intros pre rest Hl. simpl foldl. rewrite Hs. revert pre rest Hl.
  apply (writes_bind (f a)); [apply H, list_elem_of_here|]. apply IH.
  intros a' Ha'. apply H. by right.
Qed.

Lemma foldl_emit_app (ws : list bytes) pre rest :
  (length (concat ws) <= length rest)%nat →
  foldl (λ acc w, acc ≫= emit w) (Ret (pre ++ rest, length pre)) ws
  = Ret ((pre ++ concat ws) ++ drop (length (concat ws)) rest, length (pre ++ concat ws)).
Proof.
  revert pre rest. induction ws as [|w ws IH]; intros pre rest H; simpl.
  - by rewrite app_nil_r, drop_0.
  - simpl in H. rewrite length_app in H. rewrite emit_app by lia.
    rewrite IH by (rewrite length_drop; lia).
    rewrite <- !app_assoc, drop_drop, <- length_app. done.
Qed.

(** ** The options are encoded as specified *)

Lemma be32_len x : length (be32 x) = 4%nat.
Proof. done. Qed.

Lemma fill_encode sdl :
  sdl_type sdl = IFT_ETHER → (6 <= length (LLADDR sdl))%nat →
  lladdropt_fill sdl = Ret (encode_opt (ND_OPT_SOURCE_LINKADDR, take 6 (LLADDR sdl))).
Proof.
  intros Ht Hl. unfold lladdropt_fill. rewrite Ht, read_at_0 by done. simpl.
  unfold encode_opt, opt_len. simpl. by rewrite length_take_le.
Qed.

Lemma pi_encode p now : pfx_wf p → pi_option p now = encode_opt (pi_opt p now).
Proof.
  intros [[Ha _] Hl _ _]. unfold pi_option, pi_opt, encode_opt, opt_len.
  destruct (pi_lifetimes p now). rewrite u8_id by (unfold byte_ok; lia). simpl. by rewrite Ha.
Qed.

Lemma rti_psize_bound r : rti_wf r → 0 <= rti_psize r <= 2.
Proof. intros [_ H]. unfold rti_psize. rewrite Z.shiftr_div_pow2 by lia. zlia. Qed.

Lemma rti_encode r : rti_wf r → rti_option r = Ret (encode_opt (rti_opt r)).
Proof.
  intros Hw. pose proof (rti_psize_bound r Hw) as Hp. destruct Hw as [[Ha _] Hl].
  unfold rti_option, rti_opt, encode_opt, opt_len. rewrite !(u8_id (rti_psize r)) by (unfold byte_ok; lia).
  rewrite !u8_id by (unfold byte_ok; lia). rewrite read_at_0 by lia. cbn [of_opt mbind outcome_bind].
  replace (Z.to_nat (rti_psize r * 8)) with (8 * Z.to_nat (rti_psize r))%nat by lia.
  cbn [fst snd app length]. rewrite length_app, length_take_le, be32_len by lia.
  do 4 f_equal. zlia.
Qed.

Lemma addrs_length (l : list in6_addr) :
  Forall addr_ok l → length (concat l) = (16 * length l)%nat.
Proof. induction 1 as [|a l [Ha _] _ IH]; [done|]. simpl concat. rewrite length_app. simpl. lia. Qed.

Lemma writes_rdnss r :
  rai_wf r → 0 < rai_rdnss_length r →
  writes (λ c, emit (rdnss_header r) c ≫= λ c, foldl (λ acc a, acc ≫= emit a) (Ret c) (rai_rdnss_list r))
    (encode_opt (rdnss_opt r)).
Proof.
  intros Hw Hp. destruct (rai_wf_rdnss_len r Hw Hp) as [El Hb].
  replace (encode_opt (rdnss_opt r)) with (rdnss_header r ++ concat (id <$> rai_rdnss_list r)).
  { apply writes_bind; [apply writes_emit|]. apply (writes_foldl emit id). intros. apply writes_emit. }
  rewrite list_fmap_id. unfold rdnss_header, rdnss_opt, encode_opt, opt_len. simpl.
  rewrite (addrs_length _ (rai_wf_rdnss r Hw)). f_equal. f_equal. rewrite u8_id by (unfold byte_ok; lia). zlia.
Qed.

Lemma dnssl_encode r :
  rai_wf r → 0 < rai_dnssl_length r →
  let ds := domains_bytes (rai_dnssl_list r) in
  encode_opt (dnssl_opt r) = dnssl_header r ++ ds
    ++ replicate (Z.to_nat (rai_dnssl_option_length r) - 8 - length ds) 0
  ∧ length (encode_opt (dnssl_opt r)) = Z.to_nat (rai_dnssl_option_length r).
Proof.
  intros Hw Hp ds. destruct (rai_wf_dnssl_len r Hw Hp) as [Hm Hb]. fold ds in Hb.
  unfold encode_opt, dnssl_opt, dnssl_header, opt_len. fold ds. split.
  - simpl. rewrite length_app, length_replicate. f_equal. f_equal.
    rewrite Z.shiftr_div_pow2 by lia. rewrite u8_id by (unfold byte_ok; zlia). zlia.
  - simpl. rewrite length_app, length_replicate. lia.
Qed.

Lemma writes_dnssl r :
  rai_wf r → 0 < rai_dnssl_length r → writes (emit_dnssl r) (encode_opt (dnssl_opt r)).
Proof.
  intros Hw Hp pre rest. destruct (dnssl_encode r Hw Hp) as [-> El].
  destruct (rai_wf_dnssl_len r Hw Hp) as [Hm Hb].
  set (len := Z.to_nat (rai_dnssl_option_length r)) in *.
  set (ds := domains_bytes (rai_dnssl_list r)) in *. set (pad := replicate (len - 8 - length ds) 0).
  intros Hr. assert (Hl : (length (dnssl_header r) + length ds + length pad = len)%nat).
  { unfold pad. rewrite length_replicate. simpl. lia. }
  rewrite !length_app in Hr.
  exists (drop len rest). unfold emit_dnssl. cbn [fst snd]. fold len.
  rewrite store_app by (rewrite length_replicate; lia). cbn [mbind outcome_bind].
  rewrite emit_app by (rewrite length_app, length_replicate; simpl; lia). cbn [mbind outcome_bind].
  assert (Hf : ∀ m, foldl (λ acc d, acc ≫= emit (encode_domain d)) m (rai_dnssl_list r)
                  = foldl (λ acc w, acc ≫= emit w) m (encode_domain <$> rai_dnssl_list r)).
  { clear. induction (rai_dnssl_list r) as [|d l IH]; intros m; [done|]. csimpl. apply IH. }
  rewrite Hf, foldl_emit_app; fold ds; fold (domains_bytes (rai_dnssl_list r)).
  2:{ change (concat _) with ds. rewrite !length_drop, length_app, length_replicate. fold ds. lia. }
  change (concat (encode_domain <$> rai_dnssl_list r)) with ds. cbn [mbind outcome_bind fst].
  rewrite length_replicate, drop_drop, !length_app. split.
  - do 2 f_equal; [|lia]. rewrite <- !app_assoc. do 3 f_equal.
    change (length (dnssl_header r)) with 8%nat in *.
    fold ds. rewrite drop_app_le by (rewrite length_replicate; lia).
    rewrite drop_replicate. unfold pad. do 2 f_equal. lia.
  - rewrite length_drop. lia.
Qed.

Lemma writes_capport r url :
  rai_wf r → rai_capport r = Some url → writes (emit_capport r url) (encode_opt (capport_opt r url)).
Proof.
  intros Hw Eu. pose proof (rai_wf_capport r Hw) as Hc. rewrite Eu in Hc.
  destruct Hc as (_ & El & Hm & Hb).
  unfold emit_capport. rewrite El, Nat2Z.id, (read_at_0 url), take_ge by done.
  cbn [of_opt mbind outcome_bind].
  replace (encode_opt (capport_opt r url)) with
    ([ND_OPT_CAPTIVE_PORTAL; u8 (Z.shiftr (rai_capport_option_length r) 3)] ++ url
     ++ replicate (Z.to_nat (u32 (rai_capport_option_length r - 2 - Z.of_nat (length url)))) 0).
  { apply writes_bind; [apply writes_emit|]. apply writes_bind; apply writes_emit. }
  unfold encode_opt, capport_opt, opt_len. simpl. rewrite length_app, length_replicate.
  rewrite Z.shiftr_div_pow2 by lia. rewrite u8_id by (unfold byte_ok; zlia).
  unfold u32. rewrite Z.mod_small by lia. f_equal. f_equal; [zlia|]. do 2 f_equal. lia.
Qed.

Lemma writes_pref64 r :
  rai_wf r → rai_pref64_specified r = true → writes (emit_pref64 r) (encode_opt (pref64_opt r)).
Proof.
  intros Hw Es. destruct (rai_wf_pref64 r Hw Es) as [[La _] Hb].
  set (n := rai_pref64_prefix_length r / 8). assert (Hn : 0 <= n <= 12) by (unfold n; zlia).
  set (w := ([ND_OPT_PREF64; 2] ++ be16 (rai_pref64_lifetime_plc r)) ++
            take (Z.to_nat n) (rai_pref64_addr r) ++ replicate (Z.to_nat (12 - n)) 0).
  assert (Lw : length w = 16%nat).
  { unfold w. rewrite !length_app, length_take, length_replicate. simpl. lia. }
  replace (encode_opt (pref64_opt r)) with w.
  2:{ unfold encode_opt, pref64_opt, opt_len, w. fold n. simpl.
      rewrite length_app, length_take, length_replicate.
      f_equal. f_equal; [zlia|]. do 4 f_equal. lia. }
  intros pre rest Hr.
  assert (Hwr : writes (λ c, c1 ← emit ([ND_OPT_PREF64; 2] ++ be16 (rai_pref64_lifetime_plc r)) c;
    c2 ← emit (take (Z.to_nat n) (rai_pref64_addr r)) c1; emit (replicate (Z.to_nat (12 - n)) 0) c2) w).
  { apply writes_bind; [apply writes_emit|]. apply writes_bind; apply writes_emit. }
  destruct (Hwr pre rest Hr) as (rest' & E & L). exists rest'. split; [|done].
  unfold emit_pref64. fold n. rewrite !(u8_id n) by (unfold byte_ok; lia).
  rewrite u8_id by (unfold byte_ok; lia). rewrite read_at_0 by lia.
  change (Z.shiftr sizeof_nd_opt_pref64 3) with 2. cbn [of_opt].
  destruct (emit ([ND_OPT_PREF64; 2] ++ _) _) as [c1| |]; [|done|done]. cbn [mbind outcome_bind] in E |- *.
  destruct (emit (take _ _) c1) as [c2| |]; [|done|done]. cbn [mbind outcome_bind] in E |- *.
  rewrite E. cbn [mbind outcome_bind fst snd]. by rewrite length_app, Lw.
Qed.

Lemma pi_ticks_cons p ps :
  pi_ticks (p :: ps) = ((if reads_clock p then 1 else 0) + pi_ticks ps)%nat.
Proof. unfold pi_ticks. rewrite filter_cons. by destruct (reads_clock p). Qed.

Lemma prefixes_ok clock ps : ∀ tick pre rest,
  Forall pfx_wf ps → (length (encode_opts (pi_opts clock ps tick)) <= length rest)%nat →
  ∃ rest', emit_prefixes clock ps tick (pre ++ rest, length pre)
    = Ret ((pre ++ encode_opts (pi_opts clock ps tick)) ++ rest',
           length (pre ++ encode_opts (pi_opts clock ps tick)), (tick + pi_ticks ps)%nat) ∧
    length rest = (length (encode_opts (pi_opts clock ps tick)) + length rest')%nat.
Proof.
  induction ps as [|p ps IH]; intros tick pre rest Hw Hl.
  { exists rest. simpl. by rewrite app_nil_r, Nat.add_0_r. }
  apply Forall_cons in Hw as [Hp Hw]. cbn [pi_opts emit_prefixes] in *.
  rewrite encode_opts_cons in *. rewrite length_app in Hl |- *.
  rewrite (pi_encode p _ Hp), emit_app by lia. cbn [mbind outcome_bind].
  destruct (IH (if reads_clock p then S tick else tick) (pre ++ encode_opt (pi_opt p (clock tick)))
              (drop (length (encode_opt (pi_opt p (clock tick)))) rest) Hw) as (rest' & E & L).
  { rewrite length_drop. lia. }
  exists rest'. rewrite E, <- !app_assoc. split.
  - rewrite pi_ticks_cons. f_equal. f_equal; [by rewrite length_app|].
    destruct (reads_clock p); lia.
  - rewrite length_drop in L. rewrite ?length_app. lia.
Qed.

Lemma pi_opts_length clock ps tick :
  Forall pfx_wf ps → length (encode_opts (pi_opts clock ps tick)) = (32 * length ps)%nat.
Proof.
  intros H. revert tick. induction H as [|p ps [[Ha _] _ _ _] _ IH]; intros tick; [done|].
  cbn [pi_opts]. rewrite encode_opts_cons, length_app, IH. unfold pi_opt, encode_opt.
  destruct (pi_lifetimes p _). simpl. rewrite Ha. lia.
Qed.

Lemma rti_opts_length rs :
  Forall rti_wf rs →
  Z.of_nat (length (encode_opts (rti_opt <$> rs)))
  = foldr (λ rti acc, sizeof_nd_opt_route_info + rti_psize rti * 8 + acc) 0 rs.
Proof.
  induction 1 as [|r rs Hw _ IH]; [done|]. rewrite fmap_cons, encode_opts_cons, length_app.
  cbn [foldr]. rewrite Nat2Z.inj_add, IH. pose proof (rti_psize_bound r Hw). destruct Hw as [[Ha _] _].
  unfold rti_opt, encode_opt, sizeof_nd_opt_route_info. simpl. rewrite length_take. lia.
Qed.

(** ** The whole packet *)

Lemma opt_wf_intro t (body : bytes) n :
  byte_ok t → bytes_ok body → Z.of_nat (length body) + 2 = 8 * n → n <= 255 → opt_wf (t, body).
Proof. intros Ht Hb Hl Hn. unfold opt_wf, opt_len. simpl. split_and!; try done; zlia. Qed.

Lemma land_ff_ok x : byte_ok (Z.land 0xff x).
Proof.
  rewrite Z.land_comm. change 0xff with (Z.ones 8). rewrite Z.land_ones by lia.
  unfold byte_ok. zlia.
Qed.

Lemma pi_opts_wf clock ps tick : Forall pfx_wf ps → Forall opt_wf (pi_opts clock ps tick).
Proof.
  intros H. revert tick. induction H as [|p ps [[La Ha] Hl _ _] _ IH]; intros tick; simpl; constructor; [|done].
  unfold pi_opt. destruct (pi_lifetimes p _).
  apply (opt_wf_intro _ _ 4); [done| |simpl; rewrite La; lia|lia].
  repeat apply Forall_cons_2; auto with netcmds.
  unfold pi_flags. by destruct (truthy _), (truthy _).
Qed.

Lemma rti_opts_wf rs : Forall rti_wf rs → Forall opt_wf (rti_opt <$> rs).
Proof.
  intros H. apply Forall_fmap. eapply Forall_impl; [exact H|]. intros r Hw. simpl.
  pose proof (rti_psize_bound r Hw). destruct Hw as [[La Ha] Hl].
  apply (opt_wf_intro _ _ (1 + rti_psize r)); [done| |simpl; rewrite length_take; lia|lia].
  repeat apply Forall_cons_2; auto using land_ff_ok with netcmds.
Qed.

Lemma encode_opts_app os os' : encode_opts (os ++ os') = encode_opts os ++ encode_opts os'.
Proof. unfold encode_opts. by rewrite fmap_app, concat_app. Qed.
Lemma encode_opts_one o : encode_opts [o] = encode_opt o.
Proof. unfold encode_opts. simpl. by rewrite app_nil_r. Qed.
Lemma encode_opts_if (b : bool) o :
  encode_opts (if b then [o] else []) = if b then encode_opt o else [].
Proof. destruct b; [apply encode_opts_one|done]. Qed.

Lemma ra_options_wf clock r tick : rai_wf r → Forall opt_wf (ra_options clock r tick).
Proof.
  intros Hw. unfold ra_options. repeat apply Forall_app_2.
  - unfold lladdr_opts. destruct (truthy (rai_advlinkopt r)) eqn:E; [|constructor].
    destruct (rai_wf_sdl r Hw) as (sdl & -> & Hs); [by intros E'; rewrite E' in E|].
    destruct (sdl_type sdl =? IFT_ETHER) eqn:Et; [|constructor].
    apply Z.eqb_eq in Et. destruct (Hs Et). apply Forall_singleton.
    apply (opt_wf_intro _ _ 1); [done|by apply Forall_take|rewrite length_take; lia|lia].
  - destruct (truthy _); constructor; [|constructor].
    apply (opt_wf_intro _ _ 1); [done| |done|lia]. apply Forall_app_2; auto with netcmds.
  - apply pi_opts_wf, Hw.
  - apply rti_opts_wf, Hw.
  - destruct (0 <? rai_rdnss_length r) eqn:E; constructor; [|constructor].
    destruct (rai_wf_rdnss_len r Hw) as [El Hb]; [lia|].
    pose proof (rai_wf_rdnss r Hw) as Ha.
    apply (opt_wf_intro _ _ (1 + 2 * rai_rdnss_length r)); [done| | |lia].
    + repeat apply Forall_app_2; auto with netcmds. apply bytes_ok_concat.
      eapply Forall_impl; [done|]. by intros ? [].
    + rewrite !length_app, addrs_length by done. simpl. lia.
  - destruct (0 <? rai_dnssl_length r) eqn:E; constructor; [|constructor].
    assert (Hp : 0 < rai_dnssl_length r) by lia.
    destruct (rai_wf_dnssl_len r Hw Hp) as [Hm Hb]. destruct (dnssl_encode r Hw Hp) as [_ El].
    pose proof (opt_len_length (dnssl_opt r)) as Hl. rewrite El in Hl.
    apply (opt_wf_intro _ _ (rai_dnssl_option_length r / 8)); [done| | |zlia].
    2:{ transitivity (opt_len (dnssl_opt r)); [done|]. rewrite <- Hl. zlia. }
    repeat apply Forall_app_2; auto with netcmds. apply domains_bytes_ok, Hw.
  - pose proof (rai_wf_capport r Hw) as Hc. destruct (rai_capport r) as [url|]; constructor; [|constructor].
    destruct Hc as (Hu & El & Hm & Hb).
    apply (opt_wf_intro _ _ (rai_capport_option_length r / 8)); [done|auto with netcmds| |zlia].
    rewrite length_app, length_replicate. zlia.
  - destruct (rai_pref64_specified r) eqn:E; constructor; [|constructor].
    destruct (rai_wf_pref64 r Hw E) as [[La Ha] Hb].
    apply (opt_wf_intro _ _ 2); [done|auto with netcmds| |lia].
    rewrite !length_app, length_take, length_replicate. simpl. zlia.
Qed.

(** Whether the source link-layer option is still enabled after a packet. *)
Definition kept_advlinkopt (r : rainfo) : Z :=
  if truthy (rai_advlinkopt r) && match rai_sdl r with
                                  | Some sdl => lladdropt_length sdl =? 0
                                  | None => false
                                  end
  then 0 else rai_advlinkopt r.

Definition with_packet (r : rainfo) (pkt : bytes) : rainfo :=
  r <| rai_advlinkopt := kept_advlinkopt r |> <| rai_ra_data := Some pkt |>
    <| rai_ra_datalen := Z.of_nat (length pkt) |>.

(** Lengths of the optional parts. *)
Definition lladdr_length (r : rainfo) : Z :=
  if truthy (rai_advlinkopt r)
  then match rai_sdl r with Some sdl => lladdropt_length sdl | None => 0 end else 0.

Lemma lladdr_opts_length r :
  rai_wf r → Z.of_nat (length (encode_opts (lladdr_opts r))) = lladdr_length r.
Proof.
  intros Hw. unfold lladdr_length, lladdr_opts.
  destruct (truthy (rai_advlinkopt r)) eqn:E; [|done].
  destruct (rai_wf_sdl r Hw) as (sdl & -> & Hs); [by intros E'; rewrite E' in E|].
  unfold lladdropt_length. destruct (sdl_type sdl =? IFT_ETHER) eqn:Et; [|done].
  apply Z.eqb_eq in Et. destruct (Hs Et). rewrite encode_opts_one, opt_len_length.
  unfold opt_len. simpl. rewrite length_take. change (ROUNDUP8 _) with 8. lia.
Qed.

Lemma rdnss_opt_length r :
  rai_wf r → Z.of_nat (length (if 0 <? rai_rdnss_length r then encode_opt (rdnss_opt r) else []))
  = if 0 <? rai_rdnss_length r then 8 + 16 * rai_rdnss_length r else 0.
Proof.
  intros Hw. destruct (0 <? rai_rdnss_length r) eqn:E; [|done].
  destruct (rai_wf_rdnss_len r Hw) as [El _]; [lia|]. rewrite opt_len_length. unfold opt_len.
  simpl. rewrite addrs_length by apply Hw. lia.
Qed.

Lemma dnssl_opt_length r :
  rai_wf r → Z.of_nat (length (if 0 <? rai_dnssl_length r then encode_opt (dnssl_opt r) else []))
  = if 0 <? rai_dnssl_length r then rai_dnssl_option_length r else 0.
Proof.
  intros Hw. destruct (0 <? rai_dnssl_length r) eqn:E; [|done].
  destruct (rai_wf_dnssl_len r Hw) as [_ ?]; [lia|].
  destruct (dnssl_encode r Hw) as [_ ->]; lia.
Qed.

Lemma capport_opt_length r :
  rai_wf r → Z.of_nat (length (encode_opts match rai_capport r with
    | Some url => [capport_opt r url] | None => [] end)) = rai_capport_option_length r.
Proof.
  intros Hw. pose proof (rai_wf_capport r Hw) as Hc.
  destruct (rai_capport r) as [url|]; [|by rewrite Hc].
  destruct Hc as (_ & ? & _ & ?). rewrite encode_opts_one, opt_len_length. unfold opt_len. simpl.
  rewrite length_app, length_replicate. lia.
Qed.

Lemma pref64_opt_length r :
  rai_wf r → Z.of_nat (length (if rai_pref64_specified r then encode_opt (pref64_opt r) else []))
  = if rai_pref64_specified r then sizeof_nd_opt_pref64 else 0.
Proof.
  intros Hw. destruct (rai_pref64_specified r) eqn:E; [|done].
  destruct (rai_wf_pref64 r Hw E) as [[La _] ?]. rewrite opt_len_length. unfold opt_len. simpl.
  rewrite length_app, length_take, length_replicate. change sizeof_nd_opt_pref64 with 16. zlia.
Qed.

(** The length computed in advance is the length of the packet. *)
Lemma packet_length_spec clock r tick :
  rai_wf r →
  packet_length r (lladdr_length r)
  = Z.of_nat (length (ra_header r ++ encode_opts (ra_options clock r tick))).
Proof.
  intros Hw. unfold ra_options. rewrite !encode_opts_app, !encode_opts_if, !length_app.
  unfold packet_length. rewrite pi_opts_length by apply Hw.
  rewrite !Nat2Z.inj_add, rti_opts_length by apply Hw. rewrite (rai_wf_pfxs r Hw).
  rewrite lladdr_opts_length, rdnss_opt_length, dnssl_opt_length, capport_opt_length,
    pref64_opt_length by done.
  change (Z.of_nat (length (ra_header r))) with 16.
  unfold sizeof_nd_router_advert, sizeof_nd_opt_prefix_info, sizeof_nd_opt_mtu.
  assert (H6 : (if truthy (Z.of_nat (length (rai_prefix r)))
                then 32 * Z.of_nat (length (rai_prefix r)) else 0)
               = Z.of_nat (32 * length (rai_prefix r))).
  { unfold truthy. destruct (Z.eqb_spec (Z.of_nat (length (rai_prefix r))) 0); simpl; lia. }
  rewrite H6. destruct (truthy (rai_linkmtu r)); simpl; lia.
Qed.

Lemma rai_wf_advlinkopt r : rai_wf r → rai_wf (r <| rai_advlinkopt := 0 |>).
Proof. intros []. by constructor. Qed.

(** The interface the packet is built from: the option is dropped if the link
    has no address to put in it. *)
Definition settled (r : rainfo) : rainfo := r <| rai_advlinkopt := kept_advlinkopt r |>.

Lemma writes_lladdr r :
  rai_wf r → rai_advlinkopt r = kept_advlinkopt r →
  writes (λ c, if truthy (rai_advlinkopt r)
               then sdl ← of_opt (rai_sdl r); w ← lladdropt_fill sdl; emit w c else Ret c)
    (encode_opts (lladdr_opts r)).
Proof.
  intros Hw Hk. unfold kept_advlinkopt, lladdr_opts in *.
  destruct (truthy (rai_advlinkopt r)) eqn:E; [|apply writes_nil].
  destruct (rai_wf_sdl r Hw) as (sdl & Es & Hs); [by intros E'; rewrite E' in E|].
  rewrite Es in *. unfold lladdropt_length in Hk. cbn [of_opt mbind outcome_bind].
  destruct (sdl_type sdl =? IFT_ETHER) eqn:Et.
  - apply Z.eqb_eq in Et. destruct (Hs Et). rewrite fill_encode, encode_opts_one by done.
    apply writes_emit.
  - simpl in Hk. by rewrite Hk in E.
Qed.

Lemma writes_routes rs :
  Forall rti_wf rs →
  writes (λ c, foldl (λ acc rti, c ← acc; w ← rti_option rti; emit w c) (Ret c) rs)
    (encode_opts (rti_opt <$> rs)).
Proof.
  intros Hw. unfold encode_opts. rewrite <- list_fmap_compose.
  apply (writes_foldl (λ rti c, w ← rti_option rti; emit w c) (encode_opt ∘ rti_opt)).
  intros r Hr. eapply Forall_forall in Hw; [|done]. rewrite rti_encode by done. apply writes_emit.
Qed.

Lemma writes_capports r :
  rai_wf r →
  writes (λ c, match rai_capport r with Some url => emit_capport r url c | None => Ret c end)
    (encode_opts match rai_capport r with Some url => [capport_opt r url] | None => [] end).
Proof.
  intros Hw. destruct (rai_capport r) as [url|] eqn:E; [|apply writes_nil].
  rewrite encode_opts_one. by apply writes_capport.
Qed.

(** Advances the goal over one step known to append its octets. *)
Ltac wstep H :=
  match goal with
  | |- context [(?p ++ ?rest, length ?p)] =>
      let rest' := fresh "rest" in let E := fresh "E" in let L := fresh "L" in
      destruct (H p rest) as (rest' & E & L);
      [rewrite ?length_app in *; lia | cbv beta in E; rewrite E; clear E; cbn [mbind outcome_bind]]
  end.

Lemma fill_packet_spec clock r tick rest :
  rai_wf r → rai_advlinkopt r = kept_advlinkopt r →
  length rest = length (ra_header r ++ encode_opts (ra_options clock r tick)) →
  fill_packet clock r tick (rest, O)
  = Ret (ra_header r ++ encode_opts (ra_options clock r tick),
         length (ra_header r ++ encode_opts (ra_options clock r tick)),
         (tick + pi_ticks (rai_prefix r))%nat).
Proof.
  intros Hw Hk Hl. unfold fill_packet, ra_options in *.
  rewrite !encode_opts_app, !encode_opts_if in *. rewrite !length_app in Hl.
  change (rest, O) with ([] ++ rest, length (@nil Z)).
  wstep (writes_emit (ra_header r)). wstep (writes_lladdr r Hw Hk).
  change (mtu_option r) with (encode_opt (ND_OPT_MTU, [0; 0] ++ be32 (rai_linkmtu r))).
  wstep (writes_if (truthy (rai_linkmtu r)) _ _ (λ _, writes_emit (encode_opt (ND_OPT_MTU, [0; 0] ++ be32 (rai_linkmtu r))))).
  wstep (λ pre rest, prefixes_ok clock (rai_prefix r) tick pre rest (rai_wf_prefix r Hw)).
  wstep (writes_routes (rai_route r) (rai_wf_route r Hw)).
  wstep (writes_if (0 <? rai_rdnss_length r) _ _ (λ E, writes_rdnss r Hw (proj1 (Z.ltb_lt _ _) E))).
  wstep (writes_if (0 <? rai_dnssl_length r) _ _ (λ E, writes_dnssl r Hw (proj1 (Z.ltb_lt _ _) E))).
  wstep (writes_capports r Hw).
  wstep (writes_if (rai_pref64_specified r) _ _ (writes_pref64 r Hw)).
  assert (Hn : length rest8 = O) by lia. apply nil_length_inv in Hn as ->.
  by rewrite app_nil_r, <- !app_assoc.
Qed.

Definition ra_packet (clock : nat → timeval) (r : rainfo) (tick : nat) : bytes :=
  ra_header r ++ encode_opts (ra_options clock r tick).

Lemma lladdr_opts_settled r : rai_wf r → lladdr_opts (settled r) = lladdr_opts r.
Proof.
  intros Hw. unfold lladdr_opts, settled, kept_advlinkopt. simpl.
  destruct (truthy (rai_advlinkopt r)) eqn:E; simpl; [|by rewrite E].
  destruct (rai_wf_sdl r Hw) as (sdl & -> & _); [by intros E'; rewrite E' in E|].
  unfold lladdropt_length. destruct (sdl_type sdl =? IFT_ETHER); simpl; [by rewrite E|done].
Qed.

Lemma settled_wf r : rai_wf r → rai_wf (settled r).
Proof.
  intros Hw. unfold settled, kept_advlinkopt.
  destruct (_ && _); [by apply rai_wf_advlinkopt|]. by destruct r.
Qed.

Lemma settled_idem r : rai_advlinkopt (settled r) = kept_advlinkopt (settled r).
Proof.
  unfold settled, kept_advlinkopt. simpl.
  destruct (truthy (rai_advlinkopt r) && _) eqn:E; [done|]. by rewrite E.
Qed.

Lemma ra_packet_settled clock r tick :
  rai_wf r → ra_packet clock (settled r) tick = ra_packet clock r tick.
Proof. intros Hw. unfold ra_packet, ra_options. by rewrite lladdr_opts_settled. Qed.

Lemma make_packet_eq clock junk r tick :
  rai_wf r →
  make_packet clock junk r tick
  = Ret (with_packet r (ra_packet clock r tick), (tick + pi_ticks (rai_prefix r))%nat).
Proof.
  intros Hw. unfold make_packet.
  assert (Hl : (if truthy (rai_advlinkopt r)
                then sdl ← of_opt (rai_sdl r); Ret (lladdropt_length sdl) else Ret 0)
               = Ret (lladdr_length r)).
  { unfold lladdr_length. destruct (truthy (rai_advlinkopt r)) eqn:E; [|done].
    destruct (rai_wf_sdl r Hw) as (sdl & -> & _); [by intros E'; rewrite E' in E|done]. }
  rewrite Hl. cbn [mbind outcome_bind]. clear Hl.
  assert (Er : (if truthy (rai_advlinkopt r) && (lladdr_length r =? 0)
                then r <| rai_advlinkopt := 0 |> else r) = settled r).
  { unfold settled, kept_advlinkopt, lladdr_length.
    destruct (truthy (rai_advlinkopt r)) eqn:E; simpl; [|by destruct r].
    destruct (rai_wf_sdl r Hw) as (sdl & -> & _); [by intros E'; rewrite E' in E|].
    destruct (lladdropt_length sdl =? 0); [done|by destruct r]. }
  rewrite Er. assert (El : packet_length (settled r) (lladdr_length r)
                           = Z.of_nat (length (ra_packet clock r tick))).
  { rewrite <- ra_packet_settled by done. unfold ra_packet.
    rewrite <- (packet_length_spec clock (settled r) tick) by (by apply settled_wf).
    rewrite <- !lladdr_opts_length by (try apply settled_wf; done).
    by rewrite lladdr_opts_settled. }
  rewrite El, Nat2Z.id.
  rewrite fill_packet_spec; [|by apply settled_wf|apply settled_idem|].
  2:{ rewrite length_fmap, length_seq. fold (ra_packet clock (settled r) tick).
      by rewrite ra_packet_settled. }
  cbn [mbind outcome_bind fst snd]. fold (ra_packet clock (settled r) tick).
  rewrite ra_packet_settled, Z.eqb_refl by done. done.
Qed.

(** C5: On a well-formed interface [make_packet] neither runs over the packet
    it allocated nor exits on its length check: the packet is the header
    followed by the options of the specification, each of them well formed,
    and its length is the one recorded; only the packet and the link-layer
    option flag of the interface change. *)
Theorem make_packet_correct clock junk r tick :
  rai_wf r →
  let opts := ra_options clock r tick in
  make_packet clock junk r tick
  = Ret (with_packet r (ra_header r ++ encode_opts opts), (tick + pi_ticks (rai_prefix r))%nat)
  ∧ Forall opt_wf opts.
Proof. intros Hw opts. split; [by apply make_packet_eq|by apply ra_options_wf]. Qed.

(** An Ethernet interface with one prefix, a route, a name server, a search
    domain, a captive portal and a NAT64 prefix. *)
Definition sample_sdl : sockaddr_dl := Sdl 4 IFT_ETHER 3 6 ([101; 110; 48] ++ [2; 0; 0; 0; 0; 1]).
Definition sample_addr (n : Z) : in6_addr := [0x20; 0x01; 0x0d; 0xb8; 0; n] ++ replicate 10 0.
Definition sample_pfx : prefix :=
  Pfx 7 0 None 2592000 0 604800 0 0x80 0x40 64 PREFIX_FROM_CONFIG (sample_addr 1).
Definition sample_rai : rainfo :=
  zero_rainfo 0 <| rai_ifindex := 4 |> <| rai_advlinkopt := 1 |> <| rai_sdl := Some sample_sdl |>
    <| rai_lifetime := 1800 |> <| rai_maxinterval := 600 |> <| rai_mininterval := 200 |>
    <| rai_hoplimit := 64 |> <| rai_linkmtu := 1500 |>
    <| rai_prefix := [sample_pfx] |> <| rai_pfxs := 1 |>
    <| rai_route := [Rti 1800 0 48 (sample_addr 2)] |> <| rai_routes := 1 |>
    <| rai_rdnss_list := [sample_addr 3] |> <| rai_rdnss_length := 1 |>
    <| rai_rdnss_lifetime := 1200 |>
    <| rai_dnssl_list := [[97; 46; 98]] |> <| rai_dnssl_length := 1 |>
    <| rai_dnssl_lifetime := 1200 |> <| rai_dnssl_option_length := 16 |>
    <| rai_capport := Some [104; 58] |> <| rai_capport_length := 2 |>
    <| rai_capport_option_length := 8 |>
    <| rai_pref64_specified := true |> <| rai_pref64_prefix_length := 96 |>
    <| rai_pref64_lifetime_plc := 1800 |> <| rai_pref64_addr := sample_addr 4 |>.

Lemma sample_addr_ok n : byte_ok n → addr_ok (sample_addr n).
Proof.
  intros. split; [done|]. unfold sample_addr. apply Forall_app_2; [|apply bytes_ok_zeros].
  repeat (apply Forall_cons_2; [auto with netcmds|]). constructor.
Qed.

Lemma sample_rai_wf : rai_wf sample_rai.
Proof.
  constructor; unfold sample_rai; simpl; intros; rewrite ?Forall_singleton.
  - exists sample_sdl. split; [done|]. intros _. simpl. split; [lia|].
    repeat (apply Forall_cons_2; [auto with netcmds|]). constructor.
  - done.
  - constructor; simpl; [by apply sample_addr_ok|lia|unfold u32_ok; lia..].
  - constructor; simpl; [by apply sample_addr_ok|lia].
  - lia.
  - by apply sample_addr_ok.
  - vm_compute. split_and!; congruence.
  - auto with netcmds.
  - split_and!; [auto with netcmds|done..].
  - split; [by apply sample_addr_ok|lia].
Qed.

Lemma make_packet_correct_witness :
  ∃ r, make_packet (λ _, TV 0 0) (λ _, 0xa5) sample_rai 0 = Ret (r, O) ∧ rai_ra_datalen r = 144.
Proof.
  destruct (make_packet_correct (λ _, TV 0 0) (λ _, 0xa5) sample_rai 0 sample_rai_wf) as [E _].
  eexists. split; [exact E|vm_compute; reflexivity].
Defined.

(** ** Decoding of a domain name (RFC 1035, section 3.1) *)

Fixpoint decode_name (fuel : nat) (w : bytes) : option (list bytes * bytes) :=
  match fuel, w with
  | S fuel, n :: w' =>
      if n =? 0 then Some ([], w')
      else if bool_decide (Z.to_nat n <= length w')%nat then
        '(ls, rest) ← decode_name fuel (drop (Z.to_nat n) w');
        Some (take (Z.to_nat n) w' :: ls, rest)
      else None
  | _, _ => None
  end.

Fixpoint join_dots (ls : list bytes) : bytes :=
  match ls with
  | [] => []
  | [l] => l
  | l :: ls => l ++ DOT :: join_dots ls
  end.

Definition label_ok (l : bytes) : Prop := (1 <= length l <= 63)%nat.

Lemma join_strsep d : join_dots (strsep_dots d) = d.
Proof.
  induction d as [|c d IH]; [done|]. simpl.
  destruct (Z.eqb_spec c DOT) as [->|Hc].
  - rewrite <- IH at 2. by destruct (strsep_dots d) as [|l ls] eqn:E; [destruct d; simpl in *; repeat case_match|].
  - destruct (strsep_dots d) as [|l [|l' ls]]; simpl in *; by rewrite <- IH.
Qed.

Lemma encode_label_eq l : label_ok l → encode_label l = Z.of_nat (length l) :: l.
Proof.
  intros [H1 H2]. unfold encode_label. change 0x3f with (Z.ones 6). rewrite Z.land_ones by lia.
  rewrite Z.mod_small by (simpl; lia). rewrite (proj2 (Z.ltb_lt _ _)) by lia.
  by rewrite Nat2Z.id, take_ge.
Qed.

Lemma decode_labels ls rest : ∀ fuel,
  Forall label_ok ls → (length ls < fuel)%nat →
  decode_name fuel (concat (encode_label <$> ls) ++ 0 :: rest) = Some (ls, rest).
Proof.
  induction ls as [|l ls IH]; intros [|fuel] Hok Hf; try (simpl in Hf; lia); [done|].
  apply Forall_cons in Hok as [Hl Hok]. csimpl. rewrite encode_label_eq by done. cbn [app].
  rewrite <- app_assoc. cbn [decode_name]. pose proof Hl as [H1 _].
  rewrite (proj2 (Z.eqb_neq _ _)) by lia. rewrite Nat2Z.id, length_app.
  rewrite bool_decide_true by lia. rewrite drop_app_length, take_app_length.
  rewrite IH by (done || (simpl in Hf; lia)). done.
Qed.

(** A domain name whose labels have between 1 and 63 octets is encoded so
    that the decoder of RFC 1035 recovers its labels, which joined with dots
    are the name; the encoding has two octets more than the name, the space
    [getconfig] reserves. *)
Lemma encode_domain_roundtrip d rest :
  Forall label_ok (strsep_dots d) →
  decode_name (S (length (strsep_dots d))) (encode_domain d ++ rest) = Some (strsep_dots d, rest) ∧
  join_dots (strsep_dots d) = d ∧
  length (encode_domain d) = (length d + 2)%nat.
Proof.
  intros Hok. split_and!.
  - unfold encode_domain. rewrite <- app_assoc. apply decode_labels; [done|lia].
  - apply join_strsep.
  - unfold encode_domain. rewrite length_app. simpl. pose proof (strsep_dots_length d) as Hl.
    assert (H : length (concat (encode_label <$> strsep_dots d))
                = (length (concat (strsep_dots d)) + length (strsep_dots d))%nat); [|lia].
    clear Hl. induction Hok as [|l ls Hl _ IH]; [done|]. csimpl.
    rewrite encode_label_eq, !length_app by done. simpl. lia.
Qed.

Lemma encode_domain_roundtrip_witness :
  decode_name 3 (encode_domain [97; 98; 46; 99] ++ [7]) = Some ([[97; 98]; [99]], [7]).
Proof.
  apply (encode_domain_roundtrip [97; 98; 46; 99] [7]).
  repeat apply Forall_cons_2; [unfold label_ok; simpl; lia..|apply Forall_nil_2].
Defined.
