(* ===== verification/RaState.v ===== *)
(** * RaState: the state of rtadvd and its primitive operations

    The daemon's globals ([ralist], the timer queue, the interface list) as
    one record, the calls it makes to its environment, and the operations of
    config.c on the prefixes of an interface: [add_prefix], [delete_prefix],
    [invalidate_prefix], [update_prefix], [prefix_timeout], [init_prefix],
    [make_prefix]; [find_prefix] and [if_indextorainfo] of rtadvd.c. *)

From S2P Require Import Prelude Timeval In6 NdOpt RaTimer RtMsg Rainfo.

(** The functions a timer can call, with the structure passed to them. *)
Inductive callback :=
  | RaTimeout (rai : nat)
  | PrefixTimeout (pfx : nat).
#[export] Instance callback_eq_dec : EqDecision callback.
Proof. solve_decision. Defined.

(** Answers of the environment: the successive readings of the clock, the
    values of [random()], the contents of fresh memory, and the names of the
    interfaces. *)
Class Env := {
  clock : nat → timeval;
  random : nat → Z;
  junk : nat → Z;
  if_indextoname : Z → option bytes }.

(** [struct rr_operation] of rrenum.c: the last router renumbering command. *)
Record rr_operation := Rro { rro_seqnum : Z; rro_segnum_bits : list Z }.
#[export] Instance eta_rr_operation : Eta rr_operation := λ o,
  Rro (rro_seqnum o) (rro_segnum_bits o).
Definition zero_rro : rr_operation := Rro 0 (replicate 8 0).

(** [struct in6_rrenumreq], a prefix control request to the kernel. *)
Record in6_rrenumreq := Irr {
  irr_name : bytes;
  irr_origin : Z;
  irr_m_len : Z;
  irr_m_minlen : Z;
  irr_m_maxlen : Z;
  irr_u_uselen : Z;
  irr_u_keeplen : Z;
  irr_raf_mask_onlink : bool;
  irr_raf_mask_auto : bool;
  irr_vltime : Z;
  irr_pltime : Z;
  irr_raf_onlink : bool;
  irr_raf_auto : bool;
  irr_rrf_decrvalid : bool;
  irr_rrf_decrprefd : bool;
  irr_matchprefix : in6_addr;
  irr_useprefix : option in6_addr }.
#[export] Instance eta_in6_rrenumreq : Eta in6_rrenumreq := λ i,
  Irr (irr_name i) (irr_origin i) (irr_m_len i) (irr_m_minlen i) (irr_m_maxlen i)
    (irr_u_uselen i) (irr_u_keeplen i) (irr_raf_mask_onlink i) (irr_raf_mask_auto i)
    (irr_vltime i) (irr_pltime i) (irr_raf_onlink i) (irr_raf_auto i) (irr_rrf_decrvalid i)
    (irr_rrf_decrprefd i) (irr_matchprefix i) (irr_useprefix i).

(** The state. [w_tick] and [w_rand] count the readings of the clock and of
    the random numbers, [w_next] is the address of the next allocated
    structure, [w_sent] the packets sent so far (interface, contents), and
    [w_pco] the prefix control ioctls (operation, request). *)
Record world := World {
  ralist : list rainfo;
  w_queue : timer_queue callback;
  w_ifilist : ifilist;
  w_tick : nat;
  w_rand : nat;
  w_next : nat;
  w_sent : list (Z * bytes);
  w_rro : rr_operation;
  w_pco : list (Z * in6_rrenumreq) }.
#[export] Instance eta_world : Eta world := λ w,
  World (ralist w) (w_queue w) (w_ifilist w) (w_tick w) (w_rand w) (w_next w) (w_sent w)
    (w_rro w) (w_pco w).

Abbreviation IO := (ST world).

(** ** Environment calls *)

Section calls.
Context `{Env}.

Definition gettimeofday : IO timeval := λ w,
  Ret (clock (w_tick w), w <| w_tick := S (w_tick w) |>).
Definition call_random : IO Z := λ w, Ret (random (w_rand w), w <| w_rand := S (w_rand w) |>).

End calls.

(** ** Access through pointers *)

Fixpoint find_rai (id : nat) (l : list rainfo) : option rainfo :=
  match l with
  | [] => None
  | r :: l' => if (rai_id r =? id)%nat then Some r else find_rai id l'
  end.
Definition deref_rai (id : nat) : IO rainfo := λ w, r ← of_opt (find_rai id (ralist w)); Ret (r, w).
Definition upd_rai (id : nat) (f : rainfo → rainfo) : IO unit :=
  modify (λ w, w <| ralist := (λ r, if (rai_id r =? id)%nat then f r else r) <$> ralist w |>).

Fixpoint find_pfx (pid : nat) (l : list prefix) : option prefix :=
  match l with
  | [] => None
  | p :: l' => if (pfx_id p =? pid)%nat then Some p else find_pfx pid l'
  end.
(** A prefix structure lies in the list of some interface. *)
Definition all_prefixes (w : world) : list prefix := ralist w ≫= rai_prefix.
Definition deref_pfx (pid : nat) : IO prefix := λ w,
  p ← of_opt (find_pfx pid (all_prefixes w)); Ret (p, w).
Definition upd_pfx (pid : nat) (f : prefix → prefix) : IO unit :=
  modify (λ w, w <| ralist := (λ r, r <| rai_prefix :=
    (λ p, if (pfx_id p =? pid)%nat then f p else p) <$> rai_prefix r |>) <$> ralist w |>).
Definition remque_pfx (pid : nat) : IO unit :=
  modify (λ w, w <| ralist := (λ r, r <| rai_prefix :=
    filter (λ p, pfx_id p ≠ pid) (rai_prefix r) |>) <$> ralist w |>).

(** ** Timers *)

Definition queue_op (f : timer_queue callback → outcome (timer_queue callback)) : IO unit := λ w,
  q ← f (w_queue w); Ret (tt, w <| w_queue := q |>).
Definition queue_rd {A} (f : timer_queue callback → outcome A) : IO A := λ w,
  a ← f (w_queue w); Ret (a, w).

Definition w_add_timer (timeout : callback) : IO nat := λ w,
  let '(id, q) := rtadvd_add_timer timeout (w_queue w) in Ret (id, w <| w_queue := q |>).
Definition w_remove_timer (id : nat) : IO unit := queue_op (rtadvd_remove_timer id).

Section ops.
Context `{Env}.

Definition w_set_timer (tm : timeval) (id : nat) : IO unit :=
  now ← gettimeofday; queue_op (rtadvd_set_timer now tm id).
Definition w_timer_rest (id : nat) : IO timeval :=
  now ← gettimeofday; queue_rd (rtadvd_timer_rest now id).

Definition w_make_packet (id : nat) : IO unit :=
  r ← deref_rai id;
  w ← get;
  '(r', tick) ← lift (make_packet clock junk r (w_tick w));
  _ ← upd_rai id (λ _, r');
  modify (λ w, w <| w_tick := tick |>).

(** ** Prefixes *)

(** [struct in6_prefixreq], the fields that are used. *)
Record in6_prefixreq := Ipr {
  ipr_prefix : in6_addr;
  ipr_plen : Z;
  ipr_vltime : Z;
  ipr_pltime : Z;
  ipr_raf_onlink : Z;
  ipr_raf_auto : Z }.

Definition DEF_ADVVALIDLIFETIME : Z := 2592000.
Definition DEF_ADVPREFERREDLIFETIME : Z := 604800.

Definition add_prefix (rai : nat) (ipr : in6_prefixreq) : IO unit :=
  w ← get;
  let prefix := Pfx (w_next w) rai None (ipr_vltime ipr) 0 (ipr_pltime ipr) 0
                  (ipr_raf_onlink ipr) (ipr_raf_auto ipr) (ipr_plen ipr)
                  PREFIX_FROM_DYNAMIC (ipr_prefix ipr) in
  _ ← modify (λ w, w <| w_next := S (w_next w) |>);
  _ ← upd_rai rai (λ r, r <| rai_prefix := prefix :: rai_prefix r |>);
  _ ← upd_rai rai (λ r, r <| rai_ra_data := None |>);
  _ ← upd_rai rai (λ r, r <| rai_pfxs := rai_pfxs r + 1 |>);
  w_make_packet rai.

Definition delete_prefix (prefix : nat) : IO unit :=
  p ← deref_pfx prefix;
  _ ← remque_pfx prefix;
  _ ← match pfx_timer p with Some t => w_remove_timer t | None => skip end;
  upd_rai (pfx_rainfo p) (λ r, r <| rai_pfxs := rai_pfxs r - 1 |>).

(** Two hours. *)
Definition prefix_timo : Z := 60 * 120.

Definition invalidate_prefix (prefix : nat) : IO unit :=
  p ← deref_pfx prefix;
  match pfx_timer p with
  | Some _ => exit 1
  | None =>
      t ← w_add_timer (PrefixTimeout prefix);
      _ ← upd_pfx prefix (λ p, p <| pfx_timer := Some t |>);
      w_set_timer (TV prefix_timo 0) t
  end.

Definition prefix_timeout (prefix : nat) : IO bool :=
  _ ← delete_prefix prefix; mret false.

Definition update_prefix (prefix : nat) : IO unit :=
  p ← deref_pfx prefix;
  match pfx_timer p with
  | None => exit 1
  | Some t => _ ← w_remove_timer t; upd_pfx prefix (λ p, p <| pfx_timer := None |>)
  end.

(** The kernel is not asked ([#if 0]): the request gets the defaults. *)
Definition init_prefix (ipr : in6_prefixreq) : in6_prefixreq :=
  Ipr (ipr_prefix ipr) (ipr_plen ipr) DEF_ADVVALIDLIFETIME DEF_ADVPREFERREDLIFETIME 1 1.

Definition make_prefix (rai : nat) (ifindex : Z) (addr : in6_addr) (plen : Z) : IO unit :=
  match if_indextoname ifindex with
  | None => exit 1
  | Some _ => add_prefix rai (init_prefix (Ipr addr plen 0 0 0 0))
  end.

End ops.

Fixpoint find_prefix (l : list prefix) (prefix : in6_addr) (plen : Z) : option Rainfo.prefix :=
  match l with
  | [] => None
  | pp :: l' =>
      if negb (plen =? pfx_prefixlen pp) then find_prefix l' prefix plen
      else if prefix_bits_eq prefix (pfx_prefix pp) plen then Some pp
      else find_prefix l' prefix plen
  end.

Fixpoint if_indextorainfo (idx : Z) (l : list rainfo) : option rainfo :=
  match l with
  | [] => None
  | r :: l' => if rai_ifindex r =? idx then Some r else if_indextorainfo idx l'
  end.
