(* ===== verification/RaInv.v ===== *)
(** * RaInv: the invariant of rtadvd's state

    The pointer structure of the daemon: interfaces, prefixes and timers refer
    to each other by address. [world_wf] says that every pointer that is
    followed is valid, and the lemmas show that the operations of RaState.v
    preserve it. The part about pointers is stated on the shape of the state,
    so that the many assignments that do not touch a pointer keep it for free. *)

From S2P Require Import Prelude Timeval In6 NdOpt RaTimer RtMsg Rainfo RaState.

(** ** The shape of the state *)

(** A prefix: its address, its interface and its timer. *)
Abbreviation pshape := (nat * nat * option nat)%type.
Definition shape_pfx (p : prefix) : pshape := (pfx_id p, pfx_rainfo p, pfx_timer p).

(** An interface: its address, its index, its M and O flags, its timer and its
    prefixes. *)
Record rshape := RShape {
  sh_id : nat;
  sh_ifindex : Z;
  sh_flags : Z * Z;
  sh_timer : option nat;
  sh_prefix : list pshape }.
Definition shape_rai (r : rainfo) : rshape :=
  RShape (rai_id r) (rai_ifindex r) (rai_managedflg r, rai_otherflg r) (rai_timer r) (shape_pfx <$> rai_prefix r).

Definition entry (t : rtadvd_timer callback) : nat * callback := (tm_id t, tm_expire t).

Definition sh_prefixes (rs : list rshape) : list pshape := rs ≫= sh_prefix.

(** Valid pointers. [es] are the timers with what they call, [tnext] and
    [pnext] the next addresses. *)
Record shape_wf (rs : list rshape) (es : list (nat * callback)) (tnext pnext : nat) : Prop := {
  sw_rai : NoDup (sh_id <$> rs);
  sw_pfx : NoDup (sh_prefixes rs).*1.*1;
  sw_timer : NoDup es.*1;
  sw_tnext : ∀ t cb, (t, cb) ∈ es → (t < tnext)%nat;
  sw_pnext : ∀ pid rid tm, (pid, rid, tm) ∈ sh_prefixes rs → (pid < pnext)%nat;
  sw_back : ∀ r pid rid tm, r ∈ rs → (pid, rid, tm) ∈ sh_prefix r → rid = sh_id r;
  sw_rai_timer : ∀ r t, r ∈ rs → sh_timer r = Some t → (t, RaTimeout (sh_id r)) ∈ es;
  sw_pfx_timer : ∀ pid rid t, (pid, rid, Some t) ∈ sh_prefixes rs → (t, PrefixTimeout pid) ∈ es;
  sw_rai_entry : ∀ t id, (t, RaTimeout id) ∈ es → ∃ r, r ∈ rs ∧ sh_id r = id;
  sw_pfx_entry : ∀ t pid, (t, PrefixTimeout pid) ∈ es → ∃ rid, (pid, rid, Some t) ∈ sh_prefixes rs }.

(** An interface that can send: a packet can be built and the interval drawn. *)
Record rai_ok (r : rainfo) : Prop := {
  rai_ok_wf : rai_wf r;
  rai_ok_interval : 0 < rai_mininterval r < rai_maxinterval r ∧ rai_maxinterval r < 2 ^ 32 }.

Definition w_shape (w : world) : list rshape := shape_rai <$> ralist w.
Definition w_entries (w : world) : list (nat * callback) := entry <$> tq_list (w_queue w).

Record world_wf (w : world) : Prop := {
  ww_shape : shape_wf (w_shape w) (w_entries w) (tq_next (w_queue w)) (w_next w);
  ww_rai : Forall rai_ok (ralist w) }.

(** ** Looking pointers up *)

Lemma find_rai_Some id l r : find_rai id l = Some r → r ∈ l ∧ rai_id r = id.
Proof.
  induction l as [|x l IH]; simpl; [done|]. destruct (Nat.eqb_spec (rai_id x) id).
  - intros [= <-]. split; [apply list_elem_of_here|done].
  - intros H. destruct (IH H). split; [by right|done].
Qed.

Lemma find_rai_elem l r : NoDup (rai_id <$> l) → r ∈ l → find_rai (rai_id r) l = Some r.
Proof.
  induction l as [|x l IH]; csimpl; intros Hn Hr; [by apply elem_of_nil in Hr|].
  apply NoDup_cons in Hn as [Hx Hn]. simpl. apply elem_of_cons in Hr as [->|Hr].
  - by rewrite Nat.eqb_refl.
  - rewrite (proj2 (Nat.eqb_neq _ _)); [by apply IH|]. intros E. apply Hx. rewrite E.
    by apply list_elem_of_fmap_2.
Qed.

Lemma find_pfx_elem l p : NoDup (pfx_id <$> l) → p ∈ l → find_pfx (pfx_id p) l = Some p.
Proof.
  induction l as [|x l IH]; csimpl; intros Hn Hr; [by apply elem_of_nil in Hr|].
  apply NoDup_cons in Hn as [Hx Hn]. simpl. apply elem_of_cons in Hr as [->|Hr].
  - by rewrite Nat.eqb_refl.
  - rewrite (proj2 (Nat.eqb_neq _ _)); [by apply IH|]. intros E. apply Hx. rewrite E.
    by apply list_elem_of_fmap_2.
Qed.

Lemma find_pfx_Some pid l p : find_pfx pid l = Some p → p ∈ l ∧ pfx_id p = pid.
Proof.
  induction l as [|x l IH]; simpl; [done|]. destruct (Nat.eqb_spec (pfx_id x) pid).
  - intros [= <-]. split; [apply list_elem_of_here|done].
  - intros H. destruct (IH H). split; [by right|done].
Qed.

Lemma shape_prefixes w : sh_prefixes (w_shape w) = shape_pfx <$> all_prefixes w.
Proof.
  unfold sh_prefixes, w_shape, all_prefixes. induction (ralist w) as [|r l IH]; [done|].
  csimpl. by rewrite fmap_app, <- IH.
Qed.

Lemma shape_ids w : sh_id <$> w_shape w = rai_id <$> ralist w.
Proof. unfold w_shape. by rewrite <- list_fmap_compose. Qed.

Lemma prefixes_ids w : (sh_prefixes (w_shape w)).*1.*1 = pfx_id <$> all_prefixes w.
Proof. rewrite shape_prefixes, <- !list_fmap_compose. done. Qed.

Lemma entries_ids w : (w_entries w).*1 = tm_id <$> tq_list (w_queue w).
Proof. unfold w_entries. by rewrite <- list_fmap_compose. Qed.

Lemma all_prefixes_elem w p : p ∈ all_prefixes w ↔ ∃ r, r ∈ ralist w ∧ p ∈ rai_prefix r.
Proof. unfold all_prefixes. rewrite list_elem_of_bind. split; intros (r & ? & ?); eauto. Qed.

(** ** Operations on shapes *)

Definition map_rai (id : nat) (f : rshape → rshape) (rs : list rshape) : list rshape :=
  (λ r, if (sh_id r =? id)%nat then f r else r) <$> rs.
Definition with_timer (t : option nat) (r : rshape) : rshape :=
  RShape (sh_id r) (sh_ifindex r) (sh_flags r) t (sh_prefix r).
Definition with_prefixes (f : list pshape → list pshape) (r : rshape) : rshape :=
  RShape (sh_id r) (sh_ifindex r) (sh_flags r) (sh_timer r) (f (sh_prefix r)).
Definition retime (pid : nat) (t : option nat) (p : pshape) : pshape :=
  if (p.1.1 =? pid)%nat then (p.1, t) else p.
Definition without {A} (t : nat) (es : list (nat * A)) : list (nat * A) := filter (λ e, e.1 ≠ t) es.
Definition without_pfx (pid : nat) (ps : list pshape) : list pshape := filter (λ p, p.1.1 ≠ pid) ps.

Lemma elem_of_without {A} t (es : list (nat * A)) e : e ∈ without t es ↔ e ∈ es ∧ e.1 ≠ t.
Proof. unfold without. rewrite list_elem_of_filter. tauto. Qed.

Lemma elem_of_map_rai id f rs r :
  r ∈ map_rai id f rs ↔ ∃ r0, r0 ∈ rs ∧ r = if (sh_id r0 =? id)%nat then f r0 else r0.
Proof. unfold map_rai. rewrite list_elem_of_fmap. split; intros (r0 & ? & ?); eauto. Qed.

Lemma map_rai_ids id f rs : (∀ r, sh_id (f r) = sh_id r) → sh_id <$> map_rai id f rs = sh_id <$> rs.
Proof.
  intros Hf. unfold map_rai. rewrite <- list_fmap_compose. apply list_fmap_ext.
  intros i r _. simpl. by destruct (sh_id r =? id)%nat.
Qed.

Lemma map_rai_prefixes id f rs :
  (∀ r, sh_prefix (f r) = sh_prefix r) → sh_prefixes (map_rai id f rs) = sh_prefixes rs.
Proof.
  intros Hf. induction rs as [|r rs IH]; [done|]. unfold sh_prefixes, map_rai in *. csimpl.
  rewrite IH. by destruct (sh_id r =? id)%nat; rewrite ?Hf.
Qed.

Lemma NoDup_fst_inj {A} (es : list (nat * A)) t a b :
  NoDup es.*1 → (t, a) ∈ es → (t, b) ∈ es → a = b.
Proof.
  induction es as [|[t' a'] es IH]; csimpl; intros Hn Ha Hb; [by apply elem_of_nil in Ha|].
  apply NoDup_cons in Hn as [Hni Hn].
  apply elem_of_cons in Ha. apply elem_of_cons in Hb.
  destruct Ha as [Ea|Ha], Hb as [Eb|Hb]; simplify_eq; auto;
    destruct Hni; apply list_elem_of_fmap; eexists; by split; [|done].
Qed.

Lemma NoDup_without {A} t (es : list (nat * A)) : NoDup es.*1 → NoDup (without t es).*1.
Proof.
  intros Hn. unfold without. induction es as [|e es IH]; csimpl in *; [constructor|].
  apply NoDup_cons in Hn as [Hni Hn]. rewrite filter_cons. case_decide; [|auto].
  csimpl. apply NoDup_cons. split; [|auto]. intros Hin. apply Hni.
  apply list_elem_of_fmap in Hin as (e' & -> & He'). apply list_elem_of_filter in He' as [_ He'].
  by apply list_elem_of_fmap_2.
Qed.

(** The identity of an interface: its address, its index and its flags. *)
Abbreviation ident := (nat * (Z * (Z * Z)))%type.
Definition sh_key (r : rshape) : ident := (sh_id r, (sh_ifindex r, sh_flags r)).

Lemma map_rai_keys id f rs :
  (∀ r, sh_key (f r) = sh_key r) → sh_key <$> map_rai id f rs = sh_key <$> rs.
Proof.
  intros Hf. unfold map_rai. rewrite <- list_fmap_compose. apply list_fmap_ext.
  intros i r _. simpl. by destruct (sh_id r =? id)%nat.
Qed.

Section shapes.
Context (rs : list rshape) (es : list (nat * callback)) (tnext pnext : nat).
Context (Hw : shape_wf rs es tnext pnext).

Lemma fresh_timer cb : (tnext, cb) ∉ es.
Proof. intros Hin. apply (sw_tnext _ _ _ _ Hw) in Hin. lia. Qed.

Lemma NoDup_fresh cb : NoDup ((tnext, cb) :: es).*1.
Proof.
  csimpl. apply NoDup_cons. split; [|apply Hw]. intros Hin.
  apply list_elem_of_fmap in Hin as ([t cb'] & E & Hin). simpl in E. subst t.
  by apply (fresh_timer cb').
Qed.

(** Starting a timer of an interface. *)
Lemma shape_start id :
  id ∈ sh_id <$> rs →
  shape_wf (map_rai id (with_timer (Some tnext)) rs) ((tnext, RaTimeout id) :: es) (S tnext) pnext.
Proof.
  intros Hid. pose proof Hw as []. constructor.
  - by rewrite map_rai_ids.
  - by rewrite map_rai_prefixes.
  - apply NoDup_fresh.
  - intros t cb [[= -> ->]|Hin]%elem_of_cons; [lia|]. apply sw_tnext0 in Hin. lia.
  - rewrite map_rai_prefixes by done. eauto.
  - intros r pid rid tm Hr Hp. apply elem_of_map_rai in Hr as (r0 & Hr0 & ->).
    destruct (sh_id r0 =? id)%nat; eauto. simpl in *. by eapply (sw_back0 r0).
  - intros r t Hr Ht. apply elem_of_map_rai in Hr as (r0 & Hr0 & ->).
    destruct (Nat.eqb_spec (sh_id r0) id) as [<-|]; simpl in *.
    + simplify_eq. apply list_elem_of_here.
    + right. eauto.
  - intros pid rid t. rewrite map_rai_prefixes by done. intros Hp. right. eauto.
  - intros t id' Hin. assert (Hid' : id' ∈ sh_id <$> rs).
    { apply elem_of_cons in Hin as [[= -> ->]|Hin]; [done|].
      destruct (sw_rai_entry0 _ _ Hin) as (r & Hr & <-). by apply list_elem_of_fmap_2. }
    rewrite <- (map_rai_ids id (with_timer (Some tnext))) in Hid' by done.
    apply list_elem_of_fmap in Hid' as (r & -> & ?). eauto.
  - intros t pid [?|Hin]%elem_of_cons; [done|]. rewrite map_rai_prefixes by done. eauto.
Qed.

(** Stopping it. *)
Lemma shape_stop r t :
  r ∈ rs → sh_timer r = Some t →
  shape_wf (map_rai (sh_id r) (with_timer None) rs) (without t es) tnext pnext.
Proof.
  intros Hr Ht. pose proof Hw as []. constructor.
  - by rewrite map_rai_ids.
  - by rewrite map_rai_prefixes.
  - by apply NoDup_without.
  - intros t' cb [Hin _]%elem_of_without. eauto.
  - rewrite map_rai_prefixes by done. eauto.
  - intros r' pid rid tm Hr' Hp. apply elem_of_map_rai in Hr' as (r0 & Hr0 & ->).
    destruct (sh_id r0 =? _)%nat; eauto. simpl in *. by eapply (sw_back0 r0).
  - intros r' t' Hr' Ht'. apply elem_of_map_rai in Hr' as (r0 & Hr0 & ->).
    destruct (Nat.eqb_spec (sh_id r0) (sh_id r)) as [|Hne]; [done|].
    apply elem_of_without. split; [eauto|]. simpl. intros ->.
    assert (E := NoDup_fst_inj es t _ _ sw_timer0 (sw_rai_timer0 _ _ Hr0 Ht') (sw_rai_timer0 _ _ Hr Ht)).
    by simplify_eq.
  - intros pid rid t'. rewrite map_rai_prefixes by done. intros Hp. apply elem_of_without.
    split; [eauto|]. simpl. intros ->.
    by assert (E := NoDup_fst_inj es t _ _ sw_timer0 (sw_pfx_timer0 _ _ _ Hp) (sw_rai_timer0 _ _ Hr Ht)).
  - intros t' id' [Hin _]%elem_of_without. destruct (sw_rai_entry0 _ _ Hin) as (r0 & Hr0 & <-).
    assert (Hid : sh_id r0 ∈ sh_id <$> map_rai (sh_id r) (with_timer None) rs).
    { rewrite map_rai_ids by done. by apply list_elem_of_fmap_2. }
    apply list_elem_of_fmap in Hid as (r1 & -> & ?). eauto.
  - intros t' pid [Hin _]%elem_of_without. rewrite map_rai_prefixes by done. eauto.
Qed.

End shapes.

Lemma prefixes_map_pfx g rs :
  sh_prefixes (with_prefixes (fmap g) <$> rs) = g <$> sh_prefixes rs.
Proof.
  unfold sh_prefixes. induction rs as [|r rs IH]; [done|]. csimpl. by rewrite IH, fmap_app.
Qed.

Lemma prefixes_without pid rs :
  sh_prefixes (with_prefixes (without_pfx pid) <$> rs) = without_pfx pid (sh_prefixes rs).
Proof.
  unfold sh_prefixes, without_pfx. induction rs as [|r rs IH]; [done|]. csimpl.
  by rewrite IH, filter_app.
Qed.

Lemma map_rai_absent id f rs : id ∉ sh_id <$> rs → map_rai id f rs = rs.
Proof.
  unfold map_rai. induction rs as [|r rs IH]; [done|]. csimpl. intros Hid.
  apply not_elem_of_cons in Hid as [Hne Hid]. rewrite IH by done.
  by rewrite (proj2 (Nat.eqb_neq _ _)) by congruence.
Qed.

Lemma prefixes_cons id x rs :
  NoDup (sh_id <$> rs) → id ∈ sh_id <$> rs →
  sh_prefixes (map_rai id (with_prefixes (cons x)) rs) ≡ₚ x :: sh_prefixes rs.
Proof.
  induction rs as [|r rs IH]; csimpl; intros Hn Hid; [by apply elem_of_nil in Hid|].
  apply NoDup_cons in Hn as [Hni Hn]. unfold sh_prefixes, map_rai in *. csimpl.
  destruct (Nat.eqb_spec (sh_id r) id) as [E|Hne].
  - csimpl. fold (map_rai id (with_prefixes (cons x)) rs). rewrite E in Hni. by rewrite map_rai_absent.
  - apply elem_of_cons in Hid as [?|Hid]; [done|]. rewrite (IH Hn Hid).
    by rewrite Permutation_middle.
Qed.

Lemma with_prefixes_ids f (rs : list rshape) : sh_id <$> (with_prefixes f <$> rs) = sh_id <$> rs.
Proof. by rewrite <- list_fmap_compose. Qed.

Lemma retime_ids pid t (ps : list pshape) : (retime pid t <$> ps).*1.*1 = ps.*1.*1.
Proof.
  rewrite <- !list_fmap_compose. apply list_fmap_ext. intros i [[p rid] tm] _.
  unfold retime; simpl. by destruct (p =? pid)%nat.
Qed.

Lemma elem_of_retime pid t (ps : list pshape) p rid tm :
  (p, rid, tm) ∈ retime pid t <$> ps ↔
  (p = pid ∧ tm = t ∧ ∃ tm0, (p, rid, tm0) ∈ ps) ∨ (p ≠ pid ∧ (p, rid, tm) ∈ ps).
Proof.
  rewrite list_elem_of_fmap. unfold retime. split.
  - intros ([[p' rid'] tm'] & E & Hin). simpl in E.
    destruct (Nat.eqb_spec p' pid); simplify_eq; [left; eauto|by right].
  - intros [(-> & -> & tm0 & Hin)|[Hne Hin]].
    + exists (pid, rid, tm0). simpl. by rewrite Nat.eqb_refl.
    + exists (p, rid, tm). simpl. by rewrite (proj2 (Nat.eqb_neq _ _)).
Qed.

Lemma pfx_inj (ps : list pshape) pid rid rid' tm tm' :
  NoDup ps.*1.*1 → (pid, rid, tm) ∈ ps → (pid, rid', tm') ∈ ps → rid = rid' ∧ tm = tm'.
Proof.
  intros Hn H1 H2.
  assert (E : (rid, tm) = (rid', tm')); [|by simplify_eq].
  eapply (NoDup_fst_inj ((λ p, (p.1.1, (p.1.2, p.2))) <$> ps) pid).
  - replace (((λ p, (p.1.1, (p.1.2, p.2))) <$> ps).*1) with ps.*1.*1; [done|].
    clear. induction ps as [|[[??]?] ps IH]; [done|]. csimpl. by rewrite IH.
  - apply list_elem_of_fmap. by exists (pid, rid, tm).
  - apply list_elem_of_fmap. by exists (pid, rid', tm').
Qed.

(** Back pointers after a change of the prefix lists. *)
Lemma back_with_prefixes f (rs : list rshape) :
  (∀ r pid rid (tm : option nat), r ∈ rs → (pid, rid, tm) ∈ sh_prefix r → rid = sh_id r) →
  (∀ ps pid rid tm, (pid, rid, tm) ∈ f ps → ∃ tm0, (pid, rid, tm0) ∈ ps) →
  ∀ r pid rid (tm : option nat), r ∈ with_prefixes f <$> rs → (pid, rid, tm) ∈ sh_prefix r → rid = sh_id r.
Proof.
  intros Hb Hf r pid rid tm Hr Hp. apply list_elem_of_fmap in Hr as (r0 & -> & Hr0).
  simpl in *. destruct (Hf _ _ _ _ Hp) as [tm0 Hp0]. eauto.
Qed.

Section shapes2.
Context (rs : list rshape) (es : list (nat * callback)) (tnext pnext : nat).
Context (Hw : shape_wf rs es tnext pnext).

(** Interfaces keep their timers when the prefix lists change. *)
Lemma rai_timers_with_prefixes f r t :
  r ∈ with_prefixes f <$> rs → sh_timer r = Some t → (t, RaTimeout (sh_id r)) ∈ es.
Proof.
  intros Hr Ht. apply list_elem_of_fmap in Hr as (r0 & -> & Hr0).
  by apply (sw_rai_timer _ _ _ _ Hw r0).
Qed.
Lemma rai_entries_with_prefixes f t id :
  (t, RaTimeout id) ∈ es → ∃ r, r ∈ with_prefixes f <$> rs ∧ sh_id r = id.
Proof.
  intros Hin. destruct (sw_rai_entry _ _ _ _ Hw _ _ Hin) as (r & Hr & <-).
  exists (with_prefixes f r). split; [by apply list_elem_of_fmap_2|done].
Qed.

(** A new prefix. *)
Lemma shape_add id :
  id ∈ sh_id <$> rs →
  shape_wf (map_rai id (with_prefixes (cons (pnext, id, None))) rs) es tnext (S pnext).
Proof.
  intros Hid. pose proof Hw as [].
  assert (Hp := prefixes_cons id (pnext, id, None) rs sw_rai0 Hid). constructor.
  - by rewrite map_rai_ids.
  - rewrite Hp. csimpl. apply NoDup_cons. split; [|done]. intros Hin.
    rewrite <- list_fmap_compose in Hin. apply list_elem_of_fmap in Hin as ([[p rid] tm] & E & Hin).
    apply sw_pnext0 in Hin. simpl in E. lia.
  - done.
  - done.
  - intros p rid tm. rewrite Hp. intros [[= -> -> ->]|Hin]%elem_of_cons; [lia|].
    apply sw_pnext0 in Hin. lia.
  - intros r p rid tm Hr Hin. apply elem_of_map_rai in Hr as (r0 & Hr0 & ->).
    destruct (Nat.eqb_spec (sh_id r0) id) as [<-|]; [|eauto]. simpl in *.
    apply elem_of_cons in Hin as [[= -> -> ->]|Hin]; [done|eauto].
  - intros r t Hr Ht. apply elem_of_map_rai in Hr as (r0 & Hr0 & ->).
    destruct (sh_id r0 =? id)%nat; [|eauto]. by apply (sw_rai_timer0 r0).
  - intros p rid t. rewrite Hp. intros [?|Hin]%elem_of_cons; [done|eauto].
  - intros t id' Hin. destruct (sw_rai_entry0 _ _ Hin) as (r0 & Hr0 & <-).
    eexists. split; [apply elem_of_map_rai; eauto|]. by destruct (sh_id r0 =? id)%nat.
  - intros t pid Hin. destruct (sw_pfx_entry0 _ _ Hin) as [rid ?]. exists rid. rewrite Hp. by right.
Qed.

(** A prefix gets a fresh timer. *)
Lemma shape_invalidate pid rid :
  (pid, rid, None) ∈ sh_prefixes rs →
  shape_wf (with_prefixes (fmap (retime pid (Some tnext))) <$> rs)
    ((tnext, PrefixTimeout pid) :: es) (S tnext) pnext.
Proof.
  intros Hin. pose proof Hw as []. constructor; rewrite ?with_prefixes_ids; try done.
  - by rewrite prefixes_map_pfx, retime_ids.
  - eapply NoDup_fresh, Hw.
  - intros t cb [[= -> ->]|Ht]%elem_of_cons; [lia|]. apply sw_tnext0 in Ht. lia.
  - intros p r0 tm. rewrite prefixes_map_pfx, elem_of_retime.
    intros [(-> & _ & tm0 & ?)|[_ ?]]; eauto.
  - apply back_with_prefixes; [done|]. intros ps p r0 tm. rewrite elem_of_retime. naive_solver.
  - intros r t Hr Ht. right. by eapply rai_timers_with_prefixes.
  - intros p r0 t. rewrite prefixes_map_pfx, elem_of_retime.
    intros [(-> & [= <-] & _)|[_ ?]]; [apply list_elem_of_here|right; eauto].
  - intros t id [?|Ht]%elem_of_cons; [done|]. by eapply rai_entries_with_prefixes.
  - intros t p Ht. rewrite prefixes_map_pfx. setoid_rewrite elem_of_retime.
    apply elem_of_cons in Ht as [[= -> ->]|Ht]; [exists rid; left; eauto|].
    destruct (sw_pfx_entry0 _ _ Ht) as [r0 Hr0]. exists r0. right. split; [|done].
    intros ->. by destruct (pfx_inj _ _ _ _ _ _ sw_pfx0 Hr0 Hin).
Qed.

(** A prefix loses its timer. *)
Lemma shape_update pid rid t :
  (pid, rid, Some t) ∈ sh_prefixes rs →
  shape_wf (with_prefixes (fmap (retime pid None)) <$> rs) (without t es) tnext pnext.
Proof.
  intros Hin. pose proof Hw as []. constructor; rewrite ?with_prefixes_ids; try done.
  - by rewrite prefixes_map_pfx, retime_ids.
  - by apply NoDup_without.
  - intros t' cb [Ht _]%elem_of_without. eauto.
  - intros p r0 tm. rewrite prefixes_map_pfx, elem_of_retime.
    intros [(-> & _ & tm0 & ?)|[_ ?]]; eauto.
  - apply back_with_prefixes; [done|]. intros ps p r0 tm. rewrite elem_of_retime. naive_solver.
  - intros r t' Hr Ht. apply elem_of_without.
    assert (Ht' := rai_timers_with_prefixes _ _ _ Hr Ht). split; [done|]. simpl. intros ->.
    by assert (E := NoDup_fst_inj es t _ _ sw_timer0 Ht' (sw_pfx_timer0 _ _ _ Hin)).
  - intros p r0 t'. rewrite prefixes_map_pfx, elem_of_retime. intros [(_ & ? & _)|[Hne Hp]]; [done|].
    apply elem_of_without. split; [eauto|]. simpl. intros ->.
    assert (E := NoDup_fst_inj es t _ _ sw_timer0 (sw_pfx_timer0 _ _ _ Hp) (sw_pfx_timer0 _ _ _ Hin)).
    by simplify_eq.
  - intros t' id [Ht _]%elem_of_without. by eapply rai_entries_with_prefixes.
  - intros t' p [Ht Hne]%elem_of_without. simpl in Hne. rewrite prefixes_map_pfx.
    setoid_rewrite elem_of_retime. destruct (sw_pfx_entry0 _ _ Ht) as [r0 Hr0]. exists r0. right.
    split; [|done]. intros ->. destruct (pfx_inj _ _ _ _ _ _ sw_pfx0 Hr0 Hin). by simplify_eq.
Qed.

(** A prefix is deleted, with its timer if it has one. *)
Lemma shape_delete pid rid tm :
  (pid, rid, tm) ∈ sh_prefixes rs →
  shape_wf (with_prefixes (without_pfx pid) <$> rs)
    (match tm with Some t => without t es | None => es end) tnext pnext.
Proof.
  intros Hin. pose proof Hw as [].
  set (es' := match tm with Some t => without t es | None => es end).
  assert (Hes : ∀ e, e ∈ es' ↔ e ∈ es ∧ tm ≠ Some e.1).
  { intros e. unfold es'. destruct tm as [t|]; [|naive_solver]. rewrite elem_of_without. naive_solver. }
  assert (Hp : ∀ p r0 tm0, (p, r0, tm0) ∈ without_pfx pid (sh_prefixes rs) ↔
                 p ≠ pid ∧ (p, r0, tm0) ∈ sh_prefixes rs).
  { intros. unfold without_pfx. by rewrite list_elem_of_filter. }
  constructor; rewrite ?with_prefixes_ids, ?prefixes_without; try done.
  - unfold without_pfx. rewrite <- list_fmap_compose in *.
    eapply sublist_NoDup; [exact sw_pfx0|]. apply fmap_sublist, sublist_filter.
  - unfold es'. destruct tm; [by apply NoDup_without|done].
  - intros t cb [Ht _]%Hes. eauto.
  - intros p r0 tm0 [_ ?]%Hp. eauto.
  - apply back_with_prefixes; [done|]. intros ps p r0 tm0. unfold without_pfx.
    rewrite list_elem_of_filter. naive_solver.
  - intros r t Hr Ht. apply Hes. assert (Ht' := rai_timers_with_prefixes _ _ _ Hr Ht).
    split; [done|]. simpl. intros ->.
    by assert (E := NoDup_fst_inj es t _ _ sw_timer0 Ht' (sw_pfx_timer0 _ _ _ Hin)).
  - intros p r0 t [Hne Hpp]%Hp. apply Hes. split; [eauto|]. simpl. intros ->.
    assert (E := NoDup_fst_inj es t _ _ sw_timer0 (sw_pfx_timer0 _ _ _ Hpp) (sw_pfx_timer0 _ _ _ Hin)).
    by simplify_eq.
  - intros t id [Ht _]%Hes. by eapply rai_entries_with_prefixes.
  - intros t p [Ht Hne]%Hes. destruct (sw_pfx_entry0 _ _ Ht) as [r0 Hr0]. exists r0. apply Hp.
    split; [|done]. intros ->. by destruct (pfx_inj _ _ _ _ _ _ sw_pfx0 Hr0 Hin); simplify_eq.
Qed.

End shapes2.

(** ** The invariant of the state *)

(** The first interface with a given index, on shapes. *)
Fixpoint first_shape (idx : Z) (rs : list rshape) : option rshape :=
  match rs with
  | [] => None
  | r :: rs' => if sh_ifindex r =? idx then Some r else first_shape idx rs'
  end.

(** The interfaces in [needs] (by index) have a timer. *)
Definition have_timers (needs : Z → bool) (rs : list rshape) : Prop :=
  ∀ idx r, first_shape idx rs = Some r → needs idx = true → is_Some (sh_timer r).

(** Whether an interface is listed and up. *)
Definition listed_up (ifl : ifilist) (idx : Z) : bool :=
  match get_interface_entry idx ifl with
  | Some ifm => is_up (ifm_flags ifm)
  | None => false
  end.

(** [ids] are the identities of the interfaces, which never change, and [needs]
    tells which of them must have a timer: [listed_up (w_ifilist w)] between
    the events the daemon handles. *)
Record Inv (ids : list ident) (needs : Z → bool) (w : world) : Prop := {
  inv_wf : world_wf w;
  inv_up : have_timers needs (w_shape w);
  inv_ids : sh_key <$> w_shape w = ids }.

(** A change that touches no pointer, address or interface flag. *)
Record quiet (w w' : world) : Prop := {
  quiet_shape : w_shape w' = w_shape w;
  quiet_entries : w_entries w' = w_entries w;
  quiet_tnext : tq_next (w_queue w') = tq_next (w_queue w);
  quiet_pnext : w_next w' = w_next w;
  quiet_ifl : w_ifilist w' = w_ifilist w;
  quiet_ok : Forall rai_ok (ralist w) → Forall rai_ok (ralist w') }.

#[export] Instance quiet_preorder : PreOrder quiet.
Proof.
  split.
  - intros w. by constructor.
  - intros w1 w2 w3 [] []. constructor; congruence || auto.
Qed.

Lemma quiet_Inv ids needs w w' : quiet w w' → Inv ids needs w → Inv ids needs w'.
Proof.
  intros Hq [[Hs Hr] Hu Hi]. constructor.
  - constructor; [|by apply Hq]. by rewrite (quiet_shape _ _ Hq), (quiet_entries _ _ Hq),
      (quiet_tnext _ _ Hq), (quiet_pnext _ _ Hq).
  - by rewrite (quiet_shape _ _ Hq).
  - by rewrite (quiet_shape _ _ Hq).
Qed.

(** The same, with the queue untouched too. *)
Definition still (w w' : world) : Prop := quiet w w' ∧ w_queue w' = w_queue w.

#[export] Instance still_preorder : PreOrder still.
Proof.
  split.
  - by intros w.
  - intros w1 w2 w3 [? ?] [? ?]. split; [by etrans|congruence].
Qed.

(** The lemmas below hold for both relations. *)
Class CalmRel (R : relation world) := {
  calm_preorder :: PreOrder R;
  still_calm : ∀ w w', still w w' → R w w';
  calm_quiet : ∀ w w', R w w' → quiet w w' }.
#[export] Instance still_rel : CalmRel still.
Proof. split; [apply _|done|by intros ?? []]. Qed.
#[export] Instance quiet_rel : CalmRel quiet.
Proof. split; [apply _|by intros ?? []|done]. Qed.

(** [m] returns from [w], with a change in [R]. *)
Definition calm {A} (R : relation world) (w : world) (m : IO A) : Prop :=
  ∃ a w', m w = Ret (a, w') ∧ R w w'.

Lemma calm_bind {A B} R `{!CalmRel R} w (m : IO A) (f : A → IO B) :
  calm R w m → (∀ a w', m w = Ret (a, w') → R w w' → calm R w' (f a)) → calm R w (m ≫= f).
Proof.
  intros (a & w1 & E1 & Q1) Hf. destruct (Hf a w1 E1 Q1) as (b & w2 & E2 & Q2).
  exists b, w2. split; [by rewrite (bind_run _ _ _ _ _ E1)|by etrans].
Qed.

Lemma calm_run {A B} R w (m : IO A) (f : A → IO B) a :
  m w = Ret (a, w) → calm R w (f a) → calm R w (m ≫= f).
Proof. intros E H. unfold calm. by rewrite (bind_run _ _ _ _ _ E). Qed.

Lemma calm_ret {A} R `{!CalmRel R} w (a : A) : calm R w (mret a).
Proof. by exists a, w. Qed.
Lemma calm_skip R `{!CalmRel R} w : calm R w skip.
Proof. by exists tt, w. Qed.
Lemma calm_Inv ids needs R `{!CalmRel R} w w' : R w w' → Inv ids needs w → Inv ids needs w'.
Proof. intros HR. apply quiet_Inv. by apply calm_quiet. Qed.

(** Updating one interface without touching its shape. *)
Lemma upd_rai_quiet id (f : rainfo → rainfo) w :
  (∀ r, shape_rai (f r) = shape_rai r) →
  (∀ r, find_rai id (ralist w) = Some r → rai_ok r → rai_ok (f r)) →
  NoDup (rai_id <$> ralist w) →
  quiet w (w <| ralist := (λ r, if (rai_id r =? id)%nat then f r else r) <$> ralist w |>).
Proof.
  intros Hs Hok Hn. constructor; simpl; try done.
  - unfold w_shape. simpl. rewrite <- list_fmap_compose. apply list_fmap_ext.
    intros i r _. simpl. destruct (rai_id r =? id)%nat; [apply Hs|done].
  - intros Hf. apply Forall_fmap. apply Forall_forall. intros r Hr. simpl.
    assert (Hr' : rai_ok r) by (by eapply Forall_forall in Hf).
    destruct (Nat.eqb_spec (rai_id r) id) as [<-|]; [|done]. apply Hok; [|done].
    by apply find_rai_elem.
Qed.

Section primitives.
Context `{Env} (ids : list ident) (needs : Z → bool) (R : relation world) `{!CalmRel R}.

Lemma Inv_nodup w : Inv ids needs w → NoDup (rai_id <$> ralist w).
Proof. intros [[[] _] _ _]. by rewrite <- shape_ids. Qed.

Lemma Inv_rai_ids w : Inv ids needs w → rai_id <$> ralist w = ids.*1.
Proof. intros [_ _ <-]. rewrite <- shape_ids, <- list_fmap_compose. done. Qed.

Lemma deref_rai_run w id :
  Inv ids needs w → id ∈ ids.*1 →
  ∃ r, find_rai id (ralist w) = Some r ∧ deref_rai id w = Ret (r, w) ∧ r ∈ ralist w ∧
       rai_id r = id ∧ rai_ok r.
Proof.
  intros Hi Hid. pose proof (Inv_nodup w Hi) as Hn. rewrite <- (Inv_rai_ids w Hi) in Hid.
  apply list_elem_of_fmap in Hid as (r & -> & Hr). exists r.
  assert (E := find_rai_elem _ _ Hn Hr). unfold deref_rai. rewrite E. split_and!; try done.
  by eapply Forall_forall in Hr; [|apply Hi].
Qed.

Lemma calm_upd_rai w id f :
  Inv ids needs w → (∀ r, shape_rai (f r) = shape_rai r) →
  (∀ r, find_rai id (ralist w) = Some r → rai_ok r → rai_ok (f r)) → calm R w (upd_rai id f).
Proof.
  intros Hi Hs Hok. eexists _, _. split; [done|]. apply still_calm. split; [|done].
  apply upd_rai_quiet; [done..|]. by apply Inv_nodup.
Qed.

Lemma calm_time w : calm R w gettimeofday.
Proof. eexists _, _. split; [done|]. apply still_calm. split; [|done]. by constructor. Qed.
Lemma calm_random w : calm R w call_random.
Proof. eexists _, _. split; [done|]. apply still_calm. split; [|done]. by constructor. Qed.
Lemma calm_sent w x : calm R w (modify (λ w, w <| w_sent := x :: w_sent w |>)).
Proof. eexists _, _. split; [done|]. apply still_calm. split; [|done]. by constructor. Qed.

(** Fields the packet does not depend on keep an interface able to send. *)
Lemma with_packet_ok r pkt : rai_ok r → rai_ok (with_packet r pkt).
Proof.
  intros [Hw Hi]. constructor; [|done]. apply settled_wf in Hw. destruct Hw. by constructor.
Qed.

Lemma find_rai_upd id f l r :
  (∀ r, rai_id (f r) = rai_id r) → find_rai id l = Some r →
  find_rai id ((λ r, if (rai_id r =? id)%nat then f r else r) <$> l) = Some (f r).
Proof.
  intros Hf. induction l as [|x l IH]; [done|]. csimpl.
  destruct (rai_id x =? id)%nat eqn:E; simpl; [rewrite Hf, E; by intros [= ->]|by rewrite E].
Qed.

(** Building the packet: the new interface, and what else changes. *)
Lemma make_packet_run w id r :
  Inv ids needs w → find_rai id (ralist w) = Some r →
  let w' := w <| ralist := (λ r', if (rai_id r' =? id)%nat
                  then with_packet r (ra_packet clock r (w_tick w)) else r') <$> ralist w |>
              <| w_tick := (w_tick w + pi_ticks (rai_prefix r))%nat |> in
  w_make_packet id w = Ret (tt, w') ∧ R w w' ∧
  find_rai id (ralist w') = Some (with_packet r (ra_packet clock r (w_tick w))).
Proof.
  intros Hi Ef w'. apply find_rai_Some in Ef as Er. destruct Er as [Hr Eid].
  assert (Hok : rai_ok r) by (eapply Forall_forall; [apply Hi|done]).
  assert (Ew : ∀ r', r' ∈ ralist w → rai_id r' = id → r' = r).
  { intros r' Hr' E. apply (find_rai_elem _ _ (Inv_nodup w Hi)) in Hr'. rewrite E in Hr'. congruence. }
  split_and!.
  - unfold w_make_packet. rewrite (bind_run _ _ w r w) by (unfold deref_rai; by rewrite Ef).
    rewrite get_run. erewrite lift_run by (by apply make_packet_eq, Hok). done.
  - apply still_calm. split; [|done]. constructor; simpl; try done.
    + unfold w_shape. simpl. rewrite <- list_fmap_compose. apply list_fmap_ext.
      intros i r' Hr'. simpl. destruct (Nat.eqb_spec (rai_id r') id) as [E|]; [|done].
      apply list_elem_of_lookup_2 in Hr'. by rewrite (Ew r' Hr' E).
    + intros Hf. apply Forall_fmap, Forall_forall. intros r' Hr'. simpl.
      destruct (rai_id r' =? id)%nat; [by apply with_packet_ok|by eapply Forall_forall in Hf].
  - subst w'. simpl. clear -Ef Eid. induction (ralist w) as [|x l IH]; [done|]. csimpl in *.
    destruct (rai_id x =? id)%nat eqn:E; simpl.
    + by rewrite (proj2 (Nat.eqb_eq _ _) Eid).
    + rewrite E. auto.
Qed.

Lemma calm_make_packet w id : Inv ids needs w → id ∈ ids.*1 → calm R w (w_make_packet id).
Proof.
  intros Hi Hid. destruct (deref_rai_run w id Hi Hid) as (r & Ef & _).
  destruct (make_packet_run w id r Hi Ef) as (E & HR & _). eexists _, _. by split.
Qed.

(** A timer that is listed can be found, and writing its deadline is quiet. *)
Lemma listed_timer w t :
  Inv ids needs w → t ∈ (w_entries w).*1 →
  ∃ l1 x l2, tq_list (w_queue w) = l1 ++ x :: l2 ∧ tm_id x = t ∧
    find_timer t (tq_list (w_queue w)) = Some (l1, x, l2).
Proof.
  intros Hi Ht. rewrite entries_ids in Ht. apply list_elem_of_fmap in Ht as (x & -> & Hx).
  apply list_elem_of_split in Hx as (l1 & l2 & E). exists l1, x, l2. split_and!; [done..|].
  rewrite E. apply find_timer_middle; [done|]. rewrite <- E, <- entries_ids.
  apply Hi.
Qed.

Lemma calm_write_tm w t tm :
  Inv ids needs w → t ∈ (w_entries w).*1 → calm quiet w (queue_op (write_tm t tm)).
Proof.
  intros Hi Ht. destruct (listed_timer w t Hi Ht) as (l1 & x & l2 & El & Ex & Ef).
  unfold calm, queue_op, write_tm. rewrite Ef. simpl. eexists _, _. split; [done|].
  constructor; simpl; try done. unfold w_entries. simpl. rewrite El, !fmap_app. done.
Qed.

Lemma calm_set_timer w tm t :
  Inv ids needs w → t ∈ (w_entries w).*1 → calm quiet w (w_set_timer tm t).
Proof.
  intros Hi Ht. unfold w_set_timer. apply calm_bind; [apply _| |].
  { eexists _, _. split; [done|]. by constructor. }
  intros now w' _ Q.
  pose proof (quiet_Inv ids needs _ _ Q Hi) as Hi'. rewrite <- (quiet_entries _ _ Q) in Ht.
  destruct (listed_timer w' t Hi' Ht) as (l1 & x & l2 & El & Ex & Ef).
  unfold calm, queue_op, rtadvd_set_timer, write_tm. rewrite Ef. simpl. eexists _, _. split; [done|].
  unfold note_tm. constructor; simpl; try done; [|by destruct (TIMEVAL_LT _ _)].
  unfold w_entries. simpl. rewrite El. destruct (TIMEVAL_LT _ _); simpl; by rewrite !fmap_app.
Qed.

Lemma calm_timer_rest w t :
  Inv ids needs w → t ∈ (w_entries w).*1 → calm R w (w_timer_rest t).
Proof.
  intros Hi Ht. unfold w_timer_rest. apply calm_bind; [done|apply calm_time|]. intros now w' _ HR.
  pose proof (calm_quiet _ _ HR) as Q.
  pose proof (quiet_Inv ids needs _ _ Q Hi) as Hi'. rewrite <- (quiet_entries _ _ Q) in Ht.
  destruct (listed_timer w' t Hi' Ht) as (l1 & x & l2 & El & Ex & Ef).
  unfold calm, queue_rd, rtadvd_timer_rest. rewrite Ef. simpl. by eexists _, _.
Qed.

Lemma rai_timer_listed w r t :
  Inv ids needs w → r ∈ ralist w → rai_timer r = Some t → t ∈ (w_entries w).*1.
Proof.
  intros Hi Hr Ht. apply list_elem_of_fmap. exists (t, RaTimeout (rai_id r)). split; [done|].
  apply (sw_rai_timer _ _ _ _ (ww_shape _ (inv_wf _ _ _ Hi)) (shape_rai r)); [|done].
  by apply list_elem_of_fmap_2.
Qed.

End primitives.
