(* ===== verification/RaOps.v ===== *)
(** * RaOps: the operations of rtadvd preserve the invariant

    Timers of interfaces are started and stopped, prefixes are added, deleted,
    invalidated and enabled again; each operation returns from a state in the
    invariant of RaInv.v and ends in it, or exits with status 1 where the code
    does. *)

From S2P Require Import Prelude Timeval In6 NdOpt RaTimer RtMsg Rainfo RaState RaInv.

(** [m] does not fault from [w]: it returns with [Q], or exits with status 1. *)
Definition safe {A} (w : world) (m : IO A) (Q : A → world → Prop) : Prop :=
  match m w with
  | Ret (a, w') => Q a w'
  | Exit c => c = 1
  | Crash => False
  end.

Lemma safe_bind {A B} w (m : IO A) (f : A → IO B) R Q :
  safe w m R → (∀ a w', R a w' → safe w' (f a) Q) → safe w (m ≫= f) Q.
Proof.
  intros Hm Hf. unfold safe in *. unfold mbind, ST_bind.
  destruct (m w) as [[a w']| |]; [by apply Hf|done..].
Qed.

Lemma safe_calm {A} R w (m : IO A) Q :
  calm R w m → (∀ a w', m w = Ret (a, w') → R w w' → Q a w') → safe w m Q.
Proof. intros (a & w' & E & Hq) HQ. unfold safe. rewrite E. auto. Qed.

Lemma safe_calm_Inv {A} ids needs w (m : IO A) :
  Inv ids needs w → calm quiet w m → safe w m (λ _, Inv ids needs).
Proof. intros Hi Hc. eapply safe_calm; [done|]. intros. by eapply quiet_Inv. Qed.

Lemma safe_weaken {A} w (m : IO A) (Q Q' : A → world → Prop) :
  safe w m Q → (∀ a w', Q a w' → Q' a w') → safe w m Q'.
Proof. unfold safe. destruct (m w) as [[a w']| |]; auto. Qed.

Lemma safe_run {A B} w w' (a : A) (m : IO A) (f : A → IO B) Q :
  m w = Ret (a, w') → safe w' (f a) Q → safe w (m ≫= f) Q.
Proof. intros E H. unfold safe. by rewrite (bind_run _ _ _ _ _ E). Qed.

(** ** Shapes after an update *)

Lemma first_map_rai idx id f rs :
  (∀ r, sh_ifindex (f r) = sh_ifindex r) →
  first_shape idx (map_rai id f rs)
  = (λ r, if (sh_id r =? id)%nat then f r else r) <$> first_shape idx rs.
Proof.
  intros Hf. induction rs as [|r rs IH]; [done|]. unfold map_rai in *. csimpl.
  assert (E : sh_ifindex (if (sh_id r =? id)%nat then f r else r) = sh_ifindex r)
    by (by destruct (sh_id r =? id)%nat).
  rewrite E. by destruct (sh_ifindex r =? idx).
Qed.

Lemma first_with_prefixes idx f rs :
  first_shape idx (with_prefixes f <$> rs) = with_prefixes f <$> first_shape idx rs.
Proof. induction rs as [|r rs IH]; [done|]. csimpl. by destruct (sh_ifindex r =? idx). Qed.

Lemma have_with_prefixes f needs rs :
  have_timers needs rs → have_timers needs (with_prefixes f <$> rs).
Proof.
  intros Hu idx r. rewrite first_with_prefixes. intros Hr Hn.
  destruct (first_shape idx rs) as [r0|] eqn:E; [|done]. injection Hr as <-.
  by apply (Hu idx r0).
Qed.

Lemma have_map_prefixes id f needs rs :
  have_timers needs rs → have_timers needs (map_rai id (with_prefixes f) rs).
Proof.
  intros Hu idx r. rewrite first_map_rai by done. intros Hr Hn.
  destruct (first_shape idx rs) as [r0|] eqn:E; [|done]. injection Hr as <-.
  destruct (sh_id r0 =? id)%nat; by apply (Hu idx r0).
Qed.

(** After an interface with index [idx] is given a timer, it may need it. *)
Lemma have_start id t needs needs' rs :
  have_timers needs rs →
  (∀ idx r, first_shape idx rs = Some r → needs' idx = true → needs idx = true ∨ sh_id r = id) →
  have_timers needs' (map_rai id (with_timer (Some t)) rs).
Proof.
  intros Hu Hn' idx r. rewrite first_map_rai by done. intros Hr Hn.
  destruct (first_shape idx rs) as [r0|] eqn:E; [|done]. injection Hr as <-.
  destruct (Nat.eqb_spec (sh_id r0) id); [by eexists|].
  destruct (Hn' idx r0 E Hn); [by apply (Hu idx r0)|done].
Qed.

(** After it loses its timer, it must not. *)
Lemma have_stop id needs needs' rs :
  have_timers needs rs →
  (∀ idx r, first_shape idx rs = Some r → needs' idx = true → needs idx = true ∧ sh_id r ≠ id) →
  have_timers needs' (map_rai id (with_timer None) rs).
Proof.
  intros Hu Hn' idx r. rewrite first_map_rai by done. intros Hr Hn.
  destruct (first_shape idx rs) as [r0|] eqn:E; [|done]. injection Hr as <-.
  destruct (Hn' idx r0 E Hn) as [Hn0 Hne]. rewrite (proj2 (Nat.eqb_neq _ _)) by done.
  by apply (Hu idx r0).
Qed.

Lemma shape_upd_rai id f g w :
  (∀ r, shape_rai (f r) = g (shape_rai r)) →
  shape_rai <$> ((λ r, if (rai_id r =? id)%nat then f r else r) <$> ralist w)
  = map_rai id g (w_shape w).
Proof.
  intros Hf. unfold w_shape, map_rai. rewrite <- !list_fmap_compose. apply list_fmap_ext.
  intros i r _. simpl. by destruct (rai_id r =? id)%nat.
Qed.

Lemma shape_upd_pfx pid (f : prefix → prefix) t w :
  (∀ p, shape_pfx (f p) = (pfx_id p, pfx_rainfo p, t)) →
  shape_rai <$> ((λ r, r <| rai_prefix :=
     (λ p, if (pfx_id p =? pid)%nat then f p else p) <$> rai_prefix r |>) <$> ralist w)
  = with_prefixes (fmap (retime pid t)) <$> w_shape w.
Proof.
  intros Hf. unfold w_shape. rewrite <- !list_fmap_compose. apply list_fmap_ext.
  intros i r _. unfold shape_rai, with_prefixes. simpl. f_equal.
  rewrite <- !list_fmap_compose. apply list_fmap_ext. intros j p _. simpl.
  unfold retime. simpl. destruct (pfx_id p =? pid)%nat; [apply Hf|done].
Qed.

Lemma shape_remque pid w :
  shape_rai <$> ((λ r, r <| rai_prefix := filter (λ p, pfx_id p ≠ pid) (rai_prefix r) |>) <$> ralist w)
  = with_prefixes (without_pfx pid) <$> w_shape w.
Proof.
  unfold w_shape. rewrite <- !list_fmap_compose. apply list_fmap_ext.
  intros i r _. unfold shape_rai, with_prefixes, without_pfx. simpl. f_equal.
  induction (rai_prefix r) as [|p ps IH]; [done|]. csimpl. rewrite !filter_cons. simpl.
  repeat case_decide; csimpl; congruence || done.
Qed.

(** ** Timers *)

Section ops.
Context `{Env} (ids : list ident) (needs : Z → bool).

Lemma remove_timer_run w t :
  Inv ids needs w → t ∈ (w_entries w).*1 →
  ∃ q, w_remove_timer t w = Ret (tt, w <| w_queue := q |>) ∧
       entry <$> tq_list q = without t (w_entries w) ∧ tq_next q = tq_next (w_queue w).
Proof.
  intros Hi Ht. destruct (listed_timer ids needs w t Hi Ht) as (l1 & x & l2 & El & Ex & Ef).
  unfold w_remove_timer, queue_op, rtadvd_remove_timer. rewrite Ef. simpl.
  eexists. split; [done|]. split; [|done]. simpl. unfold w_entries.
  assert (Hn : NoDup (w_entries w).*1) by apply Hi. unfold w_entries in Hn. rewrite El in Hn |- *.
  unfold without. rewrite !fmap_app, !filter_app. csimpl. rewrite filter_cons_False by (simpl; by intros []).
  rewrite !fmap_app in Hn. csimpl in Hn. apply NoDup_app in Hn as (_ & Hd & Hn).
  apply NoDup_cons in Hn as [Hn _]. subst t.
  f_equal; symmetry; apply filter_all; intros e He E.
  - apply (Hd e.1); [by apply list_elem_of_fmap_2|]. rewrite E. apply list_elem_of_here.
  - apply Hn. rewrite <- E. by apply list_elem_of_fmap_2.
Qed.

Lemma start_inv w id needs' :
  Inv ids needs w → id ∈ ids.*1 →
  (∀ idx r, first_shape idx (w_shape w) = Some r → needs' idx = true →
     needs idx = true ∨ sh_id r = id) →
  Inv ids needs' (w <| w_queue := (rtadvd_add_timer (RaTimeout id) (w_queue w)).2 |>
             <| ralist := (λ r, if (rai_id r =? id)%nat
                                then r <| rai_timer := Some (tq_next (w_queue w)) |> else r) <$> ralist w |>).
Proof.
  intros [[Hs Hr] Hu Hids] Hid Hn'. set (w' := w <| w_queue := _ |> <| ralist := _ |>).
  assert (Es : w_shape w' = map_rai id (with_timer (Some (tq_next (w_queue w)))) (w_shape w)).
  { unfold w' at 1, w_shape at 1. simpl. by apply shape_upd_rai. }
  constructor; [constructor| |].
  - rewrite Es. apply shape_start; [done|]. rewrite <- Hids, <- list_fmap_compose in Hid. exact Hid.
  - unfold w'. simpl. apply Forall_fmap. eapply Forall_impl; [exact Hr|]. intros r Hok. simpl.
    destruct (rai_id r =? id)%nat; [|done]. destruct Hok as [[] ?]. by constructor; [constructor|].
  - rewrite Es. by eapply have_start.
  - rewrite Es, <- Hids. by apply map_rai_keys.
Qed.

(** The timer of an interface is removed and its pointer cleared. *)
Lemma stop_safe w r t needs' :
  Inv ids needs w → r ∈ ralist w → rai_timer r = Some t →
  (∀ idx r0, first_shape idx (w_shape w) = Some r0 → needs' idx = true →
     needs idx = true ∧ sh_id r0 ≠ rai_id r) →
  ∃ w', (_ ← w_remove_timer t; upd_rai (rai_id r) (λ r, r <| rai_timer := None |>)) w
        = Ret (tt, w') ∧ Inv ids needs' w' ∧ w_ifilist w' = w_ifilist w.
Proof.
  intros Hi Hr Ht Hn'. pose proof (rai_timer_listed ids needs w r t Hi Hr Ht) as Hl.
  destruct (remove_timer_run w t Hi Hl) as (q & E & Eq & En).
  eexists. split; [by rewrite (bind_run _ _ _ _ _ E)|]. split; [|done].
  destruct Hi as [[Hs Hok] Hu Hids]. set (w' := w <| w_queue := q |> <| ralist := _ |>).
  assert (Es : w_shape w' = map_rai (rai_id r) (with_timer None) (w_shape w)).
  { unfold w' at 1, w_shape at 1. simpl. by apply shape_upd_rai. }
  constructor; [constructor| |].
  - rewrite Es. unfold w_entries, w'. simpl. rewrite Eq, En.
    change (rai_id r) with (sh_id (shape_rai r)). apply shape_stop; [done| |done].
    by apply list_elem_of_fmap_2.
  - unfold w'. simpl. apply Forall_fmap. eapply Forall_impl; [exact Hok|]. intros r0 Hr0. simpl.
    destruct (rai_id r0 =? rai_id r)%nat; [|done]. destruct Hr0 as [[] ?]. by constructor; [constructor|].
  - rewrite Es. by eapply have_stop.
  - rewrite Es, <- Hids. by apply map_rai_keys.
Qed.

(** ** Prefixes *)

Lemma upd_rai_compose id f g w :
  (∀ r, rai_id (f r) = rai_id r) →
  (λ r, if (rai_id r =? id)%nat then g r else r)
    <$> ((λ r, if (rai_id r =? id)%nat then f r else r) <$> ralist w)
  = (λ r, if (rai_id r =? id)%nat then g (f r) else r) <$> ralist w.
Proof.
  intros Hf. rewrite <- list_fmap_compose. apply list_fmap_ext. intros i r _. simpl.
  destruct (rai_id r =? id)%nat eqn:E; [by rewrite Hf, E|by rewrite E].
Qed.

(** The state after the new prefix is linked and counted. *)
Lemma add_inv w id p :
  Inv ids needs w → id ∈ ids.*1 → pfx_wf p →
  pfx_id p = w_next w → pfx_rainfo p = id → pfx_timer p = None →
  Inv ids needs (w <| w_next := S (w_next w) |>
    <| ralist := (λ r, if (rai_id r =? id)%nat
        then r <| rai_prefix := p :: rai_prefix r |> <| rai_ra_data := None |>
               <| rai_pfxs := rai_pfxs r + 1 |> else r) <$> ralist w |>).
Proof.
  intros [[Hs Hok] Hu Hids] Hid Hp Ei Er Et. set (w' := w <| w_next := _ |> <| ralist := _ |>).
  assert (Es : w_shape w' = map_rai id (with_prefixes (cons (w_next w, id, None))) (w_shape w)).
  { unfold w' at 1, w_shape at 1. simpl. apply shape_upd_rai. intros r. unfold shape_rai. simpl.
    unfold with_prefixes. simpl. unfold shape_pfx at 1. by rewrite Ei, Er, Et. }
  constructor; [constructor| |].
  - rewrite Es. apply shape_add; [done|]. rewrite <- Hids, <- list_fmap_compose in Hid. exact Hid.
  - unfold w'. simpl. apply Forall_fmap. eapply Forall_impl; [exact Hok|]. intros r Hr. simpl.
    destruct (rai_id r =? id)%nat; [|done]. destruct Hr as [[] ?]. constructor; [constructor|]; try done; simpl.
    + rewrite rai_wf_pfxs. simpl. lia.
    + by constructor.
  - rewrite Es. by apply have_map_prefixes.
  - rewrite Es, <- Hids. by apply map_rai_keys.
Qed.

Lemma add_prefix_safe w id ipr :
  Inv ids needs w → id ∈ ids.*1 →
  addr_ok (ipr_prefix ipr) → 0 <= ipr_plen ipr <= 128 → u32_ok (ipr_vltime ipr) →
  u32_ok (ipr_pltime ipr) →
  ∃ w', add_prefix id ipr w = Ret (tt, w') ∧ Inv ids needs w' ∧ w_ifilist w' = w_ifilist w.
Proof.
  intros Hi Hid Ha Hl Hv Hp. unfold add_prefix. rewrite get_run.
  set (p := Pfx _ _ _ _ _ _ _ _ _ _ _ _).
  assert (Hi' := add_inv w id p Hi Hid ltac:(by constructor) eq_refl eq_refl eq_refl).
  set (w1 := w <| w_next := _ |> <| ralist := _ |>) in Hi'.
  destruct (calm_make_packet ids needs quiet w1 id Hi' Hid) as ([] & w2 & E & Q).
  exists w2. split_and!.
  - rewrite modify_run. unfold upd_rai. rewrite !modify_run. rewrite <- E. f_equal. unfold w1.
    simpl. by rewrite !upd_rai_compose.
  - by eapply quiet_Inv.
  - by rewrite (quiet_ifl _ _ Q).
Qed.

Lemma all_prefixes_nodup w : Inv ids needs w → NoDup (pfx_id <$> all_prefixes w).
Proof. intros [[[] _] _ _]. by rewrite <- prefixes_ids. Qed.

Lemma deref_pfx_run w p : Inv ids needs w → p ∈ all_prefixes w → deref_pfx (pfx_id p) w = Ret (p, w).
Proof.
  intros Hi Hp. unfold deref_pfx. by rewrite (find_pfx_elem _ _ (all_prefixes_nodup w Hi) Hp).
Qed.

Lemma pfx_shape_elem w p : p ∈ all_prefixes w → shape_pfx p ∈ sh_prefixes (w_shape w).
Proof. intros Hp. rewrite shape_prefixes. by apply list_elem_of_fmap_2. Qed.

(** Changing the timer of a prefix keeps the interfaces able to send. *)
Lemma upd_pfx_ok pid t l :
  Forall rai_ok l →
  Forall rai_ok ((λ r, r <| rai_prefix := (λ p, if (pfx_id p =? pid)%nat
                   then p <| pfx_timer := t |> else p) <$> rai_prefix r |>) <$> l).
Proof.
  intros Hok. apply Forall_fmap. eapply Forall_impl; [exact Hok|]. intros r [[] ?]. simpl.
  constructor; [constructor|]; try done; simpl.
  - by rewrite length_fmap.
  - apply Forall_fmap. eapply Forall_impl; [done|]. intros p []. simpl.
    destruct (pfx_id p =? pid)%nat; by constructor.
Qed.

Lemma invalidate_safe w p :
  Inv ids needs w → p ∈ all_prefixes w →
  safe w (invalidate_prefix (pfx_id p)) (λ _ w', Inv ids needs w' ∧ w_ifilist w' = w_ifilist w).
Proof.
  intros Hi Hp. unfold invalidate_prefix. eapply safe_run; [by apply deref_pfx_run|].
  destruct (pfx_timer p) eqn:Et; [done|].
  eapply safe_run; [done|]. eapply safe_run; [done|].
  match goal with |- safe ?w' _ _ => set (w1 := w') end.
  assert (Hi1 : Inv ids needs w1).
  { destruct Hi as [[Hs Hok] Hu Hids].
    assert (Es : w_shape w1 = with_prefixes (fmap (retime (pfx_id p) (Some (tq_next (w_queue w))))) <$> w_shape w).
    { unfold w1 at 1, w_shape at 1. simpl. by apply shape_upd_pfx. }
    constructor; [constructor| |].
    - rewrite Es. eapply shape_invalidate; [done|].
      apply pfx_shape_elem in Hp. unfold shape_pfx in Hp. rewrite Et in Hp. exact Hp.
    - by apply upd_pfx_ok.
    - rewrite Es. by apply have_with_prefixes.
    - rewrite Es, <- Hids, <- list_fmap_compose. done. }
  eapply safe_calm.
  - eapply calm_set_timer; [done|]. unfold w1, w_entries. simpl. apply list_elem_of_here.
  - intros [] w2 _ Q. split; [by eapply quiet_Inv|by rewrite (quiet_ifl _ _ Q)].
Qed.

Lemma pfx_timer_listed w p t :
  Inv ids needs w → p ∈ all_prefixes w → pfx_timer p = Some t → t ∈ (w_entries w).*1.
Proof.
  intros Hi Hp Ht. apply list_elem_of_fmap. exists (t, PrefixTimeout (pfx_id p)). split; [done|].
  apply (sw_pfx_timer _ _ _ _ (ww_shape _ (inv_wf _ _ _ Hi)) _ (pfx_rainfo p)).
  apply pfx_shape_elem in Hp. unfold shape_pfx in Hp. by rewrite Ht in Hp.
Qed.

Lemma update_safe w p :
  Inv ids needs w → p ∈ all_prefixes w →
  safe w (update_prefix (pfx_id p)) (λ _ w', Inv ids needs w' ∧ w_ifilist w' = w_ifilist w).
Proof.
  intros Hi Hp. unfold update_prefix. eapply safe_run; [by apply deref_pfx_run|].
  destruct (pfx_timer p) as [t|] eqn:Et; [|done].
  destruct (remove_timer_run w t Hi (pfx_timer_listed w p t Hi Hp Et)) as (q & E & Eq & En).
  eapply safe_run; [exact E|]. unfold safe. simpl. split; [|done].
  match goal with |- Inv _ _ ?w' => set (w1 := w') end. destruct Hi as [[Hs Hok] Hu Hids].
  assert (Es : w_shape w1 = with_prefixes (fmap (retime (pfx_id p) None)) <$> w_shape w).
  { unfold w1 at 1, w_shape at 1. simpl. by apply shape_upd_pfx. }
  constructor; [constructor| |].
  - rewrite Es. unfold w_entries, w1. simpl. rewrite Eq, En. eapply shape_update; [done|].
    apply pfx_shape_elem in Hp. unfold shape_pfx in Hp. rewrite Et in Hp. exact Hp.
  - by apply upd_pfx_ok.
  - rewrite Es. by apply have_with_prefixes.
  - rewrite Es, <- Hids, <- list_fmap_compose. done.
Qed.

Lemma pfx_owner w p r :
  Inv ids needs w → r ∈ ralist w → p ∈ rai_prefix r → pfx_rainfo p = rai_id r.
Proof.
  intros Hi Hr Hp.
  apply (sw_back _ _ _ _ (ww_shape _ (inv_wf _ _ _ Hi)) (shape_rai r) (pfx_id p) _ (pfx_timer p)).
  - by apply list_elem_of_fmap_2.
  - change (shape_pfx p ∈ shape_pfx <$> rai_prefix r). by apply list_elem_of_fmap_2.
Qed.

Lemma pfx_id_inj w p q :
  Inv ids needs w → p ∈ all_prefixes w → q ∈ all_prefixes w → pfx_id p = pfx_id q → p = q.
Proof.
  intros Hi Hp Hq E. pose proof (all_prefixes_nodup w Hi) as Hn.
  apply (find_pfx_elem _ _ Hn) in Hp. apply (find_pfx_elem _ _ Hn) in Hq.
  rewrite E in Hp. congruence.
Qed.

(** The list of the owner gets shorter by one, the others do not change. *)
Lemma delete_lists w p r :
  Inv ids needs w → p ∈ all_prefixes w → r ∈ ralist w →
  Z.of_nat (length (filter (λ q, pfx_id q ≠ pfx_id p) (rai_prefix r)))
  = Z.of_nat (length (rai_prefix r)) - (if (rai_id r =? pfx_rainfo p)%nat then 1 else 0).
Proof.
  intros Hi Hp Hr.
  assert (Hinj : ∀ q, q ∈ rai_prefix r → pfx_id q = pfx_id p → q = p).
  { intros q Hq E. eapply pfx_id_inj; [done| |done|done]. apply all_prefixes_elem. eauto. }
  destruct (Nat.eqb_spec (rai_id r) (pfx_rainfo p)) as [E|Hne].
  - assert (Hpr : p ∈ rai_prefix r).
    { apply all_prefixes_elem in Hp as (r0 & Hr0 & Hp0).
      rewrite (pfx_owner w p r0 Hi Hr0 Hp0) in E. pose proof (Inv_nodup ids needs w Hi) as Hn.
      apply (find_rai_elem _ _ Hn) in Hr. apply (find_rai_elem _ _ Hn) in Hr0.
      rewrite E in Hr. by simplify_eq. }
    apply list_elem_of_split in Hpr as (l1 & l2 & El).
    assert (Hnd : NoDup (rai_prefix r)).
    { pose proof (all_prefixes_nodup w Hi) as Hn. apply NoDup_fmap_1 in Hn.
      apply list_elem_of_split in Hr as (k1 & k2 & Ek). unfold all_prefixes in Hn.
      rewrite Ek in Hn. rewrite bind_app in Hn. apply NoDup_app in Hn as (_ & _ & Hn). csimpl in Hn.
      by apply NoDup_app in Hn as (? & _). }
    rewrite El in *. rewrite filter_app, filter_cons_False by (by intros []).
    apply NoDup_app in Hnd as (_ & Hd & Hnd). apply NoDup_cons in Hnd as [Hni _].
    rewrite !filter_all; [rewrite !length_app; simpl; lia| |].
    + intros q Hq E'. rewrite (Hinj q) in Hq; [done| |done]. rewrite elem_of_app. right. by right.
    + intros q Hq E'. apply (Hd q Hq). rewrite (Hinj q); [apply list_elem_of_here| |done].
      rewrite elem_of_app. by left.
  - rewrite filter_all; [lia|]. intros q Hq E. apply Hne.
    rewrite <- (Hinj q Hq E). symmetry. by eapply pfx_owner.
Qed.

Lemma delete_ok w p :
  Inv ids needs w → p ∈ all_prefixes w →
  Forall rai_ok ((λ r, if (rai_id r =? pfx_rainfo p)%nat then r <| rai_pfxs := rai_pfxs r - 1 |> else r)
    <$> ((λ r, r <| rai_prefix := filter (λ q, pfx_id q ≠ pfx_id p) (rai_prefix r) |>) <$> ralist w)).
Proof.
  intros Hi Hp. rewrite <- list_fmap_compose. apply Forall_fmap, Forall_forall. intros r Hr.
  assert (Hok : rai_ok r) by (eapply Forall_forall; [apply Hi|done]).
  pose proof (delete_lists w p r Hi Hp Hr) as Hl. simpl. destruct Hok as [[] ?].
  destruct (rai_id r =? pfx_rainfo p)%nat; (constructor; [constructor|]); try done; simpl;
    try (by apply Forall_filter_keep); lia.
Qed.

Lemma remque_prefixes pid l :
  ((λ r, r <| rai_prefix := filter (λ q, pfx_id q ≠ pid) (rai_prefix r) |>) <$> l) ≫= rai_prefix
  = filter (λ q, pfx_id q ≠ pid) (l ≫= rai_prefix).
Proof. induction l as [|r l IH]; [done|]. csimpl. by rewrite IH, filter_app. Qed.

Lemma upd_rai_prefixes id f l :
  (∀ r, rai_prefix (f r) = rai_prefix r) →
  ((λ r, if (rai_id r =? id)%nat then f r else r) <$> l) ≫= rai_prefix = l ≫= rai_prefix.
Proof.
  intros Hf. induction l as [|r l IH]; [done|]. csimpl. rewrite IH.
  by destruct (rai_id r =? id)%nat; rewrite ?Hf.
Qed.

(** What is left of the queue when a prefix goes. *)
Definition queue_without (tm : option nat) (q q' : timer_queue callback) : Prop :=
  match tm with
  | None => q' = q
  | Some t => tq_tm q' = tq_tm q ∧ tq_next q' = tq_next q ∧
      ∃ l1 x l2, tq_list q = l1 ++ x :: l2 ∧ tm_id x = t ∧ tq_list q' = l1 ++ l2
  end.

Lemma delete_run w p :
  Inv ids needs w → p ∈ all_prefixes w →
  ∃ w', delete_prefix (pfx_id p) w = Ret (tt, w') ∧ Inv ids needs w' ∧
    w_ifilist w' = w_ifilist w ∧ queue_without (pfx_timer p) (w_queue w) (w_queue w') ∧
    all_prefixes w' = filter (λ q, pfx_id q ≠ pfx_id p) (all_prefixes w).
Proof.
  intros Hi Hp. unfold delete_prefix. rewrite (bind_run _ _ _ _ _ (deref_pfx_run w p Hi Hp)).
  unfold remque_pfx, upd_rai. rewrite modify_run.
  assert (Hq : ∃ q, match pfx_timer p with Some t => w_remove_timer t | None => skip end
      (w <| ralist := (λ r, r <| rai_prefix := filter (λ q, pfx_id q ≠ pfx_id p) (rai_prefix r) |>) <$> ralist w |>)
    = Ret (tt, w <| ralist := (λ r, r <| rai_prefix := filter (λ q, pfx_id q ≠ pfx_id p) (rai_prefix r) |>) <$> ralist w |>
                 <| w_queue := q |>) ∧ tq_next q = tq_next (w_queue w) ∧
      queue_without (pfx_timer p) (w_queue w) q ∧
      entry <$> tq_list q = match pfx_timer p with Some t => without t (w_entries w) | None => w_entries w end).
  { destruct (pfx_timer p) as [t|] eqn:Et; [|exists (w_queue w); by destruct w].
    destruct (remove_timer_run w t Hi (pfx_timer_listed w p t Hi Hp Et)) as (q & E & Eq & En).
    destruct (listed_timer ids needs w t Hi (pfx_timer_listed w p t Hi Hp Et)) as (l1 & x & l2 & El & Ex & Ef).
    exists q. unfold w_remove_timer, queue_op, rtadvd_remove_timer in *. simpl. rewrite Ef in *.
    simpl in *. injection E as <-. split_and!; try done. by exists l1, x, l2. }
  destruct Hq as (q & E & En & Hq & Ee). rewrite (bind_run _ _ _ _ _ E).
  eexists. split; [done|]. match goal with |- Inv _ _ ?w' ∧ _ => set (w1 := w') end.
  assert (Es : w_shape w1 = with_prefixes (without_pfx (pfx_id p)) <$> w_shape w).
  { rewrite <- shape_remque. unfold w1, w_shape. simpl. rewrite <- list_fmap_compose.
    apply list_fmap_ext. intros i r _. simpl. by destruct (rai_id r =? _)%nat. }
  split_and!; try done.
  - pose proof Hi as [[Hs Hok] Hu Hids]. constructor; [constructor| |].
    + rewrite Es. unfold w_entries, w1. simpl. rewrite Ee, En. eapply shape_delete; [done|].
      by apply pfx_shape_elem.
    + by apply delete_ok.
    + rewrite Es. by apply have_with_prefixes.
    + rewrite Es, <- Hids, <- list_fmap_compose. done.
  - unfold w1, all_prefixes. simpl. by rewrite upd_rai_prefixes, remque_prefixes.
Qed.

Lemma make_prefix_safe w id ifindex addr plen :
  Inv ids needs w → id ∈ ids.*1 → addr_ok addr → 0 <= plen <= 128 →
  safe w (make_prefix id ifindex addr plen) (λ _ w', Inv ids needs w' ∧ w_ifilist w' = w_ifilist w).
Proof.
  intros Hi Hid Ha Hl. unfold make_prefix. destruct (if_indextoname ifindex); [|done].
  destruct (add_prefix_safe w id (init_prefix (Ipr addr plen 0 0 0 0)) Hi Hid) as (w' & E & ? & ?);
    try done. unfold safe. by rewrite E.
Qed.

(** ** The life of a prefix whose route is deleted *)

Lemma find_pfx_upd pid f ps p :
  (∀ q, pfx_id (f q) = pfx_id q) → find_pfx pid ps = Some p →
  find_pfx pid ((λ q, if (pfx_id q =? pid)%nat then f q else q) <$> ps) = Some (f p).
Proof.
  intros Hf. induction ps as [|q ps IH]; [done|]. csimpl.
  destruct (pfx_id q =? pid)%nat eqn:E; simpl; [rewrite Hf, E; by intros [= ->]|by rewrite E].
Qed.

Lemma all_prefixes_upd f l :
  ((λ r, r <| rai_prefix := f <$> rai_prefix r |>) <$> l) ≫= rai_prefix = f <$> (l ≫= rai_prefix).
Proof. induction l as [|r l IH]; [done|]. csimpl. by rewrite IH, fmap_app. Qed.

(** Setting the timer of a prefix without one, and clearing it again. *)
Lemma upd_pfx_undo w p t :
  Inv ids needs w → p ∈ all_prefixes w → pfx_timer p = None →
  (λ r, r <| rai_prefix := (λ q, if (pfx_id q =? pfx_id p)%nat then q <| pfx_timer := None |> else q)
       <$> rai_prefix r |>) <$>
  ((λ r, r <| rai_prefix := (λ q, if (pfx_id q =? pfx_id p)%nat then q <| pfx_timer := Some t |> else q)
       <$> rai_prefix r |>) <$> ralist w) = ralist w.
Proof.
  intros Hi Hp Et. rewrite <- list_fmap_compose. rewrite <- (list_fmap_id (ralist w)) at 2.
  apply list_fmap_ext. intros i r Hr. apply list_elem_of_lookup_2 in Hr. unfold update_field; simpl.
  rewrite <- list_fmap_compose. assert (El : ∀ ps : list prefix, (∀ q, q ∈ ps → q ∈ all_prefixes w) →
    ((λ q, if (pfx_id q =? pfx_id p)%nat then q <| pfx_timer := None |> else q)
     ∘ (λ q, if (pfx_id q =? pfx_id p)%nat then q <| pfx_timer := Some t |> else q)) <$> ps = ps).
  { induction ps as [|q ps IH]; intros Hps; [done|]. csimpl. rewrite IH by (intros; apply Hps; by right).
    f_equal. destruct (Nat.eqb_spec (pfx_id q) (pfx_id p)) as [E|E]; simpl;
      [|by rewrite (proj2 (Nat.eqb_neq _ _) E)].
    rewrite (proj2 (Nat.eqb_eq _ _) E). assert (q = p) as ->; [|destruct p; simpl in *; by subst].
    eapply pfx_id_inj; [done|apply Hps, list_elem_of_here|done|done]. }
  rewrite El; [by destruct r|]. intros q Hq. apply all_prefixes_elem. eauto.
Qed.

(** C33: The route of an advertised prefix goes away and comes back. When it is
    deleted, [invalidate_prefix] gives the prefix a timer of two hours, during
    which it is advertised with lifetimes zero; [update_prefix], when the
    route is added again, restores exactly the advertised prefixes and the
    timers of before; but a second deletion in between terminates the daemon
    ([exit(1)]). *)
Theorem prefix_lifecycle w p :
  Inv ids needs w → p ∈ all_prefixes w → pfx_timer p = None →
  ∃ w1 t, invalidate_prefix (pfx_id p) w = Ret (tt, w1) ∧
    deref_pfx (pfx_id p) w1 = Ret (p <| pfx_timer := Some t |>, w1) ∧
    tq_list (w_queue w1)
      = Timer t (PrefixTimeout (pfx_id p)) (TIMEVAL_ADD (clock (w_tick w)) (TV (60 * 120) 0))
        :: tq_list (w_queue w) ∧
    (∀ now, pi_lifetimes (p <| pfx_timer := Some t |>) now = (0, 0)) ∧
    invalidate_prefix (pfx_id p) w1 = Exit 1 ∧
    ∃ w2, update_prefix (pfx_id p) w1 = Ret (tt, w2) ∧ ralist w2 = ralist w ∧
      tq_list (w_queue w2) = tq_list (w_queue w).
Proof.
  intros Hi Hp Et. set (t := tq_next (w_queue w)).
  assert (Ei : ∃ w1, invalidate_prefix (pfx_id p) w = Ret (tt, w1) ∧
    ralist w1 = (λ r, r <| rai_prefix := (λ q, if (pfx_id q =? pfx_id p)%nat
        then q <| pfx_timer := Some t |> else q) <$> rai_prefix r |>) <$> ralist w ∧
    tq_list (w_queue w1)
      = Timer t (PrefixTimeout (pfx_id p)) (TIMEVAL_ADD (clock (w_tick w)) (TV prefix_timo 0))
        :: tq_list (w_queue w)).
  { unfold invalidate_prefix. rewrite (bind_run _ _ _ _ _ (deref_pfx_run w p Hi Hp)), Et.
    unfold w_add_timer, rtadvd_add_timer, w_set_timer, queue_op, rtadvd_set_timer, write_tm, upd_pfx.
    unfold mbind, ST_bind, modify, gettimeofday. simpl. rewrite Nat.eqb_refl. simpl.
    eexists. split; [reflexivity|]. split; [done|]. simpl. unfold note_tm. by destruct (TIMEVAL_LT _ _). }
  destruct Ei as (w1 & Ei & Er & Eq). exists w1, t.
  assert (Ed : deref_pfx (pfx_id p) w1 = Ret (p <| pfx_timer := Some t |>, w1)).
  { unfold deref_pfx, all_prefixes. rewrite Er, all_prefixes_upd.
    rewrite (find_pfx_upd (pfx_id p) (λ q, q <| pfx_timer := Some t |>) _ p); [done|done|].
    apply find_pfx_elem; [by apply all_prefixes_nodup|done]. }
  split_and!; try done.
  - unfold invalidate_prefix. by rewrite (bind_run _ _ _ _ _ Ed).
  - unfold update_prefix. rewrite (bind_run _ _ _ _ _ Ed). cbn [pfx_timer update_field].
    assert (Erm : w_remove_timer t w1 = Ret (tt, w1 <| w_queue := w_queue w1 <| tq_list := tq_list (w_queue w) |> |>)).
    { unfold w_remove_timer, queue_op, rtadvd_remove_timer. rewrite Eq. simpl. by rewrite Nat.eqb_refl. }
    rewrite (bind_run _ _ _ _ _ Erm). eexists. split; [reflexivity|]. simpl. split; [|done].
    rewrite Er. by apply upd_pfx_undo.
Qed.

End ops.
