(* ===== verification/Rrenum.v ===== *)
(** * Rrenum: router renumbering (rtadvd.tproj/rrenum.c)

    The message is the list of its octets; [rpm] and [rpu] are offsets of the
    prefix control operations inside it. The requests to the kernel are
    recorded in the state. Loops that the code does not bound return [None]
    when their fuel runs out. *)

From S2P Require Import Prelude Timeval In6 NdOpt RaTimer RtMsg Rainfo RaState.

Definition ICMP6_ROUTER_RENUMBERING : Z := 138.
Definition ICMP6_ROUTER_RENUMBERING_COMMAND : Z := 0.
Definition ICMP6_RR_FLAGS_TEST : Z := 0x80.
Definition ICMP6_RR_FLAGS_REQRESULT : Z := 0x40.
Definition ICMP6_RR_FLAGS_FORCEAPPLY : Z := 0x20.
Definition RPM_PCO_ADD : Z := 1.
Definition RPM_PCO_CHANGE : Z := 2.
Definition RPM_PCO_SETGLOBAL : Z := 3.
Definition ICMP6_RR_PCOUSE_RAFLAGS_ONLINK : Z := 0x80.
Definition ICMP6_RR_PCOUSE_RAFLAGS_AUTO : Z := 0x40.
Definition ICMP6_RR_PCOUSE_FLAGS_DECRVLTIME : Z := 0x80.
Definition ICMP6_RR_PCOUSE_FLAGS_DECRPLTIME : Z := 0x40.
Definition PR_ORIG_RR : Z := 1.
Definition ENXIO : Z := 6.

Definition sizeof_router_renum : Z := 16.
Definition sizeof_rr_pco_match : nat := 24.
Definition sizeof_rr_pco_use : nat := 32.

(** ** Fields *)

Section fields.
Context (rr : bytes).

Definition rr_code : outcome Z := of_opt (rd8 rr 1).
(** The sequence number is compared as it is stored, in network order. *)
Definition rr_seqnum : outcome Z := of_opt (le_val <$> read_at rr 4 4).
Definition rr_segnum : outcome Z := of_opt (rd8 rr 8).
Definition rr_flags : outcome Z := of_opt (rd8 rr 9).

Definition rpm_code (p : nat) : outcome Z := of_opt (rd8 rr p).
Definition rpm_len (p : nat) : outcome Z := of_opt (rd8 rr (p + 1)).
Definition rpm_matchlen (p : nat) : outcome Z := of_opt (rd8 rr (p + 3)).
Definition rpm_minlen (p : nat) : outcome Z := of_opt (rd8 rr (p + 4)).
Definition rpm_maxlen (p : nat) : outcome Z := of_opt (rd8 rr (p + 5)).
Definition rpm_prefix (p : nat) : outcome in6_addr := of_opt (read_at rr (p + 8) 16).

(** [struct rr_pco_use] *)
Record rr_pco_use := Rpu {
  rpu_uselen : Z;
  rpu_keeplen : Z;
  rpu_ramask : Z;
  rpu_raflags : Z;
  rpu_vltime : Z;
  rpu_pltime : Z;
  rpu_flags : Z;
  rpu_prefix : in6_addr }.
Definition read_rpu (p : nat) : outcome rr_pco_use :=
  uselen ← of_opt (rd8 rr p); keeplen ← of_opt (rd8 rr (p + 1));
  ramask ← of_opt (rd8 rr (p + 2)); raflags ← of_opt (rd8 rr (p + 3));
  vltime ← of_opt (rd32 rr (p + 4)); pltime ← of_opt (rd32 rr (p + 8));
  flags ← of_opt (le_val <$> read_at rr (p + 12) 4);
  prefix ← of_opt (read_at rr (p + 16) 16);
  Ret (Rpu uselen keeplen ramask raflags vltime pltime flags prefix).

(** ** Checks of one operation *)

(** The loop over the use-prefix parts, from [rpu] to [rpulim]. *)
Fixpoint rpu_check (n : nat) (rpu rpulim : nat) : outcome Z :=
  match n with
  | O => Ret 0
  | S n =>
      if (rpulim <=? rpu)%nat then Ret 0 else
      uselen ← of_opt (rd8 rr rpu);
      keeplen ← of_opt (rd8 rr (rpu + 1));
      if 128 <? uselen + keeplen then Ret 1 else rpu_check n (rpu + sizeof_rr_pco_use) rpulim
  end.

Definition rr_pco_check (len : Z) (rpm : nat) : outcome Z :=
  rlen ← rpm_len rpm;
  if (rlen - 3 <? 0) || truthy (Z.land (rlen - 3) 0x3) then Ret 1 else
  code ← rpm_code rpm;
  if negb ((code =? RPM_PCO_ADD) || (code =? RPM_PCO_CHANGE) || (code =? RPM_PCO_SETGLOBAL))
  then Ret 1 else
  matchlen ← rpm_matchlen rpm;
  if 128 <? matchlen then Ret 1 else
  rpu_check (Z.to_nat len) (rpm + sizeof_rr_pco_match) (rpm + Z.to_nat len).

End fields.

(** ** Applying one operation *)

Section apply.
Context `{Env}.

(** The change of one advertised prefix. *)
Definition change_pfx (rpu : rr_pco_use) (decrvalid decrprefd : bool) (pid : nat) : IO unit :=
  _ ← upd_pfx pid (λ p, p <| pfx_validlifetime := rpu_vltime rpu |>);
  _ ← upd_pfx pid (λ p, p <| pfx_preflifetime := rpu_pltime rpu |>);
  _ ← (if decrvalid then
         now ← gettimeofday;
         upd_pfx pid (λ p, p <| pfx_vltimeexpire := tv_sec now + pfx_validlifetime p |>)
       else upd_pfx pid (λ p, p <| pfx_vltimeexpire := 0 |>));
  if decrprefd then
    now ← gettimeofday;
    upd_pfx pid (λ p, p <| pfx_pltimeexpire := tv_sec now + pfx_preflifetime p |>)
  else upd_pfx pid (λ p, p <| pfx_pltimeexpire := 0 |>).

(** The loop over the prefixes of the interface. *)
Fixpoint change_pfxs (rpu : rr_pco_use) (decrvalid decrprefd : bool) (mprefix : in6_addr) (mlen : Z)
    (ps : list prefix) : IO unit :=
  match ps with
  | [] => skip
  | p :: ps =>
      _ ← when (truthy (prefix_match (pfx_prefix p) (pfx_prefixlen p) mprefix mlen))
            (change_pfx rpu decrvalid decrprefd (pfx_id p));
      change_pfxs rpu decrvalid decrprefd mprefix mlen ps
  end.

Definition pco_ioctl (code : Z) (irr : in6_rrenumreq) : IO unit :=
  modify (λ w, w <| w_pco := (code, irr) :: w_pco w |>).

(** The request of one use-prefix part. *)
Definition use_request (irr : in6_rrenumreq) (rpu : rr_pco_use) : in6_rrenumreq :=
  irr <| irr_u_uselen := rpu_uselen rpu |> <| irr_u_keeplen := rpu_keeplen rpu |>
    <| irr_raf_mask_onlink := truthy (Z.land (rpu_ramask rpu) ICMP6_RR_PCOUSE_RAFLAGS_ONLINK) |>
    <| irr_raf_mask_auto := truthy (Z.land (rpu_ramask rpu) ICMP6_RR_PCOUSE_RAFLAGS_AUTO) |>
    <| irr_vltime := rpu_vltime rpu |> <| irr_pltime := rpu_pltime rpu |>
    <| irr_raf_onlink := truthy (Z.land (rpu_raflags rpu) ICMP6_RR_PCOUSE_RAFLAGS_ONLINK) |>
    <| irr_raf_auto := truthy (Z.land (rpu_raflags rpu) ICMP6_RR_PCOUSE_RAFLAGS_AUTO) |>
    <| irr_rrf_decrvalid := truthy (Z.land (rpu_flags rpu) ICMP6_RR_PCOUSE_FLAGS_DECRVLTIME) |>
    <| irr_rrf_decrprefd := truthy (Z.land (rpu_flags rpu) ICMP6_RR_PCOUSE_FLAGS_DECRPLTIME) |>
    <| irr_useprefix := Some (rpu_prefix rpu) |>.

(** The request when there is no use-prefix part. *)
Definition no_use_request (irr : in6_rrenumreq) : in6_rrenumreq :=
  irr <| irr_u_uselen := 0 |> <| irr_u_keeplen := 0 |> <| irr_raf_mask_onlink := false |>
    <| irr_raf_mask_auto := false |> <| irr_vltime := 0 |> <| irr_pltime := 0 |>
    <| irr_raf_onlink := false |> <| irr_raf_auto := false |> <| irr_rrf_decrvalid := false |>
    <| irr_rrf_decrprefd := false |> <| irr_useprefix := None |>.

(** Whether the operation only changes the parameters of advertised prefixes. *)
Definition changes_in_place (code mlen : Z) (mprefix : in6_addr) (rpu : rr_pco_use) : bool :=
  (code =? RPM_PCO_CHANGE) && IN6_ARE_ADDR_EQUAL mprefix (rpu_prefix rpu)
  && (mlen =? rpu_uselen rpu) && (rpu_uselen rpu =? rpu_keeplen rpu).

(** The loop over the use-prefix parts; the request is carried along. *)
Fixpoint use_prefixes (n : nat) (rr : bytes) (rpu rpulim : nat) (code mlen : Z) (mprefix : in6_addr)
    (irr : in6_rrenumreq) (ifindex : Z) : IO in6_rrenumreq :=
  match n with
  | O => mret irr
  | S n =>
      if (rpulim <=? rpu)%nat then mret irr else
      u ← lift (read_rpu rr rpu);
      let irr := use_request irr u in
      _ ← pco_ioctl code irr;
      w ← get;
      _ ← (if changes_in_place code mlen mprefix u then
             match if_indextorainfo ifindex (ralist w) with
             | None => skip
             | Some rai => change_pfxs u (irr_rrf_decrvalid irr) (irr_rrf_decrprefd irr)
                             mprefix mlen (rai_prefix rai)
             end
           else skip);
      use_prefixes n rr (rpu + sizeof_rr_pco_use) rpulim code mlen mprefix irr ifindex
  end.

Definition do_use_prefix (len : Z) (rr : bytes) (rpm : nat) (irr : in6_rrenumreq) (ifindex : Z) :
    IO in6_rrenumreq :=
  code ← lift (rpm_code rr rpm);
  let rpu := (rpm + sizeof_rr_pco_match)%nat in
  let rpulim := (rpm + Z.to_nat len)%nat in
  if (rpu =? rpulim)%nat then
    if code =? RPM_PCO_ADD then mret irr
    else _ ← pco_ioctl code (no_use_request irr); mret (no_use_request irr)
  else
    mlen ← lift (rpm_matchlen rr rpm);
    mprefix ← lift (rpm_prefix rr rpm);
    use_prefixes (Z.to_nat len) rr rpu rpulim code mlen mprefix irr ifindex.

(** The loop over the interfaces; [None] when it runs out of fuel. *)
Fixpoint pco_interfaces (fuel : nat) (ifindex : Z) (flags len : Z) (rr : bytes) (rpm : nat)
    (irr : in6_rrenumreq) : IO (option unit) :=
  match fuel with
  | O => mret None
  | S fuel =>
      match if_indextoname ifindex with
      | None => mret (Some tt)
      | Some name =>
          let irr := irr <| irr_name := name |> in
          w ← get;
          irr ← match get_interface_entry ifindex (w_ifilist w) with
                | None => mret irr
                | Some ifm =>
                    if (Z.land flags ICMP6_RR_FLAGS_FORCEAPPLY =? 0)
                       && (Z.land (ifm_flags ifm) IFF_UP =? 0)
                    then mret irr
                    else do_use_prefix len rr rpm irr ifindex
                end;
          pco_interfaces fuel (ifindex + 1) flags len rr rpm irr
      end
  end.

(** [errno] is its value after the last [if_indextoname]. *)
Definition do_pco (fuel : nat) (errno : Z) (rr : bytes) (len : Z) (rpm : nat) : IO (option Z) :=
  bad ← lift (rr_pco_check rr len rpm);
  if truthy bad then mret (Some 1) else
  matchlen ← lift (rpm_matchlen rr rpm);
  minlen ← lift (rpm_minlen rr rpm);
  maxlen ← lift (rpm_maxlen rr rpm);
  prefix ← lift (rpm_prefix rr rpm);
  flags ← lift (rr_flags rr);
  let irr := Irr [] PR_ORIG_RR matchlen minlen maxlen 0 0 false false 0 0 false false false false
               prefix None in
  done ← pco_interfaces fuel 1 flags len rr rpm irr;
  match done with
  | None => mret None
  | Some _ => mret (Some (if (errno =? ENXIO) || (errno =? 0) then 0 else 1))
  end.

(** The loop over the operations of the message from [cp] to its end, [len]
    octets being left. An operation that fails its checks is skipped. *)
Fixpoint rr_loop (fuel : nat) (errno : Z) (rr : bytes) (cp : nat) (len : Z) : IO (option Z) :=
  match fuel with
  | O => mret None
  | S fuel' =>
      if (length rr <=? cp)%nat then mret (Some 0) else
      if len <? Z.of_nat sizeof_rr_pco_match then mret (Some 1) else
      rlen ← lift (rpm_len rr cp);
      let rpmlen := Z.shiftl rlen 3 in
      if len <? rpmlen then mret (Some 1) else
      res ← do_pco fuel errno rr rpmlen cp;
      match res with
      | None => mret None
      | Some _ => rr_loop fuel' errno rr (cp + Z.to_nat rpmlen) (len - rpmlen)
      end
  end.

(** [dump] is the answer of the interface list sysctl. *)
Definition do_rr (fuel : nat) (errno : Z) (dump : option bytes) (rr : bytes) : IO (option Z) :=
  w ← get;
  l ← lift (init_iflist fuel dump (w_ifilist w));
  match l with
  | None => mret None
  | Some l =>
      _ ← modify (λ w, w <| w_ifilist := l |>);
      rr_loop fuel errno rr (Z.to_nat sizeof_router_renum) (Z.of_nat (length rr) - sizeof_router_renum)
  end.

End apply.

(** ** Commands *)

(** [1 << (segnum & 31)] as it is converted to [u_long]. *)
Definition seg_mask (segnum : Z) : Z := u64 (s32 (Z.shiftl 1 (Z.land segnum 31))).
Definition RR_ISSET_SEGNUM (bits : list Z) (segnum : Z) : bool :=
  truthy (Z.land (bits !!! Z.to_nat (Z.shiftr segnum 5)) (seg_mask segnum)).
Definition RR_SET_SEGNUM (bits : list Z) (segnum : Z) : list Z :=
  let i := Z.to_nat (Z.shiftr segnum 5) in
  <[i := Z.lor (bits !!! i) (seg_mask segnum)]> bits.

Definition rr_command_check (rr : bytes) (dst : in6_addr) : IO Z :=
  if Z.of_nat (length rr) <? sizeof_router_renum + Z.of_nat sizeof_rr_pco_match then mret 1 else
  if IN6_IS_ADDR_MULTICAST dst && negb (IN6_IS_ADDR_MC_LINKLOCAL dst)
     && negb (IN6_IS_ADDR_MC_SITELOCAL dst) then mret 1 else
  seqnum ← lift (rr_seqnum rr);
  flags ← lift (rr_flags rr);
  segnum ← lift (rr_segnum rr);
  w ← get;
  let rro := w_rro w in
  if seqnum <? rro_seqnum rro then mret 1 else
  if (rro_seqnum rro =? seqnum) && (Z.land flags ICMP6_RR_FLAGS_TEST =? 0)
     && RR_ISSET_SEGNUM (rro_segnum_bits rro) segnum then mret 0 else
  let rro := if rro_seqnum rro =? seqnum then rro else rro <| rro_segnum_bits := replicate 8 0 |> in
  _ ← put (w <| w_rro := rro <| rro_seqnum := seqnum |> |>);
  mret 0.

Section input.
Context `{Env}.

Definition rr_command_input (fuel : nat) (errno : Z) (dump : option bytes) (rr : bytes)
    (dst : in6_addr) : IO (option unit) :=
  bad ← rr_command_check rr dst;
  if truthy bad then mret (Some tt) else
  flags ← lift (rr_flags rr);
  if Z.land flags (Z.lor ICMP6_RR_FLAGS_TEST ICMP6_RR_FLAGS_REQRESULT) =? ICMP6_RR_FLAGS_TEST
  then mret (Some tt) else
  res ← do_rr fuel errno dump rr;
  match res with
  | None => mret None
  | Some r =>
      if truthy r then mret (Some tt) else
      segnum ← lift (rr_segnum rr);
      _ ← modify (λ w, w <| w_rro := w_rro w <| rro_segnum_bits :=
                              RR_SET_SEGNUM (rro_segnum_bits (w_rro w)) segnum |> |>);
      mret (Some tt)
  end.

(** [in6a_site_allrouters] is ff05::2. *)
Definition in6a_site_allrouters : in6_addr := [0xff; 0x05] ++ replicate 13 0 ++ [2].

Definition rr_input (fuel : nat) (errno : Z) (dump : option bytes) (rr : bytes)
    (ipi6_addr dst : in6_addr) : IO (option unit) :=
  if Z.of_nat (length rr) <? sizeof_router_renum then mret (Some tt) else
  if IN6_IS_ADDR_MULTICAST ipi6_addr && negb (IN6_ARE_ADDR_EQUAL in6a_site_allrouters ipi6_addr)
  then mret (Some tt) else
  code ← lift (rr_code rr);
  if code =? ICMP6_ROUTER_RENUMBERING_COMMAND then rr_command_input fuel errno dump rr dst
  else mret (Some tt).

End input.

(** ** Termination *)

Section loop.
Context `{Env}.

(** A renumbering message with an operation of length zero hangs the
    daemon: the loop of [do_rr] does not advance, so it returns with no amount
    of fuel. [do_pco] rejects the operation, but the loop goes on with it. *)
Lemma rr_loop_zero_diverges fuel errno rr cp len w :
  (cp + sizeof_rr_pco_match <= length rr)%nat → Z.of_nat sizeof_rr_pco_match <= len →
  rd8 rr (cp + 1) = Some 0 →
  rr_loop fuel errno rr cp len w = Ret (None, w).
Proof.
  intros Hcp Hlen Ez. unfold sizeof_rr_pco_match in *.
  induction fuel as [|fuel IH]; [done|]. cbn [rr_loop].
  rewrite (proj2 (Nat.leb_gt _ _)), (proj2 (Z.ltb_ge _ _)) by (unfold sizeof_rr_pco_match; lia).
  rewrite (lift_run _ _ _ 0) by (unfold rpm_len; by rewrite Ez).
  change (Z.shiftl 0 3) with 0. rewrite (proj2 (Z.ltb_ge _ _)) by lia.
  rewrite (bind_run _ _ w (Some 1) w).
  - replace (cp + Z.to_nat 0)%nat with cp by lia. by rewrite Z.sub_0_r.
  - unfold do_pco. rewrite (lift_run _ _ _ 1); [done|].
    unfold rr_pco_check, rpm_len. by rewrite Ez.
Qed.

End loop.

(** ** The effect of a change on the advertised prefixes *)

Definition map_pfx (g : prefix → prefix) (l : list rainfo) : list rainfo :=
  (λ r, r <| rai_prefix := g <$> rai_prefix r |>) <$> l.

Lemma map_pfx_compose f g l : map_pfx g (map_pfx f l) = map_pfx (g ∘ f) l.
Proof.
  unfold map_pfx. rewrite <- list_fmap_compose. apply list_fmap_ext. intros i r _. simpl.
  unfold update_field; simpl. by rewrite <- list_fmap_compose.
Qed.

Lemma map_pfx_id g l : (∀ p, g p = p) → map_pfx g l = l.
Proof.
  intros Hg. assert (Hl : ∀ ps : list prefix, g <$> ps = ps).
  { induction ps as [|p ps IH]; [done|]. csimpl. by rewrite Hg, IH. }
  unfold map_pfx. induction l as [|r l IH]; [done|]. csimpl. rewrite IH. f_equal.
  unfold update_field; simpl. rewrite Hl. by destruct r.
Qed.

Section change.
Context `{Env} (rpu : rr_pco_use) (dv dp : bool).

(** A prefix with the parameters of [rpu]: fixed lifetimes, or lifetimes that
    expire at a time computed from a reading of the clock in a window. *)
Definition renumbered (t0 t1 : nat) (p p' : prefix) : Prop :=
  ∃ v l, p' = p <| pfx_validlifetime := rpu_vltime rpu |> <| pfx_preflifetime := rpu_pltime rpu |>
                <| pfx_vltimeexpire := v |> <| pfx_pltimeexpire := l |> ∧
    (if dv then ∃ t, (t0 <= t < t1)%nat ∧ v = tv_sec (clock t) + rpu_vltime rpu else v = 0) ∧
    (if dp then ∃ t, (t0 <= t < t1)%nat ∧ l = tv_sec (clock t) + rpu_pltime rpu else l = 0).

Lemma change_pfx_run pid w :
  ∃ w' g, change_pfx rpu dv dp pid w = Ret (tt, w') ∧ ralist w' = map_pfx g (ralist w) ∧
    (w_tick w <= w_tick w')%nat ∧
    ∀ p, if decide (pfx_id p = pid) then renumbered (w_tick w) (w_tick w') p (g p) else g p = p.
Proof.
  unfold change_pfx, upd_pfx.
  set (v := if dv then tv_sec (clock (w_tick w)) + rpu_vltime rpu else 0).
  set (l := if dp then tv_sec (clock (if dv then S (w_tick w) else w_tick w)) + rpu_pltime rpu else 0).
  exists (w <| ralist := map_pfx (λ p, if (pfx_id p =? pid)%nat then
      p <| pfx_validlifetime := rpu_vltime rpu |> <| pfx_preflifetime := rpu_pltime rpu |>
        <| pfx_vltimeexpire := v |> <| pfx_pltimeexpire := l |> else p) (ralist w) |>
      <| w_tick := ((if dv then 1 else 0) + (if dp then 1 else 0) + w_tick w)%nat |>).
  eexists. split; [|split; [reflexivity|split; [simpl; lia|]]].
  - unfold mbind, ST_bind, modify, gettimeofday, l, v.
    destruct dv, dp; simpl; do 2 f_equal; unfold update_field; simpl; f_equal;
      unfold map_pfx; rewrite <- !list_fmap_compose; apply list_fmap_ext; intros i r _; simpl;
      unfold update_field; simpl; f_equal; rewrite <- !list_fmap_compose; apply list_fmap_ext;
      intros j p _; simpl; destruct (pfx_id p =? pid)%nat eqn:E; simpl; rewrite ?E; simpl; rewrite ?E; simpl;
      rewrite ?E; done.
  - intros p. case_decide as Ep.
    + rewrite (proj2 (Nat.eqb_eq _ _) Ep). exists v, l. split; [done|]. unfold v, l.
      destruct dv, dp; simpl; split; try done; eexists; (split; [|reflexivity]); lia.
    + by rewrite (proj2 (Nat.eqb_neq _ _) Ep).
Qed.

Lemma renumbered_widen t0 t1 t0' t1' p p' :
  (t0' <= t0)%nat → (t1 <= t1')%nat → renumbered t0 t1 p p' → renumbered t0' t1' p p'.
Proof.
  intros H0 H1 (v & l & E & Hv & Hl). exists v, l. split; [done|].
  split; [destruct dv|destruct dp]; try done; [destruct Hv as (t & ? & ?)|destruct Hl as (t & ? & ?)];
    exists t; (split; [lia|done]).
Qed.

Definition matches (mprefix : in6_addr) (mlen : Z) (p : prefix) : bool :=
  truthy (prefix_match (pfx_prefix p) (pfx_prefixlen p) mprefix mlen).

Lemma renumbered_id t0 t1 p p' : renumbered t0 t1 p p' → pfx_id p' = pfx_id p.
Proof. by intros (v & l & -> & _). Qed.

Lemma change_pfxs_run mprefix mlen ps : ∀ w,
  NoDup (pfx_id <$> ps) →
  ∃ w' g, change_pfxs rpu dv dp mprefix mlen ps w = Ret (tt, w') ∧
    ralist w' = map_pfx g (ralist w) ∧ (w_tick w <= w_tick w')%nat ∧
    (∀ q, pfx_id q ∉ pfx_id <$> filter (λ p, matches mprefix mlen p = true) ps → g q = q) ∧
    (∀ q, pfx_id q ∈ pfx_id <$> filter (λ p, matches mprefix mlen p = true) ps →
       renumbered (w_tick w) (w_tick w') q (g q)).
Proof.
  induction ps as [|p ps IH]; intros w Hn.
  { exists w, id. split; [done|]. rewrite map_pfx_id by done. split_and!; try done.
    intros q Hq. by apply elem_of_nil in Hq. }
  csimpl in Hn. apply NoDup_cons in Hn as [Hp Hn]. cbn [change_pfxs]. unfold when.
  fold (matches mprefix mlen p). rewrite filter_cons. destruct (matches mprefix mlen p) eqn:Em; simpl.
  2:{ destruct (IH w Hn) as (w' & g & E & Hrest). exists w', g. by split. }
  destruct (change_pfx_run (pfx_id p) w) as (w1 & g1 & E1 & R1 & T1 & G1).
  destruct (IH w1 Hn) as (w2 & g2 & E2 & R2 & T2 & K2 & C2).
  exists w2, (g2 ∘ g1). rewrite (bind_run _ _ _ _ _ E1). split; [exact E2|].
  split; [by rewrite R2, R1, map_pfx_compose|]. split; [lia|]. csimpl.
  assert (Hout : pfx_id p ∉ pfx_id <$> filter (λ p, matches mprefix mlen p = true) ps).
  { intros Hin. apply Hp. apply list_elem_of_fmap in Hin as (q & -> & Hq).
    apply list_elem_of_filter in Hq as [_ Hq]. by apply list_elem_of_fmap_2. }
  split; intros q Hq; specialize (G1 q).
  - apply not_elem_of_cons in Hq as [Hq1 Hq2]. rewrite decide_False in G1 by done. simpl. rewrite G1. auto.
  - simpl. destruct (decide (pfx_id q = pfx_id p)) as [Eq|Hne].
    + assert (Eg := renumbered_id _ _ _ _ G1). rewrite K2 by (by rewrite Eg, Eq).
      eapply renumbered_widen; [| |done]; lia.
    + rewrite G1. apply elem_of_cons in Hq as [Hq|Hq]; [done|].
      eapply renumbered_widen; [| |by apply C2]; lia.
Qed.

(** The change of a renumbering command affects exactly the prefixes it
    matches. Of all advertised prefixes, those of the interface that are at
    least as long as the match length and agree with the match prefix on its
    first bits get the lifetimes of the command (counted down from a reading
    of the clock during the call, if the command asks for it); every other
    prefix, on this and on other interfaces, and everything else is kept. *)
Lemma renumber_change w rai mprefix mlen :
  NoDup (pfx_id <$> all_prefixes w) → rai ∈ ralist w → Forall pfx_wf (all_prefixes w) →
  addr_ok mprefix → 0 <= mlen <= 128 →
  ∃ w' g, change_pfxs rpu dv dp mprefix mlen (rai_prefix rai) w = Ret (tt, w') ∧
    ralist w' = map_pfx g (ralist w) ∧
    ∀ q, q ∈ all_prefixes w →
      let hit := q ∈ rai_prefix rai ∧ mlen <= pfx_prefixlen q ∧ same_prefix mlen (pfx_prefix q) mprefix in
      (hit → renumbered (w_tick w) (w_tick w') q (g q)) ∧ (¬ hit → g q = q).
Proof.
  intros Hn Hr Hw Ha Hm.
  assert (Hsub : ∀ p, p ∈ rai_prefix rai → p ∈ all_prefixes w).
  { intros p Hp. apply list_elem_of_bind. eauto. }
  assert (Hinj : ∀ p q, p ∈ all_prefixes w → q ∈ all_prefixes w → pfx_id p = pfx_id q → p = q).
  { intros p q Hp Hq E. apply list_elem_of_lookup in Hp as [i Hi], Hq as [j Hj].
    assert (i = j); [|congruence]. eapply NoDup_lookup; [exact Hn|..]; rewrite list_lookup_fmap.
    - by rewrite Hi.
    - rewrite Hj. simpl. by rewrite E. }
  assert (Hnr : NoDup (pfx_id <$> rai_prefix rai)).
  { apply list_elem_of_split in Hr as (l1 & l2 & E). unfold all_prefixes in Hn. rewrite E in Hn.
    rewrite bind_app, bind_cons, !fmap_app in Hn. apply NoDup_app in Hn as (_ & _ & Hn).
    by apply NoDup_app in Hn as (Hn & _). }
  destruct (change_pfxs_run mprefix mlen (rai_prefix rai) w Hnr) as (w' & g & E & Er & _ & Hk & Hc).
  exists w', g. split; [done|]. split; [done|]. intros q Hq hit.
  assert (Hit : pfx_id q ∈ pfx_id <$> filter (λ p, matches mprefix mlen p = true) (rai_prefix rai) ↔ hit).
  { assert (Hb : addr_ok (pfx_prefix q)) by (rewrite Forall_forall in Hw; by apply Hw).
    rewrite list_elem_of_fmap. unfold hit. rewrite <- (prefix_bits_eq_spec _ _ mlen Hb Ha Hm). split.
    - intros (p & Ep & Hp). apply list_elem_of_filter in Hp as [Hp Hin].
      assert (q = p) as -> by auto. unfold matches, prefix_match in Hp.
      destruct (Z.ltb_spec (pfx_prefixlen p) mlen); [done|]. by destruct (prefix_bits_eq _ _ _).
    - intros (Hin & Hle & Eb). exists q. split; [done|]. apply list_elem_of_filter. split; [|done].
      unfold matches, prefix_match. rewrite (proj2 (Z.ltb_ge _ _)) by lia. by rewrite Eb. }
  rewrite <- Hit. split; auto.
Qed.

End change.

(** ** Concrete commands *)

#[local] Instance rr_env : Env := {|
  clock := λ n, TV (1000 + Z.of_nat n) 0; random := λ _, 0; junk := λ _, 0; if_indextoname := λ _, None |}.
Definition rr_world : world :=
  World [sample_rai] (TQ tm_max [] 0) [Ifm 4 1] 0 0 8 [] zero_rro [].

Lemma rr_loop_zero_diverges_witness :
  rr_loop 1000 0 (replicate 16 0 ++ RPM_PCO_CHANGE :: 0 :: replicate 22 0) 16 24 rr_world = Ret (None, rr_world).
Proof. apply rr_loop_zero_diverges; [simpl; unfold sizeof_rr_pco_match; lia|reflexivity || (unfold sizeof_rr_pco_match; lia)|reflexivity]. Defined.

Lemma renumber_change_witness :
  ∃ w' g, change_pfxs (Rpu 32 32 0 0 7200 3600 0 (sample_addr 1)) true false (sample_addr 1) 32
      (rai_prefix sample_rai) rr_world = Ret (tt, w') ∧
    ralist w' = map_pfx g [sample_rai] ∧ pfx_validlifetime (g sample_pfx) = 7200.
Proof.
  destruct (renumber_change (Rpu 32 32 0 0 7200 3600 0 (sample_addr 1)) true false rr_world sample_rai
    (sample_addr 1) 32) as (w' & g & E & Er & Hg).
  - apply NoDup_singleton.
  - apply list_elem_of_here.
  - apply sample_rai_wf.
  - by apply sample_addr_ok.
  - lia.
  - exists w', g. split; [exact E|]. split; [exact Er|].
    destruct (Hg sample_pfx (list_elem_of_here _ _)) as [Hit _].
    destruct Hit as (v & l & -> & _); [|done].
    split; [apply list_elem_of_here|]. split; [simpl; lia|]. by intros i.
Defined.
