(* ===== verification/Rtadvd.v ===== *)
(** * Rtadvd: the router advertisement daemon (rtadvd.tproj/rtadvd.c)

    The handlers of received packets, routing messages and expired timers,
    and the main loop, on the state of RaState.v. *)

From S2P Require Import Prelude Timeval In6 NdOpt RaTimer RtMsg Rainfo RaState Rrenum.

Definition MAX_INITIAL_RTR_ADVERT_INTERVAL : Z := 16.
Definition MAX_INITIAL_RTR_ADVERTISEMENTS : Z := 3.
Definition MAX_FINAL_RTR_ADVERTISEMENTS : nat := 1.
Definition MIN_DELAY_BETWEEN_RAS : Z := 3.
Definition MAX_RA_DELAY_TIME : Z := 500000.

Section handlers.
Context `{Env}.

(** ** Sending advertisements *)

(** The interval until the next advertisement. A zero divisor is a fault. *)
Definition ra_timer_update (rai : nat) : IO timeval :=
  r ← deref_rai rai;
  let range := u32 (rai_maxinterval r - rai_mininterval r) in
  if range =? 0 then lift Crash else
  rnd ← call_random;
  let interval := rai_mininterval r + rnd mod range in
  let interval :=
    if (rai_initcounter r <? MAX_INITIAL_RTR_ADVERTISEMENTS)
       && (MAX_INITIAL_RTR_ADVERT_INTERVAL <? interval)
    then MAX_INITIAL_RTR_ADVERT_INTERVAL else interval in
  mret (TV (if rai_initcounter r =? 0 then 0 else interval) 0).

Definition ra_output (rai : nat) : IO unit :=
  r ← deref_rai rai;
  w ← get;
  match get_interface_entry (rai_ifindex r) (w_ifilist w) with
  | None => skip
  | Some ifm =>
      if Z.land (ifm_flags ifm) IFF_UP =? 0 then skip else
      _ ← w_make_packet rai;
      r ← deref_rai rai;
      data ← lift (of_opt (rai_ra_data r));
      _ ← modify (λ w, w <| w_sent := (rai_ifindex r, data) :: w_sent w |>);
      _ ← upd_rai rai (λ r,
            if rai_initcounter r <? MAX_INITIAL_RTR_ADVERTISEMENTS
            then r <| rai_initcounter := rai_initcounter r + 1 |> else r);
      _ ← upd_rai rai (λ r, r <| rai_raoutput := u64 (rai_raoutput r + 1) |>);
      _ ← upd_rai rai (λ r, r <| rai_soliciter := [] |>);
      now ← gettimeofday;
      _ ← upd_rai rai (λ r, r <| rai_lastsent := now |>);
      upd_rai rai (λ r, r <| rai_waiting := 0 |>)
  end.

(** The result tells whether [rai->timer] is not NULL. *)
Definition ra_timeout (rai : nat) : IO bool :=
  _ ← ra_output rai;
  r ← deref_rai rai;
  mret (bool_decide (is_Some (rai_timer r))).

Definition set_short_delay (rai : nat) : IO unit :=
  r ← deref_rai rai;
  match rai_timer r with
  | None => skip
  | Some t =>
      rnd ← call_random;
      let delay := rnd mod MAX_RA_DELAY_TIME in
      let interval := TV 0 delay in
      rest ← w_timer_rest t;
      let interval := if TIMEVAL_LT rest interval then rest else interval in
      now ← gettimeofday;
      let tm_tmp := TIMEVAL_SUB now (rai_lastsent r) in
      let min_delay := TV MIN_DELAY_BETWEEN_RAS 0 in
      let interval :=
        if TIMEVAL_LT tm_tmp min_delay
        then TIMEVAL_ADD (TIMEVAL_SUB min_delay tm_tmp) interval else interval in
      w_set_timer interval t
  end.

(** Installs a fresh timer of an interface and starts it: [getconfig] and the
    DOWN to UP transition end with these calls. *)
Definition start_ra_timer (rai : nat) : IO unit :=
  t ← w_add_timer (RaTimeout rai);
  _ ← upd_rai rai (λ r, r <| rai_timer := Some t |>);
  tm ← ra_timer_update rai;
  _ ← queue_op (write_tm t tm);
  w_set_timer tm t.

(** ** Router solicitations *)

Definition rs_input (rs : bytes) (ifindex : Z) (from : in6_addr) : IO unit :=
  '(bad, ndopts) ← lift (nd6_options rs 8 (Z.of_nat (length rs) - 8) NDOPT_FLAG_SRCLINKADDR);
  if truthy bad then skip else
  if IN6_IS_ADDR_UNSPECIFIED from && bool_decide (is_Some (nd_opts_src_lladdr ndopts)) then skip else
  w ← get;
  match if_indextorainfo ifindex (ralist w) with
  | None => skip
  | Some ra =>
      let id := rai_id ra in
      _ ← upd_rai id (λ r, r <| rai_rsinput := u64 (rai_rsinput r + 1) |>);
      _ ← upd_rai id (λ r, r <| rai_soliciter := from :: rai_soliciter r |>);
      _ ← upd_rai id (λ r, r <| rai_waiting := s32 (rai_waiting r + 1) |>);
      if truthy (rai_waiting ra) then skip else set_short_delay id
  end.

(** ** Router advertisements of other routers *)

(** [on_off[i]] for an array of two strings. *)
Definition on_off (i : Z) : outcome unit := if (0 <=? i) && (i <? 2) then Ret tt else Crash.

(** A flag of the packet compared with ours; the log message looks both up. *)
Definition flag_check (received ours : Z) : outcome Z :=
  if received =? ours then Ret 0
  else _ ← on_off (bool_int (ours =? 0)); _ ← on_off ours; Ret 1.

(** Two values disagree if both are specified and differ. *)
Definition value_check (received ours : Z) : Z :=
  bool_int (truthy received && truthy ours && negb (received =? ours)).

(** One lifetime of a prefix; [strict] says whether a difference in a lifetime
    that is not decremented counts. *)
Definition lifetime_check (p : prefix) (clockskew received expire lifetime : Z) (strict : bool) : IO Z :=
  let invalidated := bool_decide (is_Some (pfx_timer p)) in
  if truthy expire then
    now ← gettimeofday;
    let received := u32 (received + tv_sec now) in
    mret (bool_int (negb invalidated && truthy clockskew && (clockskew <? received - expire)))
  else mret (bool_int (strict && negb invalidated && negb (received =? lifetime))).

Definition prefix_check (ra : bytes) (pinfo : nat) (rai : rainfo) : IO Z :=
  plen ← lift (of_opt (rd8 ra (pinfo + 2)));
  vltime ← lift (of_opt (rd32 ra (pinfo + 4)));
  pltime ← lift (of_opt (rd32 ra (pinfo + 8)));
  addr ← lift (of_opt (read_at ra (pinfo + 16) 16));
  match find_prefix (rai_prefix rai) addr plen with
  | None => mret 0
  | Some pp =>
      n1 ← lifetime_check pp (rai_clockskew rai) pltime (pfx_pltimeexpire pp) (pfx_preflifetime pp) false;
      n2 ← lifetime_check pp (rai_clockskew rai) vltime (pfx_vltimeexpire pp) (pfx_validlifetime pp) true;
      mret (n1 + n2)
  end.

Fixpoint prefix_checks (ra : bytes) (ps : list nat) (rai : rainfo) : IO Z :=
  match ps with
  | [] => mret 0
  | p :: ps =>
      n ← prefix_check ra p rai;
      m ← prefix_checks ra ps rai;
      mret (bool_int (truthy n) + m)
  end.

Definition ra_input (ra : bytes) (ifindex : Z) : IO unit :=
  '(bad, ndopts) ← lift (nd6_options ra 16 (Z.of_nat (length ra) - 16)
    (Z.lor (Z.lor NDOPT_FLAG_SRCLINKADDR NDOPT_FLAG_PREFIXINFO) NDOPT_FLAG_MTU));
  if truthy bad then skip else
  w ← get;
  match if_indextorainfo ifindex (ralist w) with
  | None => skip
  | Some rai =>
      let id := rai_id rai in
      _ ← upd_rai id (λ r, r <| rai_rainput := u64 (rai_rainput r + 1) |>);
      hoplimit ← lift (of_opt (rd8 ra 4));
      flags ← lift (of_opt (rd8 ra 5));
      m ← lift (flag_check (Z.land flags ND_RA_FLAG_MANAGED) (rai_managedflg rai));
      o ← lift (flag_check (Z.land flags ND_RA_FLAG_OTHER) (rai_otherflg rai));
      reachabletime ← lift (of_opt (rd32 ra 8));
      retranstimer ← lift (of_opt (rd32 ra 12));
      mtu ← match nd_opts_mtu ndopts with
            | Some off => mtu ← lift (of_opt (rd32 ra (off + 4)));
                          mret (value_check mtu (rai_linkmtu rai))
            | None => mret 0
            end;
      pi ← match nd_opts_pi ndopts with
           | Some off => prefix_checks ra [off] rai
           | None => mret 0
           end;
      pis ← prefix_checks ra (nd_opts_list ndopts) rai;
      let inconsistent :=
        value_check hoplimit (rai_hoplimit rai) + m + o
        + value_check reachabletime (rai_reachabletime rai)
        + value_check retranstimer (rai_retranstimer rai) + mtu + pi + pis in
      when (truthy inconsistent)
        (upd_rai id (λ r, r <| rai_rainconsistent := u64 (rai_rainconsistent r + 1) |>))
  end.

(** ** Received packets *)

(** The ancillary data of [recvmsg] that the daemon looks at. *)
Inductive cmsg :=
  | CmsgPktinfo (ifindex : Z) (addr : in6_addr)
  | CmsgHoplimit (hlim : Z)
  | CmsgOther.
Record received := Received {
  rcv_data : bytes;
  rcv_from : in6_addr;
  rcv_cmsgs : list cmsg }.

Definition cmsg_scan (cms : list cmsg) : Z * in6_addr * option Z :=
  foldl (λ '(ifindex, dst, hlim) cm,
    match cm with
    | CmsgPktinfo i a => (i, a, hlim)
    | CmsgHoplimit h => (ifindex, dst, Some h)
    | CmsgOther => (ifindex, dst, hlim)
    end) (0, in6addr_any, None) cms.

(** [recvmsg] failed if there is no message. [fuel], [errno] and [dump] are
    for [rr_input]; the result is [None] if it runs out of fuel. *)
Definition rtadvd_input (accept_rr : bool) (fuel : nat) (errno : Z) (dump : option bytes)
    (msg : option received) : IO (option unit) :=
  match msg with
  | None => mret (Some tt)
  | Some msg =>
      let '(ifindex, dst, hlim) := cmsg_scan (rcv_cmsgs msg) in
      let data := rcv_data msg in
      if ifindex =? 0 then mret (Some tt) else
      match hlim with
      | None => mret (Some tt)
      | Some hlim =>
          w ← get;
          match get_interface_entry ifindex (w_ifilist w) with
          | None => mret (Some tt)
          | Some ifm =>
              if Z.land (ifm_flags ifm) IFF_UP =? 0 then mret (Some tt) else
              if (length data <? 8)%nat then mret (Some tt) else
              type ← lift (of_opt (rd8 data 0));
              code ← lift (of_opt (rd8 data 1));
              if type =? ND_ROUTER_SOLICIT then
                if negb (hlim =? 255) || truthy code then mret (Some tt)
                else _ ← rs_input data ifindex (rcv_from msg); mret (Some tt)
              else if type =? ND_ROUTER_ADVERT then
                if negb (hlim =? 255) || truthy code || (length data <? 16)%nat then mret (Some tt)
                else _ ← ra_input data ifindex; mret (Some tt)
              else if type =? ICMP6_ROUTER_RENUMBERING then
                if accept_rr then rr_input fuel errno dump data dst dst else mret (Some tt)
              else mret (Some tt)
          end
      end
  end.

(** ** Routing messages *)

Definition rtmsg_filter : Z :=
  Z.lor (Z.lor (Z.lor (Z.lor (RTADV_TYPE2BITMASK RTM_ADD) (RTADV_TYPE2BITMASK RTM_DELETE))
    (RTADV_TYPE2BITMASK RTM_NEWADDR)) (RTADV_TYPE2BITMASK RTM_DELADDR)) (RTADV_TYPE2BITMASK RTM_IFINFO).

Definition set_ifm_flags (ifindex flags : Z) : IO unit :=
  modify (λ w, w <| w_ifilist := set_interface_flags ifindex flags (w_ifilist w) |>).

(** RTM_ADD and RTM_DELETE: the address and the mask are those of the first
    message of the buffer. The result tells whether a prefix has changed. *)
Definition route_added (msg : bytes) (rai : nat) (ifindex : Z) : IO bool :=
  addr ← lift (get_addr msg 0);
  plen ← lift (get_prefixlen msg 0);
  if (plen <? 4) || (127 <? plen) then mret false else
  r ← deref_rai rai;
  match find_prefix (rai_prefix r) addr plen with
  | Some p =>
      match pfx_timer p with
      | Some _ => _ ← update_prefix (pfx_id p); mret true
      | None => mret false
      end
  | None => _ ← make_prefix rai ifindex addr plen; mret true
  end.

Definition route_deleted (msg : bytes) (rai : nat) : IO bool :=
  addr ← lift (get_addr msg 0);
  plen ← lift (get_prefixlen msg 0);
  if (plen <? 4) || (127 <? plen) then mret false else
  r ← deref_rai rai;
  match find_prefix (rai_prefix r) addr plen with
  | None => mret false
  | Some p => _ ← invalidate_prefix (pfx_id p); mret true
  end.

(** The switch over the message type, with the new interface flags first. *)
Definition rtmsg_switch (sflag : bool) (msg : bytes) (siocgifflags : option Z) (next : nat)
    (type ifindex : Z) (rai : nat) (oldifflags : Z) : IO bool :=
  if type =? RTM_IFINFO then
    flags ← lift (get_ifm_flags msg next);
    _ ← set_ifm_flags ifindex flags; mret false
  else
    _ ← set_ifm_flags ifindex (if_getflags siocgifflags oldifflags);
    if sflag then mret false
    else if type =? RTM_ADD then route_added msg rai ifindex
    else if type =? RTM_DELETE then route_deleted msg rai
    else mret false.

(** The end of an iteration: what follows from the change of the flags. *)
Definition flags_changed (rai : nat) (oldifflags newifflags : Z) (prefixchange : bool) : IO unit :=
  if is_up oldifflags && negb (is_up newifflags) then
    r ← deref_rai rai;
    t ← lift (of_opt (rai_timer r));
    _ ← w_remove_timer t;
    upd_rai rai (λ r, r <| rai_timer := None |>)
  else if negb (is_up oldifflags) && is_up newifflags then
    _ ← upd_rai rai (λ r, r <| rai_initcounter := 0 |>);
    _ ← upd_rai rai (λ r, r <| rai_waiting := 0 |>);
    start_ra_timer rai
  else if prefixchange && is_up newifflags then
    _ ← upd_rai rai (λ r, r <| rai_initcounter := 0 |>);
    set_short_delay rai
  else skip.

(** One message, found at [next]. The result is the new [prefixchange]. *)
Definition rtmsg_one (sflag : bool) (msg : bytes) (siocgifflags : option Z) (next : nat)
    (prefixchange : bool) : IO bool :=
  type ← lift (rtmsg_type msg next);
  ifindex ← lift (if (type =? RTM_ADD) || (type =? RTM_DELETE) then get_rtm_ifindex msg next
                  else get_ifm_ifindex msg next);
  w ← get;
  match if_indextorainfo ifindex (ralist w) with
  | None => mret prefixchange
  | Some rai =>
      match get_interface_entry ifindex (w_ifilist w) with
      | None => mret prefixchange
      | Some ifm =>
          let oldifflags := ifm_flags ifm in
          changed ← rtmsg_switch sflag msg siocgifflags next type ifindex (rai_id rai) oldifflags;
          let prefixchange := prefixchange || changed in
          w ← get;
          ifm' ← lift (of_opt (get_interface_entry ifindex (w_ifilist w)));
          _ ← flags_changed (rai_id rai) oldifflags (ifm_flags ifm') prefixchange;
          mret prefixchange
      end
  end.

(** The loop over the buffer. [siocgifflags] gives the answer of the ioctl for
    the message at an offset. Every iteration advances. *)
Fixpoint rtmsg_loop (fuel : nat) (sflag : bool) (msg : bytes) (siocgifflags : nat → option Z)
    (next lim : nat) (prefixchange : bool) : IO unit :=
  match fuel with
  | O => skip
  | S fuel =>
      if (lim <=? next)%nat then skip else
      '(next, len) ← lift (get_next_msg msg next lim 0 rtmsg_filter);
      if len =? 0 then skip else
      prefixchange ← rtmsg_one sflag msg (siocgifflags next) next prefixchange;
      rtmsg_loop fuel sflag msg siocgifflags (next + Z.to_nat len) lim prefixchange
  end.

(** [msg] is the buffer of 2048 octets and [n] the result of [read]. *)
Definition rtmsg_input (sflag : bool) (msg : bytes) (n : Z) (siocgifflags : nat → option Z) : IO unit :=
  rtmsg_loop (S (Z.to_nat n)) sflag msg siocgifflags 0 (Z.to_nat n) false.

(** ** Termination of the daemon *)

Fixpoint for_each_rai (f : nat → IO unit) (l : list rainfo) : IO unit :=
  match l with
  | [] => skip
  | r :: l => _ ← f (rai_id r); for_each_rai f l
  end.

Fixpoint repeat_io (n : nat) (m : IO unit) : IO unit :=
  match n with O => skip | S n => _ ← m; repeat_io n m end.

(** What [die] does before it calls [exit(0)]. *)
Definition die_output : IO unit :=
  w ← get;
  _ ← for_each_rai (λ id, _ ← upd_rai id (λ r, r <| rai_lifetime := 0 |>); w_make_packet id) (ralist w);
  repeat_io MAX_FINAL_RTR_ADVERTISEMENTS (w ← get; for_each_rai ra_output (ralist w)).
Definition die : IO unit := _ ← die_output; exit 0.

End handlers.

(** ** The timers of the daemon *)

#[export] Instance rtadvd_host `{Env} : TimerHost callback world := {|
  host_queue := w_queue;
  host_set_queue := λ q w, w <| w_queue := q |>;
  host_now := gettimeofday;
  host_expire := λ d, match d with
                      | RaTimeout rai => ra_timeout rai
                      | PrefixTimeout pfx => prefix_timeout pfx
                      end;
  host_update := λ d, match d with
                      | RaTimeout rai => Some (ra_timer_update rai)
                      | PrefixTimeout _ => None
                      end |}.

(** ** The main loop *)

(** What [select] reports, with the data read. *)
Inductive event :=
  | EvTimeout
  | EvRtmsg (msg : bytes) (n : Z) (siocgifflags : nat → option Z)
  | EvPacket (msg : option received).

(** The options of the command line that the loop depends on. *)
Record options := Options { opt_sflag : bool; opt_accept_rr : bool }.

Section loop.
Context `{Env} (opts : options).

Definition handle (fuel : nat) (errno : Z) (dump : option bytes) (e : event) : IO (option unit) :=
  match e with
  | EvTimeout => mret (Some tt)
  | EvRtmsg msg n flags => _ ← rtmsg_input (opt_sflag opts) msg n flags; mret (Some tt)
  | EvPacket msg => rtadvd_input (opt_accept_rr opts) fuel errno dump msg
  end.

(** One turn: the timers, then the sockets that [select] reports readable. *)
Definition main_turn (fuel : nat) (errno : Z) (dump : option bytes) (evs : list event) : IO (option unit) :=
  _ ← rtadvd_check_timer;
  foldr (λ e k, r ← handle fuel errno dump e;
                match r with None => mret None | Some _ => k end) (mret (Some tt)) evs.

End loop.
