(* ===== verification/RtadvdSafe.v ===== *)
(** * RtadvdSafe: the handlers of rtadvd keep the invariant

    The handlers of Rtadvd.v return from every state in the invariant of
    RaInv.v and keep it; the timer queue of the daemon obeys the laws of
    RaTimer.v, so a pass over the timers behaves as specified there. *)

From S2P Require Import Prelude Timeval In6 NdOpt RaTimer RtMsg Rainfo.
From S2P Require Import RaState RaInv RaOps Rrenum Rtadvd.

(** ** Options of a received packet *)

(** The recorded offsets of an accepted option area lie inside the packet. *)
Definition opts_inside (buf : bytes) (nd : nd_opts) : Prop :=
  (∀ off, nd_opts_mtu nd = Some off → (off + 8 <= length buf)%nat) ∧
  (∀ off, nd_opts_pi nd = Some off ∨ off ∈ nd_opts_list nd → (off + 32 <= length buf)%nat).

Lemma placed_inside os : ∀ pre off o,
  (off, o) ∈ placed (length pre) os →
  (off + length (encode_opt o) <= length (pre ++ encode_opts os))%nat.
Proof.
  induction os as [|o' os IH]; intros pre off o Hin; [by apply elem_of_nil in Hin|].
  rewrite encode_opts_cons, !length_app. simpl in Hin. apply elem_of_cons in Hin as [[= -> ->]|Hin].
  - lia.
  - specialize (IH (pre ++ encode_opt o') off o). rewrite !length_app in IH. specialize (IH Hin). lia.
Qed.

Lemma wanted_inside flags t pre os off n :
  off ∈ wanted_at flags t (placed (length pre) os) →
  (∀ o, wanted flags t o = true → opt_len o = Z.of_nat n) →
  (off + n <= length (pre ++ encode_opts os))%nat.
Proof.
  intros Hin Hn. unfold wanted_at in Hin. apply list_elem_of_fmap in Hin as ([off' o] & -> & Hin).
  apply list_elem_of_filter in Hin as [Hw Hin]. apply placed_inside in Hin. simpl.
  specialize (Hn o Hw). pose proof (opt_len_length o). lia.
Qed.

Lemma collected_inside flags pre os :
  opts_inside (pre ++ encode_opts os) (collected flags (placed (length pre) os)).
Proof.
  split.
  - intros off Hm. simpl in Hm.
    assert (Hin : off ∈ wanted_at flags ND_OPT_MTU (placed (length pre) os)) by (by eapply last_Some_elem_of).
    eapply wanted_inside in Hin; [exact Hin|]. intros o Hw. unfold wanted in Hw. simpl in Hw.
    apply andb_true_iff in Hw as [_ Hw]. apply Z.eqb_eq in Hw. done.
  - intros off Hm.
    assert (Hin : off ∈ wanted_at flags ND_OPT_PREFIX_INFORMATION (placed (length pre) os)).
    { simpl in Hm. destruct (wanted_at _ _ _) as [|x l]; simpl in Hm.
      - destruct Hm as [?|Hm]; [done|]. by apply elem_of_nil in Hm.
      - destruct Hm as [[= ->]|Hm]; [apply list_elem_of_here|]. right.
        by rewrite elem_of_reverse in Hm. }
    eapply wanted_inside in Hin; [exact Hin|]. intros o Hw. unfold wanted in Hw. simpl in Hw.
    apply andb_true_iff in Hw as [_ Hw]. apply Z.eqb_eq in Hw. done.
Qed.

(** Parsing the options after a fixed header always returns. *)
Lemma nd6_options_returns buf n flags :
  bytes_ok buf → (n <= length buf)%nat →
  ∃ r nd, nd6_options buf n (Z.of_nat (length buf) - Z.of_nat n) flags = Ret (r, nd) ∧
    (truthy r = false → opts_inside buf nd).
Proof.
  intros Hok Hn. set (pre := take n buf). set (area := drop n buf).
  assert (Lp : length pre = n) by (unfold pre; rewrite length_take; lia).
  assert (La : Z.of_nat (length area) = Z.of_nat (length buf) - Z.of_nat n)
    by (unfold area; rewrite length_drop; lia).
  assert (Eb : buf = pre ++ area ++ []) by (unfold pre, area; by rewrite app_nil_r, take_drop).
  unfold nd6_options. rewrite <- La, Nat2Z.id.
  destruct (loop_spec (S (length area)) pre area [] [] flags ltac:(by apply Forall_drop) ltac:(lia))
    as [(os & [Ea Hw] & E)|[_ (nd & E)]]; rewrite <- Eb, Lp in E.
  - exists 0, (collected flags (placed n os)). split; [exact E|]. intros _.
    rewrite Eb, app_nil_r, Ea, <- Lp. apply collected_inside.
  - exists (-1), nd. split; [exact E|done].
Qed.

(** ** Handlers that touch no pointer *)

(** Assignments to the fields that carry no pointer and no packet data. *)
Definition harmless (f : rainfo → rainfo) : Prop :=
  (∀ r, shape_rai (f r) = shape_rai r) ∧ (∀ r, rai_ok r → rai_ok (f r)).

Ltac harmless_tac :=
  split; intros ?; cbv beta;
  repeat match goal with |- context [if ?b then _ else _] => destruct b end; try done;
  intros [[] ?]; (constructor; [constructor|]); done.

Section calm.
Context `{Env} (ids : list ident) (needs : Z → bool) (R : relation world) `{!CalmRel R}.

Lemma calm_upd w id f : Inv ids needs w → harmless f → calm R w (upd_rai id f).
Proof. intros Hi [Hs Hok]. eapply calm_upd_rai; [done..|]. intros r _. apply Hok. Qed.

(** One assignment, and then the rest. *)
Lemma calm_upd_then {B} w id f (k : unit → IO B) :
  Inv ids needs w → harmless f → (∀ w', Inv ids needs w' → R w w' → calm R w' (k tt)) →
  calm R w (upd_rai id f ≫= k).
Proof.
  intros Hi Hf Hk. apply calm_bind; [done|by apply calm_upd|]. intros [] w' _ HR.
  apply Hk; [by eapply calm_Inv|done].
Qed.

Lemma calm_ra_timer_update w id : Inv ids needs w → id ∈ ids.*1 → calm R w (ra_timer_update id).
Proof.
  intros Hi Hid. destruct (deref_rai_run ids needs w id Hi Hid) as (r & _ & Ed & _ & _ & Hok).
  unfold ra_timer_update. eapply calm_run; [done|]. destruct Hok as [_ [Hmm Hmax]].
  unfold u32. rewrite Z.mod_small by lia. rewrite (proj2 (Z.eqb_neq _ _)) by lia.
  apply calm_bind; [done|apply calm_random, _|]. intros rnd w' _ _. apply calm_ret, _.
Qed.

Lemma calm_ra_output w id : Inv ids needs w → id ∈ ids.*1 → calm R w (ra_output id).
Proof.
  intros Hi Hid. destruct (deref_rai_run ids needs w id Hi Hid) as (r & Ef & Ed & _).
  unfold ra_output. eapply calm_run; [done|]. eapply calm_run; [done|].
  destruct (get_interface_entry _ _) as [ifm|]; [|apply calm_skip, _].
  destruct (_ =? 0); [apply calm_skip, _|].
  destruct (make_packet_run ids needs R w id r Hi Ef) as (E & HR & Ef').
  set (w1 := w <| ralist := _ |> <| w_tick := _ |>) in *.
  assert (Hi1 : Inv ids needs w1) by (by eapply calm_Inv).
  apply calm_bind; [done|by eexists _, _|]. intros [] w1' E1 _. rewrite E in E1. injection E1 as <-.
  eapply calm_run; [unfold deref_rai; by rewrite Ef'|]. eapply calm_run; [done|].
  apply calm_bind; [done|apply calm_sent, _|]. intros [] w2 _ HR2.
  pose proof (calm_Inv ids needs R _ _ HR2 Hi1) as Hi2.
  apply calm_upd_then; [done|harmless_tac|]. intros w3 Hi3 _.
  apply calm_upd_then; [done|harmless_tac|]. intros w4 Hi4 _.
  apply calm_upd_then; [done|harmless_tac|]. intros w5 Hi5 _.
  apply calm_bind; [done|apply calm_time, _|]. intros now w6 _ HR6.
  pose proof (calm_Inv ids needs R _ _ HR6 Hi5) as Hi6.
  apply calm_upd_then; [done|harmless_tac|]. intros w7 Hi7 _.
  apply calm_upd; [done|harmless_tac].
Qed.

Lemma calm_ra_timeout w id : Inv ids needs w → id ∈ ids.*1 → calm R w (ra_timeout id).
Proof.
  intros Hi Hid. unfold ra_timeout. apply calm_bind; [done|by apply calm_ra_output|].
  intros [] w' _ HR. pose proof (calm_Inv ids needs R _ _ HR Hi) as Hi'.
  destruct (deref_rai_run ids needs w' id Hi' Hid) as (r & _ & Ed & _).
  eapply calm_run; [done|]. apply calm_ret, _.
Qed.

Lemma calm_lifetime_check w p cs rc ex lt st : calm R w (lifetime_check p cs rc ex lt st).
Proof.
  unfold lifetime_check. destruct (truthy ex); [|apply calm_ret, _].
  apply calm_bind; [done|apply calm_time, _|]. intros. apply calm_ret, _.
Qed.

Lemma rd_inside (buf : bytes) off n : (off + n <= length buf)%nat → ∃ v, read_at buf off n = Some v.
Proof. intros. unfold read_at. rewrite bool_decide_true by done. eauto. Qed.

Lemma calm_prefix_check w ra off rai :
  (off + 32 <= length ra)%nat → calm R w (prefix_check ra off rai).
Proof.
  intros Hl. unfold prefix_check.
  destruct (lookup_lt_is_Some_2 ra (off + 2)) as [plen Ep]; [lia|].
  destruct (rd_inside ra (off + 4) 4) as [v1 E1]; [lia|].
  destruct (rd_inside ra (off + 8) 4) as [v2 E2]; [lia|].
  destruct (rd_inside ra (off + 16) 16) as [v3 E3]; [lia|].
  eapply calm_run; [unfold rd8; by rewrite Ep|]. eapply calm_run; [unfold rd32; by rewrite E1|].
  eapply calm_run; [unfold rd32; by rewrite E2|]. eapply calm_run; [by rewrite E3|].
  destruct (find_prefix _ _ _); [|apply calm_ret, _].
  apply calm_bind; [done|apply calm_lifetime_check|]. intros n1 w1 _ _.
  apply calm_bind; [done|apply calm_lifetime_check|]. intros. apply calm_ret, _.
Qed.

Lemma calm_prefix_checks ra rai ps : ∀ w,
  (∀ off, off ∈ ps → (off + 32 <= length ra)%nat) → calm R w (prefix_checks ra ps rai).
Proof.
  induction ps as [|p ps IH]; intros w Hin; simpl; [apply calm_ret, _|].
  apply calm_bind; [done|apply calm_prefix_check, Hin, list_elem_of_here|]. intros n w1 _ _.
  apply calm_bind; [done|apply IH; intros; apply Hin; by right|]. intros. apply calm_ret, _.
Qed.

(** The flags that [ra_input] can look up in its table of two names. *)
Definition flags_printable (r : rainfo) : Prop :=
  0 <= rai_managedflg r < 2 ∧ 0 <= rai_otherflg r < 2.

Lemma flag_check_run x y : 0 <= y < 2 → ∃ n, flag_check x y = Ret n.
Proof.
  intros Hy. unfold flag_check, on_off. destruct (x =? y); [eauto|].
  destruct (y =? 0); simpl; rewrite (proj2 (Z.leb_le _ _)), (proj2 (Z.ltb_lt _ _)) by lia; simpl; eauto.
Qed.

Lemma calm_ra_input w ra ifindex :
  Inv ids needs w → bytes_ok ra → (16 <= length ra)%nat →
  (∀ r, if_indextorainfo ifindex (ralist w) = Some r → flags_printable r) →
  calm R w (ra_input ra ifindex).
Proof.
  intros Hi Hok Hl Hp. unfold ra_input.
  destruct (nd6_options_returns ra 16 (Z.lor (Z.lor NDOPT_FLAG_SRCLINKADDR NDOPT_FLAG_PREFIXINFO)
    NDOPT_FLAG_MTU) Hok Hl) as (bad & nd & E & Hin).
  change (Z.of_nat 16) with 16 in E.
  eapply calm_run; [unfold lift; by rewrite E|]. cbv beta iota.
  destruct (truthy bad); [apply calm_skip, _|]. destruct (Hin eq_refl) as [Hm Hpi]. eapply calm_run; [done|].
  destruct (if_indextorainfo ifindex (ralist w)) as [rai|]; [|apply calm_skip, _].
  destruct (Hp rai eq_refl) as [Hf1 Hf2]. apply calm_upd_then; [done|harmless_tac|].
  intros w1 Hi1 _.
  destruct (lookup_lt_is_Some_2 ra 4) as [hl E4]; [lia|].
  destruct (lookup_lt_is_Some_2 ra 5) as [fl E5]; [lia|].
  destruct (rd_inside ra 8 4) as [v1 E1]; [lia|]. destruct (rd_inside ra 12 4) as [v2 E2]; [lia|].
  destruct (flag_check_run (Z.land fl ND_RA_FLAG_MANAGED) _ Hf1) as [m Em].
  destruct (flag_check_run (Z.land fl ND_RA_FLAG_OTHER) _ Hf2) as [o Eo].
  eapply calm_run; [unfold rd8; by rewrite E4|]. eapply calm_run; [unfold rd8; by rewrite E5|].
  eapply calm_run; [by rewrite Em|]. eapply calm_run; [by rewrite Eo|].
  eapply calm_run; [unfold rd32; by rewrite E1|]. eapply calm_run; [unfold rd32; by rewrite E2|].
  apply calm_bind; [done| |].
  { destruct (nd_opts_mtu nd) as [off|] eqn:Emt; [|apply calm_ret, _].
    destruct (rd_inside ra (off + 4) 4) as [v3 E3]; [specialize (Hm off eq_refl); lia|].
    eapply calm_run; [unfold rd32; by rewrite E3|]. apply calm_ret, _. }
  intros mtu w2 _ HR2. pose proof (calm_Inv ids needs R _ _ HR2 Hi1) as Hi2.
  apply calm_bind; [done| |].
  { destruct (nd_opts_pi nd) as [off|] eqn:Epi; [|apply calm_ret, _].
    apply calm_prefix_checks. intros off' ->%list_elem_of_singleton. apply Hpi. by left. }
  intros n1 w3 _ HR3. pose proof (calm_Inv ids needs R _ _ HR3 Hi2) as Hi3.
  apply calm_bind; [done|apply calm_prefix_checks; intros; apply Hpi; by right|].
  intros n2 w4 _ HR4. pose proof (calm_Inv ids needs R _ _ HR4 Hi3) as Hi4.
  unfold when. destruct (truthy _); [|apply calm_skip, _]. apply calm_upd; [done|harmless_tac].
Qed.

End calm.

(** ** Handlers that set timers *)

Section timers.
Context `{Env} (ids : list ident) (needs : Z → bool).

Lemma calm_set_short_delay w id : Inv ids needs w → id ∈ ids.*1 → calm quiet w (set_short_delay id).
Proof.
  intros Hi Hid. destruct (deref_rai_run ids needs w id Hi Hid) as (r & _ & Ed & Hr & _).
  unfold set_short_delay. eapply calm_run; [done|].
  destruct (rai_timer r) as [t|] eqn:Et; [|apply calm_skip, _].
  pose proof (rai_timer_listed ids needs w r t Hi Hr Et) as Ht.
  apply calm_bind; [apply _|apply calm_random, _|]. intros rnd w1 _ Q1.
  apply calm_bind; [apply _| |].
  { eapply calm_timer_rest; [apply _|by eapply quiet_Inv|]. by rewrite (quiet_entries _ _ Q1). }
  intros rest w2 _ Q2. apply calm_bind; [apply _|apply calm_time, _|]. intros now w3 _ Q3.
  assert (Q : quiet w w3) by (by etrans; [|etrans]).
  eapply calm_set_timer; [by eapply quiet_Inv|]. by rewrite (quiet_entries _ _ Q).
Qed.

Lemma indextorainfo_elem idx l r : if_indextorainfo idx l = Some r → r ∈ l ∧ rai_ifindex r = idx.
Proof.
  induction l as [|x l IH]; simpl; [done|]. destruct (Z.eqb_spec (rai_ifindex x) idx).
  - intros [= <-]. split; [apply list_elem_of_here|done].
  - intros E. destruct (IH E). split; [by right|done].
Qed.

Lemma rai_id_elem w r : Inv ids needs w → r ∈ ralist w → rai_id r ∈ ids.*1.
Proof. intros Hi Hr. rewrite <- (Inv_rai_ids ids needs w Hi). by apply list_elem_of_fmap_2. Qed.

Lemma calm_rs_input w rs ifindex from :
  Inv ids needs w → bytes_ok rs → (8 <= length rs)%nat → calm quiet w (rs_input rs ifindex from).
Proof.
  intros Hi Hok Hl. unfold rs_input.
  destruct (nd6_options_returns rs 8 NDOPT_FLAG_SRCLINKADDR Hok Hl) as (bad & nd & E & _).
  change (Z.of_nat 8) with 8 in E. eapply calm_run; [unfold lift; by rewrite E|]. cbv beta iota.
  destruct (truthy bad); [apply calm_skip, _|].
  destruct (_ && _); [apply calm_skip, _|]. eapply calm_run; [done|].
  destruct (if_indextorainfo ifindex (ralist w)) as [r|] eqn:Er; [|apply calm_skip, _].
  apply indextorainfo_elem in Er as [Hr _]. pose proof (rai_id_elem w r Hi Hr) as Hid.
  eapply calm_upd_then; [apply _|done|harmless_tac|]. intros w1 Hi1 _.
  eapply calm_upd_then; [apply _|done|harmless_tac|]. intros w2 Hi2 _.
  eapply calm_upd_then; [apply _|done|harmless_tac|]. intros w3 Hi3 _.
  destruct (truthy _); [apply calm_skip, _|]. by apply calm_set_short_delay.
Qed.

(** A fresh timer is installed and started; the interface may then need it. *)
Lemma start_ra_timer_safe w id needs' :
  Inv ids needs w → id ∈ ids.*1 →
  (∀ idx r, first_shape idx (w_shape w) = Some r → needs' idx = true →
     needs idx = true ∨ sh_id r = id) →
  ∃ w', start_ra_timer id w = Ret (tt, w') ∧ Inv ids needs' w' ∧ w_ifilist w' = w_ifilist w.
Proof.
  intros Hi Hid Hn. unfold start_ra_timer. pose proof (start_inv ids needs w id needs' Hi Hid Hn) as Hi1.
  set (t := tq_next (w_queue w)) in *. set (w1 := w <| w_queue := _ |> <| ralist := _ |>) in *.
  rewrite (bind_run _ _ w t _ eq_refl). unfold upd_rai. rewrite modify_run.
  match goal with |- context [(_ ≫= _) ?x] => change x with w1 end.
  assert (Ht : t ∈ (w_entries w1).*1) by apply list_elem_of_here.
  assert (Hc : calm quiet w1 (tm ← ra_timer_update id; _ ← queue_op (write_tm t tm); w_set_timer tm t)).
  { apply calm_bind; [apply _|by eapply calm_ra_timer_update; [apply _|..]|]. intros tm w2 _ Q2.
    pose proof (quiet_Inv _ _ _ _ Q2 Hi1) as Hi2. rewrite <- (quiet_entries _ _ Q2) in Ht.
    apply calm_bind; [apply _|by eapply calm_write_tm|]. intros [] w3 _ Q3.
    pose proof (quiet_Inv _ _ _ _ Q3 Hi2) as Hi3. rewrite <- (quiet_entries _ _ Q3) in Ht.
    by eapply calm_set_timer. }
  destruct Hc as ([] & w2 & E & Q). exists w2. split_and!; [done|by eapply quiet_Inv|].
  by rewrite (quiet_ifl _ _ Q).
Qed.

(** ** The laws of the timer queue *)

Lemma ra_entry_id w t id : Inv ids needs w → (t, RaTimeout id) ∈ w_entries w → id ∈ ids.*1.
Proof.
  intros Hi Ht. destruct (sw_rai_entry _ _ _ _ (ww_shape _ (inv_wf _ _ _ Hi)) _ _ Ht) as (r & Hr & <-).
  rewrite <- (Inv_rai_ids ids needs w Hi), <- shape_ids. by apply list_elem_of_fmap_2.
Qed.

Lemma timer_entry w l1 t l2 : tq_list (w_queue w) = l1 ++ t :: l2 → (tm_id t, tm_expire t) ∈ w_entries w.
Proof. intros El. unfold w_entries. rewrite El. apply (list_elem_of_fmap_2 entry), elem_of_middle. Qed.

(** An expired prefix is deleted together with the timer that fired. *)
Lemma prefix_timeout_run w l1 t l2 pid :
  Inv ids needs w → tq_list (w_queue w) = l1 ++ t :: l2 → tm_expire t = PrefixTimeout pid →
  ∃ w', prefix_timeout pid w = Ret (false, w') ∧ Inv ids needs w' ∧ w_ifilist w' = w_ifilist w ∧
    tq_tm (w_queue w') = tq_tm (w_queue w) ∧ tq_list (w_queue w') = l1 ++ l2.
Proof.
  intros Hi El Ex. pose proof (timer_entry w l1 t l2 El) as Ht. rewrite Ex in Ht.
  destruct (sw_pfx_entry _ _ _ _ (ww_shape _ (inv_wf _ _ _ Hi)) _ _ Ht) as [rid Hp].
  rewrite shape_prefixes in Hp. apply list_elem_of_fmap in Hp as (p & Ep & Hp).
  unfold shape_pfx in Ep. injection Ep as -> -> Et.
  destruct (delete_run ids needs w p Hi Hp) as (w' & E & Hi' & Hf & Hq & _).
  exists w'. unfold prefix_timeout. rewrite (bind_run _ _ _ _ _ E).
  rewrite <- Et in Hq. destruct Hq as (Hq & _ & k1 & x & k2 & Ek & Ex' & Ek').
  split_and!; try done. rewrite Ek'. rewrite El in Ek.
  assert (Hn : NoDup (tm_id <$> tq_list (w_queue w))) by (rewrite <- entries_ids; apply Hi).
  assert (F1 := find_timer_middle l1 l2 t (tm_id t) eq_refl). rewrite <- El in F1.
  assert (F2 := find_timer_middle k1 k2 x (tm_id t) Ex'). rewrite <- Ek, <- El in F2.
  rewrite (F1 Hn) in F2. specialize (F2 Hn). by simplify_eq.
Qed.

End timers.

(** The invariant between events: the interfaces that are up have a timer. *)
Definition Good (ids : list ident) (ifl : ifilist) (w : world) : Prop :=
  Inv ids (listed_up ifl) w ∧ w_ifilist w = ifl.

Lemma quiet_Good ids ifl w w' : quiet w w' → Good ids ifl w → Good ids ifl w'.
Proof. intros Q [Hi Hf]. split; [by eapply quiet_Inv|]. by rewrite (quiet_ifl _ _ Q). Qed.

#[export] Instance rtadvd_laws `{Env} ids ifl : TimerHostLaws callback world (Good ids ifl).
Proof.
  constructor.
  - done.
  - intros w [Hi _]. simpl. rewrite <- entries_ids. apply Hi.
  - intros w q Hi Hs Hn. simpl in *.
    assert (Q : quiet w (w <| w_queue := q |>)) by (by constructor).
    by eapply quiet_Good.
  - intros w Hi. simpl. eexists _, _. split; [done|]. split; [|done].
    destruct (calm_time quiet w) as (a & w' & [= <- <-] & Q). by eapply quiet_Good.
  - intros w l1 t l2 Hg El. pose proof Hg as [Hi Hf]. simpl in *.
    destruct (tm_expire t) as [id|pid] eqn:Ex.
    + pose proof (timer_entry w l1 t l2 El) as Ht. rewrite Ex in Ht.
      destruct (calm_ra_timeout ids _ still w id Hi (ra_entry_id _ _ _ _ _ Hi Ht)) as (b & w' & E & [Q Eq]).
      exists b, w'. rewrite Eq. split_and!; auto. by eapply quiet_Good.
    + destruct (prefix_timeout_run ids _ w l1 t l2 pid Hi El Ex) as (w' & E & Hi' & Hf' & Hq & Hl).
      exists false, w'. split_and!; auto. split; [done|by rewrite Hf'].
  - intros w t u Hg Ht Eu. pose proof Hg as [Hi Hf]. simpl in *.
    destruct (tm_expire t) as [id|pid] eqn:Ex; [|done]. injection Eu as <-.
    apply list_elem_of_split in Ht as (l1 & l2 & El). pose proof (timer_entry w l1 t l2 El) as Ht.
    rewrite Ex in Ht.
    destruct (calm_ra_timer_update ids _ still w id Hi (ra_entry_id _ _ _ _ _ Hi Ht)) as (tm & w' & E & [Q Eq]).
    exists tm, w'. split_and!; try done. by eapply quiet_Good.
Qed.


(** ** Routing messages *)

Lemma indextorainfo_shape idx w r :
  if_indextorainfo idx (ralist w) = Some r → first_shape idx (w_shape w) = Some (shape_rai r).
Proof.
  unfold w_shape. induction (ralist w) as [|x l IH]; [done|]. csimpl.
  destruct (rai_ifindex x =? idx); [by intros [= ->]|done].
Qed.

(** The interface found for an index only depends on the identities. *)
Lemma first_shape_key idx rs rs' r :
  sh_key <$> rs = sh_key <$> rs' → first_shape idx rs = Some r →
  ∃ r', first_shape idx rs' = Some r' ∧ sh_id r' = sh_id r.
Proof.
  revert rs'. induction rs as [|x rs IH]; intros [|x' rs'] E H; try done. csimpl in *.
  injection E as E1 E2 _ E3. rewrite <- E2. destruct (sh_ifindex x =? idx).
  - injection H as <-. eauto.
  - by apply IH.
Qed.

Lemma first_shape_elem idx rs r : first_shape idx rs = Some r → r ∈ rs ∧ sh_ifindex r = idx.
Proof.
  induction rs as [|x rs IH]; simpl; [done|]. destruct (Z.eqb_spec (sh_ifindex x) idx).
  - intros [= <-]. split; [apply list_elem_of_here|done].
  - intros H. destruct (IH H). split; [by right|done].
Qed.

Lemma sh_id_inj rs r r' : NoDup (sh_id <$> rs) → r ∈ rs → r' ∈ rs → sh_id r = sh_id r' → r = r'.
Proof.
  intros Hn Hr Hr' E. eapply (NoDup_fst_inj ((λ r, (sh_id r, r)) <$> rs) (sh_id r)).
  - by rewrite <- list_fmap_compose.
  - by apply (list_elem_of_fmap_2 (λ r, (sh_id r, r))).
  - rewrite E. by apply (list_elem_of_fmap_2 (λ r, (sh_id r, r))).
Qed.

Lemma entry_set idx idx' flags ifl :
  get_interface_entry idx' (set_interface_flags idx flags ifl)
  = (λ ifm, if idx' =? idx then ifm <| ifm_flags := flags |> else ifm) <$> get_interface_entry idx' ifl.
Proof.
  induction ifl as [|x ifl IH]; [done|]. simpl. destruct (Z.eqb_spec idx (ifm_index x)) as [->|Hne].
  - simpl. destruct (Z.eqb_spec idx' (ifm_index x)) as [->|]; [done|].
    by destruct (get_interface_entry idx' ifl).
  - simpl. destruct (Z.eqb_spec idx' (ifm_index x)) as [->|]; [|done].
    by rewrite (proj2 (Z.eqb_neq _ _)) by done.
Qed.

Lemma listed_up_set idx idx' flags ifl ifm :
  get_interface_entry idx ifl = Some ifm →
  listed_up (set_interface_flags idx flags ifl) idx'
  = if idx' =? idx then is_up flags else listed_up ifl idx'.
Proof.
  intros E. unfold listed_up. rewrite entry_set. destruct (Z.eqb_spec idx' idx) as [->|].
  - by rewrite E.
  - by destruct (get_interface_entry idx' ifl).
Qed.

Lemma Inv_weaken ids (needs needs' : Z → bool) w :
  (∀ idx, needs' idx = true → needs idx = true) → Inv ids needs w → Inv ids needs' w.
Proof. intros Hn [Hw Hu Hi]. constructor; try done. intros idx r Hr Hx. eauto. Qed.

Lemma seq_run {S A B C} (m1 : ST S A) (m2 : ST S B) (k : ST S C) s x :
  (_ ← m1; m2) s = Ret x → (_ ← m1; _ ← m2; k) s = k x.2.
Proof.
  unfold mbind, ST_bind. destruct (m1 s) as [[a s1]| |]; [|done|done]. by intros ->; destruct x.
Qed.

(** The flags of the interface [idx] have just been replaced in the list. *)
Section flags.
Context `{Env} (ids : list ident) (w : world) (idx : Z) (r0 : rshape).
Context (ifl : ifilist) (ifm : if_msghdr) (newflags : Z).
Hypothesis Hi : Inv ids (listed_up ifl) w.
Hypothesis Hr0 : first_shape idx (w_shape w) = Some r0.
Hypothesis Eifm : get_interface_entry idx ifl = Some ifm.
Hypothesis Eifl : w_ifilist w = set_interface_flags idx newflags ifl.

Lemma flags_id : sh_id r0 ∈ ids.*1.
Proof.
  pose proof (first_shape_elem _ _ _ Hr0) as [Hin _].
  rewrite <- (Inv_rai_ids _ _ _ Hi), <- shape_ids. by apply list_elem_of_fmap_2.
Qed.

Lemma flags_new idx' :
  listed_up (w_ifilist w) idx' = if idx' =? idx then is_up newflags else listed_up ifl idx'.
Proof. rewrite Eifl. by eapply listed_up_set. Qed.

Lemma flags_old : listed_up ifl idx = is_up (ifm_flags ifm).
Proof. unfold listed_up. by rewrite Eifm. Qed.

(** Interfaces with another index have another address. *)
Lemma flags_other idx' r' : first_shape idx' (w_shape w) = Some r' → idx' ≠ idx → sh_id r' ≠ sh_id r0.
Proof.
  intros Hr' Hne E. apply first_shape_elem in Hr' as [Hin' Hidx'].
  pose proof (first_shape_elem _ _ _ Hr0) as [Hin Hidx].
  assert (r' = r0); [|congruence]. apply (sh_id_inj (w_shape w)); [apply Hi|done..].
Qed.

Lemma flags_same : (is_up newflags = true → is_up (ifm_flags ifm) = true) → Good ids (w_ifilist w) w.
Proof.
  intros Hs. split; [|done]. eapply Inv_weaken; [|exact Hi]. intros idx'. rewrite flags_new.
  destruct (Z.eqb_spec idx' idx) as [->|]; [by rewrite flags_old|done].
Qed.

Lemma flags_stop :
  is_up (ifm_flags ifm) = true → is_up newflags = false →
  safe w (r ← deref_rai (sh_id r0); t ← lift (of_opt (rai_timer r)); _ ← w_remove_timer t;
          upd_rai (sh_id r0) (λ r, r <| rai_timer := None |>)) (λ _, Good ids (w_ifilist w)).
Proof.
  intros Eo En. destruct (deref_rai_run _ _ w _ Hi flags_id) as (r & _ & Ed & Hr & Er & _).
  assert (E0 : r0 = shape_rai r).
  { pose proof (first_shape_elem _ _ _ Hr0) as [Hin _].
    apply (sh_id_inj (w_shape w)); [apply Hi|done|by apply list_elem_of_fmap_2|done]. }
  destruct (inv_up _ _ _ Hi idx r0 Hr0) as [t Ht]; [by rewrite flags_old|].
  rewrite E0 in Ht. simpl in Ht.
  eapply safe_run; [done|]. eapply safe_run; [unfold lift; by rewrite Ht|].
  destruct (stop_safe ids _ w r t (listed_up (w_ifilist w)) Hi Hr Ht) as (w' & E & Hi' & Hf).
  { intros idx' r' Hr' Hn'. rewrite flags_new, En in Hn'. destruct (Z.eqb_spec idx' idx); [done|].
    split; [done|]. rewrite Er. by eapply flags_other. }
  unfold safe. rewrite <- Er, E. split; [done|by rewrite Hf].
Qed.

Lemma flags_start :
  is_up newflags = true →
  safe w (_ ← upd_rai (sh_id r0) (λ r, r <| rai_initcounter := 0 |>);
          _ ← upd_rai (sh_id r0) (λ r, r <| rai_waiting := 0 |>);
          start_ra_timer (sh_id r0)) (λ _, Good ids (w_ifilist w)).
Proof.
  intros En.
  assert (Hc : calm quiet w (_ ← upd_rai (sh_id r0) (λ r, r <| rai_initcounter := 0 |>);
                             upd_rai (sh_id r0) (λ r, r <| rai_waiting := 0 |>))).
  { eapply calm_upd_then; [apply _|exact Hi|harmless_tac|]. intros w1 Hi1 _.
    eapply calm_upd; [apply _|done|harmless_tac]. }
  destruct Hc as ([] & w1 & E1 & Q1). pose proof (quiet_Inv _ _ _ _ Q1 Hi) as Hi1.
  destruct (start_ra_timer_safe ids _ w1 (sh_id r0) (listed_up (w_ifilist w)) Hi1 flags_id)
    as (w2 & E2 & Hi2 & Hf2).
  { rewrite (quiet_shape _ _ Q1). intros idx' r' Hr' Hn'. rewrite flags_new in Hn'.
    destruct (Z.eqb_spec idx' idx) as [->|]; [right; congruence|by left]. }
  unfold safe. rewrite (seq_run _ _ _ _ _ E1). cbn [snd]. rewrite E2. split; [done|]. by rewrite Hf2, (quiet_ifl _ _ Q1).
Qed.

Lemma flags_changed_safe pc :
  safe w (flags_changed (sh_id r0) (ifm_flags ifm) newflags pc) (λ _, Good ids (w_ifilist w)).
Proof.
  unfold flags_changed. destruct (is_up (ifm_flags ifm)) eqn:Eo, (is_up newflags) eqn:En;
    cbn [andb negb]; rewrite ?andb_true_r, ?andb_false_r.
  - destruct (flags_same ltac:(by rewrite Eo)) as [Hi1 Hf]. destruct pc; [|by split].
    eapply safe_calm.
    + eapply calm_upd_then; [apply _|exact Hi1|harmless_tac|]. intros w1 Hi2 _.
      eapply calm_set_short_delay; [done|apply flags_id].
    + intros [] w' _ Q. by eapply quiet_Good.
  - by apply flags_stop.
  - by apply flags_start.
  - apply flags_same. by rewrite En.
Qed.

End flags.

(** The kernel writes one message per read, and its fields lie inside it. *)
Record one_message (msg : bytes) (n : Z) : Prop := {
  om_len : rtmsg_len msg 0 = Ret n;
  om_pos : 0 < n;
  om_sel : ∃ b, selected msg 0 rtmsg_filter 0 = Ret b;
  om_type : ∃ type, rtmsg_type msg 0 = Ret type;
  om_index : ∃ i, get_ifm_ifindex msg 0 = Ret i;
  om_flags : ∃ f, get_ifm_flags msg 0 = Ret f;
  om_route : ∀ type, rtmsg_type msg 0 = Ret type → type = RTM_ADD ∨ type = RTM_DELETE →
    selected msg 0 rtmsg_filter 0 = Ret true →
    (∃ i, get_rtm_ifindex msg 0 = Ret i) ∧ (∃ a, get_addr msg 0 = Ret a ∧ addr_ok a) ∧
    (∃ l, get_prefixlen msg 0 = Ret l) }.

Section rtmsg.
Context `{Env} (ids : list ident) (needs : Z → bool).

Lemma find_prefix_elem l a plen p : find_prefix l a plen = Some p → p ∈ l.
Proof.
  induction l as [|x l IH]; simpl; [done|].
  destruct (negb _); [intros; right; auto|]. destruct (prefix_bits_eq _ _ _); [|intros; right; auto].
  intros [= ->]. apply list_elem_of_here.
Qed.

Lemma route_added_safe w msg id ifindex a l :
  Inv ids needs w → id ∈ ids.*1 → get_addr msg 0 = Ret a → addr_ok a → get_prefixlen msg 0 = Ret l →
  safe w (route_added msg id ifindex) (λ _ w', Inv ids needs w' ∧ w_ifilist w' = w_ifilist w).
Proof.
  intros Hi Hid Ea Ha El. unfold route_added.
  eapply safe_run; [unfold lift; by rewrite Ea|]. eapply safe_run; [unfold lift; by rewrite El|].
  destruct ((l <? 4) || (127 <? l)) eqn:Eb; [by split|]. apply orb_false_iff in Eb as [E1 E2].
  destruct (deref_rai_run _ _ w id Hi Hid) as (r & _ & Ed & Hr & _).
  eapply safe_run; [done|]. destruct (find_prefix _ _ _) as [p|] eqn:Ef.
  - destruct (pfx_timer p); [|by split]. apply find_prefix_elem in Ef.
    eapply safe_bind; [eapply update_safe; [done|]; apply all_prefixes_elem; eauto|]. by intros [] w' [? ?].
  - eapply safe_bind; [eapply make_prefix_safe; [done..|lia]|]. by intros [] w' [? ?].
Qed.

Lemma route_deleted_safe w msg id a l :
  Inv ids needs w → id ∈ ids.*1 → get_addr msg 0 = Ret a → get_prefixlen msg 0 = Ret l →
  safe w (route_deleted msg id) (λ _ w', Inv ids needs w' ∧ w_ifilist w' = w_ifilist w).
Proof.
  intros Hi Hid Ea El. unfold route_deleted.
  eapply safe_run; [unfold lift; by rewrite Ea|]. eapply safe_run; [unfold lift; by rewrite El|].
  destruct (_ || _); [by split|].
  destruct (deref_rai_run _ _ w id Hi Hid) as (r & _ & Ed & Hr & _).
  eapply safe_run; [done|]. destruct (find_prefix _ _ _) as [p|] eqn:Ef; [|by split].
  apply find_prefix_elem in Ef.
  eapply safe_bind; [eapply invalidate_safe; [done|]; apply all_prefixes_elem; eauto|]. by intros [] w' [? ?].
Qed.

Lemma set_flags_Inv w idx flags :
  Inv ids needs w → Inv ids needs (w <| w_ifilist := set_interface_flags idx flags (w_ifilist w) |>).
Proof. by intros [[] ? ?]. Qed.

Lemma rtmsg_switch_safe w sflag msg n sioc type idx id old :
  Inv ids needs w → id ∈ ids.*1 → one_message msg n → rtmsg_type msg 0 = Ret type →
  selected msg 0 rtmsg_filter 0 = Ret true →
  safe w (rtmsg_switch sflag msg sioc 0 type idx id old)
    (λ _ w', Inv ids needs w' ∧ ∃ new, w_ifilist w' = set_interface_flags idx new (w_ifilist w)).
Proof.
  intros Hi Hid Hm Et Hs. unfold rtmsg_switch. pose proof (om_route _ _ Hm type Et) as Hroute.
  destruct (om_flags _ _ Hm) as [fl Efl]. destruct (type =? RTM_IFINFO).
  { eapply safe_run; [unfold lift; by rewrite Efl|]. eapply safe_run; [done|].
    split; [by apply set_flags_Inv|by eexists]. }
  eapply safe_run; [done|]. match goal with |- safe ?x _ _ => set (w1 := x) end.
  assert (Hi1 : Inv ids needs w1) by (by apply set_flags_Inv).
  assert (Hf : ∃ new, w_ifilist w1 = set_interface_flags idx new (w_ifilist w)) by (by eexists).
  destruct sflag; [by split|].
  destruct (Z.eqb_spec type RTM_ADD) as [->|].
  { destruct (Hroute (or_introl eq_refl) Hs) as (_ & (a & Ea & Ha) & (l & El)).
    eapply safe_weaken; [by eapply route_added_safe|]. intros b w' [? ->]. by split. }
  destruct (Z.eqb_spec type RTM_DELETE) as [->|]; [|by split].
  destruct (Hroute (or_intror eq_refl) Hs) as (_ & (a & Ea & _) & (l & El)).
  eapply safe_weaken; [by eapply route_deleted_safe|]. intros b w' [? ->]. by split.
Qed.

End rtmsg.

Section input.
Context `{Env} (ids : list ident).

Lemma rtmsg_one_safe w ifl sflag msg n sioc pc :
  Good ids ifl w → one_message msg n → selected msg 0 rtmsg_filter 0 = Ret true →
  safe w (rtmsg_one sflag msg sioc 0 pc) (λ _ w', ∃ ifl', Good ids ifl' w').
Proof.
  intros [Hi Hf] Hm Hs. unfold rtmsg_one. destruct (om_type _ _ Hm) as [type Et].
  eapply safe_run; [unfold lift; by rewrite Et|].
  assert (Hx : ∃ idx, (if (type =? RTM_ADD) || (type =? RTM_DELETE) then get_rtm_ifindex msg 0
                       else get_ifm_ifindex msg 0) = Ret idx).
  { destruct ((type =? RTM_ADD) || (type =? RTM_DELETE)) eqn:Eb; [|apply (om_index _ _ Hm)].
    apply (om_route _ _ Hm type Et); [|done]. apply orb_true_iff in Eb as [E|E]; lia. }
  destruct Hx as [idx Ei]. eapply safe_run; [unfold lift; by rewrite Ei|].
  eapply safe_run; [done|].
  destruct (if_indextorainfo idx (ralist w)) as [rai|] eqn:Er; [|eexists; by split].
  destruct (get_interface_entry idx (w_ifilist w)) as [ifm|] eqn:Ee; [|eexists; by split].
  assert (Hid : rai_id rai ∈ ids.*1).
  { apply indextorainfo_elem in Er as [Hr _]. by eapply rai_id_elem. }
  eapply safe_bind; [by eapply (rtmsg_switch_safe ids (listed_up ifl))|].
  intros changed w1 (Hi1 & new & Hf1). eapply safe_run; [done|].
  rewrite Hf in Ee, Hf1. rewrite Hf1, entry_set, Ee. simpl. rewrite Z.eqb_refl.
  eapply safe_run; [done|]. simpl.
  destruct (first_shape_key idx (w_shape w) (w_shape w1) (shape_rai rai)) as (r0 & Hr0 & Hid0).
  { by rewrite (inv_ids _ _ _ Hi), (inv_ids _ _ _ Hi1). }
  { by apply indextorainfo_shape. }
  simpl in Hid0. rewrite <- Hid0.
  eapply safe_bind; [by eapply (flags_changed_safe ids w1 idx r0 ifl ifm new)|].
  intros [] w2 Hg. by eexists.
Qed.

Lemma rtmsg_input_safe w ifl sflag msg n sioc :
  Good ids ifl w → one_message msg n → safe w (rtmsg_input sflag msg n sioc) (λ _ w', ∃ ifl', Good ids ifl' w').
Proof.
  intros Hg Hm. unfold rtmsg_input. pose proof (om_pos _ _ Hm) as Hn.
  assert (Hk : (1 <= Z.to_nat n)%nat) by lia. destruct (om_sel _ _ Hm) as [b Hb].
  assert (Hms : messages msg (Z.to_nat n) 0 [(O, n)] (0 + Z.to_nat n)).
  { apply messages_cons; [lia|apply Hm|done|]. apply messages_end. lia. }
  assert (E := next_msg_loop_spec msg _ 0 rtmsg_filter _ _ _ Hms
    ltac:(intros q l Hq; apply list_elem_of_singleton in Hq as [= -> ->]; eauto)
    (S (Z.to_nat n - 0)) ltac:(lia)).
  cbn [rtmsg_loop]. rewrite (proj2 (Nat.leb_gt _ _)) by lia.
  eapply safe_run; [unfold lift, get_next_msg; by rewrite E|]. cbn [list_find]. simpl fst.
  destruct b.
  - rewrite decide_True by done. cbv beta iota. rewrite (proj2 (Z.eqb_neq _ _)) by lia.
    eapply safe_bind; [by eapply rtmsg_one_safe|]. intros pc w' Hg'. simpl.
    destruct (Z.to_nat n) as [|k] eqn:Ek; [lia|]. cbn [rtmsg_loop].
    rewrite (proj2 (Nat.leb_le _ _)) by lia. done.
  - rewrite decide_False by (by rewrite Hb). simpl. by exists ifl.
Qed.

(** No interface is configured with the M or O flag, whose names [ra_input]
    looks up out of the bounds of its table. *)
Definition no_flags : Prop := Forall (λ k : ident, k.2.2 = (0, 0)) ids.

Lemma no_flags_printable needs w r : no_flags → Inv ids needs w → r ∈ ralist w → flags_printable r.
Proof.
  intros Hn Hi Hr. unfold no_flags in Hn. rewrite <- (inv_ids _ _ _ Hi) in Hn.
  rewrite Forall_forall in Hn. specialize (Hn (sh_key (shape_rai r))). simpl in Hn.
  assert (E : (rai_managedflg r, rai_otherflg r) = (0, 0)).
  { apply Hn. apply list_elem_of_fmap_2, list_elem_of_fmap_2, Hr. }
  injection E as E1 E2. split; lia.
Qed.

(** A packet is a string of bytes. *)
Definition event_ok (e : event) : Prop :=
  match e with
  | EvTimeout => True
  | EvRtmsg msg n _ => one_message msg n
  | EvPacket (Some m) => bytes_ok (rcv_data m)
  | EvPacket None => True
  end.

Lemma rtadvd_input_safe w ifl fuel errno dump msg :
  no_flags → Good ids ifl w → event_ok (EvPacket msg) →
  safe w (rtadvd_input false fuel errno dump msg) (λ r w', r = Some tt ∧ Good ids ifl w').
Proof.
  intros Hn Hg Hok. pose proof Hg as [Hi Hf]. unfold rtadvd_input.
  destruct msg as [msg|]; [|by split]. simpl in Hok.
  destruct (cmsg_scan (rcv_cmsgs msg)) as [[ifindex dst] [hlim|]]; (destruct (ifindex =? 0); [by split|]);
    [|by split].
  eapply safe_run; [done|]. destruct (get_interface_entry _ _) as [ifm|]; [|by split].
  destruct (_ =? 0); [by split|]. destruct (Nat.ltb_spec (length (rcv_data msg)) 8) as [|Hl]; [by split|].
  destruct (rd_inside (rcv_data msg) 0 8 Hl) as [v Hv].
  assert (Hr : ∀ i, (i < 8)%nat → ∃ x, rd8 (rcv_data msg) i = Some x).
  { intros i ?. unfold rd8. apply lookup_lt_is_Some_2. lia. }
  destruct (Hr 0%nat ltac:(lia)) as [t Et], (Hr 1%nat ltac:(lia)) as [c Ec].
  eapply safe_run; [unfold lift; by rewrite Et|]. eapply safe_run; [unfold lift; by rewrite Ec|].
  assert (K : ∀ m : IO unit, calm quiet w m →
    safe w (_ ← m; mret (Some tt)) (λ r w', r = Some tt ∧ Good ids ifl w')).
  { intros m Hc. eapply safe_bind; [eapply safe_calm; [done|]; intros a w' _ Q; exact Q|].
    intros [] w' Q. split; [done|]. by eapply quiet_Good. }
  destruct (t =? _); [destruct (_ || _); [by split|]; apply K; by eapply calm_rs_input|].
  destruct (t =? _); [|by destruct (t =? _); split].
  destruct (_ || _ || _) eqn:Eb; [by split|]. apply orb_false_iff in Eb as [_ El].
  apply Nat.ltb_ge in El. apply K. eapply calm_ra_input; try done; [apply _|].
  intros r Er. apply indextorainfo_elem in Er as [Hr' _]. by eapply no_flags_printable.
Qed.

Lemma handle_safe w sflag fuel errno dump e :
  no_flags → event_ok e → (∃ ifl, Good ids ifl w) →
  safe w (handle (Options sflag false) fuel errno dump e)
    (λ r w', r = Some tt ∧ ∃ ifl, Good ids ifl w').
Proof.
  intros Hn He [ifl Hg]. destruct e as [|msg n sioc|msg]; simpl.
  - split; eauto.
  - eapply safe_bind; [by eapply rtmsg_input_safe|]. intros [] w' Hg'. by split.
  - eapply safe_weaken; [by eapply rtadvd_input_safe|]. intros r w' [-> ?]. split; eauto.
Qed.

End input.

Lemma main_turn_ok `{Env} ids ifl w sflag fuel errno dump evs :
  no_flags ids → Forall event_ok evs → Good ids ifl w →
  safe w (main_turn (Options sflag false) fuel errno dump evs)
    (λ r w', r = Some tt ∧ ∃ ifl', Good ids ifl' w').
Proof.
  intros Hn He Hg. unfold main_turn.
  destruct (check_timer_pass (Good ids ifl) w Hg) as (now & w0 & r & w1 & _ & E & Hg1 & _).
  eapply safe_run; [exact E|]. clear E. revert w1 Hg1.
  assert (G : ∀ w1, (∃ ifl, Good ids ifl w1) → safe w1
    (foldr (λ e k, r ← handle (Options sflag false) fuel errno dump e;
       match r with None => mret None | Some _ => k end) (mret (Some tt)) evs)
    (λ r w', r = Some tt ∧ ∃ ifl', Good ids ifl' w')); [|eauto].
  induction He as [|e evs He _ IH]; intros w1 Hg1; [by split|]. cbn [foldr].
  eapply safe_bind; [by eapply handle_safe|]. intros r' w2 [-> Hg2]. by apply IH.
Qed.


(** ** A concrete state *)

(** One interface with index 4, up, whose timer is due. *)
#[local] Instance sample_env : Env := {|
  clock := λ n, TV (1000 + Z.of_nat n) 0; random := λ _, 77; junk := λ _, 0xa5;
  if_indextoname := λ _, Some [101; 110; 48] |}.
Definition sample_world : world :=
  World [sample_rai <| rai_timer := Some O |>] (TQ tm_max [Timer O (RaTimeout 0) (TV 900 0)] 1)
    [Ifm 4 1] 0 0 8 [] zero_rro [].
Definition sample_ids : list ident := [(0%nat, (4, (0, 0)))].

Lemma rai_wf_timer r t : rai_wf r → rai_wf (r <| rai_timer := t |>).
Proof. intros []. by constructor. Qed.

Lemma sample_Good : Good sample_ids [Ifm 4 1] sample_world.
Proof.
  split; [|done]. constructor; [constructor|..].
  - constructor; unfold w_shape, w_entries; csimpl.
    + apply NoDup_singleton.
    + apply NoDup_singleton.
    + apply NoDup_singleton.
    + intros t cb [= -> ->]%list_elem_of_singleton. lia.
    + intros pid rid tm [= -> -> ->]%list_elem_of_singleton. lia.
    + intros r pid rid tm ->%list_elem_of_singleton Hp. by apply list_elem_of_singleton in Hp as [= -> -> ->].
    + intros r t ->%list_elem_of_singleton [= <-]. by apply list_elem_of_singleton.
    + intros pid rid t Hp. apply list_elem_of_singleton in Hp. discriminate Hp.
    + intros t id [= -> ->]%list_elem_of_singleton. eexists. by split; [apply list_elem_of_singleton|].
    + intros t pid Hp. apply list_elem_of_singleton in Hp. discriminate Hp.
  - apply Forall_singleton. constructor; [|simpl; lia].
    apply rai_wf_timer, sample_rai_wf.
  - intros idx r [->%list_elem_of_singleton _]%first_shape_elem _. by eexists.
  - reflexivity.
Qed.

Lemma sample_pass :
  (λ o, match o with Ret (_, w') => Some (length (w_sent w')) | _ => None end)
    (rtadvd_check_timer sample_world) = Some 1%nat.
Proof. vm_compute. reflexivity. Qed.


Lemma prefix_lifecycle_witness :
  ∃ w1, invalidate_prefix (pfx_id sample_pfx) sample_world = Ret (tt, w1) ∧
    invalidate_prefix (pfx_id sample_pfx) w1 = Exit 1.
Proof.
  destruct (prefix_lifecycle sample_ids (listed_up [Ifm 4 1]) sample_world sample_pfx
    (proj1 sample_Good) (list_elem_of_here _ _) eq_refl) as (w1 & t & E & _ & _ & _ & E2 & _).
  exists w1. exact (conj E E2).
Defined.

(** A router solicitation, and a routing message: interface 4 goes down. *)
Definition sample_rs : received :=
  Received [133; 0; 0; 0; 0; 0; 0; 0; 1; 1; 2; 0; 0; 0; 0; 1] (sample_addr 9)
    [CmsgPktinfo 4 (sample_addr 8); CmsgHoplimit 255].
Definition sample_ifinfo : bytes := [16; 0; 5; 14; 0; 0; 0; 0; 0; 0; 0; 0; 4; 0; 0; 0].

Lemma sample_ifinfo_ok : one_message sample_ifinfo 16.
Proof.
  constructor; [reflexivity|lia|by eexists..|].
  intros type E. vm_compute in E. injection E as <-. by intros [?|?].
Qed.

Definition sample_events : list event :=
  [EvPacket (Some sample_rs); EvRtmsg sample_ifinfo 16 (λ _, None)].

Lemma sample_events_ok : Forall event_ok sample_events.
Proof.
  apply Forall_cons_2; [apply (bool_decide_eq_true_1 (bytes_ok _)); reflexivity|].
  apply Forall_singleton. apply sample_ifinfo_ok.
Qed.

(** The outcome, by computation. *)
Definition turn_summary (o : outcome (option unit * world)) : option (nat * nat) :=
  match o with
  | Ret (_, w') => Some (length (tq_list (w_queue w')), length (w_sent w'))
  | _ => None
  end.

Lemma sample_turn :
  turn_summary (main_turn (Options false false) 0 0 None sample_events sample_world) = Some (O, 1%nat).
Proof. vm_compute. reflexivity. Qed.

Lemma safe_cases {A} w (m : IO A) Q :
  safe w m Q → (∃ a w', m w = Ret (a, w') ∧ Q a w') ∨ m w = Exit 1.
Proof. unfold safe. destruct (m w) as [[a w']|c|]; [eauto 6|intros ->; by right|done]. Qed.

