(* ===== verification/RtadvdFun.v ===== *)
(** * RtadvdFun: what the handlers of rtadvd compute

    The intervals between advertisements, the delay of solicited ones, the
    advertisements of other routers, the last advertisements of the daemon,
    and the packets rtsold and rtadvd exchange. *)

From S2P Require Import Prelude Timeval In6 NdOpt RaTimer RtMsg Rainfo RaState Rtadvd.

Section intervals.
Context `{Env}.

Lemma deref_run (w : world) id r : find_rai id (ralist w) = Some r → deref_rai id w = Ret (r, w).
Proof. intros E. unfold deref_rai. by rewrite E. Qed.

(** The interval until the next unsolicited advertisement (RFC 4861,
    6.2.4): zero before the first one, at most MAX_INITIAL_RTR_ADVERT_INTERVAL
    (16 s) for the next ones up to MAX_INITIAL_RTR_ADVERTISEMENTS, and then in
    the configured range from mininterval to maxinterval. *)
Lemma ra_timer_update_bounds id w r :
  find_rai id (ralist w) = Some r →
  0 < rai_mininterval r < rai_maxinterval r → rai_maxinterval r < 2 ^ 32 →
  0 <= random (w_rand w) →
  ∃ t, ra_timer_update id w = Ret (TV t 0, w <| w_rand := S (w_rand w) |>) ∧
    (rai_initcounter r = 0 → t = 0) ∧
    (0 < rai_initcounter r < MAX_INITIAL_RTR_ADVERTISEMENTS →
       0 < t <= MAX_INITIAL_RTR_ADVERT_INTERVAL ∧ t < rai_maxinterval r) ∧
    (MAX_INITIAL_RTR_ADVERTISEMENTS <= rai_initcounter r →
       rai_mininterval r <= t < rai_maxinterval r).
Proof.
  intros Er Hi Hm Hr. unfold ra_timer_update. rewrite (bind_run _ _ _ _ _ (deref_run _ _ _ Er)).
  assert (Eu : u32 (rai_maxinterval r - rai_mininterval r) = rai_maxinterval r - rai_mininterval r)
    by (apply Z.mod_small; lia).
  rewrite Eu, (proj2 (Z.eqb_neq _ _)) by lia.
  eexists. split; [reflexivity|].
  set (d := rai_maxinterval r - rai_mininterval r).
  pose proof (Z.mod_pos_bound (random (w_rand w)) d ltac:(lia)) as Hd.
  unfold MAX_INITIAL_RTR_ADVERTISEMENTS, MAX_INITIAL_RTR_ADVERT_INTERVAL.
  destruct (Z.eqb_spec (rai_initcounter r) 0); [lia|].
  destruct (Z.ltb_spec (rai_initcounter r) 3), (Z.ltb_spec 16 (rai_mininterval r + random (w_rand w) mod d));
    simpl; lia.
Qed.

(** The deadline that [set_short_delay] computes, in microseconds. *)
Lemma short_delay_usecs now0 now1 now2 sched last delay :
  normal now0 → normal now1 → normal now2 → normal sched → normal last →
  usecs last <= usecs now1 → 0 <= delay < 500000 →
  let rest := if TIMEVAL_LEQ sched now0 then TV 0 0 else TIMEVAL_SUB sched now0 in
  let interval := if TIMEVAL_LT rest (TV 0 delay) then rest else TV 0 delay in
  let tm_tmp := TIMEVAL_SUB now1 last in
  let interval := if TIMEVAL_LT tm_tmp (TV MIN_DELAY_BETWEEN_RAS 0)
    then TIMEVAL_ADD (TIMEVAL_SUB (TV MIN_DELAY_BETWEEN_RAS 0) tm_tmp) interval else interval in
  let d := TIMEVAL_ADD now2 interval in
  normal d ∧
  usecs d = usecs now2 + Z.max 0 (usecs last + 3 * MILLION - usecs now1)
            + Z.min (Z.max 0 (usecs sched - usecs now0)) delay.
Proof.
  intros H0 H1 H2 Hs Hl Hle Hd rest.
  assert (Hr : normal rest ∧ usecs rest = Z.max 0 (usecs sched - usecs now0)) by (unfold rest; split; tv_lia).
  destruct Hr as [Hr Er]. revert Hr Er. generalize rest. clear rest Hs H0. intros rest Hr Er i1.
  assert (Hi : normal i1 ∧ usecs i1 = Z.min (usecs rest) delay) by (unfold i1; split; tv_lia).
  destruct Hi as [Hi Ei]. revert Hi Ei. generalize i1. clear i1. intros i1 Hi Ei tmp.
  destruct (TIMEVAL_SUB_spec now1 last H1 Hl) as [Ht Et]. fold tmp in Ht, Et.
  intros i2.
  assert (Hi2 : normal i2 ∧ usecs i2 = Z.max 0 (3 * MILLION - usecs tmp) + usecs i1).
  { unfold i2, MIN_DELAY_BETWEEN_RAS. clear i2 Er Ei Et. clearbody tmp. split; tv_lia. }
  destruct Hi2 as [Hi2 Ei2]. destruct (TIMEVAL_ADD_spec now2 i2 H2 Hi2) as [Hd2 Ed2].
  split; [done|]. cbv zeta. rewrite Ed2, Ei2, Et, Ei, Er. lia.
Qed.

(** The run of [set_short_delay] on an interface with a timer. *)
Lemma set_short_delay_run id w r t l1 tm l2 :
  find_rai id (ralist w) = Some r → rai_timer r = Some t →
  find_timer t (tq_list (w_queue w)) = Some (l1, tm, l2) →
  normal (tm_tm tm) → normal (rai_lastsent r) → (∀ i, normal (clock i)) →
  usecs (rai_lastsent r) <= usecs (clock (S (w_tick w))) →
  let now i := usecs (clock (i + w_tick w)) in
  ∃ w' d, set_short_delay id w = Ret (tt, w') ∧
    tq_list (w_queue w') = l1 ++ tm <| tm_tm := d |> :: l2 ∧ ralist w' = ralist w ∧
    usecs d = now 2%nat + Z.max 0 (usecs (rai_lastsent r) + 3 * MILLION - now 1%nat)
      + Z.min (Z.max 0 (usecs (tm_tm tm) - now 0%nat)) (random (w_rand w) mod MAX_RA_DELAY_TIME).
Proof.
  intros Er Et Ef Hs Hl Hn Hle now.
  pose proof (Z.mod_pos_bound (random (w_rand w)) MAX_RA_DELAY_TIME eq_refl) as Hd.
  destruct (short_delay_usecs (clock (w_tick w)) (clock (S (w_tick w))) (clock (S (S (w_tick w))))
    (tm_tm tm) (rai_lastsent r) _ (Hn _) (Hn _) (Hn _) Hs Hl Hle Hd) as [_ E].
  unfold set_short_delay. rewrite (bind_run _ _ _ _ _ (deref_run _ _ _ Er)), Et.
  unfold w_timer_rest, w_set_timer, queue_rd, queue_op, rtadvd_timer_rest, rtadvd_set_timer, write_tm.
  do 2 eexists. split; [|split; [|split; [|exact E]]].
  - unfold mbind, ST_bind, call_random, gettimeofday. simpl. rewrite Ef. simpl. rewrite Ef. reflexivity.
  - simpl. unfold note_tm. destruct (TIMEVAL_LT _ _) in |- *; reflexivity.
  - done.
Qed.

(** A solicited advertisement keeps the rate limit of RFC 4861, 6.2.6: the
    deadline that [set_short_delay] gives to the timer of the interface is at
    least MIN_DELAY_BETWEEN_RAS (3 s) after the last advertisement; it is
    random within MAX_RA_DELAY_TIME (0.5 s) after the earliest such time; and
    if the last advertisement is old enough it is not later than the time that
    was already scheduled. Only that timer changes. *)
Lemma set_short_delay_rate id w r t l1 tm l2 :
  find_rai id (ralist w) = Some r → rai_timer r = Some t →
  find_timer t (tq_list (w_queue w)) = Some (l1, tm, l2) →
  normal (tm_tm tm) → normal (rai_lastsent r) → (∀ i, normal (clock i)) →
  (∀ i, usecs (clock i) <= usecs (clock (S i))) →
  usecs (rai_lastsent r) <= usecs (clock (S (w_tick w))) →
  let last := usecs (rai_lastsent r) in
  let now i := usecs (clock (i + w_tick w)) in
  ∃ w' d, set_short_delay id w = Ret (tt, w') ∧
    tq_list (w_queue w') = l1 ++ tm <| tm_tm := d |> :: l2 ∧ ralist w' = ralist w ∧
    last + 3 * MILLION <= usecs d < now 2%nat + Z.max 0 (last + 3 * MILLION - now 1%nat) + 500000 ∧
    (last + 3 * MILLION <= now 1%nat →
       usecs d - now 2%nat <= Z.max 0 (usecs (tm_tm tm) - now 0%nat)).
Proof.
  intros Er Et Ef Hs Hl Hn Hmono Hle last now.
  destruct (set_short_delay_run id w r t l1 tm l2 Er Et Ef Hs Hl Hn Hle) as (w' & d & E & El & Ea & Ed).
  exists w', d. split_and!; try done; rewrite Ed;
    pose proof (Z.mod_pos_bound (random (w_rand w)) MAX_RA_DELAY_TIME eq_refl) as Hd;
    pose proof (Hmono (S (w_tick w))); unfold now, last; simpl; unfold MAX_RA_DELAY_TIME in *; lia.
Qed.

End intervals.

(** One interface; the clock advances one second at each reading. *)
#[local] Instance clock_env : Env := {|
  clock := λ n, TV (1000 + Z.of_nat n) 0; random := λ _, 123; junk := λ _, 0;
  if_indextoname := λ _, None |}.
Definition one_rai (n last : Z) : world :=
  World [sample_rai <| rai_timer := Some O |> <| rai_initcounter := n |> <| rai_lastsent := TV last 0 |>]
    (TQ tm_max [Timer O (RaTimeout 0) (TV 1400 0)] 1) [Ifm 4 1] 0 0 8 [] zero_rro [].

Lemma ra_timer_update_bounds_witness :
  ∃ t w', ra_timer_update 0 (one_rai 2 0) = Ret (TV t 0, w') ∧ 0 < t <= 16.
Proof.
  destruct (ra_timer_update_bounds (H:=clock_env) 0 (one_rai 2 0) _ eq_refl ltac:(simpl; lia) ltac:(simpl; lia)
    ltac:(done)) as (t & E & _ & Ht & _).
  exists t. eexists. split; [exact E|]. apply Ht. simpl. unfold MAX_INITIAL_RTR_ADVERTISEMENTS. lia.
Defined.

Lemma set_short_delay_rate_witness :
  ∃ w' d, set_short_delay 0 (one_rai 3 999) = Ret (tt, w') ∧
    tq_list (w_queue w') = [Timer O (RaTimeout 0) d] ∧ 1002 * MILLION <= usecs d.
Proof.
  destruct (set_short_delay_rate 0 (one_rai 3 999) _ O [] (Timer O (RaTimeout 0) (TV 1400 0)) []
    eq_refl eq_refl eq_refl) as (w' & d & E & El & _ & Hd & _);
    try (intros; unfold normal, usecs, MILLION; cbn -[Z.of_nat]; lia).
  exists w', d. split; [exact E|]. split; [exact El|]. destruct Hd as [Hd _]. exact Hd.
Defined.

(** ** Advertisements of routers with the same configuration *)

Lemma be32_val x : u32_ok x → be_val (be32 x) = x.
Proof.
  unfold u32_ok, be_val, be32, u8. intros Hx. simpl.
  rewrite !Z.shiftr_div_pow2 by lia. zlia.
Qed.

(** The octets of an option are found at its offset. *)
Lemma placed_split os : ∀ pre off o,
  (off, o) ∈ placed (length pre) os →
  o ∈ os ∧ ∃ l1 l2, pre ++ encode_opts os = l1 ++ encode_opt o ++ l2 ∧ length l1 = off.
Proof.
  induction os as [|o' os IH]; intros pre off o Hin; [by apply elem_of_nil in Hin|].
  cbn [placed] in Hin. rewrite encode_opts_cons. apply elem_of_cons in Hin as [[= -> ->]|Hin].
  - split; [apply list_elem_of_here|]. by exists pre, (encode_opts os).
  - rewrite <- length_app in Hin. destruct (IH _ _ _ Hin) as (Ho & l1 & l2 & E & El).
    split; [by right|]. exists l1, l2. by rewrite app_assoc, E.
Qed.

Lemma wanted_split flags t pre os off :
  off ∈ wanted_at flags t (placed (length pre) os) →
  ∃ o l1 l2, o ∈ os ∧ o.1 = t ∧ pre ++ encode_opts os = l1 ++ encode_opt o ++ l2 ∧ length l1 = off.
Proof.
  unfold wanted_at. intros Hin. apply list_elem_of_fmap in Hin as ([off' o] & -> & Hin).
  apply list_elem_of_filter in Hin as [Hw Hin]. apply placed_split in Hin as (Ho & l1 & l2 & E & El).
  exists o, l1, l2. split_and!; try done. unfold wanted in Hw. simpl in Hw.
  apply andb_true_iff in Hw as [Hw _]. apply andb_true_iff in Hw as [Hw _]. lia.
Qed.

(** The values [getconfig] accepts for what [ra_input] compares; the prefixes
    have fixed lifetimes and distinct addresses. *)
Record ra_settings (r : rainfo) : Prop := {
  rs_managed : rai_managedflg r = 0 ∨ rai_managedflg r = ND_RA_FLAG_MANAGED;
  rs_other : rai_otherflg r = 0 ∨ rai_otherflg r = ND_RA_FLAG_OTHER;
  rs_rtpref : rai_rtpref r = 0 ∨ rai_rtpref r = ND_RA_FLAG_RTPREF_HIGH ∨ rai_rtpref r = ND_RA_FLAG_RTPREF_LOW;
  rs_hoplimit : byte_ok (rai_hoplimit r);
  rs_reachable : u32_ok (rai_reachabletime r);
  rs_retrans : u32_ok (rai_retranstimer r);
  rs_mtu : u32_ok (rai_linkmtu r);
  rs_fixed : Forall (λ p, pfx_vltimeexpire p = 0 ∧ pfx_pltimeexpire p = 0) (rai_prefix r);
  rs_distinct : ∀ p q, p ∈ rai_prefix r → q ∈ rai_prefix r → pfx_prefixlen p = pfx_prefixlen q →
    prefix_bits_eq (pfx_prefix p) (pfx_prefix q) (pfx_prefixlen p) = true → p = q }.

Lemma pi_opts_elem clock ps tick o : o ∈ pi_opts clock ps tick → ∃ p i, p ∈ ps ∧ o = pi_opt p (clock i).
Proof.
  revert tick. induction ps as [|p ps IH]; intros tick Ho; [by apply elem_of_nil in Ho|].
  simpl in Ho. apply elem_of_cons in Ho as [->|Ho].
  - exists p, tick. split; [apply list_elem_of_here|done].
  - destruct (IH _ Ho) as (q & i & Hq & ->). exists q, i. split; [by right|done].
Qed.

(** The options of type prefix information and MTU of our packet. *)
Lemma ra_options_pi clock r tick o :
  o ∈ ra_options clock r tick → o.1 = ND_OPT_PREFIX_INFORMATION →
  ∃ p i, p ∈ rai_prefix r ∧ o = pi_opt p (clock i).
Proof.
  unfold ra_options. rewrite !elem_of_app. intros Ho Et. destruct_or! Ho; revert Et.
  all: try (by apply pi_opts_elem in Ho).
  all: try (apply list_elem_of_fmap in Ho as (x & -> & _); done).
  all: try (unfold lladdr_opts in Ho).
  all: repeat (case_match; try (by apply elem_of_nil in Ho)).
  all: try (apply list_elem_of_singleton in Ho as ->; done).
Qed.

Lemma ra_options_mtu clock r tick o :
  o ∈ ra_options clock r tick → o.1 = ND_OPT_MTU → o = (ND_OPT_MTU, [0; 0] ++ be32 (rai_linkmtu r)).
Proof.
  unfold ra_options. rewrite !elem_of_app. intros Ho Et. destruct_or! Ho; revert Et.
  all: try (apply pi_opts_elem in Ho as (p & i & _ & ->); unfold pi_opt; by destruct (pi_lifetimes _ _)).
  all: try (apply list_elem_of_fmap in Ho as (x & -> & _); done).
  all: try (unfold lladdr_opts in Ho).
  all: repeat (case_match; try (by apply elem_of_nil in Ho)).
  all: try (apply list_elem_of_singleton in Ho as ->; done).
Qed.

Lemma prefix_bits_eq_refl a plen : prefix_bits_eq a a plen = true.
Proof. unfold prefix_bits_eq. by rewrite bool_decide_true, Z.eqb_refl, orb_true_r by done. Qed.

Section consistent.
Context `{Env} (r : rainfo) (Hw : rai_wf r) (Hs : ra_settings r).

Lemma find_prefix_own p :
  p ∈ rai_prefix r → find_prefix (rai_prefix r) (pfx_prefix p) (pfx_prefixlen p) = Some p.
Proof.
  intros Hp. pose proof (rs_distinct r Hs) as Hd.
  assert (Hsub : ∀ q, q ∈ rai_prefix r → q ∈ rai_prefix r) by done.
  revert Hp Hsub. generalize (rai_prefix r) at 1 2 4. intros l Hp Hsub.
  assert (Hp' : p ∈ rai_prefix r) by auto.
  induction l as [|q l IH]; [by apply elem_of_nil in Hp|]. simpl.
  assert (Hq : q ∈ rai_prefix r) by apply Hsub, list_elem_of_here.
  assert (K : q ≠ p → find_prefix l (pfx_prefix p) (pfx_prefixlen p) = Some p).
  { intros Hne. apply IH; [|intros; apply Hsub; by right].
    apply elem_of_cons in Hp as [->|Hp]; done. }
  destruct (Z.eqb_spec (pfx_prefixlen p) (pfx_prefixlen q)) as [E|E]; simpl.
  - destruct (prefix_bits_eq _ _ _) eqn:Eb; [by rewrite (Hd p q)|].
    apply K. intros ->. by rewrite prefix_bits_eq_refl in Eb.
  - apply K. by intros ->.
Qed.

Lemma prefix_check_own pkt l1 l2 p now w :
  p ∈ rai_prefix r → pkt = l1 ++ encode_opt (pi_opt p now) ++ l2 →
  prefix_check pkt (length l1) r w = Ret (0, w).
Proof.
  intros Hp ->. pose proof (rs_fixed r Hs) as Hf. rewrite Forall_forall in Hf.
  destruct (Hf p Hp) as [Ev Ep]. pose proof (rai_wf_prefix r Hw) as Hwp.
  rewrite Forall_forall in Hwp. destruct (Hwp p Hp) as [[La Ha] Hlen Hvl Hpl].
  unfold pi_opt. destruct (pi_lifetimes p now) as [vl pl] eqn:El.
  set (m := encode_opt _).
  assert (Lm : length m = 32%nat) by (unfold m; simpl; rewrite La; done).
  assert (E16 : read_at m 16 16 = Some (pfx_prefix p)).
  { unfold read_at. rewrite bool_decide_true by (rewrite Lm; done). change (drop 16 m) with (pfx_prefix p).
    by rewrite take_ge by (rewrite La; done). }
  assert (E2 : m !! 2%nat = Some (pfx_prefixlen p)) by done.
  assert (E4 : read_at m 4 4 = Some (be32 vl)) by (unfold read_at; by rewrite bool_decide_true by (rewrite Lm; lia)).
  assert (E8 : read_at m 8 4 = Some (be32 pl)) by (unfold read_at; by rewrite bool_decide_true by (rewrite Lm; lia)).
  clearbody m. unfold prefix_check.
  rewrite (lift_run _ _ _ (pfx_prefixlen p)) by (rewrite rd8_mid by lia; by rewrite E2).
  rewrite (lift_run _ _ _ (be_val (be32 vl))) by (unfold rd32; rewrite read_at_mid by lia; by rewrite E4).
  rewrite (lift_run _ _ _ (be_val (be32 pl))) by (unfold rd32; rewrite read_at_mid by lia; by rewrite E8).
  rewrite (lift_run _ _ _ (pfx_prefix p)) by (rewrite read_at_mid by lia; by rewrite E16).
  rewrite find_prefix_own by done. unfold lifetime_check. rewrite Ev, Ep. cbn [truthy Z.eqb negb].
  rewrite !mret_run. destruct (pfx_timer p) eqn:Et; [by rewrite andb_false_r|].
  assert (Evl : vl = pfx_validlifetime p).
  { unfold pi_lifetimes, lifetime_left in El. rewrite Et, Ev in El. simpl in El. congruence. }
  by rewrite Evl, (be32_val (pfx_validlifetime p)), Z.eqb_refl by done.
Qed.

Lemma prefix_checks_own pkt offs w :
  (∀ off, off ∈ offs → ∃ p now l1 l2, p ∈ rai_prefix r ∧ length l1 = off ∧
     pkt = l1 ++ encode_opt (pi_opt p now) ++ l2) →
  prefix_checks pkt offs r w = Ret (0, w).
Proof.
  induction offs as [|off offs IH]; intros Ho; [done|].
  destruct (Ho off) as (p & now & l1 & l2 & Hp & <- & E); [apply list_elem_of_here|].
  cbn [prefix_checks]. rewrite (bind_run _ _ _ _ _ (prefix_check_own _ _ _ _ _ w Hp E)).
  rewrite (bind_run _ _ _ _ _ (IH ltac:(intros; apply Ho; by right))). done.
Qed.

(** The options of our own packet, as [ra_input] parses it. *)
Lemma own_options tick flags :
  let pkt := ra_packet clock r tick in
  ∃ nd, nd6_options pkt 16 (Z.of_nat (length pkt) - 16) flags = Ret (0, nd) ∧
    (∀ off, nd_opts_mtu nd = Some off → rd32 pkt (off + 4) = Some (rai_linkmtu r)) ∧
    (∀ off, nd_opts_pi nd = Some off ∨ off ∈ nd_opts_list nd →
       ∃ p now l1 l2, p ∈ rai_prefix r ∧ length l1 = off ∧ pkt = l1 ++ encode_opt (pi_opt p now) ++ l2).
Proof.
  intros pkt. set (os := ra_options clock r tick).
  assert (Ho : Forall opt_wf os) by (by apply ra_options_wf).
  pose proof (nd6_options_encoded (ra_header r) os [] flags Ho) as E. rewrite app_nil_r in E.
  replace (Z.of_nat (length (encode_opts os))) with (Z.of_nat (length pkt) - 16) in E
    by (unfold pkt, ra_packet; rewrite length_app; change (length (ra_header r)) with 16%nat; fold os; lia).
  eexists. split; [exact E|]. unfold collected.
  cbn [nd_opts_mtu nd_opts_pi nd_opts_list]. split.
  - intros off Hoff. apply last_Some_elem_of, wanted_split in Hoff as (o & l1 & l2 & Hin & Et & Ep & <-).
    apply ra_options_mtu in Hin; [|done]. subst o. unfold pkt, ra_packet, rd32. fold os. rewrite Ep.
    rewrite read_at_mid by (simpl; lia). change (be_val <$> read_at _ 4 4) with (Some (be_val (be32 (rai_linkmtu r)))).
    by rewrite be32_val by apply Hs.
  - intros off Hoff.
    assert (Hin : off ∈ wanted_at flags ND_OPT_PREFIX_INFORMATION (placed (length (ra_header r)) os)).
    { destruct Hoff as [Hoff|Hoff]; [by apply head_Some_elem_of|].
      rewrite elem_of_reverse in Hoff. destruct (wanted_at _ _ _); simpl in Hoff; [by apply elem_of_nil in Hoff|by right]. }
    apply wanted_split in Hin as (o & l1 & l2 & Hin & Et & Ep & <-).
    apply ra_options_pi in Hin as (p & i & Hp & ->); [|done]. by exists p, (clock i), l1, l2.
Qed.

Lemma flags_own tick :
  let flags := Z.land (default 0 (rd8 (ra_packet clock r tick) 5)) in
  rd8 (ra_packet clock r tick) 5 = Some (default 0 (rd8 (ra_packet clock r tick) 5)) ∧
  flags ND_RA_FLAG_MANAGED = rai_managedflg r ∧ flags ND_RA_FLAG_OTHER = rai_otherflg r.
Proof.
  destruct Hs as [[Em|Em] [Eo|Eo] Er _ _ _ _ _ _]; destruct_or! Er;
    unfold ra_packet, ra_header, rd8; simpl; rewrite Em, Eo, Er; done.
Qed.

Lemma value_check_same x : value_check x x = 0.
Proof. unfold value_check. by rewrite Z.eqb_refl, andb_false_r. Qed.

End consistent.

Lemma ra_input_own_packet `{Env} w ifindex r tick :
  if_indextorainfo ifindex (ralist w) = Some r → rai_wf r → ra_settings r →
  ra_input (ra_packet clock r tick) ifindex w
  = upd_rai (rai_id r) (λ r, r <| rai_rainput := u64 (rai_rainput r + 1) |>) w.
Proof.
  intros Er Hw Hs. unfold ra_input.
  set (flags := Z.lor (Z.lor NDOPT_FLAG_SRCLINKADDR NDOPT_FLAG_PREFIXINFO) NDOPT_FLAG_MTU).
  destruct (own_options r Hw Hs tick flags) as (nd & E & Hm & Hp).
  destruct (flags_own r Hs tick) as (E5 & EM & EO).
  rewrite (lift_run _ _ _ _ E). cbv beta iota. change (truthy 0) with false. cbv iota.
  rewrite get_run, Er. cbv zeta.
  destruct (upd_rai (rai_id r) (λ r, r <| rai_rainput := u64 (rai_rainput r + 1) |>) w)
    as [[[] w1]| |] eqn:E1; try done. rewrite (bind_run _ _ _ _ _ E1).
  rewrite (lift_run _ _ _ (rai_hoplimit r)).
  2:{ unfold ra_packet, ra_header, rd8. simpl. f_equal. pose proof (rs_hoplimit r Hs) as Hh.
      change 0xff with (Z.ones 8). rewrite Z.land_comm, Z.land_ones by lia. unfold u8, byte_ok in *. zlia. }
  rewrite (lift_run _ _ _ _ (f_equal of_opt E5)). rewrite EM, EO. unfold flag_check. rewrite !Z.eqb_refl.
  rewrite !(lift_run (Ret _) _ _ _ eq_refl).
  rewrite (lift_run _ _ _ (rai_reachabletime r)) by (apply (f_equal Ret), be32_val, Hs).
  rewrite (lift_run _ _ _ (rai_retranstimer r)) by (apply (f_equal Ret), be32_val, Hs).
  assert (Emtu : (match nd_opts_mtu nd with
    | Some off => mtu ← lift (of_opt (rd32 (ra_packet clock r tick) (off + 4)));
                  mret (value_check mtu (rai_linkmtu r))
    | None => mret 0 end : IO Z) w1 = Ret (0, w1)).
  { destruct (nd_opts_mtu nd) as [off|] eqn:Eo; [|done]. rewrite (lift_run _ _ _ (rai_linkmtu r)).
    - by rewrite value_check_same.
    - by rewrite (Hm off eq_refl). }
  rewrite (bind_run _ _ _ _ _ Emtu).
  assert (Epi : (match nd_opts_pi nd with
    | Some off => prefix_checks (ra_packet clock r tick) [off] r
    | None => mret 0 end : IO Z) w1 = Ret (0, w1)).
  { destruct (nd_opts_pi nd) as [off|] eqn:Eo; [|done]. apply (prefix_checks_own r Hw Hs).
    intros off' Hoff. apply list_elem_of_singleton in Hoff as ->. apply Hp. by left. }
  rewrite (bind_run _ _ _ _ _ Epi).
  rewrite (bind_run _ _ _ _ _ (prefix_checks_own r Hw Hs _ _ w1 (λ off Hoff, Hp off (or_intror Hoff)))).
  by rewrite !value_check_same.
Qed.

(** Routers with the same configuration agree: an advertisement that
    [make_packet] builds from the configuration of an interface, received on
    that interface, passes every check of [ra_input] (hop limit, M and O
    flags, timers, MTU and all the prefixes with their lifetimes). The only
    change is the count of received advertisements: no inconsistency is
    counted, and in particular no log message reads the table of flag names
    out of bounds. *)
Lemma ra_input_own `{Env} w ifindex r tick :
  if_indextorainfo ifindex (ralist w) = Some r → rai_wf r → ra_settings r →
  ∃ r' tick' pkt, make_packet clock junk r tick = Ret (r', tick') ∧ rai_ra_data r' = Some pkt ∧
    ra_input pkt ifindex w = upd_rai (rai_id r) (λ r, r <| rai_rainput := u64 (rai_rainput r + 1) |>) w.
Proof.
  intros Er Hw Hs. do 3 eexists. split; [by apply make_packet_eq|]. split; [done|].
  by apply ra_input_own_packet.
Qed.

Lemma rai_wf_managed r x : rai_wf r → rai_wf (r <| rai_managedflg := x |>).
Proof. intros []. by constructor. Qed.

(** An interface that advertises the M flag. *)
Definition managed_rai : rainfo := sample_rai <| rai_managedflg := ND_RA_FLAG_MANAGED |>.
Definition managed_world : world :=
  World [managed_rai] (TQ tm_max [] 0) [Ifm 4 1] 0 0 8 [] zero_rro [].

Lemma managed_settings : ra_settings managed_rai.
Proof.
  constructor; unfold u32_ok, byte_ok; try (simpl; lia).
  - by apply Forall_singleton.
  - by intros p q ->%list_elem_of_singleton ->%list_elem_of_singleton.
Qed.

Lemma ra_input_own_witness :
  ∃ r' tick' pkt w', make_packet clock junk managed_rai 0 = Ret (r', tick') ∧ rai_ra_data r' = Some pkt ∧
    ra_input pkt 4 managed_world = Ret (tt, w').
Proof.
  destruct (ra_input_own managed_world 4 managed_rai 0 eq_refl
    (rai_wf_managed _ _ sample_rai_wf) managed_settings) as (r' & tick' & pkt & Em & Ed & E).
  exists r', tick', pkt. eexists. split; [exact Em|]. split; [exact Ed|]. rewrite E. reflexivity.
Defined.

(** An advertisement of another router reads memory out of bounds: if an
    interface is configured with the M flag, a well-formed advertisement that
    does not carry it makes [ra_input] index the table [on_off] of two strings
    with the configured value 0x80 for its log message. *)
Lemma ra_input_flag_overread `{Env} w ifindex r hdr flags os :
  if_indextorainfo ifindex (ralist w) = Some r → rai_managedflg r = ND_RA_FLAG_MANAGED →
  length hdr = 16%nat → hdr !! 5%nat = Some flags → Z.land flags ND_RA_FLAG_MANAGED = 0 →
  Forall opt_wf os →
  ra_input (hdr ++ encode_opts os) ifindex w = Crash.
Proof.
  intros Er Em Lh E5 Ef Ho. unfold ra_input.
  set (fl := Z.lor (Z.lor NDOPT_FLAG_SRCLINKADDR NDOPT_FLAG_PREFIXINFO) NDOPT_FLAG_MTU).
  pose proof (nd6_options_encoded hdr os [] fl Ho) as E. rewrite app_nil_r, Lh in E.
  replace (Z.of_nat (length (hdr ++ encode_opts os)) - 16) with (Z.of_nat (length (encode_opts os)))
    by (rewrite length_app, Lh; lia).
  rewrite (lift_run _ _ _ _ E). cbv beta iota. change (truthy 0) with false. cbv iota.
  rewrite get_run, Er. cbv zeta. destruct (lookup_lt_is_Some_2 hdr 4) as [h Eh]; [lia|].
  destruct (upd_rai (rai_id r) (λ r, r <| rai_rainput := u64 (rai_rainput r + 1) |>) w)
    as [[[] w1]| |] eqn:E1; try done. rewrite (bind_run _ _ _ _ _ E1).
  rewrite (lift_run _ _ _ h) by (unfold rd8; rewrite lookup_app_l by lia; by rewrite Eh).
  rewrite (lift_run _ _ _ flags) by (unfold rd8; rewrite lookup_app_l by lia; by rewrite E5).
  by rewrite Ef, Em.
Qed.

Lemma ra_input_flag_overread_witness :
  ra_input ([134; 0; 0; 0; 64; 0; 7; 8; 0; 0; 0; 0; 0; 0; 0; 0] ++ encode_opts []) 4 managed_world = Crash.
Proof. by apply (ra_input_flag_overread managed_world 4 managed_rai _ 0 []). Defined.
