(* ===== verification/Interop.v ===== *)
(** * Interop: rtadvd and rtsold on one link

    What leaves rtadvd when it terminates, and that each of the two daemons
    accepts and acts on the packets of the other. *)

From S2P Require Import Prelude Timeval In6 NdOpt RaTimer RtMsg Rtsold.
From S2P Require Import Rainfo RaState RaInv RaOps Rtadvd RtadvdSafe RtadvdFun.

(** ** The last advertisements *)

Section last.
Context `{Env} (ids : list ident) (needs : Z → bool).

Definition all_zero (w : world) : Prop := Forall (λ r, rai_lifetime r = 0) (ralist w).

Lemma zero_upd (l : list rainfo) id f :
  Forall (λ r, rai_lifetime r = 0) l → (∀ r, rai_lifetime r = 0 → rai_lifetime (f r) = 0) →
  Forall (λ r, rai_lifetime r = 0) ((λ r, if (rai_id r =? id)%nat then f r else r) <$> l).
Proof.
  intros Hz Hf. apply Forall_fmap. eapply Forall_impl; [exact Hz|]. intros r Hr. simpl.
  destruct (rai_id r =? id)%nat; auto.
Qed.

Lemma ra_output_run w id r :
  Inv ids needs w → find_rai id (ralist w) = Some r → all_zero w →
  ∃ w', ra_output id w = Ret (tt, w') ∧ quiet w w' ∧ all_zero w' ∧
    w_sent w' = (if listed_up (w_ifilist w) (rai_ifindex r)
                 then [(rai_ifindex r, ra_packet clock r (w_tick w))] else []) ++ w_sent w.
Proof.
  intros Hi Ef Hz. apply find_rai_Some in Ef as Hr. destruct Hr as [Hr Eid].
  assert (Hid : id ∈ ids.*1) by (rewrite <- Eid; by eapply rai_id_elem).
  destruct (calm_ra_output ids needs quiet w id Hi Hid) as ([] & w' & E & Q).
  exists w'. split; [exact E|]. split; [exact Q|]. revert E.
  unfold ra_output. rewrite (bind_run _ _ _ _ _ (deref_run _ _ _ Ef)), get_run. unfold listed_up, is_up.
  destruct (get_interface_entry _ _) as [ifm|]; [|by intros [= <-]].
  destruct (_ =? 0); [by intros [= <-]|]. cbn [negb app].
  destruct (make_packet_run ids needs quiet w id r Hi Ef) as (E1 & _ & Ef').
  rewrite (bind_run _ _ _ _ _ E1), (bind_run _ _ _ _ _ (deref_run _ _ _ Ef')).
  rewrite (lift_run _ _ _ (ra_packet clock r (w_tick w))) by done.
  assert (Ez : rai_lifetime r = 0) by (by eapply Forall_forall in Hr; [|exact Hz]).
  set (w1 := w <| ralist := _ |> <| w_tick := _ |>) in *.
  assert (Hz1 : all_zero w1) by (by apply zero_upd).
  assert (Es : w_sent w1 = w_sent w) by done.
  clearbody w1. unfold mbind, ST_bind, upd_rai, modify, gettimeofday. intros [= <-].
  split; [|simpl; by rewrite Es]. unfold all_zero.
  do 4 (eapply zero_upd; [|done]). by eapply zero_upd; [|intros; case_match].
Qed.

(** The interfaces of [done] have lifetime zero. *)
Definition zeroed (don : list nat) (w : world) : Prop :=
  ∀ r, r ∈ ralist w → rai_id r ∈ don → rai_lifetime r = 0.

Definition zero_one (id : nat) : IO unit :=
  _ ← upd_rai id (λ r, r <| rai_lifetime := 0 |>); w_make_packet id.

Lemma zero_step w id don :
  Inv ids needs w → id ∈ ids.*1 → zeroed don w →
  ∃ w', zero_one id w = Ret (tt, w') ∧ quiet w w' ∧ w_sent w' = w_sent w ∧ zeroed (id :: don) w'.
Proof.
  intros Hi Hid Hz. unfold zero_one.
  destruct (calm_upd ids needs quiet w id (λ r, r <| rai_lifetime := 0 |>) Hi ltac:(harmless_tac))
    as ([] & w1 & E1 & Q1). rewrite (bind_run _ _ _ _ _ E1).
  injection E1 as E1. assert (Hi1 : Inv ids needs w1) by (by eapply quiet_Inv).
  destruct (deref_rai_run ids needs w id Hi Hid) as (r & Ef & _).
  assert (Ef1 : find_rai id (ralist w1) = Some (r <| rai_lifetime := 0 |>)).
  { rewrite <- E1. by apply (find_rai_upd id (λ r, r <| rai_lifetime := 0 |>)). }
  destruct (make_packet_run ids needs quiet w1 id _ Hi1 Ef1) as (E2 & Q2 & _).
  eexists. split; [exact E2|]. split; [by etrans|]. split; [by rewrite <- E1|].
  intros r' Hr' Hdon. cbn in Hr'. apply list_elem_of_fmap in Hr' as (r1 & -> & Hr1).
  destruct (Nat.eqb_spec (rai_id r1) id) as [|Hne]; [done|].
  rewrite <- E1 in Hr1. cbn in Hr1. apply list_elem_of_fmap in Hr1 as (r0 & -> & Hr0).
  destruct (Nat.eqb_spec (rai_id r0) id) as [|_]; [done|].
  apply Hz; [done|]. by apply elem_of_cons in Hdon as [|].
Qed.

Lemma zero_loop (l : list rainfo) : ∀ w don,
  Inv ids needs w → Forall (λ r, rai_id r ∈ ids.*1) l → zeroed don w →
  ∃ w', for_each_rai zero_one l w = Ret (tt, w') ∧ quiet w w' ∧ w_sent w' = w_sent w ∧
    zeroed (reverse (rai_id <$> l) ++ don) w'.
Proof.
  induction l as [|r l IH]; intros w don Hi Hl Hz; [by exists w|].
  apply Forall_cons in Hl as [Hr Hl].
  destruct (zero_step w (rai_id r) don Hi Hr Hz) as (w1 & E1 & Q1 & S1 & Z1).
  destruct (IH w1 (rai_id r :: don)) as (w2 & E2 & Q2 & S2 & Z2); [by eapply quiet_Inv|done..|].
  exists w2. cbn [for_each_rai]. rewrite (bind_run _ _ _ _ _ E1). split; [exact E2|].
  split; [by etrans|]. split; [congruence|]. csimpl. by rewrite reverse_cons, <- app_assoc.
Qed.

Lemma key_find w k :
  Inv ids needs w → k ∈ ids → ∃ r, find_rai k.1 (ralist w) = Some r ∧ rai_ifindex r = k.2.1.
Proof.
  intros Hi Hk. pose proof (Inv_nodup _ _ w Hi) as Hn. rewrite <- (inv_ids _ _ _ Hi) in Hk.
  unfold w_shape in Hk. rewrite <- list_fmap_compose in Hk.
  apply list_elem_of_fmap in Hk as (r & -> & Hr). exists r. split; [|done]. by apply find_rai_elem.
Qed.

(** One round of [ra_output], last packet first. *)
Lemma output_loop ifl (l : list rainfo) : ∀ w,
  Inv ids needs w → w_ifilist w = ifl → Forall (λ r, sh_key (shape_rai r) ∈ ids) l → all_zero w →
  ∃ w' pkts, for_each_rai ra_output l w = Ret (tt, w') ∧ w_sent w' = pkts ++ w_sent w ∧
    Forall (λ p : Z * bytes, rd8 p.2 0 = Some ND_ROUTER_ADVERT ∧ rd16 p.2 6 = Some 0) pkts ∧
    pkts.*1 = reverse (filter (λ i, listed_up ifl i = true) (rai_ifindex <$> l)).
Proof.
  induction l as [|x l IH]; intros w Hi Hf Hl Hz; [by exists w, []|].
  apply Forall_cons in Hl as [Hx Hl]. destruct (key_find w _ Hi Hx) as (r & Er & Ei). cbn in Er, Ei.
  destruct (ra_output_run w (rai_id x) r Hi Er Hz) as (w1 & E1 & Q1 & Z1 & S1).
  destruct (IH w1) as (w2 & pkts & E2 & S2 & Hp & Ep);
    [by eapply quiet_Inv|by rewrite (quiet_ifl _ _ Q1)|done..|].
  assert (Hr : rai_lifetime r = 0).
  { apply find_rai_Some in Er as [Hr _]. by eapply Forall_forall in Hr; [|exact Hz]. }
  exists w2. eexists. cbn [for_each_rai]. rewrite (bind_run _ _ _ _ _ E1). split; [exact E2|].
  split; [by rewrite S2, S1, app_assoc|]. rewrite Hf, Ei. csimpl. rewrite filter_cons.
  destruct (listed_up ifl (rai_ifindex x)) eqn:Eu; simpl.
  - rewrite reverse_cons, fmap_app, Ep. split; [|done]. apply Forall_app_2; [done|].
    apply Forall_singleton. unfold ra_packet, ra_header, rd16. simpl. rewrite Hr. done.
  - by rewrite app_nil_r.
Qed.

End last.

(** When the daemon terminates it sends one last advertisement on every
    interface that is up, and no other packet, with a router lifetime of zero:
    the hosts stop using it as a default router (RFC 4861, 6.2.5). *)
Lemma die_output_final `{Env} ids ifl w :
  Good ids ifl w →
  ∃ w' pkts, die_output w = Ret (tt, w') ∧ w_sent w' = pkts ++ w_sent w ∧
    pkts.*1 = reverse (filter (λ i, listed_up ifl i = true) (rai_ifindex <$> ralist w)) ∧
    Forall (λ p : Z * bytes, rd8 p.2 0 = Some ND_ROUTER_ADVERT ∧ rd16 p.2 6 = Some 0) pkts.
Proof.
  intros [Hi Hf].
  assert (Hk : ∀ w1, Inv ids (listed_up ifl) w1 → Forall (λ r, sh_key (shape_rai r) ∈ ids) (ralist w1)).
  { intros w1 Hi1. apply Forall_forall. intros r Hr. rewrite <- (inv_ids _ _ _ Hi1).
    apply list_elem_of_fmap_2, list_elem_of_fmap_2, Hr. }
  destruct (zero_loop ids (listed_up ifl) (ralist w) w []) as (w1 & E1 & Q1 & S1 & Z1); [done| |by intros ?? ?%elem_of_nil|].
  { apply Forall_forall. intros r Hr. by eapply rai_id_elem. }
  assert (Hi1 : Inv ids (listed_up ifl) w1) by (by eapply quiet_Inv).
  destruct (output_loop ids (listed_up ifl) ifl (ralist w1) w1) as (w2 & pkts & E2 & S2 & Hp & Ep);
    [done|by rewrite (quiet_ifl _ _ Q1)|by apply Hk| |].
  { apply Forall_forall. intros r Hr. apply Z1; [done|]. rewrite app_nil_r, elem_of_reverse.
    rewrite (Inv_rai_ids _ _ w Hi), <- (Inv_rai_ids _ _ w1 Hi1). by apply list_elem_of_fmap_2. }
  exists w2, pkts. split; [|split; [congruence|split; [|done]]].
  - unfold die_output. rewrite get_run. change (λ id : nat, _) with zero_one at 1.
    rewrite (bind_run _ _ _ _ _ E1). cbn [repeat_io MAX_FINAL_RTR_ADVERTISEMENTS].
    unfold mbind, ST_bind, get. by rewrite E2.
  - rewrite Ep. do 2 f_equal. assert (Es := quiet_shape _ _ Q1). unfold w_shape in Es.
    apply (f_equal (fmap sh_ifindex)) in Es. by rewrite <- !list_fmap_compose in Es.
Qed.

Lemma die_output_final_witness :
  ∃ w' pkts, die_output (H:=clock_env) sample_world = Ret (tt, w') ∧ pkts.*1 = [4] ∧ w_sent w' = pkts.
Proof.
  destruct (die_output_final (H:=clock_env) sample_ids [Ifm 4 1] sample_world sample_Good)
    as (w' & pkts & E & S & Ei & _).
  exists w', pkts. split; [exact E|]. split; [exact Ei|]. by rewrite S, app_nil_r.
Defined.

(** ** Solicitations *)

Definition rs_header : bytes := [Rtsold.ND_ROUTER_SOLICIT; 0; 0; 0; 0; 0; 0; 0].

(** The message that rtsold builds for an interface. *)
Lemma rs_packet i i' :
  (sdl_type (sdl i) = IFT_ETHER → bytes_ok (LLADDR (sdl i))) → Rtsold.make_packet i = Ret i' →
  ∃ os, rs_data i' = rs_header ++ encode_opts os ∧ Forall opt_wf os.
Proof.
  unfold Rtsold.make_packet, Rtsold.lladdropt_length, Rtsold.lladdropt_fill. intros Hok.
  destruct (Z.eqb_spec (sdl_type (sdl i)) IFT_ETHER) as [Et|]; simpl.
  - destruct (read_at (LLADDR (sdl i)) 0 _) as [a|] eqn:Ea; [|done]. intros [= <-].
    unfold read_at in Ea. case_bool_decide as Hl; [|done]. injection Ea as <-. rewrite drop_0.
    change (0 + Z.to_nat ETHER_ADDR_LEN)%nat with 6%nat in Hl.
    change (Z.to_nat ETHER_ADDR_LEN) with 6%nat.
    exists [(ND_OPT_SOURCE_LINKADDR, take 6 (LLADDR (sdl i)))]. split.
    + unfold encode_opts, encode_opt, opt_len. simpl. rewrite length_take_le, app_nil_r by done. done.
    + apply Forall_singleton. unfold opt_wf, opt_len. cbn [fst snd].
      rewrite length_take_le by done. split_and!; [done|by apply Forall_take, Hok|done..].
  - intros [= <-]. exists []. by split.
Qed.

Section solicited.
Context `{Env} (ids : list ident) (ifl : ifilist).

(** What a solicitation does to the interface it arrived on. *)
Definition solicited (from : in6_addr) (r : rainfo) : rainfo :=
  r <| rai_rsinput := u64 (rai_rsinput r + 1) |> <| rai_soliciter := from :: rai_soliciter r |>
    <| rai_waiting := s32 (rai_waiting r + 1) |>.

Lemma solicited_harmless from : harmless (solicited from).
Proof. harmless_tac. Qed.

Lemma solicited_run w id from (k : IO unit) :
  (_ ← upd_rai id (λ r, r <| rai_rsinput := u64 (rai_rsinput r + 1) |>);
   _ ← upd_rai id (λ r, r <| rai_soliciter := from :: rai_soliciter r |>);
   _ ← upd_rai id (λ r, r <| rai_waiting := s32 (rai_waiting r + 1) |>); k) w
  = (_ ← upd_rai id (solicited from); k) w.
Proof.
  unfold mbind, ST_bind, upd_rai, modify. f_equal. unfold update_field; simpl. f_equal.
  rewrite <- !list_fmap_compose. apply list_fmap_ext. intros j r _. simpl.
  destruct (rai_id r =? id)%nat eqn:E; simpl; by rewrite E; simpl; rewrite ?E.
Qed.

(** [rs_input] on a message of rtsold. *)
Lemma rs_input_run w ifindex r from os :
  if_indextorainfo ifindex (ralist w) = Some r → IN6_IS_ADDR_UNSPECIFIED from = false →
  Forall opt_wf os → rai_waiting r = 0 →
  rs_input (rs_header ++ encode_opts os) ifindex from w
  = (_ ← upd_rai (rai_id r) (solicited from); set_short_delay (rai_id r)) w.
Proof.
  intros Er Hf Ho Hwait. unfold rs_input.
  pose proof (nd6_options_encoded rs_header os [] NDOPT_FLAG_SRCLINKADDR Ho) as E.
  rewrite app_nil_r in E. change (length rs_header) with 8%nat in E.
  replace (Z.of_nat (length (rs_header ++ encode_opts os)) - 8) with (Z.of_nat (length (encode_opts os)))
    by (rewrite length_app; change (length rs_header) with 8%nat; lia).
  rewrite (lift_run _ _ _ _ E). cbv beta iota. change (truthy 0) with false. cbv iota.
  rewrite Hf. cbn [andb]. rewrite get_run, Er. cbv zeta. rewrite Hwait. apply solicited_run.
Qed.

(** [rtadvd_input] hands a solicitation to [rs_input]. *)
Lemma rtadvd_input_rs w ifindex area from dst fuel errno dump :
  listed_up (w_ifilist w) ifindex = true → ifindex ≠ 0 →
  rtadvd_input false fuel errno dump
    (Some (Received (rs_header ++ area) from [CmsgPktinfo ifindex dst; CmsgHoplimit 255])) w
  = (_ ← rs_input (rs_header ++ area) ifindex from; mret (Some tt)) w.
Proof.
  intros Hu Hi. unfold rtadvd_input. cbn [cmsg_scan rcv_cmsgs foldl rcv_data rcv_from].
  rewrite (proj2 (Z.eqb_neq _ _) Hi), get_run. unfold listed_up, is_up in Hu.
  destruct (get_interface_entry _ _) as [ifm|]; [|done]. apply negb_true_iff in Hu. by rewrite Hu.
Qed.

(** C10: A host finds its router: a solicitation that rtsold builds, received by
    rtadvd on an interface that is up and not waiting to answer already, is
    accepted. It is counted, its sender recorded, and the timer of the
    interface runs out within half a second, or within half a second of the
    end of the 3 s that must pass since the last advertisement. *)
Theorem solicitation_accepted w i i' ifindex r from dst fuel errno dump :
  Good ids ifl w → listed_up ifl ifindex = true → ifindex ≠ 0 →
  if_indextorainfo ifindex (ralist w) = Some r → rai_waiting r = 0 →
  (sdl_type (sdl i) = IFT_ETHER → bytes_ok (LLADDR (sdl i))) → Rtsold.make_packet i = Ret i' →
  IN6_IS_ADDR_UNSPECIFIED from = false →
  Forall (λ t, normal (tm_tm t)) (tq_list (w_queue w)) → normal (rai_lastsent r) →
  (∀ n, normal (clock n)) → usecs (rai_lastsent r) <= usecs (clock (S (w_tick w))) →
  let now n := usecs (clock (n + w_tick w)) in
  ∃ w' t x, rtadvd_input false fuel errno dump
      (Some (Received (rs_data i') from [CmsgPktinfo ifindex dst; CmsgHoplimit 255])) w = Ret (Some tt, w') ∧
    find_rai (rai_id r) (ralist w') = Some (solicited from r) ∧
    rai_timer r = Some t ∧ x ∈ tq_list (w_queue w') ∧ tm_id x = t ∧
    usecs (tm_tm x) < now 2%nat + Z.max 0 (usecs (rai_lastsent r) + 3 * MILLION - now 1%nat) + 500000.
Proof.
  intros [Hi Hf] Hu Hne Er Hwait Hok Ei Hfrom Hq Hl Hc Hle now.
  destruct (rs_packet i i' Hok Ei) as (os & -> & Ho). rewrite <- Hf in Hu.
  rewrite rtadvd_input_rs by done.
  apply indextorainfo_elem in Er as Hr. destruct Hr as [Hr Eidx].
  destruct (inv_up _ _ _ Hi ifindex (shape_rai r)) as [t Et]; [by apply indextorainfo_shape|by rewrite <- Hf|].
  cbn in Et.
  destruct (calm_upd ids (listed_up ifl) still w (rai_id r) (solicited from) Hi (solicited_harmless from))
    as ([] & w1 & E1 & Q1 & Eq1).
  assert (Ef1 : find_rai (rai_id r) (ralist w1) = Some (solicited from r)).
  { injection E1 as <-. cbn. apply (find_rai_upd _ (solicited from)); [done|].
    apply find_rai_elem; [by eapply Inv_nodup|done]. }
  destruct (listed_timer ids (listed_up ifl) w t Hi) as (l1 & x & l2 & Ex & Eid & Ex').
  { by eapply rai_timer_listed. }
  assert (Hx : normal (tm_tm x)).
  { rewrite Forall_forall in Hq. apply Hq. rewrite Ex. apply elem_of_middle. }
  assert (Etick : w_tick w1 = w_tick w) by (by injection E1 as <-).
  destruct (set_short_delay_run (rai_id r) w1 (solicited from r) t l1 x l2) as (w2 & d & E2 & L2 & R2 & D2);
    [done|done|by rewrite Eq1|done..|by rewrite Etick|].
  exists w2, t, (x <| tm_tm := d |>). split_and!; try done.
  - rewrite (bind_run _ _ w tt w2); [done|]. rewrite (rs_input_run w ifindex r from os) by done.
    by rewrite (bind_run _ _ _ _ _ E1).
  - by rewrite R2.
  - rewrite L2. apply elem_of_middle.
  - cbn [tm_tm update_field]. rewrite D2, Etick. unfold now.
    pose proof (Z.mod_pos_bound (random (w_rand w1)) MAX_RA_DELAY_TIME eq_refl).
    unfold MAX_RA_DELAY_TIME in *. cbn [rai_lastsent solicited update_field] in *. lia.
Qed.

End solicited.

Lemma solicitation_accepted_witness :
  ∃ w' t x, rtadvd_input (H:=sample_env) false 0 0 None
      (Some (Received ([133; 0; 0; 0; 0; 0; 0; 0] ++ [1; 1; 2; 0; 0; 0; 0; 1]) (sample_addr 9)
        [CmsgPktinfo 4 (sample_addr 8); CmsgHoplimit 255])) sample_world = Ret (Some tt, w') ∧
    x ∈ tq_list (w_queue w') ∧ tm_id x = t ∧ usecs (tm_tm x) < 1003 * MILLION.
Proof.
  set (i := Ifinfo sample_sdl EmptyString 0 0 0 0 IFS_PROBE 1 0 tm_max tm_max 0 0 0 []).
  destruct (solicitation_accepted (H:=sample_env) sample_ids [Ifm 4 1] sample_world i
    (i <| rs_datalen := 16 |> <| rs_data := [133; 0; 0; 0; 0; 0; 0; 0] ++ 1 :: 1 :: take 6 (LLADDR sample_sdl) |>)
    4 (sample_rai <| rai_timer := Some O |>) (sample_addr 9) (sample_addr 8) 0 0 None)
    as (w' & t & x & E & _ & _ & Hx & Ex & Hd); try done.
  - apply sample_Good.
  - intros _. apply (bool_decide_eq_true_1 (bytes_ok _)). reflexivity.
  - apply Forall_singleton. done.
  - exists w', t, x. split; [exact E|]. split; [exact Hx|]. split; [exact Ex|].
    eapply Z.lt_trans; [exact Hd|]. reflexivity.
Defined.

(** ** Advertisements *)

Lemma find_update n f l i :
  (∀ i, sdl (f i) = sdl i) → find_ifinfo l n = Some i → find_ifinfo (update_ifinfo n f l) n = Some (f i).
Proof.
  intros Hf. induction l as [|j l IH]; [done|]. simpl.
  destruct (sdl_index (sdl j) =? n) eqn:E; simpl; [rewrite Hf, E; by intros [= ->]|by rewrite E].
Qed.

Lemma ra_received_probe mobile_node k i :
  state i = IFS_PROBE →
  let i' := ra_received mobile_node k i in
  state i' = IFS_IDLE ∧ probes i' = 0 ∧ racnt i' = racnt i + 1.
Proof.
  intros Es. unfold ra_received, rtsol_timer_update, reset_timer. simpl. rewrite Es. simpl.
  repeat case_match; done.
Qed.

(** C9: The search ends: the packet that rtadvd builds for an interface, when
    rtsold receives it with hop limit 255 from a link-local address, takes the
    interface out of the probing state: it is idle, has no outstanding probe
    and counts one more advertisement. *)
Theorem advertisement_accepted clock junk r tick mobile_node k from ifindex l i :
  rai_wf r → ifindex ≠ 0 → IN6_IS_ADDR_LINKLOCAL from = true →
  find_ifinfo l ifindex = Some i → state i = IFS_PROBE →
  ∃ r' tick' pkt i', Rainfo.make_packet clock junk r tick = Ret (r', tick') ∧ rai_ra_data r' = Some pkt ∧
    find_ifinfo (rtsol_input mobile_node k (Some pkt)
      [Rtsold.CmsgPktinfo ifindex; Rtsold.CmsgHoplimit 255] from l) ifindex = Some i' ∧
    state i' = IFS_IDLE ∧ probes i' = 0 ∧ racnt i' = racnt i + 1.
Proof.
  intros Hw Hn Hf Ei Es. do 3 eexists. exists (ra_received mobile_node k i).
  split; [by apply make_packet_eq|]. split; [done|]. split; [|by apply ra_received_probe].
  rewrite (rtsol_input_valid _ _ _ _ _ _ ifindex).
  - by apply find_update; [apply ra_received_sdl|].
  - unfold valid_ra. rewrite Hf, (proj2 (Z.eqb_neq _ _) Hn), !bool_decide_true by done.
    unfold ra_packet. rewrite (proj2 (Nat.leb_le _ _)) by (rewrite length_app; simpl; lia). done.
Qed.

Definition probing : ifinfo := Ifinfo sample_sdl EmptyString 0 0 0 0 IFS_PROBE 1 0 tm_max tm_max 0 0 0 [].
Definition link_local : in6_addr := [0xfe; 0x80] ++ replicate 14 0.

Lemma advertisement_accepted_witness :
  ∃ r' tick' pkt i', Rainfo.make_packet (λ _, TV 0 0) (λ _, 0xa5) sample_rai 0 = Ret (r', tick') ∧
    rai_ra_data r' = Some pkt ∧
    find_ifinfo (rtsol_input false (Kernel (TV 1000 0) 0 None MediaError [] None) (Some pkt)
      [Rtsold.CmsgPktinfo 4; Rtsold.CmsgHoplimit 255] link_local [probing]) 4 = Some i' ∧
    state i' = IFS_IDLE ∧ probes i' = 0 ∧ racnt i' = 1.
Proof.
  exact (advertisement_accepted (λ _, TV 0 0) (λ _, 0xa5) sample_rai 0 false _ link_local 4 [probing] probing
    sample_rai_wf ltac:(done) eq_refl eq_refl eq_refl).
Defined.
