(* ===== verification/Advcap.v ===== *)
(** * Advcap: the capability database of rtadvd (rtadvd.tproj/advcap.c)

    The configuration file is a database of entries in the style of termcap:
    [names:field:field:...:], a field being [id#number], [id=string] or [id].
    [getent] copies the entry of an interface into the buffer [tbuf] of
    [getconfig] and follows [tc=] references; [tgetnum], [tgetflag] and
    [tgetstr] look fields up in it. The buffers are arrays of BUFSIZ octets;
    pointers into them are offsets, and an access outside is [Crash]. *)

From S2P Require Import Prelude Rainfo.

Definition BUFSIZ : nat := 1024.
Definition MAXHOP : nat := 32.

(** The octets of a string literal. *)
Definition ascii_z (c : Ascii.ascii) : Z := Z.of_N (Ascii.N_of_ascii c).
Definition cstr (s : string) : bytes := ascii_z <$> String.list_ascii_of_string s.

Definition NEWLINE : Z := 10.
Definition DQUOTE : Z := 34.
Definition HASH : Z := 35.
Definition ZERO : Z := 48.
Definition COLON : Z := 58.
Definition EQUALS : Z := 61.
Definition AT : Z := 64.
Definition BACKSLASH : Z := 92.
Definition CARET : Z := 94.
Definition BAR : Z := 124.
Definition isdigit (c : Z) : bool := (48 <=? c) && (c <=? 57).

Section buffer.
Context (tbuf : bytes).

Definition chr (p : nat) : outcome Z := of_opt (rd8 tbuf p).

(** [strlen] of the string at [p], and the string. The loops of this file move
    a pointer forward at each step, so that a run that uses up a fuel of the
    size of the buffer has left the buffer. *)
Fixpoint cstring (fuel : nat) (p : nat) : outcome bytes :=
  match fuel with
  | O => Crash
  | S fuel => c ← chr p; if c =? 0 then Ret [] else s ← cstring fuel (p + 1); Ret (c :: s)
  end.
Definition string_at (p : nat) : outcome bytes := cstring (S (length tbuf)) p.

(** ** Names *)

(** The first loop of [tnamatch]: the position after the common part, and
    whether the name [np] was used up. *)
Fixpoint name_scan (np : bytes) (bp : nat) : outcome (nat * bool) :=
  match np with
  | [] => Ret (bp, true)
  | n :: np => c ← chr bp; if c =? n then name_scan np (bp + 1) else Ret (bp, false)
  end.

(** To the end of a name. *)
Fixpoint name_end (fuel : nat) (bp : nat) : outcome nat :=
  match fuel with
  | O => Crash
  | S fuel =>
      c ← chr bp;
      if (c =? 0) || (c =? COLON) || (c =? BAR) then Ret bp else name_end fuel (bp + 1)
  end.

Fixpoint tnamatch_loop (fuel : nat) (np : bytes) (bp : nat) : outcome bool :=
  match fuel with
  | O => Crash
  | S fuel' =>
      '(bp, all) ← name_scan np bp;
      c ← chr bp;
      if all && ((c =? BAR) || (c =? COLON) || (c =? 0)) then Ret true else
      bp ← name_end fuel bp;
      c ← chr bp;
      if (c =? 0) || (c =? COLON) then Ret false else tnamatch_loop fuel' np (bp + 1)
  end.

Definition tnamatch (np : bytes) : outcome bool :=
  c ← chr 0;
  if c =? HASH then Ret false else tnamatch_loop (S (length tbuf)) np 0.

(** ** Fields *)

(** [while (isdigit( *bp++))] *)
Fixpoint skip_digits (fuel : nat) (bp : nat) : outcome nat :=
  match fuel with
  | O => Crash
  | S fuel => c ← chr bp; if isdigit c then skip_digits fuel (bp + 1) else Ret (bp + 1)%nat
  end.

(** The case of a backslash falls through to the case of a quote. *)
Fixpoint tskip_loop (fuel : nat) (bp : nat) (dquote : bool) : outcome nat :=
  match fuel with
  | O => Crash
  | S fuel' =>
      let dquote' := if dquote then true else false in
      c ← chr bp;
      if c =? 0 then Ret bp
      else if c =? COLON then
        if dquote then tskip_loop fuel' (bp + 1) dquote else Ret (bp + 1)%nat
      else if c =? BACKSLASH then
        c1 ← chr (bp + 1);
        bp ← (if isdigit c1 then skip_digits fuel (bp + 1) else Ret (bp + 2)%nat);
        tskip_loop fuel' (bp + 1) dquote'
      else if c =? DQUOTE then tskip_loop fuel' (bp + 1) dquote'
      else tskip_loop fuel' (bp + 1) dquote
  end.
Definition tskip (bp : nat) : outcome nat := tskip_loop (S (length tbuf)) bp false.

(** [strncmp(bp, id, strlen(id)) == 0] *)
Fixpoint id_at (id : bytes) (bp : nat) : outcome bool :=
  match id with
  | [] => Ret true
  | n :: id => c ← chr bp; if c =? n then id_at id (bp + 1) else Ret false
  end.

(** The number at [bp]; the accumulator wraps around. *)
Fixpoint number (fuel : nat) (base : Z) (bp : nat) (i : Z) : outcome Z :=
  match fuel with
  | O => Crash
  | S fuel =>
      c ← chr bp;
      if isdigit c then number fuel base (bp + 1) (s64 (s64 (i * base) + (c - ZERO))) else Ret i
  end.

Fixpoint tgetnum_loop (fuel : nat) (id : bytes) (bp : nat) : outcome Z :=
  match fuel with
  | O => Crash
  | S fuel =>
      bp ← tskip bp;
      c ← chr bp;
      if c =? 0 then Ret (-1) else
      m ← id_at id bp;
      if negb m then tgetnum_loop fuel id bp else
      let bp := (bp + length id)%nat in
      c ← chr bp;
      if c =? AT then Ret (-1)
      else if negb (c =? HASH) then tgetnum_loop fuel id bp
      else c ← chr (bp + 1); number (S (length tbuf)) (if c =? ZERO then 8 else 10) (bp + 1) 0
  end.
Definition tgetnum (id : bytes) : outcome Z := tgetnum_loop (S (length tbuf)) id 0.

Fixpoint tgetflag_loop (fuel : nat) (id : bytes) (bp : nat) : outcome bool :=
  match fuel with
  | O => Crash
  | S fuel =>
      bp ← tskip bp;
      c ← chr bp;
      if c =? 0 then Ret false else
      m ← id_at id bp;
      if negb m then tgetflag_loop fuel id bp else
      let bp := (bp + length id)%nat in
      c ← chr bp;
      if (c =? 0) || (c =? COLON) then Ret true
      else if c =? AT then Ret false
      else tgetflag_loop fuel id bp
  end.
Definition tgetflag (id : bytes) : outcome bool := tgetflag_loop (S (length tbuf)) id 0.

(** ** Strings *)

(** The escapes of [tdecode], in pairs. *)
Definition escapes : list (Z * Z) :=
  [(69, 27); (94, 94); (92, 92); (58, 58); (110, 10); (114, 13); (116, 9); (98, 8); (102, 12); (34, 34)].
Fixpoint escape (c : Z) (l : list (Z * Z)) : option Z :=
  match l with
  | [] => None
  | (a, b) :: l => if a =? c then Some b else escape c l
  end.

(** An octal escape after its first digit [c]: one or two octets more. *)
Definition octal (c : Z) (str : nat) : outcome (Z * nat) :=
  x ← chr str;
  let c1 := Z.lor (Z.shiftl (c - ZERO) 3) (x - ZERO) in
  y ← chr (str + 1);
  if isdigit y then Ret (Z.lor (Z.shiftl c1 3) (y - ZERO), (str + 2)%nat) else Ret (c1, (str + 1)%nat).

(** The octet that [c], read before [str], stands for, and the next position. *)
Definition decode_char (c : Z) (str : nat) : outcome (Z * nat) :=
  if c =? CARET then x ← chr str; Ret (Z.land x 0x1f, (str + 1)%nat)
  else if c =? BACKSLASH then
    x ← chr str;
    match escape x escapes with
    | Some e => Ret (e, (str + 1)%nat)
    | None => if isdigit x then octal x (str + 1) else Ret (x, (str + 1)%nat)
    end
  else Ret (c, str).

(** The label [again]: an opening quote changes the terminator. *)
Definition open_quote (str : nat) (term : Z) : outcome (nat * Z) :=
  c ← chr str; Ret (if c =? DQUOTE then ((str + 1)%nat, DQUOTE) else (str, term)).

Fixpoint decode_loop (fuel : nat) (str : nat) (term : Z) : outcome bytes :=
  match fuel with
  | O => Crash
  | S fuel =>
      c ← chr str;
      if (c =? 0) || (c =? term) then
        if (c =? term) && negb (term =? COLON) then
          '(str, term) ← open_quote (str + 1) COLON; decode_loop fuel str term
        else Ret []
      else
        '(x, str) ← decode_char c (str + 1);
        s ← decode_loop fuel str term;
        Ret (u8 x :: s)
  end.

(** The string is stored with its terminator at [area] in a buffer of BUFSIZ
    octets; the result is the string and the next free position. *)
Definition tdecode (str : nat) (area : nat) : outcome (bytes * nat) :=
  '(str, term) ← open_quote str COLON;
  s ← decode_loop (S (length tbuf)) str term;
  if (BUFSIZ <? area + length s + 1)%nat then Crash else Ret (s, (area + length s + 1)%nat).

Fixpoint tgetstr_loop (fuel : nat) (id : bytes) (bp : nat) (area : nat) : outcome (option (bytes * nat)) :=
  match fuel with
  | O => Crash
  | S fuel =>
      bp ← tskip bp;
      c ← chr bp;
      if c =? 0 then Ret None else
      m ← id_at id bp;
      if negb m then tgetstr_loop fuel id bp area else
      let bp := (bp + length id)%nat in
      c ← chr bp;
      if c =? AT then Ret None
      else if negb (c =? EQUALS) then tgetstr_loop fuel id bp area
      else r ← tdecode (bp + 1) area; Ret (Some r)
  end.
Definition tgetstr (id : bytes) (area : nat) : outcome (option (bytes * nat)) :=
  tgetstr_loop (S (length tbuf)) id 0 area.

End buffer.

(** ** Entries of the file *)

(** Copies one entry to [buf], from the position [cp] on: a newline ends it
    unless a backslash is before it; a longer entry is cut. The result is the
    buffer and the rest of the file, or nothing at the end of the file. *)
Fixpoint getline (file : bytes) (buf : bytes) (cp : nat) : outcome (option (bytes * bytes)) :=
  match file with
  | [] => Ret None
  | c :: file =>
      if c =? NEWLINE then
        continued ← (if (0 <? cp)%nat then prev ← chr buf (cp - 1); Ret (prev =? BACKSLASH) else Ret false : outcome bool);
        if negb continued then buf ← store buf cp [0]; Ret (Some (buf, file))
        else getline file buf (cp - 1)
      else if (BUFSIZ - 1 <=? cp)%nat then buf ← store buf cp [0]; Ret (Some (buf, file))
      else buf ← store buf cp [c]; getline file buf (cp + 1)
  end.

(** The first entry with the name. Each entry takes at least one octet of the
    file, so that its length is enough fuel. *)
Fixpoint find_entry (fuel : nat) (file : bytes) (buf : bytes) (name : bytes) : outcome (option bytes) :=
  match fuel with
  | O => Ret None
  | S fuel =>
      line ← getline file buf 0;
      match line with
      | None => Ret None
      | Some (buf, file) =>
          m ← tnamatch buf name;
          if negb m then find_entry fuel file buf name else Ret (Some buf)
      end
  end.

(** [while ( *--p != ':') if (p < tbuf) ...]: the test of the bound comes after
    the access, so that an entry without a field is read before its start. *)
Fixpoint last_field (fuel : nat) (buf : bytes) (p : Z) : outcome (option nat) :=
  match fuel with
  | O => Ret None
  | S fuel =>
      let p := p - 1 in
      c ← (if p <? 0 then Crash else chr buf (Z.to_nat p) : outcome Z);
      if c =? COLON then Ret (Some (S (Z.to_nat p)))
      else if p <? 0 then Ret None else last_field fuel buf p
  end.

(** [for (q = tcbuf; *q++ != ':'; )] *)
Fixpoint first_field (fuel : nat) (buf : bytes) (q : nat) : outcome nat :=
  match fuel with
  | O => Crash
  | S fuel => c ← chr buf q; if c =? COLON then Ret (q + 1)%nat else first_field fuel buf (q + 1)
  end.

(** The name after [tc=], at most 15 octets, up to a colon. *)
Fixpoint until_colon (s : bytes) : bytes :=
  match s with
  | [] => []
  | c :: s => if c =? COLON then [] else c :: until_colon s
  end.
Definition tc_name (buf : bytes) (p : nat) : outcome bytes :=
  s ← string_at buf (p + 3); Ret (until_colon (take 15 s)).

(** [strlcpy(dst, src, size)] into [buf] at [p]. *)
Definition strlcpy (buf : bytes) (p : nat) (src : bytes) (size : Z) : outcome bytes :=
  if size =? 0 then Ret buf else store buf p (take (Z.to_nat (size - 1)) src ++ [0]).

(** Replaces the field at [p] by the fields of [tcbuf]. The size given to
    [strlcpy] is the distance from [tcbuf] (to which [tbuf] points by then) to
    [p]: [gap] is the distance between the two buffers. *)
Definition tc_append (gap : Z) (buf : bytes) (p : nat) (tcbuf : bytes) : outcome bytes :=
  q ← first_field (S (length tcbuf)) tcbuf 0;
  s ← string_at tcbuf q;
  tcbuf ← (if (BUFSIZ <? p + length s)%nat then store tcbuf (q + (BUFSIZ - p)) [0] else Ret tcbuf);
  s ← string_at tcbuf q;
  strlcpy buf p s (u64 (gap + Z.of_nat p)).

Section entries.
(** The contents of the file ([None]: it cannot be opened), those of a fresh
    buffer, and the distances between the buffers of the nested calls. *)
Context (file : option bytes) (fresh : bytes) (gap : nat → Z).

(** [getent] and [tnchktc], with [hopcount] as argument and result: the value
    returned, the buffer and the count. [None] if the fuel runs out. *)
Fixpoint getent (fuel : nat) (hopcount : nat) (bp : bytes) (name : bytes) :
    outcome (option (Z * bytes * nat)) :=
  match fuel with
  | O => Ret None
  | S fuel =>
      match file with
      | None => Ret (Some (-2, bp, hopcount))
      | Some f =>
          e ← find_entry (S (length f)) f bp name;
          match e with
          | None => Ret (Some (0, bp, hopcount))
          | Some buf =>
              s ← string_at buf 0;
              p ← last_field (S (length buf)) buf (Z.of_nat (length s) - 2);
              match p with
              | None => Ret (Some (0, buf, hopcount))
              | Some p =>
                  c0 ← chr buf p;
                  tc ← (if c0 =? 116 then c1 ← chr buf (p + 1); Ret (c1 =? 99) else Ret false);
                  if negb tc then Ret (Some (1, buf, hopcount)) else
                  tcname ← tc_name buf p;
                  let hopcount := S hopcount in
                  if (MAXHOP <? hopcount)%nat then Ret (Some (0, buf, hopcount)) else
                  r ← getent fuel hopcount fresh tcname;
                  match r with
                  | None => Ret None
                  | Some (r, tcbuf, hopcount) =>
                      if negb (r =? 1) then Ret (Some (0, buf, hopcount)) else
                      buf ← tc_append (gap hopcount) buf p tcbuf;
                      Ret (Some (1, buf, hopcount))
                  end
              end
          end
      end
  end.

(** At most MAXHOP nested calls, and the one that is refused. *)
Definition tgetent (hopcount : nat) (bp name : bytes) : outcome (option (Z * bytes * nat)) :=
  getent (S (S MAXHOP)) hopcount bp name.

End entries.

(** ** Reading a buffer *)

Lemma chr_at pre c post : chr (pre ++ c :: post) (length pre) = Ret c.
Proof. unfold chr, rd8. by rewrite list_lookup_middle. Qed.

Lemma chr_plus pre m c post : chr (pre ++ m ++ c :: post) (length pre + length m) = Ret c.
Proof. rewrite app_assoc, <- length_app. apply chr_at. Qed.

(** Characters that the lookup functions do not treat specially. *)
Definition plain (c : Z) : Prop :=
  byte_ok c ∧ c ∉ [0; NEWLINE; DQUOTE; HASH; COLON; EQUALS; AT; BACKSLASH; CARET; BAR].
(** Characters of a quoted string; colons are allowed. *)
Definition quotable (c : Z) : Prop :=
  byte_ok c ∧ c ∉ [0; NEWLINE; DQUOTE; HASH; EQUALS; AT; BACKSLASH; CARET].
(** Characters of a part of the entry between colons. *)
Definition seg_char (c : Z) : Prop := c ≠ 0 ∧ c ≠ COLON ∧ c ≠ BACKSLASH.

#[export] Instance plain_dec c : Decision (plain c).
Proof. unfold plain. apply _. Defined.
#[export] Instance quotable_dec c : Decision (quotable c).
Proof. unfold quotable. apply _. Defined.
#[export] Instance seg_char_dec c : Decision (seg_char c).
Proof. unfold seg_char. apply _. Defined.

Ltac char_solve :=
  unfold plain, quotable, seg_char, NEWLINE, DQUOTE, HASH, COLON, EQUALS, AT, BACKSLASH, CARET, BAR in *;
  rewrite ?not_elem_of_cons in *; lia || naive_solver lia.

Lemma plain_seg c : plain c → seg_char c.
Proof. char_solve. Qed.

(** [tskip] goes to the next part, also inside quotes. *)
Lemma tskip_colon seg : ∀ pre post fuel,
  Forall seg_char seg → (length seg < fuel)%nat →
  tskip_loop (pre ++ seg ++ COLON :: post) fuel (length pre) false = Ret (length pre + length seg + 1)%nat.
Proof.
  induction seg as [|c seg IH]; intros pre post [|fuel] Hs Hf; simpl in Hf; try lia; cbn [tskip_loop].
  - rewrite app_nil_l, chr_at. simpl. f_equal. lia.
  - apply Forall_cons in Hs as [Hc Hs]. simpl app. rewrite chr_at. cbn [mbind outcome_bind].
    rewrite (proj2 (Z.eqb_neq c 0)), (proj2 (Z.eqb_neq c COLON)), (proj2 (Z.eqb_neq c BACKSLASH)) by apply Hc.
    specialize (IH (pre ++ [c]) post fuel Hs ltac:(lia)). rewrite length_app in IH. simpl in IH.
    rewrite <- app_assoc in IH. simpl in IH. destruct (c =? DQUOTE); rewrite IH; f_equal; simpl; lia.
Qed.

Lemma tskip_next pre seg post :
  Forall seg_char seg →
  tskip (pre ++ seg ++ COLON :: post) (length pre) = Ret (length (pre ++ seg ++ [COLON])).
Proof.
  intros Hs. unfold tskip. rewrite tskip_colon; [|done|rewrite !length_app; simpl; lia].
  f_equal. rewrite !length_app. simpl. lia.
Qed.

Lemma tskip_end pre post : tskip (pre ++ 0 :: post) (length pre) = Ret (length pre).
Proof. unfold tskip. cbn [tskip_loop]. by rewrite chr_at. Qed.

(** [id_at] is a comparison with a prefix. *)
Lemma id_at_spec id : ∀ pre s c post,
  Forall plain id → c = COLON ∨ c = 0 →
  id_at (pre ++ s ++ c :: post) id (length pre) = Ret (bool_decide (id `prefix_of` s)).
Proof.
  induction id as [|n id IH]; intros pre s c post Hid Hc; cbn [id_at].
  { by rewrite bool_decide_true by apply prefix_nil. }
  apply Forall_cons in Hid as [Hn Hid]. destruct s as [|x s]; cbn [app].
  - rewrite chr_at. cbn [mbind outcome_bind]. rewrite (proj2 (Z.eqb_neq c n)) by char_solve.
    rewrite bool_decide_false; [done|]. by intros ?%prefix_nil_inv.
  - rewrite chr_at. cbn [mbind outcome_bind]. destruct (Z.eqb_spec x n) as [->|Hne].
    + specialize (IH (pre ++ [n]) s c post Hid Hc). rewrite length_app, <- app_assoc in IH.
      cbn [app length] in IH. rewrite IH. f_equal. apply bool_decide_ext.
      split; [apply prefix_cons|apply prefix_cons_inv_2].
    + rewrite bool_decide_false; [done|]. intros E%prefix_cons_inv_1. congruence.
Qed.

(** ** The common scan of the three lookup functions *)

(** The position after the first occurrence of [id] at the start of a field
    that is followed by one of the characters [stop]. *)
Fixpoint scan (buf : bytes) (stop : Z → bool) (fuel : nat) (id : bytes) (bp : nat) : outcome (option nat) :=
  match fuel with
  | O => Crash
  | S fuel =>
      bp ← tskip buf bp;
      c ← chr buf bp;
      if c =? 0 then Ret None else
      m ← id_at buf id bp;
      if negb m then scan buf stop fuel id bp else
      let bp := (bp + length id)%nat in
      c ← chr buf bp;
      if negb (stop c) then scan buf stop fuel id bp else Ret (Some bp)
  end.

Definition num_stop (c : Z) : bool := (c =? AT) || (c =? HASH).
Definition flag_stop (c : Z) : bool := (c =? 0) || (c =? COLON) || (c =? AT).
Definition str_stop (c : Z) : bool := (c =? AT) || (c =? EQUALS).

Ltac scan_tac IH :=
  cbn [scan]; destruct (tskip _ _) as [p| |]; cbn [mbind outcome_bind]; try done;
  destruct (chr _ p) as [c| |]; cbn [mbind outcome_bind]; try done;
  destruct (c =? 0); [done|]; destruct (id_at _ _ p) as [m| |]; cbn [mbind outcome_bind]; try done;
  destruct m; cbn [negb]; [|apply IH];
  destruct (chr _ (p + _)) as [c'| |] eqn:Ec; cbn [mbind outcome_bind]; try done.

Lemma tgetnum_scan buf id fuel : ∀ bp,
  tgetnum_loop buf fuel id bp =
  (r ← scan buf num_stop fuel id bp;
   match r with
   | None => Ret (-1)
   | Some p => c ← chr buf p;
       if c =? AT then Ret (-1)
       else c ← chr buf (p + 1); number buf (S (length buf)) (if c =? ZERO then 8 else 10) (p + 1) 0
   end).
Proof.
  induction fuel as [|fuel IH]; intros bp; [done|]. cbn [tgetnum_loop]. scan_tac IH. unfold num_stop.
  destruct (c' =? AT) eqn:Ea; simpl; [by rewrite Ec; simpl; rewrite Ea|].
  destruct (c' =? HASH); simpl; [by rewrite Ec; simpl; rewrite Ea|apply IH].
Qed.

Lemma tgetflag_scan buf id fuel : ∀ bp,
  tgetflag_loop buf fuel id bp =
  (r ← scan buf flag_stop fuel id bp;
   match r with
   | None => Ret false
   | Some p => c ← chr buf p; Ret ((c =? 0) || (c =? COLON))
   end).
Proof.
  induction fuel as [|fuel IH]; intros bp; [done|]. cbn [tgetflag_loop]. scan_tac IH. unfold flag_stop.
  destruct ((c' =? 0) || (c' =? COLON)) eqn:Ea; simpl; [by rewrite Ec; simpl; rewrite Ea|].
  destruct (c' =? AT); simpl; [by rewrite Ec; simpl; rewrite Ea|apply IH].
Qed.

Lemma tgetstr_scan buf id area fuel : ∀ bp,
  tgetstr_loop buf fuel id bp area =
  (r ← scan buf str_stop fuel id bp;
   match r with
   | None => Ret None
   | Some p => c ← chr buf p;
       if c =? AT then Ret None else r ← tdecode buf (p + 1) area; Ret (Some r)
   end).
Proof.
  induction fuel as [|fuel IH]; intros bp; [done|]. cbn [tgetstr_loop]. scan_tac IH. unfold str_stop.
  destruct (c' =? AT) eqn:Ea; simpl; [by rewrite Ec; simpl; rewrite Ea|].
  destruct (c' =? EQUALS); simpl; [by rewrite Ec; simpl; rewrite Ea|apply IH].
Qed.

(** The text of the parts of an entry. *)
Definition text (segs : list bytes) : bytes := concat ((λ s, s ++ [COLON]) <$> segs).

(** What [scan] finds: the text that starts with the character after [id]. *)
Fixpoint find_hit (stop : Z → bool) (id : bytes) (segs : list bytes) : option bytes :=
  match segs with
  | [] => None
  | s :: ss =>
      let tl := drop (length id) s ++ COLON :: text ss in
      if bool_decide (id `prefix_of` s) && stop (default 0 (head tl)) then Some tl
      else find_hit stop id ss
  end.

Lemma scan_spec stop id segs post : ∀ fuel pre cur,
  Forall plain id → id ≠ [] → Forall (Forall seg_char) segs → Forall seg_char cur →
  (length segs < fuel)%nat →
  let buf := pre ++ cur ++ COLON :: text segs ++ 0 :: post in
  match find_hit stop id segs with
  | None => scan buf stop fuel id (length pre) = Ret None
  | Some tl => ∃ pre', buf = pre' ++ tl ++ 0 :: post ∧
                 scan buf stop fuel id (length pre) = Ret (Some (length pre'))
  end.
Proof.
  induction segs as [|s segs IH]; intros [|fuel] pre cur Hid Hne Hs Hcur Hf buf; simpl in Hf; try lia.
  - cbn [find_hit scan]. unfold buf. rewrite tskip_next by done. cbn [mbind outcome_bind].
    change (COLON :: text [] ++ 0 :: post) with ([COLON] ++ 0 :: post). rewrite !app_assoc.
    by rewrite chr_at.
  - apply Forall_cons in Hs as [Hs Hss]. cbn [find_hit].
    set (pre1 := pre ++ cur ++ [COLON]).
    assert (Eb : buf = pre1 ++ s ++ COLON :: text segs ++ 0 :: post).
    { unfold buf, pre1, text. csimpl. by rewrite <- !app_assoc. }
    assert (Et : tskip buf (length pre) = Ret (length pre1)) by (by apply tskip_next).
    cbn [scan]. rewrite Et. cbn [mbind outcome_bind].
    assert (Ec : ∃ c, chr buf (length pre1) = Ret c ∧ c ≠ 0).
    { rewrite Eb. destruct s as [|c s]; simpl; rewrite chr_at; [by exists COLON|].
      apply Forall_cons in Hs as [Hc _]. exists c. split; [done|apply Hc]. }
    destruct Ec as (c & -> & Hc0). cbn [mbind outcome_bind]. rewrite (proj2 (Z.eqb_neq c 0) Hc0).
    assert (Ei : id_at buf id (length pre1) = Ret (bool_decide (id `prefix_of` s)))
      by (rewrite Eb; by apply id_at_spec; auto).
    rewrite Ei. cbn [mbind outcome_bind].
    case_bool_decide as Hp; cbn [negb andb].
    2:{ specialize (IH fuel pre1 s Hid Hne Hss Hs ltac:(lia)). cbv zeta in IH. by rewrite <- Eb in IH. }
    destruct Hp as [rem ->]. rewrite drop_app_length.
    assert (Hr : Forall seg_char rem) by (by apply Forall_app in Hs as [_ ?]).
    set (pre2 := pre1 ++ id).
    assert (Eb2 : buf = pre2 ++ rem ++ COLON :: text segs ++ 0 :: post) by (by rewrite Eb; unfold pre2; rewrite <- !app_assoc).
    rewrite <- length_app. fold pre2.
    assert (Eh : chr buf (length pre2) = Ret (default 0 (head (rem ++ COLON :: text segs)))).
    { rewrite Eb2. destruct rem; simpl; by rewrite chr_at. }
    rewrite Eh. cbn [mbind outcome_bind]. destruct (stop _); cbn [negb].
    + exists pre2. split; [|done]. rewrite Eb2. by rewrite <- !app_assoc.
    + specialize (IH fuel pre2 rem Hid Hne Hss Hr ltac:(lia)). cbv zeta in IH. by rewrite <- Eb2 in IH.
Qed.

(** ** Entries written from fields *)

Inductive field :=
  | Num (id ds : bytes)
  | Flag (id : bytes)
  | Str (id s : bytes).

Definition field_bytes (f : field) : bytes :=
  match f with
  | Num id ds => id ++ HASH :: ds
  | Flag id => id
  | Str id s => id ++ EQUALS :: DQUOTE :: s ++ [DQUOTE]
  end.
Definition entry_bytes (names : bytes) (fs : list field) : bytes :=
  names ++ COLON :: concat ((λ f, field_bytes f ++ [COLON]) <$> fs).

(** The value of a string of digits; a leading zero means octal. *)
Definition digits_val (ds : bytes) : Z :=
  foldl (λ i d, i * (if default 0 (head ds) =? ZERO then 8 else 10) + (d - ZERO)) 0 ds.

Definition field_wf (f : field) : Prop :=
  match f with
  | Num id ds => Forall plain id ∧ ds ≠ [] ∧ Forall (λ d, isdigit d = true) ds ∧ digits_val ds < 2 ^ 63
  | Flag id => Forall plain id
  | Str id s => Forall plain id ∧ Forall quotable s
  end.

Fixpoint lookup_num (id : bytes) (fs : list field) : Z :=
  match fs with
  | [] => -1
  | Num i ds :: fs => if bool_decide (i = id) then digits_val ds else lookup_num id fs
  | _ :: fs => lookup_num id fs
  end.
Fixpoint lookup_str (id : bytes) (fs : list field) : option bytes :=
  match fs with
  | [] => None
  | Str i s :: fs => if bool_decide (i = id) then Some s else lookup_str id fs
  | _ :: fs => lookup_str id fs
  end.

(** The parts between colons. *)
Fixpoint split_colon (s : bytes) : list bytes :=
  match s with
  | [] => [[]]
  | c :: s =>
      if c =? COLON then [] :: split_colon s
      else match split_colon s with [] => [[c]] | p :: ps => (c :: p) :: ps end
  end.
Definition segs (f : field) : list bytes := split_colon (field_bytes f).

Definition lookup_flag (id : bytes) (fs : list field) : bool := bool_decide (id ∈ fs ≫= segs).

Lemma split_colon_ne s : split_colon s ≠ [].
Proof. destruct s as [|c s]; simpl; [done|]. destruct (c =? COLON); [done|]. by destruct (split_colon s). Qed.

Lemma text_split s : text (split_colon s) = s ++ [COLON].
Proof.
  induction s as [|c s IH]; [done|]. simpl. unfold text in *.
  destruct (Z.eqb_spec c COLON) as [->|]; csimpl; [by rewrite IH|].
  destruct (split_colon s) as [|p ps] eqn:E; [by destruct (split_colon_ne s)|]. csimpl in *. by rewrite IH.
Qed.

Lemma text_app l k : text (l ++ k) = text l ++ text k.
Proof. unfold text. by rewrite fmap_app, concat_app. Qed.

Lemma text_segs fs : text (fs ≫= segs) = concat ((λ f, field_bytes f ++ [COLON]) <$> fs).
Proof.
  induction fs as [|f fs IH]; [done|]. csimpl. rewrite text_app, IH. f_equal. apply text_split.
Qed.

Lemma split_plain s : Forall (λ c, c ≠ COLON) s → split_colon s = [s].
Proof.
  induction 1 as [|c s Hc Hs IH]; [done|]. simpl. by rewrite (proj2 (Z.eqb_neq _ _) Hc), IH.
Qed.

Lemma split_app_plain a b :
  Forall (λ c, c ≠ COLON) a →
  split_colon (a ++ b) = match split_colon b with [] => [a] | p :: ps => (a ++ p) :: ps end.
Proof.
  induction 1 as [|c a Hc Ha IH]; simpl.
  - by destruct (split_colon b) eqn:E; [destruct (split_colon_ne b)|].
  - rewrite (proj2 (Z.eqb_neq _ _) Hc), IH. by destruct (split_colon b).
Qed.

(** Every part of a split inherits what holds of the characters. *)
Lemma split_Forall (P : Z → Prop) s : Forall P s → Forall (Forall (λ c, P c ∧ c ≠ COLON)) (split_colon s).
Proof.
  induction 1 as [|c s Hc Hs IH]; simpl; [by repeat constructor|].
  destruct (Z.eqb_spec c COLON); [by constructor|].
  destruct (split_colon s); [by repeat constructor|]. apply Forall_cons in IH as [? ?].
  constructor; [|done]. by constructor.
Qed.

Lemma digit_plain d : isdigit d = true → plain d.
Proof.
  unfold isdigit. intros. split; [unfold byte_ok; lia|]. rewrite !not_elem_of_cons.
  unfold NEWLINE, DQUOTE, HASH, COLON, EQUALS, AT, BACKSLASH, CARET, BAR.
  split_and!; try lia. apply not_elem_of_nil.
Qed.

Definition text_char (c : Z) : Prop := c ≠ 0 ∧ c ≠ BACKSLASH.

Lemma field_text f : field_wf f → Forall text_char (field_bytes f).
Proof.
  assert (Hp : ∀ l, Forall plain l → Forall text_char l).
  { intros l Hl. eapply Forall_impl; [exact Hl|]. intros c Hc. unfold text_char. char_solve. }
  destruct f as [id ds|id|id s]; simpl.
  - intros (Hid & _ & Hd & _). apply Forall_app_2; [auto|]. apply Forall_cons_2; [done|].
    apply Hp. eapply Forall_impl; [done|]. apply digit_plain.
  - auto.
  - intros [Hid Hs]. apply Forall_app_2; [auto|]. do 2 (apply Forall_cons_2; [done|]).
    apply Forall_app_2; [|by apply Forall_singleton]. eapply Forall_impl; [done|].
    intros c Hc. unfold text_char. char_solve.
Qed.

Lemma segs_ok fs : Forall field_wf fs → Forall (Forall seg_char) (fs ≫= segs).
Proof.
  intros Hw. apply Forall_bind. eapply Forall_impl; [done|]. intros f Hf. unfold segs.
  eapply Forall_impl; [by apply split_Forall, field_text|]. intros s Hs.
  eapply Forall_impl; [exact Hs|]. by intros c [[? ?] ?].
Qed.

(** ** Which parts are hits *)

Definition miss (stop : Z → bool) (id s : bytes) : Prop :=
  id `prefix_of` s → stop (default 0 (head (drop (length id) s ++ [COLON]))) = false.

Lemma head_tail (r t : bytes) : head (r ++ COLON :: t) = head (r ++ [COLON]).
Proof. by destruct r. Qed.

Lemma find_hit_miss stop id ss1 ss2 :
  Forall (miss stop id) ss1 → find_hit stop id (ss1 ++ ss2) = find_hit stop id ss2.
Proof.
  induction 1 as [|s ss Hs _ IH]; [done|]. cbn [app find_hit]. rewrite head_tail.
  case_bool_decide as Hp; cbn [andb]; [by rewrite (Hs Hp)|done].
Qed.

Lemma miss_chars stop id s : Forall (λ c, stop c = false) s → stop COLON = false → miss stop id s.
Proof.
  intros Hs Hc [r ->]. rewrite drop_app_length. apply Forall_app in Hs as [_ Hr].
  destruct Hr; simpl; done.
Qed.

(** An identifier is found only where it stands in full. *)
Lemma plain_prefix id i x r :
  Forall plain id → ¬ plain x → id `prefix_of` (i ++ x :: r) → ∃ t, i = id ++ t.
Proof.
  intros Hid Hx [k E]. destruct (decide (length id <= length i)%nat) as [Hl|Hl].
  - exists (drop (length id) i). apply (f_equal (take (length id))) in E.
    rewrite take_app_length in E. rewrite <- E at 1. rewrite take_app_le by done. by rewrite take_drop.
  - exfalso. apply Hx. rewrite Forall_forall in Hid. apply Hid.
    apply (f_equal (λ l, l !! length i)) in E. rewrite list_lookup_middle in E by done.
    rewrite lookup_app_l in E by lia. by eapply list_elem_of_lookup_2.
Qed.

Lemma miss_other stop id i x r :
  Forall plain id → Forall plain i → ¬ plain x → i ≠ id → (∀ c, plain c → stop c = false) →
  miss stop id (i ++ x :: r).
Proof.
  intros Hid Hi Hx Hne Hs Hp. destruct (plain_prefix id i x r Hid Hx Hp) as [t ->].
  apply Forall_app in Hi as [_ Ht]. rewrite <- app_assoc, drop_app_length.
  destruct t as [|c t]; [by rewrite app_nil_r in Hne|]. simpl. apply Hs. by inversion Ht.
Qed.

Lemma find_hit_here stop id x r ss :
  stop x = true → find_hit stop id ((id ++ x :: r) :: ss) = Some (x :: r ++ COLON :: text ss).
Proof.
  intros Hx. cbn [find_hit]. rewrite drop_app_length. simpl.
  rewrite bool_decide_true by (by eexists). by rewrite Hx.
Qed.

Lemma plain_ne c : plain c → c ≠ COLON.
Proof. intros. char_solve. Qed.

Lemma segs_num id ds : field_wf (Num id ds) → segs (Num id ds) = [id ++ HASH :: ds].
Proof.
  intros (Hid & _ & Hd & _). apply split_plain. apply Forall_app_2; [|apply Forall_cons_2; [done|]].
  - eapply Forall_impl; [done|apply plain_ne].
  - eapply Forall_impl; [done|]. intros d ?. by apply plain_ne, digit_plain.
Qed.
Lemma segs_flag id : field_wf (Flag id) → segs (Flag id) = [id].
Proof. intros Hid. apply split_plain. eapply Forall_impl; [exact Hid|apply plain_ne]. Qed.

(** The first part of a string field, and the others. *)
Lemma segs_str id s :
  field_wf (Str id s) → ∃ p ps, segs (Str id s) = (id ++ EQUALS :: DQUOTE :: p) :: ps ∧
    split_colon (s ++ [DQUOTE]) = p :: ps.
Proof.
  intros [Hid Hs]. unfold segs. cbn [field_bytes].
  change (EQUALS :: DQUOTE :: s ++ [DQUOTE]) with ([EQUALS; DQUOTE] ++ s ++ [DQUOTE]). rewrite app_assoc.
  rewrite split_app_plain.
  - destruct (split_colon (s ++ [DQUOTE])) as [|p ps] eqn:E; [by destruct (split_colon_ne (s ++ [DQUOTE]))|].
    exists p, ps. by rewrite <- app_assoc.
  - apply Forall_app_2; [|by repeat constructor]. eapply Forall_impl; [done|apply plain_ne].
Qed.

(** Neither [#], [=] nor [@]. *)
Definition unmarked (c : Z) : Prop := c ≠ 0 ∧ c ≠ HASH ∧ c ≠ EQUALS ∧ c ≠ AT.

Lemma plain_unmarked l : Forall plain l → Forall unmarked l.
Proof. intros Hl. eapply Forall_impl; [exact Hl|]. intros c Hc. unfold unmarked. char_solve. Qed.

Lemma str_parts s :
  Forall quotable s → Forall (Forall (λ c, unmarked c ∧ c ≠ COLON)) (split_colon (s ++ [DQUOTE])).
Proof.
  intros Hs. apply split_Forall. apply Forall_app_2; [|by apply Forall_singleton].
  eapply Forall_impl; [exact Hs|]. intros c Hc. unfold unmarked. char_solve.
Qed.

Lemma hash_not_plain : ¬ plain HASH.
Proof. intros [_ H]. apply H. do 3 right. left. Qed.
Lemma equals_not_plain : ¬ plain EQUALS.
Proof. intros [_ H]. apply H. do 5 right. left. Qed.

Lemma find_num id fs :
  Forall plain id → Forall field_wf fs →
  find_hit num_stop id (fs ≫= segs) = None ∧ lookup_num id fs = -1 ∨
  ∃ ds t, find_hit num_stop id (fs ≫= segs) = Some (HASH :: ds ++ COLON :: t) ∧
    field_wf (Num id ds) ∧ lookup_num id fs = digits_val ds.
Proof.
  intros Hid. induction 1 as [|f fs Hf Hfs IH]; [by left|]. csimpl.
  assert (K : Forall (miss num_stop id) (segs f) → lookup_num id (f :: fs) = lookup_num id fs →
    find_hit num_stop id (segs f ++ (fs ≫= segs)) = None ∧ lookup_num id (f :: fs) = -1 ∨
    ∃ ds t, find_hit num_stop id (segs f ++ (fs ≫= segs)) = Some (HASH :: ds ++ COLON :: t) ∧
      field_wf (Num id ds) ∧ lookup_num id (f :: fs) = digits_val ds).
  { intros Hm El. by rewrite find_hit_miss, El. }
  assert (Hu : ∀ s, Forall unmarked s → miss num_stop id s).
  { intros s Hs. apply miss_chars; [|done]. eapply Forall_impl; [exact Hs|]. unfold num_stop, unmarked. intros. lia. }
  destruct f as [i ds|i|i s].
  - rewrite segs_num by done. destruct (decide (i = id)) as [->|Hne].
    + right. exists ds. eexists. cbn [app]. rewrite (find_hit_here num_stop id HASH ds) by done.
      split; [done|]. split; [done|]. cbn [lookup_num]. by rewrite bool_decide_true.
    + rewrite <- (segs_num i ds Hf). apply K; [|cbn [lookup_num]; by rewrite bool_decide_false].
      rewrite segs_num by done. apply Forall_singleton, miss_other; [done|apply Hf|apply hash_not_plain|done|].
      intros c Hc. unfold num_stop. char_solve.
  - apply K; [|done]. rewrite segs_flag by done. apply Forall_singleton, Hu. by apply plain_unmarked.
  - apply K; [|done]. destruct (segs_str i s Hf) as (p & ps & -> & Ep). destruct Hf as [Hi Hs].
    pose proof (str_parts s Hs) as Hp. rewrite Ep in Hp. apply Forall_cons in Hp as [Hp Hps].
    apply Forall_cons_2.
    + apply miss_chars; [|done]. apply Forall_app_2; [|do 2 (apply Forall_cons_2; [done|])].
      * eapply Forall_impl; [exact Hi|]. intros c Hc. unfold num_stop. char_solve.
      * eapply Forall_impl; [exact Hp|]. unfold num_stop, unmarked. intros. lia.
    + eapply Forall_impl; [exact Hps|]. intros q Hq. apply Hu. eapply Forall_impl; [exact Hq|]. by intros c [? ?].
Qed.

Lemma str_tail s p ps rest :
  split_colon (s ++ [DQUOTE]) = p :: ps →
  p ++ COLON :: text (ps ++ rest) = s ++ DQUOTE :: COLON :: text rest.
Proof.
  intros Ep. pose proof (text_split (s ++ [DQUOTE])) as Et. rewrite Ep in Et.
  change (text (p :: ps)) with ((p ++ [COLON]) ++ text ps) in Et. rewrite text_app.
  transitivity (((p ++ [COLON]) ++ text ps) ++ text rest); [by rewrite <- !app_assoc|].
  rewrite Et. by rewrite <- !app_assoc.
Qed.

Lemma find_str id fs :
  Forall plain id → Forall field_wf fs →
  find_hit str_stop id (fs ≫= segs) = None ∧ lookup_str id fs = None ∨
  ∃ s t, find_hit str_stop id (fs ≫= segs) = Some (EQUALS :: DQUOTE :: s ++ DQUOTE :: COLON :: t) ∧
    field_wf (Str id s) ∧ lookup_str id fs = Some s.
Proof.
  intros Hid. induction 1 as [|f fs Hf Hfs IH]; [by left|]. csimpl.
  assert (K : Forall (miss str_stop id) (segs f) → lookup_str id (f :: fs) = lookup_str id fs →
    find_hit str_stop id (segs f ++ (fs ≫= segs)) = None ∧ lookup_str id (f :: fs) = None ∨
    ∃ s t, find_hit str_stop id (segs f ++ (fs ≫= segs)) = Some (EQUALS :: DQUOTE :: s ++ DQUOTE :: COLON :: t) ∧
      field_wf (Str id s) ∧ lookup_str id (f :: fs) = Some s).
  { intros Hm El. by rewrite find_hit_miss, El. }
  assert (Hu : ∀ s, Forall unmarked s → miss str_stop id s).
  { intros s Hs. apply miss_chars; [|done]. eapply Forall_impl; [exact Hs|]. unfold str_stop, unmarked. intros. lia. }
  destruct f as [i ds|i|i s].
  - apply K; [|done]. rewrite segs_num by done. apply Forall_singleton.
    destruct Hf as (Hi & _ & Hd & _). apply miss_chars; [|done].
    apply Forall_app_2; [|apply Forall_cons_2; [done|]].
    + eapply Forall_impl; [exact Hi|]. intros c Hc. unfold str_stop. char_solve.
    + eapply Forall_impl; [exact Hd|]. intros d Hc%digit_plain. unfold str_stop. char_solve.
  - apply K; [|done]. rewrite segs_flag by done. apply Forall_singleton, Hu. by apply plain_unmarked.
  - destruct (segs_str i s Hf) as (p & ps & Es & Ep). pose proof Hf as [Hi Hs].
    destruct (decide (i = id)) as [->|Hne].
    + right. exists s. eexists. rewrite Es. cbn [app].
      rewrite (find_hit_here str_stop id EQUALS (DQUOTE :: p)) by done. split; [|split; [done|]].
      * cbn [app]. by rewrite (str_tail s).
      * cbn [lookup_str]. by rewrite bool_decide_true.
    + apply K; [|cbn [lookup_str]; by rewrite bool_decide_false]. rewrite Es.
      pose proof (str_parts s Hs) as Hp. rewrite Ep in Hp. apply Forall_cons in Hp as [_ Hps].
      apply Forall_cons_2.
      * apply miss_other; [done|done|apply equals_not_plain|done|]. intros c Hc. unfold str_stop. char_solve.
      * eapply Forall_impl; [exact Hps|]. intros q Hq. apply Hu. eapply Forall_impl; [exact Hq|]. by intros c [? ?].
Qed.

(** A flag is found as a part of its own, also one inside a string. *)
Lemma find_flag id ss :
  Forall (Forall (λ c, c ≠ 0 ∧ c ≠ COLON ∧ c ≠ AT)) ss →
  if bool_decide (id ∈ ss) then ∃ t, find_hit flag_stop id ss = Some (COLON :: t)
  else find_hit flag_stop id ss = None.
Proof.
  induction 1 as [|s ss Hs Hss IH]; [done|]. cbn [find_hit].
  destruct (decide (id = s)) as [->|Hne].
  { rewrite bool_decide_true by apply list_elem_of_here. rewrite bool_decide_true by done.
    rewrite drop_all. simpl. eauto. }
  rewrite head_tail.
  assert (Em : bool_decide (id `prefix_of` s)
               && flag_stop (default 0 (head (drop (length id) s ++ [COLON]))) = false).
  { destruct (bool_decide_reflect (id `prefix_of` s)) as [[r ->]|]; [|done]. rewrite drop_app_length.
    destruct r as [|c r]; [by rewrite app_nil_r in Hne|]. apply Forall_app in Hs as [_ Hr].
    apply Forall_cons in Hr as [Hc _]. simpl. unfold flag_stop. lia. }
  rewrite Em. erewrite bool_decide_ext; [exact IH|]. rewrite elem_of_cons. naive_solver.
Qed.

Lemma segs_flag_chars fs :
  Forall field_wf fs → Forall (Forall (λ c, c ≠ 0 ∧ c ≠ COLON ∧ c ≠ AT)) (fs ≫= segs).
Proof.
  intros Hw. apply Forall_bind. eapply Forall_impl; [exact Hw|]. intros f Hf.
  assert (Ha : Forall (λ c, c ≠ 0 ∧ c ≠ AT) (field_bytes f)).
  { destruct f as [i ds|i|i s]; simpl in *.
    - destruct Hf as (Hi & _ & Hd & _). apply Forall_app_2; [|apply Forall_cons_2; [done|]].
      + eapply Forall_impl; [exact Hi|]. intros c Hc. char_solve.
      + eapply Forall_impl; [exact Hd|]. intros c Hc%digit_plain. char_solve.
    - eapply Forall_impl; [exact Hf|]. intros c Hc. char_solve.
    - destruct Hf as [Hi Hs]. apply Forall_app_2; [|do 2 (apply Forall_cons_2; [done|]); apply Forall_app_2].
      + eapply Forall_impl; [exact Hi|]. intros c Hc. char_solve.
      + eapply Forall_impl; [exact Hs|]. intros c Hc. char_solve.
      + by apply Forall_singleton. }
  unfold segs. eapply Forall_impl; [by apply split_Forall|]. intros s Hs.
  eapply Forall_impl; [exact Hs|]. by intros c [[? ?] ?].
Qed.

(** ** Numbers and strings *)

Lemma s64_id x : 0 <= x < 2 ^ 63 → s64 x = x.
Proof. intros. unfold s64. rewrite Z.mod_small; lia. Qed.

Lemma digits_mono base ds : ∀ i,
  1 <= base → 0 <= i → Forall (λ d, isdigit d = true) ds →
  i <= foldl (λ i d, i * base + (d - ZERO)) i ds.
Proof.
  induction ds as [|d ds IH]; intros i Hb Hi Hd; simpl; [lia|]. apply Forall_cons in Hd as [Hd Hds].
  unfold isdigit, ZERO in *. specialize (IH (i * base + (d - 48)) Hb ltac:(nia) Hds). nia.
Qed.

Lemma number_spec base ds c post : ∀ pre i fuel,
  1 <= base → 0 <= i → Forall (λ d, isdigit d = true) ds → isdigit c = false →
  foldl (λ i d, i * base + (d - ZERO)) i ds < 2 ^ 63 → (length ds < fuel)%nat →
  number (pre ++ ds ++ c :: post) fuel base (length pre) i
  = Ret (foldl (λ i d, i * base + (d - ZERO)) i ds).
Proof.
  induction ds as [|d ds IH]; intros pre i [|fuel] Hb Hi Hd Hc Hv Hf; simpl in Hf; try lia; cbn [number].
  - rewrite app_nil_l, chr_at. simpl. by rewrite Hc.
  - apply Forall_cons in Hd as [Hd Hds]. cbn [app]. rewrite chr_at. cbn [mbind outcome_bind]. rewrite Hd.
    cbn [foldl] in *. assert (H48 : 48 <= d <= 57) by (unfold isdigit in Hd; lia). unfold ZERO in *.
    pose proof (digits_mono base ds (i * base + (d - 48)) Hb ltac:(nia) Hds) as Hm. unfold ZERO in Hm.
    rewrite (s64_id (i * base)), (s64_id (i * base + (d - 48))) by nia.
    specialize (IH (pre ++ [d]) (i * base + (d - 48)) fuel Hb ltac:(nia) Hds Hc Hv ltac:(lia)).
    rewrite length_app, <- app_assoc in IH. exact IH.
Qed.

Lemma decode_quoted s post : ∀ pre fuel,
  Forall quotable s → (length s + 2 <= fuel)%nat →
  decode_loop (pre ++ s ++ DQUOTE :: COLON :: post) fuel (length pre) DQUOTE = Ret s.
Proof.
  induction s as [|c s IH]; intros pre [|fuel] Hs Hf; simpl in Hf; try lia; cbn [decode_loop].
  - rewrite app_nil_l, chr_at. cbn [mbind outcome_bind]. cbv [DQUOTE COLON]. simpl.
    assert (Ec : chr (pre ++ 34 :: 58 :: post) (length pre + 1) = Ret 58).
    { change (34 :: 58 :: post) with ([34] ++ 58 :: post). rewrite app_assoc.
      replace (length pre + 1)%nat with (length (pre ++ [34])) by (rewrite length_app; done). apply chr_at. }
    unfold open_quote. rewrite Ec. simpl. destruct fuel as [|fuel]; [lia|]. cbn [decode_loop].
    rewrite Ec. done.
  - apply Forall_cons in Hs as [Hc Hs]. cbn [app]. rewrite chr_at. cbn [mbind outcome_bind].
    assert (E : (c =? 0) || (c =? DQUOTE) = false ∧ (c =? CARET) = false ∧ (c =? BACKSLASH) = false)
      by char_solve.
    destruct E as (-> & E2 & E3). unfold decode_char. rewrite E2, E3. cbn [mbind outcome_bind].
    specialize (IH (pre ++ [c]) fuel Hs ltac:(lia)). rewrite length_app, <- app_assoc in IH.
    cbn [app length] in IH. rewrite IH. cbn [mbind outcome_bind]. by rewrite u8_id by apply Hc.
Qed.

Lemma text_length ss : (length ss <= length (text ss))%nat.
Proof. unfold text. induction ss as [|s ss IH]; csimpl; [lia|]. rewrite !length_app. simpl. lia. Qed.

Section lookup.
Context (names : bytes) (fs : list field) (post : bytes).
Context (Hn : Forall seg_char names) (Hw : Forall field_wf fs).
Let buf : bytes := entry_bytes names fs ++ 0 :: post.

Lemma buf_eq : buf = [] ++ names ++ COLON :: text (fs ≫= segs) ++ 0 :: post.
Proof. unfold buf, entry_bytes. rewrite text_segs, <- app_assoc. done. Qed.

Lemma scan_entry stop id :
  Forall plain id → id ≠ [] →
  match find_hit stop id (fs ≫= segs) with
  | None => scan buf stop (S (length buf)) id 0 = Ret None
  | Some tl => ∃ pre, buf = pre ++ tl ++ 0 :: post ∧
                 scan buf stop (S (length buf)) id 0 = Ret (Some (length pre))
  end.
Proof.
  intros Hid Hne. rewrite buf_eq. apply scan_spec; try done; [by apply segs_ok|].
  pose proof (text_length (fs ≫= segs)). rewrite !length_app. simpl. rewrite length_app. simpl. lia.
Qed.

Lemma tgetnum_entry id : Forall plain id → id ≠ [] → tgetnum buf id = Ret (lookup_num id fs).
Proof.
  intros Hid Hne. unfold tgetnum. rewrite tgetnum_scan. pose proof (scan_entry num_stop id Hid Hne) as Hs.
  destruct (find_num id fs Hid Hw) as [[E ->]|(ds & t & E & (_ & Hds & Hd & Hv) & ->)]; rewrite E in Hs.
  { by rewrite Hs. }
  destruct Hs as (pre & Eb & ->). cbn [mbind outcome_bind].
  assert (E0 : chr buf (length pre) = Ret HASH) by (rewrite Eb; apply chr_at).
  rewrite E0. cbn [mbind outcome_bind]. destruct ds as [|d ds]; [done|].
  assert (Eb1 : buf = (pre ++ [HASH]) ++ (d :: ds) ++ COLON :: t ++ 0 :: post)
    by (rewrite Eb, <- !app_assoc; cbn [app]; by rewrite <- !app_assoc).
  replace (length pre + 1)%nat with (length (pre ++ [HASH])) by (rewrite length_app; done).
  assert (E1 : chr buf (length (pre ++ [HASH])) = Ret d) by (rewrite Eb1; apply chr_at).
  change (HASH =? AT) with false. cbv iota. rewrite E1. cbn [mbind outcome_bind].
  rewrite Eb1 at 1. rewrite number_spec; try done; [by destruct (d =? ZERO)|].
  rewrite Eb1, !length_app. simpl. lia.
Qed.

Lemma tgetflag_entry id : Forall plain id → id ≠ [] → tgetflag buf id = Ret (lookup_flag id fs).
Proof.
  intros Hid Hne. unfold tgetflag, lookup_flag. rewrite tgetflag_scan.
  pose proof (scan_entry flag_stop id Hid Hne) as Hs.
  pose proof (find_flag id _ (segs_flag_chars fs Hw)) as Hf.
  destruct (bool_decide (id ∈ fs ≫= segs)).
  - destruct Hf as [t E]. rewrite E in Hs. destruct Hs as (pre & Eb & ->). cbn [mbind outcome_bind].
    assert (E0 : chr buf (length pre) = Ret COLON) by (rewrite Eb; apply chr_at). by rewrite E0.
  - rewrite Hf in Hs. by rewrite Hs.
Qed.

Lemma tgetstr_entry id area :
  Forall plain id → id ≠ [] →
  tgetstr buf id area =
    match lookup_str id fs with
    | None => Ret None
    | Some s => if (BUFSIZ <? area + length s + 1)%nat then Crash
                else Ret (Some (s, (area + length s + 1)%nat))
    end.
Proof.
  intros Hid Hne. unfold tgetstr. rewrite tgetstr_scan. pose proof (scan_entry str_stop id Hid Hne) as Hs.
  destruct (find_str id fs Hid Hw) as [[E ->]|(s & t & E & [_ Hq] & ->)]; rewrite E in Hs.
  { by rewrite Hs. }
  destruct Hs as (pre & Eb & ->). cbn [mbind outcome_bind].
  assert (E0 : chr buf (length pre) = Ret EQUALS) by (rewrite Eb; apply chr_at).
  rewrite E0. cbn [mbind outcome_bind]. change (EQUALS =? AT) with false. cbv iota.
  unfold tdecode, open_quote.
  assert (E1 : chr buf (length pre + 1) = Ret DQUOTE)
    by (rewrite Eb; apply (chr_plus pre [EQUALS] DQUOTE)).
  rewrite E1. cbn [mbind outcome_bind]. change (DQUOTE =? DQUOTE) with true. cbv iota beta.
  assert (Eb2 : buf = (pre ++ [EQUALS; DQUOTE]) ++ s ++ DQUOTE :: COLON :: t ++ 0 :: post)
    by (rewrite Eb, <- !app_assoc; cbn [app]; by rewrite <- !app_assoc).
  replace (length pre + 1 + 1)%nat with (length (pre ++ [EQUALS; DQUOTE])) by (rewrite length_app; simpl; lia).
  assert (Ed : decode_loop buf (S (length buf)) (length (pre ++ [EQUALS; DQUOTE])) DQUOTE = Ret s).
  { rewrite Eb2 at 1. apply decode_quoted; [done|]. rewrite Eb2, !length_app. simpl. lia. }
  rewrite Ed. cbn [mbind outcome_bind]. by destruct (_ <? _)%nat.
Qed.

End lookup.

(** Looking fields up in an entry gives back what was written. In an entry
    made of the names of the interface and a list of fields (numbers, flags,
    quoted strings that may contain colons), [tgetnum] returns the value of
    the first number with the name (octal if it starts with 0) or -1,
    [tgetflag] tells whether the flag is there, and [tgetstr] decodes the
    first string with the name, provided that the area has room for it. A part
    of a quoted string between two colons counts as a flag, because [tskip]
    does not notice quotes. *)
Lemma caps_lookup names fs post id area :
  Forall seg_char names → Forall field_wf fs → Forall plain id → id ≠ [] →
  let buf := entry_bytes names fs ++ 0 :: post in
  tgetnum buf id = Ret (lookup_num id fs) ∧
  tgetflag buf id = Ret (lookup_flag id fs) ∧
  tgetstr buf id area =
    match lookup_str id fs with
    | None => Ret None
    | Some s => if (BUFSIZ <? area + length s + 1)%nat then Crash
                else Ret (Some (s, (area + length s + 1)%nat))
    end.
Proof.
  intros Hn Hw Hid Hne buf. split_and!;
    [by apply tgetnum_entry|by apply tgetflag_entry|by apply tgetstr_entry].
Qed.

Definition sample_fields : list field :=
  [Num (cstr "mtu") (cstr "1500"); Flag (cstr "nolladdr"); Str (cstr "addr") (cstr "2001:db8::")].

Lemma sample_fields_wf : Forall field_wf sample_fields.
Proof.
  apply Forall_cons_2; [|apply Forall_cons_2; [|apply Forall_singleton]]; simpl.
  - split_and!; try done; apply (bool_decide_eq_true_1 (Forall _ _)); reflexivity.
  - apply (bool_decide_eq_true_1 (Forall _ _)); reflexivity.
  - split; apply (bool_decide_eq_true_1 (Forall _ _)); reflexivity.
Qed.

Lemma caps_lookup_witness :
  let buf := entry_bytes (cstr "en0|default") sample_fields ++ 0 :: replicate 5 7 in
  tgetnum buf (cstr "mtu") = Ret 1500 ∧
  tgetstr buf (cstr "addr") 10 = Ret (Some (cstr "2001:db8::", 21%nat)).
Proof.
  assert (Hn : Forall seg_char (cstr "en0|default")).
  { apply (bool_decide_eq_true_1 (Forall _ _)). reflexivity. }
  split.
  - destruct (caps_lookup (cstr "en0|default") sample_fields (replicate 5 7) (cstr "mtu") 0 Hn sample_fields_wf)
      as (E & _); [apply (bool_decide_eq_true_1 (Forall _ _)); reflexivity|done|]. exact E.
  - destruct (caps_lookup (cstr "en0|default") sample_fields (replicate 5 7) (cstr "addr") 10 Hn sample_fields_wf)
      as (_ & _ & E); [apply (bool_decide_eq_true_1 (Forall _ _)); reflexivity|done|]. exact E.
Defined.

(** ** References to other entries *)

Lemma cstring_spec s post : ∀ pre fuel,
  Forall (λ c, c ≠ 0) s → (length s < fuel)%nat →
  cstring (pre ++ s ++ 0 :: post) fuel (length pre) = Ret s.
Proof.
  induction s as [|c s IH]; intros pre [|fuel] Hs Hf; simpl in Hf; try lia; cbn [cstring].
  - rewrite app_nil_l, chr_at. done.
  - apply Forall_cons in Hs as [Hc Hs]. cbn [app]. rewrite chr_at. cbn [mbind outcome_bind].
    rewrite (proj2 (Z.eqb_neq _ _) Hc). specialize (IH (pre ++ [c]) fuel Hs ltac:(lia)).
    rewrite length_app, <- app_assoc in IH. cbn [app length] in IH. by rewrite IH.
Qed.

Lemma string_at_spec pre s post :
  Forall (λ c, c ≠ 0) s → string_at (pre ++ s ++ 0 :: post) (length pre) = Ret s.
Proof. intros. apply cstring_spec; [done|]. rewrite !length_app. simpl. lia. Qed.

Lemma first_field_spec s post : ∀ pre fuel,
  Forall (λ c, c ≠ COLON) s → (length s < fuel)%nat →
  first_field fuel (pre ++ s ++ COLON :: post) (length pre) = Ret (length pre + length s + 1)%nat.
Proof.
  induction s as [|c s IH]; intros pre [|fuel] Hs Hf; simpl in Hf; try lia; cbn [first_field].
  - rewrite app_nil_l, chr_at. simpl. f_equal. lia.
  - apply Forall_cons in Hs as [Hc Hs]. cbn [app]. rewrite chr_at. cbn [mbind outcome_bind].
    rewrite (proj2 (Z.eqb_neq _ _) Hc). specialize (IH (pre ++ [c]) fuel Hs ltac:(lia)).
    rewrite length_app, <- app_assoc in IH. cbn [app length] in *. rewrite IH. f_equal. lia.
Qed.

Lemma store_at buf p w :
  store buf p w = if (length buf <? p + length w)%nat then Crash
                  else Ret (take p buf ++ w ++ drop (p + length w) buf).
Proof.
  unfold store. destruct (Nat.ltb_spec (length buf) (p + length w)).
  - by rewrite bool_decide_false by lia.
  - by rewrite bool_decide_true by lia.
Qed.

(** The expansion of [tc=] overflows its buffer by one octet. Appending the
    fields of the referenced entry at offset [p] gives the expected entry when
    the result and its terminator fit the BUFSIZ octets, and otherwise, also
    where the code means to truncate, it writes past the end: the test
    [l > BUFSIZ] forgets the terminating zero. (The size given to [strlcpy] is
    the distance to the buffer of the inner call, which is larger.) *)
Lemma tc_append_overflow gap buf p names fields post :
  length buf = BUFSIZ → (p <= BUFSIZ)%nat → Forall (λ c, c ≠ COLON) names → Forall (λ c, c ≠ 0) fields →
  length (names ++ COLON :: fields ++ 0 :: post) = BUFSIZ →
  Z.of_nat BUFSIZ < gap + Z.of_nat p < 2 ^ 64 →
  tc_append gap buf p (names ++ COLON :: fields ++ 0 :: post) =
    if (p + length fields <? BUFSIZ)%nat
    then Ret (take p buf ++ (fields ++ [0]) ++ drop (p + length (fields ++ [0])) buf)
    else Crash.
Proof.
  intros Lb Hp Hn Hf Lt Hg. unfold tc_append. set (tcbuf := names ++ COLON :: fields ++ 0 :: post) in *.
  assert (Eq : first_field (S (length tcbuf)) tcbuf 0 = Ret (length (names ++ [COLON]))).
  { pose proof (first_field_spec names (fields ++ 0 :: post) [] (S (length tcbuf)) Hn) as E.
    cbn [app length] in E. unfold tcbuf at 2. rewrite E by (unfold tcbuf; rewrite length_app; lia).
    f_equal. rewrite length_app. simpl. lia. }
  assert (Et : tcbuf = (names ++ [COLON]) ++ fields ++ 0 :: post) by (unfold tcbuf; by rewrite <- app_assoc).
  assert (Ln : (length (names ++ [COLON]) + length fields < BUFSIZ)%nat).
  { rewrite <- Lt, Et, !length_app. simpl. lia. }
  rewrite Eq. cbn [mbind outcome_bind].
  assert (Es : string_at tcbuf (length (names ++ [COLON])) = Ret fields)
    by (rewrite Et; by apply string_at_spec).
  rewrite Es. cbn [mbind outcome_bind]. unfold u64. rewrite Z.mod_small by lia.
  assert (Hcpy : ∀ s, (length s <= BUFSIZ)%nat → strlcpy buf p s (gap + Z.of_nat p) =
    if (p + length s <? BUFSIZ)%nat then Ret (take p buf ++ (s ++ [0]) ++ drop (p + length (s ++ [0])) buf) else Crash).
  { intros s Hs. unfold strlcpy. rewrite (proj2 (Z.eqb_neq _ _)) by lia.
    rewrite take_ge by lia. rewrite store_at, length_app, Lb. cbn [length].
    destruct (Nat.ltb_spec (p + length s) BUFSIZ), (Nat.ltb_spec BUFSIZ (p + (length s + 1))); lia || done. }
  destruct (Nat.ltb_spec BUFSIZ (p + length fields)) as [Hl|Hl]; cbn [mbind outcome_bind].
  2:{ rewrite Es. cbn [mbind outcome_bind]. apply Hcpy. lia. }
  rewrite (proj2 (Nat.ltb_ge (p + length fields) BUFSIZ)) by lia. rewrite store_at, Lt. cbn [length].
  destruct (Nat.ltb_spec BUFSIZ (length (names ++ [COLON]) + (BUFSIZ - p) + 1)) as [|Hq]; [done|].
  cbn [mbind outcome_bind].
  assert (Es2 : string_at (take (length (names ++ [COLON]) + (BUFSIZ - p)) tcbuf ++ [0]
      ++ drop (length (names ++ [COLON]) + (BUFSIZ - p) + 1) tcbuf) (length (names ++ [COLON]))
    = Ret (take (BUFSIZ - p) fields)).
  { rewrite Et at 1. rewrite take_app_add. rewrite take_app_le by lia. rewrite <- app_assoc.
    apply string_at_spec. by apply Forall_take. }
  rewrite Es2. cbn [mbind outcome_bind]. rewrite Hcpy by (rewrite length_take; lia).
  rewrite length_take_le by lia. by rewrite (proj2 (Nat.ltb_ge _ _)) by lia.
Qed.

Lemma tc_append_overflow_witness :
  tc_append 5000 (replicate 1024 0) 500 ([97] ++ COLON :: replicate 524 98 ++ 0 :: replicate 497 0) = Crash.
Proof.
  rewrite (tc_append_overflow 5000 (replicate 1024 0) 500 [97] (replicate 524 98) (replicate 497 0)).
  - reflexivity.
  - reflexivity.
  - unfold BUFSIZ. lia.
  - by apply Forall_singleton.
  - by apply Forall_replicate.
  - reflexivity.
  - unfold BUFSIZ. lia.
Defined.

(** ** Finding the entry of a name *)

Definition name_char (c : Z) : Prop := c ≠ 0 ∧ c ≠ COLON ∧ c ≠ BAR.
#[export] Instance name_char_dec c : Decision (name_char c).
Proof. unfold name_char. apply _. Defined.
Definition special (c : Z) : bool := (c =? 0) || (c =? COLON) || (c =? BAR).

(** The comparison with one name of the entry. *)
Lemma name_scan_spec np : ∀ pre n sep rest,
  Forall name_char np → Forall name_char n → special sep = true →
  ∃ k b, name_scan (pre ++ n ++ sep :: rest) np (length pre) = Ret ((length pre + k)%nat, b) ∧
    (k <= length n)%nat ∧
    b && special (default 0 (head (drop k n ++ [sep]))) = bool_decide (np = n).
Proof.
  induction np as [|x np IH]; intros pre n sep rest Hnp Hn Hsep; cbn [name_scan].
  - exists 0%nat, true. split; [by rewrite Nat.add_0_r|]. split; [lia|]. rewrite drop_0.
    destruct n as [|c n]; simpl; [by rewrite Hsep|]. apply Forall_cons in Hn as [Hc _].
    unfold special, name_char in *. lia.
  - apply Forall_cons in Hnp as [Hx Hnp]. destruct n as [|c n]; cbn [app]; rewrite chr_at; cbn [mbind outcome_bind].
    + exists 0%nat, false. rewrite (proj2 (Z.eqb_neq sep x)).
      * split; [by rewrite Nat.add_0_r|]. split; [lia|]. done.
      * intros ->. unfold special, name_char in *. lia.
    + apply Forall_cons in Hn as [Hc Hn]. destruct (Z.eqb_spec c x) as [->|Hne].
      * destruct (IH (pre ++ [x]) n sep rest Hnp Hn Hsep) as (k & b & E & Hk & Eb).
        rewrite length_app, <- app_assoc in E. cbn [app length] in E. exists (S k), b. rewrite E.
        split; [do 2 f_equal; lia|]. split; [simpl; lia|]. cbn [drop]. rewrite Eb.
        apply bool_decide_ext. naive_solver.
      * exists 0%nat, false. split; [by rewrite Nat.add_0_r|]. split; [lia|].
        symmetry. apply bool_decide_eq_false. congruence.
Qed.

Lemma name_end_spec n sep rest : ∀ pre fuel,
  Forall name_char n → special sep = true → (length n < fuel)%nat →
  name_end (pre ++ n ++ sep :: rest) fuel (length pre) = Ret (length (pre ++ n)).
Proof.
  induction n as [|c n IH]; intros pre [|fuel] Hn Hs Hf; simpl in Hf; try lia; cbn [name_end].
  - rewrite app_nil_l, chr_at. cbn [mbind outcome_bind]. unfold special in Hs. rewrite Hs. by rewrite app_nil_r.
  - apply Forall_cons in Hn as [Hc Hn]. cbn [app]. rewrite chr_at. cbn [mbind outcome_bind].
    assert (E : (c =? 0) || (c =? COLON) || (c =? BAR) = false) by (unfold name_char in Hc; lia). rewrite E.
    specialize (IH (pre ++ [c]) fuel Hn Hs ltac:(lia)). rewrite length_app, <- app_assoc in IH.
    cbn [app length] in IH. rewrite IH. by rewrite <- app_assoc.
Qed.

(** The names of an entry, before [tl]. *)
Fixpoint names_bytes (ns : list bytes) (tl : bytes) : bytes :=
  match ns with
  | [] => tl
  | [n] => n ++ tl
  | n :: ns => n ++ BAR :: names_bytes ns tl
  end.

Lemma tnamatch_loop_spec np sep rest ns : ∀ pre fuel,
  Forall name_char np → Forall (Forall name_char) ns → ns ≠ [] → sep = COLON ∨ sep = 0 →
  (length (names_bytes ns (sep :: rest)) < fuel)%nat →
  tnamatch_loop (pre ++ names_bytes ns (sep :: rest)) fuel np (length pre) = Ret (bool_decide (np ∈ ns)).
Proof.
  induction ns as [|n ns IH]; intros pre [|fuel] Hnp Hns Hne Hsep Hf; try done; [lia|].
  apply Forall_cons in Hns as [Hn Hns].
  assert (Hx : ∃ x tl, names_bytes (n :: ns) (sep :: rest) = n ++ x :: tl ∧ special x = true ∧
    (ns = [] ∧ x = sep ∨ ns ≠ [] ∧ x = BAR ∧ tl = names_bytes ns (sep :: rest))).
  { destruct ns as [|n2 ns]; [|exists BAR; eauto 8]. exists sep, rest. destruct Hsep as [->| ->]; auto. }
  destruct Hx as (x & tl & Eb & Hx & Hcases).
  rewrite Eb in *. rewrite length_app in Hf. simpl in Hf. cbn [tnamatch_loop].
  destruct (name_scan_spec np pre n x tl Hnp Hn Hx) as (k & b & E & Hk & Em).
  rewrite E. cbn [mbind outcome_bind]. clear E.
  assert (Ek : pre ++ n ++ x :: tl = (pre ++ take k n) ++ drop k n ++ x :: tl).
  { rewrite <- app_assoc. f_equal. rewrite app_assoc. by rewrite take_drop. }
  assert (Lk : (length pre + k)%nat = length (pre ++ take k n)) by (rewrite length_app, length_take; lia).
  assert (Ec : chr (pre ++ n ++ x :: tl) (length pre + k) = Ret (default 0 (head (drop k n ++ [x])))).
  { rewrite Ek, Lk. destruct (drop k n); simpl; apply chr_at. }
  rewrite Ec. cbn [mbind outcome_bind].
  replace ((default 0 (head (drop k n ++ [x])) =? BAR) || (default 0 (head (drop k n ++ [x])) =? COLON)
    || (default 0 (head (drop k n ++ [x])) =? 0)) with (special (default 0 (head (drop k n ++ [x]))))
    by (unfold special; lia).
  rewrite Em. case_bool_decide as Hm.
  { rewrite bool_decide_true; [done|]. subst. apply list_elem_of_here. }
  assert (Ee : name_end (pre ++ n ++ x :: tl) (S fuel) (length pre + k) = Ret (length (pre ++ n))).
  { rewrite Ek, Lk. rewrite name_end_spec; [|by apply Forall_drop|done|rewrite length_drop; lia].
    f_equal. rewrite <- app_assoc, take_drop. done. }
  rewrite Ee. cbn [mbind outcome_bind]. rewrite app_assoc, chr_at. cbn [mbind outcome_bind].
  destruct Hcases as [[-> ->]|(Hns' & -> & ->)].
  - assert (Ex : (sep =? 0) || (sep =? COLON) = true) by (by destruct Hsep as [->| ->]).
    rewrite Ex. symmetry. f_equal. apply bool_decide_eq_false. by intros ?%list_elem_of_singleton.
  - change ((BAR =? 0) || (BAR =? COLON)) with false. cbv iota.
    specialize (IH ((pre ++ n) ++ [BAR]) fuel Hnp Hns Hns' Hsep). rewrite <- app_assoc in IH. cbn [app] in IH.
    replace (length (pre ++ n) + 1)%nat with (length ((pre ++ n) ++ [BAR])) by (rewrite !length_app; simpl; lia).
    rewrite IH by lia. f_equal. apply bool_decide_ext. rewrite elem_of_cons. naive_solver.
Qed.

(** A line of the file: its names and the text after them. *)
Record cap_line := Line { line_names : list bytes; line_body : bytes }.
Definition line_text (l : cap_line) : bytes := names_bytes (line_names l) (line_body l).
Definition line_wf (l : cap_line) : Prop :=
  line_names l ≠ [] ∧ Forall (Forall name_char) (line_names l) ∧
  (line_body l = [] ∨ head (line_body l) = Some COLON) ∧
  Forall (λ c, c ≠ 0 ∧ c ≠ NEWLINE) (line_text l) ∧
  last (line_text l) ≠ Some BACKSLASH ∧ (length (line_text l) < BUFSIZ)%nat.
Definition named (name : bytes) (l : cap_line) : Prop :=
  head (line_text l) ≠ Some HASH ∧ name ∈ line_names l.
#[export] Instance named_dec name l : Decision (named name l).
Proof. unfold named. apply _. Defined.

Lemma names_bytes_app ns tl tl' : names_bytes ns (tl ++ tl') = names_bytes ns tl ++ tl'.
Proof.
  induction ns as [|n ns IH]; [done|]. destruct ns; simpl in *; [by rewrite app_assoc|].
  rewrite IH, <- app_assoc. done.
Qed.

Lemma tnamatch_spec l name post :
  line_wf l → Forall name_char name →
  tnamatch (line_text l ++ 0 :: post) name = Ret (bool_decide (named name l)).
Proof.
  intros (Hne & Hns & Hb & Ht & _) Hname. unfold tnamatch, named.
  assert (Ec : chr (line_text l ++ 0 :: post) 0 = Ret (default 0 (head (line_text l)))).
  { by destruct (line_text l). }
  rewrite Ec. cbn [mbind outcome_bind].
  destruct (Z.eqb_spec (default 0 (head (line_text l))) HASH) as [E|E].
  { f_equal. symmetry. apply bool_decide_eq_false. intros [H _]. apply H.
    destruct (line_text l); simpl in *; [done|by rewrite E]. }
  assert (Eb : ∃ sep rest, line_body l ++ 0 :: post = sep :: rest ∧ (sep = COLON ∨ sep = 0)).
  { destruct Hb as [->|Hb]; [simpl; eauto|]. destruct (line_body l); simplify_eq/=; eauto. }
  destruct Eb as (sep & rest & Eb & Hsep). unfold line_text. rewrite <- names_bytes_app, Eb.
  pose proof (tnamatch_loop_spec name sep rest (line_names l) [] (S (length (names_bytes (line_names l) (sep :: rest))))
    Hname Hns Hne Hsep) as Hl. cbn [app length] in Hl. rewrite Hl by lia.
  f_equal. apply bool_decide_ext. unfold line_text in E. split; [|by intros [_ ?]]. intros ?. split; [|done].
  intros E'. apply E. by rewrite E'.
Qed.

(** Reading one line into the buffer. *)
Lemma getline_spec s rest : ∀ cur buf,
  Forall (λ c, c ≠ 0 ∧ c ≠ NEWLINE) s → last (cur ++ s) ≠ Some BACKSLASH →
  (length (cur ++ s) < BUFSIZ)%nat → length buf = BUFSIZ → take (length cur) buf = cur →
  ∃ buf', getline (s ++ NEWLINE :: rest) buf (length cur) = Ret (Some (buf', rest)) ∧
    length buf' = BUFSIZ ∧ ∃ post, buf' = (cur ++ s) ++ 0 :: post.
Proof.
  induction s as [|c s IH]; intros cur buf Hs Hb Hl Lb Ec; cbn [app getline].
  - rewrite app_nil_r in *. rewrite Z.eqb_refl.
    assert (Eprev : (if (0 <? length cur)%nat then prev ← chr buf (length cur - 1); Ret (prev =? BACKSLASH)
                     else Ret false : outcome bool) = Ret false).
    { destruct (Nat.ltb_spec 0 (length cur)) as [Hc|]; [|done].
      assert (Ex : ∃ x, chr buf (length cur - 1) = Ret x ∧ x ≠ BACKSLASH).
      { destruct (lookup_lt_is_Some_2 cur (length cur - 1) ltac:(lia)) as [x Ex]. exists x.
        unfold chr, rd8. rewrite <- (lookup_take_lt buf (length cur)), Ec, Ex by lia.
        split; [done|]. intros ->. apply Hb. rewrite last_lookup. by rewrite <- Nat.sub_1_r. }
      destruct Ex as (x & -> & Hx). simpl. by rewrite (proj2 (Z.eqb_neq _ _) Hx). }
    rewrite Eprev. cbn [mbind outcome_bind negb]. rewrite store_at, Lb. cbn [length].
    rewrite (proj2 (Nat.ltb_ge _ _)) by lia. cbn [mbind outcome_bind]. eexists. split; [reflexivity|].
    split; [rewrite !length_app, length_take, length_drop; simpl; lia|]. eexists. by rewrite Ec.
  - apply Forall_cons in Hs as [[Hc0 Hcn] Hs]. rewrite (proj2 (Z.eqb_neq _ _) Hcn).
    rewrite length_app in Hl. simpl in Hl.
    rewrite (proj2 (Nat.leb_gt _ _)) by (unfold BUFSIZ in *; lia).
    rewrite store_at, Lb. cbn [length]. rewrite (proj2 (Nat.ltb_ge _ _)) by lia. cbn [mbind outcome_bind].
    destruct (IH (cur ++ [c]) (take (length cur) buf ++ [c] ++ drop (length cur + 1) buf))
      as (buf' & E & Lb' & post & Ep); [done|by rewrite <- app_assoc| | | |].
    + rewrite !length_app. simpl. lia.
    + rewrite !length_app, length_take, length_drop. simpl. lia.
    + rewrite Ec, (app_assoc cur [c]). apply take_app_length.
    + rewrite length_app in E. exists buf'. split; [exact E|]. split; [done|].
      exists post. rewrite Ep. by rewrite <- (app_assoc cur [c] s).
Qed.

(** The entry of an interface is the first line that names it. On a file
    of complete lines, the search of [getent] leaves in the buffer the first
    line, not a comment, that has the name among its names separated by bars,
    whatever the buffer held before; if there is none it reports so. *)
Lemma find_entry_first name lines : ∀ fuel buf,
  Forall name_char name → Forall line_wf lines → length buf = BUFSIZ → (length lines < fuel)%nat →
  let file := concat ((λ l, line_text l ++ [NEWLINE]) <$> lines) in
  match list_find (named name) lines with
  | None => find_entry fuel file buf name = Ret None
  | Some (_, l) => ∃ post, find_entry fuel file buf name = Ret (Some (line_text l ++ 0 :: post))
  end.
Proof.
  induction lines as [|l lines IH]; intros [|fuel] buf Hn Hw Lb Hf file; simpl in Hf; try lia; [done|].
  apply Forall_cons in Hw as [Hl Hw]. pose proof Hl as (_ & _ & _ & Ht & Hlast & Hlen).
  change file with ((line_text l ++ [NEWLINE]) ++ concat ((λ l, line_text l ++ [NEWLINE]) <$> lines)).
  rewrite <- app_assoc. cbn [find_entry app].
  destruct (getline_spec (line_text l) (concat ((λ l, line_text l ++ [NEWLINE]) <$> lines)) [] buf)
    as (buf' & E & Lb' & post & Ep); try done. cbn [length] in E. rewrite E. cbn [mbind outcome_bind].
  rewrite Ep. cbn [app]. rewrite tnamatch_spec by done. cbn [mbind outcome_bind].
  assert (Efind : list_find (named name) (l :: lines)
    = if decide (named name l) then Some (0%nat, l) else prod_map S id <$> list_find (named name) lines) by done.
  rewrite Efind. destruct (decide (named name l)) as [Hd|Hd].
  - rewrite bool_decide_true by done. cbn [negb]. eauto.
  - rewrite bool_decide_false by done. cbn [negb].
    specialize (IH fuel buf' Hn Hw Lb' ltac:(lia)). cbv zeta in IH. rewrite Ep in IH. cbn [app] in IH.
    destruct (list_find (named name) lines) as [[i x]|]; simpl; done.
Qed.

Lemma find_entry_first_witness :
  ∃ post, find_entry 3 (cstr "lo0|lo:mtu#1:" ++ [NEWLINE] ++ cstr "en0:mtu#1500:" ++ [NEWLINE])
    (replicate 1024 7) (cstr "en0") = Ret (Some (cstr "en0:mtu#1500:" ++ 0 :: post)).
Proof.
  set (l1 := Line [cstr "lo0"; cstr "lo"] (cstr ":mtu#1:")).
  set (l2 := Line [cstr "en0"] (cstr ":mtu#1500:")).
  assert (Hw : Forall line_wf [l1; l2]).
  { apply Forall_cons_2; [|apply Forall_singleton]; (unfold line_wf; split_and!;
      try done; try (by right); try (apply (bool_decide_eq_true_1 (Forall _ _)); reflexivity);
      unfold BUFSIZ; simpl; lia). }
  apply (find_entry_first (cstr "en0") [l1; l2] 3 (replicate 1024 7)); [|done|reflexivity|simpl; lia].
  apply (bool_decide_eq_true_1 (Forall _ _)). reflexivity.
Defined.

(** Reading an entry terminates for every file, also when its [tc=]
    references form a loop: [hopcount] stops the recursion of [getent] and
    [tnchktc] after MAXHOP references, so that the fuel given to it is never
    used up. (The count is kept between calls, so that it also limits the
    references of all interfaces together.) *)
Lemma tgetent_terminates file fresh gap hopcount bp name :
  tgetent file fresh gap hopcount bp name ≠ Ret None.
Proof.
  unfold tgetent.
  assert (K : ∀ fuel hop bp name, (MAXHOP < fuel + hop)%nat → (0 < fuel)%nat →
    getent file fresh gap fuel hop bp name ≠ Ret None); [|apply K; lia].
  clear. induction fuel as [|fuel IH]; intros hop bp name Hf Hp; [lia|]. cbn [getent].
  destruct file as [f|]; [|done].
  destruct (find_entry _ _ _ _) as [[buf|]| |]; cbn [mbind outcome_bind]; try done.
  destruct (string_at _ _) as [s| |]; cbn [mbind outcome_bind]; try done.
  destruct (last_field _ _ _) as [[p|]| |]; cbn [mbind outcome_bind]; try done.
  destruct (chr buf p) as [c0| |]; cbn [mbind outcome_bind]; try done.
  destruct (if c0 =? 116 then _ else _) as [tc| |]; cbn [mbind outcome_bind]; try done.
  destruct tc; cbn [negb]; [|done].
  destruct (tc_name buf p) as [tcname| |]; cbn [mbind outcome_bind]; try done.
  destruct (Nat.ltb_spec MAXHOP (S hop)); [done|].
  specialize (IH (S hop) fresh tcname ltac:(lia) ltac:(lia)).
  destruct (getent _ _ _ fuel (S hop) fresh tcname) as [[[[r tcbuf] h]|]| |]; cbn [mbind outcome_bind]; try done.
  destruct (negb _); [done|]. by destruct (tc_append _ _ _ _).
Qed.
