(* ===== verification/Config.v ===== *)
(** * Config: reading the configuration of an interface (rtadvd.tproj/config.c)

    [getconfig] looks the capabilities of an interface up, checks them, fills
    a fresh [struct rainfo], links it into [ralist], builds the first packet
    and starts the timer. The lookups are an interface (class [CapDb]) that
    the database of Advcap.v implements. *)

From stdpp Require Import pretty.
From S2P Require Import Prelude Timeval In6 NdOpt RaTimer RtMsg Rainfo RaState RaInv RaOps Advcap Rrenum Rtadvd.

(** ** The capability database as [getconfig] uses it *)

Class CapDb := {
  agetnum : bytes → outcome Z;
  agetflag : bytes → outcome bool;
  agetstr : bytes → nat → outcome (option (bytes * nat)) }.

(** The lookups in the buffer that [agetent] filled. *)
Definition tbuf_db (tbuf : bytes) : CapDb := {|
  agetnum := tgetnum tbuf; agetflag := tgetflag tbuf; agetstr := tgetstr tbuf |}.

(** What the kernel and the C library answer: [inet_pton], [if_nametoindex],
    the sysctl for forwarding (negative if it fails), and what [if_nametosdl],
    [if_getmtu] and [getifaddrs] read. [k_iflist_fuel] bounds the walk of
    [if_nametosdl] over the interface list; a walk that is cut counts as
    [Crash]. *)
Record ifaddr := Ifaddr {
  ifa_name : bytes;
  ifa_family : Z;
  ifa_addr : in6_addr;
  ifa_netmask : bytes }.
Record answers := Answers {
  k_inet_pton : bytes → option in6_addr;
  k_if_nametoindex : bytes → Z;
  k_forwarding : Z;
  k_iflist : option bytes;
  k_iflist_fuel : nat;
  k_mtus : option (list (bytes * option Z));
  k_siocgifmtu : option Z;
  k_ifaddrs : option (list ifaddr) }.

(** The state: the free part of the string area, and the daemon. *)
Record cfg := Cfg { c_area : nat; c_world : world }.
#[export] Instance eta_cfg : Eta cfg := λ c, Cfg (c_area c) (c_world c).
Abbreviation CF := (ST cfg).

Definition DEF_MAXRTRADVINTERVAL : Z := 600.
Definition MIN_MAXINTERVAL : Z := 4.
Definition MAX_MAXINTERVAL : Z := 1800.
Definition MIN_MININTERVAL : Z := 3.
Definition DEF_ADVCURHOPLIMIT : Z := 64.
Definition MAXROUTERLIFETIME : Z := 9000.
Definition MAXREACHABLETIME : Z := 3600000.
Definition MAXPREFIX : nat := 100.
Definition MAXROUTE : nat := 100.
Definition IPV6_MMTU : Z := 1280.
Definition ND_OPT_PREF64_LIFETIME_MAX : Z := 65528.
Definition ND_OPT_PREF64_PLC_MASK : Z := 7.

(** The prefix length codes; the argument is converted to 8 bits. *)
Definition pref64_prefix_length_get_plc (prefix_length : Z) : option Z :=
  let l := u8 prefix_length in
  if l =? 32 then Some 5 else if l =? 40 then Some 4 else if l =? 48 then Some 3
  else if l =? 56 then Some 2 else if l =? 64 then Some 1 else if l =? 96 then Some 0 else None.

(** A negative number stands for no number. *)
Definition makeentry (id : Z) (str : string) : bytes :=
  if id <? 0 then cstr str else cstr str ++ cstr (pretty (Z.to_N id)).

(** A C string ends at the first zero. *)
Fixpoint until_nul (s : bytes) : bytes :=
  match s with
  | [] => []
  | c :: s => if c =? 0 then [] else c :: until_nul s
  end.
Definition strchr (s : bytes) (c : string) : bool :=
  bool_decide (default 0 (head (cstr c)) ∈ s).

Section config.
Context `{Env} `{CapDb} (K : answers).

Definition io {A} (m : IO A) : CF A := λ c,
  '(a, w) ← m (c_world c); Ret (a, c <| c_world := w |>).

Definition getnum (cap : bytes) : CF Z := lift (agetnum cap).
Definition getflag (cap : bytes) : CF bool := lift (agetflag cap).
Definition getstr (cap : bytes) : CF (option bytes) := λ c,
  r ← agetstr cap (c_area c);
  match r with
  | None => Ret (None, c)
  | Some (s, area) => Ret (Some (until_nul s), c <| c_area := area |>)
  end.

Definition MAYHAVE (cap : bytes) (def : Z) : CF Z :=
  v ← getnum cap; mret (if v <? 0 then def else v).

(** [if (bad) exit(1)] *)
Definition check (ok : bool) : CF unit := if ok then skip else exit 1.

(** ** Interface *)

Definition conf_interface (intface : bytes) (rai : rainfo) : CF rainfo :=
  nolladdr ← getflag (cstr "nolladdr");
  let rai := rai <| rai_advlinkopt := if nolladdr : bool then 0 else 1 |> in
  rai ← (if truthy (rai_advlinkopt rai) then
           sdl ← lift (if_nametosdl (k_iflist_fuel K) (k_iflist K) intface);
           match sdl with
           | Some (Some sdl) => mret (rai <| rai_sdl := Some sdl |> <| rai_ifindex := sdl_index sdl |>)
           | Some None => exit 1
           | None => lift Crash
           end
         else mret (rai <| rai_ifindex := k_if_nametoindex K intface |>));
  let rai := rai <| rai_ifname := take 15 intface |> in
  let mtu := if_getmtu (k_mtus K) (k_siocgifmtu K) intface in
  mret (rai <| rai_phymtu := if mtu =? 0 then IPV6_MMTU else mtu |>).

(** ** Router variables *)

Definition conf_intervals (rai : rainfo) : CF rainfo :=
  val ← MAYHAVE (cstr "maxinterval") DEF_MAXRTRADVINTERVAL;
  _ ← check ((MIN_MAXINTERVAL <=? val) && (val <=? MAX_MAXINTERVAL));
  let rai := rai <| rai_maxinterval := u32 val |> in
  val ← MAYHAVE (cstr "mininterval") (rai_maxinterval rai / 3);
  _ ← check ((MIN_MININTERVAL <=? val) && (val <=? u32 (rai_maxinterval rai * 3) / 4));
  mret (rai <| rai_mininterval := u32 val |>).

(** The flags given as a string, for the router and for a route. *)
Definition preference_flags (flagstr : bytes) (val : Z) : CF Z :=
  let val := if strchr flagstr "h" then Z.lor val ND_RA_FLAG_RTPREF_HIGH else val in
  if strchr flagstr "l" then
    _ ← check (Z.land val ND_RA_FLAG_RTPREF_HIGH =? 0);
    mret (Z.lor val ND_RA_FLAG_RTPREF_LOW)
  else mret val.

Definition conf_flags (rai : rainfo) : CF rainfo :=
  val ← MAYHAVE (cstr "chlim") DEF_ADVCURHOPLIMIT;
  let rai := rai <| rai_hoplimit := Z.land val 0xff |> in
  flagstr ← getstr (cstr "raflags");
  val ← match flagstr with
        | Some f =>
            let val := if strchr f "m" then ND_RA_FLAG_MANAGED else 0 in
            let val := if strchr f "o" then Z.lor val ND_RA_FLAG_OTHER else val in
            preference_flags f val
        | None => MAYHAVE (cstr "raflags") 0
        end;
  let rai := rai <| rai_managedflg := Z.land val ND_RA_FLAG_MANAGED |>
                 <| rai_otherflg := Z.land val ND_RA_FLAG_OTHER |>
                 <| rai_rtpref := Z.land val ND_RA_FLAG_RTPREF_MASK |> in
  _ ← check (negb (rai_rtpref rai =? ND_RA_FLAG_RTPREF_RSV));
  mret rai.

Definition conf_lifetime (forwarding : Z) (rai : rainfo) : CF rainfo :=
  val ← MAYHAVE (cstr "rltime") (u32 (rai_maxinterval rai * 3));
  _ ← check ((val =? 0) || ((rai_maxinterval rai <=? val) && (val <=? MAXROUTERLIFETIME)));
  _ ← check ((val =? 0) || negb (forwarding =? 0));
  mret (rai <| rai_lifetime := Z.land val 0xffff |>).

Definition conf_timers (rai : rainfo) : CF rainfo :=
  val ← MAYHAVE (cstr "rtime") 0;
  _ ← check ((0 <=? val) && (val <=? MAXREACHABLETIME));
  let rai := rai <| rai_reachabletime := u32 val |> in
  val64 ← MAYHAVE (cstr "retrans") 0;
  _ ← check ((0 <=? val64) && (val64 <=? 0xffffffff));
  let rai := rai <| rai_retranstimer := u32 val64 |> in
  hapref ← getnum (cstr "hapref");
  hatime ← (if hapref =? -1 then getnum (cstr "hatime") else mret 0);
  _ ← check ((hapref =? -1) && (hatime =? -1));
  val ← MAYHAVE (cstr "clockskew") 0;
  mret (rai <| rai_clockskew := val |>).

(** ** Prefixes *)

Definition conf_addr (addr : bytes) : CF in6_addr :=
  match k_inet_pton K addr with Some a => mret a | None => exit 1 end.

(** A lifetime in 32 bits, and when it expires if it is counted down. *)
Definition conf_pfx_lifetime (i : Z) (name decr : string) (def : Z) : CF (Z * Z) :=
  val64 ← MAYHAVE (makeentry i name) def;
  _ ← check ((0 <=? val64) && (val64 <=? 0xffffffff));
  d ← getflag (makeentry i decr);
  if d : bool then now ← io gettimeofday; mret (u32 val64, tv_sec now + u32 val64)
  else mret (u32 val64, 0).

Definition conf_prefix (i : Z) (rai : rainfo) : CF rainfo :=
  addr ← getstr (makeentry i "addr");
  match addr with
  | None => mret rai
  | Some addr =>
      c ← get;
      let pid := w_next (c_world c) in
      _ ← io (modify (λ w, w <| w_next := S (w_next w) |>));
      a ← conf_addr addr;
      _ ← check (negb (IN6_IS_ADDR_MULTICAST a));
      plen ← MAYHAVE (makeentry i "prefixlen") 64;
      _ ← check ((0 <=? plen) && (plen <=? 128));
      flagstr ← getstr (makeentry i "pinfoflags");
      val ← match flagstr with
            | Some f =>
                let val := if strchr f "l" then ND_OPT_PI_FLAG_ONLINK else 0 in
                mret (if strchr f "a" then Z.lor val ND_OPT_PI_FLAG_AUTO else val)
            | None => MAYHAVE (makeentry i "pinfoflags") (Z.lor ND_OPT_PI_FLAG_ONLINK ND_OPT_PI_FLAG_AUTO)
            end;
      '(vltime, vltimeexpire) ← conf_pfx_lifetime i "vltime" "vltimedecr" DEF_ADVVALIDLIFETIME;
      '(pltime, pltimeexpire) ← conf_pfx_lifetime i "pltime" "pltimedecr" DEF_ADVPREFERREDLIFETIME;
      let pfx := Pfx pid (rai_id rai) None vltime vltimeexpire pltime pltimeexpire
                   (Z.land val ND_OPT_PI_FLAG_ONLINK) (Z.land val ND_OPT_PI_FLAG_AUTO) plen
                   PREFIX_FROM_CONFIG a in
      mret (rai <| rai_prefix := pfx :: rai_prefix rai |> <| rai_pfxs := rai_pfxs rai + 1 |>)
  end.

(** [for (i = -1; i < n; i++)] *)
Fixpoint conf_all (f : Z → rainfo → CF rainfo) (l : list Z) (rai : rainfo) : CF rainfo :=
  match l with
  | [] => mret rai
  | i :: l => rai ← f i rai; conf_all f l rai
  end.
Definition from_minus_one (n : nat) : list Z := -1 :: seqZ 0 (Z.of_nat n).

(** The octets of the address under the mask, zero where the mask ends. *)
Fixpoint sweep (a m : bytes) : bytes :=
  match a, m with
  | [], _ => []
  | x :: a, y :: m => Z.land x y :: sweep a m
  | _ :: a, [] => 0 :: sweep a []
  end.

(** One address of [getifaddrs]. *)
Definition get_prefix_one (rai : rainfo) (ifa : ifaddr) : IO rainfo :=
  if negb (bool_decide (ifa_name ifa = rai_ifname rai)) then mret rai else
  if negb (ifa_family ifa =? AF_INET6) then mret rai else
  if IN6_IS_ADDR_LINKLOCAL (ifa_addr ifa) then mret rai else
  let plen := prefixlen (ifa_netmask ifa) in
  if (plen <=? 0) || (128 <? plen) then exit 1 else
  if plen =? 128 then mret rai else
  if find_prefix (rai_prefix rai) (ifa_addr ifa) plen is Some _ then mret rai else
  w ← get;
  _ ← modify (λ w, w <| w_next := S (w_next w) |>);
  let pfx := Pfx (w_next w) (rai_id rai) None DEF_ADVVALIDLIFETIME 0 DEF_ADVPREFERREDLIFETIME 0
               1 1 plen PREFIX_FROM_KERNEL (sweep (ifa_addr ifa) (ifa_netmask ifa)) in
  mret (rai <| rai_prefix := pfx :: rai_prefix rai |> <| rai_pfxs := rai_pfxs rai + 1 |>).

Fixpoint get_prefix_loop (ifas : list ifaddr) (rai : rainfo) : IO rainfo :=
  match ifas with
  | [] => mret rai
  | ifa :: ifas => rai ← get_prefix_one rai ifa; get_prefix_loop ifas rai
  end.
Definition get_prefix (rai : rainfo) : IO rainfo :=
  match k_ifaddrs K with
  | None => exit 1
  | Some ifas => get_prefix_loop ifas rai
  end.

(** ** MTU *)

Definition conf_mtu (rai : rainfo) : CF rainfo :=
  val ← MAYHAVE (cstr "mtu") 0;
  _ ← check ((0 <=? val) && (val <=? 0xffffffff));
  let rai := rai <| rai_linkmtu := u32 val |> in
  if rai_linkmtu rai =? 0 then
    mtustr ← getstr (cstr "mtu");
    mret match mtustr with
         | Some m => if bool_decide (m = cstr "auto") then rai <| rai_linkmtu := u32 (rai_phymtu rai) |> else rai
         | None => rai
         end
  else
    _ ← check ((IPV6_MMTU <=? rai_linkmtu rai) && (rai_linkmtu rai <=? u32 (rai_phymtu rai)));
    mret rai.

(** ** Routes *)

(** A number under its name, or under its obsolete name. *)
Definition MAYHAVE2 (i : Z) (name obsolete : string) (none def : Z) : CF Z :=
  val ← MAYHAVE (makeentry i name) none;
  if val =? none then
    val ← MAYHAVE (makeentry i obsolete) none;
    mret (if val =? none then def else val)
  else mret val.

Definition conf_route (i : Z) (rai : rainfo) : CF rainfo :=
  addr ← getstr (makeentry i "rtprefix");
  addr ← match addr with Some a => mret (Some a) | None => getstr (makeentry i "rtrprefix") end;
  match addr with
  | None => mret rai
  | Some addr =>
      a ← conf_addr addr;
      plen ← MAYHAVE2 i "rtplen" "rtrplen" 256 64;
      _ ← check ((0 <=? plen) && (plen <=? 128));
      flagstr ← getstr (makeentry i "rtflags");
      val ← match flagstr with
            | Some f => preference_flags f 0
            | None => MAYHAVE2 i "rtflags" "rtrflags" 256 0
            end;
      let rtpref := Z.land val ND_RA_FLAG_RTPREF_MASK in
      _ ← check (negb (rtpref =? ND_RA_FLAG_RTPREF_RSV));
      val64 ← MAYHAVE2 i "rtltime" "rtrltime" (-1) (rai_lifetime rai);
      _ ← check ((0 <=? val64) && (val64 <=? 0xffffffff));
      mret (rai <| rai_route := Rti (u32 val64) rtpref plen a :: rai_route rai |>
                <| rai_routes := rai_routes rai + 1 |>)
  end.

(** ** Name servers and search domains *)

(** The string numbered [i]; if there is only one, its name may lack the
    number. *)
Definition numbered (n : Z) (i : Z) (name : string) : CF bytes :=
  s ← getstr (makeentry i name);
  s ← match s with
      | Some s => mret (Some s)
      | None => if n =? 1 then getstr (makeentry (-1) name) else mret None
      end;
  match s with Some s => mret s | None => exit 1 end.

(** From [n - 1] down to 0, each put at the front. *)
Fixpoint conf_rdnss_loop (total : Z) (n : nat) (l : list in6_addr) : CF (list in6_addr) :=
  match n with
  | O => mret l
  | S i =>
      addr ← numbered total (Z.of_nat i) "rdnssaddr";
      a ← conf_addr addr;
      _ ← check (negb (IN6_IS_ADDR_MULTICAST a));
      conf_rdnss_loop total i (a :: l)
  end.

Definition conf_rdnss (rai : rainfo) : CF rainfo :=
  val ← MAYHAVE (cstr "rdnsslifetime") (u32 (2 * rai_maxinterval rai));
  let rai := rai <| rai_rdnss_lifetime := u32 val |> in
  v ← getnum (cstr "rdnssaddrs");
  let rdnss_length := s32 v in
  if rdnss_length <? 0 then mret (rai <| rai_rdnss_length := 0 |>) else
  let rai := rai <| rai_rdnss_length := rdnss_length |> in
  l ← conf_rdnss_loop rdnss_length (Z.to_nat rdnss_length) [];
  mret (rai <| rai_rdnss_list := l |>).

Fixpoint trim_dots (s : bytes) : bytes :=
  match s with
  | [] => []
  | c :: s' => if c =? DOT then trim_dots s' else s
  end.
(** Without the leading and the trailing dots. *)
Definition trim (s : bytes) : bytes := reverse (trim_dots (reverse (trim_dots s))).

Fixpoint conf_dnssl_loop (total : Z) (n : nat) (l : list bytes) (option_length : Z) :
    CF (list bytes * Z) :=
  match n with
  | O => mret (l, option_length)
  | S i =>
      domain ← numbered total (Z.of_nat i) "dnssldomain";
      let domain := trim domain in
      if (0 <? length domain)%nat
      then conf_dnssl_loop total i (domain :: l) (u32 (option_length + (Z.of_nat (length domain) + 2)))
      else conf_dnssl_loop total i l option_length
  end.

(** To the next multiple of 8. *)
Definition pad8 (x : Z) : Z := u32 (x + (8 - Z.land x 0x7)).

Definition conf_dnssl (rai : rainfo) : CF rainfo :=
  val ← MAYHAVE (cstr "dnssllifetime") (u32 (2 * rai_maxinterval rai));
  let rai := rai <| rai_dnssl_lifetime := u32 val |> <| rai_dnssl_option_length := 8 |> in
  v ← getnum (cstr "dnssldomains");
  let dnssl_length := s32 v in
  if dnssl_length <? 0 then mret (rai <| rai_dnssl_length := 0 |>) else
  let rai := rai <| rai_dnssl_length := dnssl_length |> in
  '(l, len) ← conf_dnssl_loop dnssl_length (Z.to_nat dnssl_length) [] 8;
  mret (rai <| rai_dnssl_list := l |> <| rai_dnssl_option_length := pad8 len |>).

(** ** Captive portal and NAT64 prefix *)

Definition conf_capport (rai : rainfo) : CF rainfo :=
  capport ← getstr (cstr "capport");
  mret match capport with
       | None => rai
       | Some url =>
           let len := Z.of_nat (length url) in
           rai <| rai_capport := Some url |> <| rai_capport_length := len |>
               <| rai_capport_option_length := pad8 (2 + len) |>
       end.

Definition conf_pref64 (rai : rainfo) : CF rainfo :=
  pref64 ← getstr (cstr "pref64addr");
  match pref64 with
  | None => mret rai
  | Some addr =>
      a ← conf_addr addr;
      let rai := rai <| rai_pref64_addr := a |> <| rai_pref64_specified := true |> in
      len ← MAYHAVE (cstr "pref64len") 64;
      match pref64_prefix_length_get_plc len with
      | None => exit 1
      | Some plc =>
          let rai := rai <| rai_pref64_prefix_length := u8 len |> in
          val ← getnum (cstr "pref64lifetime");
          let dflt := u32 (rai_maxinterval rai * 3) in
          _ ← check ((val <? 0) || (val <=? ND_OPT_PREF64_LIFETIME_MAX));
          let val := if val <? 0
                     then (if ND_OPT_PREF64_LIFETIME_MAX <? dflt then ND_OPT_PREF64_LIFETIME_MAX else dflt)
                     else val in
          let rem := Z.land val ND_OPT_PREF64_PLC_MASK in
          let val := if rem =? 0 then val else val + (8 - rem) in
          mret (rai <| rai_pref64_lifetime_plc := u16 (Z.lor val plc) |>)
      end
  end.

(** ** The whole *)

(** The fields of a fresh interface. *)
Definition conf_rainfo (intface : bytes) (rai : rainfo) : CF rainfo :=
  rai ← conf_interface intface rai;
  rai ← conf_intervals rai;
  rai ← conf_flags rai;
  rai ← conf_lifetime (k_forwarding K) rai;
  rai ← conf_timers rai;
  rai ← conf_all conf_prefix (from_minus_one MAXPREFIX) rai;
  rai ← (if rai_pfxs rai =? 0 then io (get_prefix rai) else mret rai);
  rai ← conf_mtu rai;
  rai ← conf_all conf_route (from_minus_one MAXROUTE) rai;
  rai ← conf_rdnss rai;
  rai ← conf_dnssl rai;
  rai ← conf_capport rai;
  conf_pref64 rai.

(** Allocation, configuration, and the start of the advertisements. The value
    of the sysctl is kept in a static variable: [k_forwarding] is that value. *)
Definition getconfig_with (intface : bytes) : IO unit := λ w,
  if k_forwarding K <? 0 then Exit 1 else
  let id := w_next w in
  '(rai, c) ← conf_rainfo intface (zero_rainfo id) (Cfg 0 (w <| w_next := S (w_next w) |>));
  (_ ← modify (λ w, w <| ralist := rai :: ralist w |>);
   _ ← w_make_packet id;
   start_ra_timer id) (c_world c).

End config.

(** [getconfig] reads the entry of the interface first; without an entry it
    works on an empty one. The result is also the new [hopcount]. *)
Definition getconfig `{Env} (K : answers) (file : option bytes) (fresh : bytes) (gap : nat → Z)
    (hopcount : nat) (intface : bytes) : IO (option nat) :=
  r ← lift (tgetent file fresh gap hopcount fresh intface);
  match r with
  | None => mret None
  | Some (stat, tbuf, hopcount) =>
      let tbuf := if stat <=? 0 then replicate BUFSIZ 0 else tbuf in
      _ ← @getconfig_with _ (tbuf_db tbuf) K intface;
      mret (Some hopcount)
  end.
