(* ===== verification/ConfigArea.v ===== *)
(** * ConfigArea: the lookups of [getconfig] stay in their buffers
    (rtadvd.tproj/config.c, rtadvd.tproj/advcap.c)

    [getconfig] copies every string it looks up into one area of BUFSIZ
    octets that [agetstr] does not check. Here the area is accounted for: a
    run of the configuration copies the string of each capability at most
    once, so it faults only if the entry is malformed or if the strings of
    pairwise different capabilities do not fit the area together. The strings
    of a well-formed entry that fits the buffer of [tgetent] always do. *)

From stdpp Require Import pretty.
From S2P Require Import Prelude Timeval In6 NdOpt RaTimer RtMsg Rainfo.
From S2P Require Import RaState RaInv RaOps Advcap Rrenum Rtadvd Config.

(** ** The capabilities *)

(** A capability: its name, and its number (negative if it has none). *)
Abbreviation cap := (string * Z)%type.
Definition cap_of (k : cap) : bytes := makeentry k.2 k.1.

(** The strings that [getconfig] looks up. *)
Definition string_names : list string :=
  ["raflags"; "addr"; "pinfoflags"; "mtu"; "rtprefix"; "rtrprefix"; "rtflags";
   "rdnssaddr"; "dnssldomain"; "capport"; "pref64addr"].

(** A name in letters and digits. *)
Definition alnum (c : Z) : bool := ((97 <=? c) && (c <=? 122)) || ((48 <=? c) && (c <=? 57)).
Definition name_ok (b : string) : bool :=
  negb (bool_decide (cstr b = [])) && forallb alnum (cstr b).
Definition cap_ok (k : cap) : Prop := name_ok k.1 = true ∧ -1 <= k.2.
Definition str_ok (k : cap) : Prop := k.1 ∈ string_names ∧ -1 <= k.2.

(** What the area of a string depends on: a string is copied whole, with its
    terminator, whatever the area holds already. *)
Class AreaLaws (D : CapDb) : Prop := {
  area_law : ∀ id area s area', agetstr id area = Ret (Some (s, area')) →
    area' = (area + (length s + 1))%nat ∧ agetstr id 0 = Ret (Some (s, (length s + 1)%nat)) }.

Section area.
Context `{D : CapDb}.

Definition cost (k : cap) : nat :=
  match agetstr (cap_of k) 0 with
  | Ret (Some (s, _)) => length s + 1
  | _ => 0
  end.
Definition area_of (ks : list cap) : nat := sum_list (cost <$> ks).

(** A lookup accesses memory outside of the entry, or the strings of different
    capabilities run over the area. *)
Definition area_fault : Prop :=
  (∃ k, cap_ok k ∧ agetnum (cap_of k) = Crash) ∨
  (∃ k, cap_ok k ∧ agetflag (cap_of k) = Crash) ∨
  (∃ k ks, NoDup (k :: ks) ∧ Forall str_ok (k :: ks) ∧ agetstr (cap_of k) (area_of ks) = Crash).

(** The area holds the strings of different capabilities, all in [P]. *)
Definition holds (P : cap → Prop) (c : cfg) : Prop :=
  ∃ ks, NoDup ks ∧ Forall str_ok ks ∧ Forall P ks ∧ c_area c = area_of ks.

Definition fills {A} (P : cap → Prop) (m : CF A) (P' : cap → Prop) : Prop := ∀ c,
  holds P c → match m c with Ret (_, c') => holds P' c' | Exit _ => True | Crash => area_fault end.

(** One string more. *)
Definition with_cap (k : cap) (P : cap → Prop) : cap → Prop := λ k', k' = k ∨ P k'.

Lemma holds_weaken P P' c : (∀ k, P k → P' k) → holds P c → holds P' c.
Proof. intros HP (ks & ? & ? & Hk & ?). exists ks. split_and!; auto. by eapply Forall_impl. Qed.
Lemma holds_world P c w : holds P c → holds P (c <| c_world := w |>).
Proof. done. Qed.

Lemma fills_bind {A B} P P' P'' (m : CF A) (f : A → CF B) :
  fills P m P' → (∀ a, fills P' (f a) P'') → fills P (m ≫= f) P''.
Proof.
  intros Hm Hf c Hc. specialize (Hm c Hc). unfold mbind, ST_bind.
  destruct (m c) as [[a c']| |]; [by apply Hf|done..].
Qed.
Lemma fills_then {A B} P P' (m : CF A) (f : A → CF B) :
  fills P m P → (∀ a, fills P (f a) P') → fills P (m ≫= f) P'.
Proof. apply fills_bind. Qed.
Lemma fills_ret {A} (P P' : cap → Prop) (a : A) : (∀ k, P k → P' k) → fills P (mret a) P'.
Proof. intros HP c Hc. by eapply holds_weaken. Qed.
Lemma fills_keep {A} P (a : A) : fills P (mret a) P.
Proof. by apply fills_ret. Qed.
Lemma fills_weaken {A} (P P0 P1 P' : cap → Prop) (m : CF A) :
  (∀ k, P k → P0 k) → fills P0 m P1 → (∀ k, P1 k → P' k) → fills P m P'.
Proof.
  intros H0 Hm H1 c Hc. specialize (Hm c (holds_weaken _ _ _ H0 Hc)).
  destruct (m c) as [[a c']| |]; [|done..]. by eapply holds_weaken.
Qed.
Lemma fills_exit {A} P P' n : fills P (exit n : CF A) P'.
Proof. by intros c Hc. Qed.
Lemma fills_check P b : fills P (check b) P.
Proof. intros c Hc. by destruct b. Qed.
Lemma fills_get P : fills P get P.
Proof. by intros c Hc. Qed.

(** Calls that leave the area alone, and do not fault. *)
Lemma fills_io {A} P (m : IO A) : (∀ w, m w ≠ Crash) → fills P (io m) P.
Proof.
  intros Hm c Hc. specialize (Hm (c_world c)). unfold io, mbind, outcome_bind.
  by destruct (m (c_world c)) as [[a w]| |].
Qed.
Lemma fills_lift {A B} P P' (m : outcome A) a (f : A → CF B) :
  m = Ret a → fills P (f a) P' → fills P (lift m ≫= f) P'.
Proof. intros ->. done. Qed.

Lemma fills_getnum P b i : name_ok b = true → -1 <= i → fills P (getnum (makeentry i b)) P.
Proof.
  intros Hb Hi c Hc. unfold getnum, lift. destruct (agetnum (makeentry i b)) eqn:E; simpl; [done..|].
  left. by exists (b, i).
Qed.
Lemma fills_getflag P b i : name_ok b = true → -1 <= i → fills P (getflag (makeentry i b)) P.
Proof.
  intros Hb Hi c Hc. unfold getflag, lift. destruct (agetflag (makeentry i b)) eqn:E; simpl; [done..|].
  right. left. by exists (b, i).
Qed.
Lemma fills_mayhave P b i def : name_ok b = true → -1 <= i → fills P (MAYHAVE (makeentry i b) def) P.
Proof. intros. eapply fills_bind; [by apply fills_getnum|]. intros. apply fills_keep. Qed.

(** A string that was not copied before. *)
Lemma fills_getstr `{!AreaLaws D} P b i :
  b ∈ string_names → -1 <= i → ¬ P (b, i) → fills P (getstr (makeentry i b)) (with_cap (b, i) P).
Proof.
  intros Hb Hi Hn c (ks & Hd & Hok & HP & Ha). unfold getstr.
  assert (Hk : (b, i) ∉ ks) by (rewrite Forall_forall in HP; intros ?; by apply Hn, HP).
  destruct (agetstr (makeentry i b) (c_area c)) as [[[s a]|]| |] eqn:E; simpl; [|..|done|].
  - apply area_law in E as [-> E]. exists ((b, i) :: ks). split_and!.
    + by apply NoDup_cons.
    + by constructor.
    + constructor; [by left|]. eapply Forall_impl; [exact HP|]. by right.
    + simpl. unfold area_of. csimpl. unfold cost at 1, cap_of. simpl. rewrite E. unfold area_of in Ha. lia.
  - exists ks. split_and!; auto. eapply Forall_impl; [exact HP|]. by right.
  - right. right. exists (b, i), ks. rewrite <- Ha. split_and!; [by apply NoDup_cons|by constructor|done].
Qed.

End area.

(** ** The stages *)

(** The capabilities named in [U], and those named in [L] with a number below [n]. *)
Definition upto (U L : list string) (n : Z) : cap → Prop :=
  λ k, k.1 ∈ U ∨ (k.1 ∈ L ∧ k.2 < n).
(** Those named in [U], and those named [b] that a loop down to [n] looks up. *)
Definition down (U : list string) (b : string) (total n : Z) : cap → Prop :=
  λ k, k.1 ∈ U ∨ (k.1 = b ∧ (n <= k.2 ∨ (total = 1 ∧ n = 0 ∧ k.2 = -1))).
Definition only (U : list string) : cap → Prop := λ k, k.1 ∈ U.

Ltac cap_tac :=
  unfold with_cap, upto, down, only in *; simpl in *;
  repeat match goal with
         | H : _ ∈ _ :: _ |- _ => apply elem_of_cons in H
         | H : _ ∈ [] |- _ => apply elem_of_nil in H
         | H : _ ∨ _ |- _ => destruct H
         | H : _ ∧ _ |- _ => destruct H
         end; simplify_eq/=; rewrite ?elem_of_cons, ?elem_of_nil; first [done|lia|naive_solver lia].

Section stages.
Context `{Env} `{D : CapDb} `{!AreaLaws D} (K : answers).

Lemma fills_num P b : name_ok b = true → fills P (getnum (cstr b)) P.
Proof. intros Hb. by apply (fills_getnum P b (-1)). Qed.
Lemma fills_flag P b : name_ok b = true → fills P (getflag (cstr b)) P.
Proof. intros Hb. by apply (fills_getflag P b (-1)). Qed.
Lemma fills_may P b def : name_ok b = true → fills P (MAYHAVE (cstr b) def) P.
Proof. intros Hb. by apply (fills_mayhave P b (-1)). Qed.
Lemma fills_str P b : b ∈ string_names → ¬ P (b, -1) → fills P (getstr (cstr b)) (with_cap (b, -1) P).
Proof. intros Hb Hn. by apply (fills_getstr P b (-1)). Qed.
Lemma fills_addr P s : fills P (conf_addr K s) P.
Proof. intros c Hc. unfold conf_addr. by destruct (k_inet_pton K s). Qed.

End stages.

(** One call of a stage. *)
Ltac fprim :=
  first
    [ apply fills_keep | apply fills_exit | apply fills_check | apply fills_get | apply fills_addr
    | apply fills_num; reflexivity | apply fills_flag; reflexivity | apply fills_may; reflexivity
    | apply fills_getnum; [reflexivity|lia] | apply fills_getflag; [reflexivity|lia]
    | apply fills_mayhave; [reflexivity|lia]
    | apply fills_str; [by apply (bool_decide_eq_true_1 (_ ∈ _))|let Hc := fresh in intros Hc; cap_tac]
    | apply fills_getstr; [by apply (bool_decide_eq_true_1 (_ ∈ _))|lia|let Hc := fresh in intros Hc; cap_tac]
    | apply fills_io; done ].
Ltac fstep :=
  match goal with
  | |- fills _ (mret _) _ => apply fills_ret; intros; cap_tac
  | |- fills _ (exit _) _ => apply fills_exit
  | |- fills _ (_ ≫= _) _ => eapply fills_bind; [fprim|intros ?]
  | |- fills _ (if ?b then _ else _) _ => destruct b
  | |- fills _ (match ?o with Some _ => _ | None => _ end) _ => destruct o
  end.
Ltac ftac := cbv zeta; repeat (fstep; cbv zeta).

Section conf.
Context `{Env} `{D : CapDb} `{!AreaLaws D} (K : answers) (intface : bytes).
Context (Hsdl : ∃ r, if_nametosdl (k_iflist_fuel K) (k_iflist K) intface = Ret (Some r)).

Lemma conf_interface_fills r P : fills P (conf_interface K intface r) P.
Proof.
  unfold conf_interface. fstep. cbv zeta. apply fills_then; [|intros; apply fills_keep].
  destruct Hsdl as [o Eo]. destruct a; simpl; [apply fills_keep|].
  eapply fills_lift; [exact Eo|]. destruct o; [apply fills_keep|apply fills_exit].
Qed.

Lemma conf_intervals_fills r P : fills P (conf_intervals r) P.
Proof. unfold conf_intervals. ftac. Qed.

Lemma preference_flags_fills f val P : fills P (preference_flags f val) P.
Proof. unfold preference_flags. ftac. Qed.

Lemma conf_flags_fills r : fills (only []) (conf_flags r) (only ["raflags"]).
Proof.
  unfold conf_flags. fstep. cbv zeta. fstep.
  apply fills_then; [|intros; ftac].
  destruct a0; [apply preference_flags_fills|fprim].
Qed.

Lemma conf_lifetime_fills fwd r P : fills P (conf_lifetime fwd r) P.
Proof. unfold conf_lifetime. ftac. Qed.

Lemma conf_timers_fills r P : fills P (conf_timers r) P.
Proof.
  unfold conf_timers. do 4 (fstep; cbv zeta). fstep.
  apply fills_then; [|intros; ftac]. destruct (_ =? -1); fprim.
Qed.

(** The loops over numbered capabilities. *)
Lemma conf_all_fills f U L n :
  (∀ i r, -1 <= i → fills (upto U L i) (f i r) (upto U L (i + 1))) →
  ∀ r, fills (only U) (conf_all f (from_minus_one n) r) (only (L ++ U)).
Proof.
  intros Hf r. assert (G : ∀ n i r, -1 <= i →
    fills (upto U L i) (conf_all f (seqZ i (Z.of_nat n)) r) (upto U L (i + Z.of_nat n))).
  { clear n r. induction n as [|n IH]; intros i r Hi.
    - apply fills_ret. intros k. unfold upto. by rewrite Z.add_0_r.
    - rewrite seqZ_cons by lia. cbn [conf_all]. eapply fills_bind; [by apply Hf|]. intros r'.
      replace (Z.pred (Z.of_nat (S n))) with (Z.of_nat n) by lia.
      replace (i + Z.of_nat (S n)) with (i + 1 + Z.of_nat n) by lia. apply IH. lia. }
  specialize (G (S n) (-1) r ltac:(lia)). rewrite seqZ_cons in G by lia.
  replace (Z.pred (Z.of_nat (S n))) with (Z.of_nat n) in G by lia.
  eapply fills_weaken; [|exact G|]; unfold only, upto; [by left|].
  intros k [?|[? _]]; apply elem_of_app; auto.
Qed.

Lemma conf_pfx_lifetime_fills i name decr def P :
  -1 <= i → name_ok name = true → name_ok decr = true →
  fills P (conf_pfx_lifetime i name decr def) P.
Proof.
  intros Hi H1 H2. unfold conf_pfx_lifetime. apply fills_then; [by apply fills_mayhave|]. intros v.
  fstep. apply fills_then; [by apply fills_getflag|]. intros []; ftac.
Qed.

Lemma conf_prefix_fills U i r :
  -1 <= i → "addr" ∉ U → "pinfoflags" ∉ U →
  fills (upto U ["addr"; "pinfoflags"] i) (conf_prefix K i r) (upto U ["addr"; "pinfoflags"] (i + 1)).
Proof.
  intros Hi H1 H2. unfold conf_prefix. fstep. fstep; [|ftac].
  do 7 (fstep; cbv zeta).
  apply fills_then; [destruct a5; fprim|]. intros val.
  do 2 (apply fills_then; [by apply conf_pfx_lifetime_fills|]; intros [? ?]). ftac.
Qed.

Lemma get_prefix_one_crash r ifa w : get_prefix_one r ifa w ≠ Crash.
Proof. unfold get_prefix_one. cbv zeta. by repeat case_match. Qed.

Lemma get_prefix_crash r w : get_prefix K r w ≠ Crash.
Proof.
  unfold get_prefix. destruct (k_ifaddrs K) as [l|]; [|done]. revert r w.
  induction l as [|ifa l IH]; intros r w; [done|]. cbn [get_prefix_loop]. unfold mbind, ST_bind.
  pose proof (get_prefix_one_crash r ifa w). destruct (get_prefix_one r ifa w) as [[r' w']| |]; [apply IH|done..].
Qed.

Lemma conf_mtu_fills U r : "mtu" ∉ U → fills (only U) (conf_mtu r) (only ("mtu" :: U)).
Proof. intros Hm. unfold conf_mtu. ftac. Qed.

Lemma mayhave2_fills P i name obs none def :
  -1 <= i → name_ok name = true → name_ok obs = true → fills P (MAYHAVE2 i name obs none def) P.
Proof.
  intros Hi H1 H2. unfold MAYHAVE2. apply fills_then; [by apply fills_mayhave|]. intros v.
  destruct (v =? none); [|apply fills_keep].
  apply fills_then; [by apply fills_mayhave|]. intros. apply fills_keep.
Qed.

Lemma conf_route_fills U i r :
  -1 <= i → "rtprefix" ∉ U → "rtrprefix" ∉ U → "rtflags" ∉ U →
  fills (upto U ["rtprefix"; "rtrprefix"; "rtflags"] i) (conf_route K i r)
    (upto U ["rtprefix"; "rtrprefix"; "rtflags"] (i + 1)).
Proof.
  intros Hi H1 H2 H3. unfold conf_route. fstep.
  set (P := with_cap ("rtrprefix", i) (with_cap ("rtprefix", i) (upto U ["rtprefix"; "rtrprefix"; "rtflags"] i))).
  apply (fills_bind _ P); [destruct a; [apply fills_ret; by right|fprim]|].
  intros o. destruct o as [addr|]; [|unfold P; ftac].
  fstep. apply fills_then; [by apply mayhave2_fills|]. intros plen. fstep. unfold P. fstep.
  apply fills_then; [destruct a2; [apply preference_flags_fills|by apply mayhave2_fills]|]. intros val. cbv zeta.
  fstep. apply fills_then; [by apply mayhave2_fills|]. intros lt. ftac.
Qed.

Lemma numbered_fills U b total i :
  b ∈ string_names → b ∉ U → 0 <= i → i + 1 <= total →
  fills (down U b total (i + 1)) (numbered total i b) (down U b total i).
Proof.
  intros Hb Hn Hi Ht. unfold numbered. eapply fills_bind.
  { apply fills_getstr; [done|lia|]. intros Hc. cap_tac. }
  intros o. apply (fills_bind _ (down U b total i)).
  - destruct o; [apply fills_ret; intros; cap_tac|].
    destruct (Z.eqb_spec total 1) as [->|]; [|apply fills_ret; intros; cap_tac].
    eapply fills_weaken; [intros k Hk; exact Hk| |].
    { apply fills_getstr; [done|lia|]. intros Hc. cap_tac. }
    intros [b' i'] Hk. cap_tac.
  - intros [s|]; ftac.
Qed.

Lemma conf_rdnss_loop_fills U total n : ∀ l,
  "rdnssaddr" ∉ U → Z.of_nat n <= total →
  fills (down U "rdnssaddr" total (Z.of_nat n)) (conf_rdnss_loop K total n l) (only ("rdnssaddr" :: U)).
Proof.
  induction n as [|n IH]; intros l Hn Ht; cbn [conf_rdnss_loop]; [apply fills_ret; intros; cap_tac|].
  replace (Z.of_nat (S n)) with (Z.of_nat n + 1) in * by lia. eapply fills_bind.
  { apply numbered_fills; [by apply (bool_decide_eq_true_1 (_ ∈ _))|done|lia|done]. }
  intros s. fstep. fstep. apply IH; [done|lia].
Qed.

Lemma conf_dnssl_loop_fills U total n : ∀ l len,
  "dnssldomain" ∉ U → Z.of_nat n <= total →
  fills (down U "dnssldomain" total (Z.of_nat n)) (conf_dnssl_loop total n l len) (only ("dnssldomain" :: U)).
Proof.
  induction n as [|n IH]; intros l len Hn Ht; cbn [conf_dnssl_loop]; [apply fills_ret; intros; cap_tac|].
  replace (Z.of_nat (S n)) with (Z.of_nat n + 1) in * by lia. eapply fills_bind.
  { apply numbered_fills; [by apply (bool_decide_eq_true_1 (_ ∈ _))|done|lia|done]. }
  intros s. cbv zeta. case_match; apply IH; auto; lia.
Qed.

Lemma only_down U b total n : ∀ k, only U k → down U b total n k.
Proof. unfold only, down. auto. Qed.

Lemma conf_rdnss_fills U r : "rdnssaddr" ∉ U → fills (only U) (conf_rdnss K r) (only ("rdnssaddr" :: U)).
Proof.
  intros Hn. unfold conf_rdnss. do 2 (fstep; cbv zeta).
  destruct (Z.ltb_spec (s32 a0) 0); [ftac|]. apply (fills_bind _ (only ("rdnssaddr" :: U))); [|intros; ftac].
  eapply fills_weaken; [apply only_down|apply conf_rdnss_loop_fills; [done|]|done]. lia.
Qed.

Lemma conf_dnssl_fills U r : "dnssldomain" ∉ U → fills (only U) (conf_dnssl r) (only ("dnssldomain" :: U)).
Proof.
  intros Hn. unfold conf_dnssl. do 2 (fstep; cbv zeta).
  destruct (Z.ltb_spec (s32 a0) 0); [ftac|].
  apply (fills_bind _ (only ("dnssldomain" :: U))); [|intros [? ?]; ftac].
  eapply fills_weaken; [apply only_down|apply conf_dnssl_loop_fills; [done|]|done]. lia.
Qed.

Lemma conf_capport_fills U r : "capport" ∉ U → fills (only U) (conf_capport r) (only ("capport" :: U)).
Proof. intros Hn. unfold conf_capport. ftac. Qed.

Lemma conf_pref64_fills U r : "pref64addr" ∉ U → fills (only U) (conf_pref64 K r) (only ("pref64addr" :: U)).
Proof. intros Hn. unfold conf_pref64. ftac. Qed.

Ltac fresh_name := by apply (bool_decide_eq_true_1 (_ ∉ _)).

Lemma conf_rainfo_fills r : fills (only []) (conf_rainfo K intface r) (λ _, True).
Proof.
  unfold conf_rainfo.
  apply fills_then; [apply conf_interface_fills|]. intros. apply fills_then; [apply conf_intervals_fills|]. intros.
  eapply fills_bind; [apply conf_flags_fills|]. intros. apply fills_then; [apply conf_lifetime_fills|]. intros.
  apply fills_then; [apply conf_timers_fills|]. intros.
  eapply fills_bind; [apply conf_all_fills; intros; apply conf_prefix_fills; [done|fresh_name..]|]. intros.
  apply fills_then; [destruct (_ =? 0); [apply fills_io, get_prefix_crash|apply fills_keep]|]. intros.
  eapply fills_bind; [apply conf_mtu_fills; fresh_name|]. intros.
  eapply fills_bind; [apply conf_all_fills; intros; apply conf_route_fills; [done|fresh_name..]|]. intros.
  eapply fills_bind; [apply conf_rdnss_fills; fresh_name|]. intros.
  eapply fills_bind; [apply conf_dnssl_fills; fresh_name|]. intros.
  eapply fills_bind; [apply conf_capport_fills; fresh_name|]. intros.
  eapply fills_weaken; [done|apply conf_pref64_fills; fresh_name|done].
Qed.

(** The configuration faults only if the database does. *)
Lemma conf_rainfo_crash r w : conf_rainfo K intface r (Cfg 0 w) = Crash → area_fault.
Proof.
  intros E. pose proof (conf_rainfo_fills r (Cfg 0 w)) as Hf. rewrite E in Hf. apply Hf.
  exists []. by split_and!; try constructor.
Qed.

End conf.

(** ** The names are different *)

Lemma ascii_z_inj c d : ascii_z c = ascii_z d → c = d.
Proof.
  unfold ascii_z. intros E. apply N2Z.inj in E.
  by rewrite <- (Ascii.ascii_N_embedding c), <- (Ascii.ascii_N_embedding d), E.
Qed.
Lemma cstr_inj a b : cstr a = cstr b → a = b.
Proof.
  revert b. induction a as [|c a IH]; intros [|d b]; unfold cstr; csimpl; try done.
  intros [= E1 E2]. apply ascii_z_inj in E1. apply IH in E2. by subst.
Qed.
Lemma cstr_cons c s : cstr (String c s) = ascii_z c :: cstr s.
Proof. done. Qed.

Lemma pretty_N_char_digit x : isdigit (ascii_z (pretty_N_char x)) = true.
Proof. unfold pretty_N_char. by repeat case_match. Qed.
Lemma pretty_go_digits x : ∀ s,
  Forall (λ d, isdigit d = true) (cstr s) → Forall (λ d, isdigit d = true) (cstr (pretty_N_go x s)).
Proof.
  induction (N.lt_wf_0 x) as [x _ IH]; intros s Hs. assert (x = 0 ∨ 0 < x)%N as [->|Hx] by lia; [done|].
  rewrite pretty_N_go_step by done. apply IH; [by apply N.div_lt|].
  rewrite cstr_cons. constructor; [apply pretty_N_char_digit|done].
Qed.
Lemma pretty_digits (n : N) : Forall (λ d, isdigit d = true) (cstr (pretty n)).
Proof.
  unfold pretty, pretty_N. case_decide.
  - by apply Forall_singleton.
  - by apply pretty_go_digits.
Qed.
Lemma pretty_nonempty (n : N) : pretty n ≠ "".
Proof.
  unfold pretty, pretty_N. case_decide; [done|].
  assert (G : ∀ x s, s ≠ "" → pretty_N_go x s ≠ "").
  { intros x. induction (N.lt_wf_0 x) as [x _ IH]; intros s Hs.
    assert (x = 0 ∨ 0 < x)%N as [->|Hx] by lia; [done|].
    rewrite pretty_N_go_step by done. apply IH; [by apply N.div_lt|done]. }
  rewrite pretty_N_go_step by lia. by apply G.
Qed.

(** A name that does not end in a digit, and its number. *)
Lemma suffix_unique (a b ds es : bytes) x y :
  Forall (λ d, isdigit d = true) ds → Forall (λ d, isdigit d = true) es →
  isdigit x = false → isdigit y = false →
  (a ++ [x]) ++ ds = (b ++ [y]) ++ es → a ++ [x] = b ++ [y] ∧ ds = es.
Proof.
  intros Hd He Hx Hy. revert es He.
  induction ds as [|d ds IH] using rev_ind; intros es He E.
  - destruct es as [|e es _] using rev_ind; [by rewrite !app_nil_r in E|].
    rewrite app_nil_r, app_assoc in E. apply app_inj_tail in E as [_ ->].
    apply Forall_app in He as [_ He]. apply Forall_inv in He. cbv beta in He. congruence.
  - apply Forall_app in Hd as [Hd Hd1]. apply Forall_inv in Hd1. cbv beta in Hd1.
    destruct es as [|e es _] using rev_ind.
    + rewrite app_nil_r, app_assoc in E. apply app_inj_tail in E as [_ ->]. congruence.
    + rewrite !(app_assoc _ _ [_]) in E. apply app_inj_tail in E as [E ->].
      apply Forall_app in He as [He _]. destruct (IH Hd es He E) as [? ->]. done.
Qed.

Definition number_of (i : Z) : bytes := if i <? 0 then [] else cstr (pretty (Z.to_N i)).
Lemma cap_of_app k : cap_of k = cstr k.1 ++ number_of k.2.
Proof. unfold cap_of, makeentry, number_of. case_match; [by rewrite app_nil_r|done]. Qed.
Lemma number_of_digits i : Forall (λ d, isdigit d = true) (number_of i).
Proof. unfold number_of. case_match; [done|apply pretty_digits]. Qed.
Lemma number_of_inj i j : -1 <= i → -1 <= j → number_of i = number_of j → i = j.
Proof.
  unfold number_of. intros Hi Hj. destruct (Z.ltb_spec i 0), (Z.ltb_spec j 0); [lia|..].
  - intros E. symmetry in E. apply (cstr_inj _ "") in E. by apply pretty_nonempty in E.
  - intros E. apply (cstr_inj _ "") in E. by apply pretty_nonempty in E.
  - intros E%cstr_inj. apply (inj pretty) in E. lia.
Qed.

Lemma string_name_ends b : b ∈ string_names → ∃ a x, cstr b = a ++ [x] ∧ isdigit x = false.
Proof.
  intros Hb. assert (G : Forall (λ b, 
    default true (isdigit <$> last (cstr b)) = false) string_names) by (by repeat apply Forall_cons_2).
  rewrite Forall_forall in G. pose proof (G b Hb) as Hd. cbv beta in Hd. destruct (last (cstr b)) as [x|] eqn:E; [|done].
  apply last_Some in E as [a E]. by exists a, x.
Qed.

Lemma cap_of_inj k k' : str_ok k → str_ok k' → cap_of k = cap_of k' → k = k'.
Proof.
  destruct k as [b i], k' as [b' i']. intros [Hb Hi] [Hb' Hi'] E. rewrite !cap_of_app in E. simpl in *.
  destruct (string_name_ends b Hb) as (a & x & Ea & Hx), (string_name_ends b' Hb') as (a' & x' & Ea' & Hx').
  rewrite Ea, Ea' in E. apply suffix_unique in E as [E1 E2]; auto using number_of_digits.
  rewrite <- Ea, <- Ea' in E1. apply cstr_inj in E1 as ->. apply number_of_inj in E2 as ->; auto.
Qed.

(** ** The database of advcap.c *)

Lemma tgetstr_loop_area tbuf id area fuel : ∀ bp s area',
  tgetstr_loop tbuf fuel id bp area = Ret (Some (s, area')) →
  area' = (area + (length s + 1))%nat ∧ tgetstr_loop tbuf fuel id bp 0 = Ret (Some (s, (length s + 1)%nat)).
Proof.
  induction fuel as [|fuel IH]; intros bp s area'; [done|]. cbn [tgetstr_loop].
  destruct (tskip tbuf bp) as [q| |]; [|done..]. cbn [mbind outcome_bind].
  destruct (chr tbuf q) as [c| |]; [|done..]. cbn [mbind outcome_bind]. destruct (c =? 0); [done|].
  destruct (id_at tbuf id q) as [m| |]; [|done..]. cbn [mbind outcome_bind].
  destruct (negb m); [apply IH|]. cbv zeta.
  destruct (chr tbuf _) as [d| |]; [|done..]. cbn [mbind outcome_bind]. destruct (d =? AT); [done|].
  destruct (negb _); [apply IH|]. unfold tdecode.
  destruct (open_quote tbuf _ _) as [[p t]| |]; [|done..]. cbn [mbind outcome_bind].
  destruct (decode_loop tbuf _ p t) as [s'| |]; [|done..]. cbn [mbind outcome_bind].
  destruct (Nat.ltb_spec BUFSIZ (area + length s' + 1)); [done|]. simpl. intros [= -> <-].
  rewrite (proj2 (Nat.ltb_ge _ _)) by lia. split; [lia|done].
Qed.

#[export] Instance tbuf_area tbuf : AreaLaws (tbuf_db tbuf).
Proof. split. intros id area s area'. apply tgetstr_loop_area. Qed.

(** ** Well-formed entries *)

Lemma alnum_plain c : alnum c = true → plain c.
Proof.
  unfold alnum, plain, byte_ok. intros Hc. split; [lia|].
  rewrite !elem_of_cons, elem_of_nil.
  unfold NEWLINE, DQUOTE, HASH, COLON, EQUALS, AT, BACKSLASH, CARET, BAR. lia.
Qed.

Lemma cap_of_plain k : cap_ok k → Forall plain (cap_of k) ∧ cap_of k ≠ [].
Proof.
  intros [Hn _]. unfold name_ok in Hn. apply andb_prop in Hn as [Hne Ha]. rewrite cap_of_app. split.
  - apply Forall_app. split.
    + apply Forall_forall. intros c Hc. apply alnum_plain. rewrite forallb_forall in Ha.
      by apply Ha, list_elem_of_In.
    + eapply Forall_impl; [apply number_of_digits|]. apply digit_plain.
  - intros [E _]%app_nil. apply negb_true_iff, bool_decide_eq_false in Hne. done.
Qed.
Lemma str_cap k : str_ok k → cap_ok k.
Proof.
  intros [Hb Hi]. split; [|done]. assert (G : Forall (λ b, name_ok b = true) string_names)
    by (by repeat apply Forall_cons_2). rewrite Forall_forall in G. by apply G.
Qed.

(** What the strings of an entry need. *)
Definition field_area (f : field) : nat := match f with Str _ s => length s + 1 | _ => 0 end.
Definition fields_area (fs : list field) : nat := sum_list (field_area <$> fs).
Definition str_area (fs : list field) (id : bytes) : nat :=
  match lookup_str id fs with Some s => length s + 1 | None => 0 end.

Lemma sum_override (g : bytes → nat) i a ids : NoDup ids →
  (sum_list ((λ id, if bool_decide (i = id) then a else g id) <$> ids) <= a + sum_list (g <$> ids))%nat.
Proof.
  induction 1 as [|id ids Hid Hd IH]; csimpl; [lia|]. case_bool_decide as E; [|lia]. subst id.
  assert (E : ((λ id, if bool_decide (i = id) then a else g id) <$> ids) = g <$> ids).
  { apply list_fmap_ext. intros n id Hn. case_bool_decide; [|done]. subst.
    destruct Hid. by eapply list_elem_of_lookup_2. }
  rewrite E. lia.
Qed.

Lemma str_area_total fs ids : NoDup ids → (sum_list (str_area fs <$> ids) <= fields_area fs)%nat.
Proof.
  intros Hd. induction fs as [|f fs IH].
  - clear Hd. induction ids; [simpl; lia|]. csimpl. done.
  - unfold fields_area in *. csimpl. destruct f as [i ds|i|i s]; simpl; [exact IH..|].
    etransitivity; [|apply Nat.add_le_mono_l, IH].
    etransitivity; [|apply (sum_override (str_area fs) i (length s + 1) ids Hd)].
    apply Nat.eq_le_incl. f_equal. apply list_fmap_ext. intros n id _. unfold str_area. simpl.
    by case_bool_decide.
Qed.

Lemma fields_area_entry names fs : (fields_area fs <= length (entry_bytes names fs))%nat.
Proof.
  unfold entry_bytes. rewrite length_app. simpl.
  assert ((fields_area fs <= length (concat ((λ f, field_bytes f ++ [COLON]) <$> fs)))%nat); [|lia].
  induction fs as [|f fs IH]; [done|]. unfold fields_area in *. csimpl. rewrite !length_app.
  destruct f; simpl; rewrite ?length_app; simpl; rewrite ?length_app; lia.
Qed.

Section entry.
Context (names : bytes) (fs : list field) (post : bytes).
Context (Hn : Forall seg_char names) (Hw : Forall field_wf fs).
Let D : CapDb := tbuf_db (entry_bytes names fs ++ 0 :: post).

Lemma cost_entry k : str_ok k → (fields_area fs <= BUFSIZ)%nat → cost (D:=D) k = str_area fs (cap_of k).
Proof.
  intros Hk Hf. destruct (cap_of_plain k (str_cap k Hk)) as [Hp Hne]. unfold cost, str_area, D.
  cbn [agetstr tbuf_db]. rewrite (tgetstr_entry names fs post Hn Hw _ 0 Hp Hne).
  pose proof (str_area_total fs [cap_of k] ltac:(apply NoDup_singleton)) as Ht. csimpl in Ht. unfold str_area in Ht.
  destruct (lookup_str (cap_of k) fs) as [s|]; [|done]. by rewrite (proj2 (Nat.ltb_ge _ _)) by lia.
Qed.

(** The strings of the entry fit the area, in whatever order they are read. *)
Lemma entry_no_fault : (fields_area fs <= BUFSIZ)%nat → ¬ area_fault (D:=D).
Proof.
  intros Hf [(k & Hk & E)|[(k & Hk & E)|(k & ks & Hd & Hok & E)]].
  - destruct (cap_of_plain k Hk). unfold D in E. cbn [agetnum tbuf_db] in E. by rewrite tgetnum_entry in E.
  - destruct (cap_of_plain k Hk). unfold D in E. cbn [agetflag tbuf_db] in E. by rewrite tgetflag_entry in E.
  - pose proof (Forall_inv Hok) as Hk. destruct (cap_of_plain k (str_cap k Hk)) as [Hp Hne].
    unfold D in E. cbn [agetstr tbuf_db] in E. rewrite tgetstr_entry in E by done.
    assert (Hs : (sum_list (str_area fs <$> (cap_of <$> k :: ks)) <= fields_area fs)%nat).
    { apply str_area_total. apply NoDup_fmap_2_strong; [|done]. rewrite Forall_forall in Hok.
      intros. apply cap_of_inj; auto. }
    assert (Ea : area_of (D:=D) ks = sum_list (str_area fs <$> (cap_of <$> ks))).
    { unfold area_of. rewrite <- list_fmap_compose. f_equal. apply list_fmap_ext. intros n k' Hk'.
      apply cost_entry; [|done]. apply Forall_inv_tail in Hok. rewrite Forall_forall in Hok.
      by eapply Hok, list_elem_of_lookup_2. }
    fold D in E. rewrite Ea in E. csimpl in Hs. unfold str_area at 1 in Hs.
    destruct (lookup_str (cap_of k) fs) as [s|]; [|done].
    rewrite (proj2 (Nat.ltb_ge _ _)) in E by lia. done.
Qed.

End entry.
