(* ===== verification/ConfigSafe.v ===== *)
(** * ConfigSafe: the configuration of an interface is safe

    [getconfig] either exits with status 1 or leaves the daemon in the
    invariant of RaInv.v with one interface more, whose router variables are
    in the ranges of RFC 4861. It is proved against the interface of the
    capability database (class [CapLaws]), which the lookups of Advcap.v
    satisfy on any buffer. That the lookups themselves stay in their buffers
    is the subject of ConfigArea.v. *)

From S2P Require Import Prelude Timeval In6 NdOpt RaTimer RtMsg Rainfo.
From S2P Require Import RaState RaInv RaOps Advcap Rrenum Rtadvd RtadvdSafe.
From S2P Require Import Config ConfigArea.

(** ** What the database promises *)

Definition no_exit {A} (m : outcome A) : Prop := match m with Exit _ => False | _ => True end.

(** A string is copied, with its terminator, into an area of BUFSIZ octets. *)
Class CapLaws (D : CapDb) : Prop := {
  num_law : ∀ cap, no_exit (agetnum cap);
  flag_law : ∀ cap, no_exit (agetflag cap);
  str_law : ∀ cap area,
    match agetstr cap area with
    | Ret (Some (s, area')) => bytes_ok s ∧ area' = (area + length s + 1)%nat ∧ (area' <= BUFSIZ)%nat
    | Exit _ => False
    | _ => True
    end }.

(** ** The lookups of advcap.c satisfy it *)

Lemma no_exit_bind {A B} (m : outcome A) (f : A → outcome B) :
  no_exit m → (∀ a, no_exit (f a)) → no_exit (m ≫= f).
Proof. destruct m; simpl; auto. Qed.

Ltac no_exit_tac :=
  repeat first
    [ done
    | assumption
    | match goal with
      | IH : ∀ _, no_exit _ |- _ => apply IH
      | IH : ∀ _ _, no_exit _ |- _ => apply IH
      | |- no_exit (_ ≫= _) => apply no_exit_bind; [|intros ?]
      | |- no_exit (if ?b then _ else _) => destruct b
      | |- no_exit (let '(_, _) := ?p in _) => destruct p
      | |- no_exit (match ?o with Some _ => _ | None => _ end) => destruct o
      end
    | solve [auto with no_exit] ].
Create HintDb no_exit.

Section tbuf.
Context (tbuf : bytes).

Lemma chr_no_exit p : no_exit (chr tbuf p).
Proof. unfold chr. by destruct (rd8 tbuf p). Qed.
#[local] Hint Resolve chr_no_exit : no_exit.

Lemma skip_digits_no_exit fuel : ∀ bp, no_exit (skip_digits tbuf fuel bp).
Proof. induction fuel as [|fuel IH]; intros bp; cbn [skip_digits]; no_exit_tac. Qed.
#[local] Hint Resolve skip_digits_no_exit : no_exit.

Lemma tskip_loop_no_exit fuel : ∀ bp d, no_exit (tskip_loop tbuf fuel bp d).
Proof. induction fuel as [|fuel IH]; intros bp d; cbn [tskip_loop]; no_exit_tac. Qed.
Lemma tskip_no_exit bp : no_exit (tskip tbuf bp).
Proof. apply tskip_loop_no_exit. Qed.
#[local] Hint Resolve tskip_no_exit : no_exit.

Lemma id_at_no_exit id : ∀ bp, no_exit (id_at tbuf id bp).
Proof. induction id as [|n id IH]; intros bp; cbn [id_at]; no_exit_tac. Qed.
#[local] Hint Resolve id_at_no_exit : no_exit.

Lemma number_no_exit base fuel : ∀ bp i, no_exit (number tbuf fuel base bp i).
Proof. induction fuel as [|fuel IH]; intros bp i; cbn [number]; no_exit_tac. Qed.
#[local] Hint Resolve number_no_exit : no_exit.

Lemma tgetnum_no_exit id fuel : ∀ bp, no_exit (tgetnum_loop tbuf fuel id bp).
Proof. induction fuel as [|fuel IH]; intros bp; cbn [tgetnum_loop]; cbv zeta; no_exit_tac. Qed.

Lemma tgetflag_no_exit id fuel : ∀ bp, no_exit (tgetflag_loop tbuf fuel id bp).
Proof. induction fuel as [|fuel IH]; intros bp; cbn [tgetflag_loop]; cbv zeta; no_exit_tac. Qed.

Lemma decode_char_no_exit c p : no_exit (decode_char tbuf c p).
Proof. unfold decode_char, octal. cbv zeta. no_exit_tac. Qed.
Lemma open_quote_no_exit p t : no_exit (open_quote tbuf p t).
Proof. unfold open_quote. no_exit_tac. Qed.
#[local] Hint Resolve decode_char_no_exit open_quote_no_exit : no_exit.

Lemma decode_loop_no_exit fuel : ∀ p t, no_exit (decode_loop tbuf fuel p t).
Proof. induction fuel as [|fuel IH]; intros p t; cbn [decode_loop]; no_exit_tac. Qed.
#[local] Hint Resolve decode_loop_no_exit : no_exit.

Lemma tgetstr_no_exit id area fuel : ∀ bp, no_exit (tgetstr_loop tbuf fuel id bp area).
Proof.
  induction fuel as [|fuel IH]; intros bp; cbn [tgetstr_loop]; unfold tdecode; cbv zeta; no_exit_tac.
Qed.

Lemma decode_loop_ok fuel : ∀ p t, on_ret (decode_loop tbuf fuel p t) bytes_ok.
Proof.
  induction fuel as [|fuel IH]; intros p t; [done|]. cbn [decode_loop].
  apply (on_ret_bind _ _ (λ _, True)); [by destruct (chr _ _)|]. intros c _.
  destruct (_ || _); [destruct (_ && _)|].
  - apply (on_ret_bind _ _ (λ _, True)); [by destruct (open_quote _ _ _)|]. intros [p' t'] _. apply IH.
  - apply Forall_nil_2.
  - apply (on_ret_bind _ _ (λ _, True)); [by destruct (decode_char _ _ _)|]. intros [x p'] _.
    apply (on_ret_bind _ _ bytes_ok); [apply IH|]. intros s Hs. constructor; [apply u8_ok|done].
Qed.

Lemma tdecode_ok p area : on_ret (tdecode tbuf p area) (λ '(s, area'),
  bytes_ok s ∧ area' = (area + length s + 1)%nat ∧ (area' <= BUFSIZ)%nat).
Proof.
  unfold tdecode. apply (on_ret_bind _ _ (λ _, True)); [by destruct (open_quote _ _ _)|]. intros [q t] _.
  apply (on_ret_bind _ _ bytes_ok); [apply decode_loop_ok|]. intros s Hs.
  destruct (Nat.ltb_spec BUFSIZ (area + length s + 1)); [done|]. simpl. auto.
Qed.

Lemma tgetstr_ok id area fuel : ∀ bp, on_ret (tgetstr_loop tbuf fuel id bp area) (λ r,
  match r with
  | Some (s, area') => bytes_ok s ∧ area' = (area + length s + 1)%nat ∧ (area' <= BUFSIZ)%nat
  | None => True
  end).
Proof.
  induction fuel as [|fuel IH]; intros bp; [done|]. cbn [tgetstr_loop].
  apply (on_ret_bind _ _ (λ _, True)); [by destruct (tskip _ _)|]. intros q _.
  apply (on_ret_bind _ _ (λ _, True)); [by destruct (chr _ _)|]. intros c _.
  destruct (c =? 0); [done|].
  apply (on_ret_bind _ _ (λ _, True)); [by destruct (id_at _ _ _)|]. intros [] _; [|apply IH]. cbv zeta. simpl.
  apply (on_ret_bind _ _ (λ _, True)); [by destruct (chr _ _)|]. intros d _.
  destruct (d =? AT); [done|]. destruct (negb _); [apply IH|].
  eapply on_ret_bind; [apply tdecode_ok|]. intros [s a] Hs. exact Hs.
Qed.

#[export] Instance tbuf_laws : CapLaws (tbuf_db tbuf).
Proof.
  split.
  - intros cap. apply tgetnum_no_exit.
  - intros cap. apply tgetflag_no_exit.
  - intros cap area. pose proof (tgetstr_ok cap area (S (length tbuf)) 0) as Hs.
    pose proof (tgetstr_no_exit cap area (S (length tbuf)) 0) as He.
    change (agetstr cap area) with (tgetstr_loop tbuf (S (length tbuf)) cap 0 area).
    destruct (tgetstr_loop _ _ _ _ _) as [[[s a]|]| |]; auto.
Qed.

End tbuf.

(** ** Running the configuration *)

(** The answers of the kernel and of the C library are well formed. *)
Record answers_ok (K : answers) (intface : bytes) : Prop := {
  ok_inet_pton : ∀ s a, k_inet_pton K s = Some a → addr_ok a;
  ok_sdl : ∃ r, if_nametosdl (k_iflist_fuel K) (k_iflist K) intface = Ret (Some r) ∧
    ∀ sdl, r = Some sdl → sdl_type sdl = IFT_ETHER → (6 <= length (LLADDR sdl))%nat ∧ bytes_ok (LLADDR sdl);
  ok_ifaddrs : ∀ l, k_ifaddrs K = Some l →
    Forall (λ i, addr_ok (ifa_addr i) ∧ bytes_ok (ifa_netmask i)) l }.

Section run.
Context `{Env} `{D : CapDb} `{!CapLaws D} (K : answers) (intface : bytes) (HK : answers_ok K intface).

(** If [m] returns, it does so in [Q], and it exits only with status 1. (When
    a lookup faults is the subject of ConfigArea.v.) *)
Definition csafe {A} (c : cfg) (m : CF A) (Q : A → cfg → Prop) : Prop :=
  match m c with
  | Ret (a, c') => Q a c'
  | Exit n => n = 1
  | Crash => True
  end.

Lemma csafe_bind {A B} c (m : CF A) (f : A → CF B) R Q :
  csafe c m R → (∀ a c', R a c' → csafe c' (f a) Q) → csafe c (m ≫= f) Q.
Proof.
  intros Hm Hf. unfold csafe in *. unfold mbind, ST_bind.
  destruct (m c) as [[a c']| |]; [by apply Hf|done..].
Qed.

Lemma csafe_step {A B} c (m : CF A) (f : A → CF B) Q :
  csafe c m (λ a c', csafe c' (f a) Q) → csafe c (m ≫= f) Q.
Proof. intros Hm. by eapply csafe_bind. Qed.

Lemma csafe_ret {A} c (a : A) (Q : A → cfg → Prop) : Q a c → csafe c (mret a) Q.
Proof. done. Qed.
Lemma csafe_lift {A} c (m : outcome A) a (Q : A → cfg → Prop) : m = Ret a → Q a c → csafe c (lift m) Q.
Proof. by intros ->. Qed.
Lemma csafe_exit {A} c (Q : A → cfg → Prop) : csafe c (exit 1) Q.
Proof. done. Qed.

Lemma csafe_getnum c cap (Q : Z → cfg → Prop) :
  (∀ v, agetnum cap = Ret v → Q v c) → csafe c (getnum cap) Q.
Proof.
  intros HQ. unfold csafe, getnum, lift. pose proof (num_law cap) as Hn.
  destruct (agetnum cap) eqn:E; simpl; [by apply HQ|by destruct Hn|done].
Qed.

Lemma csafe_getflag c cap Q : (∀ v, Q v c) → csafe c (getflag cap) Q.
Proof.
  intros HQ. unfold csafe, getflag, lift. pose proof (flag_law cap) as Hn.
  destruct (agetflag cap) eqn:E; simpl; [done|by destruct Hn|done].
Qed.

Lemma until_nul_ok s : bytes_ok s → bytes_ok (until_nul s).
Proof. induction 1 as [|x l ? _ IH]; simpl; [constructor|]. destruct (x =? 0); auto with netcmds. Qed.
Lemma until_nul_length s : (length (until_nul s) <= length s)%nat.
Proof. induction s as [|x s IH]; simpl; [lia|]. destruct (x =? 0); simpl; lia. Qed.

(** A string uses up a part of the area. *)
Lemma csafe_getstr c cap (Q : option bytes → cfg → Prop) :
  (c_area c <= BUFSIZ)%nat → Q None c →
  (∀ s a, bytes_ok s → (c_area c + length s + 1 <= a <= BUFSIZ)%nat → Q (Some s) (c <| c_area := a |>)) →
  csafe c (getstr cap) Q.
Proof.
  intros Ha H0 HQ. unfold csafe, getstr. pose proof (str_law cap (c_area c)) as Hl.
  destruct (agetstr cap (c_area c)) as [[[s a]|]| |] eqn:E; simpl; [|done|by destruct Hl|done].
  destruct Hl as (Hs & -> & Hb). apply HQ; [by apply until_nul_ok|]. pose proof (until_nul_length s). lia.
Qed.

Lemma csafe_mayhave c cap def Q : (∀ v, 0 <= v ∨ v = def → Q v c) → csafe c (MAYHAVE cap def) Q.
Proof.
  intros HQ. eapply csafe_bind; [apply (csafe_getnum c cap (λ _ c', c' = c)); done|].
  intros v c' ->. apply csafe_ret, HQ. destruct (Z.ltb_spec v 0); auto.
Qed.

Lemma csafe_check c b (Q : unit → cfg → Prop) : (b = true → Q tt c) → csafe c (check b) Q.
Proof. intros HQ. destruct b; [by apply HQ|done]. Qed.

Lemma csafe_weaken {A} c (m : CF A) (Q Q' : A → cfg → Prop) :
  csafe c m Q → (∀ a c', Q a c' → Q' a c') → csafe c m Q'.
Proof. unfold csafe. destruct (m c) as [[a c']| |]; auto. Qed.

Lemma csafe_conf_addr c s (Q : in6_addr → cfg → Prop) :
  (∀ a, addr_ok a → Q a c) → csafe c (conf_addr K s) Q.
Proof.
  intros HQ. unfold conf_addr. destruct (k_inet_pton K s) as [a|] eqn:E; [|apply csafe_exit].
  apply csafe_ret, HQ. by eapply ok_inet_pton.
Qed.

(** ** The invariant of an interface under construction *)

Context (w0 : world).

(** The fields other than the prefixes that the rest of the daemon relies on. *)
Definition core (r : rainfo) : (Z * (Z * Z)) * (Z * Z) * Z * Z :=
  (rai_ifindex r, (rai_managedflg r, rai_otherflg r), (rai_maxinterval r, rai_mininterval r),
   rai_rtpref r, rai_lifetime r).

(** A link MTU is announced only if the link can carry it. *)
Definition mtu_ok (r : rainfo) : Prop :=
  rai_linkmtu r = 0 ∨ rai_linkmtu r = u32 (rai_phymtu r) ∨
  (IPV6_MMTU <= rai_linkmtu r <= u32 (rai_phymtu r)).

Record draft (c : cfg) (r : rainfo) : Prop := {
  dr_id : rai_id r = w_next w0;
  dr_timer : rai_timer r = None;
  dr_wf : rai_wf r;
  dr_mtu : mtu_ok r;
  dr_nodup : NoDup (pfx_id <$> rai_prefix r);
  dr_pfx : Forall (λ p, pfx_rainfo p = w_next w0 ∧ pfx_timer p = None ∧
    (w_next w0 < pfx_id p < w_next (c_world c))%nat) (rai_prefix r);
  dr_area : (c_area c <= BUFSIZ)%nat;
  dr_world : ∃ t n, c_world c = w0 <| w_tick := t |> <| w_next := n |> ∧ (w_next w0 < n)%nat }.

Lemma draft_area c r a : draft c r → (a <= BUFSIZ)%nat → draft (c <| c_area := a |>) r.
Proof. intros [] Ha. by constructor. Qed.

End run.

(** Assignments to fields that [draft] does not mention. *)
Ltac draft_tac :=
  match goal with
  | Hd : draft _ _ ?r |- draft _ _ _ =>
      let Hw := fresh "Hw" in
      destruct Hd as [? ? Hw ? ? ? ? ?]; destruct Hw;
      constructor; simpl; auto; lazymatch goal with
        | |- rai_wf _ => constructor; simpl; auto
        | _ => idtac
        end
  end.

(** One step of a configuration. *)
Ltac cstep :=
  apply csafe_step;
  first [ apply csafe_mayhave; intros ? ?
        | apply csafe_getnum; intros ? ?
        | apply csafe_getflag; intros ?
        | apply csafe_check; let Hc := fresh "Hc" in intros Hc
        | apply csafe_getstr; [|..|intros ? ? ? ?] ].

Section stages.
Context `{Env} `{D : CapDb} `{!CapLaws D} (K : answers) (intface : bytes) (HK : answers_ok K intface).
Context (w0 : world).

Lemma conf_interface_safe c r :
  draft w0 c r → rai_linkmtu r = 0 →
  csafe c (conf_interface K intface r) (λ r' c', draft w0 c' r').
Proof.
  intros Hd Hm. unfold conf_interface. cstep. destruct (ok_sdl _ _ HK) as (o & Eo & Ho).
  apply csafe_step. destruct v; simpl.
  - apply csafe_ret, csafe_ret. draft_tac. by left.
  - apply csafe_step. eapply csafe_lift; [exact Eo|]. destruct o as [sdl|]; [|done].
    apply csafe_ret, csafe_ret. draft_tac; [by eauto|by left].
Qed.

Definition intervals_ok (r : rainfo) : Prop :=
  MIN_MAXINTERVAL <= rai_maxinterval r <= MAX_MAXINTERVAL ∧
  MIN_MININTERVAL <= rai_mininterval r <= rai_maxinterval r * 3 / 4.

Lemma conf_intervals_safe c r :
  draft w0 c r → csafe c (conf_intervals r) (λ r' c', draft w0 c' r' ∧ intervals_ok r').
Proof.
  intros Hd. unfold conf_intervals. cstep. cstep. cstep. cstep. apply csafe_ret. split; [draft_tac|].
  unfold intervals_ok, MIN_MAXINTERVAL, MAX_MAXINTERVAL, MIN_MININTERVAL, u32 in *. simpl in *.
  repeat match goal with H : _ && _ = true |- _ => apply andb_prop in H as [? ?] end. zlia.
Qed.

Definition rtpref_ok (r : rainfo) : Prop :=
  Z.land (rai_rtpref r) ND_RA_FLAG_RTPREF_MASK = rai_rtpref r ∧ rai_rtpref r ≠ ND_RA_FLAG_RTPREF_RSV.

Lemma preference_flags_safe c f val (Q : Z → cfg → Prop) :
  (∀ v, Q v c) → csafe c (preference_flags f val) Q.
Proof.
  intros HQ. unfold preference_flags. destruct (strchr f "l"); [|by apply csafe_ret].
  cstep. by apply csafe_ret.
Qed.

Lemma conf_flags_safe c r :
  draft w0 c r → intervals_ok r →
  csafe c (conf_flags r) (λ r' c', draft w0 c' r' ∧ intervals_ok r' ∧ rtpref_ok r').
Proof.
  intros Hd Hi. unfold conf_flags. cstep.
  assert (G : ∀ c' val, draft w0 c' r →
    csafe c' (let rai := r <| rai_hoplimit := Z.land v 0xff |> <| rai_managedflg := Z.land val ND_RA_FLAG_MANAGED |>
                 <| rai_otherflg := Z.land val ND_RA_FLAG_OTHER |>
                 <| rai_rtpref := Z.land val ND_RA_FLAG_RTPREF_MASK |> in
              _ ← check (negb (rai_rtpref rai =? ND_RA_FLAG_RTPREF_RSV)); mret rai)
      (λ r' c', draft w0 c' r' ∧ intervals_ok r' ∧ rtpref_ok r')).
  { intros c' val Hd'. cbv zeta. cstep. apply csafe_ret. split_and!; [draft_tac|done|].
    split; simpl; [by rewrite <- Z.land_assoc|]. by apply negb_true_iff, Z.eqb_neq in Hc. }
  cstep; [apply Hd|..].
  - cstep. by apply G.
  - apply csafe_step, preference_flags_safe. intros val. apply G, draft_area; [done|lia].
Qed.

Definition lifetime_ok (r : rainfo) : Prop :=
  rai_lifetime r = 0 ∨ (rai_maxinterval r <= rai_lifetime r <= MAXROUTERLIFETIME ∧ k_forwarding K ≠ 0).

Lemma conf_lifetime_safe c r :
  draft w0 c r → intervals_ok r → rtpref_ok r →
  csafe c (conf_lifetime (k_forwarding K) r)
    (λ r' c', draft w0 c' r' ∧ intervals_ok r' ∧ rtpref_ok r' ∧ lifetime_ok r').
Proof.
  intros Hd Hi Hp. unfold conf_lifetime. cstep. cstep. cstep. apply csafe_ret. split_and!; [draft_tac|done..|].
  unfold lifetime_ok, MAXROUTERLIFETIME in *. destruct Hi as [Hi _]. unfold MIN_MAXINTERVAL in Hi. simpl.
  destruct (Z.eqb_spec v 0) as [->|Hv]; [by left|]. right. simpl in *.
  apply andb_prop in Hc as [? ?]. change 0xffff with (Z.ones 16). rewrite Z.land_ones by lia.
  rewrite Z.mod_small by lia. apply negb_true_iff, Z.eqb_neq in Hc0. split; [lia|done].
Qed.

Lemma conf_timers_safe c r :
  draft w0 c r → csafe c (conf_timers r) (λ r' c', draft w0 c' r' ∧ core r' = core r).
Proof.
  intros Hd. unfold conf_timers. cstep. cstep. cstep. cstep. cstep. cbv zeta.
  apply csafe_step. destruct (_ =? -1).
  - apply csafe_getnum. intros ? _. cstep. cstep. apply csafe_ret. split; [draft_tac|done].
  - apply csafe_ret. cstep. cstep. apply csafe_ret. split; [draft_tac|done].
Qed.

(** ** Prefixes *)

(** Only the clock was read, and strings were copied. *)
Definition moved (c c' : cfg) : Prop :=
  (c_area c' <= BUFSIZ)%nat ∧ ∃ t, c_world c' = c_world c <| w_tick := t |>.

Lemma moved_draft c c' r : moved c c' → draft w0 c r → draft w0 c' r.
Proof.
  intros (Ha & t & Ew) []. constructor; auto.
  - by rewrite Ew.
  - destruct dr_world0 as (t' & n & E & Hn). exists t, n. by rewrite Ew, E.
Qed.
Lemma moved_area c c' a : moved c c' → (a <= BUFSIZ)%nat → moved c (c' <| c_area := a |>).
Proof. by intros (_ & Ht) Ha. Qed.
Lemma moved_refl c r : draft w0 c r → moved c c.
Proof. intros Hd. split; [apply Hd|]. exists (w_tick (c_world c)). by destruct c as [a []]. Qed.

Lemma conf_pfx_lifetime_safe c c' i name decr def (Q : Z * Z → cfg → Prop) :
  moved c c' → (∀ v e c'', u32_ok v → moved c c'' → Q (v, e) c'') →
  csafe c' (conf_pfx_lifetime i name decr def) Q.
Proof.
  intros Hm HQ. unfold conf_pfx_lifetime. cstep. cstep. cstep.
  assert (Hu : u32_ok (u32 v)) by (unfold u32_ok, u32; zlia).
  destruct v0; [|by apply csafe_ret, HQ]. apply csafe_step. unfold csafe, io, gettimeofday. simpl.
  apply HQ; [done|]. destruct Hm as (Ha & t & Ew). split; [done|]. simpl. rewrite Ew. eauto.
Qed.

(** A structure is allocated. *)
Definition alloc (c : cfg) : cfg := c <| c_world := c_world c <| w_next := S (w_next (c_world c)) |> |>.

Lemma alloc_draft c r :
  draft w0 c r → draft w0 (alloc c) r ∧ (w_next w0 < w_next (c_world c) < w_next (c_world (alloc c)))%nat ∧
  Forall (λ p, (pfx_id p < w_next (c_world c))%nat) (rai_prefix r).
Proof.
  intros [? ? ? ? ? Hp ? (t & n & E & Hn)]. simpl. split_and!.
  - constructor; auto.
    + eapply Forall_impl; [exact Hp|]. simpl. intros p (? & ? & ?). split_and!; auto; lia.
    + exists t, (S n). simpl. rewrite E. simpl. split; [done|lia].
  - rewrite E. simpl. lia.
  - lia.
  - eapply Forall_impl; [exact Hp|]. simpl. intros p (? & ? & ?). lia.
Qed.

Lemma draft_link c r q :
  draft w0 c r → Forall (λ p, (pfx_id p < pfx_id q)%nat) (rai_prefix r) →
  pfx_rainfo q = w_next w0 → pfx_timer q = None → (w_next w0 < pfx_id q < w_next (c_world c))%nat →
  pfx_wf q →
  draft w0 c (r <| rai_prefix := q :: rai_prefix r |> <| rai_pfxs := rai_pfxs r + 1 |>).
Proof.
  intros [? ? Hw ? Hn Hp ? ?] Hl Er Et Hid Hq. destruct Hw. constructor; simpl; auto.
  - constructor; simpl; auto. rewrite rai_wf_pfxs. lia.
  - csimpl. apply NoDup_cons. split; [|done]. intros Hin.
    apply list_elem_of_fmap in Hin as (p & E & Hin). rewrite Forall_forall in Hl. specialize (Hl p Hin). lia.
Qed.

Lemma conf_prefix_safe i c r :
  draft w0 c r → csafe c (conf_prefix K i r) (λ r' c', draft w0 c' r' ∧ core r' = core r).
Proof.
  intros Hd. unfold conf_prefix. cstep; [apply Hd|by apply csafe_ret|].
  assert (Hd1 : draft w0 (c <| c_area := a |>) r) by (apply draft_area; [done|lia]).
  apply csafe_step. unfold csafe at 1, get. cbv beta iota. apply csafe_step.
  destruct (alloc_draft _ _ Hd1) as (Hd2 & Hn & Hl).
  unfold csafe at 1, io, modify. cbv beta iota. cbn [mbind outcome_bind].
  match goal with |- csafe ?x _ _ => change x with (alloc (c <| c_area := a |>)) end.
  simpl c_world in Hl. cbn [c_world].
  set (c2 := alloc _) in *. set (pid := w_next (c_world c)) in *.
  apply csafe_step, (csafe_conf_addr _ intface); [done|]. intros addr Ha. cstep. cstep. cstep.
  apply andb_prop in Hc0 as [? ?]. pose proof (moved_refl _ _ Hd2) as Hm.
  assert (G : ∀ c' val, moved c2 c' → csafe c'
    ('(vltime, vltimeexpire) ← conf_pfx_lifetime i "vltime" "vltimedecr" DEF_ADVVALIDLIFETIME;
     '(pltime, pltimeexpire) ← conf_pfx_lifetime i "pltime" "pltimedecr" DEF_ADVPREFERREDLIFETIME;
     let pfx := Pfx pid (rai_id r) None vltime vltimeexpire pltime pltimeexpire
                  (Z.land val ND_OPT_PI_FLAG_ONLINK) (Z.land val ND_OPT_PI_FLAG_AUTO) v
                  PREFIX_FROM_CONFIG addr in
     mret (r <| rai_prefix := pfx :: rai_prefix r |> <| rai_pfxs := rai_pfxs r + 1 |>))
    (λ r' c', draft w0 c' r' ∧ core r' = core r)).
  { intros c' val Hm'. apply csafe_step. eapply conf_pfx_lifetime_safe; [exact Hm'|]. intros vl ve c3 Hvl Hm3.
    apply csafe_step. eapply conf_pfx_lifetime_safe; [exact Hm3|]. intros pl pe c4 Hpl Hm4.
    apply csafe_ret. split; [|done]. destruct Hm4 as (Ha4 & t & E4).
    apply draft_link; simpl; auto; [|apply Hd|by rewrite E4|constructor; simpl; auto; lia].
    eapply moved_draft; [|exact Hd2]. split; eauto. }
  cstep; [apply Hd2|..].
  - cstep. by apply G.
  - apply csafe_step, csafe_ret. apply G, moved_area; [done|lia].
Qed.

Lemma conf_all_safe f l :
  (∀ i c r, draft w0 c r → csafe c (f i r) (λ r' c', draft w0 c' r' ∧ core r' = core r)) →
  ∀ c r, draft w0 c r → csafe c (conf_all f l r) (λ r' c', draft w0 c' r' ∧ core r' = core r).
Proof.
  intros Hf. induction l as [|i l IH]; intros c r Hd; [by apply csafe_ret|]. cbn [conf_all].
  eapply csafe_bind; [by apply Hf|]. intros r1 c1 [Hd1 E1]. simpl in *.
  eapply csafe_weaken; [by apply IH|]. intros r2 c2 [? ?]. split; [done|congruence].
Qed.

Lemma sweep_length a : ∀ m, length (sweep a m) = length a.
Proof. induction a as [|x a IH]; intros [|y m]; simpl; auto. Qed.
Lemma land_byte x y : byte_ok x → byte_ok (Z.land x y).
Proof.
  unfold byte_ok. intros Hx. assert (0 <= Z.land x y) by (apply Z.land_nonneg; lia).
  split; [done|]. replace (Z.land x y) with (Z.land (Z.land x y) (Z.ones 8)).
  - rewrite Z.land_ones by lia. apply Z.mod_pos_bound. lia.
  - rewrite <- Z.land_assoc, (Z.land_comm y), Z.land_assoc, Z.land_ones by lia. by rewrite Z.mod_small by lia.
Qed.
Lemma sweep_ok a : ∀ m, bytes_ok a → bytes_ok (sweep a m).
Proof.
  induction a as [|x a IH]; intros [|y m] Ha; simpl; try constructor; inversion Ha; subst;
    auto using land_byte with netcmds; unfold byte_ok; lia.
Qed.

Lemma get_prefix_one_safe c r ifa :
  draft w0 c r → addr_ok (ifa_addr ifa) → bytes_ok (ifa_netmask ifa) →
  csafe c (io (get_prefix_one r ifa)) (λ r' c', draft w0 c' r' ∧ core r' = core r).
Proof.
  intros Hd [La Ha] Hm. unfold get_prefix_one.
  assert (Hs : csafe c (io (mret r)) (λ r' c', draft w0 c' r' ∧ core r' = core r))
    by (unfold csafe, io; simpl; by destruct c).
  destruct (negb (bool_decide _)); [done|]. destruct (negb (_ =? _)); [done|].
  destruct (IN6_IS_ADDR_LINKLOCAL _); [done|]. cbv zeta.
  destruct ((_ <=? 0) || _) eqn:E1; [done|]. apply orb_false_iff in E1 as [? ?].
  destruct (_ =? 128); [done|]. destruct (find_prefix _ _ _); [exact Hs|].
  destruct (alloc_draft _ _ Hd) as (Hd2 & Hn & Hl).
  unfold csafe, io. cbn [mbind ST_bind get modify mret ST_ret outcome_bind].
  split; [|done]. apply (draft_link (alloc c)); simpl; auto; [apply Hd|].
  constructor; simpl; [|lia|unfold u32_ok, DEF_ADVVALIDLIFETIME; lia|unfold u32_ok, DEF_ADVPREFERREDLIFETIME; lia].
  split; [by rewrite sweep_length|by apply sweep_ok].
Qed.

Lemma csafe_io_bind {A B} c (m : IO A) (f : A → IO B) (Q : B → cfg → Prop) :
  csafe c (a ← io m; io (f a)) Q → csafe c (io (m ≫= f)) Q.
Proof.
  unfold csafe, io, mbind, ST_bind, outcome_bind. destruct (m (c_world c)) as [[a w]| |]; [|done..].
  simpl. by destruct (f a w) as [[]| |].
Qed.

Lemma get_prefix_safe c r :
  draft w0 c r → csafe c (io (get_prefix K r)) (λ r' c', draft w0 c' r' ∧ core r' = core r).
Proof.
  intros Hd. unfold get_prefix. destruct (k_ifaddrs K) as [l|] eqn:El; [|done].
  pose proof (ok_ifaddrs _ _ HK l El) as Hl. clear El. revert c r Hd.
  induction Hl as [|ifa l [Ha Hm] _ IH]; intros c r Hd; cbn [get_prefix_loop].
  - unfold csafe, io. simpl. by destruct c.
  - apply csafe_io_bind. eapply csafe_bind; [by apply get_prefix_one_safe|]. intros r1 c1 [Hd1 E1]. simpl in *.
    eapply csafe_weaken; [by apply IH|]. intros r2 c2 [? ?]. split; [done|congruence].
Qed.

(** ** The link MTU *)

Lemma conf_mtu_safe c r :
  draft w0 c r → csafe c (conf_mtu r) (λ r' c', draft w0 c' r' ∧ core r' = core r).
Proof.
  intros Hd. unfold conf_mtu. cstep. cstep. cbv zeta. simpl. destruct (Z.eqb_spec (u32 v) 0) as [E|E].
  - cstep; [apply Hd|..]; apply csafe_ret.
    + split; [|done]. draft_tac. by left.
    + apply (draft_area _ _ _ a) in Hd; [|lia].
      destruct (bool_decide _); (split; [|done]); draft_tac; [right|]; by left.
  - cstep. apply csafe_ret. split; [|done]. apply andb_prop in Hc0 as [? ?]. draft_tac.
    right. right. simpl. lia.
Qed.

(** ** Routes *)

Lemma mayhave2_safe c i name obs none def (Q : Z → cfg → Prop) :
  (∀ v, Q v c) → csafe c (MAYHAVE2 i name obs none def) Q.
Proof.
  intros HQ. unfold MAYHAVE2. cstep. destruct (_ =? none); [|by apply csafe_ret].
  cstep. by apply csafe_ret.
Qed.

Lemma getstr_any c cap (Q : option bytes → cfg → Prop) r :
  draft w0 c r → (∀ o c', draft w0 c' r → Q o c') → csafe c (getstr cap) Q.
Proof.
  intros Hd HQ. apply csafe_getstr; [apply Hd|by apply HQ|]. intros s a _ Ha.
  apply HQ, draft_area; [done|lia].
Qed.

Lemma conf_route_safe i c r :
  draft w0 c r → csafe c (conf_route K i r) (λ r' c', draft w0 c' r' ∧ core r' = core r).
Proof.
  intros Hd. unfold conf_route. apply csafe_step. eapply getstr_any; [done|]. clear c Hd. intros o c Hd.
  eapply (csafe_bind _ _ _ (λ _ c', draft w0 c' r)).
  { destruct o as [s|]; [by apply csafe_ret|]. by eapply getstr_any; [exact Hd|]. }
  clear o c Hd. intros [addr|] c Hd; [|by apply csafe_ret].
  apply csafe_step, (csafe_conf_addr _ intface); [done|]. intros a Ha.
  apply csafe_step, mayhave2_safe. intros plen. cstep. apply andb_prop in Hc as [? ?].
  apply csafe_step. eapply getstr_any; [done|]. clear c Hd. intros o c Hd.
  eapply (csafe_bind _ _ _ (λ _ c', draft w0 c' r)).
  { destruct o; [by apply preference_flags_safe|by apply mayhave2_safe]. }
  clear o c Hd. intros val c Hd. cstep. apply csafe_step, mayhave2_safe. intros lt. cstep.
  apply csafe_ret. split; [|done]. draft_tac. constructor; [|done]. constructor; simpl; [done|lia].
Qed.

(** ** Name servers and search domains *)

Lemma numbered_safe c n i name r (Q : bytes → cfg → Prop) :
  draft w0 c r →
  (∀ s c', draft w0 c' r → bytes_ok s → (c_area c + length s + 1 <= c_area c')%nat → Q s c') →
  csafe c (numbered n i name) Q.
Proof.
  intros Hd HQ. unfold numbered.
  cstep; [apply Hd|..].
  - apply csafe_step. destruct (n =? 1); [|apply csafe_ret, csafe_exit].
    apply csafe_getstr; [apply Hd|apply csafe_exit|]. intros s a Hs Ha. apply csafe_ret, HQ; [|done|simpl; lia].
    apply draft_area; [done|lia].
  - apply csafe_step, csafe_ret, csafe_ret, HQ; [|done|simpl; lia]. apply draft_area; [done|lia].
Qed.

Lemma conf_rdnss_loop_safe total r n : ∀ c l,
  draft w0 c r → Forall addr_ok l →
  csafe c (conf_rdnss_loop K total n l) (λ l' c',
    draft w0 c' r ∧ Forall addr_ok l' ∧ length l' = (n + length l)%nat).
Proof.
  induction n as [|n IH]; intros c l Hd Hl; cbn [conf_rdnss_loop]; [by apply csafe_ret|].
  apply csafe_step. eapply numbered_safe; [done|]. intros s c1 Hd1 _ _.
  apply csafe_step, (csafe_conf_addr _ intface); [done|]. intros a Ha. cstep.
  eapply csafe_weaken; [apply IH; by auto with netcmds|]. simpl. intros l' c' (? & ? & ?). split_and!; auto. lia.
Qed.

(** The number of servers fits the length of the option. *)
Definition rdnss_fits : Prop := ∀ v, agetnum (cstr "rdnssaddrs") = Ret v → s32 v <= 127.

Lemma conf_rdnss_safe c r :
  rdnss_fits → draft w0 c r → csafe c (conf_rdnss K r) (λ r' c', draft w0 c' r' ∧ core r' = core r).
Proof.
  intros Hf Hd. unfold conf_rdnss. cstep. cstep. cbv zeta. apply Hf in H1.
  destruct (Z.ltb_spec (s32 v0) 0).
  - apply csafe_ret. split; [|done]. draft_tac. intros. lia.
  - apply csafe_step. eapply csafe_weaken; [apply (conf_rdnss_loop_safe _ r); [done|constructor]|].
    simpl. intros l' c' (Hd' & Hl & El). apply csafe_ret. split; [|done]. draft_tac. intros. simpl in El. lia.
Qed.

Lemma trim_dots_ok s : bytes_ok s → bytes_ok (trim_dots s) ∧ (length (trim_dots s) <= length s)%nat.
Proof.
  induction 1 as [|x s Hx Hs [IH1 IH2]]; simpl; [done|]. destruct (x =? DOT); simpl; [split; [done|lia]|].
  split; [by constructor|lia].
Qed.
Lemma trim_ok s : bytes_ok s → bytes_ok (trim s) ∧ (length (trim s) <= length s)%nat.
Proof.
  intros Hs. unfold trim. destruct (trim_dots_ok s Hs) as [H1 H2].
  destruct (trim_dots_ok (reverse (trim_dots s))) as [H3 H4]; [by apply Forall_reverse|].
  rewrite length_reverse in *. split; [by apply Forall_reverse|lia].
Qed.

(** The length of the option follows from the area the names were read into. *)
Definition dnssl_inv (c : cfg) (l : list bytes) (len : Z) : Prop :=
  Forall bytes_ok l ∧ 8 + Z.of_nat (length (domains_bytes l)) <= len ∧
  2 * (len - 8) <= 3 * Z.of_nat (c_area c).

Lemma dnssl_inv_cons c c' l len d :
  draft w0 c' d → ∀ s, (c_area c + length s + 1 <= c_area c')%nat → bytes_ok s → (0 < length (trim s))%nat →
  dnssl_inv c l len →
  dnssl_inv c' (trim s :: l) (u32 (len + (Z.of_nat (length (trim s)) + 2))).
Proof.
  intros Hd s Ha Hs Hp (Hl & Hb & Hc). destruct (trim_ok s Hs) as [Ht Hn]. pose proof (dr_area _ _ _ Hd) as HB.
  unfold BUFSIZ in HB.
  assert (E : u32 (len + (Z.of_nat (length (trim s)) + 2)) = len + (Z.of_nat (length (trim s)) + 2))
    by (apply Z.mod_small; lia).
  rewrite E. split_and!; [by constructor| |lia].
  unfold domains_bytes. csimpl. rewrite length_app. fold (domains_bytes l).
  pose proof (encode_domain_length (trim s)). lia.
Qed.

Lemma conf_dnssl_loop_safe total r n : ∀ c l len,
  draft w0 c r → dnssl_inv c l len →
  csafe c (conf_dnssl_loop total n l len) (λ '(l', len') c', draft w0 c' r ∧ dnssl_inv c' l' len').
Proof.
  induction n as [|n IH]; intros c l len Hd Hi; cbn [conf_dnssl_loop]; [by apply csafe_ret|].
  apply csafe_step. eapply numbered_safe; [done|]. intros s c1 Hd1 Hs Ha. cbv zeta.
  destruct (Nat.ltb_spec 0 (length (trim s))); apply IH; auto.
  - by eapply dnssl_inv_cons.
  - destruct Hi as (? & ? & ?). split_and!; auto. lia.
Qed.

Lemma pad8_spec x : 0 <= x < 2 ^ 31 → x < pad8 x <= x + 8 ∧ pad8 x mod 8 = 0.
Proof.
  intros Hx. unfold pad8. change 0x7 with (Z.ones 3). rewrite Z.land_ones by lia. unfold u32.
  rewrite (Z.mod_small _ (2 ^ 32)) by (change (2 ^ 3) with 8; zlia). change (2 ^ 3) with 8. zlia.
Qed.

Lemma conf_dnssl_safe c r :
  draft w0 c r → csafe c (conf_dnssl r) (λ r' c', draft w0 c' r' ∧ core r' = core r).
Proof.
  intros Hd. unfold conf_dnssl. cstep. cstep. cbv zeta. destruct (Z.ltb_spec (s32 v0) 0).
  - apply csafe_ret. split; [|done]. draft_tac. intros. lia.
  - apply csafe_step. eapply csafe_weaken.
    { apply (conf_dnssl_loop_safe _ r); [done|]. split_and!; [constructor|simpl; lia|lia]. }
    intros [l len] c' (Hd' & Hl & Hb & Ha). apply csafe_ret. split; [|done].
    pose proof (dr_area _ _ _ Hd') as HB. unfold BUFSIZ in HB. draft_tac.
    intros _. destruct (pad8_spec len) as [? ?]; [lia|]. split; [done|lia].
Qed.

(** ** Captive portal and NAT64 prefix *)

Lemma conf_capport_safe c r :
  draft w0 c r → csafe c (conf_capport r) (λ r' c', draft w0 c' r' ∧ core r' = core r).
Proof.
  intros Hd. unfold conf_capport. cstep; [apply Hd|by apply csafe_ret|]. apply csafe_ret. split; [|done].
  apply (draft_area _ _ _ a) in Hd; [|lia]. unfold BUFSIZ in *.
  destruct (pad8_spec (2 + Z.of_nat (length s))) as [? ?]; [lia|]. draft_tac. split_and!; auto; lia.
Qed.

Lemma get_plc_range len plc : pref64_prefix_length_get_plc len = Some plc → 32 <= u8 len <= 96 ∧ 0 <= plc <= 5.
Proof.
  unfold pref64_prefix_length_get_plc. cbv zeta. generalize (u8 len). intros l.
  repeat (case_match; [intros [= <-]; lia|]). done.
Qed.

Lemma conf_pref64_safe c r :
  draft w0 c r → csafe c (conf_pref64 K r) (λ r' c', draft w0 c' r' ∧ core r' = core r).
Proof.
  intros Hd. unfold conf_pref64. cstep; [apply Hd|by apply csafe_ret|].
  apply (draft_area _ _ _ a) in Hd; [|lia].
  apply csafe_step, (csafe_conf_addr _ intface); [done|]. intros addr Ha. cstep.
  destruct (pref64_prefix_length_get_plc v) as [plc|] eqn:E; [|apply csafe_exit].
  apply get_plc_range in E as [? ?]. cstep. cstep. apply csafe_ret. split; [|done]. draft_tac.
  intros _. split; [done|lia].
Qed.

(** ** The whole *)

(** The router variables of RFC 4861, 6.2.1. *)
Definition router_ok (r : rainfo) : Prop := intervals_ok r ∧ rtpref_ok r ∧ lifetime_ok r.

Lemma router_ok_core r r' : core r' = core r → router_ok r → router_ok r'.
Proof.
  unfold core, router_ok, intervals_ok, rtpref_ok, lifetime_ok. intros [= E1 E2 E3 E4 E5 E6 E7].
  by rewrite E4, E5, E6, E7.
Qed.

(** Stages that keep [core], one after the other. *)
Lemma core_then c r (m : CF rainfo) (f : rainfo → CF rainfo) :
  csafe c m (λ r' c', draft w0 c' r' ∧ core r' = core r) →
  (∀ r' c', draft w0 c' r' → csafe c' (f r') (λ r'' c'', draft w0 c'' r'' ∧ core r'' = core r')) →
  csafe c (m ≫= f) (λ r'' c'', draft w0 c'' r'' ∧ core r'' = core r).
Proof.
  intros Hm Hf. eapply csafe_bind; [exact Hm|]. intros r' c' [Hd E]. simpl in *.
  eapply csafe_weaken; [by apply Hf|]. intros r'' c'' [? ?]. split; [done|congruence].
Qed.

Lemma conf_rainfo_safe c r :
  rdnss_fits → draft w0 c r → rai_linkmtu r = 0 →
  csafe c (conf_rainfo K intface r) (λ r' c', draft w0 c' r' ∧ router_ok r').
Proof.
  intros Hf Hd Hm. unfold conf_rainfo.
  eapply csafe_bind; [by apply conf_interface_safe|]. clear Hd Hm. intros r1 c1 Hd1. simpl in Hd1.
  eapply csafe_bind; [by apply conf_intervals_safe|]. intros r2 c2 [Hd2 Hi2].
  eapply csafe_bind; [by apply conf_flags_safe|]. intros r3 c3 (Hd3 & Hi3 & Hp3).
  eapply csafe_bind; [by apply conf_lifetime_safe|]. intros r4 c4 (Hd4 & Hi4 & Hp4 & Hl4).
  apply (csafe_weaken _ _ (λ r' c', draft w0 c' r' ∧ core r' = core r4)).
  2: { intros r' c' [Hd E]. split; [exact Hd|]. eapply (router_ok_core r4); [exact E|by split_and!]. }
  eapply core_then; [by apply conf_timers_safe|]. intros.
  eapply core_then; [apply conf_all_safe; [apply conf_prefix_safe|done]|]. intros.
  eapply core_then; [by destruct (_ =? 0); [apply get_prefix_safe|apply csafe_ret]|]. intros.
  eapply core_then; [by apply conf_mtu_safe|]. intros.
  eapply core_then; [apply conf_all_safe; [apply conf_route_safe|done]|]. intros.
  eapply core_then; [by apply conf_rdnss_safe|]. intros.
  eapply core_then; [by apply conf_dnssl_safe|]. intros.
  eapply core_then; [by apply conf_capport_safe|]. intros.
  by apply conf_pref64_safe.
Qed.

End stages.

(** ** Linking the interface *)

(** A new interface, without timers, at the head of the list. *)
Lemma shape_cons rs es tnext pnext pnext' r :
  shape_wf rs es tnext pnext → sh_id r ∉ sh_id <$> rs → sh_timer r = None →
  NoDup (sh_prefix r).*1.*1 → (pnext <= pnext')%nat →
  (∀ pid rid tm, (pid, rid, tm) ∈ sh_prefix r → rid = sh_id r ∧ tm = None ∧ (pnext <= pid < pnext')%nat) →
  shape_wf (r :: rs) es tnext pnext'.
Proof.
  intros [] Hid Ht Hn Hle Hp.
  assert (Hin : ∀ p, p ∈ sh_prefixes (r :: rs) ↔ p ∈ sh_prefix r ∨ p ∈ sh_prefixes rs)
    by (intros p; unfold sh_prefixes; csimpl; apply elem_of_app).
  constructor; auto.
  - csimpl. by apply NoDup_cons.
  - unfold sh_prefixes. csimpl. rewrite !fmap_app. apply NoDup_app. split_and!; auto.
    intros pid Hpid Hpid'. apply list_elem_of_fmap in Hpid as ([pid1 rid1] & -> & H1).
    apply list_elem_of_fmap in H1 as ([[pid2 rid2] tm2] & [= -> ->] & H1). apply Hp in H1 as (_ & _ & ?).
    simpl in Hpid'. apply list_elem_of_fmap in Hpid' as ([pid3 rid3] & [= ->] & H3).
    apply list_elem_of_fmap in H3 as ([[pid4 rid4] tm4] & [= -> ->] & H3). apply sw_pnext in H3. lia.
  - intros pid rid tm [H1|H1]%Hin; [apply Hp in H1 as (_ & _ & ?); lia|]. apply sw_pnext in H1. lia.
  - intros r' pid rid tm [->|Hr]%elem_of_cons H1; [by apply Hp in H1 as (? & _ & _)|eauto].
  - intros r' t [->|Hr]%elem_of_cons Ht'; [congruence|eauto].
  - intros pid rid t [H1|H1]%Hin; [by apply Hp in H1 as (_ & ? & _)|eauto].
  - intros t id H1. destruct (sw_rai_entry _ _ H1) as (r' & ? & ?). exists r'. split; [by right|done].
  - intros t pid H1. destruct (sw_pfx_entry _ _ H1) as (rid & ?). exists rid. apply Hin. by right.
Qed.

Definition below (ids : list ident) (n : nat) : Prop := Forall (λ i, (i < n)%nat) ids.*1.

Lemma draft_zero w a t : (a <= BUFSIZ)%nat →
  draft w (Cfg a (w <| w_next := S (w_next w) |> <| w_tick := t |>)) (zero_rainfo (w_next w)).
Proof.
  intros Ha. constructor; simpl; auto.
  - constructor; simpl; auto; try done; try lia; try constructor.
  - by left.
  - constructor.
  - exists t, (S (w_next w)). split; [by destruct w|lia].
Qed.

Section link.
Context `{Env} (K : answers) (ids : list ident) (needs : Z → bool).

Lemma rai_ok_draft w0 c r : draft w0 c r → router_ok K r → rai_ok r.
Proof.
  intros Hd [[H1 H2] _]. split; [apply Hd|].
  unfold MIN_MAXINTERVAL, MAX_MAXINTERVAL, MIN_MININTERVAL in *. zlia.
Qed.

Lemma link_inv w0 c r :
  Inv ids needs w0 → below ids (w_next w0) → draft w0 c r → router_ok K r →
  Inv (sh_key (shape_rai r) :: ids) (λ idx, needs idx && negb (idx =? rai_ifindex r))
    (c_world c <| ralist := r :: ralist (c_world c) |>).
Proof.
  intros [[Hs Hr] Hu Hi] Hb Hd Ho. pose proof (rai_ok_draft _ _ _ Hd Ho) as Hok.
  destruct Hd as [Eid Et _ _ Hn Hp _ (t & n & Ew & Hlt)]. rewrite Ew in *.
  constructor; [constructor|..]; unfold w_shape; simpl.
  - csimpl. eapply shape_cons; [exact Hs|..]; simpl; auto.
    + rewrite Eid. intros Hin. rewrite <- Hi in Hb. unfold below in Hb.
      rewrite <- list_fmap_compose, Forall_forall in Hb. specialize (Hb (w_next w0)).
      apply (Nat.lt_irrefl (w_next w0)), Hb. exact Hin.
    + by rewrite <- !list_fmap_compose.
    + lia.
    + intros pid rid tm Hin. apply list_elem_of_fmap in Hin as (p & [= -> -> ->] & Hin).
      rewrite Forall_forall in Hp. destruct (Hp p Hin) as (-> & -> & ?). rewrite Eid. simpl in *. split_and!; auto; lia.
  - by constructor.
  - intros idx r'. csimpl. destruct (Z.eqb_spec (rai_ifindex r) idx) as [->|].
    + rewrite Z.eqb_refl, andb_false_r. done.
    + intros Hf [H1 _]%andb_prop. by eapply Hu.
  - csimpl. f_equal. exact Hi.
Qed.

(** The timer is the only field of the list that its start changes. *)
Lemma start_ra_timer_ralist id w w' :
  start_ra_timer id w = Ret (tt, w') → w_next w' = w_next w ∧
  ralist w' = (λ r, if (rai_id r =? id)%nat then r <| rai_timer := Some (tq_next (w_queue w)) |> else r) <$> ralist w.
Proof.
  unfold start_ra_timer, w_add_timer, upd_rai, ra_timer_update, w_set_timer, queue_op, deref_rai, call_random,
    gettimeofday, modify, lift, mbind, ST_bind, outcome_bind, of_opt, mret, ST_ret.
  intros E. repeat (case_match; simplify_eq/=; try done).
Qed.

End link.

(** ** [getconfig] *)

Section getconfig.
Context `{Env} `{D : CapDb} `{!CapLaws D} `{!AreaLaws D} (K : answers) (intface : bytes).
Context (ids : list ident) (needs : Z → bool).

(** A new interface [r] is the head of the list, in the invariant, with its
    timer running. *)
Definition configured (w w' : world) : Prop :=
  ∃ r, ralist w' = r :: ralist w ∧ router_ok K r ∧ mtu_ok r ∧ is_Some (rai_timer r) ∧
    Inv (sh_key (shape_rai r) :: ids) (λ idx, needs idx || (idx =? rai_ifindex r)) w' ∧
    below (sh_key (shape_rai r) :: ids) (w_next w') ∧ w_ifilist w' = w_ifilist w.

Lemma rai_upd_other f (l : list rainfo) id :
  id ∉ rai_id <$> l → (λ r : rainfo, if (rai_id r =? id)%nat then f r else r) <$> l = l.
Proof.
  intros Hid. rewrite <- (list_fmap_id l) at 2. apply list_fmap_ext. intros i r Hr. simpl.
  destruct (Nat.eqb_spec (rai_id r) id) as [E|]; [|done]. destruct Hid. rewrite <- E.
  apply list_elem_of_fmap_2. by eapply list_elem_of_lookup_2.
Qed.

Lemma below_fresh w : Inv ids needs w → below ids (w_next w) → w_next w ∉ rai_id <$> ralist w.
Proof.
  intros Hi Hb Hin. rewrite (Inv_rai_ids ids needs w Hi) in Hin. unfold below in Hb.
  rewrite Forall_forall in Hb. specialize (Hb _ Hin). lia.
Qed.

Lemma below_mono n m : below ids n → (n <= m)%nat → below ids m.
Proof. intros Hb Hle. eapply Forall_impl; [exact Hb|]. simpl. lia. Qed.

(** The calls after the fields are set. *)
Lemma publish_ok w c r :
  Inv ids needs w → below ids (w_next w) → draft w c r → router_ok K r →
  ∃ w', (_ ← modify (λ w, w <| ralist := r :: ralist w |>);
         _ ← w_make_packet (w_next w); start_ra_timer (w_next w)) (c_world c) = Ret (tt, w') ∧ configured w w'.
Proof.
  intros Hi Hb Hd Ho. pose proof (link_inv K _ _ _ _ _ Hi Hb Hd Ho) as Hi1. rewrite modify_run.
  pose proof (below_fresh w Hi Hb) as Hf.
  set (id := w_next w) in *. pose proof (dr_id _ _ _ Hd : rai_id r = id) as Eid.
  destruct (dr_world _ _ _ Hd) as (t & n & Ew & Hn). set (w1 := _ <| ralist := _ |>) in *.
  assert (Ef : find_rai id (ralist w1) = Some r) by (subst w1; simpl; by rewrite Eid, Nat.eqb_refl).
  destruct (make_packet_run _ _ quiet w1 id r Hi1 Ef) as (E2 & Q2 & _). rewrite (bind_run _ _ _ _ _ E2).
  match type of E2 with _ = Ret (tt, ?x) => set (w2 := x) in * end. pose proof (quiet_Inv _ _ _ _ Q2 Hi1) as Hi2.
  destruct (start_ra_timer_safe _ _ w2 id (λ idx, needs idx || (idx =? rai_ifindex r)) Hi2)
    as (w3 & E3 & Hi3 & Hl3).
  { csimpl. rewrite Eid. apply list_elem_of_here. }
  { intros idx r'. rewrite (quiet_shape _ _ Q2). unfold w1, w_shape. csimpl.
    destruct (Z.eqb_spec (rai_ifindex r) idx) as [->|Hne]; [intros [= <-]; auto|].
    rewrite (proj2 (Z.eqb_neq idx (rai_ifindex r))), orb_false_r, andb_true_r by done. auto. }
  exists w3. split; [exact E3|]. apply start_ra_timer_ralist in E3 as [En El].
  subst w2. simpl in El. rewrite Ew in El. rewrite Eid, Nat.eqb_refl in El. csimpl in El. rewrite Eid, Nat.eqb_refl in El.
  rewrite !rai_upd_other in El by (try rewrite rai_upd_other by done; done).
  eexists. split; [exact El|]. split_and!; [by apply (router_ok_core K r)|apply Hd|done|exact Hi3|..].
  - unfold below. csimpl. rewrite En, Eid. subst w1. simpl. rewrite Ew. simpl.
    constructor; [done|]. eapply below_mono; [exact Hb|lia].
  - rewrite Hl3. subst w1. simpl. by rewrite Ew.
Qed.

Lemma getconfig_ok w :
  answers_ok K intface → rdnss_fits (D:=D) → Inv ids needs w → below ids (w_next w) →
  match getconfig_with K intface w with
  | Ret (_, w') => configured w w'
  | Exit code => code = 1
  | Crash => area_fault (D:=D)
  end.
Proof.
  intros HK Hf Hi Hb. unfold getconfig_with. destruct (_ <? 0); [done|]. cbv zeta.
  set (c0 := Cfg 0 (w <| w_next := S (w_next w) |>)).
  assert (Hd : draft w c0 (zero_rainfo (w_next w))).
  { unfold c0. replace (w <| w_next := _ |>) with (w <| w_next := S (w_next w) |> <| w_tick := w_tick w |>)
      by (by destruct w). apply draft_zero. lia. }
  pose proof (conf_rainfo_safe K intface HK w c0 _ Hf Hd eq_refl) as Hc. unfold csafe in Hc.
  cbn [mbind outcome_bind].
  destruct (conf_rainfo _ _ _ c0) as [[r c]| |] eqn:Ec; [|done|].
  2: { destruct (ok_sdl _ _ HK) as (o & Eo & _). eapply conf_rainfo_crash; [by exists o|exact Ec]. }
  destruct Hc as [Hd' Ho].
  destruct (publish_ok w c r Hi Hb Hd' Ho) as (w' & E & Hw). simpl. by rewrite E.
Qed.

End getconfig.

(** C4: [getconfig] establishes what the daemon relies on. For any contents of
    the configuration entry it calls [exit(1)] or returns with the interface
    at the head of [ralist]: the timers are running, every pointer is valid,
    the first advertisement is built without running over its buffer (so the
    lengths computed for the DNS search list and the captive portal option fit
    the 8-bit length field), and the router variables are in the ranges of RFC
    4861: maxinterval in 4..1800, mininterval in 3..3/4 maxinterval, the
    lifetime zero or in maxinterval..9000 and zero on a host, the preference
    not the reserved one, a link MTU that the link can carry. It accesses
    memory outside its buffers only if a lookup of a number or a flag does, or
    if the strings of pairwise different capabilities do not fit the string
    area together. The answers of the kernel and of inet_pton are assumed to
    be well formed, and the count of name servers to be at most 127. *)
Theorem getconfig_correct `{Env} `{D : CapDb} `{!CapLaws D} `{!AreaLaws D} K intface ids needs w :
  answers_ok K intface → rdnss_fits (D:=D) → Inv ids needs w → below ids (w_next w) →
  match getconfig_with K intface w with
  | Ret (_, w') => configured K ids needs w w'
  | Exit code => code = 1
  | Crash => area_fault (D:=D)
  end.
Proof. apply getconfig_ok. Qed.

(** ** Start of the daemon *)

(** The interfaces of the command line, each with its entry. *)
Fixpoint configure_all `{Env} (K : answers) (l : list (bytes * bytes)) : IO unit :=
  match l with
  | [] => skip
  | (intface, tbuf) :: l => _ ← @getconfig_with _ (tbuf_db tbuf) K intface; configure_all K l
  end.

(** [main] before the first turn of its loop. *)
Definition start_world (ifl : ifilist) (rand next : nat) : world :=
  World [] (TQ tm_max [] 0) ifl 0 rand next [] zero_rro [].

Lemma start_inv_all ifl rand next : Inv [] (λ _, true) (start_world ifl rand next).
Proof.
  constructor; [constructor|..]; try done.
  - constructor; try (by apply NoDup_nil_2); try (by intros ? ? ?%elem_of_nil);
      try (by intros ? ? ? ?%elem_of_nil); try (by intros ? ? ? ? ?%elem_of_nil); by intros ? ? ?%elem_of_nil.
Qed.

Lemma configure_all_ok `{Env} K ifl l : ∀ ids w,
  Forall (λ '(i, tbuf), answers_ok K i ∧ rdnss_fits (D:=tbuf_db tbuf)) l →
  Inv ids (λ _, true) w → below ids (w_next w) → w_ifilist w = ifl →
  match configure_all K l w with
  | Ret (_, w') => ∃ ids', length ids' = (length l + length ids)%nat ∧ Good ids' ifl w'
  | Exit code => code = 1
  | Crash => ∃ i tbuf, (i, tbuf) ∈ l ∧ area_fault (D:=tbuf_db tbuf)
  end.
Proof.
  induction l as [|[i tbuf] l IH]; intros ids w Hl Hi Hb Hw; cbn [configure_all].
  - exists ids. split; [done|]. split; [|done]. destruct Hi as [? Hu ?]. constructor; auto.
    intros idx r Hr _. by apply (Hu idx r).
  - apply Forall_cons in Hl as [[HK Hf] Hl].
    pose proof (getconfig_ok (D:=tbuf_db tbuf) K i ids (λ _, true) w HK Hf Hi Hb) as Hg.
    unfold mbind, ST_bind. destruct (getconfig_with K i w) as [[[] w1]| |]; [|done|].
    + destruct Hg as (r & _ & _ & _ & _ & Hi1 & Hb1 & Hw1).
      assert (Hi1' : Inv (sh_key (shape_rai r) :: ids) (λ _, true) w1).
      { by destruct Hi1. }
      specialize (IH _ w1 Hl Hi1' Hb1 ltac:(congruence)). simpl in *.
      destruct (configure_all K l w1) as [[[] w2]| |]; [|done|].
      * destruct IH as (ids' & El & Hg). exists ids'. split; [lia|done].
      * destruct IH as (i' & tb' & Hin & Hx). exists i', tb'. split; [by right|done].
    + exists i, tbuf. split; [apply list_elem_of_here|done].
Qed.

(** Turns of the main loop, each with what [select] reports in it. *)
Record turn := Turn { t_fuel : nat; t_errno : Z; t_dump : option bytes; t_events : list event }.
Fixpoint main_loop `{Env} (sflag : bool) (l : list turn) : IO (option unit) :=
  match l with
  | [] => mret (Some tt)
  | t :: l =>
      r ← main_turn (Options sflag false) (t_fuel t) (t_errno t) (t_dump t) (t_events t);
      match r with None => mret None | Some _ => main_loop sflag l end
  end.

Lemma main_loop_safe `{Env} ids sflag l : ∀ w,
  no_flags ids → Forall (λ t, Forall event_ok (t_events t)) l → (∃ ifl, Good ids ifl w) →
  safe w (main_loop sflag l) (λ r w', r = Some tt ∧ ∃ ifl, Good ids ifl w').
Proof.
  induction l as [|t l IH]; intros w Hn Hl [ifl Hg]; cbn [main_loop]; [by split; [|exists ifl]|].
  apply Forall_cons in Hl as [Ht Hl]. eapply safe_bind; [by apply (main_turn_ok ids ifl)|].
  intros r w' [-> Hg']. by apply IH.
Qed.


(** ** A concrete start *)

#[local] Instance config_env : Env := {|
  clock := λ n, TV (1000 + Z.of_nat n) 0; random := λ _, 77; junk := λ _, 0xa5;
  if_indextoname := λ _, None |}.

(** The C library knows one address, and the router has interface 4, without
    link-layer address. *)
Definition config_answers : answers := Answers
  (λ s, if bool_decide (s = cstr "2001:db8::") then Some ([0x20; 1; 0x0d; 0xb8] ++ replicate 12 0) else None)
  (λ _, 4) 1 None 8 (Some []) (Some 1500) (Some []).

Definition config_entry : bytes :=
  entry_bytes (cstr "en0") (Num (cstr "maxinterval") (cstr "30") :: sample_fields) ++ [0].

Lemma config_answers_ok i : answers_ok config_answers i.
Proof.
  split.
  - intros s a. simpl. destruct (bool_decide _); [|done]. intros [= <-].
    split; [done|]. apply (bool_decide_eq_true_1 (Forall _ _)). reflexivity.
  - exists None. split; [done|]. intros sdl Hs. discriminate Hs.
  - intros l [= <-]. constructor.
Qed.

Lemma config_rdnss : rdnss_fits (D:=tbuf_db config_entry).
Proof.
  assert (E : agetnum (CapDb:=tbuf_db config_entry) (cstr "rdnssaddrs") = Ret (-1)) by (vm_compute; reflexivity).
  intros v Hv. rewrite E in Hv. injection Hv as <-. unfold s32. vm_compute. discriminate.
Qed.

(** What is left of the entry in the interface. *)
Lemma config_run :
  match @getconfig_with _ (tbuf_db config_entry) config_answers (cstr "en0") (start_world [] 0 0) with
  | Ret (_, w) => (λ r, (rai_ifindex r, rai_maxinterval r, rai_mininterval r, rai_lifetime r,
                         rai_linkmtu r, rai_pfxs r)) <$> ralist w
  | _ => []
  end = [(4, 30, 10, 90, 1500, 1)].
Proof. vm_compute. reflexivity. Qed.

Lemma getconfig_correct_witness :
  ∃ w', @getconfig_with _ (tbuf_db config_entry) config_answers (cstr "en0") (start_world [] 0 0) = Ret (tt, w') ∧
    configured config_answers [] (λ _, true) (start_world [] 0 0) w'.
Proof.
  pose proof (getconfig_correct (D:=tbuf_db config_entry) config_answers (cstr "en0") [] (λ _, true)
    (start_world [] 0 0) (config_answers_ok _) config_rdnss (start_inv_all [] 0 0) ltac:(constructor)) as Hc.
  pose proof config_run as Hr. revert Hc Hr.
  destruct (getconfig_with config_answers (cstr "en0") (start_world [] 0 0)) as [[[] w']| |]; [|done..].
  intros Hc _. exists w'. by split.
Defined.

