(* ===== verification/ConfigFun.v ===== *)
(** * ConfigFun: what [getconfig] computes

    The values an interface gets without an entry in the configuration file,
    an entry within the documented ranges that is rejected, and the lifetime
    and prefix length code of the NAT64 prefix option. *)

From S2P Require Import Prelude Timeval In6 NdOpt RaTimer RtMsg Rainfo.
From S2P Require Import RaState RaInv RaOps Advcap Rrenum Rtadvd RtadvdSafe.
From S2P Require Import Config ConfigSafe.

Section fixed.
Context `{Env} `{D : CapDb} (K : answers) (intface : bytes).

Lemma getnum_run {B} cap v (f : Z → CF B) c : agetnum cap = Ret v → (getnum cap ≫= f) c = f v c.
Proof. intros E. unfold getnum. by rewrite (lift_run _ _ _ _ E). Qed.
Lemma getflag_run {B} cap v (f : bool → CF B) c : agetflag cap = Ret v → (getflag cap ≫= f) c = f v c.
Proof. intros E. unfold getflag. by rewrite (lift_run _ _ _ _ E). Qed.
Lemma getstr_none_run {B} cap (f : option bytes → CF B) c :
  agetstr cap (c_area c) = Ret None → (getstr cap ≫= f) c = f None c.
Proof. intros E. apply bind_run. unfold getstr. by rewrite E. Qed.
Lemma mayhave_run {B} cap def v (f : Z → CF B) c :
  agetnum cap = Ret v → (MAYHAVE cap def ≫= f) c = f (if v <? 0 then def else v) c.
Proof. intros E. apply bind_run. unfold MAYHAVE. by rewrite (getnum_run _ _ _ _ E). Qed.

Lemma check_run {B} b (f : unit → CF B) c : b = true → (check b ≫= f) c = f tt c.
Proof. by intros ->. Qed.

(** The documented default of mininterval, a third of maxinterval, is
    below the documented minimum of 3 seconds when maxinterval is in 4..8:
    although 4..1800 is the documented range of maxinterval, an entry that sets
    only such a maxinterval makes the daemon exit. *)
Lemma default_mininterval_rejected w v b :
  answers_ok K intface → agetflag (cstr "nolladdr") = Ret b →
  agetnum (cstr "maxinterval") = Ret v → MIN_MAXINTERVAL <= v <= 8 →
  agetnum (cstr "mininterval") = Ret (-1) →
  getconfig_with K intface w = Exit 1.
Proof.
  intros HK Eb Ev Hv Em. unfold getconfig_with. destruct (_ <? 0); [done|].
  assert (Hi : ∀ r c, ∃ o, conf_interface K intface r c = o ∧
    match o with Ret (_, c') => True | Exit n => n = 1 | Crash => False end).
  { intros r c. eexists. split; [done|]. unfold conf_interface. rewrite (getflag_run _ _ _ _ Eb).
    destruct (ok_sdl _ _ HK) as (o & Eo & _). destruct b; simpl; [done|].
    unfold mbind at 1, ST_bind at 1. rewrite (lift_run _ _ _ _ Eo). by destruct o. }
  assert (Ei : ∀ r c, conf_intervals r c = Exit 1).
  { intros r c. unfold conf_intervals, MIN_MAXINTERVAL, MAX_MAXINTERVAL, MIN_MININTERVAL in *.
    rewrite (mayhave_run _ _ _ _ _ Ev). rewrite (proj2 (Z.ltb_ge v 0)) by lia.
    replace ((4 <=? v) && (v <=? 1800)) with true by lia. cbn [check].
    rewrite (bind_run _ _ _ tt c eq_refl). cbv zeta. rewrite (mayhave_run _ _ _ _ _ Em). simpl.
    replace (3 <=? u32 v / 3) with false; [done|]. unfold u32. zlia. }
  unfold conf_rainfo. cbv zeta. unfold mbind, outcome_bind, ST_bind.
  edestruct Hi as (o & -> & Ho). destruct o as [[r c]| |]; [by rewrite Ei|by rewrite Ho|done].
Qed.

(** ** The defaults *)

(** The database of an interface without an entry. *)
Record empty_db : Prop := {
  empty_num : ∀ cap, agetnum cap = Ret (-1);
  empty_flag : ∀ cap, agetflag cap = Ret false;
  empty_str : ∀ cap area, agetstr cap area = Ret None }.

Lemma conf_all_empty (f : Z → rainfo → CF rainfo) l r c :
  (∀ i r c, f i r c = Ret (r, c)) → conf_all f l r c = Ret (r, c).
Proof.
  intros Hf. revert r c. induction l as [|i l IH]; intros r c; [done|]. cbn [conf_all].
  by rewrite (bind_run _ _ _ _ _ (Hf i r c)).
Qed.

(** An interface before its prefixes are known. *)
Definition default_rai (id : nat) (sdl : sockaddr_dl) : rainfo :=
  let mtu := if_getmtu (k_mtus K) (k_siocgifmtu K) intface in
  zero_rainfo id <| rai_advlinkopt := 1 |> <| rai_sdl := Some sdl |> <| rai_ifindex := sdl_index sdl |>
    <| rai_ifname := take 15 intface |> <| rai_phymtu := if mtu =? 0 then IPV6_MMTU else mtu |>
    <| rai_maxinterval := 600 |> <| rai_mininterval := 200 |> <| rai_hoplimit := 64 |>
    <| rai_lifetime := 1800 |>.

Hypothesis (HD : empty_db).

Ltac empty_step :=
  first [ rewrite (mayhave_run _ _ _ _ _ (empty_num HD _))
        | rewrite (getnum_run _ _ _ _ (empty_num HD _))
        | rewrite (getflag_run _ _ _ _ (empty_flag HD _))
        | rewrite (getstr_none_run _ _ _ (empty_str HD _ _)) ]; cbv beta iota zeta; cbn [Z.ltb Z.compare].

(** The kernel's prefixes are all that [get_prefix] changes. *)
Lemma get_prefix_only r w r' w' :
  get_prefix K r w = Ret (r', w') → r' = r <| rai_prefix := rai_prefix r' |> <| rai_pfxs := rai_pfxs r' |>.
Proof.
  unfold get_prefix. destruct (k_ifaddrs K) as [l|]; [|done].
  revert r w. induction l as [|i l IH]; intros r w; cbn [get_prefix_loop].
  { intros [= <- <-]. by destruct r. }
  unfold mbind, ST_bind. destruct (get_prefix_one r i w) as [[r1 w1]| |] eqn:E1; [|done..].
  intros E. apply IH in E. rewrite E. clear IH E. revert E1. unfold get_prefix_one.
  repeat (case_match; [by intros [= <- <-]|]). cbn [mbind ST_bind get modify mret ST_ret].
  by intros [= <- <-].
Qed.

Lemma empty_interface r c sdl :
  if_nametosdl (k_iflist_fuel K) (k_iflist K) intface = Ret (Some (Some sdl)) →
  let mtu := if_getmtu (k_mtus K) (k_siocgifmtu K) intface in
  conf_interface K intface r c = Ret (r <| rai_advlinkopt := 1 |> <| rai_sdl := Some sdl |>
    <| rai_ifindex := sdl_index sdl |> <| rai_ifname := take 15 intface |>
    <| rai_phymtu := if mtu =? 0 then IPV6_MMTU else mtu |>, c).
Proof.
  intros E. unfold conf_interface. empty_step. simpl.
  unfold mbind at 1, ST_bind at 1. by rewrite (lift_run _ _ _ _ E).
Qed.

Lemma empty_prefix i r c : conf_prefix K i r c = Ret (r, c).
Proof. unfold conf_prefix. by empty_step. Qed.
Lemma empty_route i r c : conf_route K i r c = Ret (r, c).
Proof. unfold conf_route. empty_step. by empty_step. Qed.

Lemma empty_intervals r c :
  conf_intervals r c = Ret (r <| rai_maxinterval := 600 |> <| rai_mininterval := 200 |>, c).
Proof.
  unfold conf_intervals. empty_step. rewrite check_run by done. empty_step. by rewrite check_run by done.
Qed.

Lemma empty_flags r c :
  conf_flags r c = Ret (r <| rai_hoplimit := 64 |> <| rai_managedflg := 0 |> <| rai_otherflg := 0 |>
    <| rai_rtpref := 0 |>, c).
Proof. unfold conf_flags. empty_step. empty_step. empty_step. by rewrite check_run by done. Qed.

Lemma empty_lifetime r c :
  rai_maxinterval r = 600 → 0 < k_forwarding K →
  conf_lifetime (k_forwarding K) r c = Ret (r <| rai_lifetime := 1800 |>, c).
Proof.
  intros Er Hf. unfold conf_lifetime. empty_step. rewrite Er. rewrite check_run by done.
  rewrite check_run; [done|]. by rewrite (proj2 (Z.eqb_neq (k_forwarding K) 0)) by lia.
Qed.

Lemma empty_timers r c :
  conf_timers r c = Ret (r <| rai_reachabletime := 0 |> <| rai_retranstimer := 0 |> <| rai_clockskew := 0 |>, c).
Proof.
  unfold conf_timers. empty_step. rewrite check_run by done. empty_step. rewrite check_run by done.
  empty_step. rewrite Z.eqb_refl. erewrite bind_run; [|unfold getnum, lift; by rewrite (empty_num HD)].
  rewrite check_run by done. by empty_step.
Qed.

Lemma empty_mtu r c : conf_mtu r c = Ret (r <| rai_linkmtu := 0 |>, c).
Proof. unfold conf_mtu. empty_step. rewrite check_run by done. change (rai_linkmtu _ =? 0) with true. cbv iota. by empty_step. Qed.

Lemma empty_rdnss r c :
  conf_rdnss K r c = Ret (r <| rai_rdnss_lifetime := u32 (u32 (2 * rai_maxinterval r)) |>
    <| rai_rdnss_length := 0 |>, c).
Proof. unfold conf_rdnss. empty_step. by empty_step. Qed.

Lemma empty_dnssl r c :
  conf_dnssl r c = Ret (r <| rai_dnssl_lifetime := u32 (u32 (2 * rai_maxinterval r)) |>
    <| rai_dnssl_option_length := 8 |> <| rai_dnssl_length := 0 |>, c).
Proof. unfold conf_dnssl. empty_step. by empty_step. Qed.

Lemma empty_capport r c : conf_capport r c = Ret (r, c).
Proof. unfold conf_capport. by empty_step. Qed.
Lemma empty_pref64 r c : conf_pref64 K r c = Ret (r, c).
Proof. unfold conf_pref64. by empty_step. Qed.

Lemma bind_eq {A B} (m : CF A) (f : A → CF B) c a c' o : m c = Ret (a, c') → f a c' = o → (m ≫= f) c = o.
Proof. intros E <-. by apply bind_run. Qed.

(** Equality of two chains of assignments, field by field. *)
Ltac rai_eq :=
  unfold default_rai; generalize (if_getmtu (k_mtus K) (k_siocgifmtu K) intface); intros mtu;
  generalize (take 15 intface) (if mtu =? 0 then IPV6_MMTU else mtu); intros; vm_compute; reflexivity.

Lemma no_prefixes r0 r w c :
  rai_pfxs r0 = 0 → get_prefix K r0 (c_world c) = Ret (r, w) →
  (if rai_pfxs r0 =? 0 then io (get_prefix K r0) else mret r0) c = Ret (r, c <| c_world := w |>).
Proof. intros -> E. unfold io. simpl. by rewrite E. Qed.

(** An interface that the configuration file does not mention gets the
    defaults of RFC 4861 on a router: maxinterval 600, mininterval a third of
    it, router lifetime three times maxinterval, hop limit 64, no flags, no
    reachable and retransmission time, no MTU option, no DNS, captive portal
    or NAT64 option, and the prefixes that the kernel has on the interface. *)
Lemma getconfig_defaults c id sdl r w :
  if_nametosdl (k_iflist_fuel K) (k_iflist K) intface = Ret (Some (Some sdl)) → 0 < k_forwarding K →
  get_prefix K (default_rai id sdl) (c_world c) = Ret (r, w) →
  conf_rainfo K intface (zero_rainfo id) c =
    Ret (default_rai id sdl <| rai_prefix := rai_prefix r |> <| rai_pfxs := rai_pfxs r |>
           <| rai_rdnss_lifetime := 1200 |> <| rai_dnssl_lifetime := 1200 |>
           <| rai_dnssl_option_length := 8 |>, c <| c_world := w |>).
Proof.
  intros Es Hf Ep. unfold conf_rainfo.
  eapply bind_eq; [by apply empty_interface|]. eapply bind_eq; [apply empty_intervals|].
  eapply bind_eq; [apply empty_flags|]. eapply bind_eq; [by apply empty_lifetime|].
  eapply bind_eq; [apply empty_timers|]. eapply bind_eq; [apply conf_all_empty, empty_prefix|].
  match goal with |- context [io (get_prefix K ?x)] =>
    assert (E : x = default_rai id sdl) by rai_eq; rewrite E; clear E end.
  assert (E0 : rai_pfxs (default_rai id sdl) = 0) by rai_eq.
  eapply bind_eq; [exact (no_prefixes _ r w c E0 Ep)|].
  pose proof (get_prefix_only _ _ _ _ Ep) as Er. revert Er.
  generalize (rai_prefix r) (rai_pfxs r). intros ps n ->. clear Ep E0.
  eapply bind_eq; [apply empty_mtu|]. eapply bind_eq; [apply conf_all_empty, empty_route|].
  eapply bind_eq; [apply empty_rdnss|]. eapply bind_eq; [apply empty_dnssl|].
  eapply bind_eq; [apply empty_capport|]. rewrite empty_pref64.
  apply (f_equal Ret), (f_equal2 pair); [|reflexivity]. rai_eq.
Qed.

End fixed.

(** ** The NAT64 prefix *)

Section pref64.
Context `{Env} `{D : CapDb} (K : answers).

Lemma round_up8 val : 0 <= val <= ND_OPT_PREF64_LIFETIME_MAX →
  let rem := Z.land val ND_OPT_PREF64_PLC_MASK in
  let val' := if rem =? 0 then val else val + (8 - rem) in
  val <= val' < val + 8 ∧ val' mod 8 = 0 ∧ 0 <= val' <= ND_OPT_PREF64_LIFETIME_MAX.
Proof.
  unfold ND_OPT_PREF64_LIFETIME_MAX, ND_OPT_PREF64_PLC_MASK. change 7 with (Z.ones 3).
  intros Hv. cbv zeta. rewrite Z.land_ones by lia. change (2 ^ 3) with 8.
  destruct (Z.eqb_spec (val mod 8) 0); zlia.
Qed.

(** A multiple of 8 with a code below 8: both can be read back. *)
Lemma scaled_parts val plc : val mod 8 = 0 → 0 <= val <= ND_OPT_PREF64_LIFETIME_MAX → 0 <= plc < 8 →
  u16 (Z.lor val plc) = val + plc ∧ Z.land (u16 (Z.lor val plc)) 7 = plc ∧ 8 * Z.shiftr (u16 (Z.lor val plc)) 3 = val.
Proof.
  unfold ND_OPT_PREF64_LIFETIME_MAX. intros Hm Hv Hp.
  assert (El : Z.lor val plc = val + plc).
  { assert (E0 : Z.land val plc = 0).
    { rewrite <- (Z.mod_small plc 8) by lia. change 8 with (2 ^ 3). rewrite <- Z.land_ones by lia.
      rewrite Z.land_comm, <- Z.land_assoc, (Z.land_comm (Z.ones 3)), Z.land_ones by lia.
      change (2 ^ 3) with 8. by rewrite Hm, Z.land_0_r. }
    by rewrite <- Z.lxor_lor, <- Z.add_nocarry_lxor. }
  rewrite El. unfold u16. rewrite Z.mod_small by lia. split; [done|].
  change 7 with (Z.ones 3). rewrite Z.land_ones, Z.shiftr_div_pow2 by lia. change (2 ^ 3) with 8. zlia.
Qed.

(** The NAT64 prefix option (RFC 8781). If [getconfig] accepts one, the
    16-bit field it builds decodes to the prefix length code of the length
    kept for the interface and to a lifetime that is the requested one (or
    three times maxinterval, at most 65528) rounded up to 8 seconds. The length
    that is checked is the configured one modulo 256, so that 320 is accepted
    for 64. *)
Lemma conf_pref64_scaled r c r' c' len life :
  agetnum (cstr "pref64len") = Ret len → agetnum (cstr "pref64lifetime") = Ret life →
  0 <= rai_maxinterval r <= MAX_MAXINTERVAL →
  rai_pref64_specified r = false →
  conf_pref64 K r c = Ret (r', c') → rai_pref64_specified r' = true →
  let field := rai_pref64_lifetime_plc r' in
  let want := if life <? 0 then rai_maxinterval r * 3 else life in
  rai_pref64_prefix_length r' = (if len <? 0 then 64 else u8 len) ∧
  pref64_prefix_length_get_plc (rai_pref64_prefix_length r') = Some (Z.land field 7) ∧
  want <= 8 * Z.shiftr field 3 < want + 8 ∧ want <= ND_OPT_PREF64_LIFETIME_MAX ∧ 0 <= field < 2 ^ 16.
Proof.
  intros El Ev Hm Hn E Hs. revert E. unfold conf_pref64. unfold mbind at 1, ST_bind at 1, getstr.
  destruct (agetstr (cstr "pref64addr") (c_area c)) as [[[s a]|]| |]; cbn [mbind outcome_bind];
    [|intros [= <- <-]; congruence|done..].
  unfold conf_addr. destruct (k_inet_pton K _) as [addr|]; [|done]. rewrite mret_run. cbv zeta.
  rewrite (mayhave_run _ _ _ _ _ El). set (L := if len <? 0 then 64 else len).
  destruct (pref64_prefix_length_get_plc L) as [plc|] eqn:Ep; [|done].
  rewrite (getnum_run _ _ _ _ Ev).
  destruct ((life <? 0) || (life <=? ND_OPT_PREF64_LIFETIME_MAX)) eqn:Ec; [|done].
  rewrite check_run by done. unfold mret, ST_ret. intros E.
  apply (f_equal (λ o, match o with Ret (x, _) => x | _ => r' end)) in E. subst r'. clear Hs Hn El Ev.
  cbn -[u8 u16 u32 Z.land Z.lor Z.shiftr pref64_prefix_length_get_plc Z.mul Z.pow ND_OPT_PREF64_LIFETIME_MAX].
  set (W := if life <? 0 then rai_maxinterval r * 3 else life).
  set (V := if life <? 0 then _ else life).
  assert (EV : V = W ∧ 0 <= W <= ND_OPT_PREF64_LIFETIME_MAX).
  { subst V W. unfold u32, ND_OPT_PREF64_LIFETIME_MAX, MAX_MAXINTERVAL in *. rewrite Z.mod_small by lia.
    destruct (Z.ltb_spec life 0); simpl in Ec; [|lia]. destruct (Z.ltb_spec 65528 (rai_maxinterval r * 3)); lia. }
  destruct EV as [EV HW]. rewrite EV. clearbody V W. subst V.
  pose proof (round_up8 W HW) as (Hr & Hm8 & Hv). set (V := if Z.land W _ =? 0 then _ else _) in *.
  pose proof (get_plc_range _ _ Ep) as [_ Hplc]. clearbody V.
  destruct (scaled_parts V plc Hm8 Hv ltac:(lia)) as (E1 & E2 & E3). rewrite E2, E3, E1.
  unfold ND_OPT_PREF64_LIFETIME_MAX in *. split_and!; try lia.
  - subst L. by destruct (len <? 0).
  - rewrite <- Ep. unfold pref64_prefix_length_get_plc. by rewrite (u8_id (u8 L)) by apply u8_ok.
Qed.

End pref64.

(** ** Concrete entries *)

#[local] Instance fun_env : Env := {|
  clock := λ n, TV (1000 + Z.of_nat n) 0; random := λ _, 77; junk := λ _, 0xa5;
  if_indextoname := λ _, None |}.

Definition short_entry : bytes := entry_bytes (cstr "en0") [Num (cstr "maxinterval") (cstr "6")] ++ [0].

Lemma default_mininterval_rejected_witness :
  @getconfig_with _ (tbuf_db short_entry) config_answers (cstr "en0") (start_world [] 0 0) = Exit 1.
Proof.
  apply (default_mininterval_rejected (D:=tbuf_db short_entry) config_answers (cstr "en0") _ 6 false).
  - apply config_answers_ok.
  - vm_compute. reflexivity.
  - vm_compute. reflexivity.
  - unfold MIN_MAXINTERVAL. lia.
  - vm_compute. reflexivity.
Defined.

Lemma empty_tbuf post : empty_db (D:=tbuf_db (0 :: post)).
Proof. by split. Qed.

(** The interface list of the kernel: one Ethernet interface, en0. *)
Definition en0_msg : bytes :=
  let sdl := [20; 18; 4; 0; 6; 3; 6; 0; 101; 110; 48; 2; 0; 0; 0; 0; 9; 0; 0; 0] in
  [132; 0; 5; 14; 16; 0; 0; 0; 1; 0; 0; 0; 4; 0] ++ replicate 98 0 ++ sdl.

Definition en0_answers : answers := Answers (λ _, None) (λ _, 0) 1 (Some en0_msg) 2 (Some []) (Some 1500)
  (Some [Ifaddr (cstr "en0") AF_INET6 ([0x20; 1; 0x0d; 0xb8] ++ replicate 11 0 ++ [9])
           (replicate 8 255)]).

Definition en0_sdl : sockaddr_dl := Sdl 4 6 3 6 [101; 110; 48; 2; 0; 0; 0; 0; 9; 0; 0; 0].

Lemma getconfig_defaults_witness :
  ∃ r c, @conf_rainfo _ (tbuf_db (replicate BUFSIZ 0)) en0_answers (cstr "en0") (zero_rainfo 0)
           (Cfg 0 (start_world [] 0 1)) = Ret (r, c) ∧
    (rai_maxinterval r, rai_mininterval r, rai_lifetime r, rai_pfxs r) = (600, 200, 1800, 1) ∧
    (pfx_prefix <$> rai_prefix r) = [[0x20; 1; 0x0d; 0xb8] ++ replicate 12 0].
Proof.
  assert (Ep : ∃ r w, get_prefix en0_answers (default_rai en0_answers (cstr "en0") 0 en0_sdl) (start_world [] 0 1)
    = Ret (r, w) ∧ rai_pfxs r = 1 ∧ (pfx_prefix <$> rai_prefix r) = [[0x20; 1; 0x0d; 0xb8] ++ replicate 12 0]).
  { eexists _, _. split_and!; [vm_compute; reflexivity..]. }
  destruct Ep as (r & w & Ep & En & El). do 2 eexists. split.
  - apply (getconfig_defaults (D:=tbuf_db (replicate BUFSIZ 0)) en0_answers (cstr "en0") (empty_tbuf _)
      (Cfg 0 (start_world [] 0 1)) 0 en0_sdl r w); [vm_compute; reflexivity|done|exact Ep].
  - simpl. by rewrite En, El.
Defined.

Definition nat64_entry : bytes :=
  entry_bytes (cstr "en0") [Str (cstr "pref64addr") (cstr "2001:db8::"); Num (cstr "pref64len") (cstr "320");
    Num (cstr "pref64lifetime") (cstr "601")] ++ [0].

Lemma conf_pref64_scaled_witness :
  ∃ r c, @conf_pref64 (tbuf_db nat64_entry) config_answers (zero_rainfo 0) (Cfg 0 (start_world [] 0 1)) = Ret (r, c) ∧
    rai_pref64_prefix_length r = 64 ∧ 601 <= 8 * Z.shiftr (rai_pref64_lifetime_plc r) 3 < 609.
Proof.
  assert (Er : ∃ r c, @conf_pref64 (tbuf_db nat64_entry) config_answers (zero_rainfo 0)
    (Cfg 0 (start_world [] 0 1)) = Ret (r, c) ∧ rai_pref64_specified r = true).
  { eexists _, _. split; vm_compute; reflexivity. }
  destruct Er as (r & c & Er & Hs). exists r, c. split; [exact Er|].
  destruct (conf_pref64_scaled (D:=tbuf_db nat64_entry) config_answers (zero_rainfo 0)
    (Cfg 0 (start_world [] 0 1)) r c 320 601) as (E1 & _ & E2 & _); [..|exact (conj E1 E2)].
  - vm_compute. reflexivity.
  - vm_compute. reflexivity.
  - vm_compute. split; discriminate.
  - reflexivity.
  - exact Er.
  - exact Hs.
Defined.
