(* ===== verification/ConfigFile.v ===== *)
(** * ConfigFile: from the configuration file to a running interface
    (rtadvd.tproj/config.c, rtadvd.tproj/advcap.c)

    [getconfig] as a whole: the search of the file for the entry of the
    interface, the lookups in the buffer, the checks and the start of the
    advertisements, composed from what Advcap.v, ConfigArea.v and ConfigSafe.v
    show of the parts. *)

From S2P Require Import Prelude Timeval In6 NdOpt RaTimer RtMsg Rainfo.
From S2P Require Import RaState RaInv RaOps Advcap Rrenum Rtadvd RtadvdSafe.
From S2P Require Import Config ConfigArea ConfigSafe.

(** ** The last field of an entry *)

Lemma last_field_loop pre seg : ∀ rest fuel,
  Forall (λ c, c ≠ COLON) seg → (length seg < fuel)%nat →
  last_field fuel (pre ++ COLON :: seg ++ rest) (Z.of_nat (length pre + 1 + length seg))
  = Ret (Some (length pre + 1)%nat).
Proof.
  induction seg as [|x seg IH] using rev_ind; intros rest [|fuel] Hs Hf; simpl in Hf; try lia;
    cbn [last_field]; cbv zeta.
  - replace (Z.of_nat (length pre + 1 + length []) - 1) with (Z.of_nat (length pre)) by (simpl; lia).
    rewrite (proj2 (Z.ltb_ge _ _)) by lia. rewrite Nat2Z.id. cbn [app]. rewrite chr_at. cbn [mbind outcome_bind].
    rewrite Z.eqb_refl. do 2 f_equal. lia.
  - rewrite length_app in *. simpl in Hf. apply Forall_app in Hs as [Hs Hx]. apply Forall_inv in Hx.
    replace (Z.of_nat (length pre + 1 + (length seg + length [x])) - 1)
      with (Z.of_nat (length pre + 1 + length seg)) by (simpl; lia).
    rewrite (proj2 (Z.ltb_ge _ _)) by lia. rewrite Nat2Z.id, <- (app_assoc seg). cbn [app].
    pose proof (chr_at (pre ++ COLON :: seg) x rest) as Ec. rewrite length_app, <- app_assoc in Ec.
    cbn [app length] in Ec. replace (length pre + 1 + length seg)%nat with (length pre + S (length seg))%nat by lia.
    rewrite Ec. cbn [mbind outcome_bind]. rewrite (proj2 (Z.eqb_neq _ _) Hx).
    replace (length pre + S (length seg))%nat with (length pre + 1 + length seg)%nat by lia.
    apply IH; [done|lia].
Qed.

(** An entry whose last field is not a reference to another entry. *)
Definition no_tc (fs : list field) : Prop :=
  ∃ seg, last (fs ≫= segs) = Some seg ∧ seg ≠ [] ∧ take 2 seg ≠ cstr "tc".

Lemma last_field_entry names fs post :
  Forall seg_char names → Forall field_wf fs → no_tc fs →
  let buf := entry_bytes names fs ++ 0 :: post in
  ∃ p c0 c1, last_field (S (length buf)) buf (Z.of_nat (length (entry_bytes names fs)) - 2) = Ret (Some p) ∧
    chr buf p = Ret c0 ∧ chr buf (p + 1) = Ret c1 ∧ (c0 ≠ 116 ∨ c1 ≠ 99).
Proof.
  intros Hn Hw (seg & Hl & Hne & Htc) buf. apply last_Some in Hl as [ss Hss].
  pose proof (segs_ok fs Hw) as Hseg. rewrite Hss in Hseg. apply Forall_app in Hseg as [_ Hseg].
  apply Forall_inv in Hseg.
  assert (Ep : ∃ pre, names ++ COLON :: text ss = pre ++ [COLON]).
  { destruct ss as [|s ss _] using rev_ind; [by exists names|].
    exists (names ++ COLON :: text ss ++ s). rewrite text_app. unfold text at 2. csimpl. rewrite app_nil_r.
    rewrite <- !app_assoc. cbn [app]. by rewrite <- !app_assoc. }
  destruct Ep as [pre Ep].
  assert (Ee : entry_bytes names fs = pre ++ COLON :: seg ++ [COLON]).
  { unfold entry_bytes. rewrite <- text_segs, Hss, text_app.
    change (COLON :: text ss ++ text [seg]) with ((COLON :: text ss) ++ text [seg]).
    rewrite app_assoc, Ep. unfold text. csimpl. rewrite app_nil_r. by rewrite <- !app_assoc. }
  assert (Eb : buf = pre ++ COLON :: seg ++ COLON :: 0 :: post)
    by (unfold buf; rewrite Ee, <- !app_assoc; cbn [app]; by rewrite <- !app_assoc).
  assert (Hc : Forall (λ c, c ≠ COLON) seg) by (eapply Forall_impl; [exact Hseg|]; by intros c (_ & ? & _)).
  exists (length pre + 1)%nat, (default 0 (head seg)), (default COLON (head (tail seg))). split_and!.
  - destruct seg as [|y seg _] using rev_ind; [done|]. rewrite Ee, Eb, <- (app_assoc seg). cbn [app].
    apply Forall_app in Hc as [Hc _].
    replace (Z.of_nat _ - 2) with (Z.of_nat (length pre + 1 + length seg))
      by (rewrite !length_app; simpl; rewrite !length_app; simpl; lia).
    apply last_field_loop; [done|]. rewrite !length_app. simpl. rewrite length_app. simpl. lia.
  - rewrite Eb. destruct seg as [|c0 seg]; [done|]. apply (chr_plus pre [COLON] c0).
  - rewrite Eb. destruct seg as [|c0 seg]; [done|]. rewrite <- Nat.add_assoc.
    destruct seg as [|c1 seg]; apply (chr_plus pre [COLON; c0]).
  - destruct seg as [|c0 [|c1 seg]]; [done|by right|]. simpl. 
    destruct (decide (c0 = 116)) as [->|]; [|by left]. right. intros ->. by apply Htc.
Qed.

Lemma file_length lines :
  (length lines <= length (concat ((λ l, line_text l ++ [NEWLINE]) <$> lines)))%nat.
Proof. induction lines as [|x lines IH]; csimpl; [lia|]. rewrite !length_app. simpl. lia. Qed.

(** [tgetent] finds the line of the interface and leaves it as it is. *)
Lemma tgetent_entry fresh gap hopcount lines name l i names fs :
  Forall name_char name → Forall line_wf lines → length fresh = BUFSIZ →
  list_find (named name) lines = Some (i, l) →
  line_text l = entry_bytes names fs → Forall seg_char names → Forall field_wf fs → no_tc fs →
  let file := concat ((λ l, line_text l ++ [NEWLINE]) <$> lines) in
  ∃ post, tgetent (Some file) fresh gap hopcount fresh name
    = Ret (Some (1, entry_bytes names fs ++ 0 :: post, hopcount)).
Proof.
  intros Hn Hl Lf Ef El Hns Hfs Ht file.
  pose proof (find_entry_first name lines (S (length file)) fresh Hn Hl Lf) as Hf. cbv zeta in Hf.
  rewrite Ef in Hf. destruct Hf as [post Hf].
  { by apply Nat.lt_succ_r, file_length. }
  exists post. unfold tgetent. cbn [getent]. fold file in Hf. rewrite Hf. cbn [mbind outcome_bind].
  rewrite El. apply list_find_Some in Ef as (Hi & _ & _). apply list_elem_of_lookup_2 in Hi.
  rewrite Forall_forall in Hl. destruct (Hl l Hi) as (_ & _ & _ & Hc & _). rewrite El in Hc.
  pose proof (string_at_spec [] (entry_bytes names fs) post) as Hs. cbn [app length] in Hs. rewrite Hs.
  2: { eapply Forall_impl; [exact Hc|]. by intros c [? _]. }
  cbn [mbind outcome_bind].
  destruct (last_field_entry names fs post Hns Hfs Ht) as (p & c0 & c1 & -> & E0 & E1 & Hcc).
  cbn [mbind outcome_bind]. rewrite E0. cbn [mbind outcome_bind].
  destruct (Z.eqb_spec c0 116) as [->|]; [|done]. rewrite E1. cbn [mbind outcome_bind].
  destruct (Z.eqb_spec c1 99) as [->|]; [|done]. by destruct Hcc.
Qed.

Lemma tgetent_none fresh gap hopcount lines name :
  Forall name_char name → Forall line_wf lines → length fresh = BUFSIZ →
  list_find (named name) lines = None →
  let file := concat ((λ l, line_text l ++ [NEWLINE]) <$> lines) in
  tgetent (Some file) fresh gap hopcount fresh name = Ret (Some (0, fresh, hopcount)).
Proof.
  intros Hn Hl Lf Ef file. pose proof (find_entry_first name lines (S (length file)) fresh Hn Hl Lf) as Hf.
  cbv zeta in Hf. rewrite Ef in Hf. unfold tgetent. cbn [getent]. fold file in Hf. rewrite Hf; [done|].
  by apply Nat.lt_succ_r, file_length.
Qed.

(** ** The empty entry *)

Lemma nul_no_fault post : ¬ area_fault (D:=tbuf_db (0 :: post)).
Proof. by intros [(k & _ & E)|[(k & _ & E)|(k & ks & _ & _ & E)]]. Qed.
Lemma nul_rdnss post : rdnss_fits (D:=tbuf_db (0 :: post)).
Proof. intros v. simpl. by intros [= <-]. Qed.

(** ** The whole *)

(** The entry of an interface, as the manual describes it: its names and well-formed
    fields, no reference to another entry, and at most 127 name servers. *)
Definition plain_entry (l : cap_line) : Prop := ∃ names fs,
  line_text l = entry_bytes names fs ∧ Forall seg_char names ∧ Forall field_wf fs ∧ no_tc fs ∧
  lookup_num (cstr "rdnssaddrs") fs <= 127.

Lemma lookup_num_lower id fs : Forall field_wf fs → -1 <= lookup_num id fs.
Proof.
  induction 1 as [|f fs Hf _ IH]; simpl; [lia|]. destruct f as [i ds|i|i s]; try done.
  case_bool_decide; [|done]. destruct Hf as (_ & _ & Hd & _). unfold digits_val.
  pose proof (digits_mono (if default 0 (head ds) =? ZERO then 8 else 10) ds 0) as Hm.
  specialize (Hm ltac:(by case_match) ltac:(lia) Hd). lia.
Qed.

Lemma rdnss_fits_entry names fs post :
  Forall seg_char names → Forall field_wf fs → lookup_num (cstr "rdnssaddrs") fs <= 127 →
  rdnss_fits (D:=tbuf_db (entry_bytes names fs ++ 0 :: post)).
Proof.
  intros Hn Hf Hl v Hv. cbn [agetnum tbuf_db] in Hv. rewrite tgetnum_entry in Hv; [|done..| |done].
  2: { apply (bool_decide_eq_true_1 (Forall _ _)). reflexivity. }
  injection Hv as <-. pose proof (lookup_num_lower (cstr "rdnssaddrs") fs Hf). unfold s32.
  rewrite Z.mod_small by lia. lia.
Qed.

Section whole.
Context `{Env} (K : answers) (intface : bytes) (ids : list ident) (needs : Z → bool).

(** An entry that cannot fault. *)
Lemma getconfig_with_ok tbuf w :
  answers_ok K intface → rdnss_fits (D:=tbuf_db tbuf) → ¬ area_fault (D:=tbuf_db tbuf) →
  Inv ids needs w → below ids (w_next w) →
  match @getconfig_with _ (tbuf_db tbuf) K intface w with
  | Ret (_, w') => configured K ids needs w w'
  | Exit code => code = 1
  | Crash => False
  end.
Proof.
  intros HK Hf Hn Hi Hb. pose proof (getconfig_ok (D:=tbuf_db tbuf) K intface ids needs w HK Hf Hi Hb) as Hg.
  by destruct (getconfig_with K intface w) as [[]| |].
Qed.

(** The buffer that [getconfig] works on after the search of the file. *)
Lemma search_ok fresh gap hopcount lines :
  Forall name_char intface → Forall line_wf lines → length fresh = BUFSIZ →
  (∀ i l, list_find (named intface) lines = Some (i, l) → plain_entry l) →
  let file := concat ((λ l, line_text l ++ [NEWLINE]) <$> lines) in
  ∃ stat buf, tgetent (Some file) fresh gap hopcount fresh intface = Ret (Some (stat, buf, hopcount)) ∧
    let tbuf := if stat <=? 0 then replicate BUFSIZ 0 else buf in
    rdnss_fits (D:=tbuf_db tbuf) ∧ ¬ area_fault (D:=tbuf_db tbuf).
Proof.
  intros Hn Hl Lf Hp file. destruct (list_find (named intface) lines) as [[i l]|] eqn:Ef.
  - destruct (Hp i l eq_refl) as (names & fs & El & Hns & Hfs & Ht & Hr).
    destruct (tgetent_entry fresh gap hopcount lines intface l i names fs) as [post E]; try done.
    do 2 eexists. split; [exact E|]. split; [by apply rdnss_fits_entry|]. apply entry_no_fault; [done..|].
    apply list_find_Some in Ef as (Hi & _ & _). apply list_elem_of_lookup_2 in Hi.
    rewrite Forall_forall in Hl. destruct (Hl l Hi) as (_ & _ & _ & _ & _ & Hlen). rewrite El in Hlen.
    pose proof (fields_area_entry names fs). lia.
  - do 2 eexists. split; [by apply tgetent_none|]. split; [apply nul_rdnss|apply nul_no_fault].
Qed.

End whole.


(** ** A concrete file *)

Definition sample_lines : list cap_line :=
  [Line [cstr "lo0"] (cstr ":mtu#1500:");
   Line [cstr "en0"; cstr "ether"]
     (COLON :: concat ((λ f, field_bytes f ++ [COLON]) <$>
        (Num (cstr "maxinterval") (cstr "30") :: sample_fields ++ [Str (cstr "capport") (cstr "http://a/")])))].

Lemma sample_lines_wf : Forall line_wf sample_lines.
Proof.
  apply Forall_cons_2; [|apply Forall_singleton]; (unfold line_wf; split_and!;
    try done; try (by right); try (apply (bool_decide_eq_true_1 (Forall _ _)); reflexivity);
    unfold BUFSIZ; simpl; lia).
Qed.

Lemma sample_plain i l : list_find (named (cstr "en0")) sample_lines = Some (i, l) → plain_entry l.
Proof.
  assert (E : list_find (named (cstr "en0")) sample_lines = (1%nat,.) <$> sample_lines !! 1%nat) by reflexivity.
  rewrite E. intros [= _ <-].
  exists (cstr "en0|ether"), (Num (cstr "maxinterval") (cstr "30") :: sample_fields ++ [Str (cstr "capport") (cstr "http://a/")]).
  split_and!.
  - reflexivity.
  - apply (bool_decide_eq_true_1 (Forall _ _)). reflexivity.
  - apply Forall_cons_2; [|apply Forall_app_2; [apply sample_fields_wf|apply Forall_singleton]].
    + split_and!; try done; apply (bool_decide_eq_true_1 (Forall _ _)); reflexivity.
    + split; apply (bool_decide_eq_true_1 (Forall _ _)); reflexivity.
  - eexists. by split_and!.
  - done.
Qed.

Definition sample_file : bytes := concat ((λ l, line_text l ++ [NEWLINE]) <$> sample_lines).

Lemma config_file_run :
  match @getconfig config_env config_answers (Some sample_file) (replicate BUFSIZ 7) (λ _, 0) 0 (cstr "en0")
          (start_world [] 0 0) with
  | Ret (_, w) => (λ r, (rai_maxinterval r, rai_pfxs r, rai_capport r)) <$> ralist w
  | _ => []
  end = [(30, 1, Some (cstr "http://a/"))].
Proof. vm_compute. reflexivity. Qed.

