(* ===== verification/Stdio.v ===== *)
(** * Stdio: printed output and C strings

    The output of a program is the list of its [printf] calls, each with its
    format and its arguments; [isprint], [strlcat] and the other functions of
    the C library that the sources use on characters and strings. *)

From S2P Require Import Prelude.

Inductive arg :=
  | Num (z : Z)
  | Str (s : bytes)
  | Addr (a : bytes).
Definition printf : Type := string * list arg.
Abbreviation output := (list printf).

#[global] Instance arg_eq_dec : EqDecision arg.
Proof. solve_decision. Defined.

(** The characters of a string constant. *)
Definition chars (s : string) : bytes := (λ c, Z.of_N (Ascii.N_of_ascii c)) <$> String.list_ascii_of_string s.

(** The C locale. *)
Definition isprint (c : Z) : bool := (32 <=? c) && (c <=? 126).
Definition isupper (c : Z) : bool := (65 <=? c) && (c <=? 90).
Definition tolower (c : Z) : Z := if isupper c then c + 32 else c.
Definition isdigit (c : Z) : bool := (48 <=? c) && (c <=? 57).
Definition isxdigit (c : Z) : bool :=
  isdigit c || ((65 <=? c) && (c <=? 70)) || ((97 <=? c) && (c <=? 102)).

(** A character as "%c" or as "\%03o". *)
Definition escape (c : Z) : bytes :=
  if isprint c then [c]
  else [92; 48 + Z.land (Z.shiftr c 6) 7; 48 + Z.land (Z.shiftr c 3) 7; 48 + Z.land c 7].

(** [strlcat]: the new contents, and the length it tried to make. *)
Definition strlcat (dst src : bytes) (size : nat) : bytes * nat :=
  (take (size - 1) (dst ++ src), (length dst + length src)%nat).

(** [if (strlcat(dst, src, size) >= size) return NULL] *)
Definition append (dst src : bytes) (size : nat) : option bytes :=
  let '(dst', n) := strlcat dst src size in
  if (size <=? n)%nat then None else Some dst'.

Lemma append_Some dst src size dst' :
  append dst src size = Some dst' ↔ dst' = dst ++ src ∧ (length dst + length src < size)%nat.
Proof.
  unfold append, strlcat. destruct (size <=? length dst + length src)%nat eqn:E.
  - apply Nat.leb_le in E. split; [done|]. intros [_ ?]. lia.
  - apply Nat.leb_gt in E. rewrite take_ge by (rewrite length_app; lia). naive_solver.
Qed.

Lemma append_cases dst src size :
  (append dst src size = Some (dst ++ src) ∧ (length dst + length src < size)%nat) ∨
  (append dst src size = None ∧ (size <= length dst + length src)%nat).
Proof.
  unfold append, strlcat. destruct (size <=? length dst + length src)%nat eqn:E.
  - apply Nat.leb_le in E. by right.
  - apply Nat.leb_gt in E. left. by rewrite take_ge by (rewrite length_app; lia).
Qed.

Lemma escape_length c : (1 <= length (escape c) <= 4)%nat.
Proof. unfold escape. case_match; simpl; lia. Qed.

Lemma tolower_idem c : tolower (tolower c) = tolower c.
Proof.
  unfold tolower. destruct (isupper c) eqn:E; [|by rewrite E].
  unfold isupper in *. apply andb_prop in E as [E1 E2].
  destruct (65 <=? c + 32) eqn:?, (c + 32 <=? 90) eqn:?; try done. lia.
Qed.

Create HintDb stdio.
#[export] Hint Resolve escape_length : stdio.
