(* ===== verification/Md5.v ===== *)
(** * Md5: the message digest of ping6 (ping6.tproj/md5.c)

    [md5_init], [md5_loop], [md5_pad] and [md5_result] work on a context with
    a buffer of 64 octets; [md5_calc] is the compression function, written as
    64 macro calls that permute the roles of four variables. They are related
    to the definition of MD5 in RFC 1321: padding of the whole message, and
    rounds on a state that rotates. *)

From S2P Require Import Prelude.

Module MD5.

Definition MD5_BUFLEN : nat := 64.

Definition add32 (x y : Z) : Z := u32 (x + y).
Definition not32 (x : Z) : Z := u32 (Z.lnot x).
Definition SHIFT (X s : Z) : Z := Z.lor (u32 (Z.shiftl X s)) (Z.shiftr X (32 - s)).

Definition F (X Y W : Z) : Z := Z.lor (Z.land X Y) (Z.land (not32 X) W).
Definition G (X Y W : Z) : Z := Z.lor (Z.land X W) (Z.land Y (not32 W)).
Definition H (X Y W : Z) : Z := Z.lxor (Z.lxor X Y) W.
Definition I (X Y W : Z) : Z := Z.lxor Y (Z.lor X (not32 W)).

Definition MD5_A0 : Z := 0x67452301.
Definition MD5_B0 : Z := 0xefcdab89.
Definition MD5_C0 : Z := 0x98badcfe.
Definition MD5_D0 : Z := 0x10325476.

(** Integer part of 4294967296 times abs(sin(i)). *)
Definition T : list Z := [
  0;
  0xd76aa478; 0xe8c7b756; 0x242070db; 0xc1bdceee; 0xf57c0faf; 0x4787c62a; 0xa8304613; 0xfd469501;
  0x698098d8; 0x8b44f7af; 0xffff5bb1; 0x895cd7be; 0x6b901122; 0xfd987193; 0xa679438e; 0x49b40821;
  0xf61e2562; 0xc040b340; 0x265e5a51; 0xe9b6c7aa; 0xd62f105d; 0x2441453; 0xd8a1e681; 0xe7d3fbc8;
  0x21e1cde6; 0xc33707d6; 0xf4d50d87; 0x455a14ed; 0xa9e3e905; 0xfcefa3f8; 0x676f02d9; 0x8d2a4c8a;
  0xfffa3942; 0x8771f681; 0x6d9d6122; 0xfde5380c; 0xa4beea44; 0x4bdecfa9; 0xf6bb4b60; 0xbebfbc70;
  0x289b7ec6; 0xeaa127fa; 0xd4ef3085; 0x4881d05; 0xd9d4d039; 0xe6db99e5; 0x1fa27cf8; 0xc4ac5665;
  0xf4292244; 0x432aff97; 0xab9423a7; 0xfc93a039; 0x655b59c3; 0x8f0ccc92; 0xffeff47d; 0x85845dd1;
  0x6fa87e4f; 0xfe2ce6e0; 0xa3014314; 0x4e0811a1; 0xf7537e82; 0xbd3af235; 0x2ad7d2bb; 0xeb86d391].

Definition md5_paddat : bytes := 0x80 :: replicate 63 0.

(** ** The compression function *)

(** The local variables A, B, C and D, and the macros ROUND1 to ROUND4: the
    first variable is assigned from the other three. *)
Inductive var := A | B | C | D.
Record vars := Vars { vA : Z; vB : Z; vC : Z; vD : Z }.
Definition rd (v : var) (s : vars) : Z :=
  match v with A => vA s | B => vB s | C => vC s | D => vD s end.
Definition wr (v : var) (x : Z) (s : vars) : vars :=
  match v with
  | A => Vars x (vB s) (vC s) (vD s)
  | B => Vars (vA s) x (vC s) (vD s)
  | C => Vars (vA s) (vB s) x (vD s)
  | D => Vars (vA s) (vB s) (vC s) x
  end.

Section calc.
Context (X : list Z).

Definition ROUND (f : Z → Z → Z → Z) (a b c d : var) (k : nat) (sh : Z) (i : nat) (s : vars) : vars :=
  let s := wr a (add32 (add32 (add32 (rd a s) (f (rd b s) (rd c s) (rd d s))) (X !!! k)) (T !!! i)) s in
  let s := wr a (SHIFT (rd a s) sh) s in
  wr a (add32 (rd b s) (rd a s)) s.
Definition ROUND1 := ROUND F.
Definition ROUND2 := ROUND G.
Definition ROUND3 := ROUND H.
Definition ROUND4 := ROUND I.

Definition Sa : Z := 7.
Definition Sb : Z := 12.
Definition Sc : Z := 17.
Definition Sd : Z := 22.
Definition Se : Z := 5.
Definition Sf : Z := 9.
Definition Sg : Z := 14.
Definition Sh : Z := 20.
Definition Si : Z := 4.
Definition Sj : Z := 11.
Definition Sk : Z := 16.
Definition Sl : Z := 23.
Definition Sm : Z := 6.
Definition Sn : Z := 10.
Definition So : Z := 15.
Definition Sp : Z := 21.

Definition rounds : list (vars → vars) := [
  ROUND1 A B C D 0 Sa 1; ROUND1 D A B C 1 Sb 2; ROUND1 C D A B 2 Sc 3; ROUND1 B C D A 3 Sd 4;
  ROUND1 A B C D 4 Sa 5; ROUND1 D A B C 5 Sb 6; ROUND1 C D A B 6 Sc 7; ROUND1 B C D A 7 Sd 8;
  ROUND1 A B C D 8 Sa 9; ROUND1 D A B C 9 Sb 10; ROUND1 C D A B 10 Sc 11; ROUND1 B C D A 11 Sd 12;
  ROUND1 A B C D 12 Sa 13; ROUND1 D A B C 13 Sb 14; ROUND1 C D A B 14 Sc 15; ROUND1 B C D A 15 Sd 16;
  ROUND2 A B C D 1 Se 17; ROUND2 D A B C 6 Sf 18; ROUND2 C D A B 11 Sg 19; ROUND2 B C D A 0 Sh 20;
  ROUND2 A B C D 5 Se 21; ROUND2 D A B C 10 Sf 22; ROUND2 C D A B 15 Sg 23; ROUND2 B C D A 4 Sh 24;
  ROUND2 A B C D 9 Se 25; ROUND2 D A B C 14 Sf 26; ROUND2 C D A B 3 Sg 27; ROUND2 B C D A 8 Sh 28;
  ROUND2 A B C D 13 Se 29; ROUND2 D A B C 2 Sf 30; ROUND2 C D A B 7 Sg 31; ROUND2 B C D A 12 Sh 32;
  ROUND3 A B C D 5 Si 33; ROUND3 D A B C 8 Sj 34; ROUND3 C D A B 11 Sk 35; ROUND3 B C D A 14 Sl 36;
  ROUND3 A B C D 1 Si 37; ROUND3 D A B C 4 Sj 38; ROUND3 C D A B 7 Sk 39; ROUND3 B C D A 10 Sl 40;
  ROUND3 A B C D 13 Si 41; ROUND3 D A B C 0 Sj 42; ROUND3 C D A B 3 Sk 43; ROUND3 B C D A 6 Sl 44;
  ROUND3 A B C D 9 Si 45; ROUND3 D A B C 12 Sj 46; ROUND3 C D A B 15 Sk 47; ROUND3 B C D A 2 Sl 48;
  ROUND4 A B C D 0 Sm 49; ROUND4 D A B C 7 Sn 50; ROUND4 C D A B 14 So 51; ROUND4 B C D A 5 Sp 52;
  ROUND4 A B C D 12 Sm 53; ROUND4 D A B C 3 Sn 54; ROUND4 C D A B 10 So 55; ROUND4 B C D A 1 Sp 56;
  ROUND4 A B C D 8 Sm 57; ROUND4 D A B C 15 Sn 58; ROUND4 C D A B 6 So 59; ROUND4 B C D A 13 Sp 60;
  ROUND4 A B C D 4 Sm 61; ROUND4 D A B C 11 Sn 62; ROUND4 C D A B 2 So 63; ROUND4 B C D A 9 Sp 64].

Definition run (l : list (vars → vars)) (s : vars) : vars := foldl (λ s r, r s) s l.

End calc.

(** A block read as 16 words in host order (little-endian). *)
Definition word (b64 : bytes) (k : nat) : Z := le_val (take 4 (drop (4 * k) b64)).
Definition words (b64 : bytes) : list Z := word b64 <$> seq 0 16.

Record md5_ctxt := Ctxt {
  md5_sta : Z; md5_stb : Z; md5_stc : Z; md5_std : Z;
  md5_n : Z;
  md5_i : nat;
  md5_buf : bytes }.
#[export] Instance eta_md5_ctxt : Eta md5_ctxt := λ c,
  Ctxt (md5_sta c) (md5_stb c) (md5_stc c) (md5_std c) (md5_n c) (md5_i c) (md5_buf c).

Definition md5_calc (b64 : bytes) (ctxt : md5_ctxt) : md5_ctxt :=
  let s := run (rounds (words b64)) (Vars (md5_sta ctxt) (md5_stb ctxt) (md5_stc ctxt) (md5_std ctxt)) in
  ctxt <| md5_sta := add32 (md5_sta ctxt) (vA s) |> <| md5_stb := add32 (md5_stb ctxt) (vB s) |>
       <| md5_stc := add32 (md5_stc ctxt) (vC s) |> <| md5_std := add32 (md5_std ctxt) (vD s) |>.

(** ** The context *)

Definition md5_init : md5_ctxt := Ctxt MD5_A0 MD5_B0 MD5_C0 MD5_D0 0 0 (replicate MD5_BUFLEN 0).

(** [bcopy(src, buf + off, length)] *)
Definition bcopy (src : bytes) (buf : bytes) (off : nat) : bytes :=
  take off buf ++ src ++ drop (off + length src) buf.

(** The loop over the whole blocks of the input; [i] is the position. *)
Fixpoint calc_blocks (fuel : nat) (input : bytes) (i : nat) (ctxt : md5_ctxt) : nat * md5_ctxt :=
  match fuel with
  | O => (i, ctxt)
  | S fuel =>
      if (i + MD5_BUFLEN <=? length input)%nat
      then calc_blocks fuel input (i + MD5_BUFLEN) (md5_calc (take MD5_BUFLEN (drop i input)) ctxt)
      else (i, ctxt)
  end.

(** [len] is [length input]; the product [len * 8] has 32 bits. *)
Definition md5_loop (ctxt : md5_ctxt) (input : bytes) : md5_ctxt :=
  let len := length input in
  let ctxt := ctxt <| md5_n := u64 (md5_n ctxt + u32 (Z.of_nat len * 8)) |> in
  let gap := (MD5_BUFLEN - md5_i ctxt)%nat in
  if (gap <=? len)%nat then
    let ctxt := ctxt <| md5_buf := bcopy (take gap input) (md5_buf ctxt) (md5_i ctxt) |> in
    let ctxt := md5_calc (md5_buf ctxt) ctxt in
    let '(i, ctxt) := calc_blocks len input gap ctxt in
    let ctxt := ctxt <| md5_i := (len - i)%nat |> in
    ctxt <| md5_buf := bcopy (take (md5_i ctxt) (drop i input)) (md5_buf ctxt) 0 |>
  else
    let ctxt := ctxt <| md5_buf := bcopy input (md5_buf ctxt) (md5_i ctxt) |> in
    ctxt <| md5_i := (md5_i ctxt + len)%nat |>.

(** The octets of an integer in host order. *)
Fixpoint le_bytes (n : nat) (x : Z) : bytes :=
  match n with
  | O => []
  | S n => u8 x :: le_bytes n (Z.shiftr x 8)
  end.

Definition md5_pad (ctxt : md5_ctxt) : md5_ctxt :=
  let gap := (MD5_BUFLEN - md5_i ctxt)%nat in
  let ctxt :=
    if (8 <? gap)%nat then
      ctxt <| md5_buf := bcopy (take (gap - 8) md5_paddat) (md5_buf ctxt) (md5_i ctxt) |>
    else
      let ctxt := ctxt <| md5_buf := bcopy (take gap md5_paddat) (md5_buf ctxt) (md5_i ctxt) |> in
      let ctxt := md5_calc (md5_buf ctxt) ctxt in
      ctxt <| md5_buf := bcopy (take (MD5_BUFLEN - 8) (drop gap md5_paddat)) (md5_buf ctxt) 0 |> in
  let ctxt := ctxt <| md5_buf := bcopy (le_bytes 8 (md5_n ctxt)) (md5_buf ctxt) 56 |> in
  md5_calc (md5_buf ctxt) ctxt.

Definition md5_result (ctxt : md5_ctxt) : bytes :=
  le_bytes 4 (md5_sta ctxt) ++ le_bytes 4 (md5_stb ctxt) ++ le_bytes 4 (md5_stc ctxt)
    ++ le_bytes 4 (md5_std ctxt).

(** [MD5Init], a sequence of [MD5Update], [MD5Final]. *)
Definition md5 (chunks : list bytes) : bytes :=
  md5_result (md5_pad (foldl md5_loop md5_init chunks)).

(** ** RFC 1321 *)

Module Rfc1321.

(** Round [i] of 64: the function, the word, the amount of the rotation. *)
Definition fn (i : nat) : Z → Z → Z → Z :=
  match (i / 16)%nat with 0%nat => F | 1%nat => G | 2%nat => H | _ => I end.
Definition idx (i : nat) : nat :=
  match (i / 16)%nat with
  | 0%nat => i | 1%nat => (5 * i + 1) mod 16 | 2%nat => (3 * i + 5) mod 16 | _ => (7 * i) mod 16
  end.
Definition amount (i : nat) : Z :=
  [7; 12; 17; 22; 5; 9; 14; 20; 4; 11; 16; 23; 6; 10; 15; 21] !!! (4 * (i / 16) + i mod 4)%nat.

Definition rotl (x s : Z) : Z := (x * 2 ^ s) mod 2 ^ 32 + x / 2 ^ (32 - s).

(** The state rotates: the new value goes to the second place. *)
Definition state : Type := Z * Z * Z * Z.
Definition round (X : list Z) (st : state) (i : nat) : state :=
  let '(a, b, c, d) := st in
  (d, add32 b (rotl (add32 (add32 (add32 a (fn i b c d)) (X !!! idx i)) (T !!! S i)) (amount i)), b, c).

Definition compress (st : state) (block : bytes) : state :=
  let '(a, b, c, d) := foldl (round (words block)) st (seq 0 64) in
  let '(a0, b0, c0, d0) := st in
  (add32 a0 a, add32 b0 b, add32 c0 c, add32 d0 d).

(** A one bit, zeros up to 56 octets modulo 64, and the length in bits. *)
Definition padding (len : nat) : bytes :=
  0x80 :: replicate ((119 - len mod 64) mod 64) 0 ++ le_bytes 8 (u64 (8 * Z.of_nat len)).

Fixpoint chunk (n : nat) (m : bytes) : list bytes :=
  match n with O => [] | S n => take 64 m :: chunk n (drop 64 m) end.

Definition digest (m : bytes) : bytes :=
  let p := m ++ padding (length m) in
  let '(a, b, c, d) := foldl compress (MD5_A0, MD5_B0, MD5_C0, MD5_D0) (chunk (length p / 64) p) in
  le_bytes 4 a ++ le_bytes 4 b ++ le_bytes 4 c ++ le_bytes 4 d.

End Rfc1321.

(** ** The compression function is the one of RFC 1321 *)

Lemma add32_ok x y : 0 <= add32 x y < 2 ^ 32.
Proof. unfold add32, u32. apply Z.mod_pos_bound. lia. Qed.

(** The macro SHIFT rotates. *)
Lemma SHIFT_rotl x s : 0 <= x < 2 ^ 32 → 0 < s < 32 → SHIFT x s = Rfc1321.rotl x s.
Proof.
  intros Hx Hs. unfold SHIFT, Rfc1321.rotl, u32.
  rewrite Z.shiftl_mul_pow2, Z.shiftr_div_pow2 by lia.
  assert (E : (x * 2 ^ s) mod 2 ^ 32 = x mod 2 ^ (32 - s) * 2 ^ s).
  { replace (2 ^ 32) with (2 ^ (32 - s) * 2 ^ s) by (rewrite <- Z.pow_add_r by lia; f_equal; lia).
    apply Z.mul_mod_distr_r; apply Z.pow_nonzero; lia. }
  rewrite E, <- Z.shiftl_mul_pow2 by lia. symmetry. apply Z.add_nocarry_lor.
  apply Z.bits_inj'. intros n Hn. rewrite Z.land_spec, Z.bits_0, Z.shiftl_spec by lia.
  destruct (decide (n < s)); [by rewrite Z.testbit_neg_r by lia|].
  assert (Z.testbit (x / 2 ^ (32 - s)) n = false) as ->; [|by rewrite andb_false_r].
  apply Z.testbit_false; [lia|]. rewrite Z.div_div by lia.
  rewrite <- Z.pow_add_r by lia. rewrite Z.div_small; [done|].
  split; [lia|]. eapply Z.lt_le_trans; [apply Hx|]. apply Z.pow_le_mono_r; lia.
Qed.

Section simulation.
Context (X : list Z).

(** The state of the specification, seen through the roles of the variables. *)
Definition view (r : var * var * var * var) (s : vars) : Rfc1321.state :=
  let '(a, b, c, d) := r in (rd a s, rd b s, rd c s, rd d s).
Definition place (s : vars) : Rfc1321.state := view (A, B, C, D) s.

Definition rot (r : var * var * var * var) : var * var * var * var :=
  let '(a, b, c, d) := r in (d, a, b, c).
Definition call (r : var * var * var * var) (j : nat) : vars → vars :=
  let '(a, b, c, d) := r in
  ROUND X (Rfc1321.fn j) a b c d (Rfc1321.idx j) (Rfc1321.amount j) (S j).

Lemma amount_ok i : (i < 64)%nat → 0 < Rfc1321.amount i < 32.
Proof. intros Hi. do 64 (destruct i as [|i]; [vm_compute; done|]). lia. Qed.

(** One call in one of the four roles is one round of the rotating state. *)
Lemma call_round r j s :
  r ∈ [(A, B, C, D); (D, A, B, C); (C, D, A, B); (B, C, D, A)] → (j < 64)%nat →
  view (rot r) (call r j s) = Rfc1321.round X (view r s) j.
Proof.
  intros Hr Hj. destruct s as [a b c d]. unfold view, rot, call, ROUND, Rfc1321.round.
  rewrite !elem_of_cons, elem_of_nil in Hr.
  destruct Hr as [->|[->|[->|[->|[]]]]]; cbn [rd wr vA vB vC vD];
    rewrite SHIFT_rotl by (apply add32_ok || by apply amount_ok); reflexivity.
Qed.

(** Four calls bring the variables back to their roles. *)
Definition quad (i : nat) : list (vars → vars) :=
  [call (A, B, C, D) i; call (D, A, B, C) (i + 1); call (C, D, A, B) (i + 2); call (B, C, D, A) (i + 3)].

Lemma quad_rounds i s : (i + 3 < 64)%nat →
  place (run (quad i) s) = foldl (Rfc1321.round X) (place s) (seq i 4).
Proof.
  intros Hi.
  replace (seq i 4) with [i; i + 1; i + 2; i + 3]%nat by (simpl; repeat f_equal; lia).
  unfold quad, run, place. cbn [foldl].
  rewrite <- (call_round (A, B, C, D)) by (set_solver || lia).
  rewrite <- (call_round (D, A, B, C)) by (set_solver || lia).
  rewrite <- (call_round (C, D, A, B)) by (set_solver || lia).
  by rewrite <- (call_round (B, C, D, A)) by (set_solver || lia).
Qed.

Lemma run_app l l' s : run (l ++ l') s = run l' (run l s).
Proof. apply foldl_app. Qed.

Lemma quads_rounds n i s : (i + 4 * n <= 64)%nat →
  place (run (mjoin ((λ k, quad (i + 4 * k)) <$> seq 0 n)) s) =
  foldl (Rfc1321.round X) (place s) (seq i (4 * n)).
Proof.
  intros Hn. induction n as [|n IH] in i, s, Hn |- *; [done|].
  replace (4 * S n)%nat with (4 + 4 * n)%nat by lia.
  rewrite seq_app, foldl_app. cbn [seq fmap list_fmap mjoin list_join]. rewrite run_app.
  replace (i + 4 * 0)%nat with i by lia. rewrite <- (quad_rounds i) by lia. rewrite <- IH by lia.
  do 3 f_equal. rewrite <- fmap_S_seq, <- list_fmap_compose. apply list_fmap_ext.
  intros ? k _. simpl. f_equal. lia.
Qed.

Lemma rounds_quads : rounds X = mjoin ((λ k, quad (0 + 4 * k)) <$> seq 0 16).
Proof. reflexivity. Qed.

Lemma rounds_correct s : place (run (rounds X) s) = foldl (Rfc1321.round X) (place s) (seq 0 64).
Proof. rewrite rounds_quads. apply (quads_rounds 16); lia. Qed.

End simulation.
(** ** The context is the message read so far *)

Definition st (c : md5_ctxt) : Rfc1321.state := (md5_sta c, md5_stb c, md5_stc c, md5_std c).
Definition st0 : Rfc1321.state := (MD5_A0, MD5_B0, MD5_C0, MD5_D0).
Abbreviation compress_all := (foldl Rfc1321.compress).

Definition vars_of (c : md5_ctxt) : vars := Vars (md5_sta c) (md5_stb c) (md5_stc c) (md5_std c).

Lemma compress_place c b :
  Rfc1321.compress (st c) b =
  let s := run (rounds (words b)) (vars_of c) in
  (add32 (md5_sta c) (vA s), add32 (md5_stb c) (vB s), add32 (md5_stc c) (vC s), add32 (md5_std c) (vD s)).
Proof.
  unfold Rfc1321.compress. change (st c) with (place (vars_of c)).
  rewrite <- rounds_correct. by generalize (run (rounds (words b)) (vars_of c)).
Qed.

Lemma md5_calc_compress b c : st (md5_calc b c) = Rfc1321.compress (st c) b.
Proof. by rewrite compress_place. Qed.

#[local] Opaque Rfc1321.compress rounds.

Lemma md5_calc_rest b c :
  md5_n (md5_calc b c) = md5_n c ∧ md5_i (md5_calc b c) = md5_i c ∧ md5_buf (md5_calc b c) = md5_buf c.
Proof. done. Qed.

Lemma chunk_app n m m' : (64 * n <= length m)%nat → Rfc1321.chunk n (m ++ m') = Rfc1321.chunk n m.
Proof.
  revert m. induction n as [|n IH]; intros m Hn; [done|]. simpl.
  rewrite take_app_le, drop_app_le by lia. rewrite IH; [done|]. rewrite length_drop. lia.
Qed.

Lemma chunk_add a b m :
  Rfc1321.chunk (a + b) m = Rfc1321.chunk a m ++ Rfc1321.chunk b (drop (64 * a) m).
Proof.
  revert m. induction a as [|a IH]; intros m; [done|]. cbn [Nat.add Rfc1321.chunk app].
  rewrite IH, drop_drop. do 4 f_equal. lia.
Qed.

Lemma chunk_snoc nq q b : length q = (64 * nq)%nat → length b = 64%nat →
  Rfc1321.chunk (nq + 1) (q ++ b) = Rfc1321.chunk nq q ++ [b].
Proof.
  intros Hq Hb. rewrite chunk_add, chunk_app by lia. rewrite <- Hq, drop_app_length.
  simpl. by rewrite take_ge by lia.
Qed.

Lemma chunk_blocks a b q r : length q = (64 * a)%nat →
  Rfc1321.chunk (a + b) (q ++ r) = Rfc1321.chunk a q ++ Rfc1321.chunk b r.
Proof. intros Hq. rewrite chunk_add, chunk_app by lia. by rewrite <- Hq, drop_app_length. Qed.

(** The context [c] stands for the message [m]: the whole blocks are in the
    state, the rest is in the buffer, the length in bits is in the counter. *)
Record holds (c : md5_ctxt) (m : bytes) : Prop := {
  h_split : ∃ nq q r, m = q ++ r ∧ length q = (64 * nq)%nat ∧ (length r < 64)%nat ∧
    st c = compress_all st0 (Rfc1321.chunk nq q) ∧
    md5_i c = length r ∧ take (length r) (md5_buf c) = r;
  h_buf : length (md5_buf c) = 64%nat;
  h_n : md5_n c = u64 (8 * Z.of_nat (length m)) }.

Lemma holds_init : holds md5_init [].
Proof. split; [|done|done]. exists 0%nat, [], []. simpl. split_and!; done || lia. Qed.

Lemma length_bcopy src buf off :
  (off + length src <= length buf)%nat → length (bcopy src buf off) = length buf.
Proof. intros. unfold bcopy. rewrite !length_app, length_take, length_drop. lia. Qed.

Lemma take_bcopy src buf off r :
  (off + length src <= length buf)%nat → length r = off → take off buf = r →
  take (off + length src) (bcopy src buf off) = r ++ src.
Proof.
  intros Hl Hr <-. unfold bcopy. rewrite app_assoc, take_app_length'; [done|].
  rewrite length_app, length_take. lia.
Qed.

Lemma bcopy_fill src buf r :
  length buf = 64%nat → (length r + length src = 64)%nat → take (length r) buf = r →
  bcopy src buf (length r) = r ++ src.
Proof.
  intros Hb Hs Hr. rewrite <- (take_bcopy src buf (length r) r) by (lia || done).
  rewrite take_ge; [done|]. rewrite length_bcopy; lia.
Qed.

(** The loop compresses every whole block that is left. *)
Lemma calc_blocks_correct fuel input i c :
  (i <= length input)%nat → (length input - i < 64 * S fuel)%nat →
  ∃ k c', calc_blocks fuel input i c = ((i + 64 * k)%nat, c') ∧
    (i + 64 * k <= length input < i + 64 * S k)%nat ∧
    st c' = compress_all (st c) (Rfc1321.chunk k (drop i input)) ∧
    md5_n c' = md5_n c ∧ md5_buf c' = md5_buf c.
Proof.
  revert i c. induction fuel as [|fuel IH]; intros i c Hi Hf.
  { exists 0%nat, c. simpl. repeat split; [f_equal|..]; lia. }
  cbn [calc_blocks]. unfold MD5_BUFLEN in *. case_match eqn:E.
  - apply Nat.leb_le in E. set (c1 := md5_calc (take 64 (drop i input)) c).
    destruct (IH (i + 64)%nat c1) as (k & c' & -> & Hk & Hst & Hn & Hb); [lia|lia|].
    exists (S k), c'. split; [f_equal; lia|]. split; [lia|].
    subst c1. rewrite Hst, md5_calc_compress, Hn, Hb. split_and!; [|done|done].
    cbn [Rfc1321.chunk foldl]. by rewrite drop_drop.
  - apply Nat.leb_gt in E. exists 0%nat, c. simpl. repeat split; [f_equal|..]; lia.
Qed.

Lemma count_add (a b : bytes) : 8 * Z.of_nat (length b) < 2 ^ 32 →
  u64 (u64 (8 * Z.of_nat (length a)) + u32 (Z.of_nat (length b) * 8)) =
  u64 (8 * Z.of_nat (length (a ++ b))).
Proof.
  intros Hb. unfold u64, u32. rewrite (Z.mod_small (_ * 8)) by lia.
  rewrite Zplus_mod_idemp_l, length_app. f_equal. lia.
Qed.

(** [md5_loop] appends the input to the message. *)
Lemma holds_loop c m input :
  holds c m → 8 * Z.of_nat (length input) < 2 ^ 32 → holds (md5_loop c input) (m ++ input).
Proof.
  intros [(nq & q & r & -> & Hq & Hr & Hst & Hi & Hbr) Hbuf Hn] Hlen.
  unfold md5_loop, MD5_BUFLEN. cbn [md5_i md5_buf update_field]. rewrite Hi. case_match eqn:E.
  - apply Nat.leb_le in E. set (g := take (64 - length r) input).
    assert (Hg : length g = (64 - length r)%nat) by (unfold g; rewrite length_take; lia).
    rewrite (bcopy_fill g) by (done || lia).
    match goal with |- context [calc_blocks _ _ _ ?c1] => set (c1' := c1) end.
    destruct (calc_blocks_correct (length input) input (64 - length r) c1')
      as (k & c' & -> & Hk & Hst' & Hn' & Hb'); [lia|lia|].
    set (rest := drop (64 - length r + 64 * k) input).
    assert (Hrest : length rest = (length input - (64 - length r + 64 * k))%nat)
      by (unfold rest; rewrite length_drop; lia).
    set (mid := take (64 * k) (drop (64 - length r) input)).
    assert (Hmid : length mid = (64 * k)%nat) by (unfold mid; rewrite length_take, length_drop; lia).
    assert (Hin : input = g ++ mid ++ rest).
    { unfold g, mid, rest. rewrite <- drop_drop. by rewrite take_drop, take_drop. }
    assert (Hb'' : md5_buf c' = r ++ g) by (rewrite Hb'; done).
    split; cbn [md5_i md5_buf md5_n update_field].
    + exists (nq + 1 + k)%nat, (q ++ (r ++ g) ++ mid), rest. split_and!.
      * rewrite Hin at 1. by rewrite <- !(assoc_L (++)).
      * rewrite !length_app. lia.
      * lia.
      * unfold st at 1. cbn [md5_sta md5_stb md5_stc md5_std update_field]. fold (st c').
        rewrite Hst'. unfold c1'. rewrite md5_calc_compress. unfold st at 1.
        cbn [md5_sta md5_stb md5_stc md5_std update_field]. fold (st c). rewrite Hst.
        rewrite (assoc_L (++) q), chunk_blocks by (rewrite !length_app; lia).
        rewrite chunk_snoc by (rewrite ?length_app; lia). rewrite !foldl_app. cbn [foldl].
        f_equal. rewrite <- (take_drop (64 * k) (drop (64 - length r) input)).
        fold mid. by rewrite chunk_app by lia.
      * lia.
      * unfold bcopy. rewrite take_0. fold rest. rewrite (take_ge rest) by lia. simpl.
        by rewrite take_app_length.
    + rewrite length_bcopy; rewrite Hb'', length_app; [lia|]. rewrite length_take. lia.
    + rewrite Hn'. unfold c1'. cbn [md5_n md5_calc update_field]. rewrite Hn. by apply count_add.
  - apply Nat.leb_gt in E. split; cbn [md5_i md5_buf md5_n update_field].
    + exists nq, q, (r ++ input). rewrite length_app. split_and!; [by rewrite (assoc_L (++))|done|lia|done|lia|].
      apply take_bcopy; lia || done.
    + rewrite length_bcopy; lia.
    + rewrite Hn. by apply count_add.
Qed.

Lemma holds_loops c m chunks :
  holds c m → Forall (λ b, 8 * Z.of_nat (length b) < 2 ^ 32) chunks →
  holds (foldl md5_loop c chunks) (m ++ concat chunks).
Proof.
  intros Hc Hl. revert c m Hc. induction Hl as [|b l Hb Hl IH]; intros c m Hc; simpl.
  { by rewrite app_nil_r. }
  rewrite (assoc_L (++)). apply IH. by apply holds_loop.
Qed.

Lemma length_le_bytes n x : length (le_bytes n x) = n.
Proof. revert x. induction n; intros; simpl; auto. Qed.

(** The padding in one block, or with a block of its own for the length. *)
Definition tail_blocks (r : bytes) (n : Z) : list bytes :=
  if (length r <? 56)%nat then [r ++ take (56 - length r) md5_paddat ++ le_bytes 8 n]
  else [r ++ take (64 - length r) md5_paddat; replicate 56 0 ++ le_bytes 8 n].

Lemma take_paddat k : (0 < k <= 64)%nat → take k md5_paddat = 0x80 :: replicate (k - 1) 0.
Proof.
  intros Hk. destruct k as [|k]; [lia|]. unfold md5_paddat. cbn [take]. f_equal.
  rewrite take_replicate. f_equal. lia.
Qed.

Lemma md5_pad_blocks c m nq q r :
  holds c m → m = q ++ r → length q = (64 * nq)%nat → (length r < 64)%nat →
  st c = compress_all st0 (Rfc1321.chunk nq q) → md5_i c = length r → take (length r) (md5_buf c) = r →
  st (md5_pad c) = compress_all st0 (Rfc1321.chunk nq q ++ tail_blocks r (md5_n c)).
Proof.
  intros [_ Hbuf _] -> Hq Hr Hst Hi Hbr. unfold md5_pad, tail_blocks, MD5_BUFLEN. rewrite Hi.
  rewrite md5_calc_compress, foldl_app, <- Hst.
  assert (Hp : length md5_paddat = 64%nat) by reflexivity.
  destruct (decide (length r < 56)%nat) as [H56|H56].
  - rewrite (proj2 (Nat.ltb_lt 8 _)), (proj2 (Nat.ltb_lt _ 56)) by lia.
    cbn [md5_buf md5_n update_field foldl]. unfold st at 1. cbn [md5_sta md5_stb md5_stc md5_std update_field].
    fold (st c). apply (f_equal (Rfc1321.compress (st c))). rewrite (assoc_L (++)).
    replace (64 - length r - 8)%nat with (56 - length r)%nat by lia.
    set (p := take (56 - length r) md5_paddat).
    assert (Hlp : length p = (56 - length r)%nat) by (unfold p; rewrite length_take; lia).
    replace 56%nat with (length (r ++ p)) at 1 by (rewrite length_app; lia).
    apply bcopy_fill; rewrite ?length_bcopy, ?length_le_bytes, ?length_app; try lia.
    apply take_bcopy; lia || done.
  - rewrite (proj2 (Nat.ltb_ge 8 _)), (proj2 (Nat.ltb_ge _ 56)) by lia.
    set (p := take (64 - length r) md5_paddat).
    assert (Hlp : length p = (64 - length r)%nat) by (unfold p; rewrite length_take; lia).
    rewrite (bcopy_fill p) by (done || lia).
    set (c1 := md5_calc _ _). cbn [md5_buf md5_n update_field foldl].
    unfold st at 1. cbn [md5_sta md5_stb md5_stc md5_std update_field]. fold (st c1).
    change (md5_n c1) with (md5_n c). change (md5_buf c1) with (r ++ p).
    unfold c1. rewrite md5_calc_compress. unfold st at 1. cbn [md5_sta md5_stb md5_stc md5_std update_field].
    fold (st c). apply (f_equal (Rfc1321.compress _)).
    assert (Hz : take (64 - 8) (drop (64 - length r) md5_paddat) = replicate 56 0).
    { unfold md5_paddat. destruct (64 - length r)%nat as [|k] eqn:Ek; [lia|]. cbn [drop].
      rewrite drop_replicate, take_replicate. f_equal. lia. }
    rewrite Hz. replace 56%nat with (length (replicate 56 0)) at 2 by apply length_replicate.
    apply bcopy_fill; rewrite ?length_bcopy, ?length_le_bytes; rewrite ?length_replicate, ?length_app; try lia.
    apply (take_bcopy (replicate 56 0) _ 0 []); rewrite ?length_replicate, ?length_app; done || lia.
Qed.

(** The same blocks cut from the padded message. *)
Lemma padded_blocks nq q r :
  length q = (64 * nq)%nat → (length r < 64)%nat →
  let p := (q ++ r) ++ Rfc1321.padding (length (q ++ r)) in
  Rfc1321.chunk (length p / 64) p =
  Rfc1321.chunk nq q ++ tail_blocks r (u64 (8 * Z.of_nat (length (q ++ r)))).
Proof.
  intros Hq Hr p. subst p. unfold Rfc1321.padding, tail_blocks.
  set (n := u64 _). rewrite (length_app q r), Hq.
  replace ((64 * nq + length r) mod 64)%nat with (length r)
    by (rewrite Nat.mul_comm, Nat.add_comm, Nat.Div0.mod_add, Nat.mod_small; lia).
  assert (Hn := length_le_bytes 8 n).
  destruct (decide (length r < 56)%nat) as [H56|H56].
  - rewrite (proj2 (Nat.ltb_lt _ 56)), take_paddat by lia.
    replace ((119 - length r) mod 64)%nat with (56 - length r - 1)%nat
      by (apply (Nat.mod_unique _ _ 1); lia).
    rewrite <- (assoc_L (++)). set (b := r ++ _).
    assert (Hb : length b = 64%nat)
      by (unfold b; rewrite length_app; cbn [length]; rewrite length_app, length_replicate; lia).
    replace (length (q ++ b) / 64)%nat with (nq + 1)%nat
      by (rewrite length_app, Hq, Hb; apply (Nat.div_unique _ _ _ 0); lia).
    rewrite chunk_snoc by done. done.
  - rewrite (proj2 (Nat.ltb_ge _ 56)), take_paddat by lia.
    replace ((119 - length r) mod 64)%nat with ((64 - length r - 1) + 56)%nat
      by (apply (Nat.mod_unique _ _ 0); lia).
    rewrite replicate_add. set (b := replicate 56 0 ++ le_bytes 8 n).
    set (a := r ++ 0x80 :: replicate (64 - length r - 1) 0).
    assert (Ha : length a = 64%nat)
      by (unfold a; rewrite length_app; cbn [length]; rewrite length_replicate; lia).
    assert (Hb : length b = 64%nat) by (unfold b; rewrite length_app, length_replicate; lia).
    replace ((q ++ r) ++ _) with ((q ++ a) ++ b)
      by (unfold a, b; rewrite <- ?(assoc_L (++)); cbn [app]; by rewrite <- ?(assoc_L (++))).
    replace (length ((q ++ a) ++ b) / 64)%nat with (nq + 1 + 1)%nat
      by (rewrite !length_app, Hq, Ha, Hb; apply (Nat.div_unique _ _ _ 0); lia).
    rewrite chunk_snoc by (rewrite ?length_app; lia). rewrite chunk_snoc by done.
    by rewrite <- (assoc_L (++)).
Qed.

Lemma digest_length m : length (Rfc1321.digest m) = 16%nat.
Proof. unfold Rfc1321.digest. destruct (foldl _ _ _) as [[[a b] c] d]. done. Qed.

Lemma md5_digest (chunks : list bytes) :
  Forall (λ b, 8 * Z.of_nat (length b) < 2 ^ 32) chunks →
  md5 chunks = Rfc1321.digest (concat chunks).
Proof.
  intros Hl. assert (Hh := holds_loops _ _ _ holds_init Hl). simpl in Hh.
  destruct (h_split _ _ Hh) as (nq & q & r & Hm & Hq & Hr & Hst & Hi & Hbr).
  unfold md5, Rfc1321.digest. rewrite Hm, (padded_blocks nq q r Hq Hr).
  pose proof (md5_pad_blocks _ _ _ _ _ Hh Hm Hq Hr Hst Hi Hbr) as E.
  rewrite (h_n _ _ Hh), Hm in E. unfold st0 in E. rewrite <- E. done.
Qed.

(** C29: the digest computed by [MD5Init], any sequence of [MD5Update] and
    [MD5Final] is the MD5 of RFC 1321 of the concatenated input, whatever the
    sizes of the pieces, as long as each is shorter than 2^29 octets (the
    product [len * 8] has 32 bits). *)
Theorem md5_correct (chunks : list bytes) :
  Forall (λ b, 8 * Z.of_nat (length b) < 2 ^ 32) chunks →
  md5 chunks = Rfc1321.digest (concat chunks).
Proof. apply md5_digest. Qed.

Lemma md5_correct_witness :
  md5 [replicate 50 97; replicate 70 98; [99]] =
  Rfc1321.digest (replicate 50 97 ++ replicate 70 98 ++ [99]).
Proof. apply (md5_correct [replicate 50 97; replicate 70 98; [99]]). repeat constructor. Defined.

(** The test suite of RFC 1321. *)
Lemma md5_abc : md5 [[97; 98; 99]] =
  [0x90; 0x01; 0x50; 0x98; 0x3c; 0xd2; 0x4f; 0xb0; 0xd6; 0x96; 0x3f; 0x7d; 0x28; 0xe1; 0x7f; 0x72].
Proof. vm_compute. reflexivity. Qed.
Lemma rfc_abc : Rfc1321.digest [97; 98; 99] = md5 [[97]; [98; 99]].
Proof. vm_compute. reflexivity. Qed.

End MD5.
