(* ===== verification/NodeInfo.v ===== *)
(** * NodeInfo: the Node Information replies of ping6 (ping6.tproj/ping6.c)

    [dnsdecode] prints a name in wire format, [pr_bitrange] and [pr_suptypes]
    print a bitmap of query types as ranges, [pr_nodeaddr] the addresses of a
    node, and [nigroup] computes the multicast group of a name. *)

From S2P Require Import Prelude Stdio Md5.

Definition NS_MAXDNAME : nat := 1025.

(** ** Names

    Pointers into the packet are offsets; [base] is [None] for NULL. *)

Module Dns.
Section dns.
Context (pkt : bytes).

(** The inner loop [while (i-- > 0 && cp < ep)], with [i] still to copy: the
    final [i], [cp] and buffer, or [None] for the return of NULL. *)
Fixpoint copy_label (i : nat) (cp ep : nat) (buf : bytes) (bufsiz : nat) : option (Z * nat * bytes) :=
  match i with
  | O => Some (-1, cp, buf)
  | S i =>
      if (cp <? ep)%nat then
        let cresult := escape (pkt !!! cp) in
        if (NS_MAXDNAME + 1 <=? length cresult)%nat then None
        else
          match append buf cresult bufsiz with
          | None => None
          | Some buf => copy_label i (S cp) ep buf bufsiz
          end
      else Some (Z.of_nat i, cp, buf)
  end.

(** After the loop. *)
Definition finish (i : Z) (cp : nat) (buf : bytes) : option (nat * bytes) :=
  if i =? 0 then Some (S cp, buf) else None.

(** [cp - base > off], where a null [base] makes the difference an address. *)
Definition beyond (base : option nat) (cp : nat) (off : Z) : bool :=
  match base with Some b => off <? Z.of_nat cp - Z.of_nat b | None => true end.

(** The loop from [cp] with the buffer filled so far; [None] when the fuel is
    used up, [Some None] for the return of NULL. *)
Fixpoint dns_loop (fuel : nat) (base : option nat) (sp ep : nat) (bufsiz : nat)
    (cp : nat) (i : Z) (buf : bytes) : option (option (nat * bytes)) :=
  match fuel with
  | O => None
  | S fuel =>
      if (ep <=? cp)%nat then Some (finish i cp buf)
      else
        let i := pkt !!! cp in
        match (if (i =? 0) || negb (cp =? sp)%nat then append buf [46] bufsiz else Some buf) with
        | None => Some None
        | Some buf =>
            if i =? 0 then Some (finish i cp buf)
            else
              let cp := S cp in
              if (Z.land i 0xc0 =? 0xc0) && beyond base cp (Z.land i 0x3f) then
                match base with
                | None => Some None
                | Some b =>
                    let comp := (b + Z.to_nat (Z.land i 0x3f))%nat in
                    match
                      (if (cp <=? comp)%nat then Some None
                       else dns_loop fuel base comp cp (NS_MAXDNAME + 1) comp 0 [])
                    with
                    | None => None
                    | Some None => Some None
                    | Some (Some (_, cresult)) =>
                        match append buf cresult bufsiz with
                        | None => Some None
                        | Some buf => Some (finish i cp buf)
                        end
                    end
                end
              else if Z.land i 0x3f =? i then
                if (ep - cp <? Z.to_nat i)%nat then Some None
                else
                  match copy_label (Z.to_nat i) cp ep buf bufsiz with
                  | None => Some None
                  | Some (i, cp, buf) => dns_loop fuel base sp ep bufsiz cp i buf
                  end
              else Some None
        end
  end.

Definition dnsdecode (fuel : nat) (base : option nat) (sp ep : nat) (bufsiz : nat)
    : option (option (nat * bytes)) :=
  if (ep <=? sp)%nat then Some None else dns_loop fuel base sp ep bufsiz sp 0 [].

End dns.

(** *** The names that are decoded

    A name in wire format, and the text of its labels: each label followed by
    a dot, the characters that are not printable as octal escapes. *)
Definition wire (ls : list bytes) : bytes :=
  concat ((λ l, Z.of_nat (length l) :: l) <$> ls) ++ [0].
Definition shown (l : bytes) : bytes := concat (escape <$> l).
Definition text (ls : list bytes) : bytes :=
  match ls with [] => [46] | _ => concat ((λ l, shown l ++ [46]) <$> ls) end.
Definition label_ok (l : bytes) : Prop := (1 <= length l <= 63)%nat.
#[global] Instance label_ok_dec l : Decision (label_ok l).
Proof. unfold label_ok. apply _. Defined.

(** The text appended from a position of the name, the first or a later one. *)
Fixpoint rest_text (first : bool) (ls : list bytes) : bytes :=
  match ls with
  | [] => [46]
  | l :: ls => (if first then [] else [46]) ++ shown l ++ rest_text false ls
  end.

Lemma shown_cons x l : shown (x :: l) = escape x ++ shown l.
Proof. done. Qed.

Lemma rest_text_later ls : rest_text false ls = [46] ++ concat ((λ l, shown l ++ [46]) <$> ls).
Proof.
  induction ls as [|l ls IH]; [done|]. cbn [rest_text fmap list_fmap concat]. rewrite IH.
  by rewrite <- !(assoc_L (++)).
Qed.
Lemma rest_text_first ls : rest_text true ls = text ls.
Proof.
  destruct ls as [|l ls]; [done|]. cbn [rest_text text fmap list_fmap concat].
  rewrite rest_text_later. simpl. by rewrite <- !(assoc_L (++)).
Qed.

Lemma wire_cons l ls : wire (l :: ls) = Z.of_nat (length l) :: l ++ wire ls.
Proof. unfold wire. simpl. by rewrite (assoc_L (++)). Qed.
Lemma wire_length ls : (length ls < length (wire ls))%nat.
Proof.
  induction ls as [|l ls IH]; [simpl; lia|]. rewrite wire_cons. simpl. rewrite length_app. lia.
Qed.

Section decoded.
Context (pkt : bytes).

(** The name [w] is in the packet at [cp], before [ep]. *)
Definition at_ (cp ep : nat) (w : bytes) : Prop :=
  (cp + length w <= ep)%nat ∧ take (length w) (drop cp pkt) = w.

Lemma at_app cp ep w1 w2 : at_ cp ep (w1 ++ w2) ↔ at_ cp (cp + length w1) w1 ∧ at_ (cp + length w1) ep w2.
Proof.
  unfold at_. rewrite length_app. split.
  - intros [Hl Ht]. rewrite take_add in Ht. rewrite drop_drop in Ht. split.
    + split; [lia|]. assert (length (take (length w1) (drop cp pkt)) = length w1) as Hw.
      { rewrite length_take. apply (f_equal length) in Ht. rewrite !length_app, !length_take in Ht. lia. }
      by apply app_inj_1 in Ht as [? _].
    + split; [lia|]. assert (length (take (length w1) (drop cp pkt)) = length w1) as Hw.
      { rewrite length_take. apply (f_equal length) in Ht. rewrite !length_app, !length_take in Ht. lia. }
      by apply app_inj_1 in Ht as [_ ?].
  - intros [[_ H1] [Hl H2]]. split; [lia|]. by rewrite take_add, drop_drop, H1, H2.
Qed.

Lemma at_cons cp ep x w : (ep <= length pkt)%nat → at_ cp ep (x :: w) ↔ (cp < ep)%nat ∧ pkt !!! cp = x ∧ at_ (S cp) ep w.
Proof.
  intros Hep. change (x :: w) with ([x] ++ w). rewrite at_app. simpl.
  replace (cp + 1)%nat with (S cp) by lia. unfold at_ at 1. simpl.
  destruct (decide (cp < length pkt)%nat) as [Hcp|].
  - destruct (lookup_lt_is_Some_2 pkt cp Hcp) as [y Hy]. rewrite (drop_S _ _ _ Hy). simpl.
    rewrite take_0, (list_lookup_total_correct _ _ _ Hy). unfold at_. naive_solver lia.
  - rewrite drop_ge by lia. unfold at_. split; [intros [[_ ?] _]; done|lia].
Qed.

Lemma copy_label_spec n cp ep buf bufsiz :
  (cp + n <= ep)%nat → (ep <= length pkt)%nat →
  let l := take n (drop cp pkt) in
  let t := shown l in
  copy_label pkt n cp ep buf bufsiz =
    if (length buf + length t <? bufsiz)%nat || (n =? 0)%nat
    then Some (-1, (cp + n)%nat, buf ++ t) else None.
Proof.
  revert cp buf. induction n as [|n IH]; intros cp buf Hn Hep l t.
  { subst l t. simpl. rewrite orb_true_r, app_nil_r. by replace (cp + 0)%nat with cp by lia. }
  destruct (lookup_lt_is_Some_2 pkt cp ltac:(lia)) as [x Hx].
  subst l t. rewrite (drop_S _ _ _ Hx). cbn [copy_label take].
  rewrite shown_cons.
  rewrite (proj2 (Nat.ltb_lt _ _)), (list_lookup_total_correct _ _ _ Hx) by lia.
  pose proof (escape_length x). rewrite (proj2 (Nat.leb_gt _ _)) by (unfold NS_MAXDNAME; lia).
  set (t := shown (take n (drop (S cp) pkt))).
  rewrite length_app. cbn [Nat.eqb]. rewrite orb_false_r.
  destruct (append_cases buf (escape x) bufsiz) as [[-> Hs]|[-> Hs]].
  - rewrite IH by lia. cbv zeta. fold t. rewrite length_app. replace (S cp + n)%nat with (cp + S n)%nat by lia.
    destruct (length buf + (length (escape x) + length t) <? bufsiz)%nat eqn:E.
    + apply Nat.ltb_lt in E. rewrite (proj2 (Nat.ltb_lt _ _)) by lia. by rewrite <- (assoc_L (++)).
    + apply Nat.ltb_ge in E. rewrite (proj2 (Nat.ltb_ge _ _)) by lia.
      destruct n; [|done]. unfold t in E. simpl in E. lia.
  - by rewrite (proj2 (Nat.ltb_ge _ _)) by lia.
Qed.

(** The first octet of a label is neither a pointer nor reserved. *)
Lemma label_octet i : 0 <= i <= 63 → Z.land i 0xc0 = 0 ∧ Z.land i 0x3f = i.
Proof.
  intros Hi. assert (E : Z.land i 0x3f = i).
  { change 0x3f with (Z.ones 6). rewrite Z.land_ones by lia. apply Z.mod_small. lia. }
  split; [|done]. rewrite <- E, <- Z.land_assoc. apply Z.land_0_r.
Qed.
Lemma label_octet_inv i : Z.land i 0x3f = i → 0 <= i <= 63.
Proof.
  change 0x3f with (Z.ones 6). rewrite Z.land_ones by lia. change (2 ^ 6) with 64.
  change (Z.ones 6) with 63. intros E. pose proof (Z.mod_pos_bound i 64 ltac:(lia)). lia.
Qed.

Lemma dns_loop_complete fuel base sp ep bufsiz cp i buf ls :
  (ep <= length pkt)%nat → (sp <= cp)%nat → (length ls < fuel)%nat →
  Forall label_ok ls → at_ cp ep (wire ls) →
  (length (buf ++ rest_text (cp =? sp)%nat ls) < bufsiz)%nat →
  dns_loop pkt fuel base sp ep bufsiz cp i buf =
    Some (Some ((cp + length (wire ls))%nat, buf ++ rest_text (cp =? sp)%nat ls)).
Proof.
  intros Hep Hsp Hf Hls. revert fuel cp i buf Hsp Hf.
  induction Hls as [|l ls Hl Hls IH]; intros fuel cp i buf Hsp Hf Hat Hsz;
    (destruct fuel as [|fuel]; [simpl in Hf; lia|]); cbn [dns_loop].
  - apply at_cons in Hat as (Hcp & E & _); [|done]. rewrite (proj2 (Nat.leb_gt _ _)), E by lia.
    cbn [Z.eqb orb rest_text] in *. rewrite length_app in Hsz.
    destruct (append_cases buf [46] bufsiz) as [[-> _]|[_ ?]]; [|simpl in *; lia].
    unfold finish. cbn [Z.eqb]. do 3 f_equal. simpl. lia.
  - rewrite wire_cons in Hat |- *. apply at_cons in Hat as (Hcp & E & Hat); [|done].
    apply at_app in Hat as [[_ Hl1] Hat]. unfold label_ok in Hl.
    rewrite (proj2 (Nat.leb_gt _ _)), E by lia. cbn [rest_text] in Hsz |- *.
    rewrite (proj2 (Z.eqb_neq (Z.of_nat (length l)) 0)) by lia. rewrite orb_false_l.
    set (buf1 := buf ++ (if (cp =? sp)%nat then [] else [46])).
    assert (Hb : (if negb (cp =? sp)%nat then append buf [46] bufsiz else Some buf) = Some buf1).
    { subst buf1. destruct (cp =? sp)%nat; simpl; [by rewrite app_nil_r|].
      destruct (append_cases buf [46] bufsiz) as [[-> _]|[_ ?]]; [done|].
      simpl in *. rewrite !length_app in Hsz. simpl in Hsz. lia. }
    rewrite Hb. destruct (label_octet (Z.of_nat (length l))) as [-> ->]; [lia|].
    cbn [Z.eqb andb]. rewrite Z.eqb_refl, Nat2Z.id.
    unfold at_ in Hat. rewrite (proj2 (Nat.ltb_ge _ _)) by lia.
    rewrite copy_label_spec, Hl1 by lia. cbv zeta.
    assert (Hbuf : buf ++ (if (cp =? sp)%nat then [] else [46]) ++ shown l ++ rest_text false ls
                   = (buf1 ++ shown l) ++ rest_text false ls)
      by (unfold buf1; by rewrite <- !(assoc_L (++))).
    rewrite Hbuf in Hsz |- *. rewrite (proj2 (Nat.ltb_lt _ _)) by (rewrite !length_app in *; lia).
    cbn [orb]. assert (Hne : (S cp + length l =? sp)%nat = false) by (apply Nat.eqb_neq; lia).
    rewrite (IH fuel (S cp + length l)%nat); rewrite ?Hne; [|lia|simpl in Hf; lia|done|done].
    do 3 f_equal. simpl. rewrite length_app. lia.
Qed.

Lemma dns_loop_sound fuel base sp ep bufsiz cp i buf sp' s :
  (ep <= length pkt)%nat → (sp <= cp)%nat → (cp < ep)%nat ∨ i ≠ 0 →
  dns_loop pkt fuel base sp ep bufsiz cp i buf = Some (Some (sp', s)) →
  ∃ ls, Forall label_ok ls ∧ at_ cp ep (wire ls) ∧ sp' = (cp + length (wire ls))%nat ∧
    s = buf ++ rest_text (cp =? sp)%nat ls ∧ (length s < bufsiz)%nat.
Proof.
  intros Hep. revert cp i buf. induction fuel as [|fuel IH]; intros cp i buf Hsp Hi; [done|].
  cbn [dns_loop]. destruct (ep <=? cp)%nat eqn:Ecp.
  { apply Nat.leb_le in Ecp. unfold finish. case_match eqn:E; [apply Z.eqb_eq in E; lia|done]. }
  apply Nat.leb_gt in Ecp. clear Hi. set (j := pkt !!! cp).
  destruct (if _ : bool then append _ _ _ else _) as [buf1|] eqn:Eb; [|done].
  destruct (j =? 0) eqn:Ej.
  { rewrite orb_true_l in Eb. apply append_Some in Eb as [-> Hs]. apply Z.eqb_eq in Ej.
    unfold finish. rewrite Ej. intros [= <- <-]. exists []. simpl. split_and!; [done| |lia|done|].
    - apply at_cons; [done|]. split_and!; [done|done|]. split; [simpl; lia|done].
    - rewrite length_app. simpl in *. lia. }
  rewrite orb_false_l in Eb. destruct (_ && _) eqn:Ec.
  { destruct base; [|done]. unfold finish. rewrite Ej. by repeat case_match. }
  destruct (_ =? j) eqn:El; [|done]. apply Z.eqb_eq, label_octet_inv in El. apply Z.eqb_neq in Ej.
  destruct (_ <? _)%nat eqn:En; [done|]. apply Nat.ltb_ge in En.
  rewrite copy_label_spec by lia. cbv zeta. set (l := take (Z.to_nat j) (drop (S cp) pkt)).
  assert (Hl : length l = Z.to_nat j) by (unfold l; rewrite length_take, length_drop; lia).
  destruct (_ || _) eqn:Es; [|done]. intros Hr.
  apply IH in Hr as (ls & Hls & Hat & -> & -> & Hlt); [|lia|by right].
  assert (Hne : (S cp + Z.to_nat j =? sp)%nat = false) by (apply Nat.eqb_neq; lia).
  rewrite Hne in *. exists (l :: ls). split_and!.
  - constructor; [|done]. unfold label_ok. lia.
  - rewrite wire_cons. apply at_cons; [done|]. split_and!; [done|unfold j in *; lia|].
    apply at_app. rewrite Hl. split; [|done]. split; [lia|]. by rewrite Hl.
  - rewrite wire_cons. simpl. rewrite length_app. lia.
  - cbn [rest_text]. destruct (cp =? sp)%nat; simpl in Eb; [|apply append_Some in Eb as [-> _]];
      simplify_eq/=; by rewrite <- ?(assoc_L (++)).
  - done.
Qed.

(** Without a base there are no pointers and the loop ends. *)
Lemma copy_label_forward n cp ep buf bufsiz i cp' buf' :
  copy_label pkt n cp ep buf bufsiz = Some (i, cp', buf') → (cp <= cp')%nat.
Proof.
  revert cp buf. induction n as [|n IH]; intros cp buf; cbn [copy_label]; [intros [= _ <- _]; lia|].
  destruct (cp <? ep)%nat; [|intros [= _ <- _]; lia].
  case_match; [done|]. case_match; [|done]. intros Hc%IH. lia.
Qed.
Lemma dns_loop_returns fuel sp ep bufsiz cp i buf :
  (ep - cp < fuel)%nat → dns_loop pkt fuel None sp ep bufsiz cp i buf ≠ None.
Proof.
  revert cp i buf. induction fuel as [|fuel IH]; intros cp i buf Hf; [lia|]. cbn [dns_loop].
  destruct (ep <=? cp)%nat eqn:E; [done|]. apply Nat.leb_gt in E.
  destruct (if _ : bool then append _ _ _ else _) as [buf1|]; [|done].
  destruct (pkt !!! cp =? 0); [done|]. destruct (_ && _); [done|]. destruct (_ =? pkt !!! cp); [|done].
  destruct (_ <? _)%nat; [done|]. destruct (copy_label _ _ _ _ _ _) as [[[i' cp'] buf']|] eqn:Ec; [|done].
  apply copy_label_forward in Ec. apply IH. lia.
Qed.

(** A name whose first octet points to itself. *)
Lemma dns_loop_self fuel b off ep bufsiz i :
  0 <= off < 64 → pkt !!! (b + Z.to_nat off)%nat = 0xc0 + off → (b + Z.to_nat off < ep)%nat →
  dns_loop pkt fuel (Some b) (b + Z.to_nat off) ep bufsiz (b + Z.to_nat off) i [] = None.
Proof.
  intros Hoff Hp. revert ep bufsiz i. induction fuel as [|fuel IH]; intros ep bufsiz i Hep; [done|].
  cbn [dns_loop]. rewrite (proj2 (Nat.leb_gt _ _)), Hp, Nat.eqb_refl by lia.
  rewrite (proj2 (Z.eqb_neq (0xc0 + off) 0)) by lia. cbn [orb negb].
  assert (Hs : 0xc0 + off = Z.lor 0xc0 off).
  { apply Z.add_nocarry_lor. rewrite Z.land_comm. apply label_octet. lia. }
  assert (Hm : Z.land (0xc0 + off) 0xc0 = 0xc0).
  { rewrite Hs, Z.land_lor_distr_l. destruct (label_octet off) as [-> _]; [lia|done]. }
  assert (Ho : Z.land (0xc0 + off) 0x3f = off).
  { rewrite Hs, Z.land_lor_distr_l. destruct (label_octet off) as [_ ->]; [lia|]. by destruct off. }
  rewrite Hm, Ho. cbn [beyond]. rewrite (proj2 (Z.ltb_lt _ _)) by lia.
  cbn [Z.eqb Pos.eqb andb]. rewrite (proj2 (Nat.leb_gt _ _)) by lia. by rewrite IH by lia.
Qed.

End decoded.

(** C31: [dnsdecode] accepts exactly the uncompressed names that end before
    [ep] and whose text fits the buffer: it returns the position after the
    name and each label followed by a dot, with octal escapes for the
    characters that are not printable. *)
Theorem dnsdecode_correct (pkt : bytes) (fuel : nat) (base : option nat) (sp ep bufsiz sp' : nat) (s : bytes) :
  (ep <= length pkt)%nat → (ep - sp < fuel)%nat →
  dnsdecode pkt fuel base sp ep bufsiz = Some (Some (sp', s)) ↔
  ∃ ls, Forall label_ok ls ∧ (sp + length (wire ls) <= ep)%nat ∧
    take (length (wire ls)) (drop sp pkt) = wire ls ∧
    sp' = (sp + length (wire ls))%nat ∧ s = text ls ∧ (length s < bufsiz)%nat.
Proof.
  intros Hep Hf. unfold dnsdecode. split.
  - destruct (ep <=? sp)%nat eqn:E; [done|]. apply Nat.leb_gt in E. intros Hd.
    apply dns_loop_sound in Hd as (ls & Hls & [Hat1 Hat2] & ? & Hs & ?); [|done|lia|by left].
    rewrite Nat.eqb_refl, rest_text_first in Hs. eauto 10.
  - intros (ls & Hls & Hle & Hw & -> & -> & Hs). pose proof (wire_length ls).
    rewrite (proj2 (Nat.leb_gt _ _)) by lia.
    rewrite (dns_loop_complete pkt _ _ _ _ _ _ _ _ ls); rewrite ?Nat.eqb_refl, ?rest_text_first;
      done || lia || by split.
Qed.

Lemma dnsdecode_correct_witness :
  dnsdecode [3; 119; 119; 119; 1; 200; 0] 8 None 0 7 1026 =
    Some (Some (7%nat, [119; 119; 119; 46; 92; 51; 49; 48; 46])).
Proof.
  apply (dnsdecode_correct [3; 119; 119; 119; 1; 200; 0] 8 None 0 7 1026); [simpl; lia|lia|].
  exists [[119; 119; 119]; [200]]. unfold label_ok. vm_compute.
  split_and!; [repeat constructor; simpl; lia|lia|done|done|done|lia].
Defined.

(** A name that is a compression pointer to itself makes [dnsdecode] call
    itself without end: no fuel gives a result. *)
Lemma dnsdecode_self_pointer (pkt : bytes) (b ep bufsiz : nat) (off : Z) :
  0 <= off < 64 → (b + Z.to_nat off < ep)%nat → pkt !!! (b + Z.to_nat off)%nat = 0xc0 + off →
  ∀ fuel, dnsdecode pkt fuel (Some b) (b + Z.to_nat off) ep bufsiz = None.
Proof.
  intros Ho Hep Hp fuel. unfold dnsdecode. rewrite (proj2 (Nat.leb_gt _ _)) by lia.
  by apply dns_loop_self.
Qed.

Lemma dnsdecode_self_pointer_witness :
  ∀ fuel, dnsdecode (replicate 20 0 ++ [0xc4; 0]) fuel (Some 16%nat) 20 22 1026 = None.
Proof.
  apply (dnsdecode_self_pointer (replicate 20 0 ++ [0xc4; 0]) 16 22 1026 4); [lia|simpl; lia|reflexivity].
Defined.

End Dns.

(** ** Bitmaps of query types *)

Module Suptypes.

Definition MAXQTYPES : Z := 65536.
Definition NI_SUPTYPE_FLAG_COMPRESS : Z := 0x0100.

(** [for (i = 0; i < 32 - off; i++) if ((v & (0x01 << i)) == 0) break;] with
    [k] iterations left. *)
Fixpoint ones (k i : nat) (v : Z) : nat :=
  match k with
  | O => i
  | S k => if Z.land v (Z.shiftl 1 (Z.of_nat i)) =? 0 then i else ones k (S i) v
  end.

Definition start (n : Z) : printf := (" %u", [Num n])%string.
Definition stop (n : Z) : printf := ("-%u", [Num n])%string.

(** The loop of [pr_bitrange], with what it prints and the new [ii]. *)
Fixpoint bitrange_loop (fuel : nat) (v : Z) (soff : Z) (off : nat) (ii : Z) : output * Z :=
  match fuel with
  | O => ([], ii)
  | S fuel =>
      if (off <? 32)%nat then
        if Z.land v 1 =? 0 then
          let o := if 1 <? ii then [stop (soff + Z.of_nat off - 1)] else [] in
          let w := Z.land v 0x0f in
          let skip := (if (w =? 0)%Z then 4 else if (w =? 8)%Z then 3 else if ((w =? 4) || (w =? 12))%Z then 2 else 1)%nat in
          let '(o', ii) := bitrange_loop fuel (Z.shiftr v (Z.of_nat skip)) soff (off + skip) 0 in
          (o ++ o', ii)
        else
          let i := ones (32 - off) 0 v in
          let o := if ii =? 0 then [start (soff + Z.of_nat off)] else [] in
          let '(o', ii) := bitrange_loop fuel (Z.shiftr v (Z.of_nat i)) soff (off + i) (ii + Z.of_nat i) in
          (o ++ o', ii)
      else ([], ii)
  end.
Definition pr_bitrange (v soff ii : Z) : output * Z := bitrange_loop 33 v soff 0 ii.

Section suptypes.
Context (pkt : bytes).

(** [n] words from [cp] on. *)
Fixpoint words_loop (n : nat) (cp : nat) (soff b : Z) : outcome (output * Z) :=
  match n with
  | O => Ret ([], b)
  | S n =>
      v ← of_opt (rd32 pkt cp);
      let '(o, b) := pr_bitrange v soff b in
      '(o', b) ← words_loop n (cp + 4) (soff + 32) b;
      Ret (o ++ o', b)
  end.

(** The loop over the blocks; running out of fuel is [Crash]. *)
Fixpoint blocks_loop (fuel : nat) (compressed : bool) (cp end_ : nat) (cur b : Z) : outcome output :=
  match fuel with
  | O => Crash
  | S fuel =>
      let block (cp clen : nat) (skip : Z) : outcome output :=
        '(o, b) ← words_loop (clen / 4) cp cur b;
        let '(o', b) := pr_bitrange 0 (cur + Z.of_nat clen * 8) b in
        let cur := u16 (cur + Z.of_nat clen * 8) in
        let cur := if compressed then u16 (cur + skip * 32) else cur in
        rest ← blocks_loop fuel compressed (cp + clen) end_ cur b;
        Ret (o ++ o' ++ rest) in
      if (cp <? end_)%nat then
        let clen := (end_ - cp)%nat in
        if compressed then
          if (clen <? 4)%nat || negb (clen mod 4 =? 0)%nat then Ret []
          else
            words ← of_opt (rd16 pkt cp);
            skip ← of_opt (rd16 pkt (cp + 2));
            if Z.of_nat clen <? 4 + words * 4 then Ret []
            else
              let clen := Z.to_nat (words * 4) in
              if MAXQTYPES <? cur + Z.of_nat clen * 8 + skip * 32 then Ret []
              else block (cp + 4)%nat clen skip
        else
          if (clen =? 0)%nat || (MAXQTYPES / 8 <? Z.of_nat clen) || negb (clen mod 4 =? 0)%nat
          then Ret [("???", [])%string]
          else block cp clen 0
      else Ret []
  end.

Definition pr_suptypes (verbose : bool) (nilen : nat) : outcome output :=
  flags ← of_opt (rd16le pkt 6);
  let compressed := truthy (Z.land flags NI_SUPTYPE_FLAG_COMPRESS) in
  let head := ("NodeInfo Supported Qtypes", [])%string ::
    (if verbose then [(if compressed then ", compressed bitmap" else ", raw bitmap", [])%string] else []) in
  rest ← blocks_loop (S nilen) compressed 16 nilen 0 0;
  Ret (head ++ rest).

End suptypes.

(** *** One bit at a time

    The reference for [pr_bitrange]: the bits in order, with the length of the
    current run of ones. *)

Definition bits (n : nat) (v : Z) : list bool := (λ i, Z.testbit v (Z.of_nat i)) <$> seq 0 n.

Fixpoint scan (bs : list bool) (pos ii : Z) : output * Z :=
  match bs with
  | [] => ([], ii)
  | false :: bs =>
      let '(o, ii') := scan bs (pos + 1) 0 in ((if 1 <? ii then [stop (pos - 1)] else []) ++ o, ii')
  | true :: bs =>
      let '(o, ii') := scan bs (pos + 1) (ii + 1) in ((if ii =? 0 then [start pos] else []) ++ o, ii')
  end.

(** The numbers that printed ranges stand for. *)
Fixpoint expand (o : output) : list Z :=
  match o with
  | (f, [Num a]) :: o =>
      if String.eqb f " %u" then
        match o with
        | (g, [Num b]) :: o' => if String.eqb g "-%u" then seqZ a (b - a + 1) ++ expand o' else a :: expand o
        | _ => a :: expand o
        end
      else expand o
  | _ :: o => expand o
  | [] => []
  end.

(** The positions of the ones. *)
Fixpoint ones_at (bs : list bool) (pos : Z) : list Z :=
  match bs with
  | [] => []
  | b :: bs => (if b then [pos] else []) ++ ones_at bs (pos + 1)
  end.

Lemma bits_length n v : length (bits n v) = n.
Proof. unfold bits. by rewrite length_fmap, length_seq. Qed.

Lemma bits_split k n v : (k <= n)%nat → bits n v = bits k v ++ bits (n - k) (Z.shiftr v (Z.of_nat k)).
Proof.
  intros Hk. unfold bits. replace n with (k + (n - k))%nat at 1 by lia.
  rewrite seq_app, fmap_app. f_equal. cbn [Nat.add].
  replace (seq k (n - k)) with (Nat.add k <$> seq 0 (n - k)) by (rewrite fmap_add_seq; f_equal; lia).
  rewrite <- list_fmap_compose. apply list_fmap_ext.
  intros _ x _. simpl. rewrite Z.shiftr_spec by lia. f_equal. lia.
Qed.

Lemma scan_app bs bs' pos ii :
  scan (bs ++ bs') pos ii =
  let '(o, ii1) := scan bs pos ii in
  let '(o', ii2) := scan bs' (pos + Z.of_nat (length bs)) ii1 in (o ++ o', ii2).
Proof.
  revert pos ii. induction bs as [|b bs IH]; intros pos ii; simpl.
  { rewrite Z.add_0_r. by destruct (scan _ _ _). }
  destruct b; rewrite IH; replace (pos + Z.of_nat (S (length bs))) with (pos + 1 + Z.of_nat (length bs)) by lia;
    destruct (scan bs _ _) as [o1 i1], (scan bs' _ _) as [o2 i2]; by rewrite (assoc_L (++)).
Qed.

Lemma scan_zeros k pos ii : (0 < k)%nat →
  scan (replicate k false) pos ii = (if 1 <? ii then [stop (pos - 1)] else [], 0).
Proof.
  intros Hk. destruct k as [|k]; [lia|]. simpl. clear Hk.
  assert (H : ∀ p, scan (replicate k false) p 0 = ([], 0)).
  { induction k as [|k IH]; intros p; [done|]. simpl. by rewrite IH. }
  rewrite H. by rewrite app_nil_r.
Qed.

Lemma scan_ones k pos ii : (0 < k)%nat → 0 <= ii →
  scan (replicate k true) pos ii = (if ii =? 0 then [start pos] else [], ii + Z.of_nat k).
Proof.
  intros Hk. destruct k as [|k]; [lia|]. clear Hk. revert pos ii.
  induction k as [|k IH]; intros pos ii Hi; [simpl; by rewrite app_nil_r|].
  change (replicate (S (S k)) true) with (true :: replicate (S k) true). cbn [scan].
  rewrite IH by lia. rewrite (proj2 (Z.eqb_neq (ii + 1) 0)), app_nil_r by lia. f_equal. lia.
Qed.

(** The count of [ones] is a run of ones, as long as possible. *)
Lemma land_bit v i : (Z.land v (Z.shiftl 1 (Z.of_nat i)) =? 0) = negb (Z.testbit v (Z.of_nat i)).
Proof.
  rewrite Z.shiftl_1_l. destruct (Z.testbit v (Z.of_nat i)) eqn:E; simpl.
  - apply Z.eqb_neq. intros H. apply (f_equal (λ x, Z.testbit x (Z.of_nat i))) in H.
    rewrite Z.land_spec, E, Z.pow2_bits_true, Z.bits_0 in H by lia. done.
  - apply Z.eqb_eq. apply Z.bits_inj'. intros n Hn. rewrite Z.land_spec, Z.bits_0.
    destruct (decide (n = Z.of_nat i)) as [->|]; [by rewrite E|].
    rewrite Z.pow2_bits_false by lia. apply andb_false_r.
Qed.

Lemma ones_spec k i v :
  (i <= ones k i v <= i + k)%nat ∧ (∀ j, (i <= j < ones k i v)%nat → Z.testbit v (Z.of_nat j) = true).
Proof.
  revert i. induction k as [|k IH]; intros i; cbn [ones]; [split; [lia|]; intros; lia|].
  rewrite land_bit. destruct (Z.testbit v (Z.of_nat i)) eqn:E; simpl; [|split; [lia|]; intros; lia].
  destruct (IH (S i)) as [H1 H2]. split; [lia|]. intros j Hj.
  destruct (decide (j = i)) as [->|]; [done|]. apply H2. lia.
Qed.

Lemma bits_const k v b :
  (∀ j, (j < k)%nat → Z.testbit v (Z.of_nat j) = b) → bits k v = replicate k b.
Proof.
  intros H. unfold bits. apply list_eq. intros j. rewrite list_lookup_fmap.
  destruct (decide (j < k)%nat).
  - rewrite lookup_seq_lt, lookup_replicate_2 by done. simpl. by rewrite H.
  - rewrite lookup_seq_ge by lia. symmetry. apply lookup_replicate_None. lia.
Qed.

Lemma low_zeros v k : (k <= 4)%nat → (∀ j, (j < k)%nat → Z.testbit (Z.land v 0x0f) (Z.of_nat j) = false) →
  ∀ j, (j < k)%nat → Z.testbit v (Z.of_nat j) = false.
Proof.
  intros Hk H j Hj. specialize (H j Hj). change 0x0f with (Z.ones 4) in H.
  rewrite Z.land_spec, Z.ones_spec_low, andb_true_r in H by lia. done.
Qed.

(** The skipped bits are zeros. *)
Lemma skip_zeros v :
  let w := Z.land v 0x0f in
  Z.land v 1 = 0 →
  ∀ j, (j < (if (w =? 0)%Z then 4 else if (w =? 8)%Z then 3 else if ((w =? 4) || (w =? 12))%Z then 2 else 1))%nat →
  Z.testbit v (Z.of_nat j) = false.
Proof.
  intros w H1 j Hj. assert (H0 : Z.testbit v 0 = false).
  { apply (f_equal (λ x, Z.testbit x 0)) in H1. by rewrite Z.land_spec, andb_true_r in H1. }
  destruct (w =? 0) eqn:E0; [apply Z.eqb_eq in E0|destruct (w =? 8) eqn:E8; [apply Z.eqb_eq in E8|
    destruct (_ || _) eqn:E4]].
  - revert j Hj. apply (low_zeros v 4); [lia|]. intros. fold w. rewrite E0. apply Z.bits_0.
  - revert j Hj. apply (low_zeros v 3); [lia|]. intros j Hj. fold w. rewrite E8.
    do 3 (destruct j as [|j]; [done|]). lia.
  - revert j Hj. apply (low_zeros v 2); [lia|]. intros j Hj. fold w.
    apply orb_prop in E4 as [->%Z.eqb_eq | ->%Z.eqb_eq]; do 2 (destruct j as [|j]; [done|]); lia.
  - by replace j with 0%nat by lia.
Qed.

Lemma scan_prefix k n v b pos ii :
  (k <= n)%nat → (∀ j, (j < k)%nat → Z.testbit v (Z.of_nat j) = b) →
  scan (bits n v) pos ii =
  let '(o, ii1) := scan (replicate k b) pos ii in
  let '(o', ii2) := scan (bits (n - k) (Z.shiftr v (Z.of_nat k))) (pos + Z.of_nat k) ii1 in (o ++ o', ii2).
Proof.
  intros Hk Hb. rewrite (bits_split k) by done. rewrite (bits_const k v b) by done.
  by rewrite scan_app, length_replicate.
Qed.

Lemma bitrange_loop_scan fuel v soff off ii :
  (32 < fuel + off)%nat → 0 <= ii →
  bitrange_loop fuel v soff off ii = scan (bits (32 - off) v) (soff + Z.of_nat off) ii.
Proof.
  revert v off ii. induction fuel as [|fuel IH]; intros v off ii Hf Hi.
  { by replace (32 - off)%nat with 0%nat by lia. }
  cbn [bitrange_loop]. destruct (off <? 32)%nat eqn:Eo.
  2: { apply Nat.ltb_ge in Eo. by replace (32 - off)%nat with 0%nat by lia. }
  apply Nat.ltb_lt in Eo. destruct (Z.land v 1 =? 0) eqn:E1.
  - apply Z.eqb_eq in E1. pose proof (skip_zeros v E1) as Hz. cbv zeta in Hz.
    set (k := (if _ : bool then 4 else _)%nat) in *.
    assert (Hk : (1 <= k)%nat) by (unfold k; repeat case_match; lia).
    rewrite IH by lia. set (m := Nat.min k (32 - off)).
    rewrite (scan_prefix m (32 - off) v false) by (lia || (intros; apply Hz; lia)).
    rewrite scan_zeros by lia. destruct (decide (m = k)) as [->|Hm].
    + replace (32 - off - k)%nat with (32 - (off + k))%nat by lia.
      by replace (soff + Z.of_nat (off + k)) with (soff + Z.of_nat off + Z.of_nat k) by lia.
    + replace (32 - (off + k))%nat with 0%nat by lia. by replace (32 - off - m)%nat with 0%nat by lia.
  - assert (Hb : Z.testbit v 0 = true).
    { pose proof (land_bit v 0) as H. change (Z.shiftl 1 (Z.of_nat 0)) with 1 in H.
      change (Z.of_nat 0) with 0 in H. rewrite E1 in H. by destruct (Z.testbit v 0). }
    destruct (ones_spec (32 - off) 0 v) as [Hr Ho].
    assert (Hp : (0 < ones (32 - off) 0 v)%nat).
    { destruct (32 - off)%nat as [|k] eqn:Ek; [lia|]. cbn [ones]. rewrite land_bit. change (Z.of_nat 0) with 0. rewrite Hb.
      cbn [negb]. destruct (ones_spec k 1 v) as [? _]. lia. }
    set (i := ones _ _ _) in *. rewrite IH by lia.
    rewrite (scan_prefix i (32 - off) v true) by (lia || (intros; apply Ho; lia)).
    rewrite scan_ones by lia. replace (32 - off - i)%nat with (32 - (off + i))%nat by lia.
    by replace (soff + Z.of_nat (off + i)) with (soff + Z.of_nat off + Z.of_nat i) by lia.
Qed.

Lemma pr_bitrange_scan v soff ii : 0 <= ii → pr_bitrange v soff ii = scan (bits 32 v) soff ii.
Proof.
  intros. unfold pr_bitrange. rewrite bitrange_loop_scan by lia.
  by replace (soff + Z.of_nat 0) with soff by lia.
Qed.

(** *** The printed ranges are the ones of the bitmap *)

Definition fresh (o : output) : Prop := match o with (g, _) :: _ => g ≠ "-%u"%string | [] => True end.

Lemma expand_start a k : fresh k → expand (start a :: k) = a :: expand k.
Proof.
  intros Hk. destruct k as [|[g [|[b| |] [|? ?]]] k]; try done. simpl in *.
  by rewrite (proj2 (String.eqb_neq _ _) Hk).
Qed.
Lemma expand_range a b k : expand (start a :: stop b :: k) = seqZ a (b - a + 1) ++ expand k.
Proof. done. Qed.

#[local] Arguments expand : simpl never.
#[local] Arguments start : simpl never.
#[local] Arguments stop : simpl never.

Lemma scan_fresh bs pos k : fresh k → fresh (fst (scan bs pos 0) ++ k).
Proof.
  revert pos. induction bs as [|[] bs IH]; intros pos Hk; simpl; [done|by destruct (scan _ _ _)|].
  specialize (IH (pos + 1) Hk). by destruct (scan _ _ _).
Qed.

Lemma expand_scan bs pos k : fresh k →
  expand (fst (scan (bs ++ [false]) pos 0) ++ k) = ones_at bs pos ++ expand k ∧
  ∀ ii, 0 < ii → expand (start (pos - ii) :: fst (scan (bs ++ [false]) pos ii) ++ k) =
                 seqZ (pos - ii) ii ++ ones_at bs pos ++ expand k.
Proof.
  intros Hk. revert pos. induction bs as [|b bs IH]; intros pos.
  - simpl. split; [done|]. intros ii Hi. destruct (1 <? ii) eqn:E.
    + cbn [app]. rewrite expand_range. do 2 f_equal. lia.
    + cbn [app]. rewrite expand_start by done. replace ii with 1 by lia. done.
  - destruct (IH (pos + 1)) as [IH1 IH2]. destruct b; cbn [app scan ones_at].
    + split.
      * specialize (IH2 (0 + 1) ltac:(lia)). destruct (scan _ _ (0 + 1)). simpl in *.
        by replace (pos + 1 - (0 + 1)) with pos in IH2 by lia.
      * intros ii Hi. specialize (IH2 (ii + 1) ltac:(lia)). destruct (scan _ _ (ii + 1)). simpl in *.
        rewrite (proj2 (Z.eqb_neq ii 0)) by lia. simpl.
        replace (pos + 1 - (ii + 1)) with (pos - ii) in IH2 by lia. rewrite IH2.
        rewrite (seqZ_app (pos - ii) ii 1) by lia. rewrite <- (assoc_L (++)). simpl.
        by replace (pos - ii + ii) with pos by lia.
    + pose proof (scan_fresh (bs ++ [false]) (pos + 1) k Hk) as Hf. destruct (scan _ _ _) as [o i].
      simpl in *. split; [done|]. intros ii Hi. destruct (1 <? ii) eqn:E.
      * cbn [app]. rewrite expand_range, IH1. do 2 f_equal. lia.
      * cbn [app]. rewrite expand_start, IH1 by done. replace ii with 1 by lia. done.
Qed.

Definition word_bits (ws : list Z) : list bool := concat (bits 32 <$> ws).

Lemma word_bits_length ws : length (word_bits ws) = (32 * length ws)%nat.
Proof.
  unfold word_bits. induction ws as [|w ws IH]; [done|]. cbn [fmap list_fmap concat length].
  rewrite length_app, bits_length, IH. lia.
Qed.

Section decode.
Context (pkt : bytes).

Definition words_at (cp : nat) (ws : list Z) : Prop :=
  ∀ k w, ws !! k = Some w → rd32 pkt (cp + 4 * k) = Some w.

Lemma scan_nonneg bs pos ii : 0 <= ii → 0 <= snd (scan bs pos ii).
Proof.
  revert pos ii. induction bs as [|[] bs IH]; intros pos ii Hi; simpl; [done| |].
  - specialize (IH (pos + 1) (ii + 1) ltac:(lia)). by destruct (scan _ _ _).
  - specialize (IH (pos + 1) 0 ltac:(lia)). by destruct (scan _ _ _).
Qed.

Lemma words_loop_scan ws cp soff b :
  words_at cp ws → 0 <= b → words_loop pkt (length ws) cp soff b = Ret (scan (word_bits ws) soff b).
Proof.
  revert cp soff b. induction ws as [|w ws IH]; intros cp soff b Hw Hb; [done|].
  cbn [length words_loop]. pose proof (Hw 0%nat w eq_refl) as E.
  replace (cp + 4 * 0)%nat with cp in E by lia. rewrite E. cbn [of_opt mbind outcome_bind].
  rewrite pr_bitrange_scan by done. unfold word_bits. cbn [fmap list_fmap concat].
  rewrite scan_app, bits_length. pose proof (scan_nonneg (bits 32 w) soff b Hb) as Hn.
  destruct (scan (bits 32 w) soff b) as [o b1]. simpl in Hn. fold (bits 32 <$> ws). fold (word_bits ws).
  rewrite IH; [|intros k x Hk; rewrite <- (Hw (S k) x Hk); f_equal; lia|done].
  simpl. by destruct (scan (word_bits ws) _ _).
Qed.

(** A block of words and the flush that follows it. *)
Lemma block_scan ws cp cur :
  words_at cp ws →
  ∃ o b o', words_loop pkt (length ws) cp cur 0 = Ret (o, b) ∧
    pr_bitrange 0 (cur + Z.of_nat (4 * length ws) * 8) b = (o', 0) ∧
    o ++ o' = fst (scan (word_bits ws ++ [false]) cur 0).
Proof.
  intros Hw. rewrite words_loop_scan by done.
  rewrite scan_app, word_bits_length. pose proof (scan_nonneg (word_bits ws) cur 0 ltac:(lia)) as Hn.
  destruct (scan (word_bits ws) cur 0) as [o b]. simpl in Hn.
  exists o, b, (if 1 <? b then [stop (cur + Z.of_nat (32 * length ws) - 1)] else []).
  split; [done|]. rewrite pr_bitrange_scan by done.
  rewrite (bits_const 32 0 false) by (intros; apply Z.bits_0). rewrite scan_zeros by lia.
  replace (Z.of_nat (4 * length ws) * 8) with (Z.of_nat (32 * length ws)) by lia.
  split; [done|]. cbn [scan fst]. by rewrite app_nil_r.
Qed.

End decode.

(** The bitmap in a reply: blocks of words, each followed by a gap of [skip]
    words; a raw bitmap is one block without its header. *)
Definition block : Type := list Z * Z.
Definition wire_words (ws : list Z) : bytes := concat (be32 <$> ws).
Definition wire_block (b : block) : bytes :=
  be16 (Z.of_nat (length b.1)) ++ be16 b.2 ++ wire_words b.1.
Definition word_ok (w : Z) : Prop := 0 <= w < 2 ^ 32.
Definition block_ok (b : block) : Prop :=
  Forall word_ok b.1 ∧ 0 <= b.2 < 2 ^ 16 ∧ 0 < Z.of_nat (length b.1) + b.2.
Definition span (b : block) : Z := 32 * (Z.of_nat (length b.1) + b.2).
Fixpoint total (bs : list block) : Z := match bs with [] => 0 | b :: bs => span b + total bs end.

(** The query types of the bitmap. *)
Fixpoint qtypes (bs : list block) (cur : Z) : list Z :=
  match bs with
  | [] => []
  | b :: bs => ones_at (word_bits b.1) cur ++ qtypes bs (cur + span b)
  end.

Lemma be_val_be32 w : word_ok w → be_val (be32 w) = w.
Proof.
  unfold word_ok, be_val, be32, u8. intros Hx. simpl. rewrite !Z.shiftr_div_pow2 by lia. zlia.
Qed.
Lemma be_val_be16 w : 0 <= w < 2 ^ 16 → be_val (be16 w) = w.
Proof.
  unfold be_val, be16, u8. intros Hx. simpl. rewrite !Z.shiftr_div_pow2 by lia. zlia.
Qed.
Lemma wire_words_length ws : length (wire_words ws) = (4 * length ws)%nat.
Proof.
  induction ws as [|w ws IH]; [done|]. change (wire_words (w :: ws)) with (be32 w ++ wire_words ws).
  rewrite length_app, IH. simpl. lia.
Qed.
Lemma wire_block_length b : length (wire_block b) = (4 + 4 * length b.1)%nat.
Proof. unfold wire_block. rewrite !length_app, wire_words_length. done. Qed.

Lemma read_at_here (pre m post : bytes) : read_at (pre ++ m ++ post) (length pre) (length m) = Some m.
Proof.
  pose proof (read_at_mid pre m post 0 (length m) ltac:(lia)) as E.
  replace (length pre + 0)%nat with (length pre) in E by lia. rewrite E.
  rewrite read_at_0 by lia. by rewrite take_ge by lia.
Qed.

Lemma words_at_wire pre ws post :
  Forall word_ok ws → words_at (pre ++ wire_words ws ++ post) (length pre) ws.
Proof.
  intros Hw. revert pre. induction Hw as [|w ws Hw Hws IH]; intros pre k x Hk; [done|].
  change (wire_words (w :: ws)) with (be32 w ++ wire_words ws). rewrite <- (assoc_L (++)).
  destruct k as [|k]; simpl in Hk.
  - simplify_eq. replace (length pre + 4 * 0)%nat with (length pre) by lia. unfold rd32.
    pose proof (read_at_here pre (be32 x) (wire_words ws ++ post)) as E. simpl length in E at 2.
    change (length (be32 x)) with 4%nat in E. rewrite E. simpl. f_equal. by apply be_val_be32.
  - rewrite (assoc_L (++)). specialize (IH (pre ++ be32 w) k x Hk).
    rewrite length_app in IH. change (length (be32 w)) with 4%nat in IH.
    rewrite <- IH. f_equal. lia.
Qed.

Lemma total_nonneg bs : Forall block_ok bs → 0 <= total bs.
Proof.
  induction 1 as [|b bs (_ & ? & ?) _ IH]; simpl; [lia|]. unfold span. lia.
Qed.

Lemma wire_blocks_mod bs : (length (concat (wire_block <$> bs)) mod 4 = 0)%nat.
Proof.
  induction bs as [|b bs IH]; [done|]. cbn [fmap list_fmap concat].
  rewrite length_app, wire_block_length, Nat.Div0.add_mod, IH.
  replace (4 + 4 * length b.1)%nat with ((1 + length b.1) * 4)%nat by lia.
  by rewrite Nat.Div0.mod_mul.
Qed.

Lemma blocks_loop_compressed bs pre post fuel cur :
  let pkt := pre ++ concat (wire_block <$> bs) ++ post in
  (length bs < fuel)%nat → 0 <= cur → cur + total bs <= MAXQTYPES → Forall block_ok bs →
  ∃ o, blocks_loop pkt fuel true (length pre) (length (pre ++ concat (wire_block <$> bs))) (u16 cur) 0 = Ret o ∧
    fresh o ∧ expand o = qtypes bs cur.
Proof.
  intros pkt Hf Hc Ht Hok. revert pre fuel cur pkt Hf Hc Ht.
  induction Hok as [|b bs Hb Hok IH]; intros pre fuel cur pkt Hf Hc Ht;
    (destruct fuel as [|fuel]; [simpl in Hf; lia|]); cbn [blocks_loop].
  { exists []. simpl. rewrite app_nil_r. by rewrite Nat.ltb_irrefl. }
  pose proof (total_nonneg bs Hok) as Hn. pose proof Hb as (Hws & Hskip & Hpos).
  destruct b as [ws skip]. simpl in Hws, Hskip, Hpos. cbn [total] in Ht. unfold span in Ht. cbn [fst snd] in Ht.
  unfold MAXQTYPES in Ht. assert (Hu : u16 cur = cur) by (unfold u16; apply Z.mod_small; lia). rewrite Hu.
  set (tl := concat (wire_block <$> bs)) in *. cbn [fmap list_fmap concat].
  fold (wire_block <$> bs). fold tl. rewrite !length_app, wire_block_length. cbn [fst].
  rewrite (proj2 (Nat.ltb_lt _ _)) by lia.
  replace (length pre + (4 + 4 * length ws + length tl) - length pre)%nat
    with (4 + 4 * length ws + length tl)%nat by lia.
  rewrite (proj2 (Nat.ltb_ge _ 4)) by lia.
  pose proof (wire_blocks_mod ((ws, skip) :: bs)) as Hm. cbn [fmap list_fmap concat] in Hm.
  fold (wire_block <$> bs) in Hm. fold tl in Hm. rewrite length_app, wire_block_length in Hm. cbn [fst] in Hm.
  rewrite Hm. cbn [Nat.eqb negb orb].
  assert (Ep : pkt = pre ++ be16 (Z.of_nat (length ws)) ++ be16 skip ++ wire_words ws ++ tl ++ post)
    by (unfold pkt, wire_block; cbn [fmap list_fmap concat fst snd]; by rewrite <- !(assoc_L (++))).
  assert (R1 : rd16 pkt (length pre) = Some (Z.of_nat (length ws))).
  { rewrite Ep. unfold rd16. rewrite (read_at_here pre (be16 _)). simpl. f_equal. apply be_val_be16. lia. }
  assert (R2 : rd16 pkt (length pre + 2) = Some skip).
  { rewrite Ep. rewrite (assoc_L (++)).
    replace (length pre + 2)%nat with (length (pre ++ be16 (Z.of_nat (length ws)))) by (rewrite length_app; done).
    unfold rd16. rewrite (read_at_here _ (be16 _)). simpl. f_equal. by apply be_val_be16. }
  rewrite R1, R2. cbn [of_opt mbind outcome_bind].
  rewrite (proj2 (Z.ltb_ge _ _)) by lia. replace (Z.to_nat (Z.of_nat (length ws) * 4)) with (4 * length ws)%nat by lia.
  rewrite (proj2 (Z.ltb_ge _ _)) by (unfold MAXQTYPES; lia).
  replace (4 * length ws / 4)%nat with (length ws) by (rewrite Nat.mul_comm, Nat.div_mul; lia).
  set (pre' := pre ++ be16 (Z.of_nat (length ws)) ++ be16 skip).
  assert (Hp' : length pre' = (length pre + 4)%nat) by (unfold pre'; rewrite !length_app; done).
  assert (Ep' : pkt = pre' ++ wire_words ws ++ tl ++ post)
    by (rewrite Ep; unfold pre'; by rewrite <- !(assoc_L (++))).
  destruct (block_scan pkt ws (length pre + 4) cur) as (o & b & o' & -> & Eo & Es).
  { rewrite Ep', <- Hp'. by apply words_at_wire. }
  cbn [mbind outcome_bind]. rewrite Eo.
  assert (Ecur : u16 (u16 (cur + Z.of_nat (4 * length ws) * 8) + skip * 32) = u16 (cur + span (ws, skip))).
  { unfold u16, span. cbn [fst snd]. rewrite Zplus_mod_idemp_l. f_equal. lia. }
  rewrite Ecur.
  destruct (IH (pre' ++ wire_words ws) fuel (cur + span (ws, skip))) as (r & Er & Hfr & Ex).
  { simpl in Hf. lia. }
  { unfold span. cbn [fst snd]. lia. }
  { unfold span, MAXQTYPES. cbn [fst snd]. lia. }
  rewrite <- (assoc_L (++) pre'), <- Ep', !length_app, Hp', wire_words_length in Er. fold tl in Er.
  replace (length pre + (4 + 4 * length ws + length tl))%nat with (length pre + 4 + 4 * length ws + length tl)%nat by lia.
  rewrite Er. cbn [mbind outcome_bind]. exists (o ++ o' ++ r). split; [done|].
  rewrite (assoc_L (++)), Es. split; [by apply scan_fresh|].
  destruct (expand_scan (word_bits ws) cur r Hfr) as [-> _]. cbn [qtypes fst]. by rewrite Ex.
Qed.

Lemma blocks_loop_raw ws pre post fuel :
  let pkt := pre ++ wire_words ws ++ post in
  (1 < fuel)%nat → (0 < length ws <= 2048)%nat → Forall word_ok ws →
  ∃ o, blocks_loop pkt fuel false (length pre) (length (pre ++ wire_words ws)) 0 0 = Ret o ∧
    expand o = ones_at (word_bits ws) 0.
Proof.
  intros pkt Hf Hl Hws. destruct fuel as [|fuel]; [lia|]. cbn [blocks_loop].
  rewrite length_app, wire_words_length, (proj2 (Nat.ltb_lt _ _)) by lia.
  replace (length pre + 4 * length ws - length pre)%nat with (4 * length ws)%nat by lia.
  rewrite (proj2 (Nat.eqb_neq _ 0)), (proj2 (Z.ltb_ge _ _)) by (unfold MAXQTYPES; zlia).
  rewrite (Nat.mul_comm 4), Nat.Div0.mod_mul, Nat.div_mul by lia. cbn [Nat.eqb negb orb].
  destruct (block_scan pkt ws (length pre) 0) as (o & b & o' & -> & Eo & Es); [by apply words_at_wire|].
  cbn [mbind outcome_bind]. rewrite (Nat.mul_comm _ 4), Eo.
  destruct fuel as [|fuel]; [lia|]. cbn [blocks_loop]. rewrite Nat.ltb_irrefl. cbn [mbind outcome_bind].
  exists (o ++ o' ++ []). split; [done|]. rewrite (assoc_L (++)), Es.
  destruct (expand_scan (word_bits ws) 0 [] I) as [-> _]. by rewrite app_nil_r.
Qed.

Definition compressed (hdr : bytes) : bool :=
  truthy (Z.land (le_val (take 2 (drop 6 hdr))) NI_SUPTYPE_FLAG_COMPRESS).

Lemma pr_suptypes_run hdr body verbose nilen :
  length hdr = 16%nat →
  pr_suptypes (hdr ++ body) verbose nilen =
  (rest ← blocks_loop (hdr ++ body) (S nilen) (compressed hdr) 16 nilen 0 0;
   Ret ((("NodeInfo Supported Qtypes", [])%string ::
     (if verbose then [(if compressed hdr then ", compressed bitmap" else ", raw bitmap", [])%string] else []))
     ++ rest)).
Proof.
  intros Hh. unfold pr_suptypes, rd16le, read_at.
  rewrite bool_decide_true by (rewrite length_app; lia).
  by rewrite drop_app_le, take_app_le by (rewrite ?length_drop; lia).
Qed.

Lemma expand_head (verbose c : bool) o :
  expand ((("NodeInfo Supported Qtypes", [])%string ::
    (if verbose then [(if c then ", compressed bitmap" else ", raw bitmap", [])%string] else [])) ++ o) = expand o.
Proof. by destruct verbose. Qed.

(** [pr_suptypes] prints exactly the query types whose bit is set in the
    bitmap of the reply, as numbers and ranges, in the compressed and in the
    raw format, and reads nothing after the reply. *)
Lemma pr_suptypes_correct (hdr post : bytes) (verbose : bool) :
  length hdr = 16%nat →
  if compressed hdr then
    ∀ bs, Forall block_ok bs → total bs <= MAXQTYPES →
    ∃ o, pr_suptypes (hdr ++ concat (wire_block <$> bs) ++ post) verbose
           (16 + length (concat (wire_block <$> bs))) = Ret o ∧ expand o = qtypes bs 0
  else
    ∀ ws, Forall word_ok ws → (0 < length ws <= 2048)%nat →
    ∃ o, pr_suptypes (hdr ++ wire_words ws ++ post) verbose
           (16 + length (wire_words ws)) = Ret o ∧ expand o = ones_at (word_bits ws) 0.
Proof.
  intros Hh. destruct (compressed hdr) eqn:Ec.
  - intros bs Hok Ht.
    destruct (blocks_loop_compressed bs hdr post (S (16 + length (concat (wire_block <$> bs)))) 0)
      as (o & Eo & _ & Ex); [|lia|lia|done|].
    { assert (length bs <= length (concat (wire_block <$> bs)))%nat; [|lia]. clear.
      induction bs as [|b bs IH]; [done|]. cbn [fmap list_fmap concat length].
      rewrite length_app, wire_block_length. fold (wire_block <$> bs). lia. }
    rewrite length_app, Hh in Eo. change (u16 0) with 0 in Eo.
    eexists. rewrite pr_suptypes_run, Ec, Eo by done. split; [reflexivity|].
    exact (eq_trans (expand_head verbose true o) Ex).
  - intros ws Hok Hl.
    destruct (blocks_loop_raw ws hdr post (S (16 + length (wire_words ws)))) as (o & Eo & Ex); [lia|done|done|].
    rewrite length_app, Hh in Eo.
    eexists. rewrite pr_suptypes_run, Ec, Eo by done. split; [reflexivity|].
    exact (eq_trans (expand_head verbose false o) Ex).
Qed.

Lemma pr_suptypes_correct_witness :
  ∃ o, pr_suptypes ([140; 0; 0; 0; 0; 1; 0; 1; 0; 0; 0; 0; 0; 0; 0; 0]
                      ++ concat (wire_block <$> [([15], 1); ([5], 0)]) ++ []) false 32 = Ret o ∧
       expand o = [0; 1; 2; 3; 64; 66].
Proof.
  destruct (pr_suptypes_correct [140; 0; 0; 0; 0; 1; 0; 1; 0; 0; 0; 0; 0; 0; 0; 0] [] false eq_refl
    [([15], 1); ([5], 0)]) as (o & E & Ex).
  - repeat constructor; unfold word_ok; simpl; lia.
  - vm_compute. discriminate.
  - exists o. split; [exact E|]. rewrite Ex. vm_compute. reflexivity.
Defined.

End Suptypes.

(** ** Addresses of a node *)

Module Nodeaddr.

Definition ICMP6_NI_REFUSED : Z := 1.
Definition ICMP6_NI_UNKNOWN : Z := 2.
Definition NI_NODEADDR_FLAG_TRUNCATE : Z := 0x0100.

Section nodeaddr.
Context (pkt : bytes).

(** Printing the time to live of an address. *)
Definition pr_ttl (ttl : Z) : output :=
  if ttl =? 0xffffffff then [("(TTL=infty)", [])%string] else [("(TTL=%u)", [Num ttl])%string].

(** The loop over the addresses; running out of fuel is [Crash]. *)
Fixpoint nodeaddr_loop (fuel : nat) (withttl : bool) (cp : nat) (nilen : Z) : outcome output :=
  match fuel with
  | O => Crash
  | S fuel =>
      if 0 <? nilen then
        '(ttl, cp, nilen) ←
          (if withttl : bool then
             ttl ← of_opt (rd32 pkt cp);
             Ret (ttl, (cp + 4)%nat, nilen - 4)
           else Ret (0, cp, nilen));
        a ← of_opt (read_at pkt cp 16);
        rest ← nodeaddr_loop fuel withttl (cp + 16)%nat (nilen - 16);
        Ret ([("  %s", [Addr a])%string] ++ (if withttl then pr_ttl ttl else []) ++ [("\n", [])%string] ++ rest)
      else Ret []
  end.

Definition pr_nodeaddr (verbose : bool) (nilen : Z) : outcome output :=
  let nilen := nilen - 16 in
  code ← of_opt (rd8 pkt 1);
  flags ← of_opt (rd16le pkt 6);
  let head :=
    if verbose then
      (if code =? ICMP6_NI_REFUSED then [("refused", [])%string]
       else if code =? ICMP6_NI_UNKNOWN then [("unknown qtype", [])%string] else [])
      ++ (if truthy (Z.land flags NI_NODEADDR_FLAG_TRUNCATE) then [(" truncated", [])%string] else [])
    else [] in
  let none := if nilen <=? 0 then [("  no address\n", [])%string] else [] in
  let withttl := u64 nilen mod 20 =? 0 in
  rest ← nodeaddr_loop (S (Z.to_nat nilen)) withttl 16 nilen;
  Ret (head ++ [("\n", [])%string] ++ none ++ rest).

End nodeaddr.

Definition wire_addr (a : Z * bytes) : bytes := be32 a.1 ++ a.2.
Definition addr_ok (a : Z * bytes) : Prop := 0 <= a.1 < 2 ^ 32 ∧ length a.2 = 16%nat.
Definition shown_addr (a : Z * bytes) : output :=
  [("  %s", [Addr a.2])%string] ++ pr_ttl a.1 ++ [("\n", [])%string].

Lemma nodeaddr_loop_ttl l pre post fuel :
  Forall addr_ok l → (length l < fuel)%nat →
  nodeaddr_loop (pre ++ concat (wire_addr <$> l) ++ post) fuel true (length pre) (20 * Z.of_nat (length l)) =
  Ret (concat (shown_addr <$> l)).
Proof.
  intros Hl. revert pre fuel. induction Hl as [|[t a] l [Ht Ha] Hl IH]; intros pre fuel Hf;
    (destruct fuel as [|fuel]; [simpl in Hf; lia|]); [done|]. simpl in Ht, Ha.
  cbn [nodeaddr_loop]. rewrite (proj2 (Z.ltb_lt _ _)) by (simpl; lia).
  cbn [fmap list_fmap concat]. fold (wire_addr <$> l). set (tl := concat (wire_addr <$> l)) in *.
  change (wire_addr (t, a)) with (be32 t ++ a). rewrite <- !(assoc_L (++)).
  assert (R1 : rd32 (pre ++ be32 t ++ a ++ tl ++ post) (length pre) = Some t).
  { unfold rd32. rewrite (Suptypes.read_at_here pre (be32 t)). simpl. f_equal. by apply Suptypes.be_val_be32. }
  rewrite R1. cbn [of_opt mbind outcome_bind].
  assert (R2 : read_at (pre ++ be32 t ++ a ++ tl ++ post) (length pre + 4) 16 = Some a).
  { rewrite (assoc_L (++)). replace (length pre + 4)%nat with (length (pre ++ be32 t)) by (rewrite length_app; done).
    rewrite <- Ha. apply Suptypes.read_at_here. }
  rewrite R2. cbn [of_opt mbind outcome_bind].
  specialize (IH ((pre ++ be32 t) ++ a) fuel ltac:(simpl in Hf; lia)). rewrite <- !(assoc_L (++)) in IH.
  rewrite !length_app, Ha in IH. change (length (be32 t)) with 4%nat in IH.
  replace (length pre + (4 + 16))%nat with (length pre + 4 + 16)%nat in IH by lia.
  replace (20 * Z.of_nat (length ((t, a) :: l)) - 4 - 16) with (20 * Z.of_nat (length l)) by (simpl; lia).
  rewrite IH. cbn [mbind outcome_bind]. change (shown_addr (t, a)) with ([("  %s", [Addr a])%string] ++ pr_ttl t ++ [("\n", [])%string]).
  by rewrite <- !(assoc_L (++)).
Qed.

(** A reply whose addresses carry their time to live is printed address by
    address, in order, each with its time to live. *)
Lemma pr_nodeaddr_ttl hdr l post verbose :
  length hdr = 16%nat → Forall addr_ok l → Z.of_nat (length l) < 2 ^ 20 →
  ∃ head, pr_nodeaddr (hdr ++ concat (wire_addr <$> l) ++ post) verbose (16 + 20 * Z.of_nat (length l)) =
    Ret (head ++ concat (shown_addr <$> l)).
Proof.
  intros Hh Hl Hn. unfold pr_nodeaddr.
  destruct hdr as [|h0 [|h1 [|h2 [|h3 [|h4 [|h5 [|h6 [|h7 hdr]]]]]]]]; try (simpl in Hh; lia).
  replace (16 + 20 * Z.of_nat (length l) - 16) with (20 * Z.of_nat (length l)) by lia.
  cbn [rd8 lookup list_lookup app of_opt mbind outcome_bind].
  assert (E : ∃ f, rd16le (h0 :: h1 :: h2 :: h3 :: h4 :: h5 :: h6 :: h7 ::
    (hdr ++ concat (wire_addr <$> l) ++ post)) 6 = Some f).
  { unfold rd16le, read_at. rewrite bool_decide_true by (simpl; lia). eexists. reflexivity. }
  destruct E as [f ->]. cbn [of_opt mbind outcome_bind].
  assert (Em : (u64 (20 * Z.of_nat (length l)) mod 20 =? 0) = true).
  { apply Z.eqb_eq. unfold u64. rewrite (Z.mod_small _ (2 ^ 64)) by lia.
    rewrite Z.mul_comm. apply Z_mod_mult. }
  rewrite Em. change (h0 :: h1 :: h2 :: h3 :: h4 :: h5 :: h6 :: h7 :: (hdr ++ concat (wire_addr <$> l) ++ post))
    with ((h0 :: h1 :: h2 :: h3 :: h4 :: h5 :: h6 :: h7 :: hdr) ++ concat (wire_addr <$> l) ++ post).
  pose proof (nodeaddr_loop_ttl l (h0 :: h1 :: h2 :: h3 :: h4 :: h5 :: h6 :: h7 :: hdr) post
    (S (Z.to_nat (20 * Z.of_nat (length l)))) Hl ltac:(lia)) as E.
  rewrite Hh in E. rewrite E. cbn [mbind outcome_bind]. eexists (_ ++ _ :: _).
  rewrite <- (assoc_L (++)). reflexivity.
Qed.

End Nodeaddr.

(** ** The multicast group of a name *)

Module Nigroup.

Definition NI_MAXHOST : nat := 1025.

(** [strchr(name, '.')], or the end of the string. *)
Fixpoint label_len (name : bytes) : nat :=
  match name with
  | [] => 0
  | c :: name => if c =? 46 then 0 else S (label_len name)
  end.

(** ff02::2:0000:0000 and ff02::2:ff00:0000 *)
Definition old_prefix : bytes := [0xff; 0x02; 0; 0; 0; 0; 0; 0; 0; 0; 0; 0x02; 0; 0; 0; 0].
Definition new_prefix : bytes := [0xff; 0x02; 0; 0; 0; 0; 0; 0; 0; 0; 0; 0x02; 0xff; 0; 0; 0].

(** The address that is printed and returned, or [None] for NULL, and the
    string [name], which is changed in place. *)
Definition nigroup (name : bytes) (nig_oldmcprefix : bool) : option bytes * bytes :=
  let l := label_len name in
  if (63 <? l)%nat || (NI_MAXHOST - 1 <? l)%nat then (None, name)
  else
    let name := (λ q, if isupper q then tolower q else q) <$> name in
    let c := Z.land (Z.of_nat l) 0xff in
    let digest := MD5.md5 [[c]; take l name] in
    let in6 :=
      if nig_oldmcprefix then MD5.bcopy (take 4 digest) old_prefix 12
      else MD5.bcopy (take 3 digest) new_prefix 13 in
    (Some in6, name).

Definition lower (name : bytes) : bytes := tolower <$> name.

Lemma label_len_lower name : label_len (lower name) = label_len name.
Proof.
  induction name as [|c name IH]; [done|]. cbn [lower fmap list_fmap label_len]. fold (lower name). rewrite IH.
  assert (E : (tolower c =? 46) = (c =? 46)); [|by rewrite E].
  unfold tolower. destruct (isupper c) eqn:Eu; [|done]. unfold isupper in Eu.
  apply andb_prop in Eu as [?%Z.leb_le ?%Z.leb_le].
  rewrite (proj2 (Z.eqb_neq _ _)), (proj2 (Z.eqb_neq _ _)) by lia. done.
Qed.

Lemma lower_if name : ((λ q, if isupper q then tolower q else q) <$> name) = lower name.
Proof.
  apply list_fmap_ext. intros _ c _. unfold tolower. by destruct (isupper c).
Qed.

(** the group of a name is the prefix of RFC 4620, ff02::2:ff00:0/104,
    with the first three octets of the MD5 digest of the length and of the
    lower-case first label; names that differ in case have the same group. *)
Lemma nigroup_correct (name : bytes) :
  (label_len name <= 63)%nat →
  let label := take (label_len name) (lower name) in
  nigroup name false =
    (Some ([0xff; 0x02; 0; 0; 0; 0; 0; 0; 0; 0; 0; 0x02; 0xff]
             ++ take 3 (MD5.Rfc1321.digest (Z.of_nat (label_len name) :: label))), lower name) ∧
  ∀ name', lower name' = lower name → nigroup name' false = nigroup name false.
Proof.
  intros Hl label.
  assert (Hg : ∀ n, lower n = lower name →
    nigroup n false = (Some ([0xff; 0x02; 0; 0; 0; 0; 0; 0; 0; 0; 0; 0x02; 0xff]
      ++ take 3 (MD5.Rfc1321.digest (Z.of_nat (label_len name) :: label))), lower name)).
  { intros n En. unfold nigroup. rewrite lower_if, En.
    assert (El : label_len n = label_len name) by (rewrite <- label_len_lower, En; apply label_len_lower).
    rewrite El. rewrite !(proj2 (Nat.ltb_ge _ _)) by (unfold NI_MAXHOST; lia). cbn [orb].
    assert (Ec : Z.land (Z.of_nat (label_len name)) 0xff = Z.of_nat (label_len name)).
    { change 0xff with (Z.ones 8). rewrite Z.land_ones by lia. apply Z.mod_small. lia. }
    rewrite Ec, MD5.md5_digest by (repeat constructor; rewrite ?length_take; simpl; lia).
    cbn [concat app]. rewrite app_nil_r. fold label. set (d := MD5.Rfc1321.digest _).
    assert (Hd : length d = 16%nat) by apply MD5.digest_length.
    unfold MD5.bcopy. rewrite length_take, Hd. cbn. by rewrite app_nil_r. }
  split; [by apply Hg|]. intros n En. rewrite (Hg n En). symmetry. by apply Hg.
Qed.

Lemma nigroup_correct_witness :
  nigroup [87; 119; 119; 46; 97] false = nigroup [119; 87; 119; 46; 65] false.
Proof. destruct (nigroup_correct [119; 87; 119; 46; 65]) as [_ H]; [vm_compute; lia|]. by apply H. Defined.

End Nigroup.
