(* ===== verification/Tally.v ===== *)
(** * Tally: counting replies with a bitmap (ping.tproj/ping.c, ping6.tproj/ping6.c)

    ping and ping6 keep one bit per sequence number (modulo the size of the
    table): a query clears its bit, a reply sets it, and a reply whose bit is
    set already is a duplicate. Here are the macros for the bits, what they
    compute, the specification that counts with a set instead, and what it
    means that an operation of a program implements a step of it. The two
    programs are the instances of the class [Counter]. *)

From stdpp Require Import gmap.
From S2P Require Import Prelude.

(** ** The table

    [A(bit)] is the octet and [B(bit)] the bit in it; an index outside the
    table has no octet. *)

Definition A (tbl : bytes) (bit : Z) : option Z :=
  let i := Z.shiftr bit 3 in if i <? 0 then None else tbl !! Z.to_nat i.
Definition B (bit : Z) : Z := Z.shiftl 1 (Z.land bit 0x07).
Definition set_A (tbl : bytes) (bit v : Z) : bytes := <[Z.to_nat (Z.shiftr bit 3) := v]> tbl.

Definition bit (tbl : bytes) (k : Z) : bool := Z.testbit (tbl !!! Z.to_nat (k / 8)) (k mod 8).

Lemma B_pow k : B k = 2 ^ (k mod 8).
Proof.
  unfold B. change 0x07 with (Z.ones 3). rewrite Z.land_ones by lia. apply Z.shiftl_1_l.
Qed.

Lemma testbit_truthy a n : 0 <= n → truthy (Z.land a (2 ^ n)) = Z.testbit a n.
Proof.
  intros Hn. unfold truthy. destruct (Z.testbit a n) eqn:E.
  - destruct (Z.eqb_spec (Z.land a (2 ^ n)) 0) as [E0|]; [|done].
    assert (Ht : Z.testbit (Z.land a (2 ^ n)) n = true) by (rewrite Z.land_spec, E, Z.pow2_bits_true by done; done).
    by rewrite E0, Z.bits_0 in Ht.
  - assert (E0 : Z.land a (2 ^ n) = 0); [|by rewrite E0]. apply Z.bits_inj'. intros m Hm.
    rewrite Z.land_spec, Z.bits_0. destruct (decide (m = n)) as [->|]; [by rewrite E|].
    by rewrite Z.pow2_bits_false, andb_false_r by lia.
Qed.

Section table.
(** The number of octets. *)
Context (n : Z).
Definition tbl_ok (tbl : bytes) : Prop := Z.of_nat (length tbl) = n.
Definition seq_ok (k : Z) : Prop := 0 <= k < 8 * n.

Lemma octet_range k : seq_ok k → 0 <= k / 8 < n.
Proof. unfold seq_ok. intros. split; [apply Z.div_pos; lia|apply Z.div_lt_upper_bound; lia]. Qed.

Lemma A_Some tbl k : tbl_ok tbl → seq_ok k → A tbl k = Some (tbl !!! Z.to_nat (k / 8)).
Proof.
  unfold tbl_ok, A. intros Ht Hk%octet_range. rewrite Z.shiftr_div_pow2 by lia.
  change (2 ^ 3) with 8. rewrite (proj2 (Z.ltb_ge _ _)) by lia.
  apply list_lookup_lookup_total_lt. lia.
Qed.

(** Writing the octet of bit [k]: the other bits stay if the written octet
    differs from the old one in bit [k] only. *)
Lemma bit_set_A tbl k j v :
  tbl_ok tbl → seq_ok k → seq_ok j →
  (∀ i, 0 <= i < 8 → i ≠ k mod 8 → Z.testbit v i = Z.testbit (tbl !!! Z.to_nat (k / 8)) i) →
  bit (set_A tbl k v) j = if bool_decide (j = k) then Z.testbit v (k mod 8) else bit tbl j.
Proof.
  unfold tbl_ok. intros Ht Hk Hj Hv. pose proof (octet_range _ Hk). pose proof (octet_range _ Hj).
  unfold bit, set_A. rewrite Z.shiftr_div_pow2 by lia. change (2 ^ 3) with 8.
  destruct (decide (j / 8 = k / 8)) as [E|E].
  - rewrite E, list_lookup_total_insert_eq by lia. case_bool_decide as Ejk; [by subst|].
    apply Hv; [apply Z.mod_pos_bound; lia|]. intros E'. apply Ejk.
    rewrite (Z.div_mod j 8), (Z.div_mod k 8) by lia. lia.
  - rewrite list_lookup_total_insert_ne by lia. by rewrite bool_decide_false by (intros ->; lia).
Qed.

Lemma set_A_ok tbl k v : tbl_ok tbl → tbl_ok (set_A tbl k v).
Proof. unfold tbl_ok, set_A. by rewrite length_insert. Qed.

(** What [SET] and [CLR] write. *)
Lemma bit_set tbl k j : tbl_ok tbl → seq_ok k → seq_ok j →
  bit (set_A tbl k (Z.lor (tbl !!! Z.to_nat (k / 8)) (B k))) j = (bool_decide (j = k) || bit tbl j).
Proof.
  intros Ht Hk Hj. rewrite B_pow. pose proof (Z.mod_pos_bound k 8 ltac:(lia)).
  rewrite bit_set_A; [|done|done|done|].
  - case_bool_decide; [|done]. by rewrite Z.lor_spec, Z.pow2_bits_true, orb_true_r by lia.
  - intros i Hi Hne. by rewrite Z.lor_spec, Z.pow2_bits_false, orb_false_r by lia.
Qed.

Lemma bit_clear tbl k j : tbl_ok tbl → seq_ok k → seq_ok j →
  bit (set_A tbl k (Z.land (tbl !!! Z.to_nat (k / 8)) (u8 (Z.lnot (B k))))) j
  = (negb (bool_decide (j = k)) && bit tbl j).
Proof.
  intros Ht Hk Hj. rewrite B_pow. pose proof (Z.mod_pos_bound k 8 ltac:(lia)).
  assert (Hm : ∀ i, 0 <= i < 8 → Z.testbit (u8 (Z.lnot (2 ^ (k mod 8)))) i = negb (Z.testbit (2 ^ (k mod 8)) i)).
  { intros i Hi. unfold u8. by rewrite Z.mod_pow2_bits_low, Z.lnot_spec by lia. }
  rewrite bit_set_A; [|done|done|done|].
  - case_bool_decide; [|done]. rewrite Z.land_spec, Hm, Z.pow2_bits_true by lia. apply andb_false_r.
  - intros i Hi Hne. by rewrite Z.land_spec, Hm, Z.pow2_bits_false, andb_true_r by lia.
Qed.

Lemma bit_test tbl k : 0 <= k → truthy (Z.land (tbl !!! Z.to_nat (k / 8)) (B k)) = bit tbl k.
Proof. intros Hk. rewrite B_pow. apply testbit_truthy, Z.mod_pos_bound. lia. Qed.

Lemma bit_zero k : seq_ok k → bit (replicate (Z.to_nat n) 0) k = false.
Proof.
  intros Hk%octet_range. unfold bit. rewrite lookup_total_replicate_2 by lia. apply Z.bits_0.
Qed.

End table.

(** ** The specification: counting with a set

    The number of queries sent, of first replies and of repeated replies, and
    the set of the sequence numbers (modulo the size of the table) answered
    since they were last sent. *)

Record tally := Tally { a_sent : Z; a_first : Z; a_dup : Z; a_seen : gset Z }.

Section spec.
Context (size_ : Z).

Definition a_send (a : tally) : tally :=
  Tally (a_sent a + 1) (a_first a) (a_dup a) (a_seen a ∖ {[a_sent a mod size_]}).
Definition a_reply (s : Z) (a : tally) : tally :=
  let k := s mod size_ in
  if bool_decide (k ∈ a_seen a) then Tally (a_sent a) (a_first a) (a_dup a + 1) (a_seen a)
  else Tally (a_sent a) (a_first a + 1) (a_dup a) ({[k]} ∪ a_seen a).
Definition on_heard (o : option Z) (a : tally) : tally :=
  match o with Some s => a_reply s a | None => a end.
Definition sends (sent : bool) (a : tally) : tally := if sent then a_send a else a.

Lemma on_heard_sent o a : a_sent (on_heard o a) = a_sent a.
Proof. destruct o; [|done]. simpl. unfold a_reply. by case_match. Qed.

(** The first reply to a query counts, a second one is a duplicate. *)
Lemma reply_twice a s : s mod size_ = a_sent a mod size_ →
  let a1 := a_reply s (a_send a) in let a2 := a_reply s a1 in
  a_first a1 = a_first a + 1 ∧ a_dup a1 = a_dup a ∧ a_first a2 = a_first a + 1 ∧ a_dup a2 = a_dup a + 1.
Proof.
  intros E. cbv zeta. assert (E1 : a_reply s (a_send a) = Tally (a_sent a + 1) (a_first a + 1) (a_dup a)
    ({[s mod size_]} ∪ a_seen (a_send a))).
  { unfold a_reply. rewrite bool_decide_false; [done|]. simpl. rewrite E. set_solver. }
  rewrite E1. unfold a_reply. rewrite bool_decide_true by (simpl; set_solver). done.
Qed.

(** *** A network that answers only what was sent *)

Definition residues (k : Z) : gset Z := list_to_set (seqZ 0 (Z.min k size_)).
Lemma elem_of_residues m k : k ∈ residues m ↔ 0 <= k < Z.min m size_.
Proof. unfold residues. rewrite elem_of_list_to_set, elem_of_seqZ. lia. Qed.

(** Each first reply uses up one query. *)
Record tally_ok (a : tally) : Prop := {
  t_first : 0 <= a_first a;
  t_sent : 0 <= a_sent a;
  t_seen : a_seen a ⊆ residues (a_sent a);
  t_count : a_first a + Z.of_nat (size (residues (a_sent a) ∖ a_seen a)) <= a_sent a }.

Context (Hsize : 0 < size_).

Lemma residues_send m : 0 <= m → residues (m + 1) = {[m mod size_]} ∪ residues m.
Proof.
  intros Hm. apply set_eq. intros k. rewrite elem_of_union, elem_of_singleton, !elem_of_residues.
  destruct (decide (m < size_)).
  - rewrite Z.mod_small by lia. lia.
  - pose proof (Z.mod_pos_bound m size_ ltac:(lia)). lia.
Qed.

Lemma tally_send a : tally_ok a → tally_ok (a_send a).
Proof.
  intros [H1 H2 H3 H4]. split; simpl; [done|lia| |]; rewrite residues_send by done; [set_solver|].
  set (s := a_sent a mod size_).
  assert (Hsub : ({[s]} ∪ residues (a_sent a)) ∖ (a_seen a ∖ {[s]}) ⊆ {[s]} ∪ (residues (a_sent a) ∖ a_seen a)).
  { intros k. rewrite !elem_of_difference, !elem_of_union, !elem_of_difference, elem_of_singleton.
    destruct (decide (k ∈ a_seen a)), (decide (k = s)); naive_solver. }
  apply subseteq_size in Hsub.
  pose proof (size_union_alt ({[s]} : gset Z) (residues (a_sent a) ∖ a_seen a)) as Hu.
  rewrite size_singleton in Hu.
  assert (Hd : (residues (a_sent a) ∖ a_seen a) ∖ {[s]} ⊆ residues (a_sent a) ∖ a_seen a) by set_solver.
  apply subseteq_size in Hd. lia.
Qed.

Lemma tally_reply a s : tally_ok a → s mod size_ ∈ residues (a_sent a) → tally_ok (a_reply s a).
Proof.
  intros [H1 H2 H3 H4]. unfold a_reply. set (k := s mod size_). intros Hs. case_bool_decide as Hin; [by split|].
  split; simpl; [lia|done|set_solver|].
  assert (E : residues (a_sent a) ∖ ({[k]} ∪ a_seen a) = (residues (a_sent a) ∖ a_seen a) ∖ {[k]}) by set_solver.
  rewrite E. assert (Hm : k ∈ residues (a_sent a) ∖ a_seen a) by set_solver.
  assert (Hz : size ((residues (a_sent a) ∖ a_seen a) ∖ {[k]}) = (size (residues (a_sent a) ∖ a_seen a) - 1)%nat).
  { rewrite size_difference by set_solver. by rewrite size_singleton. }
  rewrite Hz. assert (Hp : size (residues (a_sent a) ∖ a_seen a) ≠ 0%nat).
  { intros H0. apply size_empty_inv in H0. set_solver. }
  lia.
Qed.

(** A reply to one of the queries, with its number modulo a multiple [m] of
    the size of the table. *)
Lemma sent_residue sent j m q : 0 <= j < sent → 0 < q → m = q * size_ → (j mod m) mod size_ ∈ residues sent.
Proof.
  intros Hj Hq ->. rewrite (Z.mul_comm q), Z.rem_mul_r by lia.
  rewrite (Z.mul_comm size_ _), Z.mod_add, Z.mod_mod by lia. apply elem_of_residues.
  pose proof (Z.mod_pos_bound j size_ Hsize). pose proof (Z.mod_le j size_ ltac:(lia) Hsize). lia.
Qed.

Lemma tally_start : tally_ok (Tally 0 0 0 ∅).
Proof.
  split; simpl; [done|done|set_solver|].
  assert (E : residues 0 ∖ ∅ = ∅); [|by rewrite E, size_empty]. apply set_eq. intros k.
  rewrite elem_of_difference, elem_of_residues. set_solver by lia.
Qed.

Lemma tally_counts a : tally_ok a → 0 <= a_first a <= a_sent a.
Proof. intros []. lia. Qed.

End spec.

(** ** A program that counts *)

Class Counter (S : Type) := {
  n_sent : S → Z;
  n_first : S → Z;
  n_dup : S → Z;
  n_table : S → bytes }.

Section program.
Context {S : Type} `{Counter S} (n : Z).

(** The state of the program stands for the tally. *)
Record abs (p : S) (a : tally) : Prop := {
  abs_sent : n_sent p = a_sent a;
  abs_first : n_first p = a_first a;
  abs_dup : n_dup p = a_dup a;
  abs_tbl : tbl_ok n (n_table p);
  abs_seen : ∀ k, seq_ok n k → bit (n_table p) k = bool_decide (k ∈ a_seen a) }.

(** Operations that keep the counters and the table. *)
Definition same (p p' : S) : Prop :=
  n_sent p' = n_sent p ∧ n_first p' = n_first p ∧ n_dup p' = n_dup p ∧ n_table p' = n_table p.
#[export] Instance same_preorder : PreOrder same.
Proof. split; [done|]. unfold same. intros p1 p2 p3. intuition congruence. Qed.

Lemma abs_same p p' a : same p p' → abs p a → abs p' a.
Proof.
  intros (E1 & E2 & E3 & E4) [H1 H2 H3 H4 H5].
  split; [by rewrite E1|by rewrite E2|by rewrite E3|by rewrite E4|by rewrite E4].
Qed.

(** A reply with sequence number [s]. *)
Lemma abs_reply p p' a s :
  0 < n → abs p a → let k := s mod (8 * n) in
  n_sent p' = n_sent p →
  (if bit (n_table p) k then n_first p' = n_first p ∧ n_dup p' = n_dup p + 1 ∧ n_table p' = n_table p
   else n_first p' = n_first p + 1 ∧ n_dup p' = n_dup p ∧
     n_table p' = set_A (n_table p) k (Z.lor (n_table p !!! Z.to_nat (k / 8)) (B k))) →
  abs p' (a_reply (8 * n) s a).
Proof.
  intros Hn [H1 H2 H3 H4 H5] k E1 Hc. unfold a_reply. fold k.
  assert (Hk : seq_ok n k) by (unfold seq_ok, k; apply Z.mod_pos_bound; lia).
  rewrite H5 in Hc by done. case_bool_decide as Hin; destruct Hc as (E2 & E3 & E4).
  - split; simpl; rewrite ?E1, ?E2, ?E3, ?E4; auto; lia.
  - split; simpl; rewrite ?E1, ?E2, ?E3, ?E4; auto; try lia; [by apply set_A_ok|].
    intros j Hj. rewrite (bit_set n) by done. rewrite H5 by done.
    rewrite <- bool_decide_or. apply bool_decide_ext. set_solver.
Qed.

(** A query. *)
Lemma abs_send p p' a :
  0 < n → abs p a → 0 <= n_sent p → let k := n_sent p mod (8 * n) in
  n_sent p' = n_sent p + 1 → n_first p' = n_first p → n_dup p' = n_dup p →
  n_table p' = set_A (n_table p) k (Z.land (n_table p !!! Z.to_nat (k / 8)) (u8 (Z.lnot (B k)))) →
  abs p' (a_send (8 * n) a).
Proof.
  intros Hn [H1 H2 H3 H4 H5] H0 k E1 E2 E3 E4.
  assert (Hk : seq_ok n k) by (unfold seq_ok, k; apply Z.mod_pos_bound; lia).
  split; simpl; rewrite ?E1, ?E2, ?E3, ?E4; auto; [lia|by apply set_A_ok|].
  intros j Hj. rewrite (bit_clear n) by done. rewrite H5 by done.
  rewrite <- bool_decide_not, <- bool_decide_and. apply bool_decide_ext. subst k. rewrite H1. set_solver.
Qed.

(** The start. *)
Lemma abs_start p : 0 < n → n_sent p = 0 → n_first p = 0 → n_dup p = 0 →
  n_table p = replicate (Z.to_nat n) 0 → abs p (Tally 0 0 0 ∅).
Proof.
  intros Hn H1 H2 H3 H4. split; simpl; [done|done|done| |].
  - unfold tbl_ok. rewrite H4, length_replicate. lia.
  - intros k Hk. rewrite bool_decide_false by apply not_elem_of_empty. rewrite H4. by apply bit_zero.
Qed.

Lemma abs_exists p : tbl_ok n (n_table p) → ∃ a, abs p a.
Proof.
  intros Ht. exists (Tally (n_sent p) (n_first p) (n_dup p)
    (list_to_set (filter (λ k, bit (n_table p) k = true) (seqZ 0 (8 * n))))).
  split; try done. intros k Hk. cbn [a_seen]. symmetry. apply eq_bool_prop_intro.
  rewrite bool_decide_spec, elem_of_list_to_set, list_elem_of_filter, elem_of_seqZ.
  unfold seq_ok in Hk. split; [intros [-> _]; done|]. intros Hb. split; [|lia]. by apply Is_true_true.
Qed.

(** ** Operations *)

(** Operations that relate the states before and after by a preorder. *)
Definition pres (R : relation S) {X} (m : ST S X) : Prop := ∀ p, on_ret (m p) (λ '(_, p'), R p p').

Section pres.
Context (R : relation S) `{!PreOrder R}.

Lemma pres_bind {X Y} (m : ST S X) (f : X → ST S Y) : pres R m → (∀ x, pres R (f x)) → pres R (m ≫= f).
Proof.
  intros Hm Hf p. specialize (Hm p). unfold mbind, ST_bind.
  destruct (m p) as [[x p1]| |]; simpl in *; [|done|done].
  specialize (Hf x p1). destruct (f x p1) as [[y p2]| |]; simpl in *; [|done|done]. by etrans.
Qed.
Lemma pres_ret {X} (x : X) : pres R (mret x).
Proof. intros p. simpl. reflexivity. Qed.
Lemma pres_skip : pres R skip.
Proof. intros p. simpl. reflexivity. Qed.
Lemma pres_get : pres R get.
Proof. intros p. simpl. reflexivity. Qed.
Lemma pres_lift {X} (m : outcome X) : pres R (lift m).
Proof. intros p. unfold lift. destruct m; [|done|done]. simpl. reflexivity. Qed.
Lemma pres_modify g : (∀ p, R p (g p)) → pres R (modify g).
Proof. intros HR p. apply HR. Qed.
End pres.

(** The effect of an operation on the tally; it may depend on the result. *)
Definition effect {X} (pre : S → Prop) (m : ST S X) (F : X → tally → tally) : Prop :=
  ∀ p a, pre p → abs p a → on_ret (m p) (λ '(x, p'), abs p' (F x a)).
Abbreviation anytime := (λ _ : S, True).

Lemma effect_keeps {X} (m : ST S X) pre : pres same m → effect pre m (λ _ a, a).
Proof.
  intros Hm p a _ Ha. specialize (Hm p). destruct (m p) as [[x p']| |]; simpl in *; [|done|done].
  by eapply abs_same.
Qed.

Lemma effect_bind {X Y} pre (m : ST S X) (k : X → ST S Y) F G :
  effect pre m (λ _, F) → (∀ x, effect anytime (k x) (λ _, G)) → effect pre (m ≫= k) (λ _ a, G (F a)).
Proof.
  intros Hm Hk p a Hp Ha. specialize (Hm p a Hp Ha). unfold mbind, ST_bind.
  destruct (m p) as [[x p1]| |]; simpl in *; [|done|done]. apply (Hk x p1 (F a) I Hm).
Qed.

Lemma effect_bind_keeps {X Y} pre (m : ST S X) (k : X → ST S Y) G :
  pres same m → (∀ x, effect anytime (k x) G) → effect pre (m ≫= k) G.
Proof.
  intros Hm Hk p a Hp Ha. pose proof (effect_keeps m pre Hm p a Hp Ha) as He. unfold mbind, ST_bind.
  destruct (m p) as [[x p1]| |]; simpl in *; [|done|done]. apply (Hk x p1 a I He).
Qed.

Lemma effect_then_keeps {X Y} pre (m : ST S X) (k : X → ST S Y) F :
  effect pre m (λ _, F) → (∀ x, pres same (k x)) → effect pre (m ≫= k) (λ _, F).
Proof. intros Hm Hk. apply (effect_bind pre m k F id); [done|]. intros. by apply effect_keeps. Qed.

(** [lift] of a computed value is the value. *)
Lemma lift_Some {X Y} (o : option X) x (k : X → ST S Y) F :
  o = Some x → effect anytime (k x) F → effect anytime (lift (of_opt o) ≫= k) F.
Proof. intros -> Hk. exact Hk. Qed.
Lemma lift_Ret {X Y} (x : X) (k : X → ST S Y) F :
  effect anytime (k x) F → effect anytime (lift (Ret x) ≫= k) F.
Proof. intros Hk. exact Hk. Qed.

(** *** Turns

    A turn of the main loop may end with a query; the numbers of queries for
    which that works are those in [ok]. *)
Context (ok : Z → Prop).
Definition sendable (p : S) : Prop := ok (n_sent p).

Definition turn {X} (m : ST S X) (F : tally → tally) : Prop :=
  ∀ p a, sendable p → abs p a → on_ret (m p) (λ '(_, p'), ∃ sent, abs p' (sends (8 * n) sent (F a))).

Lemma turn_keeps {X} (m : ST S X) : pres same m → turn m id.
Proof.
  intros Hm p a Hp Ha. pose proof (effect_keeps m sendable Hm p a Hp Ha) as He.
  destruct (m p) as [[x p']| |]; simpl in *; [|done|done]. by exists false.
Qed.
Lemma turn_then_keeps {X Y} (m : ST S X) (k : X → ST S Y) F :
  turn m F → (∀ x, pres same (k x)) → turn (m ≫= k) F.
Proof.
  intros Hm Hk p a Hp Ha. specialize (Hm p a Hp Ha). unfold mbind, ST_bind.
  destruct (m p) as [[x p1]| |]; simpl in *; [|done|done]. destruct Hm as [sent Hs].
  specialize (Hk x p1). destruct (k x p1) as [[y p2]| |]; simpl in *; [|done|done].
  exists sent. by eapply abs_same.
Qed.
Lemma turn_after {X Y} (m : ST S X) (k : X → ST S Y) F G :
  effect anytime m (λ _, F) → (∀ a, a_sent (F a) = a_sent a) → (∀ x, turn (k x) G) →
  turn (m ≫= k) (λ a, G (F a)).
Proof.
  intros Hm HF Hk p a Hp Ha. specialize (Hm p a I Ha). unfold mbind, ST_bind.
  destruct (m p) as [[x p1]| |]; simpl in *; [|done|done]. apply (Hk x p1 (F a)); [|done].
  unfold sendable in *. rewrite (abs_sent _ _ Hm), HF, <- (abs_sent _ _ Ha). done.
Qed.
Lemma turn_after_keeps {X Y} (m : ST S X) (k : X → ST S Y) G :
  pres same m → (∀ x, turn (k x) G) → turn (m ≫= k) G.
Proof. intros Hm Hk. apply (turn_after m k id G); [by apply effect_keeps|done|done]. Qed.
Lemma effect_after_keeps {X Y} (m : ST S X) (k : X → ST S Y) G :
  pres same m → (∀ x, effect sendable (k x) G) → effect sendable (m ≫= k) G.
Proof.
  intros Hm Hk p a Hp Ha. specialize (Hm p). unfold mbind, ST_bind.
  destruct (m p) as [[x p1]| |]; simpl in *; [|done|done].
  apply (Hk x p1 a); [|by eapply abs_same]. unfold sendable in *. by destruct Hm as (-> & _).
Qed.

End program.

(** ** Operations that return *)

Section total.
Context {S : Type}.

Definition total (pre : S → Prop) {X} (m : ST S X) : Prop :=
  ∀ p, pre p → returns (m p) (λ '(_, p'), pre p').

Context (pre : S → Prop).
Lemma total_bind {X Y} (m : ST S X) (f : X → ST S Y) : total pre m → (∀ x, total pre (f x)) → total pre (m ≫= f).
Proof.
  intros Hm Hf p Hp. specialize (Hm p Hp). unfold mbind, ST_bind.
  destruct (m p) as [[x p1]| |]; simpl in *; [|done|done]. by apply Hf.
Qed.
Lemma total_ret {X} (x : X) : total pre (mret x).
Proof. by intros p Hp. Qed.
Lemma total_skip : total pre skip.
Proof. by intros p Hp. Qed.
Lemma total_get : total pre get.
Proof. by intros p Hp. Qed.
Lemma total_get_bind {Y} (f : S → ST S Y) : (∀ q, pre q → total pre (f q)) → total pre (get ≫= f).
Proof. intros H p Hp. rewrite get_run. by apply H. Qed.
Lemma total_lift {X} (m : outcome X) x : m = Ret x → total pre (lift m).
Proof. intros -> p Hp. exact Hp. Qed.
Lemma total_lift_bind {X Y} (m : outcome X) x (f : X → ST S Y) :
  m = Ret x → total pre (f x) → total pre (lift m ≫= f).
Proof. intros -> H. exact H. Qed.
Lemma total_modify g : (∀ p, pre p → pre (g p)) → total pre (modify g).
Proof. intros H p Hp. by apply H. Qed.
Lemma returns_after {X Y} (m : ST S X) (f : X → ST S Y) p Q :
  total pre m → pre p → (∀ x p', pre p' → returns (f x p') Q) → returns ((m ≫= f) p) Q.
Proof.
  intros Hm Hp Hf. specialize (Hm p Hp). unfold mbind, ST_bind.
  destruct (m p) as [[x p1]| |]; simpl in *; [|done|done]. by apply Hf.
Qed.

End total.
