(* ===== verification/Ping6.v ===== *)
(** * Ping6: the echo and node information client (ping6.tproj/ping6.c)

    [pinger] composes and sends a query, [pr_pack] treats a received message
    (its printed output is kept as a list of [printf] calls), and [main_step]
    is one turn of the loop of [main]. A bitmap of one bit per sequence number
    tells a first reply from a duplicate. *)

From S2P Require Import Prelude Timeval Stdio Md5 NodeInfo Tally.

Definition MAXPACKETLEN : Z := 131072.
Definition IP6LEN : Z := 40.
Definition ICMP6ECHOLEN : nat := 8.
Definition ICMP6ECHOTMLEN : nat := 8.
Definition ICMP6_NIQLEN : nat := ICMP6ECHOLEN + 8.
Definition ICMP6_NIRLEN : nat := ICMP6ECHOLEN + 12.
Definition MAXDATALEN : Z := MAXPACKETLEN - IP6LEN - 8.

Definition F_FLOOD : Z := 0x0001.
Definition F_QUIET : Z := 0x0010.
Definition F_PRTIME : Z := 0x0080.
Definition F_VERBOSE : Z := 0x0100.
Definition F_NODEADDR : Z := 0x0800.
Definition F_FQDN : Z := 0x1000.
Definition F_FQDNOLD : Z := 0x20000.
Definition F_SUPTYPES : Z := 0x80000.
Definition F_ONCE : Z := 0x200000.
Definition F_AUDIBLE : Z := 0x400000.
Definition F_MISSED : Z := 0x800000.
Definition F_WAITTIME : Z := 0x8000000.

Definition ICMP6_ECHO_REQUEST : Z := 128.
Definition ICMP6_ECHO_REPLY : Z := 129.
Definition ICMP6_NI_QUERY : Z := 139.
Definition ICMP6_NI_REPLY : Z := 140.
Definition ICMP6_NI_SUBJ_IPV6 : Z := 0.
Definition ICMP6_NI_SUBJ_FQDN : Z := 1.
Definition ICMP6_NI_SUBJ_IPV4 : Z := 2.
Definition ICMP6_NI_SUCCESS : Z := 0.
Definition NI_QTYPE_NOOP : Z := 0.
Definition NI_QTYPE_SUPTYPES : Z := 1.
Definition NI_QTYPE_FQDN : Z := 2.
Definition NI_QTYPE_NODEADDR : Z := 3.
Definition NI_QTYPE_IPV4ADDR : Z := 4.
Definition NI_FQDN_FLAG_VALIDTTL : Z := 0x0100.

Definition MAX_DUP_CHK : Z := 8 * 8192.
Definition mx_dup_ck : Z := MAX_DUP_CHK.

(** [ntohs] on this (little-endian) machine. *)
Definition ntohs (x : Z) : Z := Z.lor (u16 (Z.shiftl x 8)) (u8 (Z.shiftr x 8)).

(** ** The state *)

Record ping6 := Ping6 {
  options : Z;
  npackets : Z;
  ntransmitted : Z;
  nreceived : Z;
  nrepeats : Z;
  nrcvtimeout : Z;
  nmissedmax : Z;
  snpackets : Z;
  sntransmitted : Z;
  sweepmax : Z;
  sweepincr : Z;
  datalen : Z;
  outpack : bytes;
  rcvd_tbl : bytes;
  almost_done : bool;
  intvl : timeval;
  seenint : Z;
  printed : output }.
#[export] Instance eta_ping6 : Eta ping6 := λ p,
  Ping6 (options p) (npackets p) (ntransmitted p) (nreceived p) (nrepeats p) (nrcvtimeout p)
    (nmissedmax p) (snpackets p) (sntransmitted p) (sweepmax p) (sweepincr p) (datalen p)
    (outpack p) (rcvd_tbl p) (almost_done p) (intvl p) (seenint p) (printed p).

(** What is fixed before the loop starts. *)
Record config := Config {
  hostname : bytes;
  ident : Z;
  nonce : bytes;
  dst : bytes;
  naflags : Z;
  timing : bool;
  waittime : Z;
  rcvtclass : bool;
  use_recvmsg : Z }.

Abbreviation P6 := (ST ping6).
Definition print (f : string) (args : list arg) : P6 unit :=
  modify (λ p, p <| printed := printed p ++ [(f, args)] |>).
Definition print_all (o : output) : P6 unit :=
  modify (λ p, p <| printed := printed p ++ o |>).
Definition opt (f : Z) : P6 bool := λ p, Ret (truthy (Z.land (options p) f), p).

(** ** The table of received sequence numbers

    An access outside the table is a fault. *)

Definition SET (bit : Z) : P6 unit := λ p,
  match A (rcvd_tbl p) bit with
  | None => Crash
  | Some a => Ret (tt, p <| rcvd_tbl := set_A (rcvd_tbl p) bit (Z.lor a (B bit)) |>)
  end.
Definition CLR (bit : Z) : P6 unit := λ p,
  match A (rcvd_tbl p) bit with
  | None => Crash
  | Some a => Ret (tt, p <| rcvd_tbl := set_A (rcvd_tbl p) bit (Z.land a (u8 (Z.lnot (B bit)))) |>)
  end.
Definition TST (bit : Z) : P6 bool := λ p,
  match A (rcvd_tbl p) bit with
  | None => Crash
  | Some a => Ret (truthy (Z.land a (B bit)), p)
  end.

(** [memcpy(&outpack[off], src, ...)] *)
Definition put_out (off : nat) (src : bytes) : P6 unit :=
  modify (λ p, p <| outpack := MD5.bcopy src (outpack p) off |>).

(** ** Other messages: [pr_icmph], [pr_retip] and [pr_iph]

    [end_] is the end of the message in the buffer [buf]. *)

Module Icmph.

Definition ICMP6_DST_UNREACH : Z := 1.
Definition ICMP6_PACKET_TOO_BIG : Z := 2.
Definition ICMP6_TIME_EXCEEDED : Z := 3.
Definition ICMP6_PARAM_PROB : Z := 4.
Definition ICMP6_MEMBERSHIP_QUERY : Z := 130.
Definition ICMP6_MEMBERSHIP_REPORT : Z := 131.
Definition ICMP6_MEMBERSHIP_REDUCTION : Z := 132.
Definition ND_ROUTER_SOLICIT : Z := 133.
Definition ND_ROUTER_ADVERT : Z := 134.
Definition ND_NEIGHBOR_SOLICIT : Z := 135.
Definition ND_NEIGHBOR_ADVERT : Z := 136.
Definition ND_REDIRECT : Z := 137.

Definition say (f : string) : output := [(f, [])].

Section icmph.
Context (buf : bytes) (end_ : nat) (verbose : bool) (stack : nat).

Definition pr_iph (ip6 : nat) : outcome output :=
  h ← of_opt (read_at buf ip6 40);
  let flow := Z.land (be_val (take 4 h)) 0x000fffff in
  let tc := Z.lor (Z.land (Z.shiftr (h !!! 1%nat) 4) 0x0f) (u8 (Z.shiftl (h !!! 0%nat) 4)) in
  Ret [("Vr TC  Flow Plen Nxt Hlim\n", [])%string;
       (" %1x %02x %05x %04x  %02x   %02x\n",
        [Num (Z.shiftr (Z.land (h !!! 0%nat) 0xf0) 4); Num tc; Num flow; Num (be_val (take 2 (drop 4 h)));
         Num (h !!! 6%nat); Num (h !!! 7%nat)])%string;
       ("%s->", [Addr (take 16 (drop 8 h))])%string;
       ("%s\n", [Addr (take 16 (drop 24 h))])%string].

Definition trunc : output := say "...\n".

(** The chain of extension headers of a returned packet, from header [nh] at
    [cp]; running out of fuel is [Crash]. *)
Fixpoint retip_loop (fuel : nat) (nh : Z) (cp : nat) : outcome output :=
  match fuel with
  | O => Crash
  | S fuel =>
      let next (o : output) (hlen : Z) (nh : Z) : outcome output :=
        let cp := (cp + Z.to_nat hlen)%nat in
        if (end_ <=? cp)%nat then Ret (o ++ trunc)
        else rest ← retip_loop fuel nh cp; Ret (o ++ rest) in
      if (cp + 8 <=? end_)%nat then
        b0 ← of_opt (rd8 buf cp);
        b1 ← of_opt (rd8 buf (cp + 1));
        if nh =? 0 then next (say "HBH ") (Z.shiftl (b1 + 1) 3) b0
        else if nh =? 60 then next (say "DSTOPT ") (Z.shiftl (b1 + 1) 3) b0
        else if nh =? 44 then next (say "FRAG ") 8 b0
        else if nh =? 43 then next (say "RTHDR ") (Z.shiftl (b1 + 1) 3) b0
        else if nh =? 51 then next (say "AH ") (Z.shiftl (b1 + 2) 2) b0
        else if nh =? 58 then Ret [("ICMP6: type = %d, code = %d\n", [Num b0; Num b1])%string]
        else if nh =? 50 then Ret (say "ESP\n")
        else if (nh =? 6) || (nh =? 17) then
          b2 ← of_opt (rd8 buf (cp + 2));
          b3 ← of_opt (rd8 buf (cp + 3));
          Ret [((if (nh =? 6)%Z then "TCP: from port %u, to port %u (decimal)\n"
                 else "UDP: from port %u, to port %u (decimal)\n"),
                [Num (b0 * 256 + b1); Num (b2 * 256 + b3)])%string]
        else Ret [("Unknown Header(%d)\n", [Num nh])%string]
      else Ret trunc
  end.

Definition pr_retip (ip6 : nat) : outcome output :=
  if (end_ <? ip6 + 40)%nat then Ret (say "IP6" ++ trunc)
  else
    o ← pr_iph ip6;
    nh ← of_opt (rd8 buf (ip6 + 6));
    rest ← retip_loop (S end_) nh (ip6 + 40);
    Ret (o ++ rest).

Definition qtype_name (qtype : Z) : string :=
  if qtype =? NI_QTYPE_NOOP then "NOOP"
  else if qtype =? NI_QTYPE_SUPTYPES then "Supported qtypes"
  else if qtype =? NI_QTYPE_FQDN then "DNS name"
  else if qtype =? NI_QTYPE_NODEADDR then "nodeaddr"
  else if qtype =? NI_QTYPE_IPV4ADDR then "IPv4 nodeaddr"
  else "unknown qtype".

Definition niqcode : list string := ["IPv6 address"; "DNS label"; "IPv4 address"]%string.
Definition nircode : list string := ["Success"; "Refused"; "Unknown"]%string.

Definition subject (code : Z) (f : string) (args : list arg) : output :=
  [(", subject=" +:+ (niqcode !!! Z.to_nat code) +:+ f, args)].

(** The subject of a query, in the verbose mode; [l] is the length after the
    header as a [size_t]. *)
Definition pr_subject (code : Z) : outcome output :=
  let l := u64 (Z.of_nat end_ - 16) in
  if code =? ICMP6_NI_SUBJ_IPV6 then
    if l =? 16 then
      a ← of_opt (read_at buf 16 16); Ret (subject code "(%s)" [Addr a])
    else Ret (say ", oldfqdn")
  else if code =? ICMP6_NI_SUBJ_FQDN then
    if (end_ =? 16)%nat then Ret (say ", no subject")
    else
      match Dns.dnsdecode buf stack None 16 end_ (NS_MAXDNAME + 1) with
      | None => Crash
      | Some None => Ret (subject code "" [] ++ say "(invalid)")
      | Some (Some (_, dnsname)) => Ret (subject code "" [] ++ [("(%s)", [Str dnsname])%string])
      end
  else if code =? ICMP6_NI_SUBJ_IPV4 then
    if l =? 4 then
      a ← of_opt (read_at buf 16 4); Ret (subject code "(%s)" [Addr a])
    else Ret (say ", invalid")
  else Ret (say ", invalid").

(** The result code of a reply, in the verbose mode. *)
Definition pr_result (code : Z) : outcome output :=
  if Z.of_nat (length nircode) <? code then Ret (say ", invalid")
  else name ← of_opt (nircode !! Z.to_nat code); Ret (say (", " +:+ name)).

Definition pr_icmph : outcome output :=
  ty ← of_opt (rd8 buf 0);
  code ← of_opt (rd8 buf 1);
  if ty =? ICMP6_DST_UNREACH then
    let o := if code =? 0 then say "No Route to Destination\n"
             else if code =? 1 then say "Destination Administratively Unreachable\n"
             else if code =? 2 then say "Destination Unreachable Beyond Scope\n"
             else if code =? 3 then say "Destination Host Unreachable\n"
             else if code =? 4 then say "Destination Port Unreachable\n"
             else [("Destination Unreachable, Bad Code: %d\n", [Num code])%string] in
    r ← pr_retip 8; Ret (o ++ r)
  else if ty =? ICMP6_PACKET_TOO_BIG then
    mtu ← of_opt (rd32 buf 4);
    r ← pr_retip 8; Ret ([("Packet too big mtu = %d\n", [Num (s32 mtu)])%string] ++ r)
  else if ty =? ICMP6_TIME_EXCEEDED then
    let o := if code =? 0 then say "Time to live exceeded\n"
             else if code =? 1 then say "Frag reassembly time exceeded\n"
             else [("Time exceeded, Bad Code: %d\n", [Num code])%string] in
    r ← pr_retip 8; Ret (o ++ r)
  else if ty =? ICMP6_PARAM_PROB then
    let o := if code =? 0 then say "Erroneous Header "
             else if code =? 1 then say "Unknown Nextheader "
             else if code =? 2 then say "Unrecognized Option "
             else [("Bad code(%d) ", [Num code])%string] in
    pptr ← of_opt (rd32 buf 4);
    r ← pr_retip 8; Ret (say "Parameter problem: " ++ o ++ [("pointer = 0x%02x\n", [Num pptr])%string] ++ r)
  else if ty =? ICMP6_ECHO_REQUEST then Ret (say "Echo Request")
  else if ty =? ICMP6_ECHO_REPLY then Ret (say "Echo Reply")
  else if ty =? ICMP6_MEMBERSHIP_QUERY then Ret (say "Listener Query")
  else if ty =? ICMP6_MEMBERSHIP_REPORT then Ret (say "Listener Report")
  else if ty =? ICMP6_MEMBERSHIP_REDUCTION then Ret (say "Listener Done")
  else if ty =? ND_ROUTER_SOLICIT then Ret (say "Router Solicitation")
  else if ty =? ND_ROUTER_ADVERT then Ret (say "Router Advertisement")
  else if ty =? ND_NEIGHBOR_SOLICIT then Ret (say "Neighbor Solicitation")
  else if ty =? ND_NEIGHBOR_ADVERT then Ret (say "Neighbor Advertisement")
  else if ty =? ND_REDIRECT then
    target ← of_opt (read_at buf 8 16);
    d ← of_opt (read_at buf 24 16);
    Ret (say "Redirect\n" ++ [("Destination: %s", [Addr d])%string; (" New Target: %s", [Addr target])%string])
  else if ty =? ICMP6_NI_QUERY then
    qtype ← of_opt (rd16 buf 4);
    o ← (if verbose then pr_subject code else Ret []);
    Ret (say "Node Information Query" ++ say ", " ++ say (qtype_name qtype) ++ o)
  else if ty =? ICMP6_NI_REPLY then
    qtype ← of_opt (rd16 buf 4);
    o ← (if verbose then pr_result code else Ret []);
    Ret (say "Node Information Reply" ++ say ", " ++ say (qtype_name qtype) ++ o)
  else Ret [("Bad ICMP type: %d", [Num ty])%string].

End icmph.
End Icmph.

Section ping6.
Context (cf : config).

(** ** Sending *)

Definition pingerlen (p : ping6) : Z :=
  let opt f := truthy (Z.land (options p) f) in
  if opt F_FQDN then Z.of_nat ICMP6_NIQLEN + 16
  else if opt F_FQDNOLD then Z.of_nat ICMP6_NIQLEN
  else if opt F_NODEADDR then Z.of_nat ICMP6_NIQLEN + 16
  else if opt F_SUPTYPES then Z.of_nat ICMP6_NIQLEN
  else Z.of_nat ICMP6ECHOLEN + datalen p.

(** A query: type, code, query type, flags, the nonce with the sequence
    number in its first two octets, and the subject. *)
Definition ni_query (code qtype flags : Z) (seq : Z) : P6 unit :=
  put_out 0 [ICMP6_NI_QUERY];; put_out 1 [code];;
  put_out 4 (be16 qtype);; put_out 6 [u8 flags; u8 (Z.shiftr flags 8)];;
  put_out 8 (nonce cf);; put_out 8 (be16 seq).

(** Composing the query with sequence number [seq] and sending it; [tv] is the
    time of day and [i] the result of [sendmsg]. *)
Definition transmit (tv : timeval) (i : Z) (seq : Z) : P6 Z :=
  fqdn ← opt F_FQDN;
  fqdnold ← opt F_FQDNOLD;
  nodeaddr ← opt F_NODEADDR;
  suptypes ← opt F_SUPTYPES;
  cc ← (if fqdn : bool then
          ni_query ICMP6_NI_SUBJ_IPV6 NI_QTYPE_FQDN 0 seq;;
          put_out ICMP6_NIQLEN (dst cf);;
          modify (λ p, p <| datalen := 0 |>);;
          mret (Z.of_nat ICMP6_NIQLEN + 16)
        else if fqdnold : bool then
          ni_query 0 NI_QTYPE_FQDN 0 seq;;
          modify (λ p, p <| datalen := 0 |>);;
          mret (Z.of_nat ICMP6_NIQLEN)
        else if nodeaddr : bool then
          ni_query ICMP6_NI_SUBJ_IPV6 NI_QTYPE_NODEADDR (naflags cf) seq;;
          put_out ICMP6_NIQLEN (dst cf);;
          modify (λ p, p <| datalen := 0 |>);;
          mret (Z.of_nat ICMP6_NIQLEN + 16)
        else if suptypes : bool then
          ni_query ICMP6_NI_SUBJ_FQDN NI_QTYPE_SUPTYPES Suptypes.NI_SUPTYPE_FLAG_COMPRESS seq;;
          modify (λ p, p <| datalen := 0 |>);;
          mret (Z.of_nat ICMP6_NIQLEN)
        else
          put_out 0 [ICMP6_ECHO_REQUEST];; put_out 1 [0];;
          put_out 4 (be16 (ident cf));; put_out 6 (be16 seq);;
          (if timing cf then put_out ICMP6ECHOLEN (be32 (tv_sec tv) ++ be32 (tv_usec tv)) else skip);;
          p ← get;
          mret (Z.of_nat ICMP6ECHOLEN + datalen p));
  (if (i <? 0) || negb (i =? cc)
   then print "ping6: wrote %s %d chars, ret=%d\n" [Str (hostname cf); Num cc; Num i] else skip);;
  modify (λ p, p <| sntransmitted := sntransmitted p + 1 |>);;
  quiet ← opt F_QUIET;
  flood ← opt F_FLOOD;
  (if negb quiet && flood then print "." [] else skip);;
  mret 0.

Definition pinger (tv : timeval) (i : Z) : P6 Z :=
  p ← get;
  if truthy (npackets p) && (npackets p <=? ntransmitted p) then mret (-1)
  else
    stop ← (if truthy (sweepmax p) && (sntransmitted p =? snpackets p) then
              modify (λ p, p <| datalen := s32 (datalen p + sweepincr p) |>);;
              p ← get;
              if sweepmax p <? datalen p then mret true
              else modify (λ p, p <| sntransmitted := 0 |>);; mret false
            else mret false);
    if stop : bool then mret (-1)
    else
      put_out 0 (replicate 8 0);;
      p ← get;
      modify (λ p, p <| ntransmitted := ntransmitted p + 1 |>);;
      CLR (Z.rem (s32 (ntransmitted p)) mx_dup_ck);;
      transmit tv i (s32 (ntransmitted p)).

(** ** Receiving *)

Definition myechoreply (buf : bytes) : outcome bool :=
  id ← of_opt (rd16 buf 4);
  Ret (id =? ident cf).

Definition mynireply (buf : bytes) : outcome bool :=
  n ← of_opt (read_at buf 10 6);
  Ret (bool_decide (n = drop 2 (nonce cf))).

(** Ancillary data: the objects the kernel puts beside a message. *)
Inductive ckind := CHopLimit | CPktInfo | CTClass | CTrafficClass | COther.
Record cmsg := Cmsg { cmsg_len : Z; cmsg_kind : ckind; cmsg_data : bytes }.
Record msghdr := Msghdr {
  msg_name : option Z;          (* the family of the sender's address *)
  msg_namelen : Z;
  msg_from : bytes;
  msg_ctrunc : bool;
  msg_control : list cmsg }.

#[local] Instance ckind_eq_dec : EqDecision ckind.
Proof. solve_decision. Defined.

(** The first object of the kind whose data has [n] octets. *)
Fixpoint find_cmsg (k : ckind) (n : nat) (l : list cmsg) : option bytes :=
  match l with
  | [] => None
  | c :: l =>
      if cmsg_len c =? 0 then None
      else if bool_decide (cmsg_kind c = k) && (cmsg_len c =? 12 + Z.of_nat n) then Some (cmsg_data c)
      else find_cmsg k n l
  end.
Definition cmsg_int (d : bytes) : Z := s32 (le_val (take 4 d)).
Definition get_hoplim (m : msghdr) : Z := default (-1) (cmsg_int <$> find_cmsg CHopLimit 4 (msg_control m)).
Definition get_rcvpktinfo (m : msghdr) : option bytes := find_cmsg CPktInfo 20 (msg_control m).
Definition get_tclass (m : msghdr) : Z := default (-1) (cmsg_int <$> find_cmsg CTClass 4 (msg_control m)).
Definition get_so_traffic_class (m : msghdr) : Z :=
  default (-1) (cmsg_int <$> find_cmsg CTrafficClass 4 (msg_control m)).

(** [out - in], where the microseconds have 32 bits. *)
Definition tvsub (out in_ : timeval) : timeval :=
  let usec := s32 (tv_usec out - tv_usec in_) in
  let '(sec, usec) := if usec <? 0 then (tv_sec out - 1, s32 (usec + 1000000)) else (tv_sec out, usec) in
  TV (sec - tv_sec in_) usec.

(** The double [triptime > waittime]; the floating-point statistics of the
    round trip times are not kept. *)
Context (late : timeval → bool).
(** What [pr_exthdrs] prints, and the printed current time. *)
Context (exthdrs : msghdr → output) (currenttime : output).
(** The iterations that fit the stack of [dnsdecode]. *)
Context (stack : nat).

(** The duplicate check of a reply with sequence number [seq]. *)
Definition count_reply (seq : Z) : P6 bool :=
  modify (λ p, p <| nreceived := nreceived p + 1 |>);;
  dup ← TST (Z.rem seq mx_dup_ck);
  if dup : bool then
    modify (λ p, p <| nrepeats := nrepeats p + 1 |> <| nreceived := nreceived p - 1 |>);;
    mret true
  else SET (Z.rem seq mx_dup_ck);; mret false.

(** [for (i = 8; cp < end; ++i, ++cp, ++dp)]: the first octet that differs. *)
Fixpoint check_data (n : nat) (i : Z) (cp : nat) (buf out : bytes) : outcome output :=
  match n with
  | O => Ret []
  | S n =>
      c ← of_opt (buf !! cp);
      d ← of_opt (out !! cp);
      if c =? d then check_data n (i + 1) (S cp) buf out
      else Ret [("\nwrong data byte #%d should be 0x%x but was 0x%x", [Num i; Num d; Num c])%string]
  end.

Definition is_multicast (a : bytes) : bool := (a !!! 0%nat) =? 0xff.

Definition pr_echo (tv : timeval) (buf : bytes) (cc : Z) (m : msghdr) (hoplim : Z) (pktinfo : bytes)
    (tclass sotc : Z) : P6 bool :=
  seq ← lift (of_opt (rd16 buf 6));
  trip ← (if timing cf then
            sec ← lift (of_opt (rd32 buf 8));
            usec ← lift (of_opt (rd32 buf 12));
            mret (tvsub tv (TV sec (s32 usec)))
          else mret (TV 0 0));
  dup ← count_reply seq;
  quiet ← opt F_QUIET;
  if quiet : bool then mret false
  else
    wait ← opt F_WAITTIME;
    if wait && late trip then
      modify (λ p, p <| nrcvtimeout := nrcvtimeout p + 1 |>);; mret false
    else
      flood ← opt F_FLOOD;
      (if flood : bool then print "\b" []
       else
         audible ← opt F_AUDIBLE;
         (if audible : bool then print "\a" [] else skip);;
         prtime ← opt F_PRTIME;
         (if prtime : bool then print_all currenttime else skip);;
         print "%d bytes from %s, icmp_seq=%u" [Num cc; Addr (msg_from m); Num seq];;
         print " hlim=%d" [Num hoplim];;
         verbose ← opt F_VERBOSE;
         (if verbose : bool then print " dst=%s" [Addr (take 16 pktinfo)] else skip);;
         (if timing cf then print " time=%.3f ms" [Num (tv_sec trip); Num (tv_usec trip)] else skip);;
         (if dup && negb (is_multicast (dst cf)) then print "(DUP!)" [] else skip);;
         (if rcvtclass cf then print " tclass=%d" [Num tclass] else skip);;
         (if negb (sotc =? -1) then print " sotc=%d" [Num sotc] else skip);;
         p ← get;
         o ← lift (check_data (Z.to_nat cc - 16) 8 16 buf (outpack p));
         print_all o);;
      mret true.

(** The names of a reply: [while (cp < end)]; a name that is not decoded ends
    the loop. *)
Fixpoint names_loop (fuel : nat) (buf : bytes) (cp end_ : nat) : outcome output :=
  match fuel with
  | O => Crash
  | S fuel =>
      if (cp <? end_)%nat then
        match Dns.dnsdecode buf stack (Some 16%nat) cp end_ (NS_MAXDNAME + 1) with
        | None => Crash
        | Some None => Ret [("???", [])%string]
        | Some (Some (cp, dnsname)) =>
            '(cp, dnsname) ←
              (if (cp + 1 <=? end_)%nat then
                 c ← of_opt (buf !! cp);
                 if (c =? 0) && (0 <? length dnsname)%nat
                 then Ret (S cp, take (length dnsname - 1) dnsname) else Ret (cp, dnsname)
               else Ret (cp, dnsname));
            rest ← names_loop fuel buf cp end_;
            Ret (("%s%s", [Str []; Str dnsname])%string :: rest)
        end
      else Ret []
  end.

(** The name in a reply, and the details of the verbose mode. *)
Definition pr_fqdn (verbose : bool) (buf : bytes) (cc : Z) : outcome output :=
  let end_ := Z.to_nat cc in
  len ← of_opt (buf !! ICMP6_NIRLEN);
  let oldfqdn := len =? u64 (cc - Z.of_nat ICMP6_NIRLEN - 1) in
  names ← (if oldfqdn
           then Ret ((λ c, ("%c", [Str (escape c)])%string) <$> take (end_ - S ICMP6_NIRLEN) (drop (S ICMP6_NIRLEN) buf))
           else names_loop (S end_) buf ICMP6_NIRLEN end_);
  if verbose then
    code ← of_opt (rd8 buf 1);
    let '(o, comma) :=
      if code =? Nodeaddr.ICMP6_NI_REFUSED then ([("refused", [])%string], true)
      else if code =? Nodeaddr.ICMP6_NI_UNKNOWN then ([("unknown qtype", [])%string], true) else ([], false) in
    if (end_ <? ICMP6_NIRLEN)%nat then Ret (names ++ [(" (", [])%string] ++ o ++ [(")", [])%string])
    else
      ttl8 ← of_opt (read_at buf 16 8);
      let ttl := s32 (be_val (take 4 ttl8)) in
      flags ← of_opt (rd16le buf 6);
      let t :=
        if negb (truthy (Z.land flags NI_FQDN_FLAG_VALIDTTL)) then [("TTL=%d:meaningless", [Num ttl])%string]
        else if ttl <? 0 then [("TTL=%d:invalid", [Num ttl])%string] else [("TTL=%d", [Num ttl])%string] in
      let d :=
        if oldfqdn then [(",", [])%string; ("03 draft", [])%string]
        else if (ICMP6_NIRLEN =? end_)%nat then [(",", [])%string; ("no name", [])%string] else [] in
      Ret (names ++ [(" (", [])%string] ++ o ++ (if comma : bool then [(",", [])%string] else []) ++ t ++ d
             ++ [(")", [])%string])
  else Ret names.

Definition pr_nireply (buf : bytes) (cc : Z) (m : msghdr) : P6 bool :=
  seq ← lift (of_opt (rd16 buf 8));
  count_reply seq;;
  quiet ← opt F_QUIET;
  if quiet : bool then mret false
  else
    prtime ← opt F_PRTIME;
    (if prtime : bool then print_all currenttime else skip);;
    print "%d bytes from %s: " [Num cc; Addr (msg_from m)];;
    ty ← lift (of_opt (rd8 buf 0));
    code ← lift (of_opt (rd8 buf 1));
    qtype ← lift (of_opt (rd16 buf 4));
    verbose ← opt F_VERBOSE;
    (if ntohs code =? ICMP6_NI_SUCCESS then
       if qtype =? NI_QTYPE_NOOP then print "NodeInfo NOOP" []
       else if qtype =? NI_QTYPE_SUPTYPES then
         o ← lift (Suptypes.pr_suptypes buf verbose (Z.to_nat cc)); print_all o
       else if qtype =? NI_QTYPE_NODEADDR then
         o ← lift (Nodeaddr.pr_nodeaddr buf verbose cc); print_all o
       else o ← lift (pr_fqdn verbose buf cc); print_all o
     else if ntohs code =? Nodeaddr.ICMP6_NI_REFUSED then print "refused, type 0x%x" [Num (ntohs ty)]
     else if ntohs code =? Nodeaddr.ICMP6_NI_UNKNOWN then print "unknown, type 0x%x" [Num (ntohs ty)]
     else print "unknown code 0x%x, type 0x%x" [Num (ntohs code); Num (ntohs ty)]);;
    mret true.

Definition pr_pack (tv : timeval) (buf : bytes) (cc : Z) (m : msghdr) : P6 unit :=
  verbose ← opt F_VERBOSE;
  if match msg_name m with Some f => negb (msg_namelen m =? 28) || negb (f =? 30) | None => true end
  then (if verbose : bool then print "invalid peername" [] else skip)
  else if cc <? 8 then
    (if verbose : bool then print "packet too short (%d bytes) from %s" [Num cc; Addr (msg_from m)] else skip)
  else
    (if msg_ctrunc m && verbose then print "some control data discarded, insufficient buffer size" [] else skip);;
    let hoplim := get_hoplim m in
    if hoplim =? -1 then print "failed to get receiving hop limit" []
    else
      match get_rcvpktinfo m with
      | None => print "failed to get receiving packet information" []
      | Some pktinfo =>
          let tclass := if rcvtclass cf then get_tclass m else 0 in
          if rcvtclass cf && (tclass =? -1) then print "failed to get receiving traffic class" []
          else
            let sotc := if 0 <? use_recvmsg cf then get_so_traffic_class m else -1 in
            ty ← lift (of_opt (rd8 buf 0));
            echo ← lift (if ty =? ICMP6_ECHO_REPLY then myechoreply buf else Ret false);
            ni ← lift (if ty =? ICMP6_NI_REPLY then mynireply buf else Ret false);
            more ← (if echo : bool then pr_echo tv buf cc m hoplim pktinfo tclass sotc
                    else if ni : bool then pr_nireply buf cc m
                    else if verbose : bool then
                      prtime ← opt F_PRTIME;
                      (if prtime : bool then print_all currenttime else skip);;
                      print "%d bytes from %s: " [Num cc; Addr (msg_from m)];;
                      o ← lift (Icmph.pr_icmph buf (Z.to_nat cc) verbose stack);
                      print_all o;; mret true
                    else mret false);
            if more : bool then
              flood ← opt F_FLOOD;
              if flood : bool then skip
              else print "\n" [];; (if verbose : bool then print_all (exthdrs m) else skip)
            else skip
      end.

(** ** The loop of [main] *)

(** What [select] reports: an error, the timeout, a message ([recvmsg] with an
    error or with [cc] octets in the packet buffer), or the signals. *)
Inductive event :=
  | SelectErr
  | Timeout
  | RecvErr
  | Message (buf : bytes) (cc : Z) (m : msghdr)
  | SigInt
  | SigInfo.

(** The double [2 * tmax / 1000] as an integer. *)
Context (two_rtt : Z).

(** The next query, or after the last one the wait for its reply: [true] to
    leave the loop. *)
Definition send_or_wait (tv : timeval) (i : Z) : P6 bool :=
  p ← get;
  if (npackets p =? 0) || (ntransmitted p <? npackets p) then pinger tv i;; mret false
  else if almost_done p then mret true
  else
    modify (λ p, p <| almost_done := true |> <| intvl :=
      if truthy (nreceived p) then TV (if two_rtt =? 0 then 1 else two_rtt) 0
      else TV (Z.quot (waittime cf) 1000) (Z.rem (waittime cf) 1000 * 1000) |>);;
    mret false.

Definition note_missed : P6 unit :=
  p ← get;
  if nmissedmax p <? ntransmitted p - nreceived p - 1 then
    modify (λ p, p <| nmissedmax := ntransmitted p - nreceived p - 1 |>);;
    missed ← opt F_MISSED;
    (if missed : bool then print "\a" [] else skip)
  else skip.

(** The part of a turn for the timeout or in flood mode. *)
Definition send_turn (tv : timeval) (i : Z) : P6 bool :=
  done ← send_or_wait tv i;
  if done : bool then mret true else note_missed;; mret false.

(** One turn; [tv] is the time of day and [i] the result of [sendmsg], when
    they are asked for. *)
Definition main_step (tv : timeval) (i : Z) (e : event) : P6 bool :=
  match e with
  | SelectErr | RecvErr => mret false
  | SigInt => modify (λ p, p <| seenint := seenint p + 1 |>);; mret true
  | SigInfo => mret false
  | Timeout => send_turn tv i
  | Message buf cc m =>
      if cc =? 0 then mret false
      else
        pr_pack tv buf cc m;;
        p ← get;
        if (truthy (Z.land (options p) F_ONCE) && (0 <? nreceived p)) ||
           ((0 <? npackets p) && (npackets p <=? nreceived p)) ||
           (truthy (sweepmax p) && (sweepmax p <? datalen p))
        then mret true
        else if truthy (Z.land (options p) F_FLOOD) then send_turn tv i
        else mret false
  end.

(** The loop until a turn leaves it, then the status of [exit]; [None] when
    the events are used up. *)
Fixpoint main_loop (es : list (timeval * Z * event)) (p : ping6) : outcome (option Z * ping6) :=
  match es with
  | [] => Ret (None, p)
  | (tv, i, e) :: es =>
      '(done, p) ← main_step tv i e p;
      if done : bool then Ret (Some (if nreceived p =? 0 then 2 else 0), p) else main_loop es p
  end.

End ping6.

(** The timeout given to [select]. *)
Fixpoint up (fuel : nat) (t : timeval) : timeval :=
  match fuel with
  | O => t
  | S fuel => if tv_usec t <? 0 then up fuel (TV (tv_sec t - 1) (tv_usec t + 1000000)) else t
  end.
Fixpoint down (fuel : nat) (t : timeval) : timeval :=
  match fuel with
  | O => t
  | S fuel => if 1000000 <? tv_usec t then down fuel (TV (tv_sec t + 1) (tv_usec t - 1000000)) else t
  end.
Definition select_timeout (last intvl now : timeval) : timeval :=
  let t := TV (tv_sec last + tv_sec intvl - tv_sec now) (tv_usec last + tv_usec intvl - tv_usec now) in
  let t := down 4 (up 4 t) in
  if tv_sec t <? 0 then TV 0 0 else t.
