(* ===== verification/Ping6Fun.v ===== *)
(** * Ping6Fun: properties of ping6

    The bitmap of received sequence numbers implements a set, so that the
    counters implement the counting of first and repeated replies; a reply to
    a query that [pinger] sent is accepted once; the loop of [main] ends. *)

From stdpp Require Import gmap.
From S2P Require Import Prelude Timeval Stdio Md5 NodeInfo Tally Ping6.

(** ** Other messages *)

Section icmph.
Context (buf : bytes) (end_ : nat) (Hbuf : bytes_ok buf) (Hend : (end_ <= length buf)%nat).

Lemma retip_loop_returns fuel nh cp :
  (end_ - cp < fuel)%nat → ∃ o, Icmph.retip_loop buf end_ fuel nh cp = Ret o.
Proof.
  revert nh cp. induction fuel as [|fuel IH]; intros nh cp Hf; [lia|]. cbn [Icmph.retip_loop].
  destruct (cp + 8 <=? end_)%nat eqn:E; [|eauto]. apply Nat.leb_le in E.
  destruct (rd8_returns _ cp Hbuf ltac:(lia)) as (b0 & -> & Hb0), (rd8_returns _ (cp + 1) Hbuf ltac:(lia)) as (b1 & -> & Hb1),
    (rd8_returns _ (cp + 2) Hbuf ltac:(lia)) as (b2 & -> & _), (rd8_returns _ (cp + 3) Hbuf ltac:(lia)) as (b3 & -> & _).
  cbn [of_opt mbind outcome_bind].
  assert (Hnext : ∀ o hlen nh', 8 <= hlen → ∃ o', (let cp' := (cp + Z.to_nat hlen)%nat in
    if (end_ <=? cp')%nat then Ret (o ++ Icmph.trunc)
    else rest ← Icmph.retip_loop buf end_ fuel nh' cp'; Ret (o ++ rest)) = Ret o').
  { intros o hlen nh' Hh. cbv zeta. destruct (end_ <=? _)%nat eqn:E'; [eauto|]. apply Nat.leb_gt in E'.
    destruct (IH nh' (cp + Z.to_nat hlen)%nat ltac:(lia)) as [r ->]. cbn [mbind outcome_bind]. eauto. }
  rewrite !Z.shiftl_mul_pow2 by lia.
  repeat (case_match; [first [apply Hnext; lia | eauto]|]). eauto.
Qed.

Lemma pr_retip_returns ip6 : ∃ o, Icmph.pr_retip buf end_ ip6 = Ret o.
Proof.
  unfold Icmph.pr_retip. destruct (end_ <? ip6 + 40)%nat eqn:E; [eauto|]. apply Nat.ltb_ge in E.
  unfold Icmph.pr_iph, read_at. rewrite bool_decide_true by lia. cbn [of_opt mbind outcome_bind].
  destruct (rd8_returns _ (ip6 + 6) Hbuf ltac:(lia)) as (nh & -> & _). cbn [of_opt mbind outcome_bind].
  destruct (retip_loop_returns (S end_) nh (ip6 + 40)) as [r ->]; [lia|]. cbn [mbind outcome_bind]. eauto.
Qed.

Lemma pr_subject_returns stack code :
  (end_ < stack)%nat → (32 <= length buf)%nat → ∃ o, Icmph.pr_subject buf end_ stack code = Ret o.
Proof.
  intros Hs Hl. unfold Icmph.pr_subject, read_at. rewrite !bool_decide_true by lia.
  assert (Hd : Dns.dnsdecode buf stack None 16 end_ (NS_MAXDNAME + 1) ≠ None).
  { unfold Dns.dnsdecode. case_match; [done|]. apply Dns.dns_loop_returns. lia. }
  destruct (Dns.dnsdecode _ _ _ _ _ _) as [[[? ?]|]|]; [| |done];
    cbn [of_opt mbind outcome_bind]; repeat case_match; eauto.
Qed.

End icmph.

(** ** Counting *)

#[export] Instance ping6_counter : Counter ping6 := {|
  n_sent := ntransmitted; n_first := nreceived; n_dup := nrepeats; n_table := rcvd_tbl |}.

(** The table has [octets] octets, so that there is a bit for every number. *)
Definition octets : Z := 8192.
Abbreviation table_size := (8 * octets).
Abbreviation keeps := (pres same).
Abbreviation anytime := (λ _ : ping6, True).

Lemma TST_run k p : tbl_ok octets (rcvd_tbl p) → seq_ok octets k → TST k p = Ret (bit (rcvd_tbl p) k, p).
Proof.
  intros Ht Hk. unfold TST. rewrite (A_Some octets) by done. rewrite bit_test by apply Hk. done.
Qed.
Lemma SET_run k p : tbl_ok octets (rcvd_tbl p) → seq_ok octets k →
  SET k p = Ret (tt, p <| rcvd_tbl := set_A (rcvd_tbl p) k (Z.lor (rcvd_tbl p !!! Z.to_nat (k / 8)) (B k)) |>).
Proof. intros Ht Hk. unfold SET. by rewrite (A_Some octets). Qed.
Lemma CLR_run k p : tbl_ok octets (rcvd_tbl p) → seq_ok octets k →
  CLR k p = Ret (tt, p <| rcvd_tbl :=
    set_A (rcvd_tbl p) k (Z.land (rcvd_tbl p !!! Z.to_nat (k / 8)) (u8 (Z.lnot (B k)))) |>).
Proof. intros Ht Hk. unfold CLR. by rewrite (A_Some octets). Qed.

Lemma seq_residue m : 0 <= m → seq_ok octets (Z.rem m mx_dup_ck).
Proof. intros Hm. rewrite Z.rem_mod_nonneg by done. apply Z.mod_pos_bound. done. Qed.

Lemma pres_opt R `{!PreOrder R} f : pres R (opt f).
Proof. intros p. simpl. reflexivity. Qed.

Ltac keeps_tac :=
  repeat lazymatch goal with
    | |- pres _ (mret _) => apply pres_ret; exact _
    | |- pres _ skip => apply pres_skip; exact _
    | |- pres _ get => apply pres_get; exact _
    | |- pres _ (opt _) => apply pres_opt; exact _
    | |- pres _ (lift _) => apply pres_lift; exact _
    | |- pres _ (modify _) => apply pres_modify; intros ?; done
    | |- pres _ (print _ _) => apply pres_modify; intros ?; done
    | |- pres _ (print_all _) => apply pres_modify; intros ?; done
    | |- pres _ (put_out _ _) => apply pres_modify; intros ?; done
    | |- pres _ (_ ≫= _) => apply pres_bind; [exact _| |intros ?]
    | |- pres _ _ => case_match
    end.

Lemma count_reply_effect s : seq_ok octets s →
  effect octets anytime (count_reply s) (λ _, a_reply table_size s).
Proof.
  intros Hs p a _ Ha. unfold count_reply. rewrite modify_run. pose proof (abs_tbl _ _ _ Ha) as Ht.
  assert (Er : Z.rem s mx_dup_ck = s) by (apply Z.rem_small; apply Hs). rewrite Er.
  assert (Em : s mod table_size = s) by (apply Z.mod_small; apply Hs).
  unfold mbind at 1, ST_bind at 1. rewrite TST_run by done.
  change (rcvd_tbl (p <| nreceived := nreceived p + 1 |>)) with (rcvd_tbl p). destruct (bit (rcvd_tbl p) s) eqn:Eb.
  - rewrite modify_run. apply (abs_reply octets p); [done|done|done|]. rewrite Em. simpl. rewrite Eb.
    split_and!; [lia|done..].
  - unfold mbind at 1, ST_bind at 1. rewrite SET_run by done.
    apply (abs_reply octets p); [done|done|done|]. rewrite Em. simpl. by rewrite Eb.
Qed.

(** The sequence number of a message that counts as a reply. *)
Definition heard (cf : config) (buf : bytes) (cc : Z) (m : msghdr) : option Z :=
  if match msg_name m with Some f => negb (msg_namelen m =? 28) || negb (f =? 30) | None => true end then None
  else if cc <? 8 then None
  else if get_hoplim m =? -1 then None
  else
    match get_rcvpktinfo m with
    | None => None
    | Some _ =>
        if rcvtclass cf && ((if rcvtclass cf then get_tclass m else 0) =? -1) then None
        else
          match rd8 buf 0 with
          | None => None
          | Some ty =>
              if ty =? ICMP6_ECHO_REPLY then
                match myechoreply cf buf with Ret true => rd16 buf 6 | _ => None end
              else if ty =? ICMP6_NI_REPLY then
                match mynireply cf buf with Ret true => rd16 buf 8 | _ => None end
              else None
          end
    end.
Lemma rd16_ok buf off s : bytes_ok buf → rd16 buf off = Some s → seq_ok octets s.
Proof.
  unfold rd16, read_at. intros Hb. case_bool_decide as Hl; [|done]. simpl. intros [= <-].
  assert (Hok : bytes_ok (take 2 (drop off buf))) by (by apply Forall_take, Forall_drop).
  assert (length (take 2 (drop off buf)) = 2%nat) by (rewrite length_take, length_drop; lia).
  destruct (take 2 (drop off buf)) as [|x [|y [|]]]; try done.
  inversion Hok as [|? ? Hx Hok']; subst. inversion Hok' as [|? ? Hy _]; subst.
  unfold byte_ok in *. unfold seq_ok, octets, be_val. simpl. lia.
Qed.

Section ping6.
Context (cf : config) (late : timeval → bool) (exthdrs : msghdr → output) (currenttime : output) (stack : nat).

Lemma pr_echo_effect tv buf cc m hl pi tc so s :
  bytes_ok buf → rd16 buf 6 = Some s →
  effect octets anytime (pr_echo cf late currenttime tv buf cc m hl pi tc so) (λ _, a_reply table_size s).
Proof.
  intros Hb Hs. unfold pr_echo. eapply lift_Some; [exact Hs|].
  apply effect_bind_keeps; [keeps_tac|]. intros trip.
  apply effect_then_keeps; [by apply count_reply_effect, (rd16_ok buf 6)|]. intros dup. keeps_tac.
Qed.

Lemma pr_nireply_effect buf cc m s :
  bytes_ok buf → rd16 buf 8 = Some s →
  effect octets anytime (pr_nireply currenttime stack buf cc m) (λ _, a_reply table_size s).
Proof.
  intros Hb Hs. unfold pr_nireply. eapply lift_Some; [exact Hs|].
  apply effect_then_keeps; [by apply count_reply_effect, (rd16_ok buf 8)|]. intros dup. keeps_tac.
Qed.

Abbreviation pack := (pr_pack cf late exthdrs currenttime stack).

(** A message changes the tally as the reply it is, or not at all. *)
Lemma pr_pack_effect tv buf cc m :
  bytes_ok buf → effect octets anytime (pack tv buf cc m) (λ _, on_heard table_size (heard cf buf cc m)).
Proof.
  intros Hb. unfold pr_pack, heard. apply effect_bind_keeps; [keeps_tac|]. intros verbose.
  case_match eqn:E0; [apply effect_keeps; keeps_tac|].
  destruct (cc <? 8); [apply effect_keeps; keeps_tac|].
  apply effect_bind_keeps; [keeps_tac|]. intros _.
  destruct (get_hoplim m =? -1); [apply effect_keeps; keeps_tac|].
  destruct (get_rcvpktinfo m) as [pi|]; [|apply effect_keeps; keeps_tac].
  destruct (rcvtclass cf && _); [apply effect_keeps; keeps_tac|].
  destruct (rd8 buf 0) as [ty|] eqn:Ety; [|done]. eapply lift_Some; [reflexivity|].
  destruct (ty =? ICMP6_ECHO_REPLY) eqn:E1.
  - apply Z.eqb_eq in E1 as ->. destruct (myechoreply cf buf) as [[]| |]; [| |done|done].
    + apply lift_Ret, lift_Ret. destruct (rd16 buf 6) as [s|] eqn:Es.
      * apply effect_then_keeps; [by apply pr_echo_effect|]. intros. keeps_tac.
      * intros p a _ _. unfold pr_echo. by rewrite Es.
    + apply lift_Ret, lift_Ret. apply effect_keeps. keeps_tac.
  - apply lift_Ret. destruct (ty =? ICMP6_NI_REPLY) eqn:E2; [|apply lift_Ret, effect_keeps; keeps_tac].
    destruct (mynireply cf buf) as [[]| |]; [| |done|done]; apply lift_Ret; [|apply effect_keeps; keeps_tac].
    destruct (rd16 buf 8) as [s|] eqn:Es.
    + apply effect_then_keeps; [by apply pr_nireply_effect|]. intros. keeps_tac.
    + intros p a _ _. unfold pr_nireply. by rewrite Es.
Qed.

(** A number of transmissions that an [int] holds. *)
Abbreviation int_ok := (λ n : Z, 0 <= n < 2 ^ 31).

Definition keeps0 (m : P6 Z) : Prop := ∀ p, on_ret (m p) (λ '(x, p'), same p p' ∧ x = 0).
Lemma keeps0_bind {X} (m : P6 X) (f : X → P6 Z) : keeps m → (∀ x, keeps0 (f x)) → keeps0 (m ≫= f).
Proof.
  intros Hm Hf p. specialize (Hm p). unfold mbind, ST_bind.
  destruct (m p) as [[x p1]| |]; simpl in *; [|done|done].
  specialize (Hf x p1). destruct (f x p1) as [[y p2]| |]; simpl in *; [|done|done].
  destruct Hf. split; [by etrans|done].
Qed.
Lemma keeps0_ret : keeps0 (mret 0).
Proof. done. Qed.

Definition on_sent (x : Z) (a : tally) : tally := if x =? 0 then a_send table_size a else a.

Lemma mark_effect (K : Z → P6 Z) :
  (∀ seq, keeps0 (K seq)) →
  effect octets (sendable int_ok)
    (p ← get;
     modify (λ p, p <| ntransmitted := ntransmitted p + 1 |>);;
     CLR (Z.rem (s32 (ntransmitted p)) mx_dup_ck);;
     K (s32 (ntransmitted p))) on_sent.
Proof.
  intros HK p a Hp Ha. pose proof (abs_tbl _ _ _ Ha) as Ht. rewrite get_run, modify_run.
  unfold sendable in Hp. simpl in Hp. assert (Es : s32 (ntransmitted p) = ntransmitted p) by (unfold s32; zlia).
  rewrite Es. set (q := p <| ntransmitted := _ |>).
  assert (Er : Z.rem (ntransmitted p) mx_dup_ck = ntransmitted p mod table_size).
  { apply Z.rem_mod_nonneg; [lia|done]. }
  rewrite Er. unfold mbind at 1, ST_bind at 1. rewrite CLR_run; [|done|].
  2: { unfold seq_ok. apply Z.mod_pos_bound. unfold octets. lia. }
  match goal with |- context [K _ ?x] => specialize (HK (ntransmitted p) x); destruct (K _ x) as [[x' p']| |] end;
    simpl in *; [|done|done]. destruct HK as [Hs ->]. eapply abs_same; [exact Hs|].
  apply (abs_send octets p); [done|done|simpl; lia|done..].
Qed.

Lemma pinger_effect tv i : effect octets (sendable int_ok) (pinger cf tv i) on_sent.
Proof.
  unfold pinger. apply effect_after_keeps; [keeps_tac|]. intros p0.
  case_match; [by intros p a _ Ha|].
  apply effect_after_keeps; [keeps_tac|]. intros []; [by intros p a _ Ha|].
  apply effect_after_keeps; [keeps_tac|]. intros _. apply mark_effect. intros seq. unfold transmit.
  repeat (apply keeps0_bind; [unfold ni_query; keeps_tac|intros ?]). apply keeps0_ret.
Qed.

Context (two_rtt : Z).
Abbreviation step := (main_step cf late exthdrs currenttime stack two_rtt).

Abbreviation p6turn := (turn octets int_ok).

Lemma pinger_turn tv i : p6turn (pinger cf tv i) id.
Proof.
  intros p a Hp Ha. pose proof (pinger_effect tv i p a Hp Ha) as H.
  destruct (pinger cf tv i p) as [[x p']| |]; simpl in *; [|done|done]. by exists (x =? 0).
Qed.

Lemma keeps_note_missed : keeps note_missed.
Proof. unfold note_missed. keeps_tac. Qed.

Lemma send_turn_turn tv i : p6turn (send_turn cf two_rtt tv i) id.
Proof.
  unfold send_turn, send_or_wait. apply turn_then_keeps.
  - apply turn_after_keeps; [keeps_tac|]. intros p0.
    case_match; [apply turn_then_keeps; [apply pinger_turn|intros ?; keeps_tac]|].
    apply turn_keeps. keeps_tac.
  - intros done. unfold note_missed. keeps_tac.
Qed.

(** The reply that an event brings. *)
Definition heard_event (e : event) : option Z :=
  match e with Message buf cc m => heard cf buf cc m | _ => None end.
Definition event_ok (e : event) : Prop :=
  match e with Message buf _ _ => bytes_ok buf | _ => True end.

Lemma heard_short buf cc m : cc < 8 → heard cf buf cc m = None.
Proof.
  intros Hc. unfold heard. rewrite (proj2 (Z.ltb_lt cc 8)) by done. by case_match.
Qed.

Lemma main_step_turn tv i e : event_ok e → p6turn (step tv i e) (on_heard table_size (heard_event e)).
Proof.
  intros He. destruct e as [| | |buf cc m| |]; simpl; try solve [apply turn_keeps; keeps_tac].
  - apply send_turn_turn.
  - destruct (cc =? 0) eqn:E0.
    { rewrite heard_short by lia. apply turn_keeps. keeps_tac. }
    apply (turn_after octets int_ok _ _ _ id); [by apply pr_pack_effect|apply on_heard_sent|]. intros _.
    apply turn_after_keeps; [keeps_tac|]. intros p1. case_match; [apply turn_keeps; keeps_tac|].
    case_match; [apply send_turn_turn|apply turn_keeps; keeps_tac].
Qed.

(** ** A network that answers only what was sent *)

(** The states that the program reaches from [p0] when the network answers
    only queries that were sent. *)
Definition answers (p : ping6) (e : event) : Prop :=
  match heard_event e with
  | Some s => ∃ k, 0 <= k < ntransmitted p ∧ s = k mod 65536
  | None => True
  end.
Inductive reachable (p0 : ping6) : ping6 → Prop :=
  | reach_start : reachable p0 p0
  | reach_turn p tv i e b p' :
      reachable p0 p → sendable int_ok p → event_ok e → answers p e →
      step tv i e p = Ret (b, p') → reachable p0 p'.

Definition fresh_start (p : ping6) : Prop :=
  ntransmitted p = 0 ∧ nreceived p = 0 ∧ nrepeats p = 0 ∧ rcvd_tbl p = replicate (Z.to_nat 8192) 0.

Lemma reachable_tally p0 p : fresh_start p0 → reachable p0 p → ∃ a, abs octets p a ∧ tally_ok table_size a.
Proof.
  intros H0. induction 1 as [|p tv i e b p' Hr IH Hs He Ha Hstep].
  { exists (Tally 0 0 0 ∅). split; [|by apply tally_start].
    destruct H0 as (H1 & H2 & H3 & H4). by apply abs_start. }
  destruct IH as (a & Habs & Hok). pose proof (main_step_turn tv i e He p a Hs Habs) as Ht.
  rewrite Hstep in Ht. simpl in Ht. destruct Ht as [sent Ht].
  exists (sends table_size sent (on_heard table_size (heard_event e) a)). split; [done|].
  assert (Hh : tally_ok table_size (on_heard table_size (heard_event e) a)).
  { unfold answers in Ha. destruct (heard_event e) as [s|]; [|done]. simpl. apply tally_reply; [done|done|].
    destruct Ha as (k & Hk & ->). apply (sent_residue table_size eq_refl _ _ _ 1); [|done|done].
    by rewrite <- (abs_sent _ _ _ Habs). }
  destruct sent; [by apply (tally_send table_size)|done].
Qed.

(** *** The loop ends after the last query *)

Definition frame (p p' : ping6) : Prop :=
  npackets p' = npackets p ∧ sweepmax p' = sweepmax p ∧ almost_done p' = almost_done p ∧
  ntransmitted p' = ntransmitted p.
#[local] Instance frame_preorder : PreOrder frame.
Proof. split; [done|]. intros p1 p2 p3. unfold frame. intuition congruence. Qed.

Lemma frame_TST k : pres frame (TST k).
Proof. intros p. unfold TST. by destruct (A (rcvd_tbl p) k). Qed.
Lemma frame_SET k : pres frame (SET k).
Proof. intros p. unfold SET. by destruct (A (rcvd_tbl p) k). Qed.
Lemma frame_CLR k : pres frame (CLR k).
Proof. intros p. unfold CLR. by destruct (A (rcvd_tbl p) k). Qed.
Lemma frame_count_reply s : pres frame (count_reply s).
Proof.
  unfold count_reply. apply pres_bind; [exact _|keeps_tac|intros _].
  apply pres_bind; [exact _|apply frame_TST|]. intros []; [keeps_tac|].
  apply pres_bind; [exact _|apply frame_SET|intros _]. keeps_tac.
Qed.
Lemma frame_pr_pack tv buf cc m : pres frame (pack tv buf cc m).
Proof.
  unfold pr_pack, pr_echo, pr_nireply.
  repeat (keeps_tac; try apply frame_count_reply).
Qed.

(** What is left to do: the queries, and the wait for the last replies. *)
Definition left (p : ping6) : Z :=
  Z.max 0 (npackets p - ntransmitted p) + (if almost_done p then 0 else 1).
Definition counted (p : ping6) : Prop := 0 < npackets p ∧ sweepmax p = 0.

Lemma frame_left p p' : frame p p' → left p' = left p ∧ (counted p → counted p').
Proof. unfold frame, left, counted. intros (-> & -> & -> & ->). tauto. Qed.

Lemma pinger_left tv i p : counted p → ntransmitted p < npackets p →
  on_ret (pinger cf tv i p) (λ '(_, p'), frame (p <| ntransmitted := ntransmitted p + 1 |>) p').
Proof.
  intros [Hn Hs] Hl. unfold pinger. rewrite get_run, (proj2 (Z.leb_gt _ _)), andb_false_r, Hs by done.
  cbn [truthy Z.eqb negb andb]. rewrite mret_run. unfold put_out. rewrite modify_run, get_run, modify_run.
  assert (Hk : pres frame (CLR (Z.rem (s32 (ntransmitted p)) mx_dup_ck);;
                           transmit cf tv i (s32 (ntransmitted p)))).
  { apply pres_bind; [exact _|apply frame_CLR|intros _]. unfold transmit, ni_query. keeps_tac. }
  eapply on_ret_weaken; [apply Hk|]. intros [x p'] H. exact H.
Qed.

Lemma on_ret_frame {X} (m : P6 X) p (Q : ping6 → Prop) :
  pres frame m → (∀ p', frame p p' → Q p') → on_ret (m p) (λ '(_, p'), Q p').
Proof. intros Hm HQ. eapply on_ret_weaken; [apply Hm|]. intros [x p']. apply HQ. Qed.

Lemma send_or_wait_left tv i p : counted p →
  on_ret (send_or_wait cf two_rtt tv i p) (λ '(done, p'), done = true ∨ (counted p' ∧ left p' < left p)).
Proof.
  intros [Hn Hs]. unfold send_or_wait. rewrite get_run, (proj2 (Z.eqb_neq _ 0)) by lia. cbn [orb].
  destruct (ntransmitted p <? npackets p) eqn:El.
  - apply Z.ltb_lt in El. pose proof (pinger_left tv i p (conj Hn Hs) El) as Hp.
    unfold mbind, ST_bind. destruct (pinger cf tv i p) as [[x p1]| |]; simpl in Hp; [|done|done].
    apply frame_left in Hp as [Hl Hcc]. right. split; [by apply Hcc|].
    rewrite Hl. unfold left. cbn [npackets ntransmitted almost_done update_field]. lia.
  - apply Z.ltb_ge in El. destruct (almost_done p) eqn:Ead; [by left|].
    right. split; [done|]. unfold left. cbn [npackets ntransmitted almost_done update_field]. rewrite Ead. lia.
Qed.

Lemma send_turn_left tv i p : counted p →
  on_ret (send_turn cf two_rtt tv i p) (λ '(done, p'), done = true ∨ (counted p' ∧ left p' < left p)).
Proof.
  intros Hc. unfold send_turn. pose proof (send_or_wait_left tv i p Hc) as Hs. unfold mbind, ST_bind.
  destruct (send_or_wait cf two_rtt tv i p) as [[d p1]| |]; simpl in Hs; [|done|done].
  destruct Hs as [->|[Hc1 Hl1]]; [by left|]. destruct d; [by left|].
  assert (Hf : pres frame (note_missed;; mret false)) by (unfold note_missed; keeps_tac).
  eapply on_ret_weaken; [apply (on_ret_frame _ p1 (λ p', counted p' ∧ left p' < left p) Hf)|intros [x p']; by right].
  intros p' [-> Hcc]%frame_left. auto.
Qed.

Definition is_timeout (e : event) : bool := match e with Timeout => true | _ => false end.

Lemma main_step_left tv i e p : counted p →
  on_ret (step tv i e p) (λ '(done, p'), done = true ∨
    (counted p' ∧ left p' <= left p - (if is_timeout e then 1 else 0))).
Proof.
  intros Hc. destruct e as [| | |buf cc m| |]; cbn [main_step is_timeout].
  - right. split; [done|]. lia.
  - eapply on_ret_weaken; [by apply send_turn_left|]. intros [d p'] [?|[? ?]]; [by left|right; split; [done|lia]].
  - right. split; [done|]. lia.
  - destruct (cc =? 0); [right; split; [done|]; lia|].
    pose proof (frame_pr_pack tv buf cc m p) as Hp. unfold mbind at 1, ST_bind at 1.
    destruct (pack tv buf cc m p) as [[x p1]| |]; simpl in Hp; [|done|done].
    apply frame_left in Hp as [Hl Hcc]. rewrite get_run. case_match; [by left|].
    case_match; [|right; split; [auto|simpl; lia]].
    eapply on_ret_weaken; [by apply send_turn_left, Hcc|].
    intros [d p'] [?|[? ?]]; [by left|right; split; [done|lia]].
  - by left.
  - right. split; [done|]. lia.
Qed.

Abbreviation loop := (main_loop cf late exthdrs currenttime stack two_rtt).
Fixpoint timeouts (es : list (timeval * Z * event)) : Z :=
  match es with [] => 0 | (_, _, e) :: es => (if is_timeout e then 1 else 0) + timeouts es end.

Lemma main_loop_left es p : counted p → left p < timeouts es →
  on_ret (loop es p) (λ '(status, _), status ≠ None).
Proof.
  revert p. induction es as [|[[tv i] e] es IH]; intros p Hc Hl.
  { exfalso. simpl in Hl. unfold left in Hl. destruct (almost_done p); lia. }
  cbn [main_loop]. pose proof (main_step_left tv i e p Hc) as Hs.
  destruct (step tv i e p) as [[d p1]| |]; cbn [mbind outcome_bind] in *; [|done|done].
  simpl in Hs. destruct Hs as [->|[Hc1 Hl1]]; [done|]. destruct d; [done|]. apply IH; [done|].
  cbn [timeouts] in Hl. lia.
Qed.

(** ** Operations that return *)

Lemma total_opt pre f : total pre (opt f).
Proof. by intros p Hp. Qed.

Ltac total_tac :=
  repeat lazymatch goal with
    | |- total _ (mret _) => apply total_ret
    | |- total _ skip => apply total_skip
    | |- total _ get => apply total_get
    | |- total _ (opt _) => apply total_opt
    | |- total _ (lift _) => eapply total_lift; done
    | |- total _ (modify _) => apply total_modify; intros ? Hpre; exact Hpre
    | |- total _ (print _ _) => apply total_modify; intros ? Hpre; exact Hpre
    | |- total _ (print_all _) => apply total_modify; intros ? Hpre; exact Hpre
    | |- total _ (put_out _ _) => apply total_modify; intros ? Hpre; exact Hpre
    | |- total _ (get ≫= _) => apply total_get_bind; intros ? ?
    | |- total _ (_ ≫= _) => apply total_bind; [|intros ?]
    | |- total _ _ => case_match
    end.

Definition tabled (p : ping6) : Prop := tbl_ok octets (rcvd_tbl p).

Lemma transmit_total tv i seq : total tabled (transmit cf tv i seq).
Proof. unfold transmit, ni_query. total_tac. Qed.

Definition ready (p : ping6) : Prop := tabled p ∧ sendable int_ok p.

Lemma pinger_total tv i p : ready p → returns (pinger cf tv i p) (λ '(_, p'), tabled p').
Proof.
  intros Hr. unfold pinger. rewrite get_run. case_match; [by destruct Hr|].
  apply (returns_after ready); [total_tac|done|]. intros [] p1 Hr1; [by destruct Hr1|].
  apply (returns_after ready); [total_tac|done|]. intros _ p2 [Ht2 Hs2]. rewrite get_run, modify_run.
  unfold sendable in Hs2. simpl in Hs2. assert (Es : s32 (ntransmitted p2) = ntransmitted p2) by (unfold s32; zlia). rewrite Es.
  unfold mbind at 1, ST_bind at 1. rewrite CLR_run; [|done|apply seq_residue; lia].
  apply transmit_total. by apply set_A_ok.
Qed.

Definition total0 (pre : ping6 → Prop) (m : P6 Z) : Prop :=
  ∀ p, pre p → ∃ p', m p = Ret (0, p') ∧ pre p'.
Lemma total0_bind {X} pre (m : P6 X) (f : X → P6 Z) :
  total pre m → (∀ x, total0 pre (f x)) → total0 pre (m ≫= f).
Proof.
  intros Hm Hf p Hp. specialize (Hm p Hp). unfold mbind, ST_bind.
  destruct (m p) as [[x p1]| |]; simpl in *; [|done|done]. by apply Hf.
Qed.
Lemma total0_ret pre : total0 pre (mret 0).
Proof. intros p Hp. by exists p. Qed.

(** *** Echo requests *)

Definition echo_mode (p : ping6) : Prop :=
  Z.land (options p) F_FQDN = 0 ∧ Z.land (options p) F_FQDNOLD = 0 ∧
  Z.land (options p) F_NODEADDR = 0 ∧ Z.land (options p) F_SUPTYPES = 0.

(** The packet of an echo request over the contents [o] of [outpack]. *)
Definition echo_packet (tv : timeval) (seq : Z) (o : bytes) : bytes :=
  [ICMP6_ECHO_REQUEST; 0; 0; 0] ++ be16 (ident cf) ++ be16 seq ++
  (if timing cf then be32 (tv_sec tv) ++ be32 (tv_usec tv) ++ drop 16 o else drop 8 o).

(** An echo request is composed and counted. *)
Lemma pinger_echo tv i p :
  echo_mode p → ready p → sweepmax p = 0 → (npackets p = 0 ∨ ntransmitted p < npackets p) →
  (16 <= length (outpack p))%nat →
  ∃ p1, pinger cf tv i p = Ret (0, p1) ∧ outpack p1 = echo_packet tv (ntransmitted p) (outpack p) ∧
    options p1 = options p ∧ datalen p1 = datalen p.
Proof.
  intros (M1 & M2 & M3 & M4) [Ht Hs] Hw Hn Ho. unfold pinger. rewrite get_run.
  assert (E : truthy (npackets p) && (npackets p <=? ntransmitted p) = false).
  { destruct Hn as [->|Hn]; [done|]. rewrite (proj2 (Z.leb_gt _ _)) by done. apply andb_false_r. }
  rewrite E, Hw. cbn [truthy Z.eqb negb andb]. rewrite mret_run.
  unfold put_out at 1. rewrite modify_run, get_run, modify_run. cbn [ntransmitted update_field].
  unfold sendable in Hs. simpl in Hs. assert (Es : s32 (ntransmitted p) = ntransmitted p) by (unfold s32; zlia). rewrite Es.
  match goal with |- context [(CLR ?k ≫= _) ?q] => pose proof (CLR_run k q Ht (seq_residue _ (proj1 Hs))) as Et end.
  rewrite (bind_run _ _ _ _ _ Et). clear Et. set (t := set_A _ _ _). clearbody t.
  unfold transmit.
  assert (Hopt : ∀ f (k : bool → P6 Z) q, options q = options p → Z.land (options p) f = 0 →
    (opt f ≫= k) q = k false q).
  { intros f k q Eq Ef. unfold opt, mbind, ST_bind. rewrite Eq, Ef. done. }
  do 4 (rewrite Hopt by done). cbn beta iota.
  match goal with |- ∃ _, (_ ≫= _) ?q0 = _ ∧ _ => set (q := q0) end. set (o' := echo_packet tv (ntransmitted p) (outpack p)).
  match goal with |- context [(?m ≫= _) q] => assert (Em : m q = Ret (8 + datalen p, q <| outpack := o' |>)) end.
  { subst q o'. unfold echo_packet.
    destruct (outpack p) as [|? [|? [|? [|? [|? [|? [|? [|? [|? [|? [|? [|? [|? [|? [|? [|? o]]]]]]]]]]]]]]]];
      simpl in Ho; try lia. by destruct (timing cf). }
  rewrite (bind_run _ _ _ _ _ Em).
  match goal with |- ∃ p1, ?m _ = _ ∧ _ => assert (Hk : total0 (λ q, outpack q = o' ∧ options q = options p ∧ datalen q = datalen p) m) end.
  { repeat (apply total0_bind; [total_tac|intros ?]). apply total0_ret. }
  destruct (Hk (q <| outpack := o' |>)) as (p1 & E1 & H1); [done|]. by exists p1.
Qed.

(** A received echo reply is treated without a bad access. *)
Lemma count_reply_total s : seq_ok octets s → total tabled (count_reply s).
Proof.
  intros Hs p Hp. unfold count_reply. rewrite modify_run.
  assert (Er : Z.rem s mx_dup_ck = s) by (apply Z.rem_small; apply Hs). rewrite Er.
  match goal with |- context [(TST s ≫= _) ?q] => rewrite (bind_run _ _ q _ _ (TST_run s q Hp Hs)) end.
  case_match; [done|].
  match goal with |- context [(SET s ≫= _) ?q] => rewrite (bind_run _ _ q _ _ (SET_run s q Hp Hs)) end.
  by apply set_A_ok.
Qed.

Lemma check_data_returns n i cp buf out :
  n = 0%nat ∨ (cp + n <= length buf ∧ cp + n <= length out)%nat → ∃ o, check_data n i cp buf out = Ret o.
Proof.
  revert i cp. induction n as [|n IH]; intros i cp H; [by exists []|].
  destruct H as [|[Hb Ho]]; [done|]. cbn [check_data].
  destruct (lookup_lt_is_Some_2 buf cp ltac:(lia)) as [c ->].
  destruct (lookup_lt_is_Some_2 out cp ltac:(lia)) as [d ->]. cbn [of_opt mbind outcome_bind].
  case_match; [|eauto]. apply IH. lia.
Qed.

Definition roomy (cc : Z) (p : ping6) : Prop := tabled p ∧ (Z.to_nat cc <= length (outpack p))%nat.

Lemma count_reply_outpack s : pres (λ p p', outpack p' = outpack p) (count_reply s).
Proof.
  assert (PreOrder (λ p p', outpack p' = outpack p)) by (split; [done|]; intros ? ? ?; congruence).
  unfold count_reply. apply pres_bind; [exact _|keeps_tac|intros _].
  apply pres_bind; [exact _| |].
  { intros p. unfold TST. by destruct (A (rcvd_tbl p) _). }
  intros []; [keeps_tac|]. apply pres_bind; [exact _| |intros _; keeps_tac].
  intros p. unfold SET. by destruct (A (rcvd_tbl p) _).
Qed.

Lemma pr_echo_total tv buf cc m hl pi tc so :
  bytes_ok buf → 8 <= cc → (Z.to_nat cc <= length buf)%nat → (timing cf = true → 16 <= cc) →
  total (roomy cc) (pr_echo cf late currenttime tv buf cc m hl pi tc so).
Proof.
  intros Hb Hc Hl Htm. unfold pr_echo.
  destruct (read_returns buf 6 2 ltac:(lia)) as [v Ev].
  assert (Es : rd16 buf 6 = Some (be_val v)) by (unfold rd16; by rewrite Ev).
  eapply total_lift_bind; [by rewrite Es|]. apply total_bind.
  { case_match; [|apply total_ret]. specialize (Htm eq_refl).
    destruct (read_returns buf 8 4 ltac:(lia)) as [v1 E1], (read_returns buf 12 4 ltac:(lia)) as [v2 E2].
    unfold rd32. rewrite E1, E2. simpl of_opt. total_tac. }
  intros trip. apply total_bind.
  { intros p [Ht Ho]. pose proof (count_reply_total (be_val v) (rd16_ok _ _ _ Hb Es) p Ht) as Hr.
    pose proof (count_reply_outpack (be_val v) p) as Hp.
    destruct (count_reply (be_val v) p) as [[x p']| |]; simpl in *; [|done|done]. split; [done|by rewrite Hp]. }
  intros dup. total_tac.
  match goal with H : roomy cc ?q |- _ =>
    destruct (check_data_returns (Z.to_nat cc - 16) 8 16 buf (outpack q)) as [o Eo]; [destruct H; lia|] end.
  eapply total_lift. exact Eo.
Qed.
(** A message from an IPv6 address with the ancillary data asked for. *)
Definition delivered (m : msghdr) : Prop :=
  msg_name m = Some 30 ∧ msg_namelen m = 28 ∧ get_hoplim m ≠ -1 ∧ is_Some (get_rcvpktinfo m) ∧
  (rcvtclass cf = true → get_tclass m ≠ -1).

Lemma tclass_guard m : delivered m → rcvtclass cf && ((if rcvtclass cf then get_tclass m else 0) =? -1) = false.
Proof.
  intros (_ & _ & _ & _ & H). destruct (rcvtclass cf); [|done]. simpl. apply Z.eqb_neq. auto.
Qed.

Lemma heard_echo buf cc m :
  delivered m → 8 <= cc → rd8 buf 0 = Some ICMP6_ECHO_REPLY → myechoreply cf buf = Ret true →
  heard cf buf cc m = rd16 buf 6.
Proof.
  intros Hd Hc Ht He. unfold heard. rewrite (tclass_guard m Hd). destruct Hd as (-> & -> & Hh & [pi ->] & _).
  cbn [Z.eqb Pos.eqb negb orb]. rewrite (proj2 (Z.ltb_ge _ _)), (proj2 (Z.eqb_neq _ _) Hh), Ht by lia.
  rewrite Z.eqb_refl, He. done.
Qed.

Lemma pack_echo_total tv buf cc m :
  delivered m → bytes_ok buf → 8 <= cc → (Z.to_nat cc <= length buf)%nat → (timing cf = true → 16 <= cc) →
  rd8 buf 0 = Some ICMP6_ECHO_REPLY → myechoreply cf buf = Ret true →
  total (roomy cc) (pack tv buf cc m).
Proof.
  intros Hd Hb Hc Hl Htm Ht He. unfold pr_pack. apply total_bind; [total_tac|intros verbose].
  rewrite (tclass_guard m Hd). destruct Hd as (-> & -> & Hh & [pi ->] & _).
  cbn [Z.eqb Pos.eqb negb orb]. rewrite (proj2 (Z.ltb_ge _ _)), (proj2 (Z.eqb_neq _ _) Hh) by lia.
  apply total_bind; [total_tac|intros _].
  eapply total_lift_bind; [by rewrite Ht|]. eapply total_lift_bind; [by rewrite He|].
  eapply total_lift_bind; [done|]. apply total_bind; [by apply pr_echo_total|intros more]. total_tac.
Qed.

(** What a host answers to an echo request: the same message with the type of
    a reply. *)
Definition echo_reply (p : ping6) : bytes :=
  ICMP6_ECHO_REPLY :: take (Z.to_nat (8 + datalen p) - 1) (drop 1 (outpack p)).

(** The state of a ping6 that sends echo requests. *)
Record echoing (p : ping6) : Prop := {
  e_mode : echo_mode p;
  e_ready : ready p;
  e_nosweep : sweepmax p = 0;
  e_more : npackets p = 0 ∨ ntransmitted p < npackets p;
  e_outpack : Z.of_nat (length (outpack p)) = MAXPACKETLEN;
  e_bytes : bytes_ok (outpack p);
  e_datalen : 0 <= datalen p <= MAXDATALEN;
  e_timing : timing cf = true → 8 <= datalen p;
  e_ident : 0 <= ident cf < 2 ^ 16 }.

Lemma echo_reply_facts tv p p1 post :
  echoing p → outpack p1 = echo_packet tv (ntransmitted p) (outpack p) → datalen p1 = datalen p →
  let buf := echo_reply p1 ++ post in
  Forall byte_ok (echo_reply p1) ∧ (Z.to_nat (8 + datalen p) <= length buf)%nat ∧
  (Z.to_nat (8 + datalen p) <= length (outpack p1))%nat ∧
  rd8 buf 0 = Some ICMP6_ECHO_REPLY ∧ myechoreply cf buf = Ret true ∧
  rd16 buf 6 = Some (ntransmitted p mod 65536).
Proof.
  intros [_ _ _ _ Ho Hb Hd Htm Hid] E Ed buf. unfold MAXDATALEN, MAXPACKETLEN, IP6LEN in *.
  set (body := if timing cf then be32 (tv_sec tv) ++ be32 (tv_usec tv) ++ drop 16 (outpack p) else drop 8 (outpack p)).
  assert (Ep : outpack p1 = [ICMP6_ECHO_REQUEST; 0; 0; 0] ++ be16 (ident cf) ++ be16 (ntransmitted p) ++ body) by done.
  assert (Hbody : length (outpack p1) = length (outpack p)).
  { rewrite Ep. unfold body. destruct (timing cf); rewrite ?length_app, ?length_drop; simpl; lia. }
  assert (Hk : (7 <= Z.to_nat (8 + datalen p) - 1)%nat) by lia.
  assert (Hbok : bytes_ok body).
  { unfold body. destruct (timing cf); [|by apply Forall_drop].
    apply Forall_app. split; [apply be32_ok|]. apply Forall_app. split; [apply be32_ok|by apply Forall_drop]. }
  assert (Er : echo_reply p1 = ICMP6_ECHO_REPLY :: [0; 0; 0] ++ be16 (ident cf) ++ be16 (ntransmitted p)
                 ++ take (Z.to_nat (8 + datalen p) - 8) body).
  { unfold echo_reply. rewrite Ep, Ed. f_equal. destruct (Z.to_nat (8 + datalen p) - 1)%nat
      as [|[|[|[|[|[|[|k]]]]]]] eqn:Ek; try lia. simpl. do 8 f_equal. f_equal. lia. }
  split_and!.
  - rewrite Er. repeat (constructor; [first [apply u8_ok | unfold byte_ok, ICMP6_ECHO_REPLY; lia]|]). by apply Forall_take.
  - unfold buf. rewrite length_app. unfold echo_reply. cbn [length]. rewrite length_take, length_drop, Ed. lia.
  - lia.
  - done.
  - unfold buf, myechoreply. rewrite Er. change (rd16 _ 4) with (Some (be_val (be16 (ident cf)))).
    cbn [of_opt mbind outcome_bind]. rewrite be_val_be16_mod, Z.mod_small by lia. by rewrite Z.eqb_refl.
  - unfold buf. rewrite Er. change (rd16 _ 6) with (Some (be_val (be16 (ntransmitted p)))). by rewrite be_val_be16_mod.
Qed.

Definition limit (p p' : ping6) : Prop := npackets p' = npackets p.
#[local] Instance limit_preorder : PreOrder limit.
Proof. split; [done|]. intros p1 p2 p3. unfold limit. congruence. Qed.

Lemma limit_pinger tv i : pres limit (pinger cf tv i).
Proof.
  assert (Hc : ∀ k, pres limit (CLR k)) by (intros k p; unfold CLR; by destruct (A (rcvd_tbl p) k)).
  unfold pinger, transmit, ni_query. repeat (keeps_tac; try apply Hc).
Qed.

(** Without replies a turn returns. *)
Definition quiet_ok (p : ping6) : Prop :=
  counted p ∧ tabled p ∧ 0 <= ntransmitted p <= npackets p ∧ npackets p < 2 ^ 31.

Lemma send_or_wait_total tv i p : quiet_ok p →
  returns (send_or_wait cf two_rtt tv i p) (λ '(_, p'), tabled p' ∧ 0 <= ntransmitted p' <= npackets p' ∧
    npackets p' = npackets p ∧ nreceived p' = nreceived p).
Proof.
  intros ([Hpos _] & Ht & Hn & Hb). unfold send_or_wait. rewrite get_run, (proj2 (Z.eqb_neq _ 0)) by lia.
  cbn [orb]. destruct (ntransmitted p <? npackets p) eqn:E.
  - apply Z.ltb_lt in E. assert (Hs : sendable int_ok p) by (unfold sendable; simpl; lia).
    destruct (abs_exists octets p) as [a Ha]; [exact Ht|]. pose proof (pinger_total tv i p (conj Ht Hs)) as Hp.
    pose proof (pinger_turn tv i p a Hs Ha) as Htn. pose proof (limit_pinger tv i p) as Hl.
    unfold mbind, ST_bind. destruct (pinger cf tv i p) as [[x p1]| |]; simpl in *; [|done|done].
    destruct Htn as [sent Hp']. pose proof (abs_sent _ _ _ Ha). pose proof (abs_first _ _ _ Ha).
    pose proof (abs_sent _ _ _ Hp') as E1. pose proof (abs_first _ _ _ Hp') as E2. simpl n_sent in *. simpl n_first in *. unfold limit in Hl.
    split_and!; [done|..]; destruct sent; simpl in *; lia.
  - apply Z.ltb_ge in E. by destruct (almost_done p).
Qed.

Definition still (p p' : ping6) : Prop := same p p' ∧ frame p p'.
#[local] Instance still_preorder : PreOrder still.
Proof. split; [done|]. intros p1 p2 p3 [? ?] [? ?]. split; by etrans. Qed.

Lemma send_turn_total tv i p : quiet_ok p →
  returns (send_turn cf two_rtt tv i p) (λ '(done, p'), nreceived p' = nreceived p ∧
    (done = true ∨ (quiet_ok p' ∧ left p' < left p))).
Proof.
  intros Hq. pose proof (send_turn_left tv i p (proj1 Hq)) as Hl.
  pose proof (send_or_wait_total tv i p Hq) as Ht. unfold send_turn in *.
  unfold mbind at 1, ST_bind at 1. unfold mbind at 1, ST_bind at 1 in Hl.
  destruct (send_or_wait cf two_rtt tv i p) as [[d p1]| |]; simpl in Ht; [|done|done].
  destruct Ht as (Ht & Hn & Hp & Hr). destruct d; [simpl; auto|].
  assert (Hk : pres still (note_missed;; mret false)) by (unfold note_missed; keeps_tac).
  assert (Htot : total tabled (note_missed;; mret false)) by (unfold note_missed; total_tac).
  specialize (Hk p1). specialize (Htot p1 Ht).
  destruct ((note_missed;; mret false) p1) as [[x p2]| |]; simpl in *; [|done|done].
  destruct Hk as [(? & ? & _) (? & _)]. destruct Hq as (_ & _ & _ & Hb). simpl n_sent in *. simpl n_first in *.
  split; [lia|]. destruct Hl as [?|[? ?]]; [by left|]. right. split; [|done]. split_and!; done || lia.
Qed.

Lemma main_loop_quiet es p :
  quiet_ok p → Forall (λ x, x.2 = Timeout) es → left p < Z.of_nat (length es) →
  ∃ p', loop es p = Ret (Some (if nreceived p =? 0 then 2 else 0), p').
Proof.
  intros Hq Hes. revert p Hq. induction Hes as [|[[tv i] e] es He Hes IH]; intros p Hq Hl.
  { exfalso. simpl in Hl. unfold left in Hl. destruct (almost_done p); lia. }
  simpl in He. subst e. cbn [main_loop main_step]. pose proof (send_turn_total tv i p Hq) as Ht.
  destruct (send_turn cf two_rtt tv i p) as [[d p1]| |]; simpl in Ht; [|done|done].
  destruct Ht as [Er Hd]. cbn [mbind outcome_bind]. rewrite <- Er. destruct d; [eauto|].
  destruct Hd as [?|[Hq1 Hl1]]; [done|]. apply IH; [done|]. simpl length in Hl. lia.
Qed.

(** C11: every turn of the loop implements the specification that counts with
    a set of sequence numbers: a message changes the tally as the reply it
    brings, or not at all, and a query that is sent takes its number out of
    the set. *)
Theorem main_step_refines (tv : timeval) (i : Z) (e : event) (p p' : ping6) (a : tally) (b : bool) :
  event_ok e → sendable int_ok p → abs octets p a → step tv i e p = Ret (b, p') →
  abs octets p' (sends table_size (negb (ntransmitted p' =? ntransmitted p)) (on_heard table_size (heard_event e) a)).
Proof.
  intros He Hs Ha Hstep. pose proof (main_step_turn tv i e He p a Hs Ha) as Ht. rewrite Hstep in Ht.
  simpl in Ht. destruct Ht as [sent Ht]. pose proof (abs_sent _ _ _ Ht) as E. pose proof (abs_sent _ _ _ Ha) as E0. simpl in E, E0.
  assert (Es : negb (ntransmitted p' =? ntransmitted p) = sent); [|by rewrite Es].
  destruct sent; simpl in E; rewrite on_heard_sent in E.
  - by rewrite (proj2 (Z.eqb_neq _ _)) by lia.
  - by rewrite (proj2 (Z.eqb_eq _ _)) by lia.
Qed.

(** as long as the network answers only queries that were sent, the
    number of packets received never exceeds the number transmitted, however
    replies are duplicated, delayed and reordered: the loss that the summary
    prints is between 0 and 100 percent. *)
Lemma ping6_counts (p0 p : ping6) :
  fresh_start p0 → reachable p0 p → 0 <= nreceived p <= ntransmitted p.
Proof.
  intros H0 Hr. destruct (reachable_tally p0 p H0 Hr) as (a & [E1 E2 _ _ _] & Ht%tally_counts). simpl in *. lia.
Qed.

(** C12: an echo request that [pinger] composes is accepted when a host sends
    it back as a reply: the first copy counts as received, the second copy as
    a duplicate, whatever follows the message in the buffer. *)
Theorem echo_roundtrip (tv tv1 tv2 : timeval) (i : Z) (p : ping6) (m : msghdr) (post : bytes) :
  echoing p → delivered m → bytes_ok post →
  ∃ p1, pinger cf tv i p = Ret (0, p1) ∧ ntransmitted p1 = ntransmitted p + 1 ∧
  let buf := echo_reply p1 ++ post in
  ∃ p2 p3, pack tv1 buf (8 + datalen p) m p1 = Ret (tt, p2) ∧
    nreceived p2 = nreceived p + 1 ∧ nrepeats p2 = nrepeats p ∧
    pack tv2 buf (8 + datalen p) m p2 = Ret (tt, p3) ∧
    nreceived p3 = nreceived p + 1 ∧ nrepeats p3 = nrepeats p + 1.
Proof.
  intros He Hd Hpost. pose proof He as [Hm [Ht Hs] Hw Hn Ho Hb Hdl Htm _].
  unfold MAXDATALEN, MAXPACKETLEN, IP6LEN in *.
  destruct (pinger_echo tv i p Hm (conj Ht Hs) Hw Hn ltac:(lia)) as (p1 & E1 & Eo & _ & Ed).
  destruct (abs_exists octets p) as [a Ha]; [exact Ht|]. pose proof (pinger_effect tv i p a Hs Ha) as Ha1. rewrite E1 in Ha1.
  simpl in Ha1. exists p1. split; [done|]. split; [exact (eq_trans (abs_sent _ _ _ Ha1) (f_equal (λ x, x + 1) (eq_sym (abs_sent _ _ _ Ha))))|].
  set (buf := echo_reply p1 ++ post). cbv zeta.
  destruct (echo_reply_facts tv p p1 post He Eo Ed) as (Hrb & Hlb & Hlo & R0 & R1 & R6). fold buf in Hlb, R0, R1, R6.
  assert (Hbb : bytes_ok buf) by (by apply Forall_app).
  assert (Hh : heard cf buf (8 + datalen p) m = Some (ntransmitted p mod 65536))
    by (rewrite heard_echo by (done || lia); done).
  assert (Htm' : timing cf = true → 16 <= 8 + datalen p) by (intros H%Htm; lia).
  assert (Hpack : ∀ tv' q aq, abs octets q aq → (Z.to_nat (8 + datalen p) <= length (outpack q))%nat →
    ∃ q', pack tv' buf (8 + datalen p) m q = Ret (tt, q') ∧ abs octets q' (a_reply table_size (ntransmitted p mod 65536) aq) ∧
          (Z.to_nat (8 + datalen p) <= length (outpack q'))%nat).
  { intros tv' q aq Haq Hq.
    pose proof (pack_echo_total tv' buf (8 + datalen p) m Hd Hbb ltac:(lia) Hlb Htm' R0 R1 q
      (conj (abs_tbl _ _ _ Haq) Hq)) as Htot.
    pose proof (pr_pack_effect tv' buf (8 + datalen p) m Hbb q aq Logic.I Haq) as Heff. rewrite Hh in Heff.
    destruct (pack tv' buf (8 + datalen p) m q) as [[[] q']| |]; simpl in *; [|done|done].
    exists q'. by destruct Htot. }
  destruct (Hpack tv1 p1 _ Ha1 Hlo) as (p2 & E2 & Ha2 & Ho2).
  destruct (Hpack tv2 p2 _ Ha2 Ho2) as (p3 & E3 & Ha3 & _).
  assert (Hmod : (ntransmitted p mod 65536) mod table_size = a_sent a mod table_size)
    by (rewrite <- (abs_sent _ _ _ Ha); by rewrite Z.mod_mod).
  destruct (reply_twice table_size a _ Hmod) as (F1 & F2 & F3 & F4).
  exists p2, p3. change (on_sent 0 a) with (a_send table_size a) in *.
  rewrite <- (abs_first _ _ _ Ha2), <- (abs_first _ _ _ Ha) in F1.
  rewrite <- (abs_dup _ _ _ Ha2), <- (abs_dup _ _ _ Ha) in F2.
  rewrite <- (abs_first _ _ _ Ha3), <- (abs_first _ _ _ Ha) in F3.
  rewrite <- (abs_dup _ _ _ Ha3), <- (abs_dup _ _ _ Ha) in F4. done.
Qed.

(** with a number of packets to send the loop of [main] ends: no run with
    more timeouts than queries left plus one uses up its events without
    leaving the loop; and when nothing is received it returns, with the exit
    status 2 if there was no reply before. *)
Lemma main_loop_ends (es : list (timeval * Z * event)) (p : ping6) :
  counted p → left p < timeouts es →
  (∀ status p', loop es p = Ret (status, p') → status ≠ None) ∧
  (quiet_ok p → Forall (λ x, x.2 = Timeout) es →
   ∃ p', loop es p = Ret (Some (if nreceived p =? 0 then 2 else 0), p')).
Proof.
  intros Hc Hl. split.
  - intros status p' E. pose proof (main_loop_left es p Hc Hl) as H. by rewrite E in H.
  - intros Hq Hes. apply main_loop_quiet; [done|done|].
    assert (E : timeouts es = Z.of_nat (length es)); [|by rewrite E in Hl]. clear -Hes.
    induction Hes as [|[[tv i] e] es He _ IH]; [done|]. simpl in He. subst e. cbn [timeouts is_timeout length]. lia.
Qed.

(** A sweep that has sent its last size. *)
Definition swept (k : Z) (p : ping6) : Prop :=
  npackets p = 0 ∧ 0 < sweepmax p ∧ sntransmitted p = snpackets p ∧ 0 < sweepincr p ∧
  sweepmax p < datalen p + sweepincr p ∧ 0 <= datalen p ∧ datalen p + k * sweepincr p < 2 ^ 31.

Lemma swept_turn k tv i p : 1 <= k → swept k p →
  ∃ p', send_turn cf two_rtt tv i p = Ret (false, p') ∧ swept (k - 1) p' ∧ ntransmitted p' = ntransmitted p.
Proof.
  intros Hk (H1 & H2 & H3 & H4 & H5 & H6 & H7).
  assert (Es : s32 (datalen p + sweepincr p) = datalen p + sweepincr p) by (assert (sweepincr p <= k * sweepincr p) by nia; unfold s32; zlia).
  assert (Ep : pinger cf tv i p = Ret (-1, p <| datalen := datalen p + sweepincr p |>)).
  { unfold pinger. rewrite get_run, H1. cbn [truthy Z.eqb negb andb].
    unfold truthy. rewrite (proj2 (Z.eqb_neq _ 0)), (proj2 (Z.eqb_eq _ _) H3) by lia. cbn [negb andb].
    unfold mbind at 1, ST_bind at 1. rewrite modify_run, get_run. cbn [sweepmax datalen update_field].
    rewrite Es, (proj2 (Z.ltb_lt _ _)) by lia. done. }
  set (p1 := p <| datalen := datalen p + sweepincr p |>) in Ep.
  assert (Ew : send_or_wait cf two_rtt tv i p = Ret (false, p1)).
  { unfold send_or_wait. rewrite get_run, H1. cbn [Z.eqb orb]. by rewrite (bind_run _ _ _ _ _ Ep). }
  unfold send_turn. rewrite (bind_run _ _ _ _ _ Ew).
  assert (Hp1 : swept (k - 1) p1) by (unfold swept, p1; cbn [npackets sweepmax sntransmitted snpackets sweepincr datalen update_field]; nia).
  assert (Hm : total (λ q, swept (k - 1) q ∧ ntransmitted q = ntransmitted p) note_missed)
    by (unfold note_missed; total_tac).
  specialize (Hm p1 (conj Hp1 eq_refl)). unfold mbind, ST_bind.
  destruct (note_missed p1) as [[x p2]| |]; simpl in Hm; [|done|done]. by exists p2.
Qed.

(** A sweep whose last reply is lost does not end: after the last size
    every timeout comes back to the loop without sending, as often as one
    likes (until the size overflows). *)
Lemma sweep_never_ends (n : nat) (tv : timeval) (i : Z) (p : ping6) :
  swept (Z.of_nat n) p →
  ∃ p', loop (replicate n (tv, i, Timeout)) p = Ret (None, p') ∧ ntransmitted p' = ntransmitted p.
Proof.
  revert p. induction n as [|n IH]; intros p Hp; [by exists p|]. cbn [replicate main_loop main_step].
  destruct (swept_turn (Z.of_nat (S n)) tv i p ltac:(lia) Hp) as (p1 & E & Hp1 & En). rewrite E.
  cbn [mbind outcome_bind]. destruct (IH p1) as (p' & E' & En'); [by replace (Z.of_nat n) with (Z.of_nat (S n) - 1) by lia|].
  exists p'. split; [done|congruence].
Qed.

(** The sequence number is an [int]: after 2^31 queries it is negative
    and [CLR] writes in front of the table. *)
Lemma pinger_seq_overflow (tv : timeval) (i : Z) (p : ping6) :
  npackets p = 0 → sweepmax p = 0 → ntransmitted p = 2 ^ 31 + 8 → pinger cf tv i p = Crash.
Proof.
  intros Hn Hw Ht. unfold pinger. rewrite get_run, Hn, Hw. cbn [truthy Z.eqb negb andb].
  rewrite mret_run. unfold put_out. rewrite modify_run, get_run, modify_run. cbn [ntransmitted update_field].
  rewrite Ht. change (Z.rem (s32 (2 ^ 31 + 8)) mx_dup_ck) with (-65528). done.
Qed.

End ping6.

(** the printing of other ICMPv6 messages reads inside the buffer for
    every message, except that a verbose node information reply with code 3
    reads past the table of the three result names. *)
Lemma pr_icmph_crash (buf : bytes) (end_ : nat) (verbose : bool) (stack : nat) :
  bytes_ok buf → (40 <= length buf)%nat → (end_ <= length buf)%nat → (end_ < stack)%nat →
  if verbose && bool_decide (buf !! 0%nat = Some ICMP6_NI_REPLY ∧ buf !! 1%nat = Some 3)
  then Icmph.pr_icmph buf end_ verbose stack = Crash
  else ∃ o, Icmph.pr_icmph buf end_ verbose stack = Ret o.
Proof.
  intros Hb Hl He Hs.
  destruct (rd8_returns buf 0 Hb ltac:(lia)) as (ty & Ety & Hty), (rd8_returns buf 1 Hb ltac:(lia)) as (code & Ec & Hc).
  unfold Icmph.pr_icmph. rewrite Ety, Ec. cbn [of_opt mbind outcome_bind].
  destruct (pr_retip_returns buf end_ Hb He 8) as [r ->].
  destruct (pr_subject_returns buf end_ He stack code Hs ltac:(lia)) as [subj ->].
  unfold rd16, rd32, read_at. rewrite !(bool_decide_true (_ + _ <= _)%nat) by lia.
  cbn [of_opt mbind outcome_bind fmap option_fmap option_map].
  unfold rd8 in Ety, Ec. rewrite Ety, Ec.
  destruct (decide (ty = ICMP6_NI_REPLY)) as [->|Hne].
  2: { rewrite bool_decide_false by (intros [[= ?] _]; done). rewrite andb_false_r.
       rewrite (proj2 (Z.eqb_neq ty ICMP6_NI_REPLY)) by done. repeat case_match; simpl; eauto. }
  change (ICMP6_NI_REPLY =? ICMP6_NI_REPLY) with true. cbn -[Icmph.pr_result Z.of_nat].
  destruct verbose; [|simpl; eauto]. unfold Icmph.pr_result. cbn [length Icmph.nircode].
  destruct (decide (code = 3)) as [->|Hne].
  { by rewrite bool_decide_true. }
  rewrite bool_decide_false by (intros [_ [= ?]]; done). cbn [andb].
  destruct (Z.of_nat 3 <? code) eqn:E3; [simpl; eauto|]. apply Z.ltb_ge in E3.
  assert (code = 0 ∨ code = 1 ∨ code = 2) as [->|[->| ->]] by lia; simpl; eauto.
Qed.

Lemma pr_icmph_crash_witness :
  Icmph.pr_icmph (140 :: 3 :: replicate 40 0) 20 true 30 = Crash.
Proof.
  apply (pr_icmph_crash (140 :: 3 :: replicate 40 0) 20 true 30).
  - do 2 (constructor; [unfold byte_ok; lia|]). apply bytes_ok_zeros.
  - simpl. lia.
  - simpl. lia.
  - lia.
Defined.

(** ** A run *)

Definition sample_config : config :=
  Config [] 7 (replicate 8 0) (replicate 16 0) 0 true 10000 false 0.
Definition sample_state (npk swm dl : Z) (nt : Z) : ping6 :=
  Ping6 0 npk nt 0 0 0 0 1 1 swm 1 dl (replicate (Z.to_nat 131072) 0) (replicate (Z.to_nat 8192) 0)
    false (TV 1 0) 0 [].
Definition sample_msg : msghdr :=
  Msghdr (Some 30) 28 (replicate 16 0) false
    [Cmsg 16 CHopLimit [64; 0; 0; 0]; Cmsg 32 CPktInfo (replicate 20 0)].
Abbreviation never_late := (λ _ : timeval, false).
Abbreviation no_exthdrs := (λ _ : msghdr, [] : output).

Lemma sample_tabled npk swm dl nt : tabled (sample_state npk swm dl nt).
Proof. unfold tabled, tbl_ok, octets, sample_state. cbn [rcvd_tbl]. rewrite length_replicate. lia. Qed.

Lemma sample_quiet : quiet_ok (sample_state 1 0 56 0).
Proof.
  split; [split; cbn; lia|]. split; [apply sample_tabled|]. cbn. lia.
Qed.

Lemma sample_echoing : echoing sample_config (sample_state 1 0 56 0).
Proof.
  split.
  - done.
  - split; [apply sample_tabled|]. unfold sendable. cbn. lia.
  - done.
  - right. cbn. lia.
  - unfold sample_state. cbn [outpack]. rewrite length_replicate. unfold MAXPACKETLEN. lia.
  - apply bytes_ok_zeros.
  - unfold MAXDATALEN, MAXPACKETLEN, IP6LEN. cbn [datalen sample_state]. lia.
  - intros _. cbn [datalen sample_state]. lia.
  - cbn. lia.
Qed.

Lemma sample_turn_run :
  ∃ b p', main_step sample_config never_late no_exthdrs [] 100 0 (TV 5 0) 64 Timeout (sample_state 1 0 56 0) = Ret (b, p').
Proof.
  pose proof (send_turn_total sample_config never_late 0 (TV 5 0) 64 _ sample_quiet) as H. cbn [main_step].
  destruct (send_turn sample_config 0 (TV 5 0) 64 (sample_state 1 0 56 0)) as [[b p']| |]; [|done|done].
  by exists b, p'.
Qed.

Lemma main_step_refines_witness :
  ∃ b p', main_step sample_config never_late no_exthdrs [] 100 0 (TV 5 0) 64 Timeout (sample_state 1 0 56 0) = Ret (b, p') ∧
    abs octets p' (sends table_size (negb (ntransmitted p' =? 0)) (Tally 0 0 0 ∅)).
Proof.
  destruct sample_turn_run as (b & p' & E). exists b, p'. split; [exact E|].
  apply (main_step_refines sample_config never_late no_exthdrs [] 100 0 (TV 5 0) 64 Timeout (sample_state 1 0 56 0)
    p' (Tally 0 0 0 ∅) b); [exact Logic.I|unfold sendable; cbn; lia|apply abs_start; done|exact E].
Defined.

Lemma ping6_counts_witness :
  ∃ b p', main_step sample_config never_late no_exthdrs [] 100 0 (TV 5 0) 64 Timeout (sample_state 1 0 56 0) = Ret (b, p') ∧
    0 <= nreceived p' <= ntransmitted p'.
Proof.
  destruct sample_turn_run as (b & p' & E). exists b, p'. split; [exact E|].
  apply (ping6_counts sample_config never_late no_exthdrs [] 100 0 (sample_state 1 0 56 0)); [done|].
  eapply reach_turn; [apply reach_start| | | |exact E]; [unfold sendable; cbn; lia|exact Logic.I|exact Logic.I].
Defined.

Lemma echo_roundtrip_witness :
  ∃ p1 p2 p3, pinger sample_config (TV 5 0) 64 (sample_state 1 0 56 0) = Ret (0, p1) ∧
    pr_pack sample_config never_late no_exthdrs [] 100 (TV 5 9) (echo_reply p1 ++ [1; 2]) 64 sample_msg p1 = Ret (tt, p2) ∧
    pr_pack sample_config never_late no_exthdrs [] 100 (TV 6 0) (echo_reply p1 ++ [1; 2]) 64 sample_msg p2 = Ret (tt, p3) ∧
    nreceived p3 = 1 ∧ nrepeats p3 = 1.
Proof.
  destruct (echo_roundtrip sample_config never_late no_exthdrs [] 100 (TV 5 0) (TV 5 9) (TV 6 0) 64
    (sample_state 1 0 56 0) sample_msg [1; 2] sample_echoing) as (p1 & E1 & _ & p2 & p3 & E2 & _ & _ & E3 & Hr & Hd).
  - split_and!; [reflexivity|reflexivity|vm_compute; discriminate|eexists; reflexivity|discriminate].
  - do 2 (constructor; [unfold byte_ok; lia|]). constructor.
  - exists p1, p2, p3. split_and!; [exact E1|exact E2|exact E3|exact Hr|exact Hd].
Defined.

Lemma main_loop_ends_witness :
  ∃ p', main_loop sample_config never_late no_exthdrs [] 100 0 (replicate 3 (TV 5 0, 64, Timeout)) (sample_state 1 0 56 0)
        = Ret (Some 2, p').
Proof.
  destruct (main_loop_ends sample_config never_late no_exthdrs [] 100 0 (replicate 3 (TV 5 0, 64, Timeout))
    (sample_state 1 0 56 0)) as [_ H].
  - split; cbn; lia.
  - unfold left. cbn. lia.
  - apply H; [apply sample_quiet|by repeat constructor].
Defined.

Lemma sweep_never_ends_witness :
  ∃ p', main_loop sample_config never_late no_exthdrs [] 100 0 (replicate 5 (TV 5 0, 64, Timeout)) (sample_state 0 10 10 3)
        = Ret (None, p') ∧ ntransmitted p' = 3.
Proof.
  apply (sweep_never_ends sample_config never_late no_exthdrs [] 100 0 5 (TV 5 0) 64 (sample_state 0 10 10 3)).
  unfold swept. cbn. lia.
Defined.

Lemma pinger_seq_overflow_witness : pinger sample_config (TV 5 0) 64 (sample_state 0 0 56 (2 ^ 31 + 8)) = Crash.
Proof. apply pinger_seq_overflow; reflexivity. Defined.
