(* ===== verification/NameInterop.v ===== *)
(** * NameInterop: domain names of rtadvd read by ping6

    [encode_domain] of rtadvd (config.c) writes the wire format that
    [dnsdecode] of ping6 reads. *)

From S2P Require Import Prelude Stdio NodeInfo.
From S2P Require Import Rainfo.

Lemma encode_domain_wire d : Forall label_ok (strsep_dots d) → encode_domain d = Dns.wire (strsep_dots d).
Proof.
  intros Hok. unfold encode_domain, Dns.wire. f_equal. f_equal.
  induction Hok as [|l ls Hl _ IH]; [done|]. csimpl. by rewrite encode_label_eq, IH by done.
Qed.

Lemma shown_printable l : Forall (λ c, isprint c = true) l → Dns.shown l = l.
Proof.
  induction 1 as [|c l Hc _ IH]; [done|]. rewrite Dns.shown_cons, IH. unfold escape. by rewrite Hc.
Qed.

Lemma text_join ls : ls ≠ [] → Forall (Forall (λ c, isprint c = true)) ls →
  Dns.text ls = join_dots ls ++ [DOT].
Proof.
  intros Hne Hp. destruct ls as [|l ls]; [done|]. clear Hne. unfold Dns.text.
  revert l Hp. induction ls as [|l' ls IH]; intros l Hp; apply Forall_cons in Hp as [Hl Hp].
  - csimpl. rewrite shown_printable by done. by rewrite app_nil_r.
  - specialize (IH l' Hp). cbn [fmap list_fmap concat] in *. rewrite IH, shown_printable by done.
    cbn [join_dots]. by rewrite <- !(assoc_L (++)).
Qed.

Lemma strsep_printable d : Forall (λ c, isprint c = true) d →
  Forall (Forall (λ c, isprint c = true)) (strsep_dots d).
Proof.
  induction 1 as [|c d Hc _ IH]; [by repeat constructor|]. cbn [strsep_dots].
  destruct (c =? DOT); [by constructor|]. destruct (strsep_dots d) as [|l ls]; [by repeat constructor|].
  apply Forall_cons in IH as [? ?]. by repeat constructor.
Qed.

Lemma strsep_nonempty d : strsep_dots d ≠ [].
Proof. destruct d as [|c d]; [done|]. simpl. repeat case_match; done. Qed.

(** C32: the name that rtadvd encodes is the name that ping6 prints, with a
    final dot, wherever it stands in the packet. *)
Theorem name_interop (d pre post : bytes) (base : option nat) :
  Forall label_ok (strsep_dots d) → Forall (λ c, isprint c = true) d →
  (length d < NS_MAXDNAME)%nat →
  let pkt := pre ++ encode_domain d ++ post in
  Dns.dnsdecode pkt (S (length pkt)) base (length pre) (length pkt) (NS_MAXDNAME + 1) =
  Some (Some ((length pre + length (encode_domain d))%nat, d ++ [DOT])).
Proof.
  intros Hok Hp Hl pkt. pose proof (Dns.wire_length (strsep_dots d)) as Hw.
  assert (Ht : Dns.text (strsep_dots d) = d ++ [DOT])
    by (rewrite text_join by (apply strsep_nonempty || by apply strsep_printable); by rewrite join_strsep).
  subst pkt. rewrite (encode_domain_wire d Hok). set (w := Dns.wire (strsep_dots d)) in *.
  unfold Dns.dnsdecode. rewrite (proj2 (Nat.leb_gt _ _)) by (rewrite !length_app; lia).
  rewrite (Dns.dns_loop_complete _ _ _ _ _ _ _ _ _ (strsep_dots d)); rewrite ?Nat.eqb_refl, ?Dns.rest_text_first.
  - by rewrite Ht.
  - lia.
  - lia.
  - rewrite !length_app. lia.
  - done.
  - fold w. split; [rewrite !length_app; lia|]. by rewrite drop_app_length, take_app_length.
  - rewrite Ht. simpl. rewrite length_app. unfold NS_MAXDNAME in *. simpl. lia.
Qed.

Lemma name_interop_witness :
  let pkt := [1; 2] ++ encode_domain [97; 98; 46; 99] ++ [7] in
  Dns.dnsdecode pkt (S (length pkt)) (Some 0%nat) 2 (length pkt) (NS_MAXDNAME + 1) =
  Some (Some (8%nat, [97; 98; 46; 99; 46])).
Proof.
  apply (name_interop [97; 98; 46; 99] [1; 2] [7] (Some 0%nat)).
  - repeat apply Forall_cons_2; [unfold label_ok; simpl; lia..|apply Forall_nil_2].
  - repeat constructor.
  - vm_compute. lia.
Defined.
