(* ===== verification/Cksum.v ===== *)
(** * Cksum: the Internet checksum of ping and traceroute

    [in_cksum] of ping.tproj/ping.c and of traceroute.tproj/traceroute.c sums
    16-bit words in host order (little-endian) and folds the carries; the
    reference is RFC 1071, the one's complement of the one's complement sum of
    the words in network order. [p_cksum] of traceroute.c combines the sums of
    the pseudo header and of the payload. *)

From S2P Require Import Prelude.

(** The loop [while (nleft > 1)] and the odd octet, in an [int]. In ping.c the
    odd octet is the first of a word whose second octet is zero; in
    traceroute.c it is added as it is. *)
Module Ping.
Definition last_word (uc0 : Z) : Z := le_val [uc0; 0].
Fixpoint sum_words (l : bytes) (sum : Z) : Z :=
  match l with
  | a :: b :: l => sum_words l (s32 (sum + le_val [a; b]))
  | [a] => s32 (sum + last_word a)
  | [] => sum
  end.
Definition in_cksum (addr : bytes) : Z :=
  let sum := sum_words addr 0 in
  let sum := Z.shiftr sum 16 + Z.land sum 0xffff in
  let sum := sum + Z.shiftr sum 16 in
  u16 (Z.lnot sum).
End Ping.

Module Traceroute.
Fixpoint sum_words (l : bytes) (sum : Z) : Z :=
  match l with
  | a :: b :: l => sum_words l (s32 (sum + le_val [a; b]))
  | [a] => s32 (sum + a)
  | [] => sum
  end.
Definition in_cksum (addr : bytes) : Z :=
  let sum := sum_words addr 0 in
  let sum := Z.shiftr sum 16 + Z.land sum 0xffff in
  let sum := sum + Z.shiftr sum 16 in
  u16 (Z.lnot sum).

(** The pseudo header [struct ipovly]: nine octets of zero (the object is
    static and they are never written), the protocol, the length and the
    addresses. *)
Definition ipovly (proto : Z) (len : Z) (src dst : bytes) : bytes :=
  replicate 9 0 ++ [proto] ++ be16 len ++ src ++ dst.
Definition le16 (x : Z) : bytes := [u8 x; u8 (Z.shiftr x 8)].
Definition le32 (x : Z) : bytes := [u8 x; u8 (Z.shiftr x 8); u8 (Z.shiftr x 16); u8 (Z.shiftr x 24)].
Definition p_cksum (proto : Z) (src dst data : bytes) : Z :=
  let sumh := in_cksum (ipovly proto (Z.of_nat (length data)) src dst) in
  let sumd := in_cksum data in
  let sumt := Z.lor (u32 (Z.shiftl sumh 16)) sumd in
  u16 (Z.lnot (in_cksum (le32 sumt))).
End Traceroute.

(** ** RFC 1071 *)

Module Rfc1071.
(** One's complement addition of 16-bit words. *)
Definition add (a b : Z) : Z := if 65536 <=? a + b then a + b - 65535 else a + b.
(** The words in network order, an odd octet padded with zero. *)
Fixpoint words (l : bytes) : list Z :=
  match l with
  | a :: b :: l => be_val [a; b] :: words l
  | [a] => [be_val [a; 0]]
  | [] => []
  end.
Definition checksum (l : bytes) : Z := 65535 - foldl add 0 (words l).
End Rfc1071.

(** ** Sums modulo 65535

    The representative of a sum in one's complement arithmetic: zero for zero,
    otherwise between 1 and 65535. *)
Definition canon (x : Z) : Z := if x =? 0 then 0 else (x - 1) mod 65535 + 1.

Lemma canon_range x : 0 <= x → 0 <= canon x <= 65535.
Proof. intros. unfold canon. case_match; [lia|]. pose proof (Z.mod_pos_bound (x - 1) 65535). lia. Qed.

Lemma canon_unique x y : 0 <= x → 0 <= y <= 65535 → (x = 0 ↔ y = 0) → (x - y) mod 65535 = 0 → canon x = y.
Proof.
  intros Hx Hy Hz Hm. unfold canon. destruct (x =? 0) eqn:E; [lia|].
  apply Z.mod_divide in Hm as [k Hk]; [|lia].
  replace (x - 1) with (y - 1 + k * 65535) by lia. rewrite Z_mod_plus_full, Z.mod_small by lia. lia.
Qed.

Lemma canon_mod x : 0 <= x → (x - canon x) mod 65535 = 0.
Proof.
  intros Hx. unfold canon. case_match; [by replace (x - 0) with 0 by lia|].
  pose proof (Z.div_mod (x - 1) 65535 ltac:(lia)).
  replace (x - ((x - 1) mod 65535 + 1)) with ((x - 1) / 65535 * 65535) by lia. apply Z_mod_mult.
Qed.
Lemma canon_zero x : 0 <= x → canon x = 0 ↔ x = 0.
Proof.
  intros Hx. unfold canon. case_match; [lia|]. pose proof (Z.mod_pos_bound (x - 1) 65535). lia.
Qed.

(** The fold of the code, and the sum of the reference, give it. *)
Definition fold16 (x : Z) : Z := let s := Z.shiftr x 16 + Z.land x 0xffff in u16 (s + Z.shiftr s 16).

Lemma fold16_canon x : 0 <= x < 2 ^ 31 → fold16 x = canon x.
Proof.
  intros Hx. unfold fold16. change 0xffff with (Z.ones 16). rewrite Z.land_ones by lia.
  rewrite !Z.shiftr_div_pow2 by lia. change (2 ^ 16) with 65536. unfold u16. change (2 ^ 16) with 65536.
  pose proof (Z.div_mod x 65536 ltac:(lia)) as E. pose proof (Z.mod_pos_bound x 65536 ltac:(lia)).
  assert (0 <= x / 65536 < 32768) by (split; [apply Z.div_pos; lia|apply Z.div_lt_upper_bound; lia]).
  set (q := x / 65536) in *. set (r := x mod 65536) in *. symmetry.
  destruct (decide (q + r < 65536)).
  - rewrite (Z.div_small (q + r)), Z.add_0_r, Z.mod_small by lia. apply canon_unique; [lia|lia|lia|].
    replace (x - (q + r)) with (q * 65535) by lia. apply Z_mod_mult.
  - assert (E1 : (q + r) / 65536 = 1) by (symmetry; apply (Z.div_unique _ _ 1 (q + r - 65536)); lia).
    rewrite E1. replace (q + r + 1) with (q + r - 65535 + 1 * 65536) by lia.
    rewrite Z_mod_plus_full, Z.mod_small by lia. apply canon_unique; [lia|lia|lia|].
    replace (x - (q + r - 65535)) with ((q + 1) * 65535) by lia. apply Z_mod_mult.
Qed.

Lemma canon_add x y : 0 <= x → 0 <= y <= 65535 → Rfc1071.add (canon x) y = canon (x + y).
Proof.
  intros Hx Hy. pose proof (canon_range x Hx). pose proof (canon_zero x Hx).
  pose proof (canon_mod x Hx) as [k Hk]%Z.mod_divide; [|lia]. symmetry. unfold Rfc1071.add.
  destruct (65536 <=? canon x + y) eqn:E; apply canon_unique; try lia.
  - replace (x + y - (canon x + y - 65535)) with ((k + 1) * 65535) by lia. apply Z_mod_mult.
  - replace (x + y - (canon x + y)) with (k * 65535) by lia. apply Z_mod_mult.
Qed.

Definition total (ws : list Z) : Z := foldl Z.add 0 ws.

Lemma foldl_add_acc ws x : foldl Z.add x ws = x + total ws.
Proof.
  unfold total. revert x. induction ws as [|w ws IH]; intros x; cbn [foldl]; [lia|].
  rewrite IH, (IH (0 + w)). lia.
Qed.

Lemma rfc_sum_canon ws x : 0 <= x → Forall (λ w, 0 <= w <= 65535) ws →
  foldl Rfc1071.add (canon x) ws = canon (x + total ws).
Proof.
  intros Hx Hw. revert x Hx. induction Hw as [|w ws Hw _ IH]; intros x Hx; simpl.
  { unfold total. simpl. by rewrite Z.add_0_r. }
  rewrite canon_add, IH by lia. f_equal. unfold total at 2. cbn [foldl]. rewrite foldl_add_acc. lia.
Qed.

(** ** Words in the two byte orders *)

Fixpoint le_words (l : bytes) : list Z :=
  match l with
  | a :: b :: l => le_val [a; b] :: le_words l
  | [a] => [a]
  | [] => []
  end.

(** Induction two octets at a time. *)
Lemma pairs_ind (P : bytes → Prop) :
  P [] → (∀ a, P [a]) → (∀ a b l, P l → P (a :: b :: l)) → ∀ l, P l.
Proof.
  intros H0 H1 H2 l. assert (H : P l ∧ ∀ a, P (a :: l)); [|apply H].
  induction l as [|b l [IH1 IH2]]; [by split|]. split; [apply IH2|]. intros a. by apply H2.
Qed.

Lemma le_pair a b : le_val [a; b] = a + 256 * b.
Proof. unfold le_val, be_val. simpl. lia. Qed.
Lemma be_pair a b : be_val [a; b] = 256 * a + b.
Proof. unfold be_val. simpl. lia. Qed.

Lemma words_ok l : bytes_ok l →
  Forall (λ w, 0 <= w <= 65535) (le_words l) ∧ Forall (λ w, 0 <= w <= 65535) (Rfc1071.words l).
Proof.
  pattern l. apply pairs_ind; clear l.
  - done.
  - intros a Ha. apply Forall_cons in Ha as [Ha _]. unfold byte_ok in Ha. cbn [le_words Rfc1071.words].
    rewrite be_pair. repeat constructor; lia.
  - intros a b l IH Hab. apply Forall_cons in Hab as [Ha Hab]. apply Forall_cons in Hab as [Hb Hl].
    unfold byte_ok in *. cbn [le_words Rfc1071.words]. destruct (IH Hl). rewrite le_pair, be_pair.
    split; (constructor; [lia|done]).
Qed.

Lemma total_cons w ws : total (w :: ws) = w + total ws.
Proof. unfold total at 1. cbn [foldl]. apply foldl_add_acc. Qed.

Lemma total_ge_0 ws : Forall (λ w, 0 <= w <= 65535) ws →
  0 <= total ws <= 65535 * Z.of_nat (length ws) ∧ (total ws = 0 ↔ Forall (λ w, w = 0) ws).
Proof.
  induction 1 as [|w ws Hw _ [IH1 IH2]]; [by split; [split; done|]|]. rewrite total_cons, Forall_cons.
  cbn [length]. split; [lia|]. rewrite <- IH2. lia.
Qed.

(** Swapping the octets of every word multiplies the sum by 256. *)
Lemma total_swap l : bytes_ok l →
  (total (le_words l) - 256 * total (Rfc1071.words l)) mod 65535 = 0 ∧
  (total (le_words l) = 0 ↔ total (Rfc1071.words l) = 0).
Proof.
  pattern l. apply pairs_ind; clear l.
  - done.
  - intros a Ha. apply Forall_cons in Ha as [Ha _]. unfold byte_ok in Ha. cbn [le_words Rfc1071.words].
    rewrite be_pair, !total_cons. change (total []) with 0. split; [|lia].
    replace (a + 0 - 256 * (256 * a + 0 + 0)) with (- a * 65535) by lia. apply Z_mod_mult.
  - intros a b l IH Hab. pose proof (words_ok _ Hab) as [_ _].
    apply Forall_cons in Hab as [Ha Hab]. apply Forall_cons in Hab as [Hb Hl].
    unfold byte_ok in *. cbn [le_words Rfc1071.words]. destruct (IH Hl) as [IH1 IH2].
    destruct (words_ok l Hl) as [Hw1 Hw2].
    destruct (total_ge_0 _ Hw1) as [? _], (total_ge_0 _ Hw2) as [? _].
    rewrite le_pair, be_pair, !total_cons. split; [|lia].
    apply Z.mod_divide in IH1 as [k Hk]; [|lia].
    replace (a + 256 * b + total (le_words l) - 256 * (256 * a + b + total (Rfc1071.words l)))
      with ((k - a) * 65535) by lia. apply Z_mod_mult.
Qed.

(** ** The sums of the code *)

(** A buffer short enough for the 32-bit accumulator. *)
Definition short (l : bytes) : Prop := Z.of_nat (length l) <= 65536.

Lemma le_words_length l : (2 * length (le_words l) <= length l + 1)%nat.
Proof. pattern l. apply pairs_ind; clear l; simpl; lia. Qed.

Lemma total_le_bound l : bytes_ok l → short l → 0 <= total (le_words l) < 2 ^ 31.
Proof.
  intros Hb Hs. destruct (words_ok l Hb) as [Hw _]. destruct (total_ge_0 _ Hw) as [H _].
  pose proof (le_words_length l). unfold short in Hs. nia.
Qed.

Lemma sum_words_total l x : bytes_ok l → 0 <= x → x + total (le_words l) < 2 ^ 31 →
  Ping.sum_words l x = x + total (le_words l) ∧ Traceroute.sum_words l x = x + total (le_words l).
Proof.
  revert x. pattern l. apply pairs_ind; clear l.
  - intros x _ _ _. change (total (le_words [])) with 0. simpl. lia.
  - intros a x Ha Hx H. apply Forall_cons in Ha as [Ha _]. unfold byte_ok in Ha.
    cbn [le_words Ping.sum_words Traceroute.sum_words] in *. unfold Ping.last_word. rewrite le_pair.
    rewrite total_cons in *. change (total []) with 0 in *.
    replace (a + 256 * 0) with a by lia. replace (a + 0) with a in * by lia.
    assert (E : s32 (x + a) = x + a) by (unfold s32; rewrite Z.mod_small; lia). by rewrite E.
  - intros a b l IH x Hab Hx H. apply Forall_cons in Hab as [Ha Hab]. apply Forall_cons in Hab as [Hb Hl].
    destruct (words_ok l Hl) as [Hw _]. destruct (total_ge_0 _ Hw) as [? _]. unfold byte_ok in *.
    cbn [le_words Ping.sum_words Traceroute.sum_words] in *. rewrite total_cons, le_pair in *.
    assert (E : s32 (x + (a + 256 * b)) = x + (a + 256 * b)) by (unfold s32; rewrite Z.mod_small; lia).
    rewrite E. destruct (IH (x + (a + 256 * b)) Hl) as [-> ->]; lia.
Qed.

Lemma not16 s : u16 (Z.lnot s) = 65535 - u16 s.
Proof.
  unfold u16. change (2 ^ 16) with 65536. unfold Z.lnot. pose proof (Z.div_mod s 65536 ltac:(lia)).
  replace (Z.pred (- s)) with (65535 - s mod 65536 + (- (s / 65536) - 1) * 65536) by lia.
  rewrite Z_mod_plus_full, Z.mod_small; [lia|]. pose proof (Z.mod_pos_bound s 65536 ltac:(lia)). lia.
Qed.

Lemma in_cksum_canon l : bytes_ok l → short l →
  Ping.in_cksum l = 65535 - canon (total (le_words l)) ∧ Traceroute.in_cksum l = 65535 - canon (total (le_words l)).
Proof.
  intros Hb Hs. pose proof (total_le_bound l Hb Hs) as Ht. unfold Ping.in_cksum, Traceroute.in_cksum.
  destruct (sum_words_total l 0 Hb) as [-> ->]; [lia|lia|]. rewrite Z.add_0_l, !not16.
  pose proof (fold16_canon _ Ht) as E. unfold fold16 in E. cbv zeta in E. by rewrite E.
Qed.

Lemma canon_swap l : bytes_ok l →
  canon (total (le_words l)) mod 256 = canon (total (Rfc1071.words l)) / 256 ∧
  canon (total (le_words l)) / 256 = canon (total (Rfc1071.words l)) mod 256.
Proof.
  intros Hb. destruct (words_ok l Hb) as [Hw1 Hw2]. destruct (total_ge_0 _ Hw1) as [H1 _], (total_ge_0 _ Hw2) as [H2 _].
  destruct (total_swap l Hb) as [[k Hk]%Z.mod_divide Hz]; [|lia].
  set (x := total (le_words l)) in *. set (y := total (Rfc1071.words l)) in *.
  pose proof (canon_range y ltac:(lia)) as Hr. pose proof (canon_zero y ltac:(lia)) as Hzy.
  pose proof (canon_mod y ltac:(lia)) as [j Hj]%Z.mod_divide; [|lia].
  set (t := canon y) in *. pose proof (Z.div_mod t 256 ltac:(lia)) as Et.
  pose proof (Z.mod_pos_bound t 256 ltac:(lia)) as Hm.
  assert (Hq : 0 <= t / 256 <= 255) by lia.
  assert (E : canon x = 256 * (t mod 256) + t / 256).
  { apply canon_unique; [lia|lia|lia|].
    replace (x - (256 * (t mod 256) + t / 256)) with ((k + 256 * j + t / 256) * 65535) by lia. apply Z_mod_mult. }
  rewrite E. split.
  - rewrite Z.add_comm, Z.mul_comm, Z_mod_plus_full. apply Z.mod_small. lia.
  - rewrite Z.mul_comm, Z.div_add_l by lia. rewrite (Z.div_small (t / 256)) by lia. lia.
Qed.

(** C30: the checksum of ping and of traceroute, written to memory in host
    order, is the checksum of RFC 1071 in network order: summing words in the
    order of the machine gives the same octets. *)
Theorem in_cksum_rfc1071 (l : bytes) :
  bytes_ok l → short l →
  Traceroute.le16 (Ping.in_cksum l) = be16 (Rfc1071.checksum l) ∧
  Traceroute.in_cksum l = Ping.in_cksum l.
Proof.
  intros Hb Hs. destruct (in_cksum_canon l Hb Hs) as [-> ->]. split; [|done].
  destruct (canon_swap l Hb) as [E1 E2]. destruct (words_ok l Hb) as [Hw1 Hw2].
  destruct (total_ge_0 _ Hw1) as [H1 _], (total_ge_0 _ Hw2) as [H2 _].
  assert (Er : foldl Rfc1071.add 0 (Rfc1071.words l) = canon (total (Rfc1071.words l)))
    by (apply (rfc_sum_canon _ 0); [lia|done]).
  unfold Rfc1071.checksum, Traceroute.le16, be16. rewrite Er.
  pose proof (canon_range _ (proj1 H1)) as Hr1. pose proof (canon_range _ (proj1 H2)) as Hr2.
  set (s := canon (total (le_words l))) in *. set (t := canon (total (Rfc1071.words l))) in *.
  rewrite !Z.shiftr_div_pow2 by lia. change (2 ^ 8) with 256. unfold u8. change (2 ^ 8) with 256.
  f_equal; [|f_equal]; zlia.
Qed.

Lemma in_cksum_rfc1071_witness :
  Traceroute.le16 (Ping.in_cksum [0; 1; 0xf2; 3; 0xf4; 0xf5; 0xf6]) = be16 (Rfc1071.checksum [0; 1; 0xf2; 3; 0xf4; 0xf5; 0xf6]).
Proof.
  apply (in_cksum_rfc1071 [0; 1; 0xf2; 3; 0xf4; 0xf5; 0xf6]);
    [repeat (constructor; [unfold byte_ok; lia|]); constructor|unfold short; simpl; lia].
Defined.

(** ** Checksums that verify *)

Lemma le_words_app l l' : Nat.Even (length l) → le_words (l ++ l') = le_words l ++ le_words l'.
Proof.
  pattern l. apply pairs_ind; clear l.
  - done.
  - intros a [k Hk]. simpl in Hk. lia.
  - intros a b l IH [k Hk]. cbn [app le_words]. rewrite IH; [done|]. exists (k - 1)%nat. simpl in Hk. lia.
Qed.
Lemma total_app ws ws' : total (ws ++ ws') = total ws + total ws'.
Proof. unfold total. rewrite foldl_app. apply foldl_add_acc. Qed.
Lemma le_words_le16 x : 0 <= x <= 65535 → le_words (Traceroute.le16 x) = [x].
Proof.
  intros Hx. unfold Traceroute.le16. cbn [le_words]. rewrite le_pair. f_equal.
  unfold u8. rewrite Z.shiftr_div_pow2 by lia. change (2 ^ 8) with 256. zlia.
Qed.

(** A sum that is a positive multiple of 65535 verifies. *)
Lemma in_cksum_zero l : bytes_ok l → short l →
  0 < total (le_words l) → total (le_words l) mod 65535 = 0 → Ping.in_cksum l = 0.
Proof.
  intros Hb Hs Hp Hm. destruct (in_cksum_canon l Hb Hs) as [-> _].
  rewrite (canon_unique _ 65535); [lia|lia|lia|lia|].
  apply Z.mod_divide in Hm as [k ->]; [|lia]. replace (k * 65535 - 65535) with ((k - 1) * 65535) by lia.
  apply Z_mod_mult.
Qed.

Lemma le16_ok x : bytes_ok (Traceroute.le16 x).
Proof. unfold Traceroute.le16. repeat constructor; apply u8_ok. Qed.

(** A checksum field of zero, filled in with a value that completes the sum. *)
Lemma field_verifies pre post c : let l := pre ++ [0; 0] ++ post in
  Nat.Even (length pre) → bytes_ok l → short l → 0 <= c <= 65535 →
  0 < total (le_words l) + c → (total (le_words l) + c) mod 65535 = 0 →
  Ping.in_cksum (pre ++ Traceroute.le16 c ++ post) = 0 ∧ Traceroute.in_cksum (pre ++ Traceroute.le16 c ++ post) = 0.
Proof.
  intros l He Hb Hs Hc Hpos Hm.
  assert (El : total (le_words l) = total (le_words pre) + total (le_words post)).
  { unfold l. rewrite le_words_app, total_app by done. cbn [app le_words]. rewrite le_pair, total_cons. lia. }
  assert (El' : total (le_words (pre ++ Traceroute.le16 c ++ post)) = total (le_words l) + c).
  { rewrite le_words_app, total_app by done. rewrite le_words_app, total_app by (by exists 1%nat).
    rewrite le_words_le16 by lia. rewrite total_cons. change (total []) with 0. lia. }
  unfold l in Hb. apply Forall_app in Hb as [Hb1 Hb2]. apply Forall_app in Hb2 as [_ Hb2].
  assert (Hb' : bytes_ok (pre ++ Traceroute.le16 c ++ post)).
  { apply Forall_app. split; [done|]. apply Forall_app. split; [apply le16_ok|done]. }
  assert (Hs' : short (pre ++ Traceroute.le16 c ++ post)).
  { unfold short in *. unfold l in Hs. rewrite !length_app in *. simpl in *. lia. }
  assert (E : Ping.in_cksum (pre ++ Traceroute.le16 c ++ post) = 0) by (apply in_cksum_zero; rewrite ?El'; done).
  split; [done|]. destruct (in_cksum_canon _ Hb' Hs') as [Ep ->]. by rewrite <- Ep.
Qed.

(** The checksum completes the sum. *)
Lemma completes l : bytes_ok l → short l →
  let c := Ping.in_cksum l in 0 <= c <= 65535 ∧ Traceroute.in_cksum l = c ∧
  0 < total (le_words l) + c ∧ (total (le_words l) + c) mod 65535 = 0.
Proof.
  intros Hb Hs c. unfold c. destruct (in_cksum_canon l Hb Hs) as [-> ->]. destruct (words_ok l Hb) as [Hw _].
  destruct (total_ge_0 _ Hw) as [Ht _]. pose proof (canon_range _ (proj1 Ht)) as Hr.
  pose proof (canon_mod _ (proj1 Ht)) as [k Hk]%Z.mod_divide; [|lia].
  pose proof (canon_zero _ (proj1 Ht)) as Hz. set (c' := canon (total (le_words l))) in *.
  split; [lia|]. split; [done|]. split; [lia|].
  replace (total (le_words l) + (65535 - c')) with ((k + 1) * 65535) by lia. apply Z_mod_mult.
Qed.

Lemma filled_verifies pre post :
  Nat.Even (length pre) → bytes_ok (pre ++ [0; 0] ++ post) → short (pre ++ [0; 0] ++ post) →
  Ping.in_cksum (pre ++ Traceroute.le16 (Ping.in_cksum (pre ++ [0; 0] ++ post)) ++ post) = 0.
Proof. intros He Hb Hs. destruct (completes _ Hb Hs) as (Hr & _ & Hp & Hm). by apply field_verifies. Qed.

(** The value traceroute puts into the field: zero would mean that there is no checksum. *)
Definition nonzero (sum : Z) : Z := if truthy sum then sum else 0xffff.

Lemma icmp_fills pre post :
  Nat.Even (length pre) → bytes_ok (pre ++ [0; 0] ++ post) → short (pre ++ [0; 0] ++ post) →
  Traceroute.in_cksum (pre ++ Traceroute.le16 (nonzero (Traceroute.in_cksum (pre ++ [0; 0] ++ post))) ++ post) = 0.
Proof.
  intros He Hb Hs. destruct (completes _ Hb Hs) as (Hr & -> & Hp & Hm). unfold nonzero, truthy.
  destruct (Z.eqb_spec (Ping.in_cksum (pre ++ [0; 0] ++ post)) 0) as [E|]; cbn [negb]; [|by apply field_verifies].
  rewrite E in Hp, Hm. apply field_verifies; try done; [lia|]. rewrite <- Zplus_mod_idemp_r. by rewrite Z_mod_same_full.
Qed.

Lemma lor_halves h d : 0 <= d <= 65535 → Z.lor (Z.shiftl h 16) d = h * 65536 + d.
Proof.
  intros Hd. rewrite Z.shiftl_mul_pow2 by lia. change (2 ^ 16) with 65536.
  symmetry. apply Z.add_nocarry_lor. apply Z.bits_inj'. intros n Hn. rewrite Z.land_spec, Z.bits_0.
  destruct (decide (n < 16)) as [H16|H16].
  - change 65536 with (2 ^ 16). by rewrite Z.mul_pow2_bits_low by lia.
  - assert (Z.testbit d n = false) as ->; [|apply andb_false_r]. apply Z.testbit_false; [lia|].
    rewrite Z.div_small; [done|]. split; [lia|]. apply Z.lt_le_trans with (2 ^ 16); [lia|]. apply Z.pow_le_mono_r; lia.
Qed.

Lemma p_cksum_halves h d : 0 <= h <= 65535 → 0 <= d <= 65535 →
  u16 (Z.lnot (Traceroute.in_cksum (Traceroute.le32 (Z.lor (u32 (Z.shiftl h 16)) d)))) = canon (h + d).
Proof.
  intros Hh Hd. assert (E : Z.lor (u32 (Z.shiftl h 16)) d = h * 65536 + d).
  { rewrite <- lor_halves by done. f_equal. unfold u32. apply Z.mod_small. rewrite Z.shiftl_mul_pow2 by lia. lia. }
  rewrite E. assert (El : Traceroute.le32 (h * 65536 + d) = Traceroute.le16 d ++ Traceroute.le16 h).
  { unfold Traceroute.le32, Traceroute.le16, u8. rewrite !Z.shiftr_div_pow2 by lia. cbn [app].
    change (2 ^ 8) with 256. change (2 ^ 16) with 65536. change (2 ^ 24) with 16777216.
    assert (F1 : (h * 65536 + d) mod 256 = d mod 256) by zlia.
    assert (F2 : (h * 65536 + d) / 256 mod 256 = d / 256 mod 256) by zlia.
    assert (F3 : (h * 65536 + d) / 65536 mod 256 = h mod 256) by zlia.
    assert (F4 : (h * 65536 + d) / 16777216 mod 256 = h / 256 mod 256) by zlia.
    by rewrite F1, F2, F3, F4. }
  rewrite El. destruct (in_cksum_canon (Traceroute.le16 d ++ Traceroute.le16 h)) as [_ ->];
    [apply Forall_app; split; apply le16_ok|unfold short; simpl; lia|].
  rewrite le_words_app by (by exists 1%nat). rewrite total_app, !le_words_le16, !total_cons by lia.
  change (total []) with 0. pose proof (canon_range (h + d) ltac:(lia)).
  replace (d + 0 + (h + 0)) with (h + d) by lia. rewrite not16. unfold u16. rewrite Z.mod_small by lia. lia.
Qed.

(** A transport checksum computed from the sums of the pseudo header and of the
    segment verifies in its field (zero before, at an even offset): the sum over
    the pseudo header and the segment is that of a valid segment. *)
Lemma p_cksum_fills (proto : Z) (src dst pre post : bytes) :
  byte_ok proto → bytes_ok src → bytes_ok dst → length src = 4%nat → length dst = 4%nat →
  Nat.Even (length pre) → bytes_ok (pre ++ [0; 0] ++ post) →
  Z.of_nat (length (pre ++ [0; 0] ++ post)) <= 65515 →
  let c := nonzero (Traceroute.p_cksum proto src dst (pre ++ [0; 0] ++ post)) in
  Traceroute.in_cksum (Traceroute.ipovly proto (Z.of_nat (length (pre ++ [0; 0] ++ post))) src dst
                         ++ pre ++ Traceroute.le16 c ++ post) = 0.
Proof.
  intros Hp Hs Hd Ls Ld He Hb Hlen c. set (data := pre ++ [0; 0] ++ post) in *.
  set (ih := Traceroute.ipovly proto (Z.of_nat (length data)) src dst) in *.
  assert (Hih : bytes_ok ih).
  { unfold ih, Traceroute.ipovly. repeat (apply Forall_app; split); auto with netcmds. }
  assert (Lih : length ih = 20%nat) by (unfold ih, Traceroute.ipovly; rewrite !length_app, Ls, Ld; done).
  destruct (in_cksum_canon ih Hih) as [_ E1]; [unfold short; lia|].
  destruct (in_cksum_canon data Hb) as [_ E2]; [unfold short; lia|].
  destruct (words_ok ih Hih) as [Hwi _], (words_ok data Hb) as [Hwd _].
  destruct (total_ge_0 _ Hwi) as [Hti _], (total_ge_0 _ Hwd) as [Htd _].
  set (H := total (le_words ih)) in *. set (D := total (le_words data)) in *.
  pose proof (canon_range H (proj1 Hti)) as Rh. pose proof (canon_range D (proj1 Htd)) as Rd.
  pose proof (canon_zero H (proj1 Hti)) as Zh. pose proof (canon_zero D (proj1 Htd)) as Zd.
  pose proof (canon_mod H (proj1 Hti)) as [kh Kh]%Z.mod_divide; [|lia].
  pose proof (canon_mod D (proj1 Htd)) as [kd Kd]%Z.mod_divide; [|lia].
  set (x := (65535 - canon H) + (65535 - canon D)) in *.
  assert (Ec : c = canon x ∨ canon x = 0 ∧ c = 65535).
  { assert (E : Traceroute.p_cksum proto src dst data = canon x).
    { unfold Traceroute.p_cksum. cbv zeta. fold ih. rewrite E1, E2. apply p_cksum_halves; lia. }
    unfold c, nonzero, truthy. rewrite E. destruct (Z.eqb_spec (canon x) 0); auto. }
  assert (Hx : 0 <= x) by lia. pose proof (canon_range x Hx) as Rx. pose proof (canon_zero x Hx) as Zx.
  pose proof (canon_mod x Hx) as [kx Kx]%Z.mod_divide; [|lia].
  assert (Ec' : 0 <= c <= 65535 ∧ (H + D + c) mod 65535 = 0 ∧ 0 < H + D + c).
  { destruct Ec as [Ec|[Ez Ec]]; (split; [lia|]); (split; [|lia]).
    - replace (H + D + c) with ((kh + kd - kx + 2) * 65535) by lia. apply Z_mod_mult.
    - replace (H + D + c) with ((kh + kd - kx + 3) * 65535) by lia. apply Z_mod_mult. }
  assert (El : (ih ++ pre) ++ [0; 0] ++ post = ih ++ data) by (by rewrite <- (assoc_L (++))).
  assert (ET : total (le_words (ih ++ data)) = H + D).
  { by rewrite le_words_app, total_app by (rewrite Lih; by exists 10%nat). }
  rewrite (assoc_L (++)). apply field_verifies; rewrite ?El, ?ET; try tauto.
  - destruct He as [e He]. exists (10 + e)%nat. rewrite length_app. lia.
  - by apply Forall_app.
  - unfold short. rewrite length_app. lia.
Qed.
