(* ===== verification/Ping.v ===== *)
(** * Ping: the echo client (ping.tproj/ping.c)

    [pinger] composes an ICMP message in place and puts its checksum in; the
    buffer [outpackhdr] starts with the room for an IP header, and [outpack]
    points behind it. [pr_pack] treats a received packet (its printed output
    is kept as a list of [printf] calls), and [main_step] is one turn of the
    loop of [main]. *)

From S2P Require Import Prelude Timeval Stdio Md5 Cksum Tally.

Definition F_FLOOD : Z := 0x0001.
Definition F_QUIET : Z := 0x0010.
Definition F_VERBOSE : Z := 0x0100.
Definition F_QUIET2 : Z := 0x0200.
Definition F_AUDIBLE : Z := 0x2000.
Definition F_MISSED : Z := 0x10000.
Definition F_ONCE : Z := 0x20000.
Definition F_HDRINCL : Z := 0x40000.
Definition F_MASK : Z := 0x80000.
Definition F_TIME : Z := 0x100000.
Definition F_WAITTIME : Z := 0x400000.
Definition F_SWEEP : Z := 0x200000.
Definition F_PRTIME : Z := 0x1000000.
Definition ICMP_MINLEN : Z := 8.
Definition TIMEVAL_LEN : Z := 8.
Definition MAX_DUP_CHK : Z := 8 * 128.
Definition mx_dup_ck : Z := MAX_DUP_CHK.
Definition IPLEN : nat := 20.
Definition MAX_IPOPTLEN : nat := 40.

(** The globals of the program and the variables of the loop; [tmax] is in
    microseconds. The other round trip statistics are not kept. *)
Record ping := PingSt {
  options : Z;
  npackets : Z;
  ntransmitted : Z;
  nreceived : Z;
  nrepeats : Z;
  nrcvtimeout : Z;
  nmissedmax : Z;
  snpackets : Z;
  sntransmitted : Z;
  sweepmax : Z;
  sweepmin : Z;
  sweepincr : Z;
  datalen : Z;
  phdr_len : Z;
  icmp_len : Z;
  send_len : Z;
  icmp_type : Z;
  ident : Z;
  timing : bool;
  outpackhdr : bytes;
  rcvd_tbl : bytes;
  old_rrlen : Z;
  old_rr : bytes;
  almost_done : bool;
  intvl : timeval;
  last : timeval;
  tmax : Z;
  printed : output }.
#[export] Instance eta_ping : Eta ping := λ p,
  PingSt (options p) (npackets p) (ntransmitted p) (nreceived p) (nrepeats p) (nrcvtimeout p) (nmissedmax p)
    (snpackets p) (sntransmitted p) (sweepmax p) (sweepmin p) (sweepincr p) (datalen p) (phdr_len p) (icmp_len p)
    (send_len p) (icmp_type p) (ident p) (timing p) (outpackhdr p) (rcvd_tbl p) (old_rrlen p) (old_rr p)
    (almost_done p) (intvl p) (last p) (tmax p) (printed p).

(** What is fixed before the loop starts. *)
Record config := Config {
  icmp_type_rsp : Z;
  uid : Z;
  whereto : bytes;
  waittime : Z;
  interval : Z;
  preload : Z;
  no_dup : Z;
  payload : option bytes;
  hostname : bytes }.

(** What the kernel answers: the time of day, the result of [sendmsg], [send]
    or [sendto], whether [errno] is ENOBUFS then, and the time afterwards. *)
Record env := Env { now : timeval; sent_len : Z; nobufs : bool; after : timeval }.

Abbreviation PG := (ST ping).
Definition print (f : string) (args : list arg) : PG unit :=
  modify (λ p, p <| printed := printed p ++ [(f, args)] |>).
Definition print_all (o : output) : PG unit :=
  modify (λ p, p <| printed := printed p ++ o |>).
Definition opt (f : Z) : PG bool := λ p, Ret (truthy (Z.land (options p) f), p).

(** ** Sending *)

(** Writes at an offset of [outpackhdr] and of [outpack]. *)
Definition poke (off : nat) (src : bytes) (p : ping) : ping :=
  p <| outpackhdr := MD5.bcopy src (outpackhdr p) off |>.
Definition poke_icmp (off : nat) (src : bytes) (p : ping) : ping := poke (IPLEN + off) src p.
Definition outpack (p : ping) : bytes := drop IPLEN (outpackhdr p).

(** [CLR]: clear bit [bit] of the table of received sequence numbers. *)
Definition CLR (bit : Z) (p : ping) : ping :=
  match A (rcvd_tbl p) bit with
  | None => p
  | Some a => p <| rcvd_tbl := set_A (rcvd_tbl p) bit (Z.land a (u8 (Z.lnot (B bit)))) |>
  end.

(** The message without its checksum; [now] is the time of day. *)
Definition compose (now : timeval) (p : ping) : ping :=
  let p := poke_icmp 0 [icmp_type p] p in
  let p := poke_icmp 1 [0] p in
  let p := poke_icmp 2 [0; 0] p in
  let p := poke_icmp 6 (be16 (ntransmitted p)) p in
  let p := poke_icmp 4 (Traceroute.le16 (ident p)) p in
  let p := CLR (Z.rem (ntransmitted p) mx_dup_ck) p in
  let p := p <| timing := TIMEVAL_LEN <=? datalen p |> in
  let ftime := truthy (Z.land (options p) F_TIME) in
  let p := if ftime
           then poke_icmp 8 (be32 (Z.rem (tv_sec now) (24 * 60 * 60) * 1000 + Z.quot (tv_usec now) 1000)) p else p in
  if timing p
  then poke_icmp (Z.to_nat (ICMP_MINLEN + phdr_len p)) (be32 (tv_sec now) ++ be32 (tv_usec now)) p else p.

Definition icmp_cc (p : ping) : Z := ICMP_MINLEN + phdr_len p + datalen p.

(** The composed packet with its checksums, and its length. *)
Definition checksummed (p : ping) : ping * Z :=
  let cc := icmp_cc p in
  let p := poke_icmp 2 (Traceroute.le16 (Ping.in_cksum (take (Z.to_nat cc) (outpack p)))) p in
  if truthy (Z.land (options p) F_HDRINCL) then
    let cc := cc + 20 in
    let p := poke 2 (Traceroute.le16 cc) p in
    let p := poke 10 (Traceroute.le16 (Ping.in_cksum (take (Z.to_nat cc) (outpackhdr p)))) p in
    (p, cc)
  else (p, cc).

(** The writes and the reads of [pinger] are inside its buffers. *)
Definition in_bounds (p : ping) : bool :=
  let n := Z.of_nat (length (outpackhdr p)) - Z.of_nat IPLEN in
  bool_decide (is_Some (A (rcvd_tbl p) (Z.rem (ntransmitted p) mx_dup_ck))) &&
  (ICMP_MINLEN <=? n) && (implb (truthy (Z.land (options p) F_TIME)) (ICMP_MINLEN + 4 <=? n)) &&
  (implb (TIMEVAL_LEN <=? datalen p) (ICMP_MINLEN + phdr_len p + TIMEVAL_LEN <=? n)) && (icmp_cc p <=? n).

(** The result is what is handed to the kernel. *)
Definition pinger (e : env) : PG bytes := λ p0,
  if negb (in_bounds p0) then Crash
  else
    let '(p, cc) := checksummed (compose (now e) p0) in
    let packet := if truthy (Z.land (options p) F_HDRINCL) then outpackhdr p else outpack p in
    let sent := take (Z.to_nat cc) packet in
    if (sent_len e <? 0) && truthy (Z.land (options p) F_FLOOD) && nobufs e then Ret (sent, p)
    else
      let p := p <| ntransmitted := ntransmitted p + 1 |> <| sntransmitted := sntransmitted p + 1 |> in
      let p := if negb (truthy (Z.land (options p) F_QUIET)) && truthy (Z.land (options p) F_FLOOD)
               then p <| printed := printed p ++ [(".", [])] |> else p in
      Ret (sent, p).

Definition SET (bit : Z) : PG unit := λ p,
  match A (rcvd_tbl p) bit with
  | None => Crash
  | Some a => Ret (tt, p <| rcvd_tbl := set_A (rcvd_tbl p) bit (Z.lor a (B bit)) |>)
  end.
Definition TST (bit : Z) : PG bool := λ p,
  match A (rcvd_tbl p) bit with
  | None => Crash
  | Some a => Ret (truthy (Z.land a (B bit)), p)
  end.

(** ** Other messages: [pr_icmph], [pr_retip] and [pr_iph]

    The message starts at [icp] in the buffer. *)

Section icmph.
Context (buf : bytes).

(** The option octets of a header of [hlen] octets. *)
Fixpoint option_octets (n : nat) (cp : nat) : outcome output :=
  match n with
  | O => Ret []
  | S n => c ← of_opt (rd8 buf cp); o ← option_octets n (S cp); Ret (("%02x", [Num c])%string :: o)
  end.

(** The fields of a header; [ntohl] is applied to the 16-bit offset field. *)
Definition pr_iph (ip : nat) : outcome output :=
  h ← of_opt (read_at buf ip 20);
  let b i := h !!! i%nat in
  let hl := Z.land (b 0%nat) 0x0f in
  let off := be_val (Traceroute.le32 (le_val (take 2 (drop 6 h)))) in
  o ← option_octets (Z.to_nat (hl * 4) - 20) (ip + 20);
  Ret ([("Vr HL TOS  Len   ID Flg  off TTL Pro  cks      Src      Dst\n", [])%string;
        (" %1x  %1x  %02x %04x %04x",
         [Num (Z.shiftr (b 0%nat) 4); Num hl; Num (b 1%nat); Num (be_val (take 2 (drop 2 h)));
          Num (be_val (take 2 (drop 4 h)))])%string;
        ("   %1lx %04lx", [Num (Z.shiftr (Z.land off 0xe000) 13); Num (Z.land off 0x1fff)])%string;
        ("  %02x  %02x %04x", [Num (b 8%nat); Num (b 9%nat); Num (be_val (take 2 (drop 10 h)))])%string;
        (" %s ", [Addr (take 4 (drop 12 h))])%string;
        (" %s ", [Addr (take 4 (drop 16 h))])%string] ++ o ++ [("\n", [])%string]).

Definition pr_retip (ip : nat) : outcome output :=
  o ← pr_iph ip;
  b0 ← of_opt (rd8 buf ip);
  p ← of_opt (rd8 buf (ip + 9));
  let cp := (ip + Z.to_nat (Z.land b0 0x0f * 4))%nat in
  if (p =? 6) || (p =? 17) then
    w0 ← of_opt (rd16 buf cp);
    w1 ← of_opt (rd16 buf (cp + 2));
    Ret (o ++ [((if (p =? 6)%Z then "TCP: from port %u, to port %u (decimal)\n"
                 else "UDP: from port %u, to port %u (decimal)\n"), [Num w0; Num w1])%string])
  else Ret o.

Definition say (f : string) : output := [(f, [])].
Definition with_retip (icp : nat) (o : output) : outcome output :=
  r ← pr_retip (icp + 8); Ret (o ++ r).

Definition unreach (code : Z) : output :=
  if code =? 0 then say "Destination Net Unreachable\n"
  else if code =? 1 then say "Destination Host Unreachable\n"
  else if code =? 2 then say "Destination Protocol Unreachable\n"
  else if code =? 3 then say "Destination Port Unreachable\n"
  else if code =? 5 then say "Source Route Failed\n"
  else if code =? 13 then say "Communication prohibited by filter\n"
  else [("Dest Unreachable, Bad Code: %d\n", [Num code])%string].

Definition pr_icmph (icp : nat) : outcome output :=
  ty ← of_opt (rd8 buf icp);
  code ← of_opt (rd8 buf (icp + 1));
  if ty =? 0 then Ret (say "Echo Reply\n")
  else if ty =? 3 then
    what ← (if code =? 4
            then mtu ← of_opt (rd16 buf (icp + 6)); Ret [("frag needed and DF set (MTU %d)\n", [Num mtu])%string]
            else Ret (unreach code));
    with_retip icp what
  else if ty =? 4 then with_retip icp (say "Source Quench\n")
  else if ty =? 5 then
    gw ← of_opt (read_at buf (icp + 4) 4);
    with_retip icp
      ((if code =? 0 then say "Redirect Network"
        else if code =? 1 then say "Redirect Host"
        else if code =? 2 then say "Redirect Type of Service and Network"
        else if code =? 3 then say "Redirect Type of Service and Host"
        else [("Redirect, Bad Code: %d", [Num code])%string])
       ++ [("(New addr: %s)\n", [Addr gw])%string])
  else if ty =? 8 then Ret (say "Echo Request\n")
  else if ty =? 11 then
    with_retip icp
      (if code =? 0 then say "Time to live exceeded\n"
       else if code =? 1 then say "Frag reassembly time exceeded\n"
       else [("Time exceeded, Bad Code: %d\n", [Num code])%string])
  else if ty =? 12 then
    pptr ← of_opt (rd8 buf (icp + 4));
    with_retip icp [("Parameter problem: pointer = 0x%02x\n", [Num pptr])%string]
  else if ty =? 13 then Ret (say "Timestamp\n")
  else if ty =? 14 then Ret (say "Timestamp Reply\n")
  else if ty =? 15 then Ret (say "Information Request\n")
  else if ty =? 16 then Ret (say "Information Reply\n")
  else if ty =? 17 then Ret (say "Address Mask Request\n")
  else if ty =? 18 then Ret (say "Address Mask Reply\n")
  else if ty =? 9 then Ret (say "Router Advertisement\n")
  else if ty =? 10 then Ret (say "Router Solicitation\n")
  else Ret [("Bad ICMP type: %d\n", [Num ty])%string].

End icmph.

(** ** Receiving *)

(** [out - in], where the microseconds have 32 bits. *)
Definition tvsub (out in_ : timeval) : timeval :=
  let usec := s32 (tv_usec out - tv_usec in_) in
  let '(sec, usec) := if usec <? 0 then (tv_sec out - 1, s32 (usec + 1000000)) else (tv_sec out, usec) in
  TV (sec - tv_sec in_) usec.

(** The decimal digits of "%02d", and the time of a timestamp in a buffer of
    ten characters. *)
Fixpoint digits (fuel : nat) (n : Z) : bytes :=
  match fuel with
  | O => []
  | S fuel => (if n <? 10 then [] else digits fuel (n / 10)) ++ [48 + n mod 10]
  end.
Definition two_digits (n : Z) : bytes := (if n <? 10 then [48] else []) ++ digits 10 n.
Definition pr_ntime (timestamp : bytes) : bytes :=
  let sec := be_val timestamp / 1000 in
  let hour := sec / 60 / 60 in
  let min := (sec mod (60 * 60)) / 60 in
  let sec := (sec mod (60 * 60)) mod 60 in
  take 9 (two_digits hour ++ [58] ++ two_digits min ++ [58] ++ two_digits sec).

(** The data check: the first octet that differs, with its index, the octet
    sent and the octet received. *)
Fixpoint check_data (buf out : bytes) (n : nat) (i seq_datalen : Z) (cp dp : nat) : outcome (option (Z * Z * Z)) :=
  match n with
  | O => Ret None
  | S n =>
      if i <? seq_datalen then
        c ← of_opt (buf !! cp);
        d ← of_opt (out !! dp);
        if c =? d then check_data buf out n (i + 1) seq_datalen (S cp) (S dp) else Ret (Some (i, d, c))
      else Ret None
  end.

(** The dump of [n] octets from [cp], sixteen in a line. *)
Fixpoint dump (l : bytes) (n i : nat) (cp : nat) : outcome output :=
  match n with
  | O => Ret []
  | S n =>
      c ← of_opt (l !! cp);
      o ← dump l n (S i) (S cp);
      Ret ((if (i mod 16 =? 0)%nat then [("\n\t", [])%string] else []) ++ [("%2x ", [Num c])%string] ++ o)
  end.

(** *** IP options *)

Definition IPOPT_EOL : Z := 0.
Definition IPOPT_NOP : Z := 1.
Definition IPOPT_RR : Z := 7.
Definition IPOPT_LSRR : Z := 131.
Definition IPOPT_SSRR : Z := 137.
Definition IPOPT_MINOFF : Z := 4.
Definition INADDR_LEN : Z := 4.

(** The addresses of a route, [j] octets behind [cp]: the output, [cp] and
    [hlen] afterwards. *)
Fixpoint route (fuel : nat) (buf : bytes) (cp : nat) (j hlen : Z) : outcome (output * nat * Z) :=
  match fuel with
  | O => Crash
  | S fuel =>
      ina ← of_opt (read_at buf (S cp) 4);
      let o := if be_val ina =? 0 then [("\t0.0.0.0", [])%string] else [("\t%s", [Addr ina])%string] in
      let hlen := hlen - INADDR_LEN in
      let cp := (S cp + 3)%nat in
      let j := j - INADDR_LEN in
      if j <? INADDR_LEN then Ret (o, cp, hlen)
      else '(o', cp, hlen) ← route fuel buf cp j hlen; Ret (o ++ [("\n", [])%string] ++ o', cp, hlen)
  end.

(** The end of a route option. *)
Definition pr_route (buf : bytes) (cp : nat) (j hlen : Z) (truncated : string) : PG (nat * Z) :=
  if (INADDR_LEN <=? j) && (j <=? hlen - 20) then
    '(o, cp, hlen) ← lift (route (Z.to_nat j) buf cp j hlen);
    print_all o;; mret (cp, hlen)
  else print truncated [];; mret (cp, hlen).

(** A record route option at [cp]: [cp] and [hlen] afterwards. *)
Definition pr_rr (buf : bytes) (cp : nat) (hlen : Z) : PG (nat * Z) :=
  j ← lift (of_opt (rd8 buf (cp + 1)));
  i ← lift (of_opt (rd8 buf (cp + 2)));
  let hlen := hlen - 2 in
  let cp := (cp + 2)%nat in
  let i := (if j <? i then j else i) - IPOPT_MINOFF + 1 in
  if (i <? 0) || (hlen - 20 <? i) then modify (λ p, p <| old_rrlen := 0 |>);; mret (cp, hlen)
  else
    rr ← lift (of_opt (read_at buf cp (Z.to_nat i)));
    p ← get;
    if (i =? old_rrlen p) && bool_decide (rr = take (Z.to_nat i) (old_rr p))
       && negb (truthy (Z.land (options p) F_FLOOD))
    then print "\t(same route)" [];; mret ((cp + Z.to_nat i)%nat, hlen - i)
    else if (length (old_rr p) <? Z.to_nat i)%nat then lift Crash
    else
      modify (λ p, p <| old_rrlen := i |> <| old_rr := MD5.bcopy rr (old_rr p) 0 |>);;
      print "\nRR: " [];;
      pr_route buf cp i hlen "\t(truncated route)".

(** [for (; hlen > sizeof(struct ip); --hlen, ++cp)] *)
Fixpoint pr_options (fuel : nat) (buf : bytes) (cp : nat) (hlen : Z) : PG unit :=
  match fuel with
  | O => lift Crash
  | S fuel =>
      if hlen <=? 20 then skip
      else
        c ← lift (of_opt (rd8 buf cp));
        if c =? IPOPT_EOL then skip
        else
          '(cp, hlen) ←
            (if (c =? IPOPT_LSRR) || (c =? IPOPT_SSRR) then
               print (if (c =? IPOPT_LSRR)%Z then "\nLSRR: " else "\nSSRR: ")%string [];;
               olen ← lift (of_opt (rd8 buf (cp + 1)));
               pr_route buf (cp + 2) (olen - IPOPT_MINOFF + 1) (hlen - 2) "\t(truncated route)\n"
             else if c =? IPOPT_RR then pr_rr buf cp hlen
             else if c =? IPOPT_NOP then print "\nNOP" [];; mret (cp, hlen)
             else print "\nunknown option %x" [Num c];; mret (cp, hlen));
          pr_options fuel buf (S cp) (hlen - 1)
  end.

Section receive.
(** The printed current time. *)
Context (cf : config) (currenttime : output).

(** [triptime] as a time; [timing] is cleared for a reply without a time. *)
Definition trip (buf : bytes) (icp : nat) (cc : Z) (tv : timeval) : PG timeval :=
  p ← get;
  if timing p then
    if 16 <=? u64 (cc - ICMP_MINLEN - phdr_len p) then
      let tp := (icp + Z.to_nat (8 + phdr_len p))%nat in
      sec ← lift (of_opt (rd32 buf tp));
      usec ← lift (of_opt (rd32 buf (tp + 4)));
      let tv := tvsub tv (TV sec (s32 usec)) in
      modify (λ p, p <| tmax := Z.max (tmax p) (tv_sec tv * 1000000 + tv_usec tv) |>);;
      mret tv
    else modify (λ p, p <| timing := false |>);; mret (TV 0 0)
  else mret (TV 0 0).

(** The comparison of the doubles [triptime > waittime], in microseconds. *)
Definition late (t : timeval) : bool := waittime cf * 1000 <? tv_sec t * 1000000 + tv_usec t.

(** The duplicate check of a reply with sequence number [seq]. *)
Definition count_reply (seq : Z) : PG bool :=
  dup ← TST (Z.rem seq mx_dup_ck);
  if dup : bool then
    modify (λ p, p <| nrepeats := nrepeats p + 1 |> <| nreceived := nreceived p - 1 |>);;
    mret true
  else SET (Z.rem seq mx_dup_ck);; mret false.

(** The lengths of the data and of the packet that were sent as [seq]. *)
Definition seq_lens (p : ping) (seq : Z) : outcome (Z * Z) :=
  if truthy (sweepmax p) then
    if snpackets p =? 0 then Crash
    else
      let seq_datalen := s32 (sweepmin p + Z.quot seq (snpackets p) * sweepincr p) in
      Ret (seq_datalen, s32 (icmp_len p + seq_datalen))
  else Ret (datalen p, send_len p).

(** The check of the data behind the header and the time. *)
Definition pr_data (buf : bytes) (icp : nat) (cc seq_datalen : Z) : PG unit :=
  p ← get;
  let i := if timing p then TIMEVAL_LEN else 0 in
  let off := Z.to_nat (ICMP_MINLEN + phdr_len p + i) in
  wrong ← lift (check_data buf (outpack p) (Z.to_nat (cc - (ICMP_MINLEN + phdr_len p) - i)) i seq_datalen
                  (icp + off) off);
  match wrong with
  | None => skip
  | Some (i, d, c) =>
      print "\nwrong data byte #%d should be 0x%x but was 0x%x" [Num i; Num d; Num c];;
      print "\ncp:" [];;
      o ← lift (dump buf (Z.to_nat seq_datalen) 0 (icp + 8));
      print_all o;;
      print "\ndp:" [];;
      o ← lift (dump (outpack p) (Z.to_nat seq_datalen) 0 8);
      print_all o
  end.

(** The line of a reply. *)
Definition pr_line (buf : bytes) (icp : nat) (cc recv_len : Z) (from : bytes) (t : timeval) (tc seq : Z)
    (dupflag : bool) : PG unit :=
  p ← get;
  '(seq_datalen, seq_sent_len) ← lift (seq_lens p seq);
  let has f := truthy (Z.land (options p) f) in
  (if has F_PRTIME then print_all currenttime else skip);;
  ttl ← lift (of_opt (rd8 buf 8));
  print "%d bytes from %s: icmp_seq=%u" [Num cc; Addr from; Num seq];;
  print " ttl=%d" [Num ttl];;
  (if timing p then print " time=%.3f ms" [Num (tv_sec t * 1000000 + tv_usec t)] else skip);;
  (if negb (tc =? -1) then print " tc=%d" [Num tc] else skip);;
  (if dupflag && (no_dup cf =? 0) then print " (DUP!)" [] else skip);;
  (if has F_AUDIBLE then print "\a" [] else skip);;
  (if has F_MASK then
     mask ← lift (of_opt (read_at buf (icp + 8) 4)); print " mask=%s" [Addr mask]
   else skip);;
  (if has F_TIME then
     otime ← lift (of_opt (read_at buf (icp + 8) 4));
     rtime ← lift (of_opt (read_at buf (icp + 12) 4));
     ttime ← lift (of_opt (read_at buf (icp + 16) 4));
     print " tso=%s" [Str (pr_ntime otime)];;
     print " tsr=%s" [Str (pr_ntime rtime)];;
     print " tst=%s" [Str (pr_ntime ttime)]
   else skip);;
  (if negb (recv_len =? seq_sent_len)
   then print "\nwrong total length %d instead of %d" [Num recv_len; Num seq_sent_len] else skip);;
  pr_data buf icp cc seq_datalen.

(** A reply of the expected type: [true] to go on with the IP options. *)
Definition pr_reply (buf : bytes) (icp : nat) (cc recv_len : Z) (from : bytes) (tv : timeval) (tc : Z) : PG bool :=
  id ← lift (of_opt (rd16le buf (icp + 4)));
  p ← get;
  if negb (id =? ident p) then mret false
  else
    modify (λ p, p <| nreceived := nreceived p + 1 |>);;
    t ← trip buf icp cc tv;
    seq ← lift (of_opt (rd16 buf (icp + 6)));
    dupflag ← count_reply seq;
    quiet ← opt F_QUIET;
    if quiet : bool then mret false
    else
      wait ← opt F_WAITTIME;
      if (wait && late t) then modify (λ p, p <| nrcvtimeout := nrcvtimeout p + 1 |>);; mret false
      else
        flood ← opt F_FLOOD;
        (if flood : bool then print "\b" [] else pr_line buf icp cc recv_len from t tc seq dupflag);;
        mret true.

(** Whether the quoted packet is one of ours; the operands of [&&] are read
    from left to right. *)
Definition quotes_ours (buf : bytes) (icp : nat) (p : ping) : outcome bool :=
  let oip := (icp + 8)%nat in
  let oicmp := (oip + 20)%nat in
  dst ← of_opt (read_at buf (oip + 16) 4);
  if negb (bool_decide (dst = whereto cf)) then Ret false
  else
    proto ← of_opt (rd8 buf (oip + 9));
    if negb (proto =? 1) then Ret false
    else
      ty ← of_opt (rd8 buf oicmp);
      if negb (ty =? 8) then Ret false
      else id ← of_opt (rd16le buf (oicmp + 4)); Ret (id =? ident p).

(** Another message. *)
Definition pr_other (buf : bytes) (icp : nat) (cc : Z) (from : bytes) : PG bool :=
  p ← get;
  show ← lift (if truthy (Z.land (options p) F_VERBOSE) && (uid cf =? 0) then Ret true
               else if truthy (Z.land (options p) F_QUIET2) then Ret false
               else quotes_ours buf icp p);
  if show : bool then
    (if truthy (Z.land (options p) F_PRTIME) then print_all currenttime else skip);;
    print "%d bytes from %s: " [Num cc; Addr from];;
    o ← lift (pr_icmph buf icp);
    print_all o;;
    mret true
  else mret false.

(** A packet of [cc] octets in the buffer [buf], with its IP header. *)
Definition pr_pack (buf : bytes) (cc : Z) (from : bytes) (tv : timeval) (tc : Z) : PG unit :=
  b0 ← lift (of_opt (rd8 buf 0));
  let hlen := Z.land b0 0x0f * 4 in
  if cc <? hlen + ICMP_MINLEN then
    verbose ← opt F_VERBOSE;
    if verbose : bool then print "packet too short (%d bytes) from %s" [Num cc; Addr from] else skip
  else
    let icp := Z.to_nat hlen in
    ty ← lift (of_opt (rd8 buf icp));
    more ← (if ty =? icmp_type_rsp cf then pr_reply buf icp (cc - hlen) cc from tv tc
            else pr_other buf icp (cc - hlen) from);
    if more : bool then
      pr_options 61 buf 20 hlen;;
      flood ← opt F_FLOOD;
      (if flood : bool then skip else print "\n" [])
    else skip.

(** ** The loop of [main] *)

(** What [select] reports: an error, the timeout, a message ([recvmsg] with an
    error or with [cc] octets in the packet buffer, the time of its arrival
    and its traffic class), or the signals. *)
Inductive event :=
  | SelectErr
  | Timeout
  | RecvErr
  | Message (buf : bytes) (cc : Z) (from : bytes) (tv : timeval) (tc : Z)
  | SigInt
  | SigInfo.

(** The next size of a sweep: [true] when it is done. *)
Definition sweep : PG bool :=
  p ← get;
  if truthy (sweepmax p) && (sntransmitted p =? snpackets p) then
    modify (λ p, p <| datalen := s32 (datalen p + sweepincr p) |>);;
    p ← get;
    if sweepmax p <? datalen p then mret true
    else modify (λ p, p <| send_len := s32 (icmp_len p + datalen p) |> <| sntransmitted := 0 |>);; mret false
  else mret false.

(** The next query, or after the last one the wait for its reply: [true] to
    leave the loop. *)
Definition send_or_wait (e : env) : PG bool :=
  p ← get;
  if (npackets p =? 0) || (ntransmitted p <? npackets p) then pinger e;; mret false
  else if almost_done p then mret true
  else
    modify (λ p, p <| almost_done := true |> <| intvl :=
      if truthy (nreceived p) then
        let sec := Z.quot (2 * tmax p) 1000000 in TV (if sec =? 0 then 1 else sec) 0
      else TV (Z.quot (waittime cf) 1000) (Z.rem (waittime cf) 1000 * 1000) |>);;
    mret false.

Definition note_missed : PG unit :=
  p ← get;
  if nmissedmax p <? ntransmitted p - nreceived p - 1 then
    modify (λ p, p <| nmissedmax := ntransmitted p - nreceived p - 1 |>);;
    missed ← opt F_MISSED;
    (if missed : bool then print "\a" [] else skip);;
    quiet ← opt F_QUIET;
    if quiet : bool then skip else print "Request timeout for icmp_seq %u\n" [Num (u16 (ntransmitted p - 2))]
  else skip.

(** The part of a turn for the timeout or in flood mode. *)
Definition send_turn (e : env) : PG bool :=
  swept ← sweep;
  if swept : bool then mret true
  else
    done ← send_or_wait e;
    if done : bool then mret true
    else modify (λ p, p <| last := after e |>);; note_missed;; mret false.

(** One turn: [true] to leave the loop. *)
Definition main_step (e : env) (ev : event) : PG bool :=
  match ev with
  | SelectErr | RecvErr | SigInfo => mret false
  | SigInt => mret true
  | Timeout => send_turn e
  | Message buf cc from tv tc =>
      pr_pack buf cc from tv tc;;
      p ← get;
      if (truthy (Z.land (options p) F_ONCE) && truthy (nreceived p)) ||
         (truthy (npackets p) && (npackets p <=? nreceived p))
      then mret true
      else if truthy (Z.land (options p) F_FLOOD) then send_turn e
      else mret false
  end.

(** The statistics and the exit status; those of the times are not kept. *)
Definition finish : PG Z :=
  print "\n" [];;
  print "--- %s ping statistics ---\n" [Str (hostname cf)];;
  p ← get;
  print "%ld packets transmitted, " [Num (ntransmitted p)];;
  print "%ld packets received, " [Num (nreceived p)];;
  (if truthy (nrepeats p) then print "+%ld duplicates, " [Num (nrepeats p)] else skip);;
  (if truthy (ntransmitted p) then
     if ntransmitted p <? nreceived p then print "-- somebody's printing up packets!" []
     else print "%.1f%% packet loss" [Num ((ntransmitted p - nreceived p) * 100); Num (ntransmitted p)]
   else skip);;
  (if truthy (nrcvtimeout p) then print ", %ld packets out of wait time" [Num (nrcvtimeout p)] else skip);;
  print "\n" [];;
  mret (if truthy (nreceived p) then 0 else 2).

(** The loop until a turn leaves it, then [finish] with its exit status;
    [None] when the events are used up. *)
Fixpoint main_loop (es : list (env * event)) : PG (option Z) :=
  match es with
  | [] => mret None
  | (e, ev) :: es =>
      done ← main_step e ev;
      if done : bool then status ← finish; mret (Some status) else main_loop es
  end.

(** [while (preload--) pinger()], with the answers of the kernel. *)
Fixpoint fire (n : nat) (e : nat → env) : PG unit :=
  match n with
  | O => skip
  | S k => pinger (e n);; fire k e
  end.

(** From the first query to the loop. *)
Definition start (e : nat → env) (t : timeval) : PG unit :=
  p ← get;
  (if preload cf =? 0 then pinger (e 0%nat);; skip
   else
     fire (Z.to_nat (if truthy (npackets p) && (npackets p <? preload cf) then npackets p else preload cf)) e);;
  flood ← opt F_FLOOD;
  modify (λ p, p <| last := t |> <| intvl :=
    if flood : bool then TV 0 10000
    else TV (Z.quot (interval cf) 1000) (Z.rem (interval cf) 1000 * 1000) |> <| almost_done := false |>).

(** ** Before the first query: the sizes and the contents of the packets *)

Definition IP_MAXPACKET : Z := 65535.
Definition DEFDATALEN : Z := 56.
Definition EX_USAGE : Z := 64.
Definition maxpayload (p : ping) : Z := IP_MAXPACKET - icmp_len p.

Definition set_lengths : PG unit :=
  modify (λ p, p <| icmp_len := 20 + ICMP_MINLEN + phdr_len p |>);;
  p ← get;
  if maxpayload p <? datalen p then exit EX_USAGE
  else modify (λ p, p <| send_len := icmp_len p + datalen p |>).

(** A write at an offset of [outpackhdr]. *)
Definition store (off : nat) (v : Z) (l : bytes) : outcome bytes :=
  if (off <? length l)%nat then Ret (<[off := u8 v]> l) else Crash.

(** [*datap++ = i], from [i] on. *)
Fixpoint count_up (n : nat) (i : Z) (off : nat) (l : bytes) : outcome bytes :=
  match n with
  | O => Ret l
  | S n => l ← store off i l; count_up n (i + 1) (S off) l
  end.

(** The pattern of the option -p: the numbers that [sscanf] reads. *)
Definition hexval (c : Z) : Z := if isdigit c then c - 48 else tolower c - 87.
Fixpoint sscanf_hex (n : nat) (s : bytes) : list Z :=
  match n, s with
  | O, _ | _, [] => []
  | S n, [c] => [hexval c]
  | S n, c :: d :: s => (hexval c * 16 + hexval d) :: sscanf_hex n s
  end.
Fixpoint store_all (vs : list Z) (off : nat) (l : bytes) : outcome bytes :=
  match vs with
  | [] => Ret l
  | v :: vs => l ← store off v l; store_all vs (S off) l
  end.
Fixpoint fill_loop (fuel : nat) (pat : list Z) (kk bound : Z) (off : nat) (l : bytes) : outcome bytes :=
  match fuel with
  | O => Crash
  | S fuel =>
      if kk <=? bound then
        l ← store_all pat (off + Z.to_nat kk) l;
        fill_loop fuel pat (kk + Z.of_nat (length pat)) bound off l
      else Ret l
  end.

(** Without a digit [sscanf] returns EOF, and the loop reads behind [pat]. *)
Definition fill (off : nat) (patp : bytes) : PG unit :=
  if negb (forallb isxdigit patp) then exit EX_USAGE
  else
    let pat := sscanf_hex 16 patp in
    if bool_decide (pat = []) then lift Crash
    else
      p ← get;
      l ← lift (fill_loop (Z.to_nat IP_MAXPACKET) pat 0
                  (u32 (maxpayload p - (TIMEVAL_LEN + Z.of_nat (length pat)))) off (outpackhdr p));
      modify (λ p, p <| outpackhdr := l |>);;
      quiet ← opt F_QUIET;
      if quiet : bool then skip
      else
        print "PATTERN: 0x" [];;
        print_all ((λ c, ("%02x", [Num c])%string) <$> take (length pat) (drop off l));;
        print "\n" [].

Definition set_contents : PG unit :=
  p ← get;
  let off := (IPLEN + Z.to_nat (ICMP_MINLEN + phdr_len p + TIMEVAL_LEN))%nat in
  match payload cf with
  | Some patp => fill off patp
  | None =>
      l ← lift (count_up (Z.to_nat (Z.max (datalen p) (sweepmax p) - TIMEVAL_LEN)) TIMEVAL_LEN off (outpackhdr p));
      modify (λ p, p <| outpackhdr := l |>)
  end.

Definition set_sweep : PG unit :=
  p ← get;
  if truthy (sweepmax p) then
    if sweepmax p <=? sweepmin p then exit EX_USAGE
    else if negb (datalen p =? DEFDATALEN) then exit EX_USAGE
    else
      modify (λ p, p <| snpackets := if 0 <? npackets p then npackets p else 1 |>
                     <| npackets := if 0 <? npackets p then 0 else npackets p |>
                     <| datalen := sweepmin p |> <| send_len := icmp_len p + sweepmin p |>)
  else if truthy (Z.land (options p) F_SWEEP) then exit EX_USAGE
  else skip.

Definition setup : PG unit := set_lengths;; set_contents;; set_sweep.

(** The program from the parsed options on. *)
Definition main (e : nat → env) (t : timeval) (es : list (env * event)) : PG (option Z) :=
  setup;; start e t;; main_loop es.

End receive.

(** The timeout given to [select]. *)
Fixpoint up (fuel : nat) (t : timeval) : timeval :=
  match fuel with
  | O => t
  | S fuel => if tv_usec t <? 0 then up fuel (TV (tv_sec t - 1) (tv_usec t + 1000000)) else t
  end.
Fixpoint down (fuel : nat) (t : timeval) : timeval :=
  match fuel with
  | O => t
  | S fuel => if 1000000 <=? tv_usec t then down fuel (TV (tv_sec t + 1) (tv_usec t - 1000000)) else t
  end.
Definition select_timeout (last intvl now : timeval) : timeval :=
  let t := TV (tv_sec last + tv_sec intvl - tv_sec now) (tv_usec last + tv_usec intvl - tv_usec now) in
  let t := down 4 (up 4 t) in
  if tv_sec t <? 0 then TV 0 0 else t.
