(* ===== verification/PingFun.v ===== *)
(** * PingFun: properties of ping

    Every message that [pinger] sends has a valid checksum; the counters
    implement the counting with a set (Tally.v); the buffers are not left; a
    reply to a query is accepted once; the loop ends, also for a sweep. *)

From stdpp Require Import gmap.
From S2P Require Import Prelude Timeval Stdio Md5 Cksum Tally Ping.

Definition octets : Z := 128.
Definition table_size : Z := 8 * octets.

(** ** The buffer *)

Lemma bcopy_before src buf off i : (i < off)%nat → (off <= length buf)%nat → MD5.bcopy src buf off !! i = buf !! i.
Proof.
  intros Hi Ho. unfold MD5.bcopy. rewrite lookup_app_l by (rewrite length_take; lia). by rewrite lookup_take_lt.
Qed.
Lemma bcopy_ok src buf off : bytes_ok src → bytes_ok buf → bytes_ok (MD5.bcopy src buf off).
Proof.
  intros Hs Hb. unfold MD5.bcopy. apply Forall_app. split; [by apply Forall_take|].
  apply Forall_app. split; [done|by apply Forall_drop].
Qed.

Lemma outpack_poke_icmp off src p : (IPLEN + off <= length (outpackhdr p))%nat →
  outpack (poke_icmp off src p) = MD5.bcopy src (outpack p) off.
Proof.
  intros Ho. unfold outpack, poke_icmp, poke, MD5.bcopy. cbn [outpackhdr update_field].
  rewrite drop_app_le by (rewrite length_take; lia). rewrite drop_drop.
  replace (take (IPLEN + off) (outpackhdr p)) with (take IPLEN (outpackhdr p) ++ take off (drop IPLEN (outpackhdr p)))
    by (by rewrite <- take_add).
  rewrite drop_app_length' by (rewrite length_take; lia). do 3 f_equal.
Qed.

(** What the writes keep: the length, octets in range, and the two octets of a
    checksum field that is zero. *)
Record draft (n : nat) (p : ping) : Prop := {
  d_len : length (outpackhdr p) = n;
  d_ok : bytes_ok (outpackhdr p);
  d_2 : outpack p !! 2%nat = Some 0;
  d_3 : outpack p !! 3%nat = Some 0 }.

Lemma poke_icmp_len off src p : (IPLEN + off + length src <= length (outpackhdr p))%nat →
  length (outpackhdr (poke_icmp off src p)) = length (outpackhdr p).
Proof. intros. unfold poke_icmp, poke. cbn [outpackhdr update_field]. apply MD5.length_bcopy. lia. Qed.

Lemma draft_poke n off src p : draft n p → (4 <= off)%nat → (IPLEN + off + length src <= n)%nat →
  bytes_ok src → draft n (poke_icmp off src p).
Proof.
  intros [H1 H2 H3 H4] Ho Hl Hs.
  assert (Hop : (4 <= length (outpack p))%nat) by (apply lookup_lt_Some in H4; lia).
  split.
  - rewrite poke_icmp_len by lia. done.
  - by apply bcopy_ok.
  - rewrite outpack_poke_icmp, bcopy_before by (lia || unfold outpack; rewrite length_drop; lia). done.
  - rewrite outpack_poke_icmp, bcopy_before by (lia || unfold outpack; rewrite length_drop; lia). done.
Qed.

Ltac room := unfold IPLEN in *; cbn [length be16 be32 Traceroute.le16 app] in *; lia.

(** What [pinger] needs: room for the message and for an IP header. *)
Record roomy (p : ping) : Prop := {
  r_ok : bytes_ok (outpackhdr p);
  r_type : byte_ok (icmp_type p);
  r_phdr : 0 <= phdr_len p;
  r_ftime : truthy (Z.land (options p) F_TIME) = true → 4 <= phdr_len p;
  r_datalen : 0 <= datalen p;
  r_len : 20 + icmp_cc p <= Z.of_nat (length (outpackhdr p)) <= 65556;
  r_sent : 0 <= ntransmitted p;
  r_tbl : tbl_ok octets (rcvd_tbl p) }.

Lemma seq_index k : 0 <= k → seq_ok octets (Z.rem k mx_dup_ck).
Proof. intros. unfold seq_ok, octets, mx_dup_ck, MAX_DUP_CHK. rewrite Z.rem_mod_nonneg by lia. zlia. Qed.

Lemma roomy_in_bounds p : roomy p → in_bounds p = true.
Proof.
  intros [H1 H2 H3 H4 H5 H6 H7 H8]. unfold in_bounds, icmp_cc, ICMP_MINLEN, TIMEVAL_LEN, IPLEN in *.
  rewrite (A_Some octets) by (done || by apply seq_index). rewrite bool_decide_true by done.
  repeat (apply andb_true_intro; split); try (apply Z.leb_le; lia); [done| |].
  - destruct (truthy _) eqn:E; [|done]. specialize (H4 eq_refl). apply Z.leb_le. lia.
  - destruct (8 <=? datalen p) eqn:E; [|done]. apply Z.leb_le in E. apply Z.leb_le. lia.
Qed.

Lemma compose_draft now p : roomy p →
  draft (length (outpackhdr p)) (compose now p) ∧ options (compose now p) = options p ∧
  icmp_cc (compose now p) = icmp_cc p.
Proof.
  intros [Hok Hty Hph Hft Hdl Hlen _ _]. unfold icmp_cc, ICMP_MINLEN in *. remember (length (outpackhdr p)) as n eqn:En.
  set (p1 := poke_icmp 0 [icmp_type p] p). set (p2 := poke_icmp 1 [0] p1). set (p3 := poke_icmp 2 [0; 0] p2).
  assert (L1 : length (outpackhdr p1) = n) by (unfold p1; rewrite poke_icmp_len by room; done).
  assert (L2 : length (outpackhdr p2) = n) by (unfold p2; rewrite poke_icmp_len by room; done).
  assert (L3 : length (outpackhdr p3) = n) by (unfold p3; rewrite poke_icmp_len by room; done).
  assert (B3 : bytes_ok (outpackhdr p3)).
  { repeat (apply bcopy_ok; [repeat constructor; unfold byte_ok in *; lia|]). done. }
  assert (D3 : draft n p3).
  { assert (Ho : length (take 2 (outpack p2)) = 2%nat) by (unfold outpack; rewrite length_take, length_drop; unfold IPLEN; lia).
    split; [done|done|..]; unfold p3; rewrite outpack_poke_icmp by room; unfold MD5.bcopy;
      rewrite lookup_app_r, Ho by lia; done. }
  unfold compose. fold p1. fold p2. fold p3.
  assert (D5 : draft n (poke_icmp 4 (Traceroute.le16 (ident (poke_icmp 6 (be16 (ntransmitted p3)) p3)))
                          (poke_icmp 6 (be16 (ntransmitted p3)) p3))).
  { apply draft_poke; [apply draft_poke; [done|lia|room|apply be16_ok]|lia|room|apply le16_ok]. }
  revert D5. set (p5 := poke_icmp 4 _ _). intros D5.
  assert (E5 : options p5 = options p ∧ datalen p5 = datalen p ∧ phdr_len p5 = phdr_len p) by done.
  clearbody p5. clear p1 p2 p3 L1 L2 L3 B3 D3.
  set (p7 := CLR _ p5 <| timing := _ |>).
  assert (D7 : draft n p7) by (unfold p7, CLR; destruct D5; case_match; by split).
  assert (E7 : options p7 = options p ∧ datalen p7 = datalen p ∧ phdr_len p7 = phdr_len p ∧
               timing p7 = (TIMEVAL_LEN <=? datalen p)).
  { destruct E5 as (E5o & E5d & E5p). rewrite <- E5o, <- E5d, <- E5p. unfold p7, CLR. by case_match. }
  clearbody p7. clear p5 D5 E5. destruct E7 as (E1 & E2 & E3 & E4). cbv zeta. rewrite E1.
  set (p8 := if truthy (Z.land (options p) F_TIME) then _ else p7).
  assert (D8 : draft n p8 ∧ options p8 = options p ∧ datalen p8 = datalen p ∧ phdr_len p8 = phdr_len p ∧
               timing p8 = (TIMEVAL_LEN <=? datalen p)).
  { unfold p8. destruct (truthy _) eqn:Et; [|done]. specialize (Hft eq_refl).
    split; [|done]. apply draft_poke; [done|lia|room|apply be32_ok]. }
  clearbody p8. destruct D8 as (D8 & F1 & F2 & F3 & F4). rewrite F4, F3. unfold TIMEVAL_LEN, ICMP_MINLEN in *.
  destruct (8 <=? datalen p) eqn:Ed; [|by rewrite F1, F2, F3]. split.
  - apply draft_poke; [done|lia|room|]. apply Forall_app. split; apply be32_ok.
  - cbn. by rewrite F1, F2, F3.
Qed.

Lemma poke_len off src p : (off + length src <= length (outpackhdr p))%nat →
  length (outpackhdr (poke off src p)) = length (outpackhdr p).
Proof. intros. unfold poke. cbn [outpackhdr update_field]. apply MD5.length_bcopy. lia. Qed.
Lemma outpack_poke off src p : (off + length src <= IPLEN <= length (outpackhdr p))%nat →
  outpack (poke off src p) = outpack p.
Proof.
  intros Ho. unfold outpack, poke, MD5.bcopy. cbn [outpackhdr update_field].
  rewrite (assoc_L (++)), drop_app_ge by (rewrite length_app, length_take; lia).
  rewrite drop_drop, length_app, length_take. f_equal. lia.
Qed.

Lemma message_verifies n p cc : draft n p → (8 <= cc)%nat → (IPLEN + cc <= n)%nat → Z.of_nat cc <= 65536 →
  Ping.in_cksum (take cc (MD5.bcopy (Traceroute.le16 (Ping.in_cksum (take cc (outpack p)))) (outpack p) 2)) = 0.
Proof.
  intros [H1 H2 H3 H4] Hc Hn Hs. assert (Hop : (cc <= length (outpack p))%nat) by (unfold outpack; rewrite length_drop; lia).
  assert (Hb : bytes_ok (outpack p)) by (by apply Forall_drop).
  destruct (outpack p) as [|a [|b [|c [|d o]]]]; try (simpl in Hop; lia). simpl in H3, H4. simplify_eq.
  destruct cc as [|[|[|[|cc]]]]; try lia. change (take (S (S (S (S cc)))) (a :: b :: 0 :: 0 :: o))
    with ([a; b] ++ [0; 0] ++ take cc o).
  set (ck := Ping.in_cksum ([a; b] ++ [0; 0] ++ take cc o)).
  change (take (S (S (S (S cc)))) (MD5.bcopy (Traceroute.le16 ck) (a :: b :: 0 :: 0 :: o) 2))
    with ([a; b] ++ Traceroute.le16 ck ++ take cc o).
  apply filled_verifies.
  - by exists 1%nat.
  - repeat (apply Forall_cons in Hb as [? Hb]). repeat (constructor; [done|]). by apply Forall_take.
  - unfold short. rewrite !length_app, length_take. simpl. lia.
Qed.

(** *** What else [pinger] changes *)

Definition same_but_out (p p' : ping) : Prop := ∃ o, p' = p <| outpackhdr := o |>.
Lemma poke_out off src p p' : same_but_out p p' → same_but_out p (poke off src p').
Proof. intros [o ->]. by eexists. Qed.
Lemma CLR_out k p p' : same_but_out p p' → same_but_out (CLR k p) (CLR k p').
Proof.
  intros [o ->]. exists o. unfold CLR. change (rcvd_tbl (p <| outpackhdr := o |>)) with (rcvd_tbl p).
  by destruct (A _ _).
Qed.

Lemma compose_shape t p :
  same_but_out (CLR (Z.rem (ntransmitted p) mx_dup_ck) p <| timing := TIMEVAL_LEN <=? datalen p |>) (compose t p).
Proof.
  unfold compose. set (p5 := poke_icmp 4 _ _).
  assert (H5 : same_but_out p p5) by (do 5 apply poke_out; exists (outpackhdr p); by destruct p).
  assert (E5 : ntransmitted p5 = ntransmitted p) by (by destruct H5 as [? ->]).
  rewrite E5. apply (CLR_out (Z.rem (ntransmitted p) mx_dup_ck)) in H5. revert H5.
  set (q := CLR _ p). set (q5 := CLR _ p5). intros H5.
  assert (H6 : same_but_out (q <| timing := TIMEVAL_LEN <=? datalen p |>) (q5 <| timing := TIMEVAL_LEN <=? datalen q5 |>)).
  { destruct H5 as [o ->]. exists o.
    assert (E : datalen (q <| outpackhdr := o |>) = datalen p) by (unfold q, CLR; by case_match). by rewrite E. }
  clearbody q5. clear H5. cbv zeta. set (q6 := q5 <| timing := _ |>) in *. clearbody q6.
  repeat case_match; repeat apply poke_out; done.
Qed.
Lemma checksummed_shape p : same_but_out p (checksummed p).1.
Proof.
  unfold checksummed. cbv zeta. case_match; cbn [fst]; repeat apply poke_out; exists (outpackhdr p); by destruct p.
Qed.

(** The state behind the composed message. *)
Definition composed (p : ping) (o : bytes) : ping :=
  CLR (Z.rem (ntransmitted p) mx_dup_ck) p <| timing := TIMEVAL_LEN <=? datalen p |> <| outpackhdr := o |>.
Definition counted (q : ping) : ping :=
  let q := q <| ntransmitted := ntransmitted q + 1 |> <| sntransmitted := sntransmitted q + 1 |> in
  if negb (truthy (Z.land (options q) F_QUIET)) && truthy (Z.land (options q) F_FLOOD)
  then q <| printed := printed q ++ [(".", [])] |> else q.
(** A query that is given up for want of buffers is not counted. *)
Definition given_up (e : env) (p : ping) : bool :=
  (sent_len e <? 0) && truthy (Z.land (options p) F_FLOOD) && nobufs e.

Lemma options_CLR k p : options (CLR k p) = options p.
Proof. unfold CLR. by case_match. Qed.

(** The packet that [pinger] builds. *)
Abbreviation built e p := (checksummed (compose (now e) p)).
Lemma built_composed e p : ∃ o, (built e p).1 = composed p o.
Proof.
  destruct (compose_shape (now e) p) as [o Eo]. rewrite Eo.
  destruct (checksummed_shape (composed p o)) as [o' Ec]. exists o'. exact Ec.
Qed.
Lemma options_built e p : options (built e p).1 = options p.
Proof. destruct (built_composed e p) as [o ->]. apply (options_CLR _ p). Qed.

Lemma pinger_run e p : in_bounds p = true →
  pinger e p =
    Ret (take (Z.to_nat (built e p).2)
           (if truthy (Z.land (options p) F_HDRINCL) then outpackhdr (built e p).1 else outpack (built e p).1),
         if given_up e p then (built e p).1 else counted (built e p).1).
Proof.
  intros Hb. unfold pinger. rewrite Hb. cbn [negb]. pose proof (options_built e p) as Eo.
  destruct (built e p) as [q cc]. cbn [fst snd] in *. cbv zeta. unfold given_up. rewrite Eo.
  by destruct (_ && nobufs e).
Qed.

Lemma checksummed_buffer n q :
  draft n q → 8 <= icmp_cc q → 20 + icmp_cc q <= Z.of_nat n →
  length (outpackhdr (checksummed q).1) = n ∧ bytes_ok (outpackhdr (checksummed q).1).
Proof.
  intros [Hl Hok _ _] H8 Hn. unfold checksummed. cbv zeta. set (q1 := poke_icmp 2 _ q).
  assert (L1 : length (outpackhdr q1) = n) by (unfold q1; rewrite poke_icmp_len by room; done).
  assert (B1 : bytes_ok (outpackhdr q1)) by (apply bcopy_ok; [apply le16_ok|done]).
  case_match; cbn [fst]; [|done].
  assert (L2 : ∀ v, length (outpackhdr (poke 2 (Traceroute.le16 v) q1)) = n) by (intros; rewrite poke_len by room; done).
  split.
  - rewrite poke_len; [apply L2|]. rewrite L2. room.
  - do 2 (apply bcopy_ok; [apply le16_ok|]). done.
Qed.

Lemma built_buffer e p : roomy p →
  length (outpackhdr (built e p).1) = length (outpackhdr p) ∧ bytes_ok (outpackhdr (built e p).1).
Proof.
  intros Hr. destruct (compose_draft (now e) p Hr) as (Hd & _ & Ec). destruct Hr as [_ _ Hph _ Hdl Hlen _ _].
  apply checksummed_buffer; [done|..]; rewrite Ec; unfold icmp_cc, ICMP_MINLEN in *; lia.
Qed.

(** ** Counting *)

#[export] Instance ping_counter : Counter ping := {|
  n_sent := ntransmitted; n_first := nreceived; n_dup := nrepeats; n_table := rcvd_tbl |}.
Abbreviation keeps := (pres same).
Abbreviation anytime := (λ _ : ping, True).

Lemma tst_run k p : tbl_ok octets (rcvd_tbl p) → seq_ok octets k → TST k p = Ret (bit (rcvd_tbl p) k, p).
Proof. intros Ht Hk. unfold TST. rewrite (A_Some octets) by done. by rewrite bit_test by apply Hk. Qed.
Lemma set_run k p : tbl_ok octets (rcvd_tbl p) → seq_ok octets k →
  SET k p = Ret (tt, p <| rcvd_tbl := set_A (rcvd_tbl p) k (Z.lor (rcvd_tbl p !!! Z.to_nat (k / 8)) (B k)) |>).
Proof. intros Ht Hk. unfold SET. by rewrite (A_Some octets). Qed.
Lemma clr_run k p : tbl_ok octets (rcvd_tbl p) → seq_ok octets k →
  CLR k p = p <| rcvd_tbl := set_A (rcvd_tbl p) k (Z.land (rcvd_tbl p !!! Z.to_nat (k / 8)) (u8 (Z.lnot (B k)))) |>.
Proof. intros Ht Hk. unfold CLR. by rewrite (A_Some octets). Qed.

Lemma rem_residue m : 0 <= m → Z.rem m mx_dup_ck = m mod table_size.
Proof. intros. by rewrite Z.rem_mod_nonneg by done. Qed.

Lemma opt_pres R `{!PreOrder R} f : pres R (opt f).
Proof. intros p. simpl. reflexivity. Qed.

Ltac keeps_tac :=
  repeat lazymatch goal with
    | |- pres _ (mret _) => apply pres_ret; exact _
    | |- pres _ skip => apply pres_skip; exact _
    | |- pres _ get => apply pres_get; exact _
    | |- pres _ (opt _) => apply opt_pres; exact _
    | |- pres _ (lift _) => apply pres_lift; exact _
    | |- pres _ (modify _) => apply pres_modify; intros ?; done
    | |- pres _ (print _ _) => apply pres_modify; intros ?; done
    | |- pres _ (print_all _) => apply pres_modify; intros ?; done
    | |- pres _ (_ ≫= _) => apply pres_bind; [exact _| |intros ?]
    | |- pres _ _ => case_match
    end.

(** The count of a reply, of which [nreceived] has been increased already. *)
Lemma count_effect s p a q :
  0 <= s → abs octets p a → same (p <| nreceived := nreceived p + 1 |>) q →
  on_ret (count_reply s q) (λ '(_, p'), abs octets p' (a_reply table_size s a)).
Proof.
  intros Hs Ha (E1 & E2 & E3 & E4). simpl in E1, E2, E3, E4. unfold count_reply.
  pose proof (abs_tbl _ _ _ Ha) as Ht. simpl in Ht.
  pose proof (seq_index s Hs) as Hk. rewrite (rem_residue s Hs) in *. set (k := s mod table_size) in *.
  rewrite (bind_run _ _ q _ _ (tst_run k q ltac:(by rewrite E4) Hk)). rewrite E4.
  destruct (bit (rcvd_tbl p) k) eqn:Eb.
  - rewrite modify_run. apply (abs_reply octets p); [done|done|done|]. fold table_size k. simpl. rewrite Eb, E2, E3, E4.
    split_and!; [lia|done|done].
  - rewrite (bind_run _ _ q _ _ (set_run k q ltac:(by rewrite E4) Hk)).
    apply (abs_reply octets p); [done|done|done|]. fold table_size k. simpl. by rewrite Eb, E2, E3, E4.
Qed.

Lemma be_val_nonneg l : bytes_ok l → 0 <= be_val l.
Proof.
  unfold be_val. assert (H : ∀ acc, 0 <= acc → bytes_ok l → 0 <= foldl (λ acc b, acc * 256 + b) acc l); [|by apply H].
  induction l as [|b l IH]; intros acc Ha Hl; [done|]. apply Forall_cons in Hl as [Hb Hl].
  simpl. apply IH; [unfold byte_ok in Hb; lia|done].
Qed.
Lemma rd16_nonneg buf off s : bytes_ok buf → rd16 buf off = Some s → 0 <= s.
Proof.
  unfold rd16, read_at. intros Hb. case_bool_decide; [|done]. simpl. intros [= <-].
  by apply be_val_nonneg, Forall_take, Forall_drop.
Qed.

(** *** What the printing changes *)

Definition shown (p p' : ping) : Prop :=
  ∃ o l r n, p' = p <| printed := o |> <| old_rrlen := l |> <| old_rr := r |> <| nrcvtimeout := n |>.
#[export] Instance shown_preorder : PreOrder shown.
Proof.
  split; [intros []; by do 4 eexists|]. intros p1 p2 p3 (o & l & r & n & ->) (o' & l' & r' & n' & ->). by do 4 eexists.
Qed.
Lemma shown_printed p o : shown p (p <| printed := o |>).
Proof. exists o, (old_rrlen p), (old_rr p), (nrcvtimeout p). by destruct p. Qed.
Lemma shown_rrlen p l : shown p (p <| old_rrlen := l |>).
Proof. exists (printed p), l, (old_rr p), (nrcvtimeout p). by destruct p. Qed.
Lemma shown_rr p l r : shown p (p <| old_rrlen := l |> <| old_rr := r |>).
Proof. exists (printed p), l, r, (nrcvtimeout p). by destruct p. Qed.
Lemma shown_late p n : shown p (p <| nrcvtimeout := n |>).
Proof. exists (printed p), (old_rrlen p), (old_rr p), n. by destruct p. Qed.

Ltac shown_tac :=
  repeat lazymatch goal with
    | |- pres _ (modify _) => apply pres_modify; intros ?; first [apply shown_printed|apply shown_rrlen|apply shown_rr|apply shown_late]
    | |- pres _ (print _ _) => apply pres_modify; intros ?; apply shown_printed
    | |- pres _ (print_all _) => apply pres_modify; intros ?; apply shown_printed
    | |- pres _ (mret _) => apply pres_ret; exact _
    | |- pres _ skip => apply pres_skip; exact _
    | |- pres _ get => apply pres_get; exact _
    | |- pres _ (opt _) => apply opt_pres; exact _
    | |- pres _ (lift _) => apply pres_lift; exact _
    | |- pres _ (_ ≫= _) => apply pres_bind; [exact _| |intros ?]
    | |- pres _ _ => case_match
    end.

Lemma pr_route_shown buf cp j hlen t : pres shown (pr_route buf cp j hlen t).
Proof. unfold pr_route. shown_tac. Qed.
Lemma pr_rr_shown buf cp hlen : pres shown (pr_rr buf cp hlen).
Proof. unfold pr_rr. shown_tac; apply pr_route_shown. Qed.
Lemma pr_options_shown fuel buf cp hlen : pres shown (pr_options fuel buf cp hlen).
Proof.
  revert cp hlen. induction fuel as [|fuel IH]; intros cp hlen; cbn [pr_options]; [by intros p|].
  case_match; [shown_tac|]. apply pres_bind; [exact _|shown_tac|intros c]. case_match; [shown_tac|].
  apply pres_bind; [exact _| |intros [cp' hlen']; apply IH].
  case_match; [shown_tac; apply pr_route_shown|]. case_match; [apply pr_rr_shown|shown_tac].
Qed.
Lemma shown_same p p' : shown p p' → same p p'.
Proof. by intros (o & l & r & n & ->). Qed.
Lemma pres_weaken (R R' : relation ping) {X} (m : PG X) : (∀ p p', R p p' → R' p p') → pres R m → pres R' m.
Proof. intros HR Hm p. specialize (Hm p). destruct (m p) as [[x p']| |]; simpl in *; [by apply HR|done|done]. Qed.

Section counting.
Context (cf : config) (currenttime : output).

Lemma pr_data_shown buf icp cc n : pres shown (pr_data buf icp cc n).
Proof. unfold pr_data. shown_tac. Qed.
Lemma pr_line_shown buf icp cc rl from t tc seq dup :
  pres shown (pr_line cf currenttime buf icp cc rl from t tc seq dup).
Proof.
  unfold pr_line. shown_tac; apply pr_data_shown.
Qed.
Lemma pr_other_shown buf icp cc from : pres shown (pr_other cf currenttime buf icp cc from).
Proof. unfold pr_other. shown_tac. Qed.

Lemma trip_keeps buf icp cc tv : keeps (trip buf icp cc tv).
Proof. unfold trip. keeps_tac. Qed.

(** The sequence number of a packet that counts as a reply. *)
Definition heard (p : ping) (buf : bytes) (cc : Z) : option Z :=
  b0 ← rd8 buf 0;
  let hlen := Z.land b0 0x0f * 4 in
  let icp := Z.to_nat hlen in
  if cc <? hlen + ICMP_MINLEN then None
  else
    ty ← rd8 buf icp;
    if negb (ty =? icmp_type_rsp cf) then None
    else
      id ← rd16le buf (icp + 4);
      if id =? ident p then rd16 buf (icp + 6) else None.

(** What follows the count. *)
Definition reply_tail (buf : bytes) (icp : nat) (cc rl : Z) (from : bytes) (t : timeval) (tc seq : Z) (dup : bool) : PG bool :=
  quiet ← opt F_QUIET;
  if quiet : bool then mret false
  else
    wait ← opt F_WAITTIME;
    if (wait && late cf t) then modify (λ p, p <| nrcvtimeout := nrcvtimeout p + 1 |>);; mret false
    else
      flood ← opt F_FLOOD;
      (if flood : bool then print "\b" [] else pr_line cf currenttime buf icp cc rl from t tc seq dup);;
      mret true.
Lemma reply_tail_shown buf icp cc rl from t tc seq dup : pres shown (reply_tail buf icp cc rl from t tc seq dup).
Proof. unfold reply_tail. shown_tac. apply pr_line_shown. Qed.

Lemma pr_reply_effect buf icp cc rl from tv tc id s :
  bytes_ok buf → rd16le buf (icp + 4) = Some id → rd16 buf (icp + 6) = Some s →
  effect octets (λ p, ident p = id) (pr_reply cf currenttime buf icp cc rl from tv tc) (λ _, a_reply table_size s).
Proof.
  intros Hb Hi Hs p a Hid Ha. unfold pr_reply. rewrite Hi. cbn [of_opt]. rewrite (lift_run _ _ _ _ eq_refl), get_run.
  rewrite Hid, Z.eqb_refl. cbn [negb]. rewrite modify_run. set (p1 := p <| nreceived := _ |>).
  pose proof (trip_keeps buf icp cc tv p1) as Ht. unfold mbind at 1, ST_bind at 1.
  destruct (trip buf icp cc tv p1) as [[t p2]| |]; simpl in Ht; [|done|done].
  rewrite Hs. cbn [of_opt]. rewrite (lift_run _ _ _ _ eq_refl).
  assert (H0 : 0 <= s) by (eapply rd16_nonneg; done).
  pose proof (count_effect s p a p2 H0 Ha Ht) as Hc. unfold mbind at 1, ST_bind at 1.
  destruct (count_reply s p2) as [[dup p3]| |]; simpl in Hc; [|done|done].
  pose proof (reply_tail_shown buf icp cc rl from t tc s dup p3) as Hr. unfold reply_tail in Hr.
  match goal with |- on_ret ?m _ => destruct m as [[x p4]| |] end; simpl in *; [|done|done].
  eapply abs_same; [by apply shown_same|done].
Qed.

Lemma pr_pack_counts buf cc from tv tc p a :
  bytes_ok buf → abs octets p a →
  on_ret (pr_pack cf currenttime buf cc from tv tc p) (λ '(_, p'), abs octets p' (on_heard table_size (heard p buf cc) a)).
Proof.
  intros Hb Ha. unfold pr_pack, heard. destruct (rd8 buf 0) as [b0|]; [|done].
  cbn [of_opt mbind option_bind]. rewrite (lift_run _ _ _ _ eq_refl). set (hlen := Z.land b0 0x0f * 4).
  destruct (cc <? hlen + ICMP_MINLEN).
  { apply (effect_keeps octets _ anytime); [keeps_tac|done|done]. }
  destruct (rd8 buf (Z.to_nat hlen)) as [ty|]; [|done].
  cbn [of_opt mbind option_bind]. rewrite (lift_run _ _ _ _ eq_refl).
  match goal with |- on_ret ((_ ≫= ?f) p) _ => set (k := f) end.
  assert (Hk : ∀ x, keeps (k x)).
  { intros x. apply (pres_weaken shown); [apply shown_same|]. unfold k. destruct x; [|shown_tac].
    apply pres_bind; [exact _|apply pr_options_shown|intros _; shown_tac]. }
  clearbody k. destruct (ty =? icmp_type_rsp cf) eqn:Ety; cbn [negb].
  - destruct (rd16le buf (Z.to_nat hlen + 4)) as [id|] eqn:Eid; cbn [mbind option_bind].
    2: { unfold pr_reply at 1, mbind, ST_bind. by rewrite Eid. }
    destruct (id =? ident p) eqn:Ei.
    + apply Z.eqb_eq in Ei. destruct (rd16 buf (Z.to_nat hlen + 6)) as [s|] eqn:Es.
      * apply (effect_then_keeps octets (λ p, ident p = id)); [by apply pr_reply_effect|done|done|done].
      * unfold pr_reply. rewrite Eid. cbn [of_opt]. unfold mbind at 1, ST_bind at 1.
        rewrite (lift_run _ _ _ _ eq_refl), get_run, Ei, Z.eqb_refl. cbn [negb]. rewrite modify_run.
        unfold mbind at 1, ST_bind at 1. destruct (trip _ _ _ _ _) as [[t p2]| |]; [|done|done]. by rewrite Es.
    + assert (Er : pr_reply cf currenttime buf (Z.to_nat hlen) (cc - hlen) cc from tv tc p = Ret (false, p)).
      { unfold pr_reply. rewrite Eid. cbn [of_opt]. rewrite (lift_run _ _ _ _ eq_refl), get_run. by rewrite Ei. }
      rewrite (bind_run _ _ _ _ _ Er). by apply (effect_keeps octets _ anytime).
  - apply (effect_keeps octets _ anytime); [|done|done]. apply pres_bind; [exact _| |done].
    apply (pres_weaken shown); [apply shown_same|apply pr_other_shown].
Qed.

(** *** Turns *)

(** The kernel takes the query, or reports another error than the want of
    buffers. *)
Definition env_ok (e : env) : Prop := sent_len e < 0 → nobufs e = false.
Abbreviation count_ok := (λ n : Z, 0 <= n).
Abbreviation pturn := (turn octets count_ok).

Lemma given_up_ok e p : env_ok e → given_up e p = false.
Proof.
  intros He. unfold given_up. destruct (sent_len e <? 0) eqn:E; [|done]. rewrite He by lia. apply andb_false_r.
Qed.

Lemma pinger_abs e p a : env_ok e → 0 <= ntransmitted p → abs octets p a →
  on_ret (pinger e p) (λ '(_, p'), abs octets p' (a_send table_size a)).
Proof.
  intros He Hp Ha. destruct (in_bounds p) eqn:Eb; [|unfold pinger; by rewrite Eb].
  rewrite (pinger_run e p Eb). destruct (built_composed e p) as [o ->]. simpl. rewrite given_up_ok by done.
  assert (Ec : CLR (Z.rem (ntransmitted p) mx_dup_ck) p = _) by
    (apply clr_run; [apply (abs_tbl _ _ _ Ha)|by apply seq_index]).
  unfold composed. rewrite Ec, rem_residue by done. unfold counted.
  apply (abs_send octets p); [done|done|done|..]; by case_match.
Qed.
Lemma pinger_sends e : env_ok e → pturn (pinger e) id.
Proof.
  intros He p a Hp Ha. pose proof (pinger_abs e p a He Hp Ha) as H.
  destruct (pinger e p) as [[sent p']| |]; simpl in *; [|done|done]. by exists true.
Qed.

Lemma sweep_keeps : keeps sweep.
Proof. unfold sweep. keeps_tac. Qed.

Lemma send_turn_sends e : env_ok e → pturn (send_turn cf e) id.
Proof.
  intros He. unfold send_turn, send_or_wait, note_missed. apply turn_after_keeps; [apply sweep_keeps|]. intros [].
  { apply turn_keeps. keeps_tac. }
  apply turn_then_keeps; [|intros ?; keeps_tac].
  apply turn_after_keeps; [keeps_tac|]. intros p0.
  case_match; [apply turn_then_keeps; [by apply pinger_sends|intros ?; keeps_tac]|]. apply turn_keeps. keeps_tac.
Qed.

Definition heard_event (p : ping) (ev : event) : option Z :=
  match ev with Message buf cc _ _ _ => heard p buf cc | _ => None end.
Definition octets_ok (ev : event) : Prop :=
  match ev with Message buf _ _ _ _ => bytes_ok buf | _ => True end.

Lemma main_step_counts e ev p a :
  env_ok e → octets_ok ev → 0 <= ntransmitted p → abs octets p a →
  on_ret (main_step cf currenttime e ev p)
    (λ '(_, p'), ∃ sent, abs octets p' (sends table_size sent (on_heard table_size (heard_event p ev) a))).
Proof.
  intros He Hev Hp Ha. destruct ev as [| | |buf cc from tv tc| |]; simpl; try solve [by exists false].
  - by apply (send_turn_sends e He).
  - pose proof (pr_pack_counts buf cc from tv tc p a Hev Ha) as Hk. unfold mbind at 1, ST_bind at 1.
    destruct (pr_pack _ _ _ _ _ _ _ _) as [[[] p1]| |]; simpl in Hk; [|done|done].
    rewrite get_run. case_match; [by exists false|]. case_match; [|by exists false].
    apply (send_turn_sends e He); [|done]. unfold sendable. simpl.
    pose proof (abs_sent _ _ _ Hk) as E1. pose proof (abs_sent _ _ _ Ha) as E2. simpl in E1, E2.
    rewrite E1, on_heard_sent, <- E2. done.
Qed.

(** *** A network that answers only what was sent *)

Definition answers (p : ping) (ev : event) : Prop :=
  match heard_event p ev with
  | Some s => ∃ k, 0 <= k < ntransmitted p ∧ s = k mod 65536
  | None => True
  end.
(** The states reached by queries before the loop and by turns of the loop. *)
Inductive reachable (p0 : ping) : ping → Prop :=
  | reach_start : reachable p0 p0
  | reach_query p e sent p' : reachable p0 p → env_ok e → pinger e p = Ret (sent, p') → reachable p0 p'
  | reach_turn p e ev b p' :
      reachable p0 p → env_ok e → octets_ok ev → answers p ev →
      main_step cf currenttime e ev p = Ret (b, p') → reachable p0 p'.

Definition fresh_start (p : ping) : Prop :=
  ntransmitted p = 0 ∧ nreceived p = 0 ∧ nrepeats p = 0 ∧ rcvd_tbl p = replicate (Z.to_nat octets) 0.

Lemma reachable_counts p0 p : fresh_start p0 → reachable p0 p → ∃ a, abs octets p a ∧ tally_ok table_size a.
Proof.
  intros H0. induction 1 as [|p e sent p' Hr IH He Hstep|p e ev b p' Hr IH He Hev Hans Hstep].
  - exists (Tally 0 0 0 ∅). split; [|by apply tally_start].
    destruct H0 as (H1 & H2 & H3 & H4). by apply abs_start.
  - destruct IH as (a & Ha & Hok).
    assert (Hp : sendable count_ok p) by (unfold sendable; rewrite (abs_sent _ _ _ Ha); apply Hok).
    pose proof (pinger_sends e He p a Hp Ha) as Ht. rewrite Hstep in Ht. destruct Ht as [sent' Ht].
    exists (sends table_size sent' a). split; [done|]. destruct sent'; [by apply (tally_send table_size)|done].
  - destruct IH as (a & Ha & Hok).
    assert (Hp : 0 <= ntransmitted p) by (change (ntransmitted p) with (n_sent p); rewrite (abs_sent _ _ _ Ha); apply Hok).
    pose proof (main_step_counts e ev p a He Hev Hp Ha) as Ht. rewrite Hstep in Ht. destruct Ht as [sent Ht].
    exists (sends table_size sent (on_heard table_size (heard_event p ev) a)). split; [done|].
    assert (Hh : tally_ok table_size (on_heard table_size (heard_event p ev) a)).
    { unfold answers in Hans. destruct (heard_event p ev) as [s|]; [|done]. simpl. apply tally_reply; [done|done|].
      destruct Hans as (k & Hk & ->). apply (sent_residue table_size eq_refl _ _ _ 64); [|done|done].
      rewrite <- (abs_sent _ _ _ Ha). done. }
    destruct sent; [by apply (tally_send table_size)|done].
Qed.

End counting.

(** ** The properties *)

(** every ICMP message that [pinger] hands to the kernel has the length
    asked for and a valid checksum, also behind an IP header of its own. *)
Lemma pinger_checksum (e : env) (p : ping) :
  roomy p →
  returns (pinger e p) (λ '(sent, _),
    let hdr := if truthy (Z.land (options p) F_HDRINCL) then IPLEN else 0%nat in
    Z.of_nat (length sent) = Z.of_nat hdr + icmp_cc p ∧ Ping.in_cksum (drop hdr sent) = 0).
Proof.
  intros Hr. rewrite (pinger_run e p (roomy_in_bounds p Hr)). cbn [returns].
  destruct (compose_draft (now e) p Hr) as (Hd & Eo & Ec). destruct Hr as [_ _ Hph _ Hdl Hlen _ _].
  unfold checksummed. rewrite Ec. set (q := compose (now e) p) in *.
  set (cc := Z.to_nat (icmp_cc p)). unfold icmp_cc, ICMP_MINLEN in Hlen. pose proof (d_len _ _ Hd) as Hq.
  assert (Hcc : Z.of_nat cc = icmp_cc p ∧ (8 <= cc)%nat ∧ (IPLEN + cc <= length (outpackhdr p))%nat ∧ Z.of_nat cc <= 65536)
    by (unfold cc, icmp_cc, ICMP_MINLEN, IPLEN; lia).
  destruct Hcc as (Ecc & H8 & Hroom & H64). pose proof (message_verifies _ q cc Hd H8 Hroom H64) as Hv.
  set (ck := Traceroute.le16 _) in *. set (q1 := poke_icmp 2 ck q).
  assert (Eq1 : outpack q1 = MD5.bcopy ck (outpack q) 2) by (apply outpack_poke_icmp; unfold IPLEN in *; lia).
  assert (Lq1 : length (outpackhdr q1) = length (outpackhdr p))
    by (unfold q1; rewrite poke_icmp_len by (simpl; unfold IPLEN in *; lia); done).
  rewrite <- Eq1 in Hv. change (options q1) with (options q). rewrite Eo.
  destruct (truthy (Z.land (options p) F_HDRINCL)) eqn:Eh; cbv zeta; cbn [fst snd].
  - set (q3 := poke 10 _ _).
    assert (L2 : length (outpackhdr (poke 2 (Traceroute.le16 (icmp_cc p + 20)) q1)) = length (outpackhdr p))
      by (rewrite poke_len by room; done).
    assert (Lq3 : length (outpackhdr q3) = length (outpackhdr p)) by (unfold q3; rewrite poke_len by room; exact L2).
    assert (Eq3 : outpack q3 = outpack q1) by (unfold q3; rewrite !outpack_poke by room; done).
    assert (Ev : drop IPLEN (take (Z.to_nat (icmp_cc p + 20)) (outpackhdr q3)) = take cc (outpack q3)).
    { unfold outpack. rewrite take_drop_commute. do 2 f_equal. unfold IPLEN, cc. unfold icmp_cc, ICMP_MINLEN. lia. }
    rewrite Ev, Eq3. split; [|exact Hv]. rewrite length_take, Lq3. unfold icmp_cc, ICMP_MINLEN, IPLEN in *. lia.
  - rewrite drop_0. split; [|exact Hv]. rewrite length_take. unfold outpack. rewrite length_drop, Lq1. lia.
Qed.


(** when the network answers only queries that were sent, the number of
    received packets never exceeds the number of transmitted ones, so that the
    packet loss that [finish] prints is a percentage. *)
Lemma ping_counts (cf : config) (currenttime : output) (p0 p : ping) :
  fresh_start p0 → reachable cf currenttime p0 p → 0 <= nreceived p <= ntransmitted p.
Proof.
  intros H0 Hr. destruct (reachable_counts cf currenttime p0 p H0 Hr) as (a & Ha & Hok).
  change (0 <= n_first p <= n_sent p). rewrite (abs_first _ _ _ Ha), (abs_sent _ _ _ Ha). by apply (tally_counts table_size).
Qed.

(** *** Samples *)

Definition sample_ping (opts npk swm dl : Z) (hdr : bytes) : ping :=
  PingSt opts npk 0 0 0 0 0 1 0 swm 0 1 dl 0 28 (28 + dl) 8 0x1234 false hdr (replicate 128 0) 0 (replicate 40 0)
    false (TV 1 0) (TV 0 0) 0 [].
Definition sample_cf : config := Config 0 0 [10; 0; 0; 1] 10000 1000 0 0 None [104].
Definition sample_env : env := Env (TV 5 9) 84 false (TV 6 0).

Lemma pinger_checksum_witness :
  let p := sample_ping F_HDRINCL 0 0 56 (replicate 200 0xa5) in
  returns (pinger sample_env p) (λ '(sent, _), Ping.in_cksum (drop 20 sent) = 0).
Proof.
  cbv zeta. set (p := sample_ping _ _ _ _ _).
  assert (H : roomy p).
  { split; [apply Forall_replicate; unfold byte_ok; lia|unfold byte_ok; simpl; lia|done|done|done|
      unfold icmp_cc, ICMP_MINLEN; simpl; lia|done|done]. }
  pose proof (pinger_checksum sample_env p H) as H'. revert H'. apply returns_impl. intros [sent p'] [_ H']. exact H'.
Defined.
Lemma ping_counts_witness :
  let p := sample_ping 0 0 0 56 (replicate 200 0xa5) in
  ∃ p', pinger sample_env p = Ret p' ∧ 0 <= nreceived p'.2 <= ntransmitted p'.2.
Proof.
  cbv zeta. set (p := sample_ping _ _ _ _ _).
  destruct (pinger sample_env p) as [[sent p']| |] eqn:E; [|vm_compute in E; discriminate..].
  exists (sent, p'). split; [done|]. apply (ping_counts sample_cf [] p p'); [by repeat split|].
  by eapply reach_query; [apply reach_start| |exact E].
Defined.
