(* ===== verification/PingSafe.v ===== *)
(** * PingSafe: ping stays inside its buffers, and its loop ends

    From the parsed options on: the set-up fills the packet buffer, [pinger]
    and [pr_pack] read and write inside the buffers for every packet that the
    kernel delivers, and the loop of [main] ends after the last query or the
    last size of a sweep. *)

From stdpp Require Import gmap.
From S2P Require Import Prelude Timeval Stdio Md5 Cksum Tally Ping PingFun.

(** ** The invariant *)

(** What the loop does not change. *)
Definition fixed (p p' : ping) : Prop :=
  options p' = options p ∧ npackets p' = npackets p ∧ phdr_len p' = phdr_len p ∧ icmp_len p' = icmp_len p ∧
  icmp_type p' = icmp_type p ∧ ident p' = ident p ∧ snpackets p' = snpackets p ∧ sweepmax p' = sweepmax p ∧
  sweepmin p' = sweepmin p ∧ sweepincr p' = sweepincr p ∧
  (sweepmax p = 0 → datalen p' = datalen p ∧ send_len p' = send_len p).
#[export] Instance fixed_preorder : PreOrder fixed.
Proof.
  split; [by intros p; repeat split|]. unfold fixed.
  intros p1 p2 p3 (A1 & A2 & A3 & A4 & A5 & A6 & A7 & A8 & A9 & A10 & A11) (B1 & B2 & B3 & B4 & B5 & B6 & B7 & B8 & B9 & B10 & B11).
  split_and!; try congruence. intros E. destruct (A11 E), B11; [congruence|]. split; congruence.
Qed.

(** The sizes of the buffers, and of the messages. *)
Definition fine (p : ping) : Prop :=
  bytes_ok (outpackhdr p) ∧ Z.of_nat (length (outpackhdr p)) = IP_MAXPACKET ∧
  tbl_ok octets (rcvd_tbl p) ∧ 0 <= ntransmitted p ∧ byte_ok (icmp_type p) ∧ 0 <= phdr_len p <= 12 ∧
  (truthy (Z.land (options p) F_TIME) = true → 4 <= phdr_len p) ∧
  0 <= datalen p ∧ icmp_cc p <= IP_MAXPACKET - 20 ∧ length (old_rr p) = MAX_IPOPTLEN ∧
  (sweepmax p ≠ 0 → 0 <= sweepincr p < 2 ^ 30 ∧ sweepmax p <= IP_MAXPACKET - 28 - phdr_len p).

Lemma outpack_length p : fine p → Z.of_nat (length (outpack p)) = IP_MAXPACKET - 20.
Proof. intros (_ & H & _). unfold outpack, IPLEN. rewrite length_drop. unfold IP_MAXPACKET in *. lia. Qed.

Lemma fine_roomy p : fine p → roomy p.
Proof.
  intros (H1 & H2 & H3 & H4 & H5 & H6 & H7 & H8 & H9 & H10 & H11). unfold IP_MAXPACKET in *.
  split; try done; lia.
Qed.

Ltac pre_tac :=
  repeat lazymatch goal with
    | |- total _ (mret _) => apply total_ret
    | |- total _ skip => apply total_skip
    | |- total _ get => apply total_get
    | |- total _ (opt _) => intros ? Hpre; exact Hpre
    | |- total _ (lift (Ret _)) => intros ? Hpre; exact Hpre
    | |- total _ (modify _) => apply total_modify; intros ? Hpre; exact Hpre
    | |- total _ (print _ _) => apply total_modify; intros ? Hpre; exact Hpre
    | |- total _ (print_all _) => apply total_modify; intros ? Hpre; exact Hpre
    | |- total _ (get ≫= _) => apply total_get_bind; intros ? ?
    | |- total _ (_ ≫= _) => apply total_bind; [|intros ?]
    | |- total _ _ => case_match
    end.

Section run.
Context (p0 : ping).
Definition Pre (p : ping) : Prop := fine p ∧ fixed p0 p.

(** ** Sending *)

Lemma pinger_pre e : total Pre (pinger e).
Proof.
  intros p [Hf Hx]. pose proof (fine_roomy p Hf) as Hr. rewrite (pinger_run e p (roomy_in_bounds p Hr)). cbn [returns].
  destruct (built_buffer e p Hr) as [Hl Hb]. destruct (built_composed e p) as [o Eo]. rewrite Eo in *. clear Eo.
  assert (Ho : outpackhdr (composed p o) = o) by (by destruct p). rewrite Ho in *.
  destruct Hf as (H1 & H2 & H3 & H4 & H5 & H6 & H7 & H8 & H9 & H10 & H11).
  assert (Ec : CLR (Z.rem (ntransmitted p) mx_dup_ck) p = _) by (apply clr_run; [done|by apply seq_index]).
  assert (Hc : Pre (composed p o)).
  { unfold composed. rewrite Ec. split; [|exact Hx].
    split_and!; simpl; try done; try lia. by apply set_A_ok. }
  case_match; [done|]. clear - Hc. revert Hc. generalize (composed p o). clear p o. intros q [Hq Hx].
  unfold counted. assert (H' : fine (q <| ntransmitted := ntransmitted q + 1 |> <| sntransmitted := sntransmitted q + 1 |>)).
  { destruct Hq as (H1 & H2 & H3 & H4 & H5). refine (conj H1 (conj H2 (conj H3 (conj _ H5)))). simpl. lia. }
  case_match; (split; [exact H'|exact Hx]).
Qed.

(** The last size of a sweep is followed by the end of the loop. *)
Definition going (b : bool) (p : ping) : Prop := b = false → Pre p.

Lemma sweep_pre : triple Pre sweep going.
Proof.
  intros p [Hf Hx]. unfold sweep. rewrite get_run. destruct (truthy (sweepmax p) && _) eqn:E; [|by intros _].
  apply andb_prop in E as [E1 _]. assert (Hw : sweepmax p ≠ 0) by (intros E0; rewrite E0 in E1; done).
  pose proof Hf as (H1 & H2 & H3 & H4 & H5 & H6 & H7 & H8 & H9 & H10 & H11).
  destruct (H11 Hw) as [Hi Hm]. unfold icmp_cc, ICMP_MINLEN, IP_MAXPACKET in *.
  assert (Es : s32 (datalen p + sweepincr p) = datalen p + sweepincr p) by (unfold s32; zlia).
  rewrite modify_run, get_run, Es. cbn [sweepmax datalen update_field]. case_match eqn:E2; [done|]. apply Z.ltb_ge in E2.
  rewrite modify_run. intros _. split.
  - split_and!; unfold icmp_cc, ICMP_MINLEN, IP_MAXPACKET; simpl; try done; lia.
  - destruct Hx as (X1 & X2 & X3 & X4 & X5 & X6 & X7 & X8 & X9 & X10 & X11).
    split_and!; try done. intros Ew. exfalso. apply Hw. by rewrite X8.
Qed.

Context (cf : config) (currenttime : output).

Lemma send_or_wait_pre e : total Pre (send_or_wait cf e).
Proof. unfold send_or_wait. pre_tac. apply pinger_pre. Qed.
Lemma note_missed_pre : total Pre note_missed.
Proof. unfold note_missed. pre_tac. Qed.
Lemma send_turn_pre e : triple Pre (send_turn cf e) going.
Proof.
  unfold send_turn. apply (triple_bind _ _ going); [apply sweep_pre|]. intros []; [by intros p _|].
  intros p Hp. specialize (Hp eq_refl). revert p Hp. change (triple Pre (done ← send_or_wait cf e;
    if done : bool then mret true else modify (λ p, p <| last := after e |>);; note_missed;; mret false) going).
  apply (triple_bind _ _ (λ _, Pre)); [apply send_or_wait_pre|]. intros []; [by intros p _|].
  eapply triple_weaken; [|done|by intros ? ? H _; exact H].
  change (total Pre (modify (λ p, p <| last := after e |>);; note_missed;; mret false)). pre_tac. apply note_missed_pre.
Qed.

(** ** Receiving *)

(** The packet buffer holds the largest packet. *)
Context (buf : bytes) (Hbuf : bytes_ok buf) (Hsize : Z.of_nat (length buf) = IP_MAXPACKET).

Ltac inside := unfold IP_MAXPACKET in *; lia.

Lemma option_octets_returns n cp : Z.of_nat (cp + n) <= IP_MAXPACKET → ∃ o, option_octets buf n cp = Ret o.
Proof.
  revert cp. induction n as [|n IH]; intros cp H; simpl; [eauto|].
  destruct (rd8_returns buf cp Hbuf ltac:(inside)) as (c & -> & _). cbn [of_opt mbind outcome_bind].
  destruct (IH (S cp) ltac:(lia)) as [o ->]. eauto.
Qed.
Lemma nibble b : 0 <= Z.land b 0x0f < 16.
Proof. change 0x0f with (Z.ones 4). rewrite Z.land_ones by lia. pose proof (Z.mod_pos_bound b (2 ^ 4) eq_refl). lia. Qed.
Lemma pr_iph_returns ip : Z.of_nat ip <= 1000 → ∃ o, pr_iph buf ip = Ret o.
Proof.
  intros H. unfold pr_iph. destruct (read_returns buf ip 20 ltac:(inside)) as [h ->]. cbn [of_opt mbind outcome_bind].
  pose proof (nibble (h !!! 0%nat)).
  edestruct option_octets_returns as [o ->]; [|cbn [mbind outcome_bind]; eauto]. inside.
Qed.
Lemma rd16_returns off : Z.of_nat off + 2 <= IP_MAXPACKET → ∃ v, rd16 buf off = Some v.
Proof. intros H. unfold rd16. destruct (read_returns buf off 2 ltac:(inside)) as [v ->]. by eexists. Qed.
Lemma rd32_returns off : Z.of_nat off + 4 <= IP_MAXPACKET → ∃ v, rd32 buf off = Some v.
Proof. intros H. unfold rd32. destruct (read_returns buf off 4 ltac:(inside)) as [v ->]. by eexists. Qed.
Lemma rd16le_returns off : Z.of_nat off + 2 <= IP_MAXPACKET → ∃ v, rd16le buf off = Some v.
Proof. intros H. unfold rd16le. destruct (read_returns buf off 2 ltac:(inside)) as [v ->]. by eexists. Qed.

Lemma retip_returns ip : Z.of_nat ip <= 1000 → ∃ o, pr_retip buf ip = Ret o.
Proof.
  intros H. unfold pr_retip. destruct (pr_iph_returns ip H) as [o ->]. cbn [mbind outcome_bind].
  destruct (rd8_returns buf ip Hbuf ltac:(inside)) as (b0 & -> & _).
  destruct (rd8_returns buf (ip + 9) Hbuf ltac:(inside)) as (pr & -> & _). cbn [of_opt mbind outcome_bind].
  case_match; [|eauto]. pose proof (nibble b0).
  destruct (rd16_returns (ip + Z.to_nat (Z.land b0 0x0f * 4)) ltac:(inside)) as [w0 ->].
  destruct (rd16_returns (ip + Z.to_nat (Z.land b0 0x0f * 4) + 2) ltac:(inside)) as [w1 ->].
  cbn [of_opt mbind outcome_bind]. eauto.
Qed.
Lemma with_retip_returns icp o : Z.of_nat icp <= 60 → ∃ o', with_retip buf icp o = Ret o'.
Proof. intros H. unfold with_retip. destruct (retip_returns (icp + 8) ltac:(lia)) as [r ->]. eauto. Qed.
Lemma icmph_returns icp : Z.of_nat icp <= 60 → ∃ o, pr_icmph buf icp = Ret o.
Proof.
  intros H. unfold pr_icmph.
  destruct (rd8_returns buf icp Hbuf ltac:(inside)) as (ty & -> & _).
  destruct (rd8_returns buf (icp + 1) Hbuf ltac:(inside)) as (code & -> & _). cbn [of_opt mbind outcome_bind].
  destruct (rd16_returns (icp + 6) ltac:(inside)) as [mtu ->].
  destruct (read_returns buf (icp + 4) 4 ltac:(inside)) as [gw ->].
  destruct (rd8_returns buf (icp + 4) Hbuf ltac:(inside)) as (pp & -> & _). cbn [of_opt mbind outcome_bind].
  repeat (case_match; [first [by eauto | by apply with_retip_returns |
    (case_match; cbn [mbind outcome_bind]; by apply with_retip_returns)]|]). eauto.
Qed.

(** *** Options *)

Lemma read_at_length (l : bytes) off n v : read_at l off n = Some v → length v = n.
Proof.
  unfold read_at. case_bool_decide; [|done]. intros [= <-]. rewrite length_take, length_drop. lia.
Qed.

(** The position and the rest of the header move together. *)
Definition moved (cp : nat) (hlen : Z) (r : nat * Z) : Prop :=
  Z.of_nat r.1 + r.2 = Z.of_nat cp + hlen ∧ (cp <= r.1)%nat.

Lemma route_returns fuel cp j hlen :
  (Z.to_nat j <= fuel)%nat → 4 <= j → Z.of_nat cp + j <= 300 →
  returns (route fuel buf cp j hlen) (λ '(_, cp', hlen'), moved cp hlen (cp', hlen')).
Proof.
  unfold moved. revert cp j hlen. induction fuel as [|fuel IH]; intros cp j hlen Hf Hj Hc; [lia|]. cbn [route].
  destruct (read_returns buf (S cp) 4 ltac:(inside)) as [ina ->]. cbn [of_opt mbind outcome_bind]. unfold INADDR_LEN in *.
  case_match eqn:E; [simpl; lia|]. apply Z.ltb_ge in E.
  apply (returns_bind _ _ _ _ (IH (S cp + 3)%nat (j - 4) (hlen - 4) ltac:(lia) E ltac:(lia))).
  intros [[o cp'] hlen'] [H1 H2]. simpl in *. lia.
Qed.

Lemma triple_print f args (P : Prop) {X} (x : X) : P →
  triple Pre (print f args;; mret x) (λ y p, Pre p ∧ P ∧ y = x).
Proof. intros HP p Hp. split_and!; [exact Hp|done|done]. Qed.

Lemma pr_route_pre cp j hlen t : hlen <= 60 → Z.of_nat cp <= 100 →
  triple Pre (pr_route buf cp j hlen t) (λ r p, Pre p ∧ moved cp hlen r).
Proof.
  intros Hh Hc p Hp. unfold pr_route. case_match eqn:E.
  - apply andb_prop in E as [E1 E2]. unfold INADDR_LEN in E1.
    pose proof (route_returns (Z.to_nat j) cp j hlen ltac:(lia) ltac:(lia) ltac:(lia)) as Hr.
    destruct (route _ _ _ _ _) as [[[o cp'] hlen']| |] eqn:Er; simpl in Hr; [|done|done].
    rewrite (lift_run _ _ _ _ eq_refl). simpl. split; [exact Hp|done].
  - simpl. split; [exact Hp|]. unfold moved. simpl. lia.
Qed.

Lemma pr_rr_pre cp hlen : (20 <= cp)%nat → 20 < hlen → Z.of_nat cp + hlen <= 80 →
  triple Pre (pr_rr buf cp hlen) (λ r p, Pre p ∧ moved cp hlen r).
Proof.
  intros Hc Hh Hs p Hp. unfold pr_rr.
  destruct (rd8_returns buf (cp + 1) Hbuf ltac:(inside)) as (j & -> & _).
  destruct (rd8_returns buf (cp + 2) Hbuf ltac:(inside)) as (i & -> & _).
  cbn [of_opt]. rewrite !(lift_run _ _ _ _ eq_refl). set (n := _ - IPOPT_MINOFF + 1). clearbody n.
  destruct ((n <? 0) || _) eqn:E.
  { simpl. split; [exact Hp|]. unfold moved. simpl. lia. }
  apply orb_false_elim in E as [E1 E2].
  destruct (read_returns buf (cp + 2) (Z.to_nat n) ltac:(inside)) as [rr Er]. rewrite Er. cbn [of_opt].
  rewrite (lift_run _ _ _ _ eq_refl), get_run. case_match.
  { simpl. split; [exact Hp|]. unfold moved. simpl. lia. }
  apply read_at_length in Er as Hl.
  destruct Hp as [Hf Hx]. pose proof Hf as (H1 & H2 & H3 & H4 & H5 & H6 & H7 & H8 & H9 & H10 & H11).
  unfold MAX_IPOPTLEN in H10. rewrite (proj2 (Nat.ltb_ge _ _)) by lia. rewrite modify_run.
  unfold print at 1. rewrite modify_run.
  match goal with |- returns (_ ?q) _ => assert (Hq : Pre q) end.
  { split; [|exact Hx]. refine (conj H1 (conj H2 (conj H3 (conj H4 (conj H5 (conj H6 (conj H7 (conj H8 (conj H9 (conj _ H11)))))))))).
    change (length (MD5.bcopy rr (old_rr p) 0) = 40%nat). rewrite MD5.length_bcopy; lia. }
  pose proof (pr_route_pre (cp + 2) n (hlen - 2) "\t(truncated route)" ltac:(lia) ltac:(lia) _ Hq) as Hr.
  revert Hr. apply returns_impl. intros [r q] [Hq' Hm]. split; [done|]. unfold moved in *. lia.
Qed.

Lemma pr_options_pre fuel cp hlen :
  Z.max 0 (hlen - 20) < Z.of_nat fuel → (20 <= cp)%nat → Z.of_nat cp + hlen <= 80 →
  total Pre (pr_options fuel buf cp hlen).
Proof.
  revert cp hlen. induction fuel as [|fuel IH]; intros cp hlen Hf Hc Hs; cbn [pr_options]; [lia|].
  case_match eqn:Eh; [pre_tac|]. apply Z.leb_gt in Eh.
  destruct (rd8_returns buf cp Hbuf ltac:(inside)) as (c & -> & _).
  apply (total_lift_bind _ _ c); [done|]. case_match; [pre_tac|].
  apply (triple_bind _ _ (λ r p, Pre p ∧ moved cp hlen r)).
  - case_match; [|case_match; [by apply pr_rr_pre|]].
    + apply (triple_bind _ _ (λ _, Pre)); [intros p Hp; exact Hp|intros _].
      destruct (rd8_returns buf (cp + 1) Hbuf ltac:(inside)) as (olen & -> & _).
      intros p Hp. cbn [of_opt]. rewrite (lift_run _ _ _ _ eq_refl).
      pose proof (pr_route_pre (cp + 2) (olen - IPOPT_MINOFF + 1) (hlen - 2) "\t(truncated route)\n" ltac:(lia) ltac:(lia) _ Hp) as Hr.
      revert Hr. apply returns_impl. intros [r q] [Hq' Hm]. split; [done|]. unfold moved in *. lia.
    + case_match; intros p Hp; (split; [exact Hp|unfold moved; simpl; lia]).
  - intros [cp' hlen'] p [Hp Hm]. unfold moved in Hm. simpl in Hm.
    apply IH; [lia|lia|lia|exact Hp].
Qed.

(** *** Data *)

Lemma check_data_inside out n i d cp dp :
  (cp + n <= length buf)%nat → (dp + n <= length out)%nat → ∃ r, check_data buf out n i d cp dp = Ret r.
Proof.
  revert i cp dp. induction n as [|n IH]; intros i cp dp H1 H2; simpl; [eauto|]. case_match; [|eauto].
  destruct (lookup_lt_is_Some_2 buf cp ltac:(lia)) as [c ->], (lookup_lt_is_Some_2 out dp ltac:(lia)) as [x ->].
  cbn [of_opt mbind outcome_bind]. case_match; [apply IH; lia|eauto].
Qed.
Lemma dump_inside l n i cp : (cp + n <= length l)%nat → ∃ o, dump l n i cp = Ret o.
Proof.
  revert i cp. induction n as [|n IH]; intros i cp H; simpl; [eauto|].
  destruct (lookup_lt_is_Some_2 l cp ltac:(lia)) as [c ->]. cbn [of_opt mbind outcome_bind].
  destruct (IH (S i) (S cp) ltac:(lia)) as [o ->]. eauto.
Qed.

Lemma pr_data_pre icp cc d :
  20 <= Z.of_nat icp <= 60 → Z.of_nat icp + cc <= IP_MAXPACKET → Z.of_nat icp + 8 + d <= IP_MAXPACKET →
  total Pre (pr_data buf icp cc d).
Proof.
  intros Hi Hc Hd. unfold pr_data. apply total_get_bind. intros p [Hf _]. pose proof (outpack_length p Hf) as Ho.
  destruct Hf as (_ & _ & _ & _ & _ & Hph & _). set (i := if timing p then TIMEVAL_LEN else 0).
  assert (0 <= i <= 8) by (unfold i, TIMEVAL_LEN; case_match; lia). clearbody i. unfold ICMP_MINLEN in *.
  match goal with |- context [check_data _ ?out ?n ?i ?d ?cp ?dp] =>
    destruct (check_data_inside out n i d cp dp ltac:(inside) ltac:(inside)) as [r Er] end.
  eapply total_lift_bind; [exact Er|].
  destruct r as [[[i' x] c]|]; [|pre_tac].
  destruct (dump_inside buf (Z.to_nat d) 0 (icp + 8) ltac:(inside)) as [o1 E1].
  destruct (dump_inside (outpack p) (Z.to_nat d) 0 8 ltac:(inside)) as [o2 E2].
  do 2 (apply total_bind; [pre_tac|intros _]). eapply total_lift_bind; [exact E1|].
  do 2 (apply total_bind; [pre_tac|intros _]). eapply total_lift_bind; [exact E2|]. pre_tac.
Qed.

(** The lengths that go with a sequence number; the dump of a packet whose IP
    header has all its options reads up to 68 octets more. *)
Definition sizes_ok (seq : Z) : Prop :=
  returns (seq_lens p0 seq) (λ '(d, _), d <= IP_MAXPACKET - 68).
Lemma seq_lens_fixed p seq : fixed p0 p → seq_lens p seq = seq_lens p0 seq.
Proof.
  intros (_ & _ & _ & X4 & _ & _ & X7 & X8 & X9 & X10 & X11). unfold seq_lens. rewrite X4, X7, X8, X9, X10.
  destruct (truthy (sweepmax p0)) eqn:E; [done|].
  assert (E0 : sweepmax p0 = 0) by (unfold truthy in E; destruct (Z.eqb_spec (sweepmax p0) 0); done).
  by destruct (X11 E0) as [-> ->].
Qed.

Lemma pr_line_pre icp cc rl from t tc seq dup :
  20 <= Z.of_nat icp <= 60 → Z.of_nat icp + cc <= IP_MAXPACKET → sizes_ok seq →
  total Pre (pr_line cf currenttime buf icp cc rl from t tc seq dup).
Proof.
  intros Hi Hc Hs. unfold pr_line. apply total_get_bind. intros p [Hf Hx]. rewrite (seq_lens_fixed p seq Hx).
  unfold sizes_ok in Hs. destruct (seq_lens p0 seq) as [[d sl]| |] eqn:El; [|done|done]. simpl in Hs.
  apply (total_lift_bind _ _ (d, sl)); [done|]. apply total_bind; [pre_tac|intros _].
  destruct (rd8_returns buf 8 Hbuf ltac:(inside)) as (ttl & -> & _). apply (total_lift_bind _ _ ttl); [done|].
  destruct (read_returns buf (icp + 8) 4 ltac:(inside)) as [o8 ->].
  destruct (read_returns buf (icp + 12) 4 ltac:(inside)) as [o12 ->].
  destruct (read_returns buf (icp + 16) 4 ltac:(inside)) as [o16 ->]. cbn [of_opt].
  do 9 (apply total_bind; [pre_tac|intros _]). apply pr_data_pre; inside.
Qed.

Lemma trip_pre icp cc tv : Z.of_nat icp <= 60 → total Pre (trip buf icp cc tv).
Proof.
  intros Hi. unfold trip. apply total_get_bind. intros p [Hf _]. destruct Hf as (_ & _ & _ & _ & _ & Hph & _).
  case_match; [|pre_tac]. case_match; [|pre_tac].
  destruct (rd32_returns (icp + Z.to_nat (8 + phdr_len p)) ltac:(inside)) as [sec ->].
  destruct (rd32_returns (icp + Z.to_nat (8 + phdr_len p) + 4) ltac:(inside)) as [usec ->]. cbn [of_opt]. pre_tac.
Qed.

Lemma count_reply_pre s : 0 <= s → total Pre (count_reply s).
Proof.
  intros Hs p Hp. pose proof (seq_index s Hs) as Hk. unfold count_reply. set (k := Z.rem s mx_dup_ck) in *.
  pose proof Hp as [(H1 & H2 & H3 & H4) Hx].
  rewrite (bind_run _ _ _ _ _ (tst_run k p H3 Hk)). case_match; [exact Hp|].
  rewrite (bind_run _ _ _ _ _ (set_run k p H3 Hk)). split; [|exact Hx].
  refine (conj H1 (conj H2 (conj _ H4))). by apply set_A_ok.
Qed.

Lemma pr_reply_pre icp cc rl from tv tc :
  20 <= Z.of_nat icp <= 60 → Z.of_nat icp + cc <= IP_MAXPACKET →
  (∀ seq, rd16 buf (icp + 6) = Some seq → sizes_ok seq) →
  total Pre (pr_reply cf currenttime buf icp cc rl from tv tc).
Proof.
  intros Hi Hc Hs. unfold pr_reply.
  destruct (rd16le_returns (icp + 4) ltac:(inside)) as [id ->], (rd16_returns (icp + 6) ltac:(inside)) as [seq Es].
  specialize (Hs seq Es). rewrite Es. apply (total_lift_bind _ _ id); [done|]. apply total_get_bind. intros p _.
  case_match; [pre_tac|]. apply total_bind; [pre_tac|intros _]. apply total_bind; [apply trip_pre; lia|intros t].
  apply (total_lift_bind _ _ seq); [done|].
  apply total_bind; [apply count_reply_pre; by eapply rd16_nonneg|intros dup]. pre_tac. by apply pr_line_pre.
Qed.

Lemma quotes_ours_returns icp p : Z.of_nat icp <= 60 → ∃ b, quotes_ours cf buf icp p = Ret b.
Proof.
  intros Hi. unfold quotes_ours. destruct (read_returns buf (icp + 8 + 16) 4 ltac:(inside)) as [dst ->].
  destruct (rd8_returns buf (icp + 8 + 9) Hbuf ltac:(inside)) as (pr & -> & _).
  destruct (rd8_returns buf (icp + 8 + 20) Hbuf ltac:(inside)) as (ty & -> & _).
  destruct (rd16le_returns (icp + 8 + 20 + 4) ltac:(inside)) as [id ->]. cbn [of_opt mbind outcome_bind].
  repeat (case_match; [by eauto|]). eauto.
Qed.
Lemma pr_other_pre icp cc from : Z.of_nat icp <= 60 → total Pre (pr_other cf currenttime buf icp cc from).
Proof.
  intros Hi. unfold pr_other. apply total_get_bind. intros p _. destruct (quotes_ours_returns icp p Hi) as [b ->].
  destruct (icmph_returns icp Hi) as [o ->]. pre_tac.
Qed.

Lemma pr_pack_pre cc from tv tc b0 :
  rd8 buf 0 = Some b0 → 5 <= Z.land b0 0x0f → cc <= IP_MAXPACKET →
  (∀ seq, rd16 buf (Z.to_nat (Z.land b0 0x0f * 4) + 6) = Some seq → sizes_ok seq) →
  total Pre (pr_pack cf currenttime buf cc from tv tc).
Proof.
  intros Eb Hb Hc Hs. unfold pr_pack. rewrite Eb. apply (total_lift_bind _ _ b0); [done|]. pose proof (nibble b0).
  set (hlen := Z.land b0 0x0f * 4) in *. case_match; [pre_tac|].
  destruct (rd8_returns buf (Z.to_nat hlen) Hbuf ltac:(inside)) as (ty & -> & _).
  apply (total_lift_bind _ _ ty); [done|]. apply total_bind.
  { case_match; [apply pr_reply_pre; [lia|lia|done]|apply pr_other_pre; lia]. }
  intros []; [|pre_tac]. apply total_bind; [apply pr_options_pre; lia|intros _; pre_tac].
Qed.

End run.

(** ** The loop *)

(** What the kernel delivers: a packet in the buffer with a whole IP header.
    The length that goes with its sequence number fits the dump. *)
Definition delivered (p0 : ping) (ev : event) : Prop :=
  match ev with
  | Message buf cc _ _ _ =>
      bytes_ok buf ∧ Z.of_nat (length buf) = IP_MAXPACKET ∧ cc <= IP_MAXPACKET ∧
      ∃ b0, rd8 buf 0 = Some b0 ∧ 5 <= Z.land b0 0x0f ∧
        ∀ seq, rd16 buf (Z.to_nat (Z.land b0 0x0f * 4) + 6) = Some seq → sizes_ok p0 seq
  | _ => True
  end.

Section loop.
Context (p0 : ping) (cf : config) (currenttime : output).

Lemma going_ret b : triple (Pre p0) (mret b) (going p0).
Proof. intros p Hp _. exact Hp. Qed.

Lemma main_step_pre e ev : delivered p0 ev → triple (Pre p0) (main_step cf currenttime e ev) (going p0).
Proof.
  intros Hd. destruct ev as [| | |buf cc from tv tc| |]; simpl; try apply going_ret; [apply send_turn_pre|].
  destruct Hd as (Hb & Hl & Hc & b0 & E0 & H5 & Hs).
  apply (triple_bind _ _ (λ _, Pre p0)); [by eapply pr_pack_pre|]. intros _ p Hp. rewrite get_run.
  case_match; [by apply going_ret|]. case_match; [by apply send_turn_pre|by apply going_ret].
Qed.

Definition exit_status (p : ping) : Z := if truthy (nreceived p) then 0 else 2.
Lemma finish_run p : returns (finish cf p) (λ '(st, p'), st = exit_status p' ∧ nreceived p' = nreceived p).
Proof.
  unfold finish, mbind, ST_bind, print, modify, get, skip. cbv beta iota zeta.
  repeat match goal with
    | |- context [truthy (nrepeats ?q)] => destruct (truthy (nrepeats q))
    | |- context [truthy (ntransmitted ?q)] => destruct (truthy (ntransmitted q))
    | |- context [?a <? ?b] => destruct (a <? b)
    | |- context [truthy (nrcvtimeout ?q)] => destruct (truthy (nrcvtimeout q))
    end; split; reflexivity.
Qed.

Definition loop_ended (r : option Z * ping) : Prop :=
  match r with
  | (Some st, p) => st = exit_status p
  | (None, p) => Pre p0 p
  end.
Lemma main_loop_pre es p :
  Forall (delivered p0) es.*2 → Pre p0 p → returns (main_loop cf currenttime es p) loop_ended.
Proof.
  revert p. induction es as [|[e ev] es IH]; intros p Hd Hp; [exact Hp|]. apply Forall_cons in Hd as [Hd Hds].
  cbn [main_loop]. pose proof (main_step_pre e ev Hd p Hp) as Hs. unfold mbind at 1, ST_bind at 1.
  destruct (main_step _ _ _ _ _) as [[b p1]| |]; simpl in Hs; [|done|done]. destruct b; [|by apply IH, Hs].
  pose proof (finish_run p1) as Hf. unfold mbind, ST_bind.
  destruct (finish cf p1) as [[st p2]| |]; simpl in *; [|done|done]. apply Hf.
Qed.

Lemma fire_pre n e : total (Pre p0) (fire n e).
Proof.
  induction n as [|n IH]; cbn [fire]; [apply total_skip|]. apply total_bind; [apply pinger_pre|intros _; apply IH].
Qed.
Lemma start_pre e t : total (Pre p0) (start cf e t).
Proof.
  unfold start. apply total_get_bind. intros p _. apply total_bind.
  { case_match; [apply total_bind; [apply pinger_pre|intros _; apply total_skip]|apply fire_pre]. }
  intros _. apply total_bind; [by intros q Hq|]. intros b. apply total_modify. intros q Hq. exact Hq.
Qed.
End loop.

(** ** The set-up *)

Lemma store_inside off v l : (off < length l)%nat → store off v l = Ret (<[off := u8 v]> l).
Proof. intros H. unfold store. by rewrite (proj2 (Nat.ltb_lt _ _)). Qed.

(** A buffer with the same length and octets. *)
Definition like (l l' : bytes) : Prop := length l' = length l ∧ (bytes_ok l → bytes_ok l').
#[export] Instance like_preorder : PreOrder like.
Proof. split; [done|]. unfold like. intros l1 l2 l3 [-> H1] [-> H2]. auto. Qed.
Lemma like_insert off v l : like l (<[off := u8 v]> l).
Proof. split; [by rewrite length_insert|]. intros H. apply Forall_insert; [done|apply u8_ok]. Qed.

Lemma count_up_inside n i off l : (off + n <= length l)%nat → ∃ l', count_up n i off l = Ret l' ∧ like l l'.
Proof.
  revert i off l. induction n as [|n IH]; intros i off l H; simpl; [by exists l|].
  rewrite store_inside by lia. cbn [mbind outcome_bind].
  destruct (IH (i + 1) (S off) (<[off := u8 i]> l)) as (l' & -> & Hl); [rewrite length_insert; lia|].
  eexists. split; [done|]. etrans; [apply like_insert|exact Hl].
Qed.
Lemma count_up_outside n i off l : (0 < n)%nat → (length l < off + n)%nat → count_up n i off l = Crash.
Proof.
  revert i off l. induction n as [|n IH]; intros i off l H0 H; [lia|]. simpl. unfold store. case_match eqn:E; [|done].
  apply Nat.ltb_lt in E. cbn [mbind outcome_bind]. apply IH; rewrite ?length_insert; lia.
Qed.
Lemma store_all_inside vs off l : (off + length vs <= length l)%nat → ∃ l', store_all vs off l = Ret l' ∧ like l l'.
Proof.
  revert off l. induction vs as [|v vs IH]; intros off l H; simpl in *; [by exists l|].
  rewrite store_inside by lia. cbn [mbind outcome_bind].
  destruct (IH (S off) (<[off := u8 v]> l)) as (l' & -> & Hl); [rewrite length_insert; lia|].
  eexists. split; [done|]. etrans; [apply like_insert|exact Hl].
Qed.
Lemma fill_loop_inside fuel pat kk bound off l :
  pat ≠ [] → 0 <= kk → Z.max 0 (bound - kk + 1) < Z.of_nat fuel →
  Z.of_nat off + bound + Z.of_nat (length pat) <= Z.of_nat (length l) →
  ∃ l', fill_loop fuel pat kk bound off l = Ret l' ∧ like l l'.
Proof.
  intros Hp. revert kk l. induction fuel as [|fuel IH]; intros kk l Hk Hf Hl; [lia|]. cbn [fill_loop].
  case_match eqn:E; [|by exists l]. apply Z.leb_le in E.
  destruct (store_all_inside pat (off + Z.to_nat kk) l ltac:(lia)) as (l1 & -> & H1). cbn [mbind outcome_bind].
  assert (0 < length pat)%nat by (destruct pat; [done|simpl; lia]).
  destruct (IH (kk + Z.of_nat (length pat)) l1) as (l2 & -> & H2); [lia|lia|by destruct H1 as [-> _]|].
  eexists. split; [done|]. by etrans.
Qed.
Lemma sscanf_hex_length n s : (length (sscanf_hex n s) <= n)%nat.
Proof.
  revert s. induction n as [|n IH]; intros [|c [|d s]]; simpl; try lia. specialize (IH s). lia.
Qed.

Section setup.
Context (cf : config).

(** The state behind the parsing of the options. *)
Definition parsed (p : ping) : Prop :=
  bytes_ok (outpackhdr p) ∧ Z.of_nat (length (outpackhdr p)) = IP_MAXPACKET ∧
  tbl_ok octets (rcvd_tbl p) ∧ 0 <= ntransmitted p ∧ byte_ok (icmp_type p) ∧ 0 <= phdr_len p <= 12 ∧
  (truthy (Z.land (options p) F_TIME) = true → 4 <= phdr_len p) ∧
  0 <= datalen p ∧ length (old_rr p) = MAX_IPOPTLEN.
(** The sizes of a sweep, which the parser does not check. *)
Definition sweep_ok (p : ping) : Prop :=
  sweepmax p ≠ 0 → 0 <= sweepmin p ∧ 0 <= sweepincr p < 2 ^ 30 ∧ sweepmax p <= IP_MAXPACKET - 28 - phdr_len p.

(** Why the set-up leaves a buffer: no digit in the pattern, or a sweep to a
    size that is larger than a packet. *)
Definition setup_fault (p : ping) : Prop :=
  payload cf = Some [] ∨ (payload cf = None ∧ IP_MAXPACKET - 28 - phdr_len p < sweepmax p).

Lemma set_lengths_run p :
  let q := p <| icmp_len := 28 + phdr_len p |> in
  set_lengths p = if maxpayload q <? datalen q then Exit EX_USAGE
                  else Ret (tt, q <| send_len := 28 + phdr_len p + datalen p |>).
Proof. cbv zeta. unfold set_lengths. rewrite modify_run, get_run. change (20 + ICMP_MINLEN + phdr_len p) with (28 + phdr_len p). by case_match. Qed.

Definition contents_done (q : ping) (r : outcome (unit * ping)) : Prop :=
  match r with
  | Ret (_, q') => ∃ l o, q' = q <| outpackhdr := l |> <| printed := o |> ∧ like (outpackhdr q) l
  | Exit c => c = EX_USAGE
  | Crash => setup_fault q
  end.

Lemma fill_contents off patp q :
  payload cf = Some patp → 36 + phdr_len q = Z.of_nat off → 0 <= phdr_len q <= 12 → icmp_len q = 28 + phdr_len q →
  Z.of_nat (length (outpackhdr q)) = IP_MAXPACKET → contents_done q (fill off patp q).
Proof.
  intros Hpay Hoff Hph Hil Hlen. unfold fill. destruct (forallb isxdigit patp); [|done]. cbn [negb].
  case_bool_decide as Epat.
  { left. rewrite Hpay. f_equal. destruct patp as [|c [|d s]]; [done|simpl in Epat; done|simpl in Epat; done]. }
  set (pat := sscanf_hex 16 patp) in *. pose proof (sscanf_hex_length 16 patp) as Hn. fold pat in Hn.
  assert (0 < length pat)%nat by (destruct pat; [done|simpl; lia]).
  rewrite get_run. unfold maxpayload, TIMEVAL_LEN. rewrite Hil. unfold u32, IP_MAXPACKET in *. rewrite Z.mod_small by lia.
  destruct (fill_loop_inside (Z.to_nat 65535) pat 0 (65535 - (28 + phdr_len q) - (8 + Z.of_nat (length pat))) off (outpackhdr q))
    as (l & -> & Hl); [done|done|lia|lia|].
  rewrite (lift_run _ _ _ _ eq_refl), modify_run. unfold mbind at 1, ST_bind at 1, opt. case_match.
  - simpl. exists l, (printed q). split; [by destruct q|done].
  - simpl. eexists l, _. split; [reflexivity|done].
Qed.

Lemma set_contents_run q :
  Z.of_nat (length (outpackhdr q)) = IP_MAXPACKET → 0 <= phdr_len q <= 12 → icmp_len q = 28 + phdr_len q →
  datalen q <= maxpayload q → contents_done q (set_contents cf q).
Proof.
  intros Hlen Hph Hil Hdl. unfold set_contents. rewrite get_run. unfold ICMP_MINLEN, TIMEVAL_LEN, IPLEN in *.
  destruct (payload cf) as [patp|] eqn:Ep; [by apply fill_contents; [done|lia|..]|].
  set (off := (20 + Z.to_nat (8 + phdr_len q + 8))%nat). set (n := Z.to_nat _).
  unfold maxpayload, IP_MAXPACKET in *.
  destruct (decide (off + n <= length (outpackhdr q))%nat) as [Hin|Hout].
  - destruct (count_up_inside n 8 off (outpackhdr q) Hin) as (l & -> & Hl). rewrite (lift_run _ _ _ _ eq_refl).
    simpl. exists l, (printed q). split; [by destruct q|done].
  - rewrite count_up_outside; [|lia|lia]. right. split; [done|]. unfold n, off in *. unfold IP_MAXPACKET. lia.
Qed.

Lemma parsed_fine p : parsed p → icmp_cc p <= IP_MAXPACKET - 20 → sweep_ok p → fine p.
Proof.
  intros (H1 & H2 & H3 & H4 & H5 & H6 & H7 & H8 & H9) Hc Hw. split_and!; try done; try apply H6.
  intros Hs. by destruct (Hw Hs) as (_ & ? & ?).
Qed.

Lemma setup_run p : parsed p →
  match setup cf p with
  | Ret (_, p1) => sweep_ok p → fine p1
  | Exit c => c = EX_USAGE
  | Crash => setup_fault p
  end.
Proof.
  intros (H1 & H2 & H3 & H4 & H5 & H6 & H7 & H8 & H9). unfold setup. unfold mbind at 1, ST_bind at 1.
  rewrite set_lengths_run. cbv zeta. destruct (_ <? _) eqn:E; [done|]. apply Z.ltb_ge in E.
  set (q := p <| icmp_len := 28 + phdr_len p |> <| send_len := 28 + phdr_len p + datalen p |>).
  pose proof (set_contents_run q H2 H6 eq_refl E) as Hc. unfold mbind at 1, ST_bind at 1.
  destruct (set_contents cf q) as [[[] q']|c|]; cbn [contents_done] in Hc; [|exact Hc|exact Hc].
  destruct Hc as (l & o & -> & [Hl Hb]). specialize (Hb H1). change (outpackhdr q) with (outpackhdr p) in Hl.
  assert (Hl' : Z.of_nat (length l) = Z.of_nat (length (outpackhdr p))) by (by rewrite Hl).
  rewrite H2 in Hl'. change (datalen p <= IP_MAXPACKET - (28 + phdr_len p)) in E.
  unfold set_sweep. rewrite get_run. destruct (truthy (sweepmax _)) eqn:Ew.
  - destruct (_ <=? _) eqn:E1; [done|]. apply Z.leb_gt in E1. destruct (negb _); [done|]. intros Hw.
    assert (Hs : sweepmax p ≠ 0) by (intros E0; change (truthy (sweepmax p) = true) in Ew; by rewrite E0 in Ew).
    destruct (Hw Hs) as (W1 & W2 & W3). change (sweepmin p < sweepmax p) in E1.
    apply parsed_fine; [exact (conj Hb (conj Hl' (conj H3 (conj H4 (conj H5 (conj H6 (conj H7 (conj W1 H9))))))))| |exact Hw].
    change (8 + phdr_len p + sweepmin p <= IP_MAXPACKET - 20). lia.
  - destruct (truthy (Z.land _ F_SWEEP)); [reflexivity|]. intros Hw.
    apply parsed_fine; [exact (conj Hb (conj Hl' (conj H3 (conj H4 (conj H5 (conj H6 (conj H7 (conj H8 H9))))))))| |exact Hw].
    change (8 + phdr_len p + datalen p <= IP_MAXPACKET - 20). lia.
Qed.

End setup.

(** ** The end of the loop *)

(** What the receiving keeps of the loop. *)
Definition steady (p p' : ping) : Prop :=
  npackets p' = npackets p ∧ ntransmitted p' = ntransmitted p ∧ snpackets p' = snpackets p ∧
  sntransmitted p' = sntransmitted p ∧ sweepmax p' = sweepmax p ∧ sweepincr p' = sweepincr p ∧
  datalen p' = datalen p ∧ almost_done p' = almost_done p.
#[export] Instance steady_preorder : PreOrder steady.
Proof. split; [done|]. unfold steady. intros p1 p2 p3. intuition congruence. Qed.
Lemma shown_steady p p' : shown p p' → steady p p'.
Proof. by intros (o & l & r & n & ->). Qed.

Section ends.
Context (cf : config) (currenttime : output).

Lemma trip_steady buf icp cc tv : pres steady (trip buf icp cc tv).
Proof. unfold trip. keeps_tac. Qed.
Lemma count_reply_steady s : pres steady (count_reply s).
Proof.
  unfold count_reply. apply pres_bind; [exact _| |intros []; keeps_tac].
  - intros p. unfold TST. by case_match.
  - intros p. unfold SET. by case_match.
Qed.
Lemma pr_pack_steady buf cc from tv tc : pres steady (pr_pack cf currenttime buf cc from tv tc).
Proof.
  unfold pr_pack. apply pres_bind; [exact _|keeps_tac|intros b0]. case_match; [keeps_tac|].
  apply pres_bind; [exact _|keeps_tac|intros ty]. apply pres_bind; [exact _| |intros []; [|keeps_tac]].
  - case_match; [|apply (pres_weaken shown); [apply shown_steady|apply pr_other_shown]].
    unfold pr_reply. apply pres_bind; [exact _|keeps_tac|intros id]. apply pres_bind; [exact _|keeps_tac|intros p].
    case_match; [keeps_tac|]. apply pres_bind; [exact _|keeps_tac|intros _].
    apply pres_bind; [exact _|apply trip_steady|intros t]. apply pres_bind; [exact _|keeps_tac|intros seq].
    apply pres_bind; [exact _|apply count_reply_steady|intros dup].
    apply (pres_weaken shown); [apply shown_steady|apply reply_tail_shown].
  - apply (pres_weaken shown); [apply shown_steady|].
    apply pres_bind; [exact _|apply pr_options_shown|intros _; shown_tac].
Qed.

(** A count of packets, or a sweep that grows. *)
Definition bounded (p : ping) : Prop :=
  (sweepmax p = 0 ∧ 0 < npackets p) ∨
  (sweepmax p ≠ 0 ∧ npackets p = 0 ∧ 0 <= sntransmitted p <= snpackets p ∧ 1 <= snpackets p ∧ 1 <= sweepincr p ∧
   datalen p <= sweepmax p).
(** The timeouts that the loop still waits for. *)
Definition left (p : ping) : Z :=
  if sweepmax p =? 0 then Z.max 0 (npackets p - ntransmitted p) + (if almost_done p then 0 else 1)
  else (sweepmax p - datalen p + 1) * (snpackets p + 1) - sntransmitted p - 1.

Lemma left_nonneg p : bounded p → 0 <= left p.
Proof.
  unfold bounded, left. intros [[-> H]|(H0 & H1 & H2 & H3 & H4 & H5)]; [simpl; case_match; lia|].
  rewrite (proj2 (Z.eqb_neq _ _)) by done. nia.
Qed.
Lemma steady_left p p' : steady p p' → left p' = left p ∧ (bounded p → bounded p').
Proof.
  intros (E1 & E2 & E3 & E4 & E5 & E6 & E7 & E8). unfold left, bounded.
  rewrite E1, E2, E3, E4, E5, E6, E7, E8. done.
Qed.

(** The state after a counted query. *)
Lemma pinger_counts e p : env_ok e →
  on_ret (pinger e p) (λ '(_, p'), ∃ q, steady p q ∧ steady (q <| ntransmitted := ntransmitted q + 1 |>
    <| sntransmitted := sntransmitted q + 1 |>) p').
Proof.
  intros He. destruct (in_bounds p) eqn:Eb; [|unfold pinger; by rewrite Eb].
  rewrite (pinger_run e p Eb), given_up_ok by done. destruct (built_composed e p) as [o ->]. simpl.
  exists (composed p o). split; [unfold composed, CLR; by case_match|unfold counted; by case_match].
Qed.

(** A turn that leaves the loop or comes nearer to its end by [d]. *)
Definition nearer (p : ping) (d : Z) (r : bool * ping) : Prop :=
  r.1 = true ∨ (bounded r.2 ∧ left r.2 <= left p - d).
Lemma nearer_same p q d : steady p q → bounded p → nearer p 0 (d, q).
Proof. intros Hs Hb. destruct (steady_left p q Hs) as [E H]. right. simpl. rewrite E. split; [auto|lia]. Qed.

Lemma sweep_left p : fine p → bounded p →
  on_ret (sweep p) (λ '(b, q), b = true ∨ (bounded q ∧ left q <= left p ∧ (sweepmax q ≠ 0 → sntransmitted q < snpackets q))).
Proof.
  intros Hf Hb. unfold sweep. rewrite get_run. destruct (truthy (sweepmax p) && _) eqn:E.
  - apply andb_prop in E as [E1 E2]. apply Z.eqb_eq in E2.
    destruct Hb as [[E0 _]|(H0 & H1 & H2 & H3 & H4 & H5)]; [by rewrite E0 in E1|].
    destruct Hf as (_ & _ & _ & _ & _ & F6 & _ & F8 & _ & _ & F11). destruct (F11 H0) as [Hi Hm]. unfold IP_MAXPACKET in Hm.
    assert (Es : s32 (datalen p + sweepincr p) = datalen p + sweepincr p) by (unfold s32; zlia).
    rewrite modify_run, get_run, Es. cbn [sweepmax datalen update_field]. case_match eqn:E3; [by left|]. apply Z.ltb_ge in E3.
    rewrite modify_run. right. unfold bounded, left. cbn. rewrite (proj2 (Z.eqb_neq _ _)) by done.
    split_and!; [right; split_and!; lia|nia|lia].
  - right. split_and!; [done|lia|]. intros H0. apply andb_false_iff in E as [E|E].
    + unfold truthy in E. by destruct (Z.eqb_spec (sweepmax p) 0).
    + apply Z.eqb_neq in E. destruct Hb as [[? _]|(_ & _ & H2 & _)]; [done|lia].
Qed.

Lemma send_or_wait_nearer e p : env_ok e → bounded p → (sweepmax p ≠ 0 → sntransmitted p < snpackets p) →
  on_ret (send_or_wait cf e p) (nearer p 1).
Proof.
  intros He Hb Hs. unfold send_or_wait. rewrite get_run. destruct (_ || _) eqn:E.
  - pose proof (pinger_counts e p He) as Hp. unfold mbind at 1, ST_bind at 1.
    destruct (pinger e p) as [[sent p']| |]; simpl in Hp; [|done|done]. destruct Hp as (q & Hq & Hq').
    destruct (steady_left _ _ Hq) as [Eq Hbq], (steady_left _ _ Hq') as [Eq' Hbq'].
    destruct Hq as (Q1 & Q2 & Q3 & Q4 & Q5 & Q6 & Q7 & Q8). right. cbn [snd]. rewrite Eq', <- Eq.
    specialize (Hbq Hb). rewrite <- Q5, <- Q4, <- Q3 in Hs. rewrite <- Q1, <- Q2 in E. clear - Hbq Hbq' Hs E.
    unfold bounded, left in *. simpl in *. destruct Hbq as [[H0 H1]|(H0 & H1 & H2 & H3 & H4 & H5)].
    + rewrite H0 in *. simpl in *. split; [by apply Hbq'; left|]. apply orb_prop in E as [E|E]; lia.
    + rewrite (proj2 (Z.eqb_neq _ _)) by done. specialize (Hs H0). split; [apply Hbq'; right; lia|nia].
  - apply orb_false_elim in E as [E1 E2]. apply Z.eqb_neq in E1. apply Z.ltb_ge in E2.
    destruct Hb as [[H0 H1]|(_ & H1 & _)]; [|lia]. case_match eqn:Ed; [by left|]. rewrite modify_run. right.
    unfold bounded, left. simpl. rewrite H0, Ed. simpl. split; [by left|lia].
Qed.

Lemma send_turn_nearer e p : env_ok e → fine p → bounded p → on_ret (send_turn cf e p) (nearer p 1).
Proof.
  intros He Hf Hb. unfold send_turn. pose proof (sweep_left p Hf Hb) as Hs. unfold mbind at 1, ST_bind at 1.
  destruct (sweep p) as [[b q]| |]; simpl in Hs; [|done|done].
  destruct b; [by left|]. destruct Hs as [?|(Hb' & Hl & Hn)]; [done|].
  pose proof (send_or_wait_nearer e q He Hb' Hn) as Hw. unfold mbind at 1, ST_bind at 1.
  destruct (send_or_wait cf e q) as [[b q']| |]; simpl in Hw; [|done|done].
  destruct b; [by left|]. destruct Hw as [?|[Hb'' Hl'']]; [done|]. simpl in *.
  assert (Hk : pres steady (modify (λ p, p <| last := after e |>);; note_missed;; mret false))
    by (unfold note_missed; keeps_tac).
  specialize (Hk q'). match goal with |- on_ret ?m _ => destruct m as [[b q3]| |] end; simpl in Hk; [|done|done].
  destruct (steady_left _ _ Hk) as [E H]. right. simpl. rewrite E. split; [auto|lia].
Qed.

Definition timeout (ev : event) : Z := match ev with Timeout => 1 | _ => 0 end.
Lemma main_step_nearer p0 e ev p : env_ok e → delivered p0 ev → Pre p0 p → bounded p →
  on_ret (main_step cf currenttime e ev p) (nearer p (timeout ev)).
Proof.
  intros He Hd Hp Hb. destruct ev as [| | |buf cc from tv tc| |]; simpl; try by apply nearer_same.
  - by apply send_turn_nearer; [..|apply Hp|].
  - destruct Hd as (Db & Dl & Dc & b0 & D0 & D5 & Ds).
    pose proof (pr_pack_pre p0 cf currenttime buf Db Dl cc from tv tc b0 D0 D5 Dc Ds p Hp) as Hq.
    pose proof (pr_pack_steady buf cc from tv tc p) as Hk. unfold mbind at 1, ST_bind at 1.
    destruct (pr_pack _ _ _ _ _ _ _ _) as [[[] q]| |]; simpl in Hq, Hk; [|done|done].
    destruct (steady_left _ _ Hk) as [E H]. rewrite get_run. case_match; [by left|].
    case_match; [|by apply nearer_same].
    pose proof (send_turn_nearer e q He (proj1 Hq) (H Hb)) as Hs.
    destruct (send_turn cf e q) as [[b q']| |]; simpl in Hs; [|done|done].
    destruct Hs as [?|[Hb' Hl']]; [by left|]. right. simpl in *. split; [done|lia].
Qed.

Fixpoint timeouts (es : list (env * event)) : Z :=
  match es with [] => 0 | (_, ev) :: es => timeout ev + timeouts es end.

Lemma main_loop_nearer p0 es p :
  Forall env_ok es.*1 → Forall (delivered p0) es.*2 → Pre p0 p → bounded p → left p < timeouts es →
  returns (main_loop cf currenttime es p) (λ '(st, p'), st = Some (exit_status p')).
Proof.
  revert p. induction es as [|[e ev] es IH]; intros p He Hd Hp Hb Hl.
  { pose proof (left_nonneg p Hb). simpl in Hl. lia. }
  apply Forall_cons in Hd as [Hd Hds], He as [He Hes]. cbn [main_loop timeouts] in *.
  pose proof (main_step_pre p0 cf currenttime e ev Hd p Hp) as Hs.
  pose proof (main_step_nearer p0 e ev p He Hd Hp Hb) as Hn. unfold mbind at 1, ST_bind at 1.
  destruct (main_step _ _ _ _ _) as [[b p1]| |]; simpl in Hs, Hn; [|done|done]. destruct b.
  - pose proof (finish_run cf p1) as Hf. unfold mbind, ST_bind.
    destruct (finish cf p1) as [[st p2]| |]; simpl in *; [|done|done]. by destruct Hf as [-> _].
  - destruct Hn as [?|[Hb1 Hl1]]; [done|]. simpl in *. apply IH; [done|done|by apply Hs|done|lia].
Qed.

End ends.

(** ** The properties *)



(** *** The preload of a sweep: more queries than one size has, so that the
    size is never increased and the loop never ends. *)
Definition overshot (p : ping) : Prop := sweepmax p ≠ 0 ∧ npackets p = 0 ∧ snpackets p < sntransmitted p.
Lemma overshot_turn cf e p : env_ok e → overshot p →
  on_ret (send_turn cf e p) (λ '(b, p'), b = false ∧ overshot p').
Proof.
  intros He (H0 & H1 & H2). unfold send_turn, sweep. unfold mbind at 1, ST_bind at 1. rewrite get_run.
  rewrite (proj2 (Z.eqb_neq (sntransmitted p) _)) by lia. rewrite andb_false_r. cbn [mret ST_ret].
  unfold send_or_wait. unfold mbind at 1, ST_bind at 1. rewrite get_run, H1. cbn [Z.eqb orb].
  pose proof (pinger_counts e p He) as Hp. unfold mbind at 1, ST_bind at 1.
  destruct (pinger e p) as [[sent p']| |]; simpl in Hp; [|done|done]. destruct Hp as (q & Hq & Hq').
  cbn [mret ST_ret]. assert (Ho : overshot p').
  { destruct Hq as (Q1 & Q2 & Q3 & Q4 & Q5 & _), Hq' as (R1 & R2 & R3 & R4 & R5 & _). simpl in *.
    unfold overshot. rewrite R1, R3, R4, R5, Q1, Q3, Q4, Q5. split_and!; [done|done|lia]. }
  assert (Hk : triple overshot (modify (λ p, p <| last := after e |>);; note_missed;; mret false) (λ b p, b = false ∧ overshot p)).
  { apply (triple_bind _ _ (λ _, overshot)); [intros r Hr; exact Hr|intros _].
    apply (triple_bind _ _ (λ _, overshot)); [change (total overshot note_missed); unfold note_missed; pre_tac|].
    intros _ r Hr. split; [done|exact Hr]. }
  specialize (Hk p' Ho). revert Hk. unfold returns, on_ret.
  by match goal with |- match ?m with _ => _ end → _ => destruct m end.
Qed.

Lemma preload_sweep_stuck cf ct es p : Forall env_ok es.*1 → Forall (λ ev, ev = Timeout) es.*2 → overshot p →
  on_ret (main_loop cf ct es p) (λ '(st, p'), st = None ∧ overshot p').
Proof.
  revert p. induction es as [|[e ev] es IH]; intros p He Ht Hp; [done|].
  apply Forall_cons in He as [He Hes], Ht as [Ht Hts]. simpl in Ht. subst ev. cbn [main_loop main_step].
  pose proof (overshot_turn cf e p He Hp) as Hs. unfold mbind at 1, ST_bind at 1.
  destruct (send_turn cf e p) as [[b p1]| |]; simpl in Hs; [|done|done]. destruct Hs as [-> Hp1]. by apply IH.
Qed.

(** *** Samples *)

Definition sample_bytes : bytes := replicate (Z.to_nat IP_MAXPACKET) 0.
Definition sample_start : ping := sample_ping 0 1 0 56 sample_bytes.
Definition sample_timeouts : list (env * event) := [(sample_env, Timeout); (sample_env, Timeout); (sample_env, Timeout)].
Lemma sample_bytes_size : Z.of_nat (length sample_bytes) = IP_MAXPACKET.
Proof. unfold sample_bytes. rewrite length_replicate. by apply Z2Nat.id. Qed.
Lemma sample_parsed : parsed sample_start.
Proof.
  unfold parsed, sample_start, sample_ping. cbn -[sample_bytes].
  split_and!; first [done|apply bytes_ok_zeros|apply sample_bytes_size|discriminate].
Qed.


