(* ===== verification/PingEcho.v ===== *)
(** * PingEcho: the reply to a query of ping

    The message that [pinger] sends carries the identifier and the sequence
    number of the query; when a host returns it as an echo reply, [pr_pack]
    counts it once, and its data passes the check. *)

From stdpp Require Import gmap.
From S2P Require Import Prelude Timeval Stdio Md5 Cksum Tally Ping PingFun PingSafe.

(** ** The identifier and the sequence number in the message *)

Lemma bcopy_after src buf off i : (off + length src <= i)%nat → (off <= length buf)%nat →
  MD5.bcopy src buf off !! i = buf !! i.
Proof.
  intros Hi Ho. unfold MD5.bcopy. rewrite !lookup_app_r; rewrite ?length_take; [|lia..].
  rewrite lookup_drop. f_equal. lia.
Qed.

(** Octets 4 to 7 of the message. *)
Definition tag (p : ping) : bytes := take 4 (drop 4 (outpack p)).
Lemma tag_ext p p' : length (outpack p') = length (outpack p) →
  (∀ i, (4 <= i < 8)%nat → outpack p' !! i = outpack p !! i) → tag p' = tag p.
Proof.
  intros Hl H. unfold tag. apply list_eq. intros i. destruct (decide (i < 4)%nat).
  - rewrite !lookup_take_lt, !lookup_drop by done. apply H. lia.
  - rewrite !lookup_take_ge by lia. done.
Qed.
Lemma tag_poke off src p : (IPLEN + off + length src <= length (outpackhdr p))%nat →
  (8 <= off ∨ off + length src <= 4)%nat → tag (poke_icmp off src p) = tag p.
Proof.
  intros Hl Ho. assert (Hp : (off + length src <= length (outpack p))%nat) by (unfold outpack; rewrite length_drop; lia).
  apply tag_ext.
  - rewrite outpack_poke_icmp by lia. apply MD5.length_bcopy. lia.
  - intros i Hi. rewrite outpack_poke_icmp by lia. destruct Ho; [apply bcopy_before|apply bcopy_after]; lia.
Qed.
Lemma tag_same p p' : outpackhdr p' = outpackhdr p → tag p' = tag p.
Proof. intros E. unfold tag, outpack. by rewrite E. Qed.

(** The tag of the query. *)
Definition query_tag (p : ping) : bytes := Traceroute.le16 (ident p) ++ be16 (ntransmitted p).

Lemma tag_written p q : (28 <= length (outpackhdr q))%nat → ident q = ident p → ntransmitted q = ntransmitted p →
  tag (poke_icmp 4 (Traceroute.le16 (ident q)) (poke_icmp 6 (be16 (ntransmitted q)) q)) = query_tag p.
Proof.
  intros Hl Ei En. unfold tag. rewrite !outpack_poke_icmp; [|unfold IPLEN; lia|].
  2: { rewrite poke_icmp_len; unfold IPLEN; simpl; lia. }
  assert (Ho : (8 <= length (outpack q))%nat) by (unfold outpack, IPLEN; rewrite length_drop; lia).
  rewrite Ei, En. destruct (outpack q) as [|? [|? [|? [|? [|? [|? [|? [|? o]]]]]]]]; simpl in Ho; try lia. reflexivity.
Qed.

Lemma poke_sized n off src p : length (outpackhdr p) = n → (IPLEN + off + length src <= n)%nat →
  length (outpackhdr (poke_icmp off src p)) = n.
Proof. intros <- H. by apply poke_icmp_len. Qed.

Lemma compose_tag t p : roomy p → tag (compose t p) = query_tag p.
Proof.
  intros [Hok Hty Hph Hft Hdl Hlen _ _]. unfold icmp_cc, ICMP_MINLEN in *. remember (length (outpackhdr p)) as n eqn:En.
  unfold compose. set (p3 := poke_icmp 2 [0; 0] _).
  assert (L3 : length (outpackhdr p3) = n) by (do 3 (apply poke_sized; [|room]); done).
  assert (F3 : ident p3 = ident p ∧ ntransmitted p3 = ntransmitted p ∧ options p3 = options p ∧
    datalen p3 = datalen p ∧ phdr_len p3 = phdr_len p) by done.
  clearbody p3. destruct F3 as (F1 & F2 & F3 & F4 & F5).
  pose proof (tag_written p p3 ltac:(room) F1 F2) as T5. revert T5.
  change (ident (poke_icmp 6 (be16 (ntransmitted p3)) p3)) with (ident p3).
  set (p5 := poke_icmp 4 _ _). intros T5.
  assert (L5 : length (outpackhdr p5) = n) by (do 2 (apply poke_sized; [|room]); done).
  assert (F5' : options p5 = options p3 ∧ datalen p5 = datalen p3 ∧ phdr_len p5 = phdr_len p3) by done.
  clearbody p5. destruct F5' as (G1 & G2 & G3). rewrite F3 in G1. rewrite F4 in G2. rewrite F5 in G3. clear dependent p3.
  set (q := CLR _ p5). assert (Hq : same_but_out q q) by (exists (outpackhdr q); by destruct q).
  assert (Q : outpackhdr q = outpackhdr p5 ∧ options q = options p ∧ datalen q = datalen p ∧ phdr_len q = phdr_len p)
    by (unfold q, CLR; case_match; done).
  clearbody q. destruct Q as (Q1 & Q2 & Q3 & Q4). rewrite <- (tag_same p5 q Q1) in T5. cbv zeta.
  set (q6 := q <| timing := TIMEVAL_LEN <=? datalen q |>).
  assert (Q6 : outpackhdr q6 = outpackhdr q ∧ options q6 = options p ∧ phdr_len q6 = phdr_len p ∧
               timing q6 = (TIMEVAL_LEN <=? datalen p)) by (unfold q6; rewrite <- Q3; done).
  clearbody q6. destruct Q6 as (S1 & S2 & S3 & S4). rewrite <- (tag_same q q6 S1) in T5.
  assert (L6 : length (outpackhdr q6) = n) by (by rewrite S1, Q1). rewrite S2.
  set (q7 := if truthy (Z.land (options p) F_TIME) then _ else q6).
  assert (T7 : tag q7 = tag q6 ∧ length (outpackhdr q7) = n ∧ phdr_len q7 = phdr_len p ∧ timing q7 = (TIMEVAL_LEN <=? datalen p)).
  { unfold q7. destruct (truthy _) eqn:Et; [|done]. specialize (Hft eq_refl). split_and!; [|apply poke_sized; [done|room]|done|done].
    apply tag_poke; [room|left; lia]. }
  clearbody q7. destruct T7 as (T7 & L7 & P7 & M7). rewrite M7, P7, <- T5, <- T7. unfold TIMEVAL_LEN in *.
  destruct (8 <=? datalen p) eqn:Ed; [|done]. unfold ICMP_MINLEN. apply tag_poke; [room|left; lia].
Qed.

Lemma built_tag e p : roomy p → tag (built e p).1 = query_tag p.
Proof.
  intros Hr. rewrite <- (compose_tag (now e) p Hr). destruct (compose_draft (now e) p Hr) as (Hd & _ & Ec).
  destruct Hr as [_ _ Hph _ Hdl Hlen _ _]. unfold icmp_cc, ICMP_MINLEN in Hlen. set (q := compose _ _) in *.
  pose proof (d_len _ _ Hd) as Hq. unfold checksummed. cbv zeta. set (q1 := poke_icmp 2 _ q).
  assert (L1 : length (outpackhdr q1) = length (outpackhdr p)) by (apply poke_sized; [done|room]).
  assert (T1 : tag q1 = tag q) by (apply tag_poke; [room|right; simpl; lia]). clearbody q1.
  case_match; cbn [fst]; [|done]. rewrite <- T1. unfold tag. rewrite !outpack_poke; [done|room|].
  rewrite poke_len by room. room.
Qed.

(** ** The reply *)

Lemma le_val_le16 x : 0 <= x < 65536 → le_val (Traceroute.le16 x) = x.
Proof.
  intros H. unfold le_val, Traceroute.le16, be_val, u8. cbn -[Z.mul Z.add Z.modulo Z.shiftr].
  rewrite Z.shiftr_div_pow2 by lia. change (2 ^ 8) with 256. zlia.
Qed.

(** The packet that comes back: an IP header without options, the message with
    the type of a reply and another checksum, and the rest of the buffer. *)
Definition reply_packet (ip : bytes) (ty c1 c2 : Z) (sent post : bytes) : bytes :=
  ip ++ ([ty; 0; c1; c2] ++ drop 4 sent) ++ post.

Section reply.
Context (cf : config) (ip : bytes) (c1 c2 : Z) (sent post : bytes).
Context (Hip : length ip = 20%nat) (Hb0 : ip !! 0%nat = Some 0x45) (Hsent : (8 <= length sent)%nat).
Abbreviation buf := (reply_packet ip (icmp_type_rsp cf) c1 c2 sent post).

Lemma reply_octet k : (4 <= k < length sent)%nat → buf !! (20 + k)%nat = sent !! k.
Proof.
  intros Hk. unfold reply_packet. rewrite lookup_app_r by lia. rewrite Hip.
  replace (20 + k - 20)%nat with k by lia. rewrite lookup_app_l by (rewrite length_app, length_drop; simpl; lia).
  rewrite lookup_app_r by (simpl; lia). rewrite lookup_drop. f_equal. simpl. lia.
Qed.

Lemma reply_heard p : 0 <= ident p < 65536 → take 4 (drop 4 sent) = query_tag p →
  rd8 buf 0 = Some 0x45 ∧ ∀ q, ident q = ident p →
  heard cf q buf (20 + Z.of_nat (length sent)) = Some (ntransmitted p mod 65536).
Proof.
  intros Hid Htag. assert (E0 : rd8 buf 0 = Some 0x45).
  { unfold rd8, reply_packet. by rewrite lookup_app_l by (rewrite Hip; lia). }
  split; [done|]. intros q Eq. unfold heard. rewrite E0. cbn [mbind option_bind].
  change (Z.land 69 15 * 4) with 20. unfold ICMP_MINLEN. rewrite (proj2 (Z.ltb_ge _ _)) by lia.
  change (Z.to_nat 20) with 20%nat.
  assert (Eb : buf = (ip ++ [icmp_type_rsp cf; 0; c1; c2]) ++ query_tag p ++ (drop 8 sent ++ post)).
  { unfold reply_packet. rewrite <- Htag, <- !(assoc_L (++)). do 2 f_equal.
    rewrite (assoc_L (++)). f_equal. rewrite <- (take_drop 4 (drop 4 sent)) at 1. by rewrite drop_drop. }
  rewrite Eb. assert (E1 : length (ip ++ [icmp_type_rsp cf; 0; c1; c2]) = 24%nat) by (rewrite length_app, Hip; done).
  assert (Ety : rd8 ((ip ++ [icmp_type_rsp cf; 0; c1; c2]) ++ query_tag p ++ drop 8 sent ++ post) 20 = Some (icmp_type_rsp cf)).
  { unfold rd8. rewrite lookup_app_l by (rewrite E1; lia). rewrite lookup_app_r by lia. by rewrite Hip. }
  rewrite Ety. cbn [mbind option_bind]. rewrite Z.eqb_refl. cbn [negb].
  assert (Ei : rd16le ((ip ++ [icmp_type_rsp cf; 0; c1; c2]) ++ query_tag p ++ drop 8 sent ++ post) (20 + 4) = Some (ident p)).
  { rewrite <- E1 at 1. rewrite <- (Nat.add_0_r (length _)). rewrite rd16le_mid by (simpl; lia).
    change (rd16le (query_tag p) 0) with (Some (le_val (Traceroute.le16 (ident p)))). by rewrite le_val_le16. }
  rewrite Ei. cbn [mbind option_bind]. rewrite Eq, Z.eqb_refl.
  assert (Es : rd16 ((ip ++ [icmp_type_rsp cf; 0; c1; c2]) ++ query_tag p ++ drop 8 sent ++ post) (20 + 6) =
    Some (be_val (be16 (ntransmitted p)))).
  { change (20 + 6)%nat with (24 + 2)%nat. rewrite <- E1 at 1. unfold rd16. rewrite read_at_mid by (simpl; lia). done. }
  rewrite Es. by rewrite be_val_be16_mod.
Qed.

End reply.

(** The data check of equal data. *)
Lemma check_data_equal buf out n i d cp dp :
  (∀ k, (k < n)%nat → ∃ c, buf !! (cp + k)%nat = Some c ∧ out !! (dp + k)%nat = Some c) →
  check_data buf out n i d cp dp = Ret None.
Proof.
  revert i cp dp. induction n as [|n IH]; intros i cp dp H; [done|]. cbn [check_data]. case_match; [|done].
  destruct (H 0%nat ltac:(lia)) as (c & E1 & E2). rewrite Nat.add_0_r in E1, E2. rewrite E1, E2.
  cbn [of_opt mbind outcome_bind]. rewrite Z.eqb_refl. apply IH. intros k Hk.
  destruct (H (S k) ltac:(lia)) as (c' & E1' & E2'). exists c'.
  rewrite !Nat.add_succ_l, <- !Nat.add_succ_r. done.
Qed.

Lemma checksummed_len q : truthy (Z.land (options q) F_HDRINCL) = false → (checksummed q).2 = icmp_cc q.
Proof.
  intros H. unfold checksummed. cbv zeta. generalize (Traceroute.le16 (Ping.in_cksum (take (Z.to_nat (icmp_cc q)) (outpack q)))).
  intros ck. change (options (poke_icmp 2 ck q)) with (options q). by rewrite H.
Qed.
Lemma built_len e p : roomy p → truthy (Z.land (options p) F_HDRINCL) = false → (built e p).2 = icmp_cc p.
Proof.
  intros Hr Hh. destruct (compose_draft (now e) p Hr) as (_ & Eo & Ec). rewrite checksummed_len by (by rewrite Eo). done.
Qed.

(** What is sent, and the state afterwards. *)
Lemma pinger_sent e p : fine p → truthy (Z.land (options p) F_HDRINCL) = false → env_ok e →
  ∃ q, pinger e p = Ret (take (Z.to_nat (icmp_cc p)) (outpack q), counted q) ∧
    tag q = query_tag p ∧ length (outpackhdr q) = length (outpackhdr p).
Proof.
  intros Hf Hh He. pose proof (fine_roomy p Hf) as Hr. exists (built e p).1.
  split_and!; [|by apply built_tag|by apply built_buffer].
  rewrite (pinger_run e p (roomy_in_bounds p Hr)), Hh, (given_up_ok e p He), (built_len e p Hr Hh). reflexivity.
Qed.
Lemma pinger_echoes e p sent p1 :
  fine p → truthy (Z.land (options p) F_HDRINCL) = false → env_ok e → pinger e p = Ret (sent, p1) →
  Z.of_nat (length sent) = icmp_cc p ∧ sent = take (length sent) (outpack p1) ∧ take 4 (drop 4 sent) = query_tag p.
Proof.
  intros Hf Hh He Hs. destruct (pinger_sent e p Hf Hh He) as (q & Eq & Ht & Hl).
  rewrite Eq in Hs. clear Eq. injection Hs as Es E1.
  assert (Ho : outpack p1 = outpack q) by (rewrite <- E1; unfold counted; by case_match). rewrite <- Ho in Es.
  destruct Hf as (_ & F2 & _ & _ & _ & F6 & _ & F8 & F9 & _). unfold IP_MAXPACKET, icmp_cc, ICMP_MINLEN in *.
  assert (Hlen : Z.of_nat (length (outpack p1)) = 65515) by (rewrite Ho; unfold outpack, IPLEN; rewrite length_drop; lia).
  assert (Hsent : length sent = Z.to_nat (8 + phdr_len p + datalen p)) by (rewrite <- Es, length_take; lia).
  split_and!; [lia|by rewrite Hsent|]. rewrite <- Ht, <- Es. unfold tag. rewrite Ho.
  rewrite !take_drop_commute, take_take. do 2 f_equal. lia.
Qed.

Section echo.
Context (cf : config) (currenttime : output).

Lemma pr_data_equal buf p n :
  fine p → (Z.of_nat n <= IP_MAXPACKET - 20) →
  (∀ k, (4 <= k < n)%nat → buf !! (20 + k)%nat = outpack p !! k) →
  pr_data buf 20 (Z.of_nat n) (datalen p) p = Ret (tt, p).
Proof.
  intros Hf Hn Heq. pose proof (outpack_length p Hf) as Ho. destruct Hf as (_ & _ & _ & _ & _ & F6 & _).
  unfold pr_data. rewrite get_run. set (i := if timing p then TIMEVAL_LEN else 0).
  assert (0 <= i <= 8) by (unfold i, TIMEVAL_LEN; case_match; lia). clearbody i. unfold ICMP_MINLEN.
  rewrite check_data_equal; [done|]. intros k Hk.
  destruct (lookup_lt_is_Some_2 (outpack p) (Z.to_nat (8 + phdr_len p + i) + k)%nat ltac:(lia)) as [c Ec].
  exists c. split; [|done]. rewrite <- (assoc_L Nat.add), Heq by lia. done.
Qed.

(** C15: an echo reply with the contents of a query that [pinger] sent is a
    reply: its data passes the check against the packet that was sent, it is
    counted as received once, and a second copy is counted as a duplicate. *)
Theorem ping_echo (e : env) (p p1 : ping) (sent ip post from : bytes) (c1 c2 : Z) (tv1 tv2 : timeval) (tc : Z) :
  fine p → sweepmax p = 0 → datalen p <= IP_MAXPACKET - 68 → truthy (Z.land (options p) F_HDRINCL) = false →
  0 <= ident p < 65536 → env_ok e → pinger e p = Ret (sent, p1) →
  length ip = 20%nat → ip !! 0%nat = Some 0x45 →
  let buf := reply_packet ip (icmp_type_rsp cf) c1 c2 sent post in
  let cc := 20 + Z.of_nat (length sent) in
  bytes_ok buf → Z.of_nat (length buf) = IP_MAXPACKET →
  pr_data buf 20 (cc - 20) (datalen p1) p1 = Ret (tt, p1) ∧
  ∃ p2 p3,
    pr_pack cf currenttime buf cc from tv1 tc p1 = Ret (tt, p2) ∧
    pr_pack cf currenttime buf cc from tv2 tc p2 = Ret (tt, p3) ∧
    nreceived p2 = nreceived p + 1 ∧ nrepeats p2 = nrepeats p ∧
    nreceived p3 = nreceived p + 1 ∧ nrepeats p3 = nrepeats p + 1.
Proof.
  intros Hf Hw Hd Hh Hid He Hs Hip Hb0 buf cc Hbuf Hsize.
  destruct (pinger_echoes e p sent p1 Hf Hh He Hs) as (Hlen & Hsent & Htag).
  assert (H1 : fine p1 ∧ fixed p p1).
  { pose proof (pinger_pre p e p (conj Hf (reflexivity p))) as H. by rewrite Hs in H. }
  destruct H1 as [Hf1 Hx1]. assert (Hdl : datalen p1 = datalen p) by (by apply Hx1).
  assert (Hwl : sweepmax p1 = 0) by (destruct Hx1 as (_ & _ & _ & _ & _ & _ & _ & -> & _); done).
  assert (H8 : (8 <= length sent)%nat ∧ cc <= IP_MAXPACKET).
  { destruct Hf as (_ & _ & _ & _ & _ & F6 & _ & F8 & F9 & _). unfold cc, icmp_cc, ICMP_MINLEN, IP_MAXPACKET in *. lia. }
  destruct H8 as [H8 Hcc]. destruct (reply_heard cf ip c1 c2 sent post Hip Hb0 H8 p Hid Htag) as [E0 Hh1]. fold buf in E0, Hh1.
  assert (Hsafe : total (Pre p1) (pr_pack cf currenttime buf cc from tv1 tc) ∧ total (Pre p1) (pr_pack cf currenttime buf cc from tv2 tc)).
  { assert (Hz : ∀ seq, sizes_ok p1 seq) by (intros seq; unfold sizes_ok, seq_lens; rewrite Hwl, Hdl; done).
    split; apply (pr_pack_pre p1 cf currenttime buf Hbuf Hsize cc from _ tc 0x45); done. }
  split.
  { replace (cc - 20) with (Z.of_nat (length sent)) by (unfold cc; lia). apply pr_data_equal; [done|unfold cc in Hcc; lia|].
    intros k Hk. unfold buf. rewrite reply_octet by lia. rewrite Hsent at 1. by rewrite lookup_take_lt by lia. }
  destruct (abs_exists octets p) as [a Ha]; [apply Hf|].
  pose proof (pinger_abs e p a He ltac:(apply Hf) Ha) as Ha1. rewrite Hs in Ha1. simpl in Ha1.
  destruct Hsafe as [S1 S2]. specialize (S1 p1 (conj Hf1 (reflexivity p1))).
  pose proof (pr_pack_counts cf currenttime buf cc from tv1 tc p1 _ Hbuf Ha1) as A2.
  rewrite Hh1 in A2 by apply Hx1. destruct (pr_pack _ _ _ _ _ tv1 _ _) as [[[] p2]| |]; simpl in S1, A2; [|done|done].
  specialize (S2 p2 S1). pose proof (pr_pack_counts cf currenttime buf cc from tv2 tc p2 _ Hbuf A2) as A3.
  rewrite Hh1 in A3; [|destruct Hx1 as (_ & _ & _ & _ & _ & <- & _); apply S1].
  destruct (pr_pack _ _ _ _ _ tv2 _ _) as [[[] p3]| |] eqn:E3; simpl in S2, A3; [|done|done]. exists p2, p3.
  pose proof (abs_sent _ _ _ Ha) as Es. simpl in Es.
  assert (Em : (ntransmitted p mod 65536) mod table_size = a_sent a mod table_size).
  { rewrite <- Es. change 65536 with (table_size * 64). rewrite Z.rem_mul_r by done. rewrite (Z.mul_comm table_size).
    rewrite Z.mod_add, Z.mod_mod by done. done. }
  destruct (reply_twice table_size a _ Em) as (R1 & R2 & R3 & R4).
  pose proof (abs_first _ _ _ Ha) as B1. pose proof (abs_dup _ _ _ Ha) as B2.
  pose proof (abs_first _ _ _ A2) as B3. pose proof (abs_dup _ _ _ A2) as B4.
  pose proof (abs_first _ _ _ A3) as B5. pose proof (abs_dup _ _ _ A3) as B6. simpl in B1, B2, B3, B4, B5, B6.
  rewrite E3, B3, B4, B5, B6, B1, B2. done.
Qed.
End echo.

Definition sample_ip : bytes := 0x45 :: replicate 19 0.
Lemma ping_echo_witness :
  let p := sample_start in
  ∃ sent p1, pinger sample_env p = Ret (sent, p1) ∧
    let post := replicate (Z.to_nat IP_MAXPACKET - 20 - length sent) 0 in
    let buf := reply_packet sample_ip 0 0 0 sent post in
    ∃ p2 p3,
      pr_pack sample_cf [] buf (20 + Z.of_nat (length sent)) [10; 0; 0; 1] (TV 6 0) (-1) p1 = Ret (tt, p2) ∧
      pr_pack sample_cf [] buf (20 + Z.of_nat (length sent)) [10; 0; 0; 1] (TV 7 0) (-1) p2 = Ret (tt, p3) ∧
      nreceived p2 = 1 ∧ nrepeats p3 = 1.
Proof.
  cbv zeta. set (p := sample_start). assert (Hf : fine p) by (apply parsed_fine; [apply sample_parsed|done|by intros ?]).
  assert (F : sweepmax p = 0 ∧ datalen p = 56 ∧ options p = 0 ∧ ident p = 0x1234 ∧ icmp_cc p = 64 ∧ nreceived p = 0 ∧
    nrepeats p = 0) by done.
  clearbody p. destruct F as (F1 & F2 & F3 & F4 & F5 & F6 & F7).
  destruct (returns_inv _ _ (pinger_pre p sample_env p (conj Hf (reflexivity p)))) as ([sent p1] & E & Hp).
  exists sent, p1. split; [done|].
  destruct (pinger_echoes sample_env p sent p1 Hf ltac:(by rewrite F3) ltac:(by intros ?) E) as (Hl & Hs & _).
  rewrite F5 in Hl. assert (Hl' : length sent = 64%nat) by lia. rewrite Hl'.
  set (post := replicate _ 0).
  assert (Hbytes : bytes_ok sent) by (rewrite Hs; apply Forall_take, Forall_drop, Hp).
  destruct (ping_echo sample_cf [] sample_env p p1 sent sample_ip post [10; 0; 0; 1] 0 0 (TV 6 0) (TV 7 0) (-1)) as (_ & p2 & p3 & H1 & H2 & H3 & _ & _ & H4);
    rewrite ?F2, ?F3, ?F4; try done.
  - apply Forall_app. split; [by repeat constructor|]. apply Forall_app. split; [|apply bytes_ok_zeros].
    apply Forall_app. split; [by repeat constructor|by apply Forall_drop].
  - unfold reply_packet, post. rewrite !length_app, length_drop, length_replicate, Hl'. simpl length. unfold IP_MAXPACKET. lia.
  - rewrite Hl' in H1, H2. rewrite F6 in H3. rewrite F7 in H4. by exists p2, p3.
Defined.
