(* ===== verification/Tracert.v ===== *)
(** * Tracert: the route tracer (traceroute.tproj/traceroute.c)

    From the parsed options on: the probes of the five protocols, the matching
    of the answers ([packet_ok] with the [check] function of the protocol), and
    the loops of [main] over hops, probes and received packets. The outgoing
    packet [outip] is one buffer that is changed from probe to probe. *)

From S2P Require Import Prelude Timeval Stdio Md5 Cksum.

(** ** Protocols *)

(** The entries of the table [protos]; the last one is for any number. *)
Inductive outproto :=
  | Udp
  | Tcp
  | Gre
  | Icmp
  | Generic (pnum : Z).

Definition proto_num (pr : outproto) : Z :=
  match pr with Udp => 17 | Tcp => 6 | Gre => 47 | Icmp => 1 | Generic n => n end.
Definition hdrlen (pr : outproto) : Z :=
  match pr with Udp => 8 | Tcp => 20 | Gre => 8 | Icmp => 28 | Generic _ => 4 end.
Definition default_port (pr : outproto) : Z :=
  match pr with Udp | Tcp => 32768 + 666 | Gre => 0x880b | Icmp | Generic _ => 0 end.

(** [setproto]; [getprotobyname] is the database of the system, and [number]
    what [str2val] makes of the name. *)
Definition setproto (getprotobyname : bytes → option Z) (number : outcome Z) (pname : bytes) : outcome outproto :=
  let name s := bool_decide (map tolower pname = s) in
  if name [117; 100; 112] then Ret Udp
  else if name [116; 99; 112] then Ret Tcp
  else if name [103; 114; 101] then Ret Gre
  else if name [105; 99; 109; 112] then Ret Icmp
  else
    match getprotobyname pname with
    | Some n => Ret (Generic (u8 n))
    | None => n ← number; Ret (Generic (u8 n))
    end.

Definition proto_key (pr : outproto) : bytes :=
  match pr with
  | Udp => chars "spt dpt len sum"
  | Tcp => chars "spt dpt seq     ack     xxflwin sum urp"
  | Gre => chars "flg pro len clid"
  | Icmp => chars "typ cod sum "
  | Generic _ => []
  end.
Definition ip_hdr_key : bytes := chars "vhtslen id  off tlprsum srcip   dstip   opts".

(** ** The state *)

Record options := Options {
  proto : outproto;
  ident : Z;
  port : Z;
  fixedPort : bool;
  doipcksum : bool;
  packlen : Z;
  protlen : Z;
  nprobes : Z;
  first_ttl : Z;
  max_ttl : Z;
  verbose : Z;
  nflag : bool;
  sump : bool;
  printdiff : bool;
  waittime : Z;
  prog : bytes;
  hostname : bytes }.

Record trace := Trace {
  outip : bytes;
  pmtu : Z;
  hip : nat;
  hiplen : Z;
  seq : Z;
  sent : list bytes;
  lastaddr : bytes;
  gotlastaddr : Z;
  got_there : Z;
  unreachable : Z;
  loss : Z;
  printed : output }.
#[export] Instance eta_trace : Eta trace := λ t,
  Trace (outip t) (pmtu t) (hip t) (hiplen t) (seq t) (sent t) (lastaddr t) (gotlastaddr t) (got_there t)
    (unreachable t) (loss t) (printed t).

Abbreviation TR := (ST trace).
Definition Printf (f : string) (args : list arg) : TR unit :=
  modify (λ t, t <| printed := printed t ++ [(f, args)] |>).

(** A write into the outgoing packet, and a read from it. *)
Definition put_out (off : nat) (src : bytes) : TR unit := λ t,
  if (off + length src <=? length (outip t))%nat then Ret (tt, t <| outip := MD5.bcopy src (outip t) off |>) else Crash.
Definition get_out (off n : nat) : TR bytes := λ t,
  match read_at (outip t) off n with Some b => Ret (b, t) | None => Crash end.

(** [outp] points behind the IP header. *)
Definition outp : nat := 20.

(** A 16-bit field in network order, read in host order and written back. *)
Definition htons (x : Z) : Z := le_val (be16 x).

Section traceroute.
Context (o : options).

(** ** Probes: [seq] is the octet [outdata->seq] *)

(** The checksum of UDP and TCP, at offset [at_] of the header. *)
Definition put_cksum (at_ : nat) : TR unit :=
  if doipcksum o then
    p ← get_out 9 1;
    src ← get_out 12 4;
    dst ← get_out 16 4;
    data ← get_out outp (Z.to_nat (protlen o));
    let sum := Traceroute.p_cksum (p !!! 0%nat) src dst data in
    put_out (outp + at_) (Traceroute.le16 (if truthy sum then sum else 0xffff))
  else skip.

Definition udp_prep (seq : Z) : TR unit :=
  put_out outp (be16 (ident o + (if fixedPort o then seq else 0)));;
  put_out (outp + 2) (be16 (port o + (if fixedPort o then 0 else seq)));;
  put_out (outp + 4) (be16 (protlen o));;
  put_out (outp + 6) [0; 0];;
  put_cksum 6.

(** The sequence number is made of the ports as they are stored. *)
Definition TH_SYN : Z := 0x02.
Definition tcp_seq (seq : Z) : Z :=
  u32 (Z.lor (Z.shiftl (htons (ident o)) 16)
         (htons (port o + (if fixedPort o then 0 else seq)) + (if fixedPort o then seq else 0))).
Definition tcp_prep (seq : Z) : TR unit :=
  put_out outp (be16 (ident o));;
  put_out (outp + 2) (be16 (port o + (if fixedPort o then 0 else seq)));;
  put_out (outp + 4) (Traceroute.le32 (tcp_seq seq));;
  put_out (outp + 8) [0; 0; 0; 0];;
  off ← get_out (outp + 12) 1;
  put_out (outp + 12) [Z.lor (Z.land (off !!! 0%nat) 0x0f) 0x50];;
  put_out (outp + 13) [TH_SYN];;
  put_out (outp + 16) [0; 0];;
  put_cksum 16.

Definition gre_prep (seq : Z) : TR unit :=
  put_out outp (be16 0x2001);;
  put_out (outp + 2) (be16 (port o));;
  put_out (outp + 4) [0; 0];;
  put_out (outp + 6) (be16 (ident o + seq)).

Definition gen_prep (seq : Z) : TR unit :=
  put_out outp (be16 (ident o));;
  put_out (outp + 2) (be16 (port o + seq)).

Definition icmp_prep (seq : Z) : TR unit :=
  put_out outp [8];;
  put_out (outp + 4) (be16 (ident o));;
  put_out (outp + 6) (be16 seq);;
  put_out (outp + 2) [0; 0];;
  data ← get_out outp (Z.to_nat (protlen o));
  let sum := Traceroute.in_cksum data in
  put_out (outp + 2) (Traceroute.le16 (if truthy sum then sum else 0xffff)).

Definition prepare (seq : Z) : TR unit :=
  match proto o with
  | Udp => udp_prep seq
  | Tcp => tcp_prep seq
  | Gre => gre_prep seq
  | Icmp => icmp_prep seq
  | Generic _ => gen_prep seq
  end.

(** The packet in words, with the verbose option given twice. *)
Fixpoint dump_words (i : nat) (l : bytes) : output :=
  let line := if (i mod 8 =? 0)%nat then [("\n\t", [])%string] else [] in
  match l with
  | a :: b :: l => line ++ [(" %04x", [Num (be_val [a; b])])%string] ++ dump_words (S i) l
  | [a] => line ++ [(" %02x", [Num a])%string]
  | [] => []
  end.

(** [cc] is the result of [sendto]. *)
Definition send_probe (seq ttl cc : Z) : TR unit :=
  put_out 8 [u8 ttl];;
  put_out 4 (be16 (ident o + seq));;
  t ← get;
  (if 1 <? verbose o then
     Printf "[ %d bytes" [Num (packlen o)];;
     modify (λ t, t <| printed := printed t ++ dump_words 0 (outip t) |>);;
     Printf "]\n" []
   else skip);;
  modify (λ t, t <| sent := sent t ++ [outip t] |>);;
  if (cc <? 0) || negb (cc =? packlen o) then
    Printf "%s: wrote %s %d chars, ret=%d\n" [Str (prog o); Str (hostname o); Num (packlen o); Num cc]
  else skip.

(** ** Answers *)

Section packet.
Context (buf : bytes).

Definition udp_check (data : nat) (seq : Z) : outcome bool :=
  sport ← of_opt (rd16 buf data);
  if negb (sport =? ident o + (if fixedPort o then seq else 0)) then Ret false
  else dport ← of_opt (rd16 buf (data + 2)); Ret (dport =? port o + (if fixedPort o then 0 else seq)).

Definition tcp_check (data : nat) (seq : Z) : outcome bool :=
  sport ← of_opt (rd16 buf data);
  if negb (sport =? ident o) then Ret false
  else
    dport ← of_opt (rd16 buf (data + 2));
    if negb (dport =? port o + (if fixedPort o then 0 else seq)) then Ret false
    else
      s ← of_opt (read_at buf (data + 4) 4);
      Ret (le_val s =? u32 (Z.lor (Z.shiftl (ident o) 16) (port o + seq))).

Definition gre_check (data : nat) (seq : Z) : outcome bool :=
  p ← of_opt (rd16 buf (data + 2));
  if negb (p =? port o) then Ret false
  else callId ← of_opt (rd16 buf (data + 6)); Ret (callId =? ident o + seq).

Definition gen_check (data : nat) (seq : Z) : outcome bool :=
  p0 ← of_opt (rd16 buf data);
  if negb (p0 =? ident o) then Ret false
  else p1 ← of_opt (rd16 buf (data + 2)); Ret (p1 =? port o + seq).

Definition icmp_check (data : nat) (seq : Z) : outcome bool :=
  id ← of_opt (rd16le buf (data + 4));
  if negb (id =? htons (ident o)) then Ret false
  else s ← of_opt (rd16le buf (data + 6)); Ret (s =? htons seq).

Definition check (data : nat) (seq : Z) : outcome bool :=
  match proto o with
  | Udp => udp_check data seq
  | Tcp => tcp_check data seq
  | Gre => gre_check data seq
  | Icmp => icmp_check data seq
  | Generic _ => gen_check data seq
  end.

Definition pr_type (ty : Z) : string :=
  nth (Z.to_nat ty)
    ["Echo Reply"; "ICMP 1"; "ICMP 2"; "Dest Unreachable"; "Source Quench"; "Redirect"; "ICMP 6"; "ICMP 7";
     "Echo"; "ICMP 9"; "ICMP 10"; "Time Exceeded"; "Param Problem"; "Timestamp"; "Timestamp Reply"; "Info Request";
     "Info Reply"]%string "OUT-OF-RANGE"%string.

(** The words of an unexpected message: [i] from 4 on while it is below [cc]. *)
Fixpoint dump_icmp (n : nat) (i cc : Z) (lp : nat) : outcome output :=
  match n with
  | O => Ret []
  | S n =>
      if i <? cc then
        w ← of_opt (read_at buf lp 4);
        rest ← dump_icmp n (i + 4) cc (lp + 4);
        Ret (("%2d: x%8.8x\n", [Num i; Num (le_val w)])%string :: rest)
      else Ret []
  end.

(** The result: 0, or -2 for the echo reply of the destination, -1 for a
    router, and the code of an unreachable message plus one. *)
Definition packet_ok (cc : Z) (from : bytes) (seq : Z) : TR Z :=
  b0 ← lift (of_opt (rd8 buf 0));
  let hlen := Z.land b0 0x0f * 4 in
  if cc <? hlen + 8 then
    (if truthy (verbose o) then Printf "packet too short (%d bytes) from %s\n" [Num cc; Addr from] else skip);;
    mret 0
  else
    let cc := cc - hlen in
    let icp := Z.to_nat hlen in
    ty ← lift (of_opt (rd8 buf icp));
    code ← lift (of_opt (rd8 buf (icp + 1)));
    mtu ← lift (if negb (code =? 4) then Ret 0 else of_opt (rd16 buf (icp + 6)));
    modify (λ t, t <| pmtu := mtu |>);;
    echoed ← lift (if (ty =? 0) && (proto_num (proto o) =? 1) then check icp (u8 seq) else Ret false);
    if echoed : bool then mret (-2)
    else
      let quoting := ((ty =? 11) && (code =? 0)) || (ty =? 3) in
      ours ← (if quoting then
                modify (λ t, t <| hip := (icp + 8)%nat |> <| hiplen := cc - 8 |>);;
                h ← lift (of_opt (rd8 buf (icp + 8)));
                let hlen := Z.land h 0x0f * 4 in
                lift (if hlen + 12 <=? cc then
                        p ← of_opt (rd8 buf (icp + 8 + 9));
                        if p =? proto_num (proto o) then check (icp + 8 + Z.to_nat hlen) (u8 seq) else Ret false
                      else Ret false)
              else mret false);
      if ours : bool then mret (if ty =? 11 then -1 else code + 1)
      else
        (if truthy (verbose o) then
           dst ← lift (of_opt (read_at buf 16 4));
           Printf "\n%d bytes from %s to " [Num cc; Addr from];;
           Printf "%s: icmp type %d (%s) code %d\n" [Addr dst; Num ty; Str (chars (pr_type ty)); Num code];;
           words ← lift (dump_icmp (Z.to_nat cc) 4 cc (icp + 8));
           modify (λ t, t <| printed := printed t ++ words |>)
         else skip);;
        mret 0.

End packet.

(** ** The loops of [main] *)

(** What [wait_for_reply] leaves: the packet buffer, the count, the sender and
    the time; a count of -1 is an error of [recvfrom]. *)
Record reply := Reply { r_buf : bytes; r_cc : Z; r_from : bytes; r_time : Z }.

(** The time to wait: until [waittime] seconds after the probe. *)
Definition tvsub (out in_ : timeval) : timeval :=
  let usec := s32 (tv_usec out - tv_usec in_) in
  let '(sec, usec) := if usec <? 0 then (tv_sec out - 1, s32 (usec + 1000000)) else (tv_sec out, usec) in
  TV (sec - tv_sec in_) usec.
Definition wait_time (tp now : timeval) : timeval :=
  let wait := tvsub (TV (tv_sec tp + waittime o) (tv_usec tp)) now in
  if tv_sec wait <? 0 then TV 0 1 else wait.

(** The line of a new sender; the number of its autonomous system is not
    modelled. *)
Definition print (buf : bytes) (cc : Z) (from : bytes) : TR unit :=
  b0 ← lift (of_opt (rd8 buf 0));
  let cc := cc - Z.land b0 0x0f * 4 in
  (if nflag o then Printf " %s" [Addr from] else Printf " %s (%s)" [Addr from; Addr from]);;
  (if truthy (verbose o) then
     dst ← lift (of_opt (read_at buf 16 4)); Printf " %d bytes to %s" [Num cc; Addr dst]
   else skip).

(** [pkt_compare] of the packet sent with the quoted one. *)
Fixpoint compare_octets (a b : bytes) : output :=
  match a, b with
  | x :: a, y :: b => (if x =? y then ("__", [])%string else ("%02x", [Num y])%string) :: compare_octets a b
  | [], b => (λ y, ("%02x", [Num y])%string) <$> b
  | _, [] => []
  end.
Definition pkt_compare (a b : bytes) : output :=
  ((λ x, ("%02x", [Num x])%string) <$> a) ++ [("\n", [])%string] ++ compare_octets a b ++ [("\n", [])%string].
Definition show_diff (buf : bytes) : TR unit :=
  if printdiff o then
    Printf "\n" [];;
    b0 ← get_out 0 1;
    let width := Z.land (b0 !!! 0%nat) 0x0f * 8 in
    Printf "%*.*s%s\n" [Num (- width); Num width; Str ip_hdr_key; Str (proto_key (proto o))];;
    t ← get;
    q ← lift (of_opt (read_at buf (hip t) (Z.to_nat (hiplen t))));
    modify (λ t, t <| printed := printed t ++ pkt_compare (outip t) q |>)
  else skip.

Definition mark_ttl (buf : bytes) : TR unit :=
  ttl ← lift (of_opt (rd8 buf 8));
  if ttl <=? 1 then Printf " !" [] else skip.
Definition arrived : TR unit := modify (λ t, t <| got_there := got_there t + 1 |>).
Definition blocked (f : string) (args : list arg) : TR unit :=
  modify (λ t, t <| unreachable := unreachable t + 1 |>);; Printf f args.

(** The codes of an unreachable message. *)
Definition show_code (buf : bytes) (code : Z) : TR unit :=
  t ← get;
  if code =? 3 then mark_ttl buf;; arrived
  else if code =? 0 then blocked " !N" []
  else if code =? 1 then blocked " !H" []
  else if code =? 2 then arrived;; Printf " !P" []
  else if code =? 4 then blocked " !F-%d" [Num (pmtu t)]
  else if code =? 5 then blocked " !S" []
  else if code =? 6 then blocked " !U" []
  else if code =? 7 then blocked " !W" []
  else if code =? 8 then blocked " !I" []
  else if code =? 9 then blocked " !A" []
  else if code =? 10 then blocked " !Z" []
  else if code =? 11 then blocked " !Q" []
  else if code =? 12 then blocked " !T" []
  else if code =? 13 then blocked " !X" []
  else if code =? 14 then blocked " !V" []
  else if code =? 15 then blocked " !C" []
  else blocked " !<%d>" [Num code].

(** The name of a sender that is not the last one. *)
Definition greet (r : reply) : TR unit :=
  t ← get;
  if (gotlastaddr t =? 0) || negb (bool_decide (r_from r = lastaddr t)) then
    (if truthy (gotlastaddr t) then Printf "\n   " [] else skip);;
    print (r_buf r) (r_cc r) (r_from r);;
    modify (λ t, t <| lastaddr := r_from r |> <| gotlastaddr := gotlastaddr t + 1 |>)
  else skip.

(** An answer to the probe, with the result [i] of [packet_ok]. *)
Definition accept (r : reply) (i : Z) : TR unit :=
  greet r;;
  Printf "  %.*f ms" [Num 3; Num (r_time r)];;
  show_diff (r_buf r);;
  if i =? -2 then mark_ttl (r_buf r);; arrived
  else if i =? -1 then skip
  else show_code (r_buf r) (i - 1).

(** The packets that arrive until one answers the probe or the time is over. *)
Fixpoint wait_loop (rs : list reply) : TR unit :=
  match rs with
  | [] => modify (λ t, t <| loss := loss t + 1 |>);; Printf " *" []
  | r :: rs =>
      t ← get;
      i ← packet_ok (r_buf r) (r_cc r) (r_from r) (seq t);
      if i =? 0 then wait_loop rs else accept r i
  end.

(** The network: the packets delivered after a probe, given all that was sent,
    and the result of [sendto]. *)
Context (net : list bytes → list reply) (sendto : list bytes → Z).

Definition do_probe (ttl : Z) : TR unit :=
  modify (λ t, t <| seq := seq t + 1 |>);;
  t ← get;
  prepare (u8 (seq t));;
  send_probe (seq t) ttl (sendto (sent t));;
  t ← get;
  wait_loop (net (sent t)).

Fixpoint do_probes (n : nat) (ttl : Z) : TR unit :=
  match n with
  | O => skip
  | S n => do_probe ttl;; do_probes n ttl
  end.

(** A hop: [true] when the last one is reached. *)
Definition do_hop (ttl : Z) : TR bool :=
  modify (λ t, t <| lastaddr := [0; 0; 0; 0] |> <| gotlastaddr := 0 |> <| got_there := 0 |> <| unreachable := 0 |>
                 <| loss := 0 |>);;
  Printf "%2d " [Num ttl];;
  do_probes (Z.to_nat (nprobes o)) ttl;;
  t ← get;
  (if sump o then Printf " (%d%% loss)" [Num (Z.quot (s32 (loss t * 100)) (nprobes o))] else skip);;
  Printf "\n" [];;
  mret (truthy (got_there t) || ((0 <? unreachable t) && (nprobes o - 1 <=? unreachable t))).

(** [for (ttl = first_ttl; ttl <= max_ttl; ++ttl)], with [n] hops left. *)
Fixpoint hops (n : nat) (ttl : Z) : TR unit :=
  match n with
  | O => skip
  | S n => last ← do_hop ttl; if last : bool then skip else hops n (ttl + 1)
  end.

Definition main : TR unit := hops (Z.to_nat (max_ttl o - first_ttl o + 1)) (first_ttl o).

End traceroute.

(** The packet before the first probe. *)
Definition first_packet (o : options) (settos : option Z) (off : Z) (src dst : bytes) : bytes :=
  [0x45; default 0 settos] ++ Traceroute.le16 (packlen o) ++ [0; 0] ++ Traceroute.le16 off ++ [0; proto_num (proto o); 0; 0]
    ++ src ++ dst ++ replicate (Z.to_nat (packlen o) - 20) 0.
Definition minpacket (pr : outproto) (optlen : Z) : Z := 20 + hdrlen pr + 24 + optlen.

(** The globals before the first hop. *)
Definition begin (o : options) (settos : option Z) (off : Z) (src dst : bytes) : trace :=
  Trace (first_packet o settos off src dst) 0 0 0 0 [] [0; 0; 0; 0] 0 0 0 0 [].
