(* ===== verification/TracertFun.v ===== *)
(** * TracertFun: properties of traceroute

    What the probes hold, that an error message that quotes a probe is
    recognised as its answer and as no other's, that the packet buffers are not
    left, and the route that is printed for a path of routers. *)

From S2P Require Import Prelude Timeval Stdio Md5 Cksum Tracert.

#[local] Opaque Traceroute.p_cksum Traceroute.in_cksum.

(** ** The outgoing packet

    The IP header [h] and the rest [d]. *)

Lemma bcopy_app src (h d : bytes) k : length h = 20%nat →
  MD5.bcopy src (h ++ d) (outp + k) = h ++ MD5.bcopy src d k.
Proof.
  intros Hh. unfold MD5.bcopy, outp. rewrite take_app_ge by lia. rewrite drop_app_ge by lia. rewrite <- (assoc_L (++)).
  rewrite Hh. do 2 f_equal; [f_equal; lia|]. do 2 f_equal. lia.
Qed.

Lemma put_run src k t h d : outip t = h ++ d → length h = 20%nat → (k + length src <= length d)%nat →
  put_out (outp + k) src t = Ret (tt, t <| outip := h ++ MD5.bcopy src d k |>).
Proof.
  intros E Hh Hk. unfold put_out. rewrite E, length_app, Hh. rewrite (proj2 (Nat.leb_le _ _)) by (unfold outp; lia).
  by rewrite bcopy_app.
Qed.
Lemma put0_run src t h d : outip t = h ++ d → length h = 20%nat → (length src <= length d)%nat →
  put_out outp src t = Ret (tt, t <| outip := h ++ MD5.bcopy src d 0 |>).
Proof. intros E Hh Hk. by apply (put_run src 0). Qed.

Lemma get_payload n t h d : outip t = h ++ d → length h = 20%nat → (n <= length d)%nat →
  get_out outp n t = Ret (take n d, t).
Proof.
  intros E Hh Hn. unfold get_out, read_at. rewrite E, bool_decide_true by (rewrite length_app, Hh; unfold outp; lia).
  by rewrite drop_app_length' by done.
Qed.
Lemma get_header off n t h d : outip t = h ++ d → length h = 20%nat → (off + n <= 20)%nat →
  get_out off n t = Ret (take n (drop off h), t).
Proof.
  intros E Hh Hn. unfold get_out, read_at. rewrite E, bool_decide_true by (rewrite length_app, Hh; lia).
  rewrite drop_app_le by lia. by rewrite take_app_le by (rewrite length_drop; lia).
Qed.

Section probes.
Context (o : options).

(** The transport checksum over the header [h]. *)
Definition cksum_of (h data : bytes) : Z :=
  Traceroute.p_cksum (h !!! 9%nat) (take 4 (drop 12 h)) (take 4 (drop 16 h)) data.

Lemma put_cksum_run at_ t h d :
  outip t = h ++ d → length h = 20%nat → (at_ + 2 <= length d)%nat → (Z.to_nat (protlen o) <= length d)%nat →
  put_cksum o at_ t = Ret (tt, if doipcksum o then
    t <| outip := h ++ MD5.bcopy (Traceroute.le16 (nonzero (cksum_of h (take (Z.to_nat (protlen o)) d)))) d at_ |> else t).
Proof.
  intros E Hh Ha Hp. unfold put_cksum. destruct (doipcksum o); [|done].
  rewrite (bind_run _ _ _ _ _ (get_header 9 1 t h d E Hh ltac:(lia))).
  rewrite (bind_run _ _ _ _ _ (get_header 12 4 t h d E Hh ltac:(lia))).
  rewrite (bind_run _ _ _ _ _ (get_header 16 4 t h d E Hh ltac:(lia))).
  rewrite (bind_run _ _ _ _ _ (get_payload (Z.to_nat (protlen o)) t h d E Hh Hp)).
  assert (E9 : take 1 (drop 9 h) !!! 0%nat = h !!! 9%nat).
  { rewrite !list_lookup_total_alt. rewrite lookup_take_lt, lookup_drop by lia. reflexivity. }
  cbv zeta. rewrite E9. unfold cksum_of, nonzero. generalize (Traceroute.p_cksum (h !!! 9%nat) (take 4 (drop 12 h))
    (take 4 (drop 16 h)) (take (Z.to_nat (protlen o)) d)). intros c.
  rewrite (put_run _ _ _ h d E Hh) by (simpl; lia). reflexivity.
Qed.

(** The payload of a probe with the octet [s], over the old payload [d]. *)
Definition drafted (d : bytes) (s : Z) : bytes :=
  match proto o with
  | Udp => be16 (ident o + (if fixedPort o then s else 0)) ++ be16 (port o + (if fixedPort o then 0 else s))
             ++ be16 (protlen o) ++ [0; 0] ++ drop 8 d
  | Tcp => be16 (ident o) ++ be16 (port o + (if fixedPort o then 0 else s)) ++ Traceroute.le32 (tcp_seq o s)
             ++ [0; 0; 0; 0; Z.lor (Z.land (d !!! 12%nat) 0x0f) 0x50; TH_SYN] ++ take 2 (drop 14 d) ++ [0; 0] ++ drop 18 d
  | Gre => be16 0x2001 ++ be16 (port o) ++ [0; 0] ++ be16 (ident o + s) ++ drop 8 d
  | Icmp => [8; d !!! 1%nat; 0; 0] ++ be16 (ident o) ++ be16 s ++ drop 8 d
  | Generic _ => be16 (ident o) ++ be16 (port o + s) ++ drop 4 d
  end.
Definition payload (h d : bytes) (s : Z) : bytes :=
  let d1 := drafted d s in
  let data := take (Z.to_nat (protlen o)) d1 in
  match proto o with
  | Udp => if doipcksum o then MD5.bcopy (Traceroute.le16 (nonzero (cksum_of h data))) d1 6 else d1
  | Tcp => if doipcksum o then MD5.bcopy (Traceroute.le16 (nonzero (cksum_of h data))) d1 16 else d1
  | Icmp => MD5.bcopy (Traceroute.le16 (nonzero (Traceroute.in_cksum data))) d1 2
  | Gre | Generic _ => d1
  end.

Definition header_room (pr : outproto) : nat := match pr with Udp | Gre | Icmp => 8 | Tcp => 20 | Generic _ => 4 end.

Ltac cells d n :=
  lazymatch n with
  | O => idtac
  | S ?n => let c := fresh "c" in destruct d as [|c d]; [simpl in *; lia|]; cells d n
  end.

Lemma drafted_length d s : (header_room (proto o) <= length d)%nat → length (drafted d s) = length d.
Proof.
  intros H. unfold drafted, header_room in *. destruct (proto o).
  - by cells d 8%nat.
  - by cells d 20%nat.
  - by cells d 8%nat.
  - by cells d 8%nat.
  - by cells d 4%nat.
Qed.

Lemma put_bind {A} src k t h d (m : unit → TR A) : length h = 20%nat → (k + length src <= length d)%nat →
  (put_out (outp + k) src ≫= m) (t <| outip := h ++ d |>) = m tt (t <| outip := h ++ MD5.bcopy src d k |>).
Proof. intros Hh Hk. by erewrite bind_run by (apply (put_run src k _ h d); done). Qed.
Lemma put0_bind {A} src t h d (m : unit → TR A) : length h = 20%nat → (length src <= length d)%nat →
  (put_out outp src ≫= m) (t <| outip := h ++ d |>) = m tt (t <| outip := h ++ MD5.bcopy src d 0 |>).
Proof. apply (put_bind src 0). Qed.

Lemma get_bind {A} n k t h d (m : bytes → TR A) : length h = 20%nat → (k + n <= length d)%nat →
  (get_out (outp + k) n ≫= m) (t <| outip := h ++ d |>) = m (take n (drop k d)) (t <| outip := h ++ d |>).
Proof.
  intros Hh Hk. erewrite bind_run; [reflexivity|]. unfold get_out, read_at, outp.
  rewrite bool_decide_true by (simpl; rewrite length_app, Hh; lia). simpl outip. rewrite drop_app_ge by lia.
  by replace (20 + k - length h)%nat with k by lia.
Qed.

(** After the last write the payload is the draft. *)
Lemma sealed at_ s t h d : length h = 20%nat → (at_ + 2 <= length d)%nat → (header_room (proto o) <= length d)%nat →
  (Z.to_nat (protlen o) <= length d)%nat →
  put_cksum o at_ (t <| outip := h ++ drafted d s |>) = Ret (tt, t <| outip := h ++
    (if doipcksum o then
       MD5.bcopy (Traceroute.le16 (nonzero (cksum_of h (take (Z.to_nat (protlen o)) (drafted d s))))) (drafted d s) at_
     else drafted d s) |>).
Proof.
  intros Hh Ha Hr Hp. rewrite (put_cksum_run at_ _ h (drafted d s)) by (rewrite ?drafted_length by done; done).
  by destruct (doipcksum o).
Qed.

Lemma udp_run s t h d : proto o = Udp → length h = 20%nat → (8 <= length d)%nat → (Z.to_nat (protlen o) <= length d)%nat →
  udp_prep o s (t <| outip := h ++ d |>) = Ret (tt, t <| outip := h ++ payload h d s |>).
Proof.
  intros Ep Hh Hr Hp. unfold payload. rewrite Ep. cbv zeta. rewrite <- sealed; rewrite ?Ep; [|done|simpl; lia..].
  cells d 8%nat. unfold udp_prep. rewrite put0_bind by (simpl; lia). rewrite !put_bind by (simpl; lia). do 2 f_equal.
  unfold drafted. by rewrite Ep.
Qed.
Lemma tcp_run s t h d : proto o = Tcp → length h = 20%nat → (20 <= length d)%nat → (Z.to_nat (protlen o) <= length d)%nat →
  tcp_prep o s (t <| outip := h ++ d |>) = Ret (tt, t <| outip := h ++ payload h d s |>).
Proof.
  intros Ep Hh Hr Hp. unfold payload. rewrite Ep. cbv zeta. rewrite <- sealed; rewrite ?Ep; [|done|simpl; lia..].
  cells d 20%nat. unfold tcp_prep. rewrite put0_bind by (simpl; lia). rewrite !put_bind by (simpl; lia).
  rewrite get_bind by (simpl; lia). rewrite !put_bind by (simpl; lia). do 2 f_equal.
  unfold drafted. by rewrite Ep.
Qed.
Lemma icmp_run s t h d : proto o = Icmp → length h = 20%nat → (8 <= length d)%nat → (Z.to_nat (protlen o) <= length d)%nat →
  icmp_prep o s (t <| outip := h ++ d |>) = Ret (tt, t <| outip := h ++ payload h d s |>).
Proof.
  intros Ep Hh Hr Hp. assert (Hl := drafted_length d s). rewrite Ep in Hl. specialize (Hl Hr).
  transitivity ((data ← get_out (outp + 0) (Z.to_nat (protlen o));
    put_out (outp + 2) (Traceroute.le16 (nonzero (Traceroute.in_cksum data)))) (t <| outip := h ++ drafted d s |>)).
  - clear Hl. unfold drafted. rewrite Ep. cells d 8%nat. unfold icmp_prep.
    rewrite put0_bind by (simpl; lia). by rewrite !put_bind by (simpl; lia).
  - rewrite get_bind by (simpl; lia). rewrite (put_run _ _ _ h (drafted d s)) by (simpl; lia || done).
    unfold payload. rewrite Ep. reflexivity.
Qed.

Lemma prepare_run s t h d : outip t = h ++ d → length h = 20%nat → (header_room (proto o) <= length d)%nat →
  (Z.to_nat (protlen o) <= length d)%nat →
  prepare o s t = Ret (tt, t <| outip := h ++ payload h d s |>).
Proof.
  intros E Hh Hr Hp. replace t with (t <| outip := h ++ d |>) at 1 by (by destruct t; simpl in *; subst).
  unfold prepare. destruct (proto o) eqn:Ep; simpl in Hr.
  - by apply udp_run.
  - by apply tcp_run.
  - unfold payload, drafted. rewrite Ep. cells d 8%nat. unfold gre_prep. rewrite put0_bind by (simpl; lia).
    rewrite !put_bind by (simpl; lia). by rewrite (put_run _ _ _ h (MD5.bcopy _ _ _)) by (simpl; lia || done).
  - by apply icmp_run.
  - unfold payload, drafted. rewrite Ep. cells d 4%nat. unfold gen_prep. rewrite put0_bind by (simpl; lia).
    by rewrite (put_run _ _ _ h (MD5.bcopy _ _ _)) by (simpl; lia || done).
Qed.

(** ** The probe in an answer *)

(** The octet [s] is recovered from the probe: no field wraps around. *)
Definition recoverable (s : Z) : bool :=
  match proto o with
  | Udp => (ident o + (if fixedPort o then s else 0) <? 65536) && (port o + (if fixedPort o then 0 else s) <? 65536)
  | Gre => ident o + s <? 65536
  | Icmp => true
  | Generic _ => port o + s <? 65536
  | Tcp => false
  end.

Lemma wrapped x s s' : 0 <= x < 65536 → 0 <= s < 256 → 0 <= s' < 256 →
  ((x + s) mod 65536 =? x + s') = (s =? s') && (x + s' <? 65536).
Proof. intros Hx Hs Hs'. apply eq_bool_prop_intro. rewrite andb_True, !Is_true_true, !Z.eqb_eq, Z.ltb_lt. zlia. Qed.

Lemma rd16_pre (pre l : bytes) k : rd16 (pre ++ l) (length pre + k) = rd16 l k.
Proof.
  unfold rd16, read_at. rewrite length_app. rewrite drop_app_ge by lia. replace (length pre + k - length pre)%nat with k by lia.
  repeat case_bool_decide; done || lia.
Qed.
Lemma rd16le_pre (pre l : bytes) k : rd16le (pre ++ l) (length pre + k) = rd16le l k.
Proof.
  unfold rd16le, read_at. rewrite length_app. rewrite drop_app_ge by lia. replace (length pre + k - length pre)%nat with k by lia.
  repeat case_bool_decide; done || lia.
Qed.
Lemma rd16_at0 (pre l : bytes) : rd16 (pre ++ l) (length pre) = rd16 l 0.
Proof. rewrite <- (rd16_pre pre l 0). f_equal. lia. Qed.

(** The 16-bit words of a buffer that starts with the octets of [x]. *)
Lemma rd16_cells x (l : bytes) : rd16 (u8 (Z.shiftr x 8) :: u8 x :: l) 0 = Some (x mod 65536).
Proof. unfold rd16. rewrite read_at_0 by (simpl; lia). simpl take. cbn [fmap option_fmap option_map]. by rewrite <- be_val_be16_mod. Qed.
Lemma rd16_skip a (l : bytes) k : rd16 (a :: l) (S k) = rd16 l k.
Proof. apply (rd16_pre [a]). Qed.
Lemma rd16le_skip a (l : bytes) k : rd16le (a :: l) (S k) = rd16le l k.
Proof. apply (rd16le_pre [a]). Qed.
Lemma rd16le_cells x (l : bytes) : rd16le (u8 (Z.shiftr x 8) :: u8 x :: l) 0 = Some (htons x).
Proof. unfold rd16le. rewrite read_at_0 by (simpl; lia). reflexivity. Qed.

Lemma htons_inj x y : 0 <= x < 65536 → 0 <= y < 65536 → (htons x =? htons y) = (x =? y).
Proof.
  intros Hx Hy. apply eq_bool_prop_intro. rewrite !Is_true_true, !Z.eqb_eq. unfold htons, le_val, be16, u8. simpl.
  unfold be_val. simpl. rewrite !Z.shiftr_div_pow2 by lia. change (2 ^ 8) with 256. zlia.
Qed.

Lemma guarded (a b : bool) : (if negb a then Ret false else Ret b) = Ret (a && b).
Proof. by destruct a. Qed.

Ltac fields :=
  unfold be16; simpl app; simpl take; rewrite ?rd16_skip, ?rd16_cells, ?rd16le_skip, ?rd16le_cells;
  cbn [of_opt mbind outcome_bind]; rewrite guarded; f_equal.

Lemma check_payload pre h d s s' m rest : proto o ≠ Tcp → 0 <= ident o < 65536 → 0 <= port o < 65536 →
  0 <= s < 256 → 0 <= s' < 256 → (8 <= m)%nat → (8 <= length d)%nat →
  check o (pre ++ take m (payload h d s) ++ rest) (length pre) s' = Ret ((s =? s') && recoverable s').
Proof.
  intros Hp Hi Hpo Hs Hs' Hm Hd. do 8 (destruct m as [|m]; [lia|]). cells d 8%nat.
  assert (Ei : (ident o mod 65536 =? ident o) = true) by (apply Z.eqb_eq, Z.mod_small; lia).
  assert (Eq : (port o mod 65536 =? port o) = true) by (apply Z.eqb_eq, Z.mod_small; lia).
  assert (Li : (ident o <? 65536) = true) by (apply Z.ltb_lt; lia).
  assert (Lp : (port o <? 65536) = true) by (apply Z.ltb_lt; lia).
  unfold check, recoverable, payload, drafted. destruct (proto o) eqn:Ep; [|done|..].
  - unfold udp_check. rewrite rd16_at0, rd16_pre. destruct (fixedPort o), (doipcksum o); rewrite !Z.add_0_r;
      fields; rewrite wrapped, ?Ei, ?Eq, ?Li, ?Lp by done; simpl; by rewrite ?andb_true_r.
  - unfold gre_check. rewrite !rd16_pre. fields. by rewrite wrapped, Eq.
  - unfold icmp_check. rewrite !rd16le_pre. fields. by rewrite !htons_inj, Z.eqb_refl, andb_true_r by lia.
  - unfold gen_check. rewrite rd16_at0, rd16_pre. fields. by rewrite wrapped, Ei.
Qed.

(** An error message about a probe: the IP header [outer], an ICMP header with
    the four octets [mid] behind the checksum, and the quoted packet, of which a router may have changed
    any part of the header but the first octet and the protocol. *)
Definition header_of (outer : bytes) : Prop :=
  ∃ b0, outer !! 0%nat = Some b0 ∧ Z.of_nat (length outer) = Z.land b0 0x0f * 4 ∧ (20 <= length outer)%nat.
Definition message (outer : bytes) (ty code : Z) (mid h data rest : bytes) : bytes :=
  outer ++ ([ty; code] ++ mid) ++ h ++ data ++ rest.
Definition quoted_header (h : bytes) : Prop :=
  length h = 20%nat ∧ h !! 0%nat = Some 0x45 ∧ h !! 9%nat = Some (proto_num (proto o)).
Definition reports (ty code : Z) : Prop := (ty = 11 ∧ code = 0) ∨ (ty = 3 ∧ 0 <= code).

(** What [packet_ok] makes of it. *)
Definition verdict (ty code : Z) : Z := if ty =? 11 then -1 else code + 1.
Definition noted (outer : bytes) (code : Z) (mid : bytes) (cc : Z) (t : trace) : trace :=
  t <| pmtu := if code =? 4 then be_val (drop 4 mid) else 0 |>
    <| hip := (length outer + 8)%nat |> <| hiplen := cc - Z.of_nat (length outer) - 8 |>.

Section message.
Context (outer mid h data rest : bytes) (ty code : Z).
Context (Houter : header_of outer) (Hmid : length mid = 6%nat) (Hh : quoted_header h) (Hr : reports ty code).
Abbreviation buf := (message outer ty code mid h data rest).

Lemma message_first : ∃ b0, rd8 buf 0 = Some b0 ∧ Z.land b0 0x0f * 4 = Z.of_nat (length outer).
Proof.
  destruct Houter as (b0 & H0 & Hl & _). exists b0. split; [|done]. unfold rd8, message. by apply lookup_app_l_Some.
Qed.
Lemma message_icmp k : (k < 8)%nat → rd8 buf (length outer + k) = ([ty; code] ++ mid) !! k.
Proof. intros Hk. unfold message. apply rd8_mid. rewrite length_app, Hmid. simpl. lia. Qed.
Lemma message_mtu : rd16 buf (length outer + 6) = Some (be_val (drop 4 mid)).
Proof.
  unfold message. rewrite rd16_pre. destruct mid as [|a [|b [|c [|d [|e [|f [|g mm]]]]]]]; try discriminate Hmid. reflexivity.
Qed.
Lemma message_quoted k : (k < 20)%nat → rd8 buf (length outer + 8 + k) = h !! k.
Proof.
  intros Hk. unfold message. rewrite (assoc_L (++)).
  replace (length outer + 8)%nat with (length (outer ++ [ty; code] ++ mid)) by (rewrite !length_app, Hmid; simpl; lia).
  apply rd8_mid. destruct Hh as [-> _]. lia.
Qed.
Lemma message_data : buf = (outer ++ ([ty; code] ++ mid) ++ h) ++ data ++ rest ∧
  length (outer ++ ([ty; code] ++ mid) ++ h) = (length outer + 8 + 20)%nat.
Proof. unfold message. split; [by rewrite <- !(assoc_L (++))|]. rewrite !length_app, Hmid, (proj1 Hh). simpl. lia. Qed.

Lemma packet_ok_message cc from seq t ours : verbose o = 0 → Z.of_nat (length outer) + 32 <= cc →
  check o buf (length outer + 8 + 20) (u8 seq) = Ret ours →
  packet_ok o buf cc from seq t = Ret (if ours then verdict ty code else 0, noted outer code mid cc t).
Proof.
  intros Hv Hcc Hc. destruct message_first as (b0 & H0 & Hl). unfold packet_ok.
  rewrite (lift_run _ _ _ b0) by (by rewrite H0). cbv zeta. rewrite Hl, Nat2Z.id.
  rewrite (proj2 (Z.ltb_ge _ _)) by lia.
  rewrite (lift_run _ _ _ ty).
  2:{ assert (H := message_icmp 0 ltac:(lia)). rewrite Nat.add_0_r in H. by rewrite H. }
  rewrite (lift_run _ _ _ code) by (by rewrite (message_icmp 1 ltac:(lia))).
  rewrite (lift_run _ _ _ (if code =? 4 then be_val (drop 4 mid) else 0)).
  2:{ destruct (code =? 4); [|done]. by rewrite message_mtu. }
  rewrite modify_run. assert (E0 : (ty =? 0) = false) by (apply Z.eqb_neq; destruct Hr as [[-> _]|[-> _]]; lia).
  rewrite E0. rewrite (lift_run _ _ _ false) by done.
  assert (Eq : ((ty =? 11) && (code =? 0)) || (ty =? 3) = true) by (by destruct Hr as [[-> ->]|[-> _]]).
  rewrite Eq. cbv iota. rewrite (bind_run _ _ _ ours (noted outer code mid cc t)).
  { destruct ours; [done|]. by rewrite Hv. }
  rewrite modify_run. destruct Hh as (_ & Hh0 & Hh9).
  rewrite (lift_run _ _ _ 0x45).
  2:{ assert (H := message_quoted 0 ltac:(lia)). rewrite Nat.add_0_r in H. by rewrite H, Hh0. }
  change (Z.land 0x45 15 * 4) with 20. rewrite (proj2 (Z.leb_le _ _)) by lia.
  rewrite (message_quoted 9) by lia. rewrite Hh9. cbn [of_opt mbind outcome_bind]. rewrite Z.eqb_refl.
  change (Z.to_nat 20) with 20%nat. unfold lift. by rewrite Hc.
Qed.
End message.

Lemma report_run outer mid h h0 d rest from ty code cc s seq m t :
  proto o ≠ Tcp → verbose o = 0 → 0 <= ident o < 65536 → 0 <= port o < 65536 → 0 <= s < 256 →
  header_of outer → length mid = 6%nat → quoted_header h → reports ty code → (8 <= m)%nat → (8 <= length d)%nat →
  Z.of_nat (length outer) + 32 <= cc →
  packet_ok o (message outer ty code mid h (take m (payload h0 d s)) rest) cc from seq t =
    Ret (if (s =? u8 seq) && recoverable (u8 seq) then verdict ty code else 0, noted outer code mid cc t).
Proof.
  intros Hp Hv Hi Hpo Hs Ho Hmid Hh Hr Hm Hd Hcc. apply packet_ok_message; try done.
  destruct (message_data outer mid h (take m (payload h0 d s)) rest ty code Hmid Hh) as [-> <-].
  apply check_payload; try done. unfold u8. apply Z.mod_pos_bound. lia.
Qed.

(** The echo reply of the destination: the probe with another type and checksum. *)
Definition echo_reply (outer : bytes) (c1 c2 : Z) (data rest : bytes) : bytes := outer ++ ([0; 0; c1; c2] ++ data) ++ rest.

Lemma echo_run outer c1 c2 h0 d rest from cc s seq t :
  proto o = Icmp → verbose o = 0 → 0 <= ident o < 65536 → 0 <= s < 256 →
  header_of outer → (8 <= length d)%nat → Z.of_nat (length outer) + 8 <= cc →
  packet_ok o (echo_reply outer c1 c2 (drop 4 (payload h0 d s)) rest) cc from seq t =
    Ret (if s =? u8 seq then -2 else 0, t <| pmtu := 0 |>).
Proof.
  intros Hp Hv Hi Hs (b0 & H0 & Hl & Hl20) Hd Hcc. unfold packet_ok, echo_reply, payload, drafted. rewrite Hp. cells d 8%nat.
  cbv zeta. unfold be16. simpl app. unfold MD5.bcopy. simpl drop. set (buf := outer ++ _).
  rewrite (lift_run _ _ _ b0) by (unfold buf, rd8; by rewrite (lookup_app_l_Some _ _ _ _ H0)). cbv zeta. rewrite <- Hl, Nat2Z.id.
  rewrite (proj2 (Z.ltb_ge _ _)) by lia.
  rewrite (lift_run _ _ _ 0).
  2:{ unfold buf, rd8. by rewrite list_lookup_middle. }
  rewrite (lift_run _ _ _ 0) by (unfold buf; by rewrite rd8_app).
  rewrite (lift_run _ _ _ 0) by done. rewrite modify_run. cbn [proto_num]. rewrite !Z.eqb_refl. cbn [andb].
  assert (Hc : check o buf (length outer) (u8 seq) = Ret (s =? u8 seq)).
  { unfold check. rewrite Hp. unfold icmp_check, buf. rewrite !rd16le_pre. fields.
    rewrite !htons_inj, Z.eqb_refl; [done|lia..|unfold u8; zlia|lia|lia]. }
  rewrite (lift_run _ _ _ _ Hc). destruct (s =? u8 seq); [done|]. simpl. by rewrite Hv.
Qed.

(** ** TCP probes *)

Lemma htons_range x : 0 <= htons x < 65536.
Proof. unfold htons, le_val, be16, u8. unfold be_val. simpl. zlia. Qed.
Lemma le32_val x : 0 <= x < 2 ^ 32 → le_val (Traceroute.le32 x) = x.
Proof.
  intros Hx. unfold le_val, Traceroute.le32, be_val, u8. simpl. rewrite !Z.shiftr_div_pow2 by lia.
  change (2 ^ 8) with 256. change (2 ^ 16) with 65536. change (2 ^ 24) with 16777216. zlia.
Qed.

Lemma tcp_start h d s m : proto o = Tcp → fixedPort o = false → (8 <= m)%nat → (20 <= length d)%nat →
  ∃ tl, take m (payload h d s) = be16 (ident o) ++ be16 (port o + s) ++ Traceroute.le32 (tcp_seq o s) ++ tl.
Proof.
  intros Hp Hf Hm Hd. do 8 (destruct m as [|m]; [lia|]). cells d 20%nat. unfold payload, drafted. rewrite Hp, Hf.
  destruct (doipcksum o); eexists; reflexivity.
Qed.
Lemma tcp_seq_val s : fixedPort o = false → tcp_seq o s = htons (ident o) * 65536 + htons (port o + s).
Proof.
  intros Hf. unfold tcp_seq. assert (H1 := htons_range (ident o)). assert (H2 := htons_range (port o + s)).
  rewrite Hf, Z.add_0_r, lor_halves by lia. apply Z.mod_small. lia.
Qed.

(** The probe is recognised only where the ports read the same in both orders. *)
Lemma check_tcp pre h d s s' m rest : proto o = Tcp → fixedPort o = false → 0 <= ident o < 65536 → 0 <= port o < 65536 →
  0 <= s < 256 → 0 <= s' < 256 → (8 <= m)%nat → (20 <= length d)%nat →
  check o (pre ++ take m (payload h d s) ++ rest) (length pre) s' =
    Ret ((s =? s') && (port o + s' <? 65536) && (htons (ident o) =? ident o) && (htons (port o + s) =? port o + s)).
Proof.
  intros Hp Hf Hi Hpo Hs Hs' Hm Hd. destruct (tcp_start h d s m Hp Hf Hm Hd) as [tl ->].
  assert (H1 := htons_range (ident o)). assert (H2 := htons_range (port o + s)).
  unfold check. rewrite Hp. unfold tcp_check. rewrite rd16_at0, rd16_pre, Hf.
  assert (Hr : read_at (pre ++ (be16 (ident o) ++ be16 (port o + s) ++ Traceroute.le32 (tcp_seq o s) ++ tl) ++ rest)
    (length pre + 4) 4 = Some (Traceroute.le32 (tcp_seq o s))).
  { unfold read_at. rewrite bool_decide_true by (rewrite length_app; simpl; lia). rewrite drop_app_ge by lia.
    by replace (length pre + 4 - length pre)%nat with 4%nat by lia. }
  rewrite Hr. unfold be16. simpl app. rewrite !rd16_skip, !rd16_cells. cbn [of_opt mbind outcome_bind].
  rewrite tcp_seq_val, le32_val, (Z.mod_small (ident o)), Z.eqb_refl by (done || lia). cbn [negb]. rewrite wrapped by done.
  destruct (Z.eqb_spec s s') as [->|]; [|done]. destruct (Z.ltb_spec (port o + s') 65536) as [Hw|]; [|done]. cbn [andb negb].
  rewrite lor_halves by lia. unfold u32. rewrite Z.mod_small by lia. f_equal.
  apply eq_bool_prop_intro. rewrite andb_True, !Is_true_true, !Z.eqb_eq. lia.
Qed.

(** ** The checksums *)

Lemma bcopy_length src (d : bytes) k : (k + length src <= length d)%nat → length (MD5.bcopy src d k) = length d.
Proof. intros H. unfold MD5.bcopy. rewrite !length_app, length_take, length_drop. lia. Qed.
Lemma payload_length h d s : (header_room (proto o) <= length d)%nat → length (payload h d s) = length d.
Proof.
  intros H. assert (Hl := drafted_length d s H). unfold payload. unfold header_room in H.
  destruct (proto o), (doipcksum o); rewrite ?bcopy_length; simpl; lia.
Qed.

(** The draft has a checksum field of zero. *)
Definition field_at : nat := match proto o with Udp => 6 | Tcp => 16 | _ => 2 end.
Lemma drafted_field d s : proto o = Udp ∨ proto o = Tcp ∨ proto o = Icmp → (header_room (proto o) <= length d)%nat →
  drafted d s = take field_at (drafted d s) ++ [0; 0] ++ drop (field_at + 2) (drafted d s).
Proof.
  intros Hp H. unfold field_at, drafted, header_room in *.
  destruct Hp as [Ep|[Ep|Ep]]; rewrite Ep in *; [cells d 8%nat|cells d 20%nat|cells d 8%nat]; reflexivity.
Qed.
Lemma th_off_ok x : byte_ok (Z.lor (Z.land x 0x0f) 0x50).
Proof.
  change 0x0f with (Z.ones 4). rewrite Z.land_ones by lia. change (2 ^ 4) with 16.
  assert (H := Z.mod_pos_bound x 16 ltac:(lia)). unfold byte_ok.
  assert (E : ∀ n, (n < 16)%nat → 0 <= Z.lor (Z.of_nat n) 0x50 < 256).
  { intros n Hn. do 16 (destruct n as [|n]; [done|]). lia. }
  rewrite <- (Z2Nat.id (x mod 16)) by lia. apply E. lia.
Qed.
Lemma le32_ok x : bytes_ok (Traceroute.le32 x).
Proof. unfold Traceroute.le32. repeat constructor; apply u8_ok. Qed.
Lemma drafted_ok d s : bytes_ok d → (header_room (proto o) <= length d)%nat → bytes_ok (drafted d s).
Proof.
  intros Hd H. assert (H4 := le32_ok (tcp_seq o s)). assert (H5 := th_off_ok (d !!! 12%nat)).
  assert (H1 : byte_ok (d !!! 1%nat)) by auto with netcmds.
  unfold drafted. destruct (proto o); repeat (apply Forall_app; split); auto with netcmds;
    unfold TH_SYN; repeat first [apply Forall_nil_2 | apply Forall_cons_2]; auto with netcmds.
Qed.

(** The transport checksum of a packet verifies. *)
Definition verifies (h p : bytes) : Prop :=
  match proto o with
  | Icmp => Traceroute.in_cksum p = 0
  | _ => Traceroute.in_cksum (Traceroute.ipovly (h !!! 9%nat) (Z.of_nat (length p)) (take 4 (drop 12 h)) (take 4 (drop 16 h)) ++ p) = 0
  end.

Lemma payload_verifies h d s :
  (proto o = Udp ∨ proto o = Tcp) ∧ doipcksum o = true ∨ proto o = Icmp →
  length h = 20%nat → bytes_ok h → bytes_ok d → (header_room (proto o) <= length d)%nat →
  protlen o = Z.of_nat (length d) → protlen o <= 65515 → verifies h (payload h d s).
Proof.
  intros Hp Lh Hh Hd Hr Hl Hmax. assert (Lp := payload_length h d s Hr). assert (Ld := drafted_length d s Hr).
  assert (Hb := drafted_ok d s Hd Hr). assert (Hf := drafted_field d s ltac:(tauto) Hr).
  unfold verifies. rewrite Lp. unfold payload. cbv zeta. rewrite Hl, Nat2Z.id. rewrite (take_ge (drafted d s)) by lia.
  assert (Ef : field_at = match proto o with Udp => 6%nat | Tcp => 16%nat | _ => 2%nat end) by done.
  assert (Hroom : (field_at + 2 <= length d)%nat) by (rewrite Ef; unfold header_room in Hr; destruct (proto o); lia).
  assert (Heven : Nat.Even (length (take field_at (drafted d s)))).
  { rewrite length_take, Ld, Nat.min_l by lia. rewrite Ef. destruct (proto o); [by exists 3%nat|by exists 8%nat|by exists 1%nat..]. }
  set (D := drafted d s) in *. clearbody D.
  assert (Hu : proto o = Udp ∨ proto o = Tcp → Traceroute.in_cksum (Traceroute.ipovly (h !!! 9%nat) (Z.of_nat (length d))
      (take 4 (drop 12 h)) (take 4 (drop 16 h)) ++ MD5.bcopy (Traceroute.le16 (nonzero (cksum_of h D))) D field_at) = 0).
  { intros _. pose proof (p_cksum_fills (h !!! 9%nat) (take 4 (drop 12 h)) (take 4 (drop 16 h)) (take field_at D)
      (drop (field_at + 2) D)) as H. cbv zeta in H. rewrite <- Hf, Ld in H. apply H; auto with netcmds; try lia.
    all: first [apply Forall_take; by apply Forall_drop | rewrite length_take, length_drop; lia]. }
  assert (Hi : proto o = Icmp → Traceroute.in_cksum (MD5.bcopy (Traceroute.le16 (nonzero (Traceroute.in_cksum D))) D field_at) = 0).
  { intros _. pose proof (icmp_fills (take field_at D) (drop (field_at + 2) D)) as H. rewrite <- Hf in H.
    apply H; [done|done|]. unfold short. lia. }
  rewrite Ef in Hu, Hi. destruct Hp as [[[Ep|Ep] Ec]|Ep]; rewrite Ep in *; rewrite ?Ec; auto.
Qed.
End probes.

(** ** The theorems *)

(** C20: An error message about a probe is recognised as the answer to this
    probe and to no other. For UDP, GRE, ICMP and the protocols without a
    format of their own: the preparation of the probe with the octet [s]
    returns a payload of the same length, and a time exceeded or an
    unreachable message that quotes the IP header of the probe and at least
    eight octets of this payload gets the verdict of its type from [packet_ok] when the
    probe waited for has the same octet and its fields do not wrap around, and
    is passed over otherwise. The echo reply to an ICMP probe is the arrival
    at the destination under the same condition. *)
Theorem probe_answer (o : options) (s : Z) (t : trace) (h0 d : bytes) :
  proto o ≠ Tcp → verbose o = 0 → 0 <= ident o < 65536 → 0 <= port o < 65536 → 0 <= s < 256 →
  outip t = h0 ++ d → length h0 = 20%nat → (8 <= length d)%nat → (Z.to_nat (protlen o) <= length d)%nat →
  ∃ p, prepare o s t = Ret (tt, t <| outip := h0 ++ p |>) ∧ length p = length d ∧
    (∀ outer mid h rest from ty code cc seq m t',
      header_of outer → length mid = 6%nat → quoted_header o h → reports ty code → (8 <= m)%nat →
      Z.of_nat (length outer) + 32 <= cc →
      packet_ok o (message outer ty code mid h (take m p) rest) cc from seq t' =
        Ret (if (s =? u8 seq) && recoverable o (u8 seq) then verdict ty code else 0, noted outer code mid cc t')) ∧
    (∀ outer c1 c2 rest from cc seq t',
      proto o = Icmp → header_of outer → Z.of_nat (length outer) + 8 <= cc →
      packet_ok o (echo_reply outer c1 c2 (drop 4 p) rest) cc from seq t' =
        Ret (if s =? u8 seq then -2 else 0, t' <| pmtu := 0 |>)).
Proof.
  intros Hp Hv Hi Hpo Hs E Lh Ld Hl. assert (Hr : (header_room (proto o) <= length d)%nat).
  { unfold header_room. destruct (proto o); done || lia. }
  exists (payload o h0 d s). split; [by apply prepare_run|]. split; [by apply payload_length|]. split.
  - intros. by apply report_run.
  - intros. by apply echo_run.
Qed.

(** The probes with a transport checksum verify: for UDP and TCP with
    checksums on, and for ICMP, the preparation of a probe over a packet of at
    most 65535 octets returns, and the sum over the payload, with the pseudo
    header made of the protocol and the addresses of the IP header for UDP and
    TCP, is that of a valid packet. *)
Lemma probe_checksum (o : options) (s : Z) (t : trace) (h d : bytes) :
  (proto o = Udp ∨ proto o = Tcp) ∧ doipcksum o = true ∨ proto o = Icmp →
  outip t = h ++ d → length h = 20%nat → bytes_ok (h ++ d) → (header_room (proto o) <= length d)%nat →
  protlen o = Z.of_nat (length d) → protlen o <= 65515 →
  ∃ p, prepare o s t = Ret (tt, t <| outip := h ++ p |>) ∧ verifies o h p.
Proof.
  intros Hp E Lh [Hh Hd]%Forall_app Hr Hl Hmax. exists (payload o h d s). split.
  - apply prepare_run; [done|done|done|lia].
  - by apply payload_verifies.
Qed.

(** C40: A TCP probe is recognised only when its ports read the same in both
    byte orders: the sequence number is made of the ports in network order and
    compared with the ports in host order. With a source port that does not
    (an [ident] with two different octets), [packet_ok] passes over every error
    message about every probe. *)
Theorem tcp_answer_lost (o : options) (s : Z) (t : trace) (h0 d : bytes) :
  proto o = Tcp → fixedPort o = false → verbose o = 0 → 0 <= ident o < 65536 → 0 <= port o < 65536 → 0 <= s < 256 →
  htons (ident o) ≠ ident o →
  outip t = h0 ++ d → length h0 = 20%nat → (20 <= length d)%nat → (Z.to_nat (protlen o) <= length d)%nat →
  ∃ p, prepare o s t = Ret (tt, t <| outip := h0 ++ p |>) ∧
    ∀ outer mid h rest from ty code cc seq m t',
      header_of outer → length mid = 6%nat → quoted_header o h → reports ty code → (8 <= m)%nat →
      Z.of_nat (length outer) + 32 <= cc →
      packet_ok o (message outer ty code mid h (take m p) rest) cc from seq t' = Ret (0, noted outer code mid cc t').
Proof.
  intros Hp Hf Hv Hi Hpo Hs Hne E Lh Ld Hl. exists (payload o h0 d s). split.
  { apply prepare_run; try done. by rewrite Hp. }
  intros outer mid h rest from ty code cc seq m t' Ho Hmid Hh Hr Hm Hcc.
  rewrite (packet_ok_message o outer mid h _ rest ty code Ho Hmid Hh Hr cc from seq t' false); [done|done|done|].
  destruct (message_data o outer mid h (take m (payload o h0 d s)) rest ty code Hmid Hh) as [-> <-].
  rewrite check_tcp; try done; [|unfold u8; apply Z.mod_pos_bound; lia].
  apply Z.eqb_neq in Hne. by rewrite Hne, andb_false_r.
Qed.

(** *** Witnesses *)

Definition sample_options (pr : outproto) (id : Z) : options :=
  Options pr id 33434 false true 60 40 3 1 30 0 true false false 5 [] [].
Definition sample_header (pr : outproto) : bytes :=
  [0x45; 0; 0; 60; 0; 0; 0; 0; 0; proto_num pr; 0; 0; 10; 0; 0; 1; 10; 0; 0; 9].
Definition sample_trace (pr : outproto) : trace :=
  Trace (sample_header pr ++ replicate 40 0) 0 0 0 0 [] [0; 0; 0; 0] 0 0 0 0 [].
Definition sample_outer : bytes := [0x45; 0; 0; 56; 0; 1; 0; 0; 64; 1; 0; 0; 10; 0; 0; 2; 10; 0; 0; 1].

Lemma sample_outer_ok : header_of sample_outer.
Proof. exists 0x45. split; [done|]. split; [done|]. simpl. lia. Qed.
Lemma sample_header_ok pr id : quoted_header (sample_options pr id) (sample_header pr).
Proof. done. Qed.

Lemma probe_answer_witness :
  let o := sample_options Udp 0x9234 in
  ∃ p, prepare o 7 (sample_trace Udp) = Ret (tt, sample_trace Udp <| outip := sample_header Udp ++ p |>) ∧ length p = 40%nat ∧
    (∀ t', packet_ok o (message sample_outer 11 0 (replicate 6 0) (sample_header Udp) (take 8 p) []) 56 [10; 0; 0; 2] 7 t' =
       Ret (-1, noted sample_outer 0 (replicate 6 0) 56 t')) ∧
    (∀ t', packet_ok o (message sample_outer 11 0 (replicate 6 0) (sample_header Udp) (take 8 p) []) 56 [10; 0; 0; 2] 8 t' =
       Ret (0, noted sample_outer 0 (replicate 6 0) 56 t')).
Proof.
  intros o. destruct (probe_answer o 7 (sample_trace Udp) (sample_header Udp) (replicate 40 0)) as (p & H1 & H2 & H3 & _);
    [done|done|simpl; lia|simpl; lia|lia|done|done|simpl; lia|simpl; lia|].
  exists p. split; [exact H1|]. split; [exact H2|]. split; intros t'.
  - apply (H3 sample_outer (replicate 6 0) (sample_header Udp) [] [10; 0; 0; 2] 11 0 56 7 8%nat t' sample_outer_ok eq_refl
      (sample_header_ok Udp 0x9234)); [by left|lia|simpl; lia].
  - apply (H3 sample_outer (replicate 6 0) (sample_header Udp) [] [10; 0; 0; 2] 11 0 56 8 8%nat t' sample_outer_ok eq_refl
      (sample_header_ok Udp 0x9234)); [by left|lia|simpl; lia].
Defined.

Lemma probe_checksum_witness :
  let o := sample_options Udp 0x9234 in
  ∃ p, prepare o 7 (sample_trace Udp) = Ret (tt, sample_trace Udp <| outip := sample_header Udp ++ p |>) ∧
    verifies o (sample_header Udp) p.
Proof.
  intros o. apply (probe_checksum o 7 (sample_trace Udp) (sample_header Udp) (replicate 40 0));
    [left; split; [by left|done]|done|done| |simpl; lia|done|simpl; lia].
  repeat (constructor; [unfold byte_ok; simpl; lia|]). constructor.
Defined.

Lemma tcp_answer_lost_witness :
  let o := sample_options Tcp 0x9234 in
  ∃ p, prepare o 7 (sample_trace Tcp) = Ret (tt, sample_trace Tcp <| outip := sample_header Tcp ++ p |>) ∧
    ∀ t', packet_ok o (message sample_outer 11 0 (replicate 6 0) (sample_header Tcp) (take 8 p) []) 56 [10; 0; 0; 2] 7 t' =
      Ret (0, noted sample_outer 0 (replicate 6 0) 56 t').
Proof.
  intros o. destruct (tcp_answer_lost o 7 (sample_trace Tcp) (sample_header Tcp) (replicate 40 0)) as (p & H1 & H2);
    [done|done|done|simpl; lia|simpl; lia|lia|done|done|done|simpl; lia|simpl; lia|].
  exists p. split; [exact H1|]. intros t'.
  apply (H2 sample_outer (replicate 6 0) (sample_header Tcp) [] [10; 0; 0; 2] 11 0 56 7 8%nat t' sample_outer_ok eq_refl
    (sample_header_ok Tcp 0x9234)); [by left|lia|simpl; lia].
Defined.
