(* ===== verification/TracertRoute.v ===== *)
(** * TracertRoute: the route that traceroute prints

    The path is a function [node] from hop counts to the addresses of the
    routers and of the destination. An answer of the network quotes a probe
    that was sent, and comes from the node where the time to live of this probe
    ends. The network may lose, delay, repeat and reorder answers. *)

From S2P Require Import Prelude Timeval Stdio Md5 Cksum Tally Tracert TracertFun.

#[local] Opaque Traceroute.p_cksum Traceroute.in_cksum.

(** ** The printed route

    The pairs of the hop of a line and of a sender named in it. *)
Definition route := (Z * list (Z * bytes))%type.
Definition note_line (st : route) (e : string * list arg) : route :=
  match e with
  | (f, [Num n]) => if String.eqb f "%2d " then (n, st.2) else st
  | (f, [Addr a]) => if String.eqb f " %s" then (st.1, st.2 ++ [(st.1, a)]) else st
  | (f, [Addr a; Addr _]) => if String.eqb f " %s (%s)" then (st.1, st.2 ++ [(st.1, a)]) else st
  | _ => st
  end.
Definition shown (t : trace) : route := foldl note_line (0, []) (printed t).

Section route.
Context (o : options) (node : Z → bytes).

(** An answer to the probe [p], with the verdict it has to get. *)
Inductive answer (p : bytes) : Z → reply → Prop :=
  | answer_report outer mid h m rest ty code cc time :
      header_of outer → length mid = 6%nat → length h = 20%nat → h !! 0%nat = p !! 0%nat → h !! 9%nat = p !! 9%nat →
      reports ty code → (8 <= m)%nat → Z.of_nat (length outer) + 32 <= cc →
      answer p (verdict ty code)
        (Reply (message outer ty code mid h (take m (drop 20 p)) rest) cc (node (p !!! 8%nat)) time)
  | answer_echo outer c1 c2 rest cc time :
      proto o = Icmp → header_of outer → Z.of_nat (length outer) + 8 <= cc →
      answer p (-2) (Reply (echo_reply outer c1 c2 (drop 24 p) rest) cc (node (p !!! 8%nat)) time).

(** The probe with the number [i]. *)
Definition probe_of (i : Z) (p : bytes) : Prop :=
  ∃ h h0 d, p = h ++ payload o h0 d (u8 i) ∧ quoted_header o h ∧ (8 <= length d)%nat.

(** What the loops depend on: the packets, the route and the counters. *)
Definition after (t0 : trace) (sh : route) (la : bytes) (gl gt un : Z) (t : trace) : Prop :=
  outip t = outip t0 ∧ seq t = seq t0 ∧ sent t = sent t0 ∧ shown t = sh ∧ lastaddr t = la ∧ gotlastaddr t = gl ∧
  got_there t = gt ∧ unreachable t = un.

Definition readable (r : reply) : Prop := is_Some (rd8 (r_buf r) 0) ∧ is_Some (rd8 (r_buf r) 8).

Lemma answer_readable p v r : answer p v r → readable r.
Proof.
  assert (H : ∀ outer (l : bytes) k, (k < 20)%nat → header_of outer → is_Some (rd8 (outer ++ l) k)).
  { intros outer l k Hk (b0 & _ & _ & H20). unfold rd8. apply lookup_lt_is_Some. rewrite length_app. lia. }
  intros []; unfold readable, message, echo_reply; simpl r_buf; split; apply H; done || lia.
Qed.
Lemma answer_nonzero p v r : answer p v r → v ≠ 0.
Proof. intros [? ? ? ? ? ty code ? ? ? ? ? ? ? [[-> ->]|[-> Hc]] ? ?|]; unfold verdict; simpl; lia. Qed.
Lemma answer_from p v r : answer p v r → r_from r = node (p !!! 8%nat).
Proof. by intros []. Qed.

Context (Hp : proto o ≠ Tcp) (Hv : verbose o = 0) (Hdiff : printdiff o = false).
Context (Hi : 0 <= ident o < 65536) (Hpo : 0 <= port o < 65536).

Lemma answer_verdict p v r i t0 sh la gl gt un t : probe_of i p → answer p v r → after t0 sh la gl gt un t →
  ∃ t', packet_ok o (r_buf r) (r_cc r) (r_from r) (seq t0) t =
    Ret (if (u8 i =? u8 (seq t0)) && recoverable o (u8 (seq t0)) then v else 0, t') ∧ after t0 sh la gl gt un t'.
Proof.
  intros (h & h0 & d & -> & (Lh & H0 & H9) & Ld) Ha Ht. assert (Hu : 0 <= u8 i < 256) by (apply Z.mod_pos_bound; lia).
  destruct Ha as [outer mid h' m rest ty code cc time Ho Hm Lh' E0 E9 Hr Hm8 Hcc|outer c1 c2 rest cc time Hic Ho Hcc]; simpl.
  - assert (Hh : quoted_header o h').
    { split; [done|]. rewrite E0, E9. split; by apply lookup_app_l_Some. }
    rewrite drop_app_length' by done.
    rewrite (report_run o outer mid h' h0 d rest _ ty code cc (u8 i) (seq t0) m t) by done. eexists. split; [reflexivity|exact Ht].
  - replace (drop 24 (h ++ payload o h0 d (u8 i))) with (drop 4 (payload o h0 d (u8 i))).
    2:{ rewrite drop_app_ge by lia. f_equal. lia. }
    rewrite (echo_run o outer c1 c2 h0 d rest _ cc (u8 i) (seq t0) t) by done. exists (t <| pmtu := 0 |>). split; [|exact Ht].
    unfold recoverable. by rewrite Hic, andb_true_r.
Qed.

Lemma shown_print t f args : shown (t <| printed := printed t ++ [(f, args)] |>) = note_line (shown t) (f, args).
Proof. unfold shown. simpl. by rewrite foldl_app. Qed.

Section turn.
Context (t0 : trace).
Abbreviation inv := (after t0).

Lemma print_turn f args sh la gl gt un : triple (inv sh la gl gt un) (Printf f args) (λ _, inv (note_line sh (f, args)) la gl gt un).
Proof.
  intros t (H1 & H2 & H3 & H4 & H5 & H6 & H7 & H8). unfold Printf, modify. simpl. unfold after. rewrite shown_print, H4.
  by repeat split.
Qed.
Lemma total_print f args sh la gl gt un : note_line sh (f, args) = sh → total (inv sh la gl gt un) (Printf f args).
Proof. intros E t Ht. assert (H := print_turn f args sh la gl gt un t Ht). by rewrite E in H. Qed.

Lemma mark_run r sh la gl gt un : readable r → total (inv sh la gl gt un) (mark_ttl (r_buf r)).
Proof.
  intros [_ [b Hb]]. unfold mark_ttl. apply (total_lift_bind _ _ b); [by rewrite Hb|].
  destruct (b <=? 1); [by apply total_print|apply total_skip].
Qed.
Lemma arrived_run sh la gl gt un : triple (inv sh la gl gt un) arrived (λ _, inv sh la gl (gt + 1) un).
Proof. intros t (H1 & H2 & H3 & H4 & H5 & H6 & <- & H8). by repeat split. Qed.
Lemma blocked_run f args sh la gl gt un : note_line sh (f, args) = sh →
  triple (inv sh la gl gt un) (blocked f args) (λ _, inv sh la gl gt (un + 1)).
Proof.
  intros E. apply (triple_bind _ _ (λ _, inv sh la gl gt (un + 1))).
  - intros t (H1 & H2 & H3 & H4 & H5 & H6 & H7 & <-). by repeat split.
  - intros _. by apply total_print.
Qed.

(** The destination is reached, or a router cannot go on. *)
Definition final (v : Z) : bool := (v =? -2) || (v =? 4) || (v =? 3).
Definition blocking (v : Z) : bool := negb (final v) && negb (v =? -1).

Lemma show_code_run r code sh la gl gt un : readable r →
  triple (inv sh la gl gt un) (show_code (r_buf r) code)
    (λ _, inv sh la gl (gt + Z.b2z ((code =? 3) || (code =? 2))) (un + Z.b2z (negb ((code =? 3) || (code =? 2))))).
Proof.
  intros Hr t Ht. unfold show_code. rewrite get_run.
  destruct (Z.eqb_spec code 3) as [->|E3].
  { cbn [orb negb Z.b2z]. rewrite Z.add_0_r. apply returns_after with (inv sh la gl gt un); [by apply mark_run|done|]. intros _ p Hpp.
    by apply arrived_run. }
  destruct (Z.eqb_spec code 2) as [->|E2].
  { cbn [orb negb Z.b2z]. rewrite Z.add_0_r. refine (triple_bind _ _ _ _ _ (arrived_run _ _ _ _ _) _ t Ht). intros _. by apply total_print. }
  cbn [orb negb Z.b2z]. rewrite Z.add_0_r.
  repeat (match goal with |- returns ((if ?b then _ else _) _) _ => destruct b end; [by apply blocked_run|]).
  by apply blocked_run.
Qed.

Definition freshly (r : reply) (sh : route) (la : bytes) (gl : Z) : route :=
  if (gl =? 0) || negb (bool_decide (r_from r = la)) then (sh.1, sh.2 ++ [(sh.1, r_from r)]) else sh.
Lemma print_run r sh la gl gt un : readable r →
  triple (inv sh la gl gt un) (print o (r_buf r) (r_cc r) (r_from r)) (λ _, inv (sh.1, sh.2 ++ [(sh.1, r_from r)]) la gl gt un).
Proof.
  intros [[b Hb] _] t Ht. unfold print. rewrite (lift_run _ _ _ b) by (by rewrite Hb). cbv zeta. rewrite Hv.
  refine (triple_bind _ _ (λ _, inv (sh.1, sh.2 ++ [(sh.1, r_from r)]) la gl gt un) _ _ _ _ t Ht).
  - destruct (nflag o); apply print_turn.
  - intros _. apply total_skip.
Qed.
Lemma greet_run r sh la gl gt un : readable r → 0 <= gl →
  triple (inv sh la gl gt un) (greet o r) (λ _ t, ∃ gl', 0 < gl' ∧ inv (freshly r sh la gl) (r_from r) gl' gt un t).
Proof.
  intros Hr Hgl t Ht. unfold greet, freshly. rewrite get_run. assert (Hl := Ht). destruct Hl as (_ & _ & _ & _ & -> & -> & _).
  destruct ((gl =? 0) || negb (bool_decide (r_from r = la))) eqn:E.
  - apply returns_after with (inv sh la gl gt un); [destruct (truthy gl); [by apply total_print|apply total_skip]|done|].
    intros _ t1 Ht1. refine (triple_bind _ _ _ _ _ (print_run r _ _ _ _ _ Hr) _ t1 Ht1). intros _ t2 (H1 & H2 & H3 & H4 & H5 & H6 & H7 & H8).
    exists (gl + 1). split; [lia|]. simpl. rewrite <- H6. by repeat split.
  - apply orb_false_iff in E as [E1%Z.eqb_neq E2%negb_false_iff%bool_decide_eq_true]. exists gl. rewrite E2. split; [lia|done].
Qed.
Lemma verdict_run r v sh la gl gt un : readable r →
  triple (inv sh la gl gt un)
    (if v =? -2 then mark_ttl (r_buf r);; arrived else if v =? -1 then skip else show_code (r_buf r) (v - 1))
    (λ _, inv sh la gl (gt + Z.b2z (final v)) (un + Z.b2z (blocking v))).
Proof.
  intros Hr t Ht. unfold blocking, final. destruct (Z.eqb_spec v (-2)) as [->|E2].
  { cbn [orb negb Z.b2z andb]. rewrite Z.add_0_r. apply returns_after with (inv sh la gl gt un); [by apply mark_run|done|].
    intros _ t1 Ht1. by apply arrived_run. }
  destruct (Z.eqb_spec v (-1)) as [->|E1].
  { cbn [orb negb Z.b2z andb Z.eqb]. rewrite !Z.add_0_r. exact Ht. }
  assert (H := show_code_run r (v - 1) sh la gl gt un Hr t Ht). cbn [orb negb andb]. rewrite andb_true_r.
  replace (v =? 4) with (v - 1 =? 3) by (destruct (Z.eqb_spec v 4), (Z.eqb_spec (v - 1) 3); lia).
  replace (v =? 3) with (v - 1 =? 2) by (destruct (Z.eqb_spec v 3), (Z.eqb_spec (v - 1) 2); lia).
  exact H.
Qed.
Lemma accept_run r v sh la gl gt un : readable r → 0 <= gl →
  triple (inv sh la gl gt un) (accept o r v)
    (λ _ t, ∃ gl', 0 < gl' ∧
      inv (freshly r sh la gl) (r_from r) gl' (gt + Z.b2z (final v)) (un + Z.b2z (blocking v)) t).
Proof.
  intros Hr Hgl. unfold accept. eapply triple_bind; [by apply greet_run|]. intros _ t (gl' & Hgl' & Ht).
  unfold show_diff. rewrite Hdiff. set (sh' := freshly _ _ _ _) in *.
  apply returns_after with (inv sh' (r_from r) gl' gt un); [by apply total_print|done|]. intros _ t1 Ht1.
  apply returns_after with (inv sh' (r_from r) gl' gt un); [by apply total_skip|done|]. intros _ t2 Ht2.
  apply returns_impl with (λ '(_, t), inv sh' (r_from r) gl' (gt + Z.b2z (final v)) (un + Z.b2z (blocking v)) t).
  { intros [[] t3] Ht3. by exists gl'. }
  by apply verdict_run.
Qed.

(** The loop over the packets that arrive: those that answer other probes are
    passed over. *)
Lemma wait_pass r rs p v i sh la gl gt un t : probe_of i p → answer p v r → inv sh la gl gt un t →
  (u8 i =? u8 (seq t0)) && recoverable o (u8 (seq t0)) = false →
  ∃ t', wait_loop o (r :: rs) t = wait_loop o rs t' ∧ inv sh la gl gt un t'.
Proof.
  intros Hpr Ha Ht E. destruct (answer_verdict p v r i t0 sh la gl gt un t Hpr Ha Ht) as (t' & Hk & Ht'). rewrite E in Hk.
  exists t'. split; [|done]. cbn [wait_loop]. rewrite get_run. assert (Es : seq t = seq t0) by apply Ht. rewrite Es.
  by rewrite (bind_run _ _ _ _ _ Hk).
Qed.
Lemma wait_take r rs p v i sh la gl gt un t : probe_of i p → answer p v r → inv sh la gl gt un t →
  (u8 i =? u8 (seq t0)) && recoverable o (u8 (seq t0)) = true →
  ∃ t', wait_loop o (r :: rs) t = accept o r v t' ∧ inv sh la gl gt un t'.
Proof.
  intros Hpr Ha Ht E. destruct (answer_verdict p v r i t0 sh la gl gt un t Hpr Ha Ht) as (t' & Hk & Ht'). rewrite E in Hk.
  exists t'. split; [|done]. cbn [wait_loop]. rewrite get_run. assert (Es : seq t = seq t0) by apply Ht. rewrite Es.
  rewrite (bind_run _ _ _ _ _ Hk). by rewrite (proj2 (Z.eqb_neq _ _) (answer_nonzero _ _ _ Ha)).
Qed.

Definition attributed (sh : route) : Prop := ∀ n a, (n, a) ∈ sh.2 → a = node n.
Lemma attributed_freshly r sh la gl : attributed sh → r_from r = node sh.1 → attributed (freshly r sh la gl) ∧ (freshly r sh la gl).1 = sh.1.
Proof.
  intros H E. unfold freshly. destruct (_ || _); [|done]. split; [|done]. intros n a. cbn [snd].
  rewrite elem_of_app, list_elem_of_singleton. intros [Hin|[= -> ->]]; [by apply H|done].
Qed.

(** All the packets come from the nodes they should come from. *)
Definition genuine (c : Z) (r : reply) : Prop :=
  ∃ i p v, probe_of i p ∧ answer p v r ∧ (u8 i = u8 (seq t0) → p !!! 8%nat = c).
Definition settled (c : Z) (t : trace) : Prop :=
  ∃ sh la gl gt un, 0 <= gl ∧ sh.1 = c ∧ attributed sh ∧ inv sh la gl gt un t.

Lemma wait_sound c rs : Forall (genuine c) rs → total (settled c) (wait_loop o rs).
Proof.
  induction 1 as [|r rs (i & p & v & Hpr & Ha & Hc) _ IH]; intros t (sh & la & gl & gt & un & Hgl & Ec & Hat & Ht).
  - cbn [wait_loop]. rewrite modify_run. destruct Ht as (H1 & H2 & H3 & H4 & H5 & H6 & H7 & H8).
    apply (returns_impl _ (λ '(_, t'), inv sh la gl gt un t')); [intros [[] t'] Ht'; by exists sh, la, gl, gt, un|].
    apply total_print; [done|]. by repeat split.
  - destruct ((u8 i =? u8 (seq t0)) && recoverable o (u8 (seq t0))) eqn:E.
    + destruct (wait_take r rs p v i sh la gl gt un t Hpr Ha Ht E) as (t' & -> & Ht').
      apply andb_true_iff in E as [E%Z.eqb_eq _]. specialize (Hc E).
      eapply returns_impl; [|apply (accept_run r v sh la gl gt un (answer_readable _ _ _ Ha) Hgl t' Ht')].
      intros [[] t1] (gl' & Hgl' & Ht1).
      destruct (attributed_freshly r sh la gl Hat) as [Ha1 Ha2]; [by rewrite (answer_from _ _ _ Ha), Hc, Ec|].
      exists (freshly r sh la gl), (r_from r), gl', (gt + Z.b2z (final v)), (un + Z.b2z (blocking v)).
      split; [lia|]. split; [congruence|]. done.
    + destruct (wait_pass r rs p v i sh la gl gt un t Hpr Ha Ht E) as (t' & -> & Ht').
      apply IH. by exists sh, la, gl, gt, un.
Qed.

Lemma wait_exact noise r more p v sh la gl gt un : 0 <= gl → probe_of (seq t0) p → answer p v r → recoverable o (u8 (seq t0)) = true →
  Forall (λ r, ∃ i p v, probe_of i p ∧ answer p v r ∧ u8 i ≠ u8 (seq t0)) noise →
  triple (inv sh la gl gt un) (wait_loop o (noise ++ r :: more))
    (λ _ t, ∃ gl', 0 < gl' ∧ inv (freshly r sh la gl) (r_from r) gl' (gt + Z.b2z (final v)) (un + Z.b2z (blocking v)) t).
Proof.
  intros Hgl Hpr Ha Hrec. induction 1 as [|r' noise (i & p' & v' & Hpr' & Ha' & Hne) _ IH]; intros t Ht.
  - destruct (wait_take r more p v _ sh la gl gt un t Hpr Ha Ht) as (t' & E & Ht'); [by rewrite Z.eqb_refl|].
    cbn [app]. rewrite E. apply accept_run; [by eapply answer_readable|done|done].
  - destruct (wait_pass r' (noise ++ r :: more) p' v' i sh la gl gt un t Hpr' Ha' Ht) as (t' & E & Ht').
    { by rewrite (proj2 (Z.eqb_neq _ _) Hne). }
    cbn [app]. rewrite E. by apply IH.
Qed.
End turn.

(** ** A probe *)

Context (net : list bytes → list reply) (sendto : list bytes → Z).

Definition stamped (h : bytes) (n ttl : Z) : bytes := MD5.bcopy (be16 (ident o + n)) (MD5.bcopy [u8 ttl] h 8) 4.
Lemma stamped_header h n ttl : quoted_header o h → quoted_header o (stamped h n ttl) ∧ stamped h n ttl !! 8%nat = Some (u8 ttl).
Proof. intros (Lh & H0 & H9). do 20 (destruct h as [|? h]; [done|]). destruct h; [|done]. done. Qed.

Lemma put_header off src t h d : outip t = h ++ d → (off + length src <= length h)%nat →
  put_out off src t = Ret (tt, t <| outip := MD5.bcopy src h off ++ d |>).
Proof.
  intros E Hl. unfold put_out. rewrite E, length_app. rewrite (proj2 (Nat.leb_le _ _)) by lia.
  unfold MD5.bcopy. rewrite take_app_le, drop_app_le by lia. by rewrite <- !(assoc_L (++)).
Qed.

(** The packets sent so far, the probes 1, 2, and so on, and the buffer of the next one. *)
Definition numbered (t : trace) : Prop :=
  seq t = Z.of_nat (length (sent t)) ∧
  (∀ i p, sent t !! i = Some p → probe_of (Z.of_nat i + 1) p ∧ length p = Z.to_nat (packlen o)) ∧
  ∃ h d, outip t = h ++ d ∧ quoted_header o h ∧ (8 <= length d)%nat ∧ (Z.to_nat (protlen o) <= length d)%nat ∧
    (20 + length d)%nat = Z.to_nat (packlen o).

Lemma send_run n ttl cc t h d : outip t = h ++ d → length h = 20%nat →
  ∃ t', send_probe o n ttl cc t = Ret (tt, t') ∧
    outip t' = stamped h n ttl ++ d ∧ sent t' = sent t ++ [stamped h n ttl ++ d] ∧ seq t' = seq t ∧ shown t' = shown t ∧
    lastaddr t' = lastaddr t ∧ gotlastaddr t' = gotlastaddr t ∧ got_there t' = got_there t ∧ unreachable t' = unreachable t.
Proof.
  intros E Lh. unfold send_probe. rewrite Hv. 
  rewrite (bind_run _ _ _ _ _ (put_header 8 [u8 ttl] t h d E ltac:(simpl; lia))).
  set (t1 := t <| outip := _ |>). assert (E1 : outip t1 = MD5.bcopy [u8 ttl] h 8 ++ d) by done.
  rewrite (bind_run _ _ _ _ _ (put_header 4 (be16 (ident o + n)) t1 _ d E1 ltac:(rewrite bcopy_length; simpl; lia))).
  fold (stamped h n ttl). rewrite get_run. cbn [Z.ltb Z.compare]. rewrite (bind_run skip _ _ _ _ eq_refl). rewrite modify_run.
  destruct (_ || _); eexists; (split; [reflexivity|]); rewrite ?shown_print; by split_and!.
Qed.

Lemma launch ttl t : numbered t →
  ∃ t1 p, do_probe o net sendto ttl t = wait_loop o (net (sent t1)) t1 ∧ numbered t1 ∧ sent t1 = sent t ++ [p] ∧
    probe_of (seq t1) p ∧ p !!! 8%nat = u8 ttl ∧
    after t1 (shown t) (lastaddr t) (gotlastaddr t) (got_there t) (unreachable t) t1.
Proof.
  intros (Hseq & Hsent & h & d & E & Hh & Ld & Hl & Hlen). unfold do_probe. rewrite modify_run, get_run.
  set (t0 := t <| seq := seq t + 1 |>). assert (Hr : (header_room (proto o) <= length d)%nat).
  { unfold header_room. destruct (proto o); done || lia. }
  rewrite (bind_run _ _ _ _ _ (prepare_run o (u8 (seq t0)) t0 h d E (proj1 Hh) Hr Hl)).
  set (t1 := t0 <| outip := _ |>). assert (E1 : outip t1 = h ++ payload o h d (u8 (seq t0))) by done.
  destruct (send_run (seq t0) ttl (sendto (sent t0)) t1 h _ E1 (proj1 Hh)) as (t2 & Hs & H1 & H2 & H3 & H4 & H5 & H6 & H7 & H8).
  rewrite (bind_run _ _ _ _ _ Hs), get_run. destruct (stamped_header h (seq t0) ttl Hh) as [Hh' H8'].
  assert (Hpl := payload_length o h d (u8 (seq t0)) Hr).
  set (p := stamped h (seq t0) ttl ++ payload o h d (u8 (seq t0))) in *.
  assert (Hp1 : probe_of (seq t0) p) by (exists (stamped h (seq t0) ttl), h, d; by split_and!).
  assert (Hlp : length p = Z.to_nat (packlen o)) by (unfold p; rewrite length_app, (proj1 Hh'); lia).
  exists t2, p. split; [done|]. assert (Eseq : seq t0 = seq t + 1) by done. assert (Esent : sent t1 = sent t) by done.
  split; [|split; [|split; [by rewrite H3|split]]].
  - split; [rewrite H3, H2, Esent, length_app; simpl; rewrite Nat2Z.inj_add; change (seq t1) with (seq t + 1); lia|]. split.
    + intros i q. rewrite H2, Esent. rewrite lookup_app_Some. intros [Hq|[Hi' Hq]]; [by apply Hsent|].
      apply list_lookup_singleton_Some in Hq as [Hi0 <-]. split; [|done].
      replace (Z.of_nat i + 1) with (seq t0) by lia. done.
    + exists (stamped h (seq t0) ttl), (payload o h d (u8 (seq t0))). rewrite Hpl. by split_and!.
  - by rewrite H2, Esent.
  - apply list_lookup_total_correct. by apply lookup_app_l_Some.
  - unfold after. by split_and!.
Qed.

(** A packet of the right form. *)
Definition ip_packet (p : bytes) : Prop :=
  length p = Z.to_nat (packlen o) ∧ p !! 0%nat = Some 0x45 ∧ p !! 9%nat = Some (proto_num (proto o)).
Lemma numbered_packets t : numbered t → Forall ip_packet (sent t).
Proof.
  intros (_ & H & _). apply Forall_lookup_2. intros i p Hip. destruct (H i p Hip) as [(h & h0 & d & -> & (Lh & H0 & H9) & Ld) Hl].
  split; [done|]. split; by apply lookup_app_l_Some.
Qed.
Lemma numbered_after t0 sh la gl gt un t : numbered t0 → after t0 sh la gl gt un t → numbered t.
Proof. intros Hn (E1 & E2 & E3 & _). unfold numbered. by rewrite E1, E2, E3. Qed.

(** The octet of a probe tells it from the others as long as there are at most 255. *)
Lemma earlier_number t t1 p q : numbered t1 → sent t1 = sent t ++ [p] → Z.of_nat (length (sent t1)) <= 255 → q ∈ sent t →
  ∃ i, probe_of i q ∧ u8 i ≠ u8 (seq t1).
Proof.
  intros (Hseq & Hs & _) E Hl [i Hi']%list_elem_of_lookup. exists (Z.of_nat i + 1).
  destruct (Hs i q) as [Hq _]; [rewrite E; by apply lookup_app_l_Some|]. split; [done|].
  apply lookup_lt_Some in Hi'. rewrite Hseq, E, length_app in *. simpl in *. unfold u8. rewrite !Z.mod_small by lia. lia.
Qed.
Lemma any_number t t1 p q : numbered t1 → sent t1 = sent t ++ [p] → Z.of_nat (length (sent t1)) <= 255 → probe_of (seq t1) p →
  q ∈ sent t1 → ∃ i, probe_of i q ∧ (u8 i = u8 (seq t1) → q = p).
Proof.
  intros Hn E Hl Hp1 Hq. rewrite E, elem_of_app, list_elem_of_singleton in Hq. destruct Hq as [Hq| ->].
  - destruct (earlier_number t t1 p q Hn E Hl Hq) as (i & Hi' & Hne). by exists i.
  - by exists (seq t1).
Qed.

(** ** The loops: every sender is on the line of its hop *)

Definition honest : Prop := ∀ ps r, Forall ip_packet ps → r ∈ net ps → ∃ p v, p ∈ ps ∧ answer p v r.

(** Within hop [c], with [k] probes sent. *)
Definition hop_state (c : Z) (k : nat) (t : trace) : Prop :=
  numbered t ∧ length (sent t) = k ∧ (shown t).1 = c ∧ attributed (shown t) ∧ 0 <= gotlastaddr t.

Lemma do_probe_sound c k : honest → 0 <= c < 256 → (k < 255)%nat →
  triple (hop_state c k) (do_probe o net sendto c) (λ _, hop_state c (S k)).
Proof.
  intros Hhon Hc Hk t (Hn & Hlen & Hsc & Hat & Hgl).
  destruct (launch c t Hn) as (t1 & p & -> & Hn1 & Es & Hp1 & H8 & Ha). unfold u8 in H8. rewrite Z.mod_small in H8 by lia.
  assert (Hl1 : length (sent t1) = S k) by (rewrite Es, length_app; simpl; lia).
  assert (Hg : Forall (genuine t1 c) (net (sent t1))).
  { apply Forall_forall. intros r Hr. destruct (Hhon _ r (numbered_packets t1 Hn1) Hr) as (q & v & Hq & Hav).
    destruct (any_number t t1 p q Hn1 Es ltac:(lia) Hp1 Hq) as (i & Hi' & Heq). exists i, q, v. split; [done|]. split; [done|].
    intros Hu. by rewrite (Heq Hu). }
  eapply returns_impl; [|apply (wait_sound t1 c _ Hg); by eexists _, _, _, _, _].
  intros [[] t2] (sh & la & gl & gt & un & Hgl2 & Hc2 & Hat2 & Ht2). assert (Hn2 := numbered_after _ _ _ _ _ _ _ Hn1 Ht2).
  destruct Ht2 as (_ & _ & E3 & E4 & _ & E6 & _). unfold hop_state. rewrite E3, E4, E6. done.
Qed.

Lemma do_probes_sound n c k : honest → 0 <= c < 256 → (k + n <= 255)%nat →
  triple (hop_state c k) (do_probes o net sendto n c) (λ _, hop_state c (k + n)).
Proof.
  intros Hhon Hc. revert k. induction n as [|n IH]; intros k Hk; cbn [do_probes].
  - rewrite Nat.add_0_r. apply total_skip.
  - eapply triple_bind; [apply do_probe_sound; [done|done|lia]|]. intros []. rewrite Nat.add_succ_r. apply (IH (S k)). lia.
Qed.

Definition between (k : nat) (t : trace) : Prop := numbered t ∧ length (sent t) = k ∧ attributed (shown t).
Lemma do_hop_sound c k : honest → 0 <= c < 256 → (k + Z.to_nat (nprobes o) <= 255)%nat →
  triple (between k) (do_hop o net sendto c) (λ _, between (k + Z.to_nat (nprobes o))).
Proof.
  intros Hhon Hc Hk t (Hn & Hlen & Hat). unfold do_hop. rewrite modify_run. set (t1 := _ <| loss := 0 |>).
  apply (triple_bind (λ t, t = t1) _ (λ _, hop_state c k)); [|intros []|done].
  { intros ? ->. unfold Printf, modify. cbn [returns]. split; [exact Hn|]. split; [exact Hlen|]. rewrite shown_print.
    split; [done|]. split; [exact Hat|]. done. }
  eapply triple_bind; [by apply do_probes_sound|]. intros []. set (k' := (k + _)%nat). intros t2 Ht2. rewrite get_run.
  assert (Hquiet : ∀ f args, (∀ sh, note_line sh (f, args) = sh) → total (hop_state c k') (Printf f args)).
  { intros f args Hf t3 (H1 & H2 & H3). unfold Printf, modify. cbn [returns]. split; [exact H1|]. split; [exact H2|].
    rewrite shown_print, Hf. exact H3. }
  apply returns_after with (hop_state c k'); [destruct (sump o); [by apply Hquiet|apply total_skip]|done|]. intros _ t3 Ht3.
  apply returns_after with (hop_state c k'); [by apply Hquiet|done|]. intros _ t4 (H1 & H2 & _ & H3 & _). done.
Qed.

Lemma hops_sound n c k : honest → 0 <= c → c + Z.of_nat n <= 256 → (k + n * Z.to_nat (nprobes o) <= 255)%nat →
  triple (between k) (hops o net sendto n c) (λ _ t, attributed (shown t) ∧ Forall ip_packet (sent t)).
Proof.
  intros Hhon. revert c k. induction n as [|n IH]; intros c k Hc Hc' Hk; cbn [hops].
  - intros t (H1 & H2 & H3). split; [done|by apply numbered_packets].
  - eapply triple_bind; [apply do_hop_sound; [done|lia|lia]|]. intros []; cbv iota.
    + intros t (H1 & H2 & H3). split; [done|by apply numbered_packets].
    + apply IH; lia.
Qed.

(** ** The loops: the whole route *)

(** Every probe is answered in time, by the router of the hop or, beyond the
    [n] routers, by the destination; answers to earlier probes may come before
    this answer, and anything behind it. *)
Definition prompt (n : Z) : Prop := ∀ ps p, Forall ip_packet (ps ++ [p]) →
  ∃ noise r more v, net (ps ++ [p]) = noise ++ r :: more ∧ (∀ r', r' ∈ noise → ∃ q v', q ∈ ps ∧ answer q v' r') ∧
    answer p v r ∧ if p !!! 8%nat <=? n then v = -1 else final v = true.

Definition recovers : Prop := ∀ s, 0 <= s < 256 → recoverable o s = true.

(** Within hop [c], after [k] probes in all and [j] in this hop. *)
Definition hop_line (n c : Z) (l : list (Z * bytes)) (k j : nat) (t : trace) : Prop :=
  numbered t ∧ length (sent t) = k ∧ unreachable t = 0 ∧ got_there t = (if c <=? n then 0 else Z.of_nat j) ∧
  if (j =? 0)%nat then gotlastaddr t = 0 ∧ shown t = (c, l)
  else 0 < gotlastaddr t ∧ lastaddr t = node c ∧ shown t = (c, l ++ [(c, node c)]).

Lemma do_probe_exact n c l k j : prompt n → recovers → 0 <= c < 256 → (k < 255)%nat →
  triple (hop_line n c l k j) (do_probe o net sendto c) (λ _, hop_line n c l (S k) (S j)).
Proof.
  intros Hpr Hrec Hc Hk t (Hn & Hlen & Hun & Hgt & Hj).
  destruct (launch c t Hn) as (t1 & p & -> & Hn1 & Es & Hp1 & H8 & Ha). unfold u8 in H8. rewrite Z.mod_small in H8 by lia.
  assert (Hl1 : length (sent t1) = S k) by (rewrite Es, length_app; simpl; lia).
  assert (Hpk := numbered_packets t1 Hn1). rewrite Es in Hpk.
  destruct (Hpr (sent t) p Hpk) as (noise & r & more & v & Enet & Hnoise & Hav & Hv').
  rewrite Es, Enet. assert (Efrom := answer_from _ _ _ Hav). rewrite H8 in Efrom, Hv'.
  assert (Hgl : 0 <= gotlastaddr t) by (destruct (j =? 0)%nat; lia).
  eapply returns_impl; [|apply (wait_exact t1 noise r more p v (shown t) (lastaddr t) (gotlastaddr t) (got_there t) (unreachable t) Hgl Hp1 Hav)].
  - intros [[] t2] (gl' & Hgl' & Ht2). assert (Hn2 := numbered_after _ _ _ _ _ _ _ Hn1 Ht2).
    destruct Ht2 as (_ & _ & E3 & E4 & E5 & E6 & E7 & E8). unfold hop_line. rewrite E3, E4, E5, E6, E7, E8.
    split; [done|]. split; [done|]. rewrite Hun, Hgt. split; [|split].
    + unfold blocking. destruct (c <=? n); [by subst v|by rewrite Hv'].
    + destruct (c <=? n); [by subst v|rewrite Hv'; cbn [Z.b2z]; lia].
    + split; [done|]. split; [done|]. unfold freshly. rewrite Efrom. destruct (j =? 0)%nat.
      * destruct Hj as [-> ->]. done.
      * destruct Hj as (Hg0 & -> & ->). rewrite bool_decide_true by done. by rewrite (proj2 (Z.eqb_neq _ _)) by lia.
  - apply Hrec. apply Z.mod_pos_bound. lia.
  - apply Forall_forall. intros r' Hr'. destruct (Hnoise r' Hr') as (q & v' & Hq & Hav').
    destruct (earlier_number t t1 p q Hn1 Es ltac:(lia) Hq) as (i & Hi' & Hne). by exists i, q, v'.
  - done.
Qed.

Lemma do_probes_exact n c l m k j : prompt n → recovers → 0 <= c < 256 → (k + m <= 255)%nat →
  triple (hop_line n c l k j) (do_probes o net sendto m c) (λ _, hop_line n c l (k + m) (j + m)).
Proof.
  intros Hpr Hrec Hc. revert k j. induction m as [|m IH]; intros k j Hk; cbn [do_probes].
  - rewrite !Nat.add_0_r. apply total_skip.
  - eapply triple_bind; [apply do_probe_exact; [done|done|done|lia]|]. intros []. rewrite !Nat.add_succ_r. apply (IH (S k) (S j)). lia.
Qed.

Definition so_far (l : list (Z * bytes)) (k : nat) (t : trace) : Prop := numbered t ∧ length (sent t) = k ∧ (shown t).2 = l.
Lemma do_hop_exact n c l k : prompt n → recovers → 0 <= c < 256 → 1 <= nprobes o → (k + Z.to_nat (nprobes o) <= 255)%nat →
  triple (so_far l k) (do_hop o net sendto c)
    (λ b t, b = negb (c <=? n) ∧ so_far (l ++ [(c, node c)]) (k + Z.to_nat (nprobes o)) t).
Proof.
  intros Hpr Hrec Hc Hnp Hk t (Hn & Hlen & Hl). unfold do_hop. rewrite modify_run. set (t1 := _ <| loss := 0 |>).
  apply (triple_bind (λ t, t = t1) _ (λ _, hop_line n c l k 0)); [|intros []|done].
  { intros ? ->. unfold Printf, modify. cbn [returns]. split; [exact Hn|]. split; [exact Hlen|]. split; [done|].
    split; [by destruct (c <=? n)|]. cbn [Nat.eqb]. split; [done|]. rewrite shown_print. cbn [note_line]. rewrite <- Hl. done. }
  eapply triple_bind; [by apply do_probes_exact|]. intros []. set (k' := (k + _)%nat). set (j := (0 + _)%nat).
  intros t2 Ht2. rewrite get_run.
  assert (Hquiet : ∀ f args, (∀ sh, note_line sh (f, args) = sh) → total (hop_line n c l k' j) (Printf f args)).
  { intros f args Hf t3 (H1 & H2 & H3 & H4 & H5). unfold Printf, modify. cbn [returns]. split; [exact H1|]. split; [exact H2|].
    split; [exact H3|]. split; [exact H4|]. rewrite shown_print, Hf. exact H5. }
  assert (Hb : truthy (got_there t2) || ((0 <? unreachable t2) && (nprobes o - 1 <=? unreachable t2)) = negb (c <=? n)).
  { destruct Ht2 as (_ & _ & -> & -> & _). cbn [Z.ltb Z.compare andb]. rewrite orb_false_r. unfold j.
    destruct (c <=? n); [done|]. unfold truthy. by rewrite (proj2 (Z.eqb_neq _ _)) by lia. }
  rewrite Hb.
  apply returns_after with (hop_line n c l k' j); [destruct (sump o); [by apply Hquiet|apply total_skip]|done|]. intros _ t3 Ht3.
  apply returns_after with (hop_line n c l k' j); [by apply Hquiet|done|]. intros _ t4 (H1 & H2 & _ & _ & H5).
  rewrite (proj2 (Nat.eqb_neq j 0)) in H5 by lia. destruct H5 as (_ & _ & H5). split; [done|]. split; [done|]. split; [done|]. by rewrite H5.
Qed.

Lemma hops_exact n m fuel c l k : prompt n → recovers → 1 <= nprobes o → 0 <= c → c + Z.of_nat m = n + 1 → n + 1 < 256 →
  (m < fuel)%nat → (k + S m * Z.to_nat (nprobes o) <= 255)%nat →
  triple (so_far l k) (hops o net sendto fuel c)
    (λ _ t, (shown t).2 = l ++ ((λ i, (i, node i)) <$> seqZ c (Z.of_nat (S m))) ∧ length (sent t) = (k + S m * Z.to_nat (nprobes o))%nat).
Proof.
  intros Hpr Hrec Hnp. revert fuel c l k. induction m as [|m IH]; intros fuel c l k Hc Hm Hn Hf Hk;
    (destruct fuel as [|fuel]; [lia|]); cbn [hops];
    (eapply triple_bind; [apply (do_hop_exact n); [done|done|lia|lia|lia]|]); intros b t [-> Ht].
  - rewrite (proj2 (Z.leb_gt _ _)) by lia. cbn [negb]. destruct Ht as (_ & H2 & H3). split; [|lia]. rewrite H3. done.
  - rewrite (proj2 (Z.leb_le _ _)) by lia. cbn [negb].
    eapply returns_impl; [|apply (IH fuel (c + 1) (l ++ [(c, node c)]) (k + Z.to_nat (nprobes o))%nat); [lia|lia|lia|lia|lia|done]].
    intros [[] t1] [H1 H2]. split; [|lia]. rewrite H1, <- (assoc_L (++)). f_equal. cbn [app].
    rewrite (seqZ_cons c) by lia. rewrite fmap_cons. f_equal. f_equal. f_equal; lia.
Qed.
End route.

(** ** The theorems *)

(** The options: no TCP, no verbose output, and a packet as [main] makes it. *)
Definition plain (o : options) : Prop :=
  proto o ≠ Tcp ∧ verbose o = 0 ∧ printdiff o = false ∧ 0 <= ident o < 65536 ∧ 0 <= port o < 65536 ∧
  minpacket (proto o) 0 <= packlen o ∧ protlen o <= packlen o - 20.

Lemma begin_header o tos off src dst : length src = 4%nat → length dst = 4%nat →
  ∃ h, outip (begin o tos off src dst) = h ++ replicate (Z.to_nat (packlen o) - 20) 0 ∧ quoted_header o h.
Proof.
  intros Ls Ld.
  exists ([0x45; default 0 tos] ++ Traceroute.le16 (packlen o) ++ [0; 0] ++ Traceroute.le16 off ++ [0; proto_num (proto o); 0; 0] ++ src ++ dst).
  split; [unfold begin, first_packet; simpl outip; by rewrite <- !(assoc_L (++))|].
  split; [rewrite !length_app, Ls, Ld; done|]. done.
Qed.
Lemma begin_numbered o tos off src dst : plain o → length src = 4%nat → length dst = 4%nat →
  numbered o (begin o tos off src dst).
Proof.
  intros (_ & _ & _ & _ & _ & Hmin & Hpl) Ls Ld. split; [done|]. split; [done|].
  assert (20 + 24 <= packlen o) by (unfold minpacket, hdrlen in Hmin; destruct (proto o); lia).
  destruct (begin_header o tos off src dst Ls Ld) as (h & E & Hh). exists h, (replicate (Z.to_nat (packlen o) - 20) 0).
  rewrite length_replicate. split; [done|]. split; [done|]. lia.
Qed.

(** C18: No sender is ever named on the line of a hop that is not its own.
    With at most 255 probes, whatever the network loses, delays, repeats or
    reorders: as long as every packet that arrives is an answer to some probe
    that was sent, from the node where the time to live of that probe ends,
    traceroute ends, and each address on the line of hop [n] is that of the node [n]. *)
Theorem trace_attribution (o : options) (node : Z → bytes) (net : list bytes → list reply) (sendto : list bytes → Z)
    (tos : option Z) (off : Z) (src dst : bytes) :
  plain o → length src = 4%nat → length dst = 4%nat → 0 <= first_ttl o <= max_ttl o → max_ttl o <= 255 → 0 <= nprobes o →
  nprobes o * (max_ttl o - first_ttl o + 1) <= 255 → honest o node net →
  returns (main o net sendto (begin o tos off src dst)) (λ '(_, t), ∀ n a, (n, a) ∈ (shown t).2 → a = node n).
Proof.
  intros Hpl Ls Ld Hf Hm Hn Hnp Hh. assert (Hb := begin_numbered o tos off src dst Hpl Ls Ld).
  destruct Hpl as (H1 & H2 & H3 & H4 & H5 & _). unfold main.
  eapply returns_impl; [|apply (hops_sound o node H1 H2 H3 H4 H5 net sendto _ (first_ttl o) 0 Hh); [lia|lia|nia|]].
  - intros [[] t] [Hat _]. exact Hat.
  - split; [done|]. split; [done|]. intros n a Ha. by apply elem_of_nil in Ha.
Qed.


(** *** A path of three routers *)

Definition sample_node (i : Z) : bytes := [10; 0; i; 1].
Definition sample_reply (p : bytes) : reply :=
  Reply (message sample_outer (if p !!! 8%nat <=? 3 then 11 else 3) (if p !!! 8%nat <=? 3 then 0 else 3) (replicate 6 0)
           (take 20 p) (take 8 (drop 20 p)) []) 56 (sample_node (p !!! 8%nat)) 0.
(** The answer to the probe before is repeated first. *)
Definition sample_net (ps : list bytes) : list reply :=
  match reverse ps with
  | p :: q :: _ => if (28 <=? length p)%nat && (28 <=? length q)%nat then [sample_reply q; sample_reply p] else []
  | [p] => if (28 <=? length p)%nat then [sample_reply p] else []
  | [] => []
  end.
Definition sample_route_options : options := Options Udp 0x9234 33434 false true 60 40 3 1 30 0 true false false 5 [] [].

Lemma route_sample_plain : plain sample_route_options.
Proof. unfold plain, minpacket. simpl. split_and!; done || lia. Qed.
Lemma sample_reply_answers p : ip_packet sample_route_options p →
  answer sample_route_options sample_node p (if p !!! 8%nat <=? 3 then -1 else 4) (sample_reply p).
Proof.
  intros (Hl & H0 & H9). change (Z.to_nat _) with 60%nat in Hl. unfold sample_reply.
  assert (H := answer_report sample_route_options sample_node p sample_outer (replicate 6 0) (take 20 p) 8 []).
  destruct (p !!! 8%nat <=? 3); [apply (H 11 0)|apply (H 3 3)]; try done; try (exact sample_outer_ok);
    try (rewrite length_take; lia); try (rewrite lookup_take_lt by lia; done); try (simpl; lia); [by left|by right].
Qed.

Lemma sample_honest : honest sample_route_options sample_node sample_net.
Proof.
  intros ps r Hps. rewrite Forall_forall in Hps. unfold sample_net.
  assert (H : ∀ p, p ∈ reverse ps → p ∈ ps ∧ answer sample_route_options sample_node p (if p !!! 8%nat <=? 3 then -1 else 4) (sample_reply p)).
  { intros p Hp. rewrite elem_of_reverse in Hp. split; [done|]. by apply sample_reply_answers, Hps. }
  destruct (reverse ps) as [|p [|q l]]; [by intros ?%elem_of_nil| |].
  - destruct (28 <=? length p)%nat; [|by intros ?%elem_of_nil]. intros ->%list_elem_of_singleton.
    eexists p, _. apply H. set_solver.
  - destruct (_ && _); [|by intros ?%elem_of_nil].
    intros [->|[->|[]%elem_of_nil]%elem_of_cons]%elem_of_cons; eexists _, _; apply H; set_solver.
Qed.
Lemma sample_prompt : prompt sample_route_options sample_node sample_net 3.
Proof.
  intros ps p [Hps Hp]%Forall_app. inversion Hp as [|? ? Hp1 _]; subst. unfold sample_net. rewrite reverse_app. change (reverse [p]) with [p]. cbn [app].
  assert (Hl : (28 <=? length p)%nat = true) by (apply Nat.leb_le; destruct Hp1 as [-> _]; simpl; lia). rewrite Hl.
  assert (Hv : if p !!! 8%nat <=? 3 then (if p !!! 8%nat <=? 3 then -1 else 4) = -1
    else final (if p !!! 8%nat <=? 3 then -1 else 4) = true) by (by destruct (p !!! 8%nat <=? 3)).
  destruct (reverse ps) as [|q l] eqn:E.
  - exists [], (sample_reply p), [], (if p !!! 8%nat <=? 3 then -1 else 4). split; [done|]. split; [by intros ? ?%elem_of_nil|].
    split; [by apply sample_reply_answers|done].
  - assert (Hq : q ∈ ps) by (rewrite <- elem_of_reverse, E; set_solver).
    assert (Hq1 : ip_packet sample_route_options q) by (rewrite Forall_forall in Hps; by apply Hps).
    assert (Hlq : (28 <=? length q)%nat = true) by (apply Nat.leb_le; destruct Hq1 as [-> _]; simpl; lia). rewrite Hlq.
    exists [sample_reply q], (sample_reply p), [], (if p !!! 8%nat <=? 3 then -1 else 4). split; [done|]. split.
    + intros r' ->%list_elem_of_singleton. eexists q, _. split; [done|]. by apply sample_reply_answers.
    + split; [by apply sample_reply_answers|done].
Qed.

Lemma trace_attribution_witness :
  returns (main sample_route_options sample_net (λ _, 60) (begin sample_route_options None 0 [10; 0; 0; 1] [10; 0; 4; 1]))
    (λ '(_, t), ∀ n a, (n, a) ∈ (shown t).2 → a = [10; 0; n; 1]).
Proof.
  apply (trace_attribution sample_route_options sample_node sample_net (λ _, 60) None 0 [10; 0; 0; 1] [10; 0; 4; 1]);
    [exact route_sample_plain|done|done|simpl; lia|simpl; lia|simpl; lia|simpl; lia|exact sample_honest].
Defined.

