(* ===== verification/TracertSafe.v ===== *)
(** * TracertSafe: traceroute on any network

    Whatever arrives in the 512 octets of the packet buffer, no read or write
    leaves a buffer, the loops end, and the packets that are sent are probes of the right
    form, with the time to live of their hop. *)

From S2P Require Import Prelude Timeval Stdio Md5 Cksum Tally Tracert TracertFun TracertRoute.

#[local] Opaque Traceroute.p_cksum Traceroute.in_cksum.

(** What [recvfrom] can leave; the words of an unexpected message are printed
    up to seven octets beyond the message. *)
Definition reply_ok (o : options) (r : reply) : Prop :=
  length (r_buf r) = 512%nat ∧ r_cc r <= 512 ∧ (verbose o ≠ 0 → r_cc r <= 505).

Section safe.
Context (o : options).

Lemma rd8_some (buf : bytes) k : (k < length buf)%nat → ∃ b, of_opt (rd8 buf k) = Ret b.
Proof. intros [b Hb]%lookup_lt_is_Some. exists b. unfold rd8. by rewrite Hb. Qed.
Lemma read_some (buf : bytes) k n : (k + n <= length buf)%nat → ∃ l, of_opt (read_at buf k n) = Ret l.
Proof. intros H. destruct (read_returns buf k n H) as [l ->]. by exists l. Qed.
Lemma rd16_some (buf : bytes) k : (k + 2 <= length buf)%nat → ∃ b, of_opt (rd16 buf k) = Ret b.
Proof. intros H. unfold rd16. destruct (read_returns buf k 2 H) as [l ->]. by eexists. Qed.
Lemma rd16le_some (buf : bytes) k : (k + 2 <= length buf)%nat → ∃ b, of_opt (rd16le buf k) = Ret b.
Proof. intros H. unfold rd16le. destruct (read_returns buf k 2 H) as [l ->]. by eexists. Qed.

Lemma check_some (buf : bytes) k s : (k + 8 <= length buf)%nat → ∃ b, check o buf k s = Ret b.
Proof.
  intros H. assert (H16 : ∀ i, (i <= 6)%nat → ∃ b, of_opt (rd16 buf (k + i)) = Ret b) by (intros; apply rd16_some; lia).
  assert (Hle : ∀ i, (i <= 6)%nat → ∃ b, of_opt (rd16le buf (k + i)) = Ret b) by (intros; apply rd16le_some; lia).
  destruct (H16 0%nat) as [b0 E0], (H16 2%nat) as [b2 E2], (H16 6%nat) as [b6 E6], (Hle 4%nat) as [l4 E4], (Hle 6%nat) as [l6 E6'];
    try lia. rewrite Nat.add_0_r in E0. destruct (read_some buf (k + 4) 4) as [q E]; [lia|].
  unfold check. destruct (proto o);
    unfold udp_check, tcp_check, gre_check, icmp_check, gen_check; rewrite ?E0, ?E2, ?E6, ?E4, ?E6', ?E; cbn [mbind outcome_bind];
    repeat (destruct (negb _); [by eexists|]); rewrite ?E2, ?E6, ?E6', ?E; cbn [mbind outcome_bind];
    repeat (destruct (negb _); [by eexists|]); rewrite ?E; by eexists.
Qed.

Lemma dump_some (buf : bytes) n i cc lp : (Z.of_nat lp + (cc - i) + 3 <= Z.of_nat (length buf)) →
  ∃ out, dump_icmp buf n i cc lp = Ret out.
Proof.
  revert i lp. induction n as [|n IH]; intros i lp H; cbn [dump_icmp]; [by eexists|].
  destruct (Z.ltb_spec i cc); [|by eexists]. destruct (read_some buf lp 4) as [w ->]; [lia|].
  destruct (IH (i + 4) (lp + 4)%nat) as [out E]; [lia|]. cbn [mbind outcome_bind]. rewrite E. by eexists.
Qed.

Section turn.
Context (t0 : trace).
Definition steady (t : trace) : Prop :=
  outip t = outip t0 ∧ seq t = seq t0 ∧ sent t = sent t0 ∧ 0 <= hiplen t ∧ Z.of_nat (hip t) + hiplen t <= 512.

Lemma steady_print f args : total steady (Printf f args).
Proof. intros t Ht. exact Ht. Qed.
Lemma steady_lift {X Y} (m : outcome X) (f : X → TR Y) : (∃ x, m = Ret x) → (∀ x, total steady (f x)) → total steady (lift m ≫= f).
Proof. intros [x E] Hf. by apply (total_lift_bind _ _ x). Qed.
Lemma hlen_bound b : 0 <= Z.land b 0x0f * 4 <= 60.
Proof. change 0x0f with (Z.ones 4). rewrite Z.land_ones by lia. assert (H := Z.mod_pos_bound b (2 ^ 4) ltac:(lia)). lia. Qed.

Lemma packet_ok_steady r n : reply_ok o r → total steady (packet_ok o (r_buf r) (r_cc r) (r_from r) n).
Proof.
  intros (Hl & Hcc & Hvb). unfold packet_ok. apply steady_lift; [apply rd8_some; lia|]. intros b0. assert (Hb := hlen_bound b0).
  set (hlen := Z.land b0 15 * 4) in *. destruct (Z.ltb_spec (r_cc r) (hlen + 8)).
  { apply total_bind; [destruct (truthy _); [apply steady_print|apply total_skip]|]. intros _. apply total_ret. }
  apply steady_lift; [apply rd8_some; lia|]. intros ty. apply steady_lift; [apply rd8_some; lia|]. intros code.
  apply steady_lift; [destruct (negb _); [by eexists|apply rd16_some; lia]|]. intros mtu.
  apply total_bind; [apply total_modify; by intros t Ht|]. intros _.
  apply steady_lift; [destruct (_ && _); [apply check_some; lia|by eexists]|]. intros [|]; [apply total_ret|]. cbv zeta.
  apply total_bind.
  { destruct (_ || _); [|apply total_ret]. apply total_bind.
    { apply total_modify. intros t (H1 & H2 & H3 & _). unfold steady. simpl. split_and!; try done; lia. }
    intros _. apply steady_lift; [apply rd8_some; lia|]. intros h. assert (Hh := hlen_bound h).
    assert (E : ∃ b, (if Z.land h 15 * 4 + 12 <=? r_cc r - hlen then
        p ← of_opt (rd8 (r_buf r) (Z.to_nat hlen + 8 + 9));
        if p =? proto_num (proto o) then check o (r_buf r) (Z.to_nat hlen + 8 + Z.to_nat (Z.land h 15 * 4)) (u8 n) else Ret false
      else Ret false) = Ret b).
    { destruct (_ <=? _); [|by eexists]. destruct (rd8_some (r_buf r) (Z.to_nat hlen + 8 + 9)) as [p ->]; [lia|]. cbn [mbind outcome_bind].
      destruct (p =? _); [apply check_some; lia|by eexists]. }
    destruct E as [b E]. by apply (total_lift _ _ b). }
  intros [|]; [apply total_ret|]. apply total_bind; [|intros _; apply total_ret].
  unfold truthy. destruct (Z.eqb_spec (verbose o) 0) as [Hv|Hv]; cbn [negb]; [apply total_skip|]. specialize (Hvb Hv).
  apply steady_lift; [apply read_some; lia|]. intros dst. apply total_bind; [apply steady_print|]. intros _.
  apply total_bind; [apply steady_print|]. intros _. apply steady_lift; [apply dump_some; lia|]. intros words.
  apply total_modify. by intros t Ht.
Qed.

Lemma show_code_steady r code : reply_ok o r → total steady (show_code (r_buf r) code).
Proof.
  intros (Hl & _). assert (Hm : total steady (mark_ttl (r_buf r))).
  { unfold mark_ttl. apply steady_lift; [apply rd8_some; lia|]. intros b. destruct (b <=? 1); [apply steady_print|apply total_skip]. }
  assert (Ha : total steady arrived) by (apply total_modify; by intros t Ht).
  assert (Hb : ∀ f args, total steady (blocked f args)).
  { intros f args. apply total_bind; [apply total_modify; by intros t Ht|]. intros _. apply steady_print. }
  unfold show_code. apply total_get_bind. intros t _.
  repeat (match goal with |- total _ (if ?b then _ else _) => destruct b end);
    first [apply Hb | apply total_bind; [done|intros _; first [done | apply steady_print]]].
Qed.

Lemma accept_steady r v : reply_ok o r → (20 <= length (outip t0))%nat → total steady (accept o r v).
Proof.
  intros Hr Hout. assert (Hl := Hr). destruct Hl as (Hl & _). unfold accept. apply total_bind.
  { unfold greet. apply total_get_bind. intros t _. destruct (_ || _); [|apply total_skip].
    apply total_bind; [destruct (truthy _); [apply steady_print|apply total_skip]|]. intros _.
    apply total_bind; [|intros _; apply total_modify; by intros p Hp].
    unfold print. apply steady_lift; [apply rd8_some; lia|]. intros b. cbv zeta.
    apply total_bind; [destruct (nflag o); apply steady_print|]. intros _. destruct (truthy _); [|apply total_skip].
    apply steady_lift; [apply read_some; lia|]. intros dst. apply steady_print. }
  intros _. apply total_bind; [apply steady_print|]. intros _. apply total_bind.
  { unfold show_diff. destruct (printdiff o); [|apply total_skip]. apply total_bind; [apply steady_print|]. intros _.
    apply total_bind.
    { intros t Ht. unfold get_out. destruct (read_returns (outip t) 0 1) as [l ->]; [destruct Ht as [-> _]; lia|]. exact Ht. }
    intros b. cbv zeta. apply total_bind; [apply steady_print|]. intros _. apply total_get_bind. intros t (_ & _ & _ & H1 & H2).
    apply steady_lift; [apply read_some; lia|]. intros q. apply total_modify. by intros p Hp. }
  intros _. destruct (v =? -2); [|destruct (v =? -1); [apply total_skip|by apply show_code_steady]].
  apply total_bind; [|intros _; apply total_modify; by intros p Hp].
  unfold mark_ttl. apply steady_lift; [apply rd8_some; lia|]. intros b. destruct (b <=? 1); [apply steady_print|apply total_skip].
Qed.

Lemma wait_steady rs : Forall (reply_ok o) rs → (20 <= length (outip t0))%nat → total steady (wait_loop o rs).
Proof.
  intros Hrs Hout. induction Hrs as [|r rs Hr _ IH]; cbn [wait_loop].
  - apply total_bind; [apply total_modify; by intros t Ht|]. intros _. apply steady_print.
  - apply total_get_bind. intros t _. apply total_bind; [by apply packet_ok_steady|]. intros i.
    destruct (i =? 0); [done|by apply accept_steady].
Qed.
End turn.

(** ** The loops *)

Context (net : list bytes → list reply) (sendto : list bytes → Z).
Context (Hnet : ∀ ps r, r ∈ net ps → reply_ok o r).

(** The probe with index [i], for the hop [first_ttl + i / nprobes]. *)
Definition typed (i : nat) (p : bytes) : Prop :=
  ip_packet o p ∧ p !! 8%nat = Some (u8 (first_ttl o + Z.of_nat i / nprobes o)).
Definition well_typed (ps : list bytes) : Prop := ∀ i p, ps !! i = Some p → typed i p.

Definition holds (out : bytes) (ps : list bytes) (t : trace) : Prop :=
  outip t = out ∧ sent t = ps ∧ 0 <= hiplen t ∧ Z.of_nat (hip t) + hiplen t <= 512.
Lemma holds_print out ps f args : total (holds out ps) (Printf f args).
Proof. intros t Ht. exact Ht. Qed.

Definition buffer (out : bytes) : Prop :=
  ∃ h d, out = h ++ d ∧ quoted_header o h ∧ (header_room (proto o) <= length d)%nat ∧ (Z.to_nat (protlen o) <= length d)%nat ∧
    (20 + length d)%nat = Z.to_nat (packlen o).
Definition ready (k : nat) (t : trace) : Prop :=
  ∃ out ps, holds out ps t ∧ buffer out ∧ well_typed ps ∧ length ps = k.

Lemma send_safe n ttl cc h d ps : length h = 20%nat →
  triple (holds (h ++ d) ps) (send_probe o n ttl cc) (λ _, holds (stamped o h n ttl ++ d) (ps ++ [stamped o h n ttl ++ d])).
Proof.
  intros Lh t Ht. unfold send_probe. assert (E : outip t = h ++ d) by apply Ht.
  rewrite (bind_run _ _ _ _ _ (put_header 8 [u8 ttl] t h d E ltac:(simpl; lia))).
  set (t1 := t <| outip := _ |>). assert (E1 : outip t1 = MD5.bcopy [u8 ttl] h 8 ++ d) by done.
  rewrite (bind_run _ _ _ _ _ (put_header 4 (be16 (ident o + n)) t1 _ d E1 ltac:(rewrite bcopy_length; simpl; lia))).
  fold (stamped o h n ttl). set (out := stamped o h n ttl ++ d). set (t2 := t1 <| outip := out |>).
  assert (Ht2 : holds out ps t2) by (destruct Ht as (_ & H); by split). clearbody t2. rewrite get_run.
  apply returns_after with (holds out ps); [|done|].
  { destruct (1 <? verbose o); [|apply total_skip]. apply total_bind; [apply holds_print|]. intros _.
    apply total_bind; [apply total_modify; by intros p Hp|]. intros _. apply holds_print. }
  intros _ t3 (H1 & H2 & H3). rewrite modify_run.
  assert (Ht4 : holds out (ps ++ [out]) (t3 <| sent := sent t3 ++ [outip t3] |>)) by (unfold holds; simpl; rewrite H1, H2; done).
  generalize dependent (t3 <| sent := sent t3 ++ [outip t3] |>). intros t4 Ht4.
  destruct (_ || _); [by apply holds_print|done].
Qed.

Lemma do_probe_safe k ttl : Z.of_nat k / nprobes o = ttl - first_ttl o →
  triple (ready k) (do_probe o net sendto ttl) (λ _, ready (S k)).
Proof.
  intros Hk t (out & ps & Ht & (h & d & -> & Hh & Hr & Hl & Hlen) & Hps & Hpl). unfold do_probe. rewrite modify_run, get_run.
  set (t1 := t <| seq := seq t + 1 |>). assert (Ht1 : holds (h ++ d) ps t1) by exact Ht.
  set (n := seq t1). set (cc := sendto (sent t1)). clearbody n cc.
  rewrite (bind_run _ _ _ _ _ (prepare_run o (u8 n) t1 h d (proj1 Ht1) (proj1 Hh) Hr Hl)).
  set (d' := payload o h d (u8 n)). assert (Hd' : length d' = length d) by (by apply payload_length).
  assert (Ht2 : holds (h ++ d') ps (t1 <| outip := h ++ d' |>)) by (destruct Ht1 as (_ & H); by split).
  refine (triple_bind _ _ _ _ _ (send_safe n ttl cc h d' ps (proj1 Hh)) _ _ Ht2). intros [] t3 Ht3. rewrite get_run.
  destruct (stamped_header o h n ttl Hh) as [Hh' H8]. set (p := stamped o h n ttl ++ d') in *.
  assert (Hp : typed k p).
  { split; [split|]; [unfold p; rewrite length_app, (proj1 Hh'); lia| |].
    - split; (apply lookup_app_l_Some; apply Hh').
    - rewrite Hk. replace (first_ttl o + (ttl - first_ttl o)) with ttl by lia. by apply lookup_app_l_Some. }
  assert (Hout : (20 <= length p)%nat) by (unfold p; rewrite length_app, (proj1 Hh'); lia).
  eapply returns_impl; [|apply (wait_steady t3 (net (sent t3)))].
  - intros [[] t4] (E1 & _ & E3 & E4). exists p, (ps ++ [p]). destruct Ht3 as (F1 & F2 & _). split; [|split; [|split]].
    + split; [congruence|]. split; [congruence|]. done.
    + exists (stamped o h n ttl), d'. rewrite Hd'. done.
    + intros i q. rewrite lookup_app_Some. intros [Hq|[Hi Hq]]; [by apply Hps|].
      apply list_lookup_singleton_Some in Hq as [Hi0 <-]. by replace i with k by lia.
    + rewrite length_app. simpl. lia.
  - apply Forall_forall. intros r Hin. by apply (Hnet (sent t3)).
  - destruct Ht3 as [-> _]. done.
  - destruct Ht3 as (_ & _ & H). done.
Qed.

Context (Hnp : 1 <= nprobes o).

Lemma do_probes_safe m c j : (j + m <= Z.to_nat (nprobes o))%nat → first_ttl o <= c →
  triple (ready (Z.to_nat ((c - first_ttl o) * nprobes o) + j)) (do_probes o net sendto m c)
    (λ _, ready (Z.to_nat ((c - first_ttl o) * nprobes o) + (j + m))).
Proof.
  intros Hm Hc. revert j Hm. induction m as [|m IH]; intros j Hm; cbn [do_probes].
  - rewrite Nat.add_0_r. apply total_skip.
  - eapply triple_bind; [apply do_probe_safe|].
    + rewrite Nat2Z.inj_add, Z2Nat.id by nia. rewrite Z.div_add_l by lia. rewrite Z.div_small by lia. lia.
    + intros []. rewrite <- Nat.add_succ_r. rewrite (Nat.add_succ_r j), <- (Nat.add_succ_l j). apply IH. lia.
Qed.

Lemma ready_print k f args : total (ready k) (Printf f args).
Proof. intros t (out & ps & Ht & H). exists out, ps. split; [exact Ht|exact H]. Qed.

Lemma do_hop_safe c : first_ttl o <= c →
  triple (ready (Z.to_nat ((c - first_ttl o) * nprobes o))) (do_hop o net sendto c)
    (λ _, ready (Z.to_nat ((c + 1 - first_ttl o) * nprobes o))).
Proof.
  intros Hc. assert (H := do_probes_safe (Z.to_nat (nprobes o)) c 0 ltac:(lia) Hc). rewrite Nat.add_0_r, Nat.add_0_l in H.
  rewrite <- Z2Nat.inj_add in H by nia. replace ((c - first_ttl o) * nprobes o + nprobes o) with ((c + 1 - first_ttl o) * nprobes o) in H by lia.
  set (k := Z.to_nat _) in H |- *. set (k' := Z.to_nat ((c + 1 - _) * _)) in *. clearbody k k'. unfold do_hop.
  apply (triple_bind _ _ (λ _, ready k)); [intros t (out & ps & Ht & Hr); exists out, ps; split; [exact Ht|exact Hr]|]. intros [].
  apply (triple_bind _ _ (λ _, ready k)); [apply ready_print|]. intros [].
  apply (triple_bind _ _ (λ _, ready k')); [done|]. intros []. apply (total_get_bind (ready k')). intros t _.
  apply total_bind; [destruct (sump o); [apply ready_print|apply total_skip]|]. intros _.
  apply total_bind; [apply ready_print|]. intros _. apply total_ret.
Qed.

Lemma hops_safe n c : first_ttl o <= c →
  triple (ready (Z.to_nat ((c - first_ttl o) * nprobes o))) (hops o net sendto n c)
    (λ _ t, well_typed (sent t) ∧ Z.of_nat (length (sent t)) <= (c + Z.of_nat n - first_ttl o) * nprobes o).
Proof.
  assert (Hend : ∀ c t, first_ttl o <= c → ready (Z.to_nat ((c - first_ttl o) * nprobes o)) t →
    well_typed (sent t) ∧ Z.of_nat (length (sent t)) <= (c - first_ttl o) * nprobes o).
  { intros c' t Hc' (out & ps & (_ & -> & _) & _ & Hty & ->). split; [done|]. rewrite Z2Nat.id by nia. done. }
  revert c. induction n as [|n IH]; intros c Hc; cbn [hops].
  - intros t Ht. destruct (Hend c t Hc Ht) as [H1 H2]. split; [done|]. cbn [Z.of_nat]. rewrite Z.add_0_r. done.
  - eapply triple_bind; [by apply do_hop_safe|]. intros [|].
    + intros t Ht. destruct (Hend (c + 1) t ltac:(lia) Ht) as [H1 H2]. split; [done|]. cbn beta. nia.
    + eapply triple_weaken; [apply (IH (c + 1)); lia|done|]. intros [] t [H1 H2]. split; [done|]. nia.
Qed.
End safe.

(** For every protocol and every verbosity, whatever packets [recvfrom] puts
    into the buffer, the loops end without a read or a write outside of the
    buffers, after at most [nprobes] well-formed probes for each hop. *)
Lemma main_safe (o : options) (net : list bytes → list reply) (sendto : list bytes → Z)
    (tos : option Z) (off : Z) (src dst : bytes) :
  length src = 4%nat → length dst = 4%nat → minpacket (proto o) 0 <= packlen o → protlen o <= packlen o - 20 → 1 <= nprobes o →
  first_ttl o <= max_ttl o → (∀ ps r, r ∈ net ps → reply_ok o r) →
  returns (main o net sendto (begin o tos off src dst))
    (λ '(_, t), well_typed o (sent t) ∧ Z.of_nat (length (sent t)) <= (max_ttl o - first_ttl o + 1) * nprobes o).
Proof.
  intros Ls Ld Hmin Hpl Hn Httl Hnet. unfold main.
  eapply returns_impl; [|apply (hops_safe o net sendto Hnet Hn _ (first_ttl o)); [lia|]].
  - intros [[] t] [H1 H2]. split; [done|]. lia.
  - rewrite Z.sub_diag. destruct (begin_header o tos off src dst Ls Ld) as (h & E & Hh).
    exists (outip (begin o tos off src dst)), []. split; [by split_and!|]. split; [|by split].
    exists h, (replicate (Z.to_nat (packlen o) - 20) 0). rewrite length_replicate. split; [done|]. split; [done|].
    unfold minpacket, hdrlen, header_room in *. destruct (proto o); lia.
Qed.
