(* ===== verification/TracertOpt.v ===== *)
(** * TracertOpt: the command line of traceroute (traceroute.tproj/traceroute.c)

    The scan of the options with [getopt], the numbers ([str2val]), host names
    ([gethostinfo]), the choice of the source address and the packet before the
    first probe: [main] up to its loop over the hops. The name service, the list of
    interfaces and the routing lookup [findsaddr] are parameters. *)

From S2P Require Import Prelude Timeval In6 Stdio Md5 Cksum Tally Tracert TracertFun TracertRoute TracertSafe.

(** ** Numbers *)

Definition isspace (c : Z) : bool := (c =? 32) || ((9 <=? c) && (c <=? 13)).
Definition digit (base c : Z) : option Z :=
  let v := if (48 <=? c) && (c <=? 57) then c - 48
           else if (97 <=? c) && (c <=? 122) then c - 97 + 10
           else if (65 <=? c) && (c <=? 90) then c - 65 + 10 else base in
  if v <? base then Some v else None.

(** The digits at the start of [l], after the value [acc]. *)
Fixpoint scan (base acc : Z) (l : bytes) : Z * bytes :=
  match l with
  | c :: l' => match digit base c with Some v => scan base (acc * base + v) l' | None => (acc, l) end
  | [] => (acc, [])
  end.
Fixpoint skip_space (l : bytes) : bytes :=
  match l with
  | c :: l' => if isspace c then skip_space l' else l
  | [] => []
  end.

(** [strtol]: the value, kept within a [long], and the rest of the string. *)
Definition LONG_MAX : Z := 2 ^ 63 - 1.
Definition is_digit (base : Z) (l : bytes) : bool := match l with c :: _ => bool_decide (is_Some (digit base c)) | [] => false end.
Definition strtol (base : Z) (str : bytes) : Z * bytes :=
  let l := skip_space str in
  let '(neg, l) := match l with 45 :: l' => (true, l') | 43 :: l' => (false, l') | _ => (false, l) end in
  let l := match l with
           | 48 :: x :: l' => if (base =? 16) && ((x =? 120) || (x =? 88)) && is_digit base l' then l' else l
           | _ => l
           end in
  if is_digit base l then
    let '(v, rest) := scan base 0 l in
    (if neg : bool then Z.max (- LONG_MAX - 1) (- v) else Z.min LONG_MAX v, rest)
  else (0, str).

(** [str2val]: a bad value ends the program. *)
Definition str2val (str : bytes) (mi ma : Z) : outcome Z :=
  let '(v, ep) := match str with
                  | 48 :: x :: cp => if (x =? 120) || (x =? 88) then strtol 16 cp else strtol 10 str
                  | _ => strtol 10 str
                  end in
  let val := s32 v in
  match ep with
  | _ :: _ => Exit 1
  | [] => if (val <? mi) && (0 <=? mi) then Exit 1 else if (ma <? val) && (0 <=? ma) then Exit 1 else Ret val
  end.

(** ** getopt *)

(** The entry of an option in the list: whether it takes an argument. *)
Fixpoint wanted (ostr : bytes) (c : Z) : option bool :=
  match ostr with
  | o :: rest => if o =? c then Some (match rest with 58 :: _ => true | _ => false end) else wanted rest c
  | [] => None
  end.

(** The letters of one word, and whether the next word [next] is an argument; [?] stands for a letter that is
    not in the list or lacks its argument. *)
Fixpoint letters (ostr place : bytes) (next : option bytes) : list (Z * bytes) * bool :=
  match place with
  | [] => ([], false)
  | c :: place =>
      match (if c =? 58 then None else wanted ostr c) with
      | None => let '(ops, used) := letters ostr place next in ((63, []) :: ops, used)
      | Some false => let '(ops, used) := letters ostr place next in ((c, []) :: ops, used)
      | Some true =>
          match place, next with
          | _ :: _, _ => ([(c, place)], false)
          | [], Some arg => ([(c, arg)], true)
          | [], None => ([(63, [])], false)
          end
      end
  end.
Fixpoint getopt (ostr : bytes) (argv : list bytes) : list (Z * bytes) * list bytes :=
  match argv with
  | [] => ([], [])
  | arg :: rest =>
      match arg with
      | [45] => ([], argv)
      | [45; 45] => ([], rest)
      | 45 :: place =>
          let '(ops, used) := letters ostr place (head rest) in
          let '(ops', operands) :=
            match used, rest with
            | true, _ :: rest' => getopt ostr rest'
            | _, _ => getopt ostr rest
            end in
          (ops ++ ops', operands)
      | _ => ([], argv)
      end
  end.

(** ** Hosts *)

(** The calls of the system that [main] makes before its loop. *)
Record hostent := Hostent { h_name : bytes; h_addrtype : Z; h_length : Z; h_addr_list : list bytes }.
Record system := System {
  getprotobyname : bytes → option Z;
  inet_addr : bytes → option bytes;
  gethostbyname : bytes → option hostent;
  ip_ttl : Z;
  ifaddrlist : option (list (bytes * bytes));
  findsaddr : bytes → option bytes;
  getpid : Z;
  opened : bool;
  set_options : bytes → bool;
  set_other : bool;
  bound : bytes → bool }.

Definition die {A} : outcome A := Exit 1.

Section command.
Context (sys : system).

(** The name and the addresses; there are at most 64 characters. *)
Definition gethostinfo (hostname : bytes) : outcome (bytes * list bytes) :=
  if (64 <? length hostname)%nat then die
  else
    match inet_addr sys hostname with
    | Some addr => Ret (hostname, [addr])
    | None =>
        match gethostbyname sys hostname with
        | None => die
        | Some hp =>
            if negb (h_addrtype hp =? AF_INET) || negb (h_length hp =? 4) then die
            else Ret (h_name hp, h_addr_list hp)
        end
    end.
(** [hi->addrs[0]] *)
Definition first_addr (addrs : list bytes) : outcome bytes := of_opt (head addrs).
Definition getaddr (hostname : bytes) : outcome bytes :=
  '(_, addrs) ← gethostinfo hostname; first_addr addrs.

(** ** The options *)

Definition NGATEWAYS : Z := (40 - 4 - 1) / 4.
Definition IP_DF : Z := 0x4000.

Record scanned := Scanned {
  as_path : bool;
  as_server : option bytes;
  sc_debug : bool;
  sc_dontroute : bool;
  sc_printdiff : bool;
  sc_fixedPort : bool;
  sc_first_ttl : Z;
  sc_max_ttl : Z;
  sc_off : Z;
  gwlist : list bytes;
  device : option bytes;
  sc_proto : outproto;
  sc_nflag : bool;
  requestPort : Z;
  sc_nprobes : Z;
  source : option bytes;
  sc_sump : bool;
  sc_tos : Z;
  settos : bool;
  sc_verbose : Z;
  sc_doipcksum : bool;
  sc_waittime : Z;
  pausemsecs : Z }.
#[export] Instance eta_scanned : Eta scanned := λ s,
  Scanned (as_path s) (as_server s) (sc_debug s) (sc_dontroute s) (sc_printdiff s) (sc_fixedPort s) (sc_first_ttl s) (sc_max_ttl s)
    (sc_off s) (gwlist s) (device s) (sc_proto s) (sc_nflag s) (requestPort s) (sc_nprobes s) (source s) (sc_sump s) (sc_tos s)
    (settos s) (sc_verbose s) (sc_doipcksum s) (sc_waittime s) (pausemsecs s).

(** The values before the scan. *)
Definition defaults : scanned :=
  Scanned false None false false false false 1 (ip_ttl sys) 0 [] None Udp false (-1) (-1) None false 0 false 0 true 5 0.

Definition option_letters : bytes := chars "aA:edDFInrSvxf:g:i:M:m:P:p:q:s:t:w:z:".
Definition letter (s : string) : Z := hd 0 (chars s).

Definition protocol (optarg pname : bytes) : outcome outproto := setproto (getprotobyname sys) (str2val optarg 1 255) pname.

(** One turn of the loop; a letter that is not in the list ends the program with the usage. *)
Definition option_turn (s : scanned) (op : Z) (optarg : bytes) : outcome scanned :=
  let isop l := op =? letter l in
  if isop "a" then Ret (s <| as_path := true |>)
  else if isop "A" then Ret (s <| as_path := true |> <| as_server := Some optarg |>)
  else if isop "d" then Ret (s <| sc_debug := true |>)
  else if isop "D" then Ret (s <| sc_printdiff := true |>)
  else if isop "e" then Ret (s <| sc_fixedPort := true |>)
  else if isop "f" || isop "M" then v ← str2val optarg 1 255; Ret (s <| sc_first_ttl := v |>)
  else if isop "F" then Ret (s <| sc_off := IP_DF |>)
  else if isop "g" then
    if NGATEWAYS <=? Z.of_nat (length (gwlist s)) then die
    else a ← getaddr optarg; Ret (s <| gwlist := gwlist s ++ [a] |>)
  else if isop "i" then Ret (s <| device := Some optarg |>)
  else if isop "I" then p ← protocol [] (chars "icmp"); Ret (s <| sc_proto := p |>)
  else if isop "m" then v ← str2val optarg 1 255; Ret (s <| sc_max_ttl := v |>)
  else if isop "n" then Ret (s <| sc_nflag := true |>)
  else if isop "P" then p ← protocol optarg optarg; Ret (s <| sc_proto := p |>)
  else if isop "p" then v ← str2val optarg 1 (2 ^ 16 - 1); Ret (s <| requestPort := u16 v |>)
  else if isop "q" then v ← str2val optarg 1 (-1); Ret (s <| sc_nprobes := v |>)
  else if isop "r" then Ret (s <| sc_dontroute := true |>)
  else if isop "s" then Ret (s <| source := Some optarg |>)
  else if isop "S" then Ret (s <| sc_sump := true |>)
  else if isop "t" then v ← str2val optarg 0 255; Ret (s <| sc_tos := v |> <| settos := true |>)
  else if isop "v" then Ret (s <| sc_verbose := sc_verbose s + 1 |>)
  else if isop "x" then Ret (s <| sc_doipcksum := negb (sc_doipcksum s) |>)
  else if isop "w" then v ← str2val optarg 1 (24 * 60 * 60); Ret (s <| sc_waittime := v |>)
  else if isop "z" then v ← str2val optarg 0 (60 * 60 * 1000); Ret (s <| pausemsecs := v |>)
  else die.

Fixpoint option_loop (ops : list (Z * bytes)) (s : scanned) : outcome scanned :=
  match ops with
  | [] => Ret s
  | (op, optarg) :: ops => s ← option_turn s op optarg; option_loop ops s
  end.

(** ** The source address *)

Definition find_device (al : list (bytes * bytes)) (dev : bytes) : option bytes :=
  snd <$> head (filter (λ d, d.1 = dev) al).
Definition choose_source (s : scanned) (to : bytes) : outcome bytes :=
  match ifaddrlist sys with
  | None => die
  | Some [] => die
  | Some al =>
      dev ← match device s with
            | None => Ret None
            | Some d => match find_device al d with Some a => Ret (Some a) | None => die end
            end;
      match source s with
      | None =>
          match dev with
          | Some a => Ret a
          | None => match findsaddr sys to with Some a => Ret a | None => die end
          end
      | Some name =>
          '(_, addrs) ← gethostinfo name;
          match dev with
          | Some a => if bool_decide (a ∈ addrs) then Ret a else die
          | None => first_addr addrs
          end
      end
  end.

(** ** The start of the program *)

(** The loose source route option; 40 octets of options and nine gateways have room. *)
Definition IPOPT_LSRR : Z := 131.
Definition source_route (gws : list bytes) (to : bytes) : outcome bytes :=
  if (9 <=? length gws)%nat then Crash
  else
    let gws := concat (gws ++ [to]) in
    let i := Z.of_nat (length gws) in
    if 40 <? 4 + i then Crash else Ret ([1; IPOPT_LSRR; u8 (i + 3); 4] ++ gws).

Definition maxpacket : Z := 32 * 1024.

(** From the scanned options and the operands to the parsed options, the type
    of service and the addresses. *)
Definition finish_options (prog : bytes) (s : scanned) (operands : list bytes) : outcome (options * bytes * bytes) :=
  let port := if negb (requestPort s =? -1) then requestPort s else default_port (sc_proto s) in
  let nprobes := if sc_nprobes s =? -1 then (if sc_printdiff s then 1 else 3) else sc_nprobes s in
  if sc_max_ttl s <? sc_first_ttl s then die
  else
    let optlen := match gwlist s with [] => 0 | _ => (Z.of_nat (length (gwlist s)) + 1) * 4 end in
    let minimum := minpacket (sc_proto s) optlen in
    '(name, packlen) ← match operands with
                       | [h] => Ret (h, minimum)
                       | [h; len] => v ← str2val len minimum maxpacket; Ret (h, v)
                       | _ => die
                       end;
    '(hostname, addrs) ← gethostinfo name;
    to ← first_addr addrs;
    if negb (opened sys) then die
    else
      route ← match gwlist s with [] => Ret true | gws => o ← source_route gws to; Ret (set_options sys o) end;
      if negb route || negb (set_other sys) then die
      else
        from ← choose_source s to;
        if negb (bound sys from) then die
        else
          let o := Options (sc_proto s) (Z.lor (Z.land (getpid sys) 0xffff) 0x8000) port (sc_fixedPort s) (sc_doipcksum s) packlen
                     (packlen - 20 - optlen) nprobes (sc_first_ttl s) (sc_max_ttl s) (sc_verbose s) (sc_nflag s) (sc_sump s)
                     (sc_printdiff s) (sc_waittime s) prog hostname in
          Ret (o, from, to).

Definition traceroute (net : list bytes → list reply) (sendto : list bytes → Z) (prog : bytes) (argv : list bytes) :
    outcome (options * trace) :=
  let '(ops, operands) := getopt option_letters argv in
  s ← option_loop ops defaults;
  '(o, from, to) ← finish_options prog s operands;
  '(_, t) ← main o net sendto (begin o (if settos s then Some (sc_tos s) else None) (sc_off s) from to);
  Ret (o, t).
End command.

(** ** Safety *)

(** The program ends with the status 1, or [m] returns a value in [Q]. *)
Definition exits_or {A} (m : outcome A) (Q : A → Prop) : Prop :=
  match m with Ret a => Q a | Exit c => c = 1 | Crash => False end.
Lemma exits_bind {A B} (m : outcome A) (f : A → outcome B) (P : A → Prop) (Q : B → Prop) :
  exits_or m P → (∀ a, P a → exits_or (f a) Q) → exits_or (m ≫= f) Q.
Proof. destruct m; simpl; [auto|done|done]. Qed.

Lemma str2val_bounds str mi ma : 0 <= mi → exits_or (str2val str mi ma) (λ v, mi <= v ∧ (0 <= ma → v <= ma)).
Proof.
  intros Hmi. unfold str2val. destruct (match str with 48 :: _ => _ | _ => _ end) as [v [|? ?]]; [|done].
  destruct (Z.ltb_spec (s32 v) mi); cbn [andb]; [by rewrite (proj2 (Z.leb_le _ _) Hmi)|].
  destruct (Z.ltb_spec ma (s32 v)); cbn [andb]; [destruct (Z.leb_spec 0 ma); [done|]|]; simpl; lia.
Qed.

Section safety.
Context (sys : system).

(** What the calls promise: addresses of four octets, at least one for a host. *)
Definition address (a : bytes) : Prop := length a = 4%nat.
Definition promises : Prop :=
  (∀ h a, inet_addr sys h = Some a → address a) ∧
  (∀ h hp, gethostbyname sys h = Some hp → h_length hp = 4 → h_addr_list hp ≠ [] ∧ Forall address (h_addr_list hp)) ∧
  (∀ al, ifaddrlist sys = Some al → Forall (λ d, address d.2) al) ∧
  (∀ to a, findsaddr sys to = Some a → address a).
Context (Hsys : promises).

Lemma gethostinfo_addrs h : exits_or (gethostinfo sys h) (λ r, r.2 ≠ [] ∧ Forall address r.2).
Proof.
  destruct Hsys as (H1 & H2 & _). unfold gethostinfo. destruct (_ <? _)%nat; [done|]. destruct (inet_addr sys h) as [a|] eqn:E.
  - simpl. split; [done|]. constructor; [by eapply H1|constructor].
  - destruct (gethostbyname sys h) as [hp|] eqn:Eh; [|done]. destruct (negb (h_addrtype hp =? AF_INET)); [done|].
    destruct (Z.eqb_spec (h_length hp) 4); [|done]. simpl. by eapply H2.
Qed.
Lemma first_addr_ok l : l ≠ [] → Forall address l → exits_or (first_addr l) address.
Proof. destruct l as [|a l]; [done|]. intros _ Hl. by inversion Hl. Qed.
Lemma getaddr_ok h : exits_or (getaddr sys h) address.
Proof.
  unfold getaddr. eapply exits_bind; [apply gethostinfo_addrs|]. intros [n l] [H1 H2]. by apply first_addr_ok.
Qed.

(** The options scanned so far. *)
Definition scanned_ok (s : scanned) : Prop :=
  1 <= sc_first_ttl s ∧ (sc_nprobes s = -1 ∨ 1 <= sc_nprobes s) ∧ (requestPort s = -1 ∨ 0 <= requestPort s < 65536) ∧
  (length (gwlist s) <= 8)%nat ∧ Forall address (gwlist s) ∧ 0 <= sc_verbose s.

Lemma option_turn_ok s op arg : scanned_ok s → exits_or (option_turn sys s op arg) scanned_ok.
Proof.
  intros Hs. assert (H := Hs). destruct H as (H1 & H2 & H3 & H4 & H5 & H6). unfold option_turn. cbv zeta.
  repeat (match goal with |- exits_or (if ?b then _ else _) _ => destruct b eqn:? end; [try exact Hs|]); try done.
  all: try (eapply exits_bind; [apply str2val_bounds; lia|]; intros v [Hv1 Hv2]; simpl; unfold scanned_ok; simpl; unfold u16;
    split_and!; done || lia || (right; apply Z.mod_pos_bound; lia)).
  - eapply exits_bind; [apply getaddr_ok|]. intros a Ha. simpl. unfold scanned_ok. simpl. split_and!; try done.
    + rewrite length_app. simpl. unfold NGATEWAYS in *. change ((40 - 4 - 1) / 4) with 8 in *. lia.
    + apply Forall_app. split; [done|]. by constructor.
  - eapply exits_bind with (λ _, True); [|intros p _; exact Hs]. unfold protocol, setproto.
    repeat (destruct (bool_decide _); [done|]). destruct (getprotobyname sys arg); [done|].
    eapply exits_bind; [apply str2val_bounds; lia|]. done.
  - simpl. unfold scanned_ok. simpl. split_and!; done || lia.
Qed.

Lemma option_loop_ok ops s : scanned_ok s → exits_or (option_loop sys ops s) scanned_ok.
Proof.
  revert s. induction ops as [|[op arg] ops IH]; intros s Hs; cbn [option_loop]; [done|].
  eapply exits_bind; [by apply option_turn_ok|]. done.
Qed.

Lemma choose_source_ok s to : exits_or (choose_source sys s to) address.
Proof.
  destruct Hsys as (_ & _ & H3 & H4). unfold choose_source. destruct (ifaddrlist sys) as [[|d al]|] eqn:Eal; [done| |done].
  specialize (H3 _ eq_refl). eapply (exits_bind _ _ (λ dev, ∀ a, dev = Some a → address a)).
  { destruct (device s) as [dev|]; [|done]. unfold find_device. destruct (head (filter _ (d :: al))) as [x|] eqn:Eh; [|done].
    simpl. intros a [= <-]. rewrite Forall_forall in H3. apply H3. apply head_Some_elem_of in Eh.
    by apply list_elem_of_filter in Eh as [_ Eh]. }
  intros dev Hdev. destruct (source s) as [name|].
  - eapply exits_bind; [apply gethostinfo_addrs|]. intros [n l] [Hl1 Hl2]. destruct dev as [a|]; [|by apply first_addr_ok].
    destruct (bool_decide _); [|done]. simpl. by apply Hdev.
  - destruct dev as [a|]; [by apply Hdev|]. destruct (findsaddr sys to) as [a|] eqn:Ea; [|done]. simpl. by eapply H4.
Qed.
Lemma concat_length l : Forall address l → length (concat l) = (4 * length l)%nat.
Proof. induction 1 as [|a l Ha _ IH]; [done|]. cbn [concat length]. rewrite length_app, IH, Ha. lia. Qed.
Lemma source_route_ok gws to : (length gws <= 8)%nat → Forall address gws → address to → exits_or (source_route gws to) (λ _, True).
Proof.
  intros Hl Hg Ht. unfold source_route. rewrite (proj2 (Nat.leb_gt _ _)) by lia. rewrite concat_length.
  2:{ apply Forall_app. split; [done|]. by constructor. }
  rewrite length_app. rewrite (proj2 (Z.ltb_ge _ _)) by (simpl; lia). done.
Qed.

(** The parsed options. *)
Definition options_ok (o : options) : Prop :=
  1 <= first_ttl o <= max_ttl o ∧ 1 <= nprobes o ∧ 0 <= port o < 65536 ∧ 0x8000 <= ident o < 65536 ∧
  minpacket (proto o) 0 <= packlen o ∧ packlen o <= maxpacket ∧ hdrlen (proto o) + 24 <= protlen o <= packlen o - 20.

Lemma ident_range x : 0x8000 <= Z.lor (Z.land x 0xffff) 0x8000 < 65536.
Proof.
  change 0xffff with (Z.ones 16). rewrite Z.land_ones by lia. set (y := x mod 2 ^ 16).
  assert (Hy : 0 <= y < 2 ^ 16) by (apply Z.mod_pos_bound; lia). clearbody y.
  assert (Hl : Z.log2 (Z.lor y 0x8000) = 15).
  { rewrite Z.log2_lor by lia. change (Z.log2 0x8000) with 15. apply Z.max_r.
    destruct (decide (y = 0)) as [->|]; [done|]. apply Z.lt_succ_r, Z.log2_lt_pow2; lia. }
  assert (Hp : 0 < Z.lor y 0x8000).
  { assert (0 <= Z.lor y 0x8000) by (apply Z.lor_nonneg; lia). destruct (decide (Z.lor y 0x8000 = 0)) as [E|]; [|lia].
    apply Z.lor_eq_0_iff in E. lia. }
  assert (H := Z.log2_spec _ Hp). rewrite Hl in H. change (2 ^ 15) with 0x8000 in H. change (2 ^ Z.succ 15) with 65536 in H. lia.
Qed.

Lemma finish_options_ok prog s operands : scanned_ok s →
  exits_or (finish_options sys prog s operands) (λ '(o, from, to), options_ok o ∧ address from ∧ address to).
Proof.
  intros (H1 & H2 & H3 & H4 & H5 & H6). unfold finish_options. cbv zeta.
  destruct (Z.ltb_spec (sc_max_ttl s) (sc_first_ttl s)); [done|].
  set (optlen := match gwlist s with [] => 0 | _ => _ end).
  assert (Hopt : 0 <= optlen <= 36) by (unfold optlen; destruct (gwlist s); simpl in *; lia). clearbody optlen.
  set (mn := minpacket (sc_proto s) optlen). assert (Hmn : 48 <= mn <= maxpacket).
  { unfold mn, minpacket, hdrlen, maxpacket. destruct (sc_proto s); lia. }
  eapply (exits_bind _ _ (λ '(_, p), mn <= p <= maxpacket)).
  { destruct operands as [|h [|len [|? ?]]]; [done| | |done].
    - simpl. lia.
    - eapply exits_bind; [apply str2val_bounds; lia|]. intros v [Hv1 Hv2]. simpl. unfold maxpacket in *. lia. }
  intros [name packlen] Hp. eapply exits_bind; [apply gethostinfo_addrs|]. intros [hostname addrs] [Ha1 Ha2]. simpl in Ha1, Ha2.
  eapply exits_bind; [by apply first_addr_ok|]. intros to Hto. destruct (negb (opened sys)); [done|].
  eapply (exits_bind _ _ (λ _, True)).
  { destruct (gwlist s) as [|g gws] eqn:Eg; [done|]. eapply exits_bind; [by apply source_route_ok|]. done. }
  intros r _. destruct (_ || _); [done|]. eapply exits_bind; [apply choose_source_ok|]. intros from Hfrom.
  destruct (negb (bound sys from)); [done|]. simpl. split; [|done].
  assert (Hid := ident_range (getpid sys)). unfold options_ok. simpl. unfold mn, minpacket in *.
  split; [lia|]. split; [destruct (Z.eqb_spec (sc_nprobes s) (-1)); [destruct (sc_printdiff s)|]; lia|].
  split; [|lia]. destruct (Z.eqb_spec (requestPort s) (-1)); cbn [negb]; [unfold default_port; destruct (sc_proto s); lia|lia].
Qed.
End safety.


Definition sample_system : system :=
  System (λ _, None) (λ h, if bool_decide (h = chars "10.0.0.2") then Some [10; 0; 0; 2] else None) (λ _, None) 64
    (Some [(chars "en0", [10; 0; 0; 1])]) (λ _, Some [10; 0; 0; 1]) 77 true (λ _, true) true (λ _, true).


(** The run of the sample sends one probe for each of the two hops. *)
Lemma sample_run :
  match traceroute sample_system (λ _, []) (λ _, 52) (chars "traceroute") (map chars ["-nm"; "2"; "-q1"; "10.0.0.2"]%string) with
  | Ret (o, t) => (length (sent t) =? 2)%nat && (max_ttl o =? 2) && nflag o && (packlen o =? 52)
  | _ => false
  end = true.
Proof. vm_compute. reflexivity. Qed.
