(* ===== verification/Kdumpd.v ===== *)
(** * Kdumpd: the kernel core dump server (kdumpd.tproj)

    [kdump] parses the request in the packet buffer, [validate_access] creates
    the file, and [recvfile] receives the blocks, with the two write-behind
    buffers of kdumpsubs.c. A file is a map from offsets to octets, with the
    offset of its descriptor and the octets pending in its [FILE]. *)

From stdpp Require Import gmap.
From S2P Require Import Prelude Stdio Md5.

(** ** Constants *)

Definition SEGSIZE : Z := 512.
Definition MAXIMUM_KDP_PKTSIZE : nat := 128 * 128.
Definition sizeof_kdumphdr : Z := 6.
Definition KDP_LARGE_CRASHDUMP_PKT_SIZE : Z := 1440 - 28.
Definition WRQ : Z := 2.
Definition DATA : Z := 3.
Definition ACK : Z := 4.
Definition ERROR : Z := 5.
Definition KDP_SEEK : Z := 6.
Definition KDP_EOF : Z := 7.
Definition EUNDEF : Z := 0.
Definition ENOTFOUND : Z := 1.
Definition EACCESS : Z := 2.
Definition EBADOP : Z := 4.
Definition TIMEOUT : Z := 2.
Definition rexmtval : Z := TIMEOUT.
Definition maxtimeout : Z := 25 * TIMEOUT.

(** ** The file *)

Record FILE := File { contents : gmap Z Z; offset : Z; pending : bytes }.
#[export] Instance eta_FILE : Eta FILE := λ f, File (contents f) (offset f) (pending f).

(** The octets [d] at the offset [off]. *)
Fixpoint put_at (off : Z) (d : bytes) (c : gmap Z Z) : gmap Z Z :=
  match d with
  | [] => c
  | x :: d => put_at (off + 1) d (<[off := x]> c)
  end.

Section server.
(** [write] at an offset and with a count: how much is written, -1 for an
    error; the size of the buffer of a [FILE]; whether [send] succeeds. *)
Context (written : Z → Z → Z) (bufsiz : nat) (send_ok : list bytes → bool).

Definition write (f : FILE) (d : bytes) : Z * FILE :=
  let n := written (offset f) (Z.of_nat (length d)) in
  (n, if n <? 0 then f
      else f <| contents := put_at (offset f) (take (Z.to_nat n) d) (contents f) |> <| offset := offset f + n |>).
Definition lseek (f : FILE) (off : Z) : FILE := if off <? 0 then f else f <| offset := off |>.
Definition fflush (f : FILE) : FILE :=
  match pending f with [] => f | l => (write f l).2 <| pending := [] |> end.
Definition putc (c : Z) (f : FILE) : FILE :=
  let f := f <| pending := pending f ++ [c] |> in
  if (bufsiz <=? length (pending f))%nat then fflush f else f.
Definition fseek_back (f : FILE) : FILE := let f := fflush f in lseek f (offset f - 1).

(** ** The buffers (kdumpsubs.c) *)

Record bf := Bf { counter : Z; bdata : bytes }.
#[export] Instance eta_bf : Eta bf := λ b, Bf (counter b) (bdata b).
Definition BF_ALLOC : Z := -3.
Definition BF_FREE : Z := -2.

Record server := Server {
  bf0 : bf;
  bf1 : bf;
  nextone : bool;
  current : bool;
  prevchar : Z;
  file : FILE;
  block : Z;
  timeout : Z;
  ackbuf : bytes;
  acks : list bytes }.
#[export] Instance eta_server : Eta server := λ s,
  Server (bf0 s) (bf1 s) (nextone s) (current s) (prevchar s) (file s) (block s) (timeout s) (ackbuf s) (acks s).
Abbreviation KD := (ST server).

Definition bfs (i : bool) (s : server) : bf := if i then bf1 s else bf0 s.
Definition set_bfs (i : bool) (b : bf) (s : server) : server := if i then s <| bf1 := b |> else s <| bf0 := b |>.
Definition set_counter (i : bool) (c : Z) : KD unit := modify (λ s, set_bfs i (bfs i s <| counter := c |>) s).

(** [rw_init(0)]; the result is the first buffer, the current one. *)
Definition w_init : KD unit :=
  modify (λ s, s <| prevchar := -1 |>);;
  set_counter false BF_ALLOC;;
  modify (λ s, s <| current := false |>);;
  set_counter true BF_FREE;;
  modify (λ s, s <| nextone := false |>).

(** The conversion to netascii of [read_ahead]: [n] octets of room; the result is the
    octets and the flags [newline] and [prevchar] with the rest of the input. *)
Fixpoint read_ascii (n : nat) (newline : bool) (prevchar : Z) (input : bytes) : bytes * (bool * Z * bytes) :=
  match n with
  | O => ([], (newline, prevchar, input))
  | S n =>
      if newline then
        let '(out, st) := read_ascii n false prevchar input in
        ((if prevchar =? 10 then 10 else 0) :: out, st)
      else
        match input with
        | [] => ([], (newline, prevchar, []))
        | c :: input =>
            if (c =? 10) || (c =? 13) then
              let '(out, st) := read_ascii n true c input in (13 :: out, st)
            else
              let '(out, st) := read_ascii n false prevchar input in (c :: out, st)
        end
  end.

(** The conversion from netascii: CR LF is LF, and CR NUL is CR. *)
Fixpoint put_ascii (l : bytes) (prevchar : Z) (f : FILE) : Z * FILE :=
  match l with
  | [] => (prevchar, f)
  | c :: l =>
      if (prevchar =? 13) && (c =? 0) then put_ascii l c f
      else
        let f := if (prevchar =? 13) && (c =? 10) then fseek_back f else f in
        put_ascii l c (putc c f)
  end.

Definition write_behind (convert : bool) : KD Z :=
  s ← get;
  let b := bfs (nextone s) s in
  if counter b <? -1 then mret 0
  else
    let count := counter b in
    set_counter (nextone s) BF_FREE;;
    modify (λ s, s <| nextone := negb (nextone s) |>);;
    if count <=? 0 then mret (-1)
    else
      data ← lift (of_opt (read_at (bdata b) 6 (Z.to_nat count)));
      s ← get;
      if convert then
        let '(prev, f) := put_ascii data (prevchar s) (file s) in
        modify (λ s, s <| prevchar := prev |> <| file := f |>);; mret count
      else
        let '(n, f) := write (file s) data in
        modify (λ s, s <| file := f |>);; mret n.

(** The new buffer is the current one. *)
Definition writeit (ct : Z) (convert : bool) : KD Z :=
  s ← get;
  set_counter (current s) ct;;
  modify (λ s, s <| current := negb (current s) |>);;
  s ← get;
  (if negb (counter (bfs (current s) s) =? BF_FREE) then _ ← write_behind convert; skip else skip);;
  s ← get;
  set_counter (current s) BF_ALLOC;;
  mret ct.

(** ** Receiving a file *)

(** The features that the request asks for, with the size of the packets. *)
Record features := Features { large_crashdumps : Z; large_packets : Z; pkt_size : Z }.
Context (ft : features) (convert : bool).

(** What a call of [recv] in the loop ends with. *)
Inductive event :=
  | Packet (p : bytes)
  | Alarm
  | Failure.

(** Where the loop goes on: to the next [recv], or to the end. *)
Inductive next :=
  | Receive
  | Final_ack
  | Flushfile
  | Abort.

(** The fields of a received packet; it is converted to the order of the host in place. *)
Definition th_opcode (d : bytes) : Z := le_val (take 2 d).
Definition th_block (d : bytes) : Z := le_val (take 4 (drop 2 d)).
Definition to_host (d : bytes) : outcome bytes :=
  match d with
  | o0 :: o1 :: b0 :: b1 :: b2 :: b3 :: d => Ret (o1 :: o0 :: b3 :: b2 :: b1 :: b0 :: d)
  | _ => Crash
  end.

Definition ack_packet (op blk : Z) : bytes := be16 op ++ be32 blk.
Definition send_ackbuf : KD bool :=
  s ← get;
  modify (λ s, s <| acks := acks s ++ [ackbuf s] |>);;
  mret (send_ok (acks s)).

Definition send_ack : KD next :=
  sent ← send_ackbuf;
  if sent : bool then _ ← write_behind convert; mret Receive else mret Abort.

Definition send_seek_ack : KD next :=
  modify (λ s, s <| timeout := 0 |>);;
  s ← get;
  let op := if block s =? 0 then Z.lor ACK (Z.shiftl (Z.lor (large_crashdumps ft) (large_packets ft)) 8) else ACK in
  modify (λ s, s <| ackbuf := ack_packet op (block s) |> <| block := u32 (block s + 1) |>);;
  send_ack.

(** The packet in the current buffer; longer packets are cut. *)
Definition store_packet (p : bytes) : KD Z := λ s,
  let p := take (Z.to_nat (pkt_size ft)) p in
  let b := bfs (current s) s in
  if (length (bdata b) <? length p)%nat then Crash
  else
    d ← to_host (MD5.bcopy p (bdata b) 0);
    Ret (Z.of_nat (length p), set_bfs (current s) (b <| bdata := d |>) s).

(** The offset of a seek request. *)
Definition seek_offset (d : bytes) : outcome Z :=
  if truthy (large_crashdumps ft) then b ← of_opt (read_at d 6 8); Ret (s64 (be_val b))
  else of_opt (rd32 d 6).

Definition handle_packet (p : bytes) : KD next :=
  n ← store_packet p;
  s ← get;
  let d := bdata (bfs (current s) s) in
  let op := th_opcode d in
  let blk := th_block d in
  if op =? ERROR then mret Abort
  else if op =? KDP_EOF then mret Final_ack
  else if op =? KDP_SEEK then
    if blk =? block s then
      off ← lift (seek_offset d);
      modify (λ s, s <| file := lseek (file s) off |>);;
      send_seek_ack
    else if blk =? u32 (block s - 1) then send_ack else mret Receive
  else if op =? DATA then
    if blk =? block s then
      _ ← writeit (n - 6) convert;
      s ← get;
      if th_opcode (bdata (bfs (current s) s)) =? KDP_EOF then mret Final_ack else send_seek_ack
    else if blk =? u32 (block s - 1) then send_ack else mret Receive
  else mret Receive.

(** The alarm during [recv]: the last acknowledgement is sent again. *)
Definition timer : KD next :=
  modify (λ s, s <| timeout := timeout s + rexmtval |>);;
  s ← get;
  if maxtimeout <=? timeout s then mret Flushfile else send_ack.

Definition handle_event (e : event) : KD next :=
  match e with
  | Packet p => handle_packet p
  | Alarm => timer
  | Failure => mret Abort
  end.

(** The end: [last] is what the last [recv] brings, into another buffer. The
    fields compared are those of the packet before. *)
Definition flushfile (last : event) : KD unit :=
  _ ← write_behind convert;
  modify (λ s, s <| file := fflush (file s) |>);;
  match last with
  | Packet p =>
      s ← get;
      let d := bdata (bfs (current s) s) in
      if (6 <=? length p)%nat && (th_opcode d =? DATA) && (block s =? th_block d) then _ ← send_ackbuf; skip else skip
  | _ => skip
  end.
Definition final_ack (last : event) : KD unit :=
  modify (λ s, s <| ackbuf := ack_packet ACK (block s) |>);;
  _ ← send_ackbuf;
  flushfile last.

Fixpoint recv_loop (evs : list event) (last : event) (nx : next) : KD next :=
  match nx with
  | Receive =>
      match evs with
      | [] => mret Receive
      | e :: evs => nx ← handle_event e; recv_loop evs last nx
      end
  | Final_ack => final_ack last;; mret Final_ack
  | Flushfile => flushfile last;; mret Flushfile
  | Abort => mret Abort
  end.

(** Up to the first [recv]. *)
Definition begin_transfer : KD next :=
  w_init;;
  modify (λ s, s <| block := 0 |>);;
  send_seek_ack.
Definition recvfile (evs : list event) (last : event) : KD next :=
  nx ← begin_transfer;
  recv_loop evs last nx.

End server.

(** ** The request (kdumpd.c) *)

Definition EEXIST : Z := 17.
Definition ENOENT : Z := 2.
Definition MAXPATHLEN : nat := 1024.
Definition MAXERRMSGLEN : nat := 40.

(** The calls on the file system: 0 or the error number. *)
Record filesystem := Filesystem {
  fs_stat : bytes → Z;
  fs_open : bytes → Z;
  fs_fdopen : Z }.

(** [strstr(filename, "..")] *)
Fixpoint dotdot (l : bytes) : bool :=
  match l with
  | 46 :: (46 :: _) => true
  | _ :: l => dotdot l
  | [] => false
  end.

Section request.
Context (fs : filesystem) (strerror : Z → bytes) (suppress_naks : bool).

(** 0 if the file was created, or the code for [nak]. *)
Definition validate_access (filename : bytes) : Z :=
  if bool_decide (47 ∈ filename) || dotdot filename then EACCESS
  else
    let pathname := take (MAXPATHLEN - 1) (chars "./" ++ filename) in
    let st := fs_stat fs pathname in
    if st =? 0 then EEXIST
    else if negb (st =? ENOENT) then st
    else
      let fd := fs_open fs filename in
      if negb (fd =? 0) then fd + 100
      else if negb (fs_fdopen fs =? 0) then fs_fdopen fs + 100 else 0.

Definition errmsgs : list (Z * bytes) :=
  [(0, chars "Undefined error code"); (1, chars "File not found"); (2, chars "Access violation");
   (3, chars "Disk full or allocation exceeded"); (4, chars "Illegal KDUMP operation"); (5, chars "Unknown transfer ID");
   (6, chars "File already exists"); (7, chars "No such user")].

(** The packet that [nak] sends, if any: [length + 5] octets of the buffer. *)
Definition nak (error : Z) : option bytes :=
  let '(code, msg) := match list_find (λ e, e.1 = error) errmsgs with
                      | Some (_, (_, msg)) => (be16 error ++ [0; 0], msg)
                      | None => ([EUNDEF; 0; 0; 0], strerror (error - 100))
                      end in
  if (MAXERRMSGLEN <? length msg)%nat then None
  else Some (take (length msg + 5) (be16 ERROR ++ code ++ take (MAXERRMSGLEN - 1) msg ++ [0; 0])).

Inductive reaction :=
  | Refuse (packet : option bytes) (status : Z)
  | Serve (convert : bool) (ft : features) (filename : bytes).

(** [while (cp < buf + size && *cp != 0) cp++], [n] octets before the end. *)
Fixpoint find_nul (n : nat) (buf : bytes) (cp : nat) : outcome nat :=
  match n with
  | O => Ret cp
  | S n => c ← of_opt (rd8 buf cp); if c =? 0 then Ret cp else find_nul n buf (S cp)
  end.

(** [strncmp] of a constant with its zero against the buffer: equal or not. *)
Fixpoint same_string (s : bytes) (buf : bytes) (cp : nat) : outcome bool :=
  match s with
  | [] => Ret true
  | x :: s => c ← of_opt (rd8 buf cp); if c =? x then same_string s buf (S cp) else Ret false
  end.

Definition feature_string : bytes := chars "features" ++ [0].
Definition default_features : features := Features 0 0 (SEGSIZE + sizeof_kdumphdr).
Definition features_of (mask : Z) : features :=
  let large := Z.land mask 2 in
  Features (Z.land mask 1) large (if truthy large then KDP_LARGE_CRASHDUMP_PKT_SIZE else SEGSIZE + sizeof_kdumphdr).

Definition kdump (buf : bytes) (size : nat) : outcome reaction :=
  cp ← find_nul (size - 2) buf 2;
  c ← of_opt (rd8 buf cp);
  if negb (c =? 0) then Ret (Refuse (nak EBADOP) 1)
  else
    filename ← of_opt (read_at buf 2 (cp - 2));
    let mode := S cp in
    cp ← find_nul (size - mode) buf mode;
    c ← of_opt (rd8 buf cp);
    if negb (c =? 0) then Ret (Refuse (nak EBADOP) 1)
    else
      m ← of_opt (read_at buf mode (cp - mode));
      let m := map tolower m in
      let cp := S cp in
      same ← same_string feature_string buf cp;
      ft ← (if same : bool then mask ← of_opt (rd32 buf (cp + length feature_string)); Ret (features_of mask)
            else Ret default_features);
      match (if bool_decide (m = chars "netascii") then Some true
             else if bool_decide (m = chars "octet") then Some false else None) with
      | None => Ret (Refuse (nak EBADOP) 1)
      | Some convert =>
          let ecode := validate_access filename in
          if negb (ecode =? 0) then
            if suppress_naks && negb (bool_decide (head filename = Some 47)) && (ecode =? ENOTFOUND)
            then Ret (Refuse None 0)
            else Ret (Refuse (nak ecode) 1)
          else Ret (Serve convert ft filename)
      end.

(** [main] from the first packet on: other requests are not answered. *)
Definition first_packet (buf : bytes) (size : nat) : outcome reaction :=
  op ← of_opt (rd16 buf 0);
  if op =? WRQ then kdump buf size else Ret (Refuse None 1).
End request.
