(* ===== verification/KdumpdFun.v ===== *)
(** * KdumpdFun: properties of the dump server

    The requests that are accepted; the transfer of a dump over a network that
    loses, repeats and reorders packets; the conversion from netascii. *)

From stdpp Require Import gmap relations.
From S2P Require Import Prelude Stdio Md5 Tally Kdumpd.

Lemma maximum : Z.of_nat MAXIMUM_KDP_PKTSIZE = 16384.
Proof. reflexivity. Qed.
#[local] Opaque MAXIMUM_KDP_PKTSIZE.

(** ** The buffers stay in their bounds *)

Section safe.
Context (written : Z → Z → Z) (bufsiz : nat) (send_ok : list bytes → bool) (ft : features) (convert : bool).
Context (Hft : 0 <= pkt_size ft <= Z.of_nat MAXIMUM_KDP_PKTSIZE).

Definition bf_ok (b : bf) : Prop := length (bdata b) = MAXIMUM_KDP_PKTSIZE ∧ counter b <= Z.of_nat MAXIMUM_KDP_PKTSIZE - 6.
Definition bounded (s : server) : Prop := bf_ok (bf0 s) ∧ bf_ok (bf1 s).

Lemma bounded_bfs i s : bounded s → bf_ok (bfs i s).
Proof. intros [H0 H1]. by destruct i. Qed.
Lemma bounded_set i b s : bounded s → bf_ok b → bounded (set_bfs i b s).
Proof. intros [H0 H1] Hb. by destruct i. Qed.

Lemma set_counter_bounded i c : c <= Z.of_nat MAXIMUM_KDP_PKTSIZE - 6 → total bounded (set_counter i c).
Proof. intros Hc. apply total_modify. intros s Hs. apply bounded_set; [done|]. destruct (bounded_bfs i s Hs) as [Hl _]. by split. Qed.

Lemma write_behind_bounded : total bounded (write_behind written bufsiz convert).
Proof.
  unfold write_behind. apply total_get_bind. intros s Hs. cbv zeta. destruct (bounded_bfs (nextone s) s Hs) as [Hl Hc].
  destruct (_ <? -1); [apply total_ret|]. assert (Hm := maximum).
  apply total_bind; [apply set_counter_bounded; unfold BF_FREE; lia|]. intros _.
  apply total_bind; [apply total_modify; by intros p Hp|]. intros _.
  destruct (Z.leb_spec (counter (bfs (nextone s) s)) 0); [apply total_ret|].
  destruct (read_returns (bdata (bfs (nextone s) s)) 6 (Z.to_nat (counter (bfs (nextone s) s)))) as [d E]; [lia|].
  apply (total_lift_bind _ _ d); [by rewrite E|]. apply total_get_bind. intros s1 _. destruct convert.
  - destruct (put_ascii _ _ _ _ _) as [prev f]. apply total_bind; [apply total_modify; by intros p Hp|]. intros _. apply total_ret.
  - destruct (write _ _ _) as [n f]. apply total_bind; [apply total_modify; by intros p Hp|]. intros _. apply total_ret.
Qed.

Lemma writeit_bounded ct : ct <= Z.of_nat MAXIMUM_KDP_PKTSIZE - 6 → total bounded (writeit written bufsiz ct convert).
Proof.
  intros Hct. assert (Hm := maximum). unfold writeit. apply total_get_bind. intros s _.
  apply total_bind; [by apply set_counter_bounded|]. intros _. apply total_bind; [apply total_modify; by intros p Hp|]. intros _.
  apply total_get_bind. intros s1 _. apply total_bind.
  { destruct (negb _); [|apply total_skip]. apply total_bind; [apply write_behind_bounded|]. intros _. apply total_skip. }
  intros _. apply total_get_bind. intros s2 _. apply total_bind; [apply set_counter_bounded; unfold BF_ALLOC; lia|]. intros _.
  apply total_ret.
Qed.

Lemma send_ackbuf_bounded : total bounded (send_ackbuf send_ok).
Proof.
  unfold send_ackbuf. apply total_get_bind. intros s _. apply total_bind; [apply total_modify; by intros p Hp|]. intros _. apply total_ret.
Qed.
Lemma send_ack_bounded : total bounded (send_ack written bufsiz send_ok convert).
Proof.
  unfold send_ack. apply total_bind; [apply send_ackbuf_bounded|]. intros [|]; [|apply total_ret].
  apply total_bind; [apply write_behind_bounded|]. intros _. apply total_ret.
Qed.
Lemma send_seek_ack_bounded : total bounded (send_seek_ack written bufsiz send_ok ft convert).
Proof.
  unfold send_seek_ack. apply total_bind; [apply total_modify; by intros p Hp|]. intros _. apply total_get_bind. intros s _.
  cbv zeta. apply total_bind; [apply total_modify; by intros p Hp|]. intros _. apply send_ack_bounded.
Qed.

Lemma to_host_length d : (6 <= length d)%nat → ∃ d', to_host d = Ret d' ∧ length d' = length d.
Proof. intros H. do 6 (destruct d as [|? d]; [simpl in H; lia|]). eexists. split; [reflexivity|done]. Qed.

Lemma store_packet_bounded p s : bounded s →
  returns (store_packet ft p s) (λ '(n, s'), n <= pkt_size ft ∧ bounded s').
Proof.
  intros Hs. unfold store_packet. cbv zeta. destruct (bounded_bfs (current s) s Hs) as [Hl Hc]. assert (Hm := maximum).
  set (q := take (Z.to_nat (pkt_size ft)) p). assert (Hq : Z.of_nat (length q) <= pkt_size ft).
  { unfold q. rewrite length_take. lia. }
  rewrite (proj2 (Nat.ltb_ge _ _)) by lia.
  destruct (to_host_length (MD5.bcopy q (bdata (bfs (current s) s)) 0)) as (d & E & Ld).
  { unfold MD5.bcopy. rewrite !length_app, length_take, length_drop. lia. }
  rewrite E. simpl. split; [done|]. apply bounded_set; [done|]. split; [|done]. simpl. rewrite Ld.
  unfold MD5.bcopy. rewrite !length_app, length_take, length_drop. lia.
Qed.

Lemma handle_event_bounded e : total bounded (handle_event written bufsiz send_ok ft convert e).
Proof.
  assert (Hm := maximum). destruct e as [p| |]; cbn [handle_event].
  - intros s Hs. unfold handle_packet. unfold mbind at 1, ST_bind at 1. assert (H := store_packet_bounded p s Hs).
    destruct (store_packet ft p s) as [[n s1]| |]; simpl in H; [|done|done]. destruct H as [Hn Hs1]. simpl.
    revert s1 Hs1. apply (total_get_bind bounded). intros s1 Hs1. cbv zeta.
    destruct (_ =? ERROR); [apply total_ret|]. destruct (_ =? KDP_EOF); [apply total_ret|]. destruct (_ =? KDP_SEEK).
    + destruct (_ =? _); [|destruct (_ =? _); [apply send_ack_bounded|apply total_ret]].
      destruct (bounded_bfs (current s1) s1 Hs1) as [Hl _].
      assert (E : ∃ off, seek_offset ft (bdata (bfs (current s1) s1)) = Ret off).
      { unfold seek_offset, rd32. destruct (truthy _).
        - destruct (read_returns (bdata (bfs (current s1) s1)) 6 8) as [v ->]; [lia|]. by eexists.
        - destruct (read_returns (bdata (bfs (current s1) s1)) 6 4) as [v ->]; [lia|]. by eexists. }
      destruct E as [off E]. apply (total_lift_bind _ _ off _ E).
      apply total_bind; [apply total_modify; by intros q Hq|]. intros _. apply send_seek_ack_bounded.
    + destruct (_ =? DATA); [|apply total_ret]. destruct (_ =? _); [|destruct (_ =? _); [apply send_ack_bounded|apply total_ret]].
      apply total_bind; [apply writeit_bounded; lia|]. intros _. apply total_get_bind. intros s2 _.
      destruct (_ =? _); [apply total_ret|apply send_seek_ack_bounded].
  - unfold timer. apply total_bind; [apply total_modify; by intros p Hp|]. intros _. apply total_get_bind. intros s _.
    destruct (_ <=? _); [apply total_ret|apply send_ack_bounded].
  - apply total_ret.
Qed.
Lemma flushfile_bounded last : total bounded (flushfile written bufsiz send_ok convert last).
Proof.
  unfold flushfile. apply total_bind; [apply write_behind_bounded|]. intros _.
  apply total_bind; [apply total_modify; by intros p Hp|]. intros _. destruct last; [|apply total_skip|apply total_skip].
  apply total_get_bind. intros s _. cbv zeta. destruct (_ && _); [|apply total_skip].
  apply total_bind; [apply send_ackbuf_bounded|]. intros _. apply total_skip.
Qed.

Lemma begin_transfer_bounded : total bounded (begin_transfer written bufsiz send_ok ft convert).
Proof.
  assert (Hm := maximum). unfold begin_transfer. apply total_bind; [|intros _].
  - unfold w_init. apply total_bind; [apply total_modify; by intros q Hq|]. intros _.
    apply total_bind; [apply set_counter_bounded; unfold BF_ALLOC; lia|]. intros _.
    apply total_bind; [apply total_modify; by intros q Hq|]. intros _.
    apply total_bind; [apply set_counter_bounded; unfold BF_FREE; lia|]. intros _. apply total_modify; by intros q Hq.
  - apply total_bind; [apply total_modify; by intros q Hq|]. intros _. apply send_seek_ack_bounded.
Qed.
Lemma recv_loop_bounded evs last nx : total bounded (recv_loop written bufsiz send_ok ft convert evs last nx).
Proof.
  assert (He : ∀ evs nx, nx ≠ Receive → total bounded (recv_loop written bufsiz send_ok ft convert evs last nx)).
  { intros evs' [] Hne; [done| | |]; destruct evs' as [|e evs']; cbn [recv_loop]; try apply total_ret.
    all: apply total_bind; [|intros _; apply total_ret]; try apply flushfile_bounded.
    all: unfold final_ack; apply total_bind; [apply total_modify; by intros p Hp|]; intros _;
      apply total_bind; [apply send_ackbuf_bounded|]; intros _; apply flushfile_bounded. }
  revert nx. induction evs as [|e evs IH]; intros nx; destruct nx; try (by apply He); cbn [recv_loop]; [apply total_ret|].
  apply total_bind; [apply handle_event_bounded|]. intros nx. apply IH.
Qed.
End safe.

(** ** Transfer of a dump *)

(** What a kernel sends: octets to write at the current offset, and seeks. *)
Inductive command :=
  | Seek (off : Z)
  | Write (d : bytes).

(** The contents of the file and its offset. *)
Definition image := (gmap Z Z * Z)%type.
Definition exec (im : image) (c : command) : image :=
  match c with
  | Seek off => (im.1, off)
  | Write d => (put_at im.2 d im.1, im.2 + Z.of_nat (length d))
  end.
Definition image_of (f : FILE) : image := (contents f, offset f).

Section transfer.
Context (written : Z → Z → Z) (bufsiz : nat) (send_ok : list bytes → bool) (ft : features).
Context (Hft : 20 <= pkt_size ft <= Z.of_nat MAXIMUM_KDP_PKTSIZE).
(** The disk has room. *)
Context (Hdisk : ∀ off n, written off n = n).

Definition be64 (x : Z) : bytes := be32 (Z.shiftr x 32) ++ be32 x.
Definition payload_of (c : command) : Z * bytes :=
  match c with
  | Seek off => (KDP_SEEK, if truthy (large_crashdumps ft) then be64 off else be32 off)
  | Write d => (DATA, d)
  end.
Definition raw (op j : Z) (q : bytes) : bytes := be16 op ++ be32 j ++ q.
Definition packet (j : Z) (c : command) : bytes := raw (payload_of c).1 j (payload_of c).2.
Definition command_ok (c : command) : Prop :=
  match c with
  | Seek off => 0 <= off < if truthy (large_crashdumps ft) then 2 ^ 63 else 2 ^ 32
  | Write d => Z.of_nat (length d) <= pkt_size ft - 6 ∧ bytes_ok d
  end.

(** Between two packets: one buffer is free, the other one is the next to be
    filled and to be written, and everything received is in the file. *)
Definition waiting (b : Z) (im : image) (s : server) : Prop :=
  bounded s ∧ nextone s = current s ∧ counter (bfs (current s) s) = BF_ALLOC ∧
  counter (bfs (negb (current s)) s) = BF_FREE ∧ th_opcode (bdata (bfs (negb (current s)) s)) ≠ KDP_EOF ∧
  block s = b + 1 ∧ pending (file s) = [] ∧ image_of (file s) = im.

Lemma be32_value x : 0 <= x < 2 ^ 32 → be_val (be32 x) = x.
Proof.
  intros Hx. unfold be_val, be32, u8. simpl. rewrite !Z.shiftr_div_pow2 by lia. change (2 ^ 24) with 16777216.
  change (2 ^ 16) with 65536. change (2 ^ 8) with 256. zlia.
Qed.
Lemma be64_val x : 0 <= x < 2 ^ 64 → be_val (be64 x) = x.
Proof.
  intros Hx. unfold be64. assert (H1 : be_val (be32 (Z.shiftr x 32) ++ be32 x) = be_val (be32 (Z.shiftr x 32)) * 2 ^ 32 + x mod 2 ^ 32).
  { unfold be_val, be32, u8. simpl. rewrite !Z.shiftr_div_pow2 by lia. change (2 ^ 24) with 16777216.
    change (2 ^ 16) with 65536. change (2 ^ 8) with 256. change (2 ^ 32) with 4294967296. zlia. }
  rewrite H1, be32_value, Z.shiftr_div_pow2 by (try rewrite Z.shiftr_div_pow2; lia || (change (2 ^ 32) with 4294967296 in *; zlia)).
  change (2 ^ 32) with 4294967296. zlia.
Qed.

(** The fields of a packet in the buffer [old]. *)
Lemma raw_host op j q old : 0 <= op < 65536 → 0 <= j < 2 ^ 32 → (length (raw op j q) <= length old)%nat →
  ∃ d, to_host (MD5.bcopy (raw op j q) old 0) = Ret d ∧ th_opcode d = op ∧ th_block d = j ∧
    length d = length old ∧ drop 6 d = q ++ drop (length (raw op j q)) old.
Proof.
  intros Hop Hj Hl. unfold raw in *. unfold MD5.bcopy.
  assert (Hq : length (be16 op ++ be32 j ++ q) = (6 + length q)%nat) by done. rewrite Hq in *.
  eexists. split; [reflexivity|]. split_and!.
  - transitivity (be_val (be16 op)); [reflexivity|]. rewrite be_val_be16_mod. by apply Z.mod_small.
  - transitivity (be_val (be32 j)); [reflexivity|]. by apply be32_value.
  - cbn [length]. rewrite !length_app, length_drop. cbn [length] in *. lia.
  - reflexivity.
Qed.

(** The other fields when a buffer changes. *)
Section set_bfs.
Context (i : bool) (x : bf) (s : server).
Lemma set_same : bfs i (set_bfs i x s) = x.
Proof. by destruct i. Qed.
Lemma set_other : bfs (negb i) (set_bfs i x s) = bfs (negb i) s.
Proof. by destruct i. Qed.
Lemma set_current : current (set_bfs i x s) = current s.
Proof. by destruct i. Qed.
Lemma set_nextone : nextone (set_bfs i x s) = nextone s.
Proof. by destruct i. Qed.
Lemma set_block : block (set_bfs i x s) = block s.
Proof. by destruct i. Qed.
Lemma set_file : file (set_bfs i x s) = file s.
Proof. by destruct i. Qed.
Lemma set_acks : acks (set_bfs i x s) = acks s.
Proof. by destruct i. Qed.
Lemma set_ackbuf : ackbuf (set_bfs i x s) = ackbuf s.
Proof. by destruct i. Qed.
End set_bfs.

Lemma store_raw op j q b im s : waiting b im s → 0 <= op < 65536 → 0 <= j < 2 ^ 32 → 6 + Z.of_nat (length q) <= pkt_size ft →
  ∃ s', store_packet ft (raw op j q) s = Ret (6 + Z.of_nat (length q), s') ∧ waiting b im s' ∧ acks s' = acks s ∧
    ackbuf s' = ackbuf s ∧
    let d := bdata (bfs (current s') s') in
    th_opcode d = op ∧ th_block d = j ∧ ∃ rest, drop 6 d = q ++ rest.
Proof.
  intros (Hb & Hn & Hc1 & Hc2 & Hop & Hblk & Hpend & Him) Hop' Hj Hq. assert (Hm := maximum).
  destruct (bounded_bfs (current s) s Hb) as [Hl Hcnt].
  assert (El : Z.of_nat (length (raw op j q)) = 6 + Z.of_nat (length q)).
  { unfold raw. rewrite !length_app. cbn [length be16 be32]. lia. }
  unfold store_packet. rewrite take_ge by lia. cbv zeta. rewrite (proj2 (Nat.ltb_ge _ _)) by lia.
  destruct (raw_host op j q (bdata (bfs (current s) s)) Hop' Hj ltac:(lia)) as (d & E & Eo & Eb & Ld & Hd). rewrite E. cbn [mbind outcome_bind].
  rewrite El. eexists. split; [reflexivity|].
  unfold waiting. rewrite !set_current, !set_same, !set_other, !set_nextone, !set_block, !set_file, !set_acks, !set_ackbuf.
  split; [|split; [done|split; [done|split; [done|split; [done|by eexists]]]]].
  split; [apply bounded_set; [done|]; split; simpl; [congruence|lia]|]. by split_and!.
Qed.
Lemma store_run j c b im s : waiting b im s → 0 <= j < 2 ^ 32 → command_ok c →
  ∃ s', store_packet ft (packet j c) s = Ret (6 + Z.of_nat (length (payload_of c).2), s') ∧ waiting b im s' ∧ acks s' = acks s ∧
    ackbuf s' = ackbuf s ∧
    let d := bdata (bfs (current s') s') in
    th_opcode d = (payload_of c).1 ∧ th_block d = j ∧ ∃ rest, drop 6 d = (payload_of c).2 ++ rest.
Proof.
  intros Hw Hj Hc. apply store_raw; [done| |done|].
  - unfold payload_of, KDP_SEEK, DATA. destruct c; simpl; lia.
  - destruct c as [off|d]; simpl in *; [|lia]. unfold be64, be32. destruct (truthy _); simpl; lia.
Qed.

(** After [writeit]: the block is in the other buffer. *)
Definition loaded (b : Z) (im : image) (d : bytes) (s : server) : Prop :=
  bounded s ∧ nextone s = negb (current s) ∧ counter (bfs (current s) s) = BF_ALLOC ∧
  counter (bfs (negb (current s)) s) = Z.of_nat (length d) ∧ th_opcode (bdata (bfs (negb (current s)) s)) ≠ KDP_EOF ∧
  (∃ rest, drop 6 (bdata (bfs (negb (current s)) s)) = d ++ rest) ∧
  block s = b + 1 ∧ pending (file s) = [] ∧ image_of (file s) = im.

Lemma writeit_run b im d s rest : waiting b im s → Z.of_nat (length d) <= pkt_size ft - 6 →
  drop 6 (bdata (bfs (current s) s)) = d ++ rest → th_opcode (bdata (bfs (current s) s)) ≠ KDP_EOF →
  ∃ s', writeit written bufsiz (Z.of_nat (length d)) false s = Ret (Z.of_nat (length d), s') ∧ loaded b im d s' ∧ acks s' = acks s ∧
    th_opcode (bdata (bfs (current s') s')) ≠ KDP_EOF.
Proof.
  intros (Hb & Hn & Hc1 & Hc2 & Hop & Hblk & Hpend & Him) Hl Hd Ho. assert (Hm := maximum). unfold writeit, set_counter.
  rewrite get_run, modify_run. rewrite modify_run, get_run.
  destruct Hb as [[Hl0 Hc0] [Hl1 Hc1']].
  unfold loaded, bounded, bf_ok.
  destruct (current s) eqn:Ec; cbn [negb bfs set_bfs] in *;
    cbn -[BF_FREE BF_ALLOC MAXIMUM_KDP_PKTSIZE th_opcode image_of Z.sub Z.eqb]; rewrite Ec; cbn [negb];
    match goal with |- context [counter ?x =? BF_FREE] => replace (counter x) with BF_FREE by (symmetry; exact Hc2) end;
    rewrite Z.eqb_refl; cbn [negb]; rewrite (bind_run skip _ _ _ _ eq_refl), get_run, modify_run;
    (eexists; split; [reflexivity|]); cbn -[BF_FREE BF_ALLOC MAXIMUM_KDP_PKTSIZE th_opcode image_of Z.sub drop];
    split_and!; try done; try (unfold BF_ALLOC; lia); by eexists.
Qed.

Lemma write_behind_nop s : counter (bfs (nextone s) s) = BF_ALLOC → write_behind written bufsiz false s = Ret (0, s).
Proof. intros E. unfold write_behind. rewrite get_run. cbv zeta. rewrite E. reflexivity. Qed.

Lemma write_run f d : pending f = [] → d ≠ [] →
  pending (write written f d).2 = [] ∧ image_of (write written f d).2 = exec (image_of f) (Write d).
Proof.
  intros Hp Hd. unfold write. rewrite Hdisk. rewrite (proj2 (Z.ltb_ge _ _)) by lia. split; [done|].
  unfold image_of. simpl. rewrite Nat2Z.id, firstn_all. done.
Qed.

Lemma waiting_file b im im' f s : waiting b im s → pending f = [] → image_of f = im' → waiting b im' (s <| file := f |>).
Proof. intros (Hb & Hn & Hc1 & Hc2 & Hop & Hblk & _) Hp Hf. repeat (split; [done|]). done. Qed.

Lemma write_behind_run b im d s : loaded b im d s →
  ∃ n s', write_behind written bufsiz false s = Ret (n, s') ∧ waiting b (exec im (Write d)) s' ∧ acks s' = acks s ∧ ackbuf s' = ackbuf s.
Proof.
  intros (Hb & Hn & Hc1 & Hc2 & Hop & [rest Hd] & Hblk & Hpend & Him). assert (Hm := maximum).
  unfold write_behind. rewrite get_run. cbv zeta. rewrite Hn, Hc2. rewrite (proj2 (Z.ltb_ge _ _)) by lia.
  unfold set_counter. rewrite modify_run, modify_run.
  set (s1 := _ <| nextone := _ |>).
  assert (Hw : waiting b im s1 ∧ acks s1 = acks s ∧ ackbuf s1 = ackbuf s ∧ file s1 = file s).
  { unfold s1, waiting. destruct Hb as [[Hl0 Hc0] [Hl1 Hc1']].
    destruct (current s) eqn:Ec; cbn [negb bfs set_bfs] in *; cbn -[BF_FREE BF_ALLOC MAXIMUM_KDP_PKTSIZE th_opcode image_of Z.sub];
      rewrite ?Hn, ?Ec; cbn [negb bfs]; unfold bounded, bf_ok; cbn -[BF_FREE BF_ALLOC MAXIMUM_KDP_PKTSIZE th_opcode image_of Z.sub];
      split_and!; try done; unfold BF_FREE; lia. }
  clearbody s1. destruct Hw as (Hw & Ha & Ht & Hf). destruct (Z.leb_spec (Z.of_nat (length d)) 0) as [H0|H0].
  - destruct d; [|simpl in H0; lia]. exists (-1), s1. split; [done|]. split; [|done]. simpl. rewrite Z.add_0_r. by destruct im.
  - assert (Er : read_at (bdata (bfs (negb (current s)) s)) 6 (Z.to_nat (Z.of_nat (length d))) = Some d).
    { destruct (bounded_bfs (negb (current s)) s Hb) as [Hl Hcn]. unfold read_at. rewrite Nat2Z.id, Hd.
      rewrite bool_decide_true by lia. by rewrite take_app_length. }
    rewrite (lift_run _ _ _ d) by (by rewrite Er). rewrite get_run, Hf.
    destruct (write_run (file s) d Hpend ltac:(by destruct d)) as [Hp' Him']. destruct (write written (file s) d) as [n f].
    cbn [snd] in Hp', Him'. rewrite modify_run. exists n, (s1 <| file := f |>). split; [done|]. split; [|done].
    apply (waiting_file b im); [done|done|]. by rewrite Him', Him.
Qed.

Lemma waiting_acks b im s x y z : waiting b im s → waiting b im (s <| acks := x |> <| ackbuf := y |> <| timeout := z |>).
Proof. intros Hw. exact Hw. Qed.

(** Sending the acknowledgement again, with everything in the file. *)
Lemma send_ack_run b im s : waiting b im s →
  ∃ s', send_ack written bufsiz send_ok false s = Ret (if send_ok (acks s) then Receive else Abort, s') ∧ waiting b im s' ∧
    acks s' = acks s ++ [ackbuf s] ∧ ackbuf s' = ackbuf s.
Proof.
  intros Hw. unfold send_ack. set (s1 := s <| acks := acks s ++ [ackbuf s] |>).
  rewrite (bind_run _ _ s (send_ok (acks s)) s1 eq_refl). assert (Hw1 : waiting b im s1) by exact Hw. exists s1.
  destruct (send_ok (acks s)); [|done]. destruct Hw1 as (Hb & Hn & Hc & Hrest).
  rewrite (bind_run _ _ _ _ _ (write_behind_nop s1 ltac:(by rewrite Hn))). split; [done|]. split; [exact Hw|done].
Qed.
(** The acknowledgement of a new block, which may still be in the other buffer. *)
Lemma send_seek_ack_run b im s : 0 <= b + 1 → b + 2 < 2 ^ 32 → block s = b + 1 →
  (waiting b im s ∨ ∃ im0 d, im = exec im0 (Write d) ∧ loaded b im0 d s) →
  ∃ s', send_seek_ack written bufsiz send_ok ft false s = Ret (if send_ok (acks s) then Receive else Abort, s') ∧
    (send_ok (acks s) = true → waiting (b + 1) im s') ∧
    ∃ op, acks s' = acks s ++ [ack_packet op (b + 1)] ∧ ackbuf s' = ack_packet op (b + 1) ∧ (0 <= b → op = ACK).
Proof.
  intros Hb0 Hb1 Hblk Hs. unfold send_seek_ack. rewrite modify_run, get_run. cbv zeta. rewrite modify_run.
  set (op := if _ =? 0 then _ else ACK). set (s1 := _ <| block := _ |>).
  assert (Eop : 0 <= b → op = ACK).
  { intros Hb. unfold op. change (block _) with (block s). rewrite Hblk. by rewrite (proj2 (Z.eqb_neq _ _)) by lia. }
  assert (E1 : ackbuf s1 = ack_packet op (b + 1)) by (unfold s1; simpl; by rewrite Hblk).
  assert (E2 : block s1 = (b + 1) + 1) by (unfold s1, u32; simpl; rewrite Hblk; apply Z.mod_small; lia).
  assert (E3 : acks s1 = acks s) by done.
  assert (Hs1 : waiting (b + 1) im s1 ∨ ∃ im0 d, im = exec im0 (Write d) ∧ loaded (b + 1) im0 d s1).
  { destruct Hs as [(H1 & H2 & H3 & H4 & H5 & _ & H6)|(im0 & d & -> & (H1 & H2 & H3 & H4 & H5 & H6 & _ & H7))].
    - left. repeat (split; [done|]). done.
    - right. exists im0, d. split; [done|]. repeat (split; [done|]). done. }
  clearbody s1 op. destruct Hs1 as [Hw|(im0 & d & -> & Hl)].
  - destruct (send_ack_run (b + 1) im s1 Hw) as (s2 & E & Hw2 & Ha). exists s2. rewrite E, E3. split; [done|].
    split; [done|]. exists op. destruct Ha as [-> ->]. by rewrite E1, E3.
  - unfold send_ack. set (s2 := s1 <| acks := acks s1 ++ [ackbuf s1] |>).
    rewrite (bind_run _ _ s1 (send_ok (acks s1)) s2 eq_refl). rewrite E3.
    assert (Ha : acks s2 = acks s ++ [ack_packet op (b + 1)]) by (unfold s2; simpl; by rewrite E3, E1).
    assert (Hl2 : loaded (b + 1) im0 d s2) by exact Hl.
    assert (Hk : ackbuf s2 = ack_packet op (b + 1)) by exact E1. clearbody s2.
    destruct (send_ok (acks s)).
    + destruct (write_behind_run (b + 1) im0 d s2 Hl2) as (n & s3 & E & Hw3 & Ha3 & Hk3).
      rewrite (bind_run _ _ _ _ _ E). exists s3. split; [done|]. split; [done|]. exists op. by rewrite Ha3, Hk3.
    + exists s2. split; [done|]. split; [done|]. by exists op.
Qed.

(** The offset of a seek. *)
Lemma seek_run d off rest : command_ok (Seek off) → drop 6 d = (payload_of (Seek off)).2 ++ rest → (20 <= Z.of_nat (length d)) →
  seek_offset ft d = Ret off.
Proof.
  simpl. intros Hoff Hd Hl. unfold seek_offset, rd32, read_at. destruct (truthy (large_crashdumps ft)).
  - rewrite bool_decide_true by lia. cbn [of_opt mbind outcome_bind]. rewrite Hd. change (take 8 (be64 off ++ rest)) with (be64 off).
    rewrite be64_val by lia. f_equal. unfold s64. rewrite Z.mod_small by lia. lia.
  - rewrite bool_decide_true by lia. cbn [of_opt mbind outcome_bind]. rewrite Hd. cbn [fmap option_fmap option_map of_opt].
    change (take 4 (be32 off ++ rest)) with (be32 off). by rewrite be32_value.
Qed.

(** The packet of the block that is expected. *)
Lemma take_run c b im s : waiting b im s → command_ok c → 0 <= b → b + 2 < 2 ^ 32 →
  ∃ s', handle_event written bufsiz send_ok ft false (Packet (packet (b + 1) c)) s =
      Ret (if send_ok (acks s) then Receive else Abort, s') ∧
    (send_ok (acks s) = true → waiting (b + 1) (exec im c) s') ∧
    acks s' = acks s ++ [ack_packet ACK (b + 1)] ∧ ackbuf s' = ack_packet ACK (b + 1).
Proof.
  intros Hw Hc Hb Hb2. cbn [handle_event]. unfold handle_packet.
  destruct (store_run (b + 1) c b im s Hw ltac:(lia) Hc) as (s1 & E & Hw1 & <- & _ & Ho & Hblk & [rest Hd]).
  rewrite (bind_run _ _ _ _ _ E), get_run. cbv zeta. rewrite Ho, Hblk.
  assert (Eb : block s1 = b + 1) by apply Hw1. rewrite Eb, Z.eqb_refl. destruct c as [off|d]; cbn [payload_of fst snd] in *.
  - change (KDP_SEEK =? ERROR) with false. change (KDP_SEEK =? KDP_EOF) with false. change (KDP_SEEK =? KDP_SEEK) with true. cbv iota.
    rewrite (lift_run _ _ _ off). 2:{ apply (seek_run _ _ rest); [done|by rewrite Hd|]. destruct (bounded_bfs (current s1) s1 (proj1 Hw1)); lia. }
    rewrite modify_run. set (s2 := s1 <| file := _ |>).
    assert (Hw2 : waiting b (exec im (Seek off)) s2).
    { apply (waiting_file b im); [done|unfold lseek; destruct (off <? 0); apply Hw1|]. unfold lseek. simpl in Hc.
      rewrite (proj2 (Z.ltb_ge _ _)) by (destruct (truthy _); lia). unfold image_of. simpl. f_equal.
      by destruct Hw1 as (_ & _ & _ & _ & _ & _ & _ & <-). }
    destruct (send_seek_ack_run b _ s2 ltac:(lia) Hb2 Eb (or_introl Hw2)) as (s3 & E3 & Hw3 & op & Ha & Hk & Hop).
    exists s3. split; [exact E3|]. split; [exact Hw3|]. rewrite <- (Hop Hb). done.
  - change (DATA =? ERROR) with false. change (DATA =? KDP_EOF) with false. change (DATA =? KDP_SEEK) with false.
    change (DATA =? DATA) with true. cbv iota. replace (6 + Z.of_nat (length d) - 6) with (Z.of_nat (length d)) by lia.
    destruct (writeit_run b im d s1 rest Hw1 (proj1 Hc) Hd ltac:(rewrite Ho; done)) as (s2 & E2 & Hl2 & Ha2 & Ho2).
    rewrite (bind_run _ _ _ _ _ E2), get_run. rewrite (proj2 (Z.eqb_neq _ _) Ho2).
    destruct (send_seek_ack_run b (exec im (Write d)) s2 ltac:(lia) Hb2) as (s3 & E3 & Hw3 & op & Ha & Hk & Hop).
    { by destruct Hl2 as (_ & _ & _ & _ & _ & _ & Hl2 & _). }
    { right. by exists im, d. }
    exists s3. rewrite <- Ha2. split; [exact E3|]. split; [exact Hw3|]. rewrite <- (Hop Hb). done.
Qed.

(** The packet of another block. *)
Lemma pass_run j c b im s : waiting b im s → command_ok c → 0 <= j < 2 ^ 32 → j ≠ b + 1 →
  ∃ nx s', handle_event written bufsiz send_ok ft false (Packet (packet j c)) s = Ret (nx, s') ∧ (nx = Receive ∨ nx = Abort) ∧
    waiting b im s' ∧ (acks s' = acks s ∨ acks s' = acks s ++ [ackbuf s]) ∧ ackbuf s' = ackbuf s.
Proof.
  intros Hw Hc Hj Hne. cbn [handle_event]. unfold handle_packet.
  destruct (store_run j c b im s Hw Hj Hc) as (s1 & E & Hw1 & <- & <- & Ho & Hblk & _).
  rewrite (bind_run _ _ _ _ _ E), get_run. cbv zeta. rewrite Ho, Hblk.
  assert (Eb : block s1 = b + 1) by apply Hw1. rewrite Eb, (proj2 (Z.eqb_neq _ _) Hne).
  assert (Hrest : ∃ nx s', (if j =? u32 (b + 1 - 1) then send_ack written bufsiz send_ok false else mret Receive) s1 = Ret (nx, s') ∧
    (nx = Receive ∨ nx = Abort) ∧ waiting b im s' ∧ (acks s' = acks s1 ∨ acks s' = acks s1 ++ [ackbuf s1]) ∧ ackbuf s' = ackbuf s1).
  { destruct (_ =? _); [|exists Receive, s1; split; [done|]; split; [by left|]; split; [done|]; split; [by left|done]].
    destruct (send_ack_run b im s1 Hw1) as (s2 & E2 & Hw2 & Ha2 & Hk2). exists (if send_ok (acks s1) then Receive else Abort), s2.
    split; [done|]. split; [destruct (send_ok _); auto|]. split; [done|]. split; [by right|done]. }
  destruct c; exact Hrest.
Qed.

Lemma alarm_run b im s : waiting b im s →
  ∃ nx s', handle_event written bufsiz send_ok ft false Alarm s = Ret (nx, s') ∧
    waiting b im s' ∧ (acks s' = acks s ∨ acks s' = acks s ++ [ackbuf s]) ∧ ackbuf s' = ackbuf s.
Proof.
  intros Hw. cbn [handle_event]. unfold timer. rewrite modify_run, get_run. set (s1 := s <| timeout := _ |>).
  assert (Hw1 : waiting b im s1) by exact Hw. destruct (_ <=? _).
  - exists Flushfile, s1. split; [done|]. split; [done|]. split; [by left|done].
  - destruct (send_ack_run b im s1 Hw1) as (s2 & E2 & Hw2 & Ha2 & Hk2). rewrite E2. eexists _, s2. split; [done|].
    split; [done|]. split; [by right|done].
Qed.

(** The end of the dump, and the end of the file. *)
Lemma final_run b im last s : waiting b im s →
  ∃ s', final_ack written bufsiz send_ok false last s = Ret (tt, s') ∧ image_of (file s') = im.
Proof.
  intros Hw. unfold final_ack. rewrite modify_run. set (s1 := s <| ackbuf := _ |>).
  set (s2 := s1 <| acks := acks s1 ++ [ackbuf s1] |>). rewrite (bind_run _ _ s1 (send_ok (acks s1)) s2 eq_refl).
  assert (Hw2 : waiting b im s2) by exact Hw. clearbody s2. unfold flushfile.
  assert (H := Hw2). destruct H as (_ & Hn & Hc & _ & _ & _ & Hpend & Him).
  rewrite (bind_run _ _ _ _ _ (write_behind_nop s2 ltac:(by rewrite Hn))). rewrite modify_run.
  assert (Ef : fflush written (file s2) = file s2) by (unfold fflush; by rewrite Hpend). rewrite Ef.
  destruct last as [p| |]; [|by eexists|by eexists]. rewrite get_run. cbv zeta. destruct (_ && _); by eexists.
Qed.
Lemma eof_run blk b im s : waiting b im s → 0 <= blk < 2 ^ 32 →
  ∃ s', handle_event written bufsiz send_ok ft false (Packet (raw KDP_EOF blk [])) s = Ret (Final_ack, s') ∧ waiting b im s'.
Proof.
  intros Hw Hblk. cbn [handle_event]. unfold handle_packet.
  destruct (store_raw KDP_EOF blk [] b im s Hw ltac:(unfold KDP_EOF; lia) Hblk ltac:(simpl; lia)) as (s1 & E & Hw1 & _ & _ & Ho & _).
  rewrite (bind_run _ _ _ _ _ E), get_run. cbv zeta. rewrite Ho. by exists s1.
Qed.

(** *** The kernel, the network and the server *)

Context (script : list command) (Hscript : Forall command_ok script) (Hlen : Z.of_nat (length script) + 2 < 2 ^ 32).

(** The kernel has had the acknowledgements of [k] commands and repeats the
    packet of the next one; every packet it has sent may reach the server at
    any time, again and again, or never. *)
Inductive system_step : nat * server → nat * server → Prop :=
  | client_acked k s :
      (k < length script)%nat → ack_packet ACK (Z.of_nat k + 1) ∈ acks s → system_step (k, s) (S k, s)
  | delivered k s j c s' :
      script !! j = Some c → (j <= k)%nat →
      handle_event written bufsiz send_ok ft false (Packet (packet (Z.of_nat j + 1) c)) s = Ret (Receive, s') →
      system_step (k, s) (k, s')
  | alarmed k s s' :
      handle_event written bufsiz send_ok ft false Alarm s = Ret (Receive, s') → system_step (k, s) (k, s').

Definition reached (im0 : image) (b : nat) : image := foldl exec im0 (take b script).

Definition in_step (im0 : image) (k : nat) (s : server) (b : nat) : Prop :=
  (k <= b <= S k)%nat ∧ (b <= length script)%nat ∧ waiting (Z.of_nat b) (reached im0 b) s ∧
  (∀ a, a ∈ acks s → ∃ op j, a = ack_packet op j ∧ 0 <= j <= Z.of_nat b) ∧ (∃ op, ackbuf s = ack_packet op (Z.of_nat b)) ∧
  (∀ i, (1 <= i <= b)%nat → ack_packet ACK (Z.of_nat i) ∈ acks s).

Lemma ack_block op j op' j' : 0 <= j < 2 ^ 32 → 0 <= j' < 2 ^ 32 → ack_packet op j = ack_packet op' j' → j = j'.
Proof.
  intros Hj Hj' E. rewrite <- (be32_value j), <- (be32_value j') by done. f_equal.
  apply (f_equal (drop 2)) in E. exact E.
Qed.
Lemma same_acks im0 k s b s' : in_step im0 k s b → waiting (Z.of_nat b) (reached im0 b) s' →
  (acks s' = acks s ∨ acks s' = acks s ++ [ackbuf s]) → ackbuf s' = ackbuf s → in_step im0 k s' b.
Proof.
  intros (Hk & Hbl & _ & Hacks & [op Hbuf] & Hall) Hw Ha Hk'. split; [done|]. split; [done|]. split; [done|].
  split; [|split; [by exists op; rewrite Hk'|]].
  - intros a Hin. destruct Ha as [E|E]; rewrite E in Hin; [by apply Hacks|]. apply elem_of_app in Hin as [Hin|Hin]; [by apply Hacks|].
    apply list_elem_of_singleton in Hin as ->. exists op, (Z.of_nat b). split; [done|lia].
  - intros i Hi. specialize (Hall i Hi). destruct Ha as [->| ->]; [done|]. apply elem_of_app. by left.
Qed.
Lemma taken im0 k s b c s' : in_step im0 k s b → script !! b = Some c → (b <= k)%nat → 
  waiting (Z.of_nat b + 1) (exec (reached im0 b) c) s' → acks s' = acks s ++ [ack_packet ACK (Z.of_nat b + 1)] →
  ackbuf s' = ack_packet ACK (Z.of_nat b + 1) → in_step im0 k s' (S b).
Proof.
  intros (Hk & Hbl & _ & Hacks & _ & Hall) Hc Hbk Hw Ha Hbuf. assert (Hlt := lookup_lt_Some _ _ _ Hc).
  assert (Er : exec (reached im0 b) c = reached im0 (S b)).
  { unfold reached. by rewrite (take_S_r _ _ _ Hc), foldl_app. }
  rewrite Er in Hw. replace (Z.of_nat b + 1) with (Z.of_nat (S b)) in * by lia.
  split; [lia|]. split; [lia|]. split; [done|]. split; [|split; [by eexists|]].
  - intros a. rewrite Ha, elem_of_app, list_elem_of_singleton. intros [Hin| ->].
    + destruct (Hacks a Hin) as (op & j & -> & Hj). exists op, j. split; [done|lia].
    + eexists _, _. split; [reflexivity|lia].
  - intros i Hi. rewrite Ha, elem_of_app, list_elem_of_singleton. destruct (decide (i = S b)) as [->|]; [by right|].
    left. apply Hall. lia.
Qed.

Lemma step_invariant im0 k s b k' s' : in_step im0 k s b → system_step (k, s) (k', s') → ∃ b', in_step im0 k' s' b' ∧ (b <= b')%nat.
Proof.
  intros Hin Hstep. inversion Hstep as [? ? Hlt Hack E1 E2|? ? j c ? Hc Hj E E1 E2|? ? ? E E1 E2]; subst.
  - exists b. split; [|lia]. destruct Hin as (Hk & Hbl & Hw & Hacks & Hrest). split; [|exact (conj Hbl (conj Hw (conj Hacks Hrest)))].
    destruct (Hacks _ Hack) as (op & j & Ej & Hj). apply ack_block in Ej; [|lia|lia]. lia.
  - assert (H := Hin). destruct H as (Hk & Hbl & Hw & _). assert (Hlt := lookup_lt_Some _ _ _ Hc).
    assert (Hok : command_ok c) by (rewrite Forall_lookup in Hscript; by eapply Hscript).
    destruct (decide (j = b)) as [->|Hne].
    + destruct (take_run c (Z.of_nat b) _ s Hw Hok ltac:(lia) ltac:(lia)) as (s1 & E1 & Hw1 & Ha1 & Hk1).
      rewrite E1 in E. destruct (send_ok (acks s)); [|discriminate E]. injection E as <-.
      exists (S b). split; [|lia]. apply (taken im0 _ s b c); [done|done|lia|by apply Hw1|done|done].
    + destruct (pass_run (Z.of_nat j + 1) c (Z.of_nat b) _ s Hw Hok ltac:(lia) ltac:(lia)) as (nx & s1 & E1 & _ & Hw1 & Ha1 & Hk1).
      rewrite E1 in E. injection E as _ <-. exists b. split; [|lia]. by eapply same_acks.
  - assert (H := Hin). destruct H as (Hk & Hbl & Hw & _). destruct (alarm_run (Z.of_nat b) _ s Hw) as (nx & s1 & E1 & Hw1 & Ha1 & Hk1).
    rewrite E1 in E. injection E as _ <-. exists b. split; [|lia]. by eapply (same_acks im0 _ s b).
Qed.

(** Before the transfer. *)
Definition fresh (s : server) : Prop :=
  bounded s ∧ pending (file s) = [] ∧ th_opcode (bdata (bf1 s)) ≠ KDP_EOF ∧ acks s = [].
Lemma begin_run s : fresh s → ∃ s', begin_transfer written bufsiz send_ok ft false s = Ret (if send_ok [] then Receive else Abort, s') ∧
  (send_ok [] = true → in_step (image_of (file s)) 0 s' 0).
Proof.
  intros (Hb & Hpend & Hop & Hacks). assert (Hm := maximum). unfold begin_transfer.
  set (s1 := s <| prevchar := -1 |> <| bf0 := bf0 s <| counter := BF_ALLOC |> |> <| current := false |>
    <| bf1 := bf1 s <| counter := BF_FREE |> |> <| nextone := false |>).
  rewrite (bind_run w_init _ s tt s1 eq_refl). rewrite modify_run. set (s2 := s1 <| block := 0 |>).
  assert (Hw : waiting (-1) (image_of (file s)) s2).
  { destruct Hb as [[Hl0 Hc0] [Hl1 Hc1]]. unfold waiting, bounded, bf_ok, s2, s1.
    cbn -[BF_FREE BF_ALLOC MAXIMUM_KDP_PKTSIZE th_opcode image_of Z.sub]. unfold BF_ALLOC, BF_FREE. split_and!; try done; lia. }
  assert (Ea : acks s2 = []) by exact Hacks. assert (Eblk : block s2 = -1 + 1) by done. clearbody s2.
  destruct (send_seek_ack_run (-1) _ s2 ltac:(lia) ltac:(lia) Eblk (or_introl Hw)) as (s3 & E & Hw3 & op & Ha & Hk & _).
  rewrite Ea in *. exists s3. split; [done|]. intros Hok. specialize (Hw3 Hok). split; [lia|]. split; [lia|]. split; [exact Hw3|].
  split; [|split; [by exists op|intros; lia]]. intros a. rewrite Ha. intros ->%list_elem_of_singleton. exists op, 0. done.
Qed.

Lemma reachable_invariant s0 s1 k s : fresh s0 → begin_transfer written bufsiz send_ok ft false s0 = Ret (Receive, s1) → rtc system_step (0%nat, s1) (k, s) →
  ∃ b, in_step (image_of (file s0)) k s b.
Proof.
  intros Hf Hbeg Hr. destruct (begin_run s0 Hf) as (s' & E & Hin). rewrite E in Hbeg.
  destruct (send_ok []); [|discriminate Hbeg]. injection Hbeg as ->. specialize (Hin eq_refl).
  assert (H : ∀ x y, rtc system_step x y → ∀ b, in_step (image_of (file s0)) x.1 x.2 b → ∃ b', in_step (image_of (file s0)) y.1 y.2 b').
  { intros x y. induction 1 as [[k1 t1]|[k1 t1] [k2 t2] [k3 t3] Hs _ IH]; intros b Hb; [by exists b|].
    destruct (step_invariant _ _ _ _ _ _ Hb Hs) as (b' & Hb' & _). by apply (IH b'). }
  exact (H _ _ Hr _ Hin).
Qed.

(** The kernel can always go on. *)
Lemma progress im0 k s b : (∀ l, send_ok l = true) → in_step im0 k s b → (k < length script)%nat →
  ∃ s' b', rtc system_step (k, s) (S k, s') ∧ in_step im0 (S k) s' b'.
Proof.
  intros Hsend Hin Hk. assert (H := Hin). destruct H as (Hkb & Hbl & Hw & _).
  assert (Hone : ∃ s' b', rtc system_step (k, s) (k, s') ∧ in_step im0 k s' b' ∧ b' = S k).
  { destruct (decide (b = S k)) as [->|Hne]; [by exists s, (S k)|]. assert (b = k) as -> by lia.
    destruct (lookup_lt_is_Some_2 script k Hk) as [c Hc].
    assert (Hok : command_ok c) by (rewrite Forall_lookup in Hscript; by eapply Hscript).
    destruct (take_run c (Z.of_nat k) _ s Hw Hok ltac:(lia) ltac:(lia)) as (s1 & E1 & Hw1 & Ha1 & Hk1). rewrite Hsend in *.
    exists s1, (S k). split; [|split; [|done]].
    - apply rtc_once. by apply (delivered k s k c s1).
    - apply (taken im0 _ s k c); [done|done|lia|by apply Hw1|done|done]. }
  destruct Hone as (s' & b' & Hr & Hin' & ->). exists s', (S k).
  assert (Hack : ack_packet ACK (Z.of_nat k + 1) ∈ acks s').
  { destruct Hin' as (_ & _ & _ & _ & _ & Hall). replace (Z.of_nat k + 1) with (Z.of_nat (S k)) by lia. apply Hall. lia. }
  assert (Hst : system_step (k, s') (S k, s')) by (by apply client_acked).
  split; [etrans; [done|by apply rtc_once]|]. destruct Hin' as (_ & Hrest). split; [lia|exact Hrest].
Qed.
Lemma completes_from im0 n k s b : (∀ l, send_ok l = true) → in_step im0 k s b → (k + n = length script)%nat →
  ∃ s' b', rtc system_step (k, s) (length script, s') ∧ in_step im0 (length script) s' b'.
Proof.
  intros Hsend. revert k s b. induction n as [|n IH]; intros k s b Hin Hn.
  - replace k with (length script) in * by lia. by exists s, b.
  - destruct (progress im0 k s b Hsend Hin ltac:(lia)) as (s1 & b1 & Hr & Hin1).
    destruct (IH (S k) s1 b1 Hin1 ltac:(lia)) as (s2 & b2 & Hr2 & Hin2). exists s2, b2. split; [by etrans|done].
Qed.
End transfer.

(** ** The request *)

Section request.
Context (fs : filesystem) (strerror : Z → bytes) (suppress_naks : bool).

Lemma find_nul_spec n buf cp : (cp + n <= length buf)%nat →
  ∃ cp', find_nul n buf cp = Ret cp' ∧ (cp <= cp' <= cp + n)%nat.
Proof.
  revert cp. induction n as [|n IH]; intros cp H; cbn [find_nul]; [exists cp; split; [done|lia]|].
  destruct (lookup_lt_is_Some_2 buf cp ltac:(lia)) as [c Hc]. unfold rd8. rewrite Hc. cbn [of_opt mbind outcome_bind].
  destruct (c =? 0); [exists cp; split; [done|lia]|]. destruct (IH (S cp) ltac:(lia)) as (cp' & E & Hb). exists cp'. split; [done|lia].
Qed.
Lemma same_string_spec l buf cp : (cp + length l <= length buf)%nat → ∃ r, same_string l buf cp = Ret r.
Proof.
  revert cp. induction l as [|x l IH]; intros cp H; cbn [same_string length] in *; [by eexists|].
  destruct (lookup_lt_is_Some_2 buf cp ltac:(lia)) as [c Hc]. unfold rd8. rewrite Hc. cbn [of_opt mbind outcome_bind].
  destruct (c =? x); [apply IH; lia|by eexists].
Qed.

(** A name that stays in the directory. *)
Definition plain_name (name : bytes) : Prop := (¬ 47 ∈ name) ∧ ¬ (∃ l l', name = l ++ [46; 46] ++ l').
(** Error numbers are positive. *)
Definition fs_ok : Prop := (∀ n, 0 <= fs_open fs n) ∧ 0 <= fs_fdopen fs.
Context (Hfs : fs_ok).

Lemma dotdot_spec name : dotdot name = false → ¬ (∃ l l', name = l ++ [46; 46] ++ l').
Proof.
  intros H (l & l' & ->). revert H. induction l as [|x l IH]; [done|]. intros H. apply IH. clear IH.
  cbn [app] in H |- *. destruct x as [|p|p]; try exact H.
  revert H. cbn [dotdot]. repeat (destruct p as [p|p|]; try (intros H; exact H)).
  destruct (l ++ 46 :: 46 :: l') as [|y r]; [done|]. destruct y as [|q|q]; try (intros H; exact H).
  repeat (destruct q as [q|q|]; try (intros H; exact H)). done.
Qed.

Lemma validate_access_spec name : validate_access fs name = 0 →
  plain_name name ∧ fs_stat fs (take (MAXPATHLEN - 1) (chars "./" ++ name)) = ENOENT ∧ fs_open fs name = 0.
Proof.
  unfold validate_access. destruct (bool_decide (47 ∈ name)) eqn:E1; [done|]. destruct (dotdot name) eqn:E2; [done|]. cbn [orb].
  set (st := fs_stat fs _). destruct (st =? 0) eqn:E3; [done|]. destruct (Z.eqb_spec st ENOENT) as [E4|E4]; cbn [negb].
  - destruct (Z.eqb_spec (fs_open fs name) 0) as [E5|E5]; cbn [negb].
    + intros _. split; [|done]. split; [by apply bool_decide_eq_false in E1|by apply dotdot_spec].
    + intros H. specialize (proj1 Hfs name). lia.
  - intros H. by rewrite H in E3.
Qed.

Lemma features_size mask : 20 <= pkt_size (features_of mask) <= 1412.
Proof. unfold features_of, KDP_LARGE_CRASHDUMP_PKT_SIZE, SEGSIZE, sizeof_kdumphdr. simpl. destruct (truthy _); lia. Qed.

(** What is accepted. *)
Definition accepted (r : reaction) : Prop :=
  match r with
  | Refuse _ status => status = 0 ∨ status = 1
  | Serve _ ft name => 20 <= pkt_size ft <= 1412 ∧ plain_name name ∧
      fs_stat fs (take (MAXPATHLEN - 1) (chars "./" ++ name)) = ENOENT ∧ fs_open fs name = 0
  end.

Lemma kdump_accepted buf size : length buf = MAXIMUM_KDP_PKTSIZE → Z.of_nat size <= 16384 - 15 →
  returns (kdump fs strerror suppress_naks buf size) accepted.
Proof.
  intros Hl Hs. assert (Hm := maximum). unfold kdump.
  destruct (find_nul_spec (size - 2) buf 2 ltac:(lia)) as (cp & -> & Hcp). cbn [mbind outcome_bind].
  destruct (lookup_lt_is_Some_2 buf cp ltac:(lia)) as [c Hc]. rewrite (Hc : rd8 buf cp = Some c). cbn [of_opt mbind outcome_bind].
  destruct (negb (c =? 0)); [by right|].
  destruct (read_returns buf 2 (cp - 2) ltac:(lia)) as [name ->]. cbn [of_opt mbind outcome_bind].
  destruct (find_nul_spec (size - S cp) buf (S cp) ltac:(lia)) as (cp2 & -> & Hcp2). cbn [mbind outcome_bind].
  destruct (lookup_lt_is_Some_2 buf cp2 ltac:(lia)) as [c2 Hc2]. rewrite (Hc2 : rd8 buf cp2 = Some c2). cbn [of_opt mbind outcome_bind].
  destruct (negb (c2 =? 0)); [by right|].
  destruct (read_returns buf (S cp) (cp2 - S cp) ltac:(lia)) as [md ->]. cbn [of_opt mbind outcome_bind].
  destruct (same_string_spec feature_string buf (S cp2)) as [same ->]; [unfold feature_string; simpl; lia|]. cbn [mbind outcome_bind].
  assert (Hft : ∃ ft, (if same then mask ← of_opt (rd32 buf (S cp2 + length feature_string)); Ret (features_of mask) else Ret default_features)
    = Ret ft ∧ 20 <= pkt_size ft <= 1412).
  { destruct same; [|by eexists]. unfold rd32. destruct (read_returns buf (S cp2 + length feature_string) 4) as [v ->].
    - unfold feature_string. simpl. lia.
    - eexists. split; [reflexivity|]. apply features_size. }
  destruct Hft as (ft & -> & Hsz). cbn [mbind outcome_bind].
  destruct (if bool_decide (map tolower md = chars "netascii") then Some true else _) as [convert|]; [|by right].
  destruct (Z.eqb_spec (validate_access fs name) 0) as [E|E]; cbn [negb].
  - apply validate_access_spec in E. by split.
  - destruct (_ && _); [by left|by right].
Qed.
End request.

(** ** Netascii *)

Section ascii.
Context (written : Z → Z → Z) (bufsiz : nat) (Hdisk : ∀ off n, written off n = n).

(** The file with the octets that are pending. *)
Definition view (f : FILE) : image := exec (image_of f) (Write (pending f)).

Lemma put_at_app off d d' c : put_at off (d ++ d') c = put_at (off + Z.of_nat (length d)) d' (put_at off d c).
Proof.
  revert off c. induction d as [|x d IH]; intros off c; cbn [app put_at length]; [by rewrite Z.add_0_r|].
  rewrite IH. f_equal. lia.
Qed.
Lemma fflush_view f : image_of (fflush written f) = view f ∧ pending (fflush written f) = [].
Proof.
  unfold fflush, view. destruct (pending f) as [|x l] eqn:E.
  - simpl. rewrite Z.add_0_r. done.
  - split; [|done]. unfold write. rewrite Hdisk. rewrite (proj2 (Z.ltb_ge _ _)) by lia.
    rewrite Nat2Z.id, firstn_all. reflexivity.
Qed.
Lemma putc_view c f : view (putc written bufsiz c f) = exec (view f) (Write [c]).
Proof.
  unfold putc. set (g := f <| pending := pending f ++ [c] |>).
  assert (Hg : view g = exec (view f) (Write [c])).
  { unfold view, g. cbn [exec image_of fst snd pending contents offset]. simpl. rewrite put_at_app, length_app. simpl. f_equal. lia. }
  destruct (_ <=? _)%nat; [|done]. destruct (fflush_view g) as [E1 E2]. unfold view at 1. rewrite E1, E2, Hg. simpl. f_equal. lia.
Qed.
Lemma fseek_back_view f : 1 <= (view f).2 → view (fseek_back written f) = ((view f).1, (view f).2 - 1).
Proof.
  intros H. unfold fseek_back. destruct (fflush_view f) as [E1 E2]. set (g := fflush written f) in *. clearbody g.
  assert (Eo : offset g = (view f).2) by (by rewrite <- E1). unfold lseek. rewrite (proj2 (Z.ltb_ge _ _)) by lia.
  assert (Ec : contents g = (view f).1) by (by rewrite <- E1).
  clear E1. generalize dependent (view f). intros v Hv Eo Ec.
  unfold view, image_of. simpl. rewrite E2. simpl. rewrite Eo, Ec, Z.add_0_r. done.
Qed.

(** The octets written since the offset [off0]. *)
Definition tells (im0 : image) (acc : bytes) (prev : Z) (f : FILE) : Prop :=
  view f = exec im0 (Write acc) ∧ (prev = 13 → ∃ l, acc = l ++ [13]).

Definition to_netascii1 (c : Z) : bytes := if c =? 10 then [13; 10] else if c =? 13 then [13; 0] else [c].
Definition to_netascii (l : bytes) : bytes := l ≫= to_netascii1.

Lemma tells_putc im0 acc prev c f : tells im0 acc prev f → tells im0 (acc ++ [c]) c (putc written bufsiz c f).
Proof.
  intros [Hv Hp]. split; [|intros ->; by eexists]. rewrite putc_view, Hv. cbn [exec fst snd]. rewrite put_at_app, length_app. simpl. f_equal. lia.
Qed.
Lemma put_ascii_app l l' prev f : put_ascii written bufsiz (l ++ l') prev f =
  let '(prev', f') := put_ascii written bufsiz l prev f in put_ascii written bufsiz l' prev' f'.
Proof. revert prev f. induction l as [|c l IH]; intros prev f; cbn [app put_ascii]; [done|]. destruct (_ && _); apply IH. Qed.

(** One character of the text. *)
Lemma put_ascii_one im0 acc prev c f : 0 <= im0.2 → prev ≠ 13 → tells im0 acc prev f →
  ∃ prev' f', put_ascii written bufsiz (to_netascii1 c) prev f = (prev', f') ∧ prev' ≠ 13 ∧ tells im0 (acc ++ [c]) prev' f'.
Proof.
  intros H0 Hp Ht. apply Z.eqb_neq in Hp. unfold to_netascii1. destruct (Z.eqb_spec c 10) as [->|H10]; [|destruct (Z.eqb_spec c 13) as [->|H13]].
  - cbn [put_ascii]. rewrite Hp. cbn [andb]. change (13 =? 13) with true. change (10 =? 0) with false. change (10 =? 10) with true. cbn [andb].
    eexists _, _. split; [reflexivity|]. split; [done|]. split; [|done].
    destruct (tells_putc im0 acc prev 13 f Ht) as [Hv _]. rewrite putc_view, fseek_back_view; rewrite Hv; cbn [exec fst snd]; rewrite !length_app; simpl; [|lia].
    rewrite !put_at_app. cbn [put_at]. replace (im0.2 + Z.of_nat (length acc + 1) - 1) with (im0.2 + Z.of_nat (length acc)) by lia.
    rewrite insert_insert_eq. f_equal. lia.
  - cbn [put_ascii]. rewrite Hp. cbn [andb]. change (13 =? 13) with true. change (0 =? 0) with true. cbn [andb].
    eexists _, _. split; [reflexivity|]. split; [done|]. split; [|done]. by destruct (tells_putc im0 acc prev 13 f Ht).
  - cbn [put_ascii]. rewrite Hp. cbn [andb]. eexists _, _. split; [reflexivity|]. split; [done|]. by apply (tells_putc im0 acc prev).
Qed.
Lemma put_ascii_encoded im0 l acc prev f : 0 <= im0.2 → prev ≠ 13 → tells im0 acc prev f →
  ∃ prev' f', put_ascii written bufsiz (to_netascii l) prev f = (prev', f') ∧ view f' = exec im0 (Write (acc ++ l)).
Proof.
  intros H0. revert acc prev f. induction l as [|c l IH]; intros acc prev f Hp Ht.
  - exists prev, f. rewrite app_nil_r. split; [done|]. apply Ht.
  - change (to_netascii (c :: l)) with (to_netascii1 c ++ to_netascii l). rewrite put_ascii_app.
    destruct (put_ascii_one im0 acc prev c f H0 Hp Ht) as (p1 & f1 & -> & Hp1 & Ht1).
    destruct (IH (acc ++ [c]) p1 f1 Hp1 Ht1) as (p2 & f2 & E & Hv). exists p2, f2. split; [done|]. by rewrite Hv, <- (assoc_L (++)).
Qed.

(** The blocks that [read_ahead] makes of a file. *)
Definition in_middle (newline : bool) (prevchar : Z) : bytes := if newline then [if prevchar =? 10 then 10 else 0] else [].
Fixpoint read_blocks (fuel seg : nat) (newline : bool) (prevchar : Z) (input : bytes) : list bytes :=
  match fuel with
  | O => []
  | S fuel =>
      let '(out, (newline, prevchar, input)) := read_ascii seg newline prevchar input in
      out :: (if (length out <? seg)%nat then [] else read_blocks fuel seg newline prevchar input)
  end.

Lemma read_ascii_spec n newline prevchar input : (newline = true → prevchar = 10 ∨ prevchar = 13) →
  let '(out, (newline', prevchar', input')) := read_ascii n newline prevchar input in
  out ++ in_middle newline' prevchar' ++ to_netascii input' = in_middle newline prevchar ++ to_netascii input ∧
  (newline' = true → prevchar' = 10 ∨ prevchar' = 13) ∧ (length out <= n)%nat ∧
  ((length out < n)%nat → in_middle newline' prevchar' ++ to_netascii input' = []).
Proof.
  revert newline prevchar input. induction n as [|n IH]; intros newline prevchar input Hn; cbn [read_ascii].
  - split; [done|]. split; [done|]. split; [simpl; lia|]. simpl. lia.
  - destruct newline.
    + specialize (IH false prevchar input ltac:(done)). destruct (read_ascii n false prevchar input) as [out [[nl pc] inp]].
      destruct IH as (H1 & H2 & H3 & H4). split; [|split; [done|split; [simpl; lia|simpl; intros; apply H4; lia]]].
      cbn [app]. rewrite H1. done.
    + destruct input as [|c input].
      { split; [done|]. split; [done|]. split; [simpl; lia|]. done. }
      destruct ((c =? 10) || (c =? 13)) eqn:Ec.
      * specialize (IH true c input). destruct (read_ascii n true c input) as [out [[nl pc] inp]].
        assert (Hc : c = 10 ∨ c = 13) by lia. destruct (IH (λ _, Hc)) as (H1 & H2 & H3 & H4).
        split; [|split; [done|split; [simpl; lia|simpl; intros; apply H4; lia]]]. cbn [app]. rewrite H1.
        change (to_netascii (c :: input)) with (to_netascii1 c ++ to_netascii input). by destruct Hc as [->| ->].
      * specialize (IH false prevchar input ltac:(done)). destruct (read_ascii n false prevchar input) as [out [[nl pc] inp]].
        destruct IH as (H1 & H2 & H3 & H4). split; [|split; [done|split; [simpl; lia|simpl; intros; apply H4; lia]]].
        cbn [app]. rewrite H1. change (to_netascii (c :: input)) with (to_netascii1 c ++ to_netascii input). unfold to_netascii1.
        apply orb_false_iff in Ec as [-> ->]. done.
Qed.

Lemma read_blocks_concat fuel seg newline prevchar input : (1 <= seg)%nat → (newline = true → prevchar = 10 ∨ prevchar = 13) →
  (length (in_middle newline prevchar ++ to_netascii input) < fuel)%nat →
  concat (read_blocks fuel seg newline prevchar input) = in_middle newline prevchar ++ to_netascii input.
Proof.
  intros Hs. revert newline prevchar input. induction fuel as [|fuel IH]; intros newline prevchar input Hn Hf; [lia|].
  cbn [read_blocks]. assert (H := read_ascii_spec seg newline prevchar input Hn).
  destruct (read_ascii seg newline prevchar input) as [out [[nl pc] inp]]. destruct H as (H1 & H2 & H3 & H4). rewrite <- H1 in *.
  destruct (Nat.ltb_spec (length out) seg) as [Hlt|Hge]; cbn [concat].
  - by rewrite (H4 Hlt).
  - rewrite IH; [done|done|]. rewrite length_app in Hf. lia.
Qed.

Definition write_blocks (bs : list bytes) (st : Z * FILE) : Z * FILE :=
  foldl (λ st b, put_ascii written bufsiz b st.1 st.2) st bs.
Lemma write_blocks_concat bs prev f : write_blocks bs (prev, f) = put_ascii written bufsiz (concat bs) prev f.
Proof.
  revert prev f. induction bs as [|b bs IH]; intros prev f; cbn [concat]; [done|]. rewrite put_ascii_app.
  unfold write_blocks in *. cbn [foldl fst snd]. destruct (put_ascii written bufsiz b prev f) as [p1 f1]. apply IH.
Qed.
End ascii.

(** ** The theorems *)

(** C23: The dump server is safe. Whatever the first datagram (of at most 16369
    octets in the buffer of 16384), whatever packets, alarms and errors follow
    and whatever the disk does: no read or write leaves a buffer, the program
    refuses the request with the status 0 or 1 or receives a file until the events end,
    and a file is created only under a name
    without a slash and without two dots in a row, which did not exist. *)
Theorem kdumpd_safe (fs : filesystem) (strerror : Z → bytes) (suppress_naks : bool) (written : Z → Z → Z) (bufsiz : nat)
    (send_ok : list bytes → bool) (buf : bytes) (size : nat) (s : server) (evs : list event) (last : event) :
  fs_ok fs → length buf = MAXIMUM_KDP_PKTSIZE → Z.of_nat size <= 16384 - 15 → bounded s →
  returns (first_packet fs strerror suppress_naks buf size) (λ r, accepted fs r ∧
    match r with
    | Serve convert ft name => returns (recvfile written bufsiz send_ok ft convert evs last s) (λ '(_, s'), bounded s')
    | Refuse _ _ => True
    end).
Proof.
  intros Hfs Hl Hs Hb. assert (Hm := maximum). unfold first_packet, rd16.
  destruct (read_returns buf 0 2 ltac:(lia)) as [v ->]. cbn [fmap option_fmap option_map of_opt mbind outcome_bind].
  destruct (_ =? WRQ); [|simpl; auto].
  eapply returns_impl; [|by apply kdump_accepted]. intros [p st|convert ft name] Ha; [done|]. split; [done|].
  assert (Hft : 0 <= pkt_size ft <= Z.of_nat MAXIMUM_KDP_PKTSIZE) by (destruct Ha as [Hsz _]; lia).
  unfold recvfile. revert s Hb. apply total_bind; [by apply begin_transfer_bounded|]. intros nx. by apply recv_loop_bounded.
Qed.

(** C21: A dump arrives as it was sent. The kernel sends a sequence of seeks and
    blocks of octets one after the other, each until it is acknowledged, over a
    network that loses, repeats and reorders packets and acknowledgements. In
    every state that the kernel and the server can reach the file is the result of executing the
    first [b] commands in order, each once, where [b] is the number of acknowledged commands or
    one more; and when the kernel has had all acknowledgements, its end of file packet
    makes the server close the file with the whole dump in it. *)
Theorem transfer_correct (written : Z → Z → Z) (bufsiz : nat) (send_ok : list bytes → bool) (ft : features)
    (script : list command) (s0 s1 : server) (k : nat) (s : server) :
  20 <= pkt_size ft <= Z.of_nat MAXIMUM_KDP_PKTSIZE → (∀ off n, written off n = n) →
  Forall (command_ok ft) script → Z.of_nat (length script) + 2 < 2 ^ 32 → fresh s0 →
  begin_transfer written bufsiz send_ok ft false s0 = Ret (Receive, s1) →
  rtc (system_step written bufsiz send_ok ft script) (0%nat, s1) (k, s) →
  ∃ b, (k <= b <= S k)%nat ∧ (b <= length script)%nat ∧ block s = Z.of_nat b + 1 ∧
    image_of (file s) = foldl exec (image_of (file s0)) (take b script) ∧
    (k = length script → ∀ blk last, 0 <= blk < 2 ^ 32 →
      ∃ s2 s3, handle_event written bufsiz send_ok ft false (Packet (raw KDP_EOF blk [])) s = Ret (Final_ack, s2) ∧
        final_ack written bufsiz send_ok false last s2 = Ret (tt, s3) ∧
        image_of (file s3) = foldl exec (image_of (file s0)) script).
Proof.
  intros Hft Hdisk Hok Hlen Hf Hbeg Hr.
  destruct (reachable_invariant written bufsiz send_ok ft Hft Hdisk script Hok Hlen s0 s1 k s Hf Hbeg Hr) as (b & Hkb & Hbl & Hw & _).
  exists b. split; [done|]. split; [done|]. split; [apply Hw|]. split; [apply Hw|].
  intros -> blk last Hblk. replace b with (length script) in * by lia.
  destruct (eof_run written bufsiz send_ok ft Hft blk _ _ s Hw Hblk) as (s2 & E2 & Hw2).
  destruct (final_run written bufsiz send_ok _ _ last s2 Hw2) as (s3 & E3 & Him). exists s2, s3. split; [done|]. split; [done|].
  rewrite Him. unfold reached. by rewrite firstn_all.
Qed.


(** C24: Text survives the conversion to netascii and back: the blocks that
    [read_ahead] makes of a text, of any size, are written by [write_behind] as the text, whatever the
    boundaries of the blocks cut. *)
Theorem netascii_roundtrip (written : Z → Z → Z) (bufsiz seg : nat) (input : bytes) (f : FILE) :
  (∀ off n, written off n = n) → (1 <= seg)%nat → 0 <= (view f).2 →
  image_of (fflush written (write_blocks written bufsiz (read_blocks (S (2 * length input)) seg false (-1) input) (-1, f)).2) =
    exec (view f) (Write input).
Proof.
  intros Hdisk Hs H0. rewrite write_blocks_concat, read_blocks_concat; [|done|done|].
  - destruct (put_ascii_encoded written bufsiz Hdisk (view f) input [] (-1) f H0 ltac:(done)) as (p & f' & E & Hv).
    { split; [|done]. generalize (view f). intros [c o]. cbn. by rewrite Z.add_0_r. }
    cbn [in_middle app]. rewrite E. cbn [snd]. destruct (fflush_view written Hdisk f') as [-> _]. done.
  - cbn [in_middle app]. assert (H : (length (to_netascii input) <= 2 * length input)%nat); [|lia].
    induction input as [|c l IH]; [done|]. change (to_netascii (c :: l)) with (to_netascii1 c ++ to_netascii l).
    rewrite length_app. unfold to_netascii1. destruct (c =? 10), (c =? 13); simpl length; lia.
Qed.

(** ** A transfer *)

Definition sample_bf : bf := Bf BF_FREE (replicate MAXIMUM_KDP_PKTSIZE 0).
Definition sample_server : server := Server sample_bf sample_bf false false (-1) (File ∅ 0 []) 0 0 [] [].
Definition sample_features : features := default_features.
Definition sample_script : list command := [Seek 100; Write [1; 2; 3]].
Definition sample_disk (_ n : Z) : Z := n.
Definition sample_send (_ : list bytes) : bool := true.
Definition sample_handle (j : Z) (c : command) : ST server next :=
  handle_event sample_disk 1024 sample_send sample_features false (Packet (packet sample_features j c)).

Definition ready (m : outcome (next * server)) : bool := match m with Ret (Receive, _) => true | _ => false end.
Definition after (m : outcome (next * server)) : server := match m with Ret (_, s) => s | _ => sample_server end.
Lemma ready_after m : ready m = true → m = Ret (Receive, after m).
Proof. destruct m as [[[] s]| |]; done. Qed.

Definition sample_begun : server := after (begin_transfer sample_disk 1024 sample_send sample_features false sample_server).
Definition sample_sought : server := after (sample_handle 1 (Seek 100) sample_begun).
Definition sample_stored : server := after (sample_handle 2 (Write [1; 2; 3]) sample_sought).

Lemma sample_begins :
  begin_transfer sample_disk 1024 sample_send sample_features false sample_server = Ret (Receive, sample_begun).
Proof. apply ready_after. vm_compute. reflexivity. Qed.
Lemma sample_script_ok : Forall (command_ok sample_features) sample_script.
Proof. repeat constructor; vm_compute; intuition discriminate. Qed.
Lemma sample_fresh : fresh sample_server.
Proof. repeat split; vm_compute; intuition discriminate. Qed.
Lemma sample_transfer :
  rtc (system_step sample_disk 1024 sample_send sample_features sample_script) (0%nat, sample_begun) (2%nat, sample_stored).
Proof.
  apply rtc_l with (0%nat, sample_sought).
  { apply (delivered _ _ _ _ _ _ _ 0 (Seek 100)); [done|lia|]. apply ready_after. vm_compute. reflexivity. }
  apply rtc_l with (1%nat, sample_sought).
  { apply client_acked; [simpl; lia|]. apply (bool_decide_unpack _). vm_compute. done. }
  apply rtc_l with (1%nat, sample_stored).
  { apply (delivered _ _ _ _ _ _ _ 1 (Write [1; 2; 3])); [done|lia|]. apply ready_after. vm_compute. reflexivity. }
  apply rtc_once, client_acked; [simpl; lia|]. apply (bool_decide_unpack _). vm_compute. done.
Qed.

Lemma transfer_correct_witness : ∃ b, (2 <= b <= 3)%nat ∧ block sample_stored = Z.of_nat b + 1 ∧
  image_of (file sample_stored) = foldl exec (∅, 0) (take b sample_script).
Proof.
  destruct (transfer_correct sample_disk 1024 sample_send sample_features sample_script sample_server sample_begun 2 sample_stored)
    as (b & Hb & _ & Hn & Him & _).
  - vm_compute. split; discriminate.
  - done.
  - exact sample_script_ok.
  - vm_compute. done.
  - exact sample_fresh.
  - exact sample_begins.
  - exact sample_transfer.
  - exists b. split; [exact Hb|]. split; [exact Hn|]. exact Him.
Defined.


Definition sample_fs : filesystem := Filesystem (λ _, ENOENT) (λ _, 0) 0.
Definition sample_request : bytes := be16 WRQ ++ chars "core" ++ [0] ++ chars "octet" ++ [0].
Definition sample_buf : bytes := sample_request ++ replicate (MAXIMUM_KDP_PKTSIZE - 13) 0.
Lemma kdumpd_safe_witness :
  first_packet sample_fs (λ _, []) false sample_buf 13 = Ret (Serve false default_features (chars "core")) ∧
  accepted sample_fs (Serve false default_features (chars "core")) ∧
  returns (recvfile sample_disk 1024 sample_send default_features false
    [Packet (packet sample_features 1 (Seek 100)); Alarm; Packet (raw KDP_EOF 2 [])] Alarm sample_server) (λ '(_, s'), bounded s').
Proof.
  assert (E : first_packet sample_fs (λ _, []) false sample_buf 13 = Ret (Serve false default_features (chars "core")))
    by (vm_compute; reflexivity).
  split; [exact E|].
  assert (H := kdumpd_safe sample_fs (λ _, []) false sample_disk 1024 sample_send sample_buf 13 sample_server
    [Packet (packet sample_features 1 (Seek 100)); Alarm; Packet (raw KDP_EOF 2 [])] Alarm
    ltac:(split; [intros n|]; discriminate) ltac:(vm_compute; reflexivity) ltac:(vm_compute; discriminate) (proj1 sample_fresh)).
  rewrite E in H. exact H.
Defined.

Lemma netascii_roundtrip_witness :
  image_of (fflush sample_disk (write_blocks sample_disk 1024 (read_blocks 9 2 false (-1) [65; 10; 13; 10]) (-1, File ∅ 0 [])).2) =
    exec (∅, 0) (Write [65; 10; 13; 10]).
Proof. apply (netascii_roundtrip sample_disk 1024 2 [65; 10; 13; 10] (File ∅ 0 [])); [done|lia|done]. Defined.
