(* ===== verification/TcpSeq.v ===== *)
(** * TcpSeq: sequence numbers of TCP (bsd/netinet/tcp_seq.h)

    The kernel compares the 32-bit sequence numbers of TCP by the sign of their
    difference. Numbers less than [2 ^ 31] apart compare like the unbounded
    numbers they are reductions of: the components keep unbounded numbers in
    their specifications and relate them to the fields by [u32]. Here are the
    comparisons, and intervals of unbounded sequence numbers. *)

From S2P Require Import Prelude.

(** ** The comparisons *)

Definition SEQ_LT (a b : Z) : bool := s32 (a - b) <? 0.
Definition SEQ_LEQ (a b : Z) : bool := s32 (a - b) <=? 0.
Definition SEQ_GT (a b : Z) : bool := 0 <? s32 (a - b).
Definition SEQ_GEQ (a b : Z) : bool := 0 <=? s32 (a - b).
Definition SEQ_MIN (a b : Z) : Z := if SEQ_LT a b then a else b.
Definition SEQ_MAX (a b : Z) : Z := if SEQ_GT a b then a else b.

Definition s16 (x : Z) : Z := (x + 2 ^ 15) mod 2 ^ 16 - 2 ^ 15.
Lemma s16_id x : - 2 ^ 15 <= x < 2 ^ 15 → s16 x = x.
Proof. unfold s16. intros H. change (2 ^ 15) with 32768 in *. change (2 ^ 16) with 65536. zlia. Qed.

Definition near (a b : Z) : Prop := - 2 ^ 31 < a - b < 2 ^ 31.

Lemma u32_diff a b : near a b → s32 (u32 a - u32 b) = a - b.
Proof. unfold near, s32, u32. intros H. change (2 ^ 31) with 2147483648 in *. change (2 ^ 32) with 4294967296. zlia. Qed.
Lemma u32_diff_add a b n : near (a + n) b → s32 (u32 a + n - u32 b) = a + n - b.
Proof. unfold near, s32, u32. intros H. change (2 ^ 31) with 2147483648 in *. change (2 ^ 32) with 4294967296. zlia. Qed.
Lemma u32_diff_add2 a b n m : near (a + n) (b + m) → s32 (u32 a + n - (u32 b + m)) = a + n - (b + m).
Proof. unfold near, s32, u32. intros H. change (2 ^ 31) with 2147483648 in *. change (2 ^ 32) with 4294967296. zlia. Qed.
Lemma s32_count n a b : - 2 ^ 31 <= n + (a - b) < 2 ^ 31 → s32 (n + (u32 a - u32 b)) = n + (a - b).
Proof. unfold s32, u32. intros H. change (2 ^ 31) with 2147483648 in *. change (2 ^ 32) with 4294967296. zlia. Qed.
Lemma s32_discount n a b : - 2 ^ 31 <= n - (a - b) < 2 ^ 31 → s32 (n - (u32 a - u32 b)) = n - (a - b).
Proof. unfold s32, u32. intros H. change (2 ^ 31) with 2147483648 in *. change (2 ^ 32) with 4294967296. zlia. Qed.
Lemma s32_id x : - 2 ^ 31 <= x < 2 ^ 31 → s32 x = x.
Proof. unfold s32. intros H. change (2 ^ 31) with 2147483648 in *. change (2 ^ 32) with 4294967296. zlia. Qed.
Lemma u32_id x : 0 <= x < 2 ^ 32 → u32 x = x.
Proof. apply Z.mod_small. Qed.
Lemma s32_u32 x : s32 (u32 x) = s32 x.
Proof. unfold s32, u32. change (2 ^ 31) with 2147483648. change (2 ^ 32) with 4294967296. zlia. Qed.
Lemma u32_add a b : u32 (u32 a + b) = u32 (a + b).
Proof. unfold u32. by rewrite Zplus_mod_idemp_l. Qed.
Lemma u32_add_r a b : u32 (a + u32 b) = u32 (a + b).
Proof. unfold u32. by rewrite Zplus_mod_idemp_r. Qed.
Lemma u32_sub a b : u32 (u32 a - u32 b) = u32 (a - b).
Proof. unfold u32. by rewrite Zminus_mod_idemp_l, Zminus_mod_idemp_r. Qed.
Lemma u32_range x : 0 <= u32 x < 2 ^ 32.
Proof. apply Z.mod_pos_bound. lia. Qed.
Lemma u32_near_inj a b : near a b → u32 a = u32 b → a = b.
Proof. intros H E. assert (E' := u32_diff a b H). rewrite E, Z.sub_diag in E'. change (s32 0) with 0 in E'. lia. Qed.

Lemma seq_lt a b : near a b → SEQ_LT (u32 a) (u32 b) = (a <? b).
Proof. intros H. unfold SEQ_LT. rewrite u32_diff by done. apply eq_true_iff_eq. lia. Qed.
Lemma seq_leq a b : near a b → SEQ_LEQ (u32 a) (u32 b) = (a <=? b).
Proof. intros H. unfold SEQ_LEQ. rewrite u32_diff by done. apply eq_true_iff_eq. lia. Qed.
Lemma seq_gt a b : near a b → SEQ_GT (u32 a) (u32 b) = (b <? a).
Proof. intros H. unfold SEQ_GT. rewrite u32_diff by done. apply eq_true_iff_eq. lia. Qed.
Lemma seq_geq a b : near a b → SEQ_GEQ (u32 a) (u32 b) = (b <=? a).
Proof. intros H. unfold SEQ_GEQ. rewrite u32_diff by done. apply eq_true_iff_eq. lia. Qed.
Lemma seq_min a b : near a b → SEQ_MIN (u32 a) (u32 b) = u32 (Z.min a b).
Proof. intros H. unfold SEQ_MIN. rewrite seq_lt by done. destruct (Z.ltb_spec a b); f_equal; lia. Qed.
Lemma seq_max a b : near a b → SEQ_MAX (u32 a) (u32 b) = u32 (Z.max a b).
Proof. intros H. unfold SEQ_MAX. rewrite seq_gt by done. destruct (Z.ltb_spec b a); f_equal; lia. Qed.
Lemma seq_eq a b : near a b → (u32 a =? u32 b) = (a =? b).
Proof.
  intros H. apply eq_true_iff_eq. rewrite !Z.eqb_eq. split; [by apply u32_near_inj|by intros ->].
Qed.

(** Rewriting the comparisons of reduced numbers, where [lia] shows that they
    are near. *)
Ltac near := unfold near; lia.
Ltac seqs := repeat first
  [ rewrite seq_lt by near | rewrite seq_leq by near | rewrite seq_gt by near | rewrite seq_geq by near
  | rewrite seq_min by near | rewrite seq_max by near | rewrite seq_eq by near ].

(** How far the numbers of one connection are apart: more than the largest window. *)
Definition SPAN : Z := 2 ^ 30 - 1.
Ltac span := unfold SPAN in *; change (2 ^ 30) with 1073741824 in *; change (2 ^ 31) with 2147483648 in *.

(** ** Intervals *)

(** [x] is in one of the intervals. *)
Definition covered (x : Z) (l : list (Z * Z)) : Prop := ∃ b, b ∈ l ∧ b.1 <= x < b.2.

Lemma covered_nil x : covered x [] ↔ False.
Proof. split; [|done]. intros (b & Hb & _). by apply elem_of_nil in Hb. Qed.
Lemma covered_cons x b l : covered x (b :: l) ↔ b.1 <= x < b.2 ∨ covered x l.
Proof.
  split.
  - intros (b' & Hb & Hx). apply elem_of_cons in Hb as [->|Hb]; [by left|right]. by exists b'.
  - intros [Hx|(b' & Hb & Hx)]; [exists b|exists b']; (split; [|done]); apply elem_of_cons; auto.
Qed.
Lemma covered_app x l l' : covered x (l ++ l') ↔ covered x l ∨ covered x l'.
Proof. induction l as [|b l IH]; cbn [app]; rewrite ?covered_nil, ?covered_cons; [tauto|]. rewrite IH. tauto. Qed.
Lemma covered_perm x l l' : l ≡ₚ l' → covered x l ↔ covered x l'.
Proof. intros H. unfold covered. by setoid_rewrite H. Qed.

(** The intervals in increasing order from [lo] to [hi], none of them empty. *)
Fixpoint chain (lo hi : Z) (l : list (Z * Z)) : Prop :=
  match l with
  | [] => lo <= hi
  | b :: l => lo <= b.1 ∧ b.1 < b.2 ∧ chain b.2 hi l
  end.

Lemma chain_le lo hi l : chain lo hi l → lo <= hi.
Proof. revert lo. induction l as [|b l IH]; simpl; intros lo H; [done|]. destruct H as (? & ? & H%IH). lia. Qed.
Lemma chain_app lo hi l l' : chain lo hi (l ++ l') ↔ ∃ mid, chain lo mid l ∧ chain mid hi l'.
Proof.
  revert lo. induction l as [|b l IH]; intros lo; simpl.
  - split; [intros H; exists lo; split; [lia|done]|]. intros (mid & H & H'). destruct l' as [|b l']; simpl in *; [lia|].
    destruct H' as (? & ? & ?). split; [lia|done].
  - rewrite IH. split; [intros (? & ? & mid & ? & ?); exists mid; tauto|intros (mid & (? & ? & ?) & ?); split_and!; [done..|]; by exists mid].
Qed.
Lemma chain_weaken lo hi lo' hi' l : chain lo hi l → lo' <= lo → hi <= hi' → chain lo' hi' l.
Proof.
  revert lo lo'. induction l as [|b l IH]; simpl; intros lo lo' H H1 H2; [lia|]. destruct H as (? & ? & ?).
  split_and!; [lia|done|]. eapply IH; [done|lia|done].
Qed.
Lemma chain_covered lo hi l x : chain lo hi l → covered x l → lo <= x < hi.
Proof.
  revert lo. induction l as [|b l IH]; intros lo H; rewrite ?covered_nil, ?covered_cons; [done|].
  destruct H as (? & ? & H). assert (Hle := chain_le _ _ _ H). intros [Hx|Hx]; [lia|]. specialize (IH _ H Hx). lia.
Qed.
Lemma chain_elem lo hi l b : chain lo hi l → b ∈ l → lo <= b.1 ∧ b.1 < b.2 ∧ b.2 <= hi.
Proof.
  intros H (l1 & l2 & ->)%list_elem_of_split. apply chain_app in H as (mid & H1%chain_le & ? & ? & H2%chain_le). lia.
Qed.

(** The number of sequence numbers in the intervals. *)
Definition measure (l : list (Z * Z)) : Z := foldr (λ b n, (b.2 - b.1) + n) 0 l.
Lemma measure_app l l' : measure (l ++ l') = measure l + measure l'.
Proof. induction l as [|b l IH]; [done|]. cbn [app]. unfold measure in *. cbn [foldr]. lia. Qed.
Lemma chain_measure lo hi l : chain lo hi l → 0 <= measure l <= hi - lo.
Proof.
  revert lo. induction l as [|b l IH]; simpl; intros lo H; [lia|]. destruct H as (? & ? & H%IH). fold (measure l). lia.
Qed.

(** It is the number of elements that are covered, so that fewer of them are a
    smaller measure. *)
#[export] Instance covered_dec x l : Decision (covered x l).
Proof.
  induction l as [|b l IH]; [right; intros H; by apply covered_nil in H|].
  destruct (decide (b.1 <= x < b.2)); [left; apply covered_cons; by left|].
  destruct IH; [left; apply covered_cons; by right|right; rewrite covered_cons; tauto].
Defined.

Lemma count_impl (P Q : Z → Prop) `{∀ x, Decision (P x), ∀ x, Decision (Q x)} (l : list Z) :
  (∀ x, x ∈ l → P x → Q x) → (length (filter P l) <= length (filter Q l))%nat.
Proof.
  induction l as [|x l IH]; intros HPQ; [done|]. specialize (IH ltac:(intros; apply HPQ; [by right|done])). rewrite !filter_cons.
  destruct (decide (P x)) as [HP|]; [rewrite decide_True by (apply HPQ; [left|done]); simpl; lia|]. destruct (decide (Q x)); simpl; lia.
Qed.
Lemma filter_none (P : Z → Prop) `{∀ x, Decision (P x)} (l : list Z) : (∀ x, x ∈ l → ¬ P x) → filter P l = [].
Proof.
  induction l as [|x l IH]; intros HP; [done|]. rewrite filter_cons, decide_False by (apply HP; left). apply IH. intros y Hy. apply HP. by right.
Qed.
Lemma filter_same (P Q : Z → Prop) `{∀ x, Decision (P x), ∀ x, Decision (Q x)} (l : list Z) :
  (∀ x, x ∈ l → P x ↔ Q x) → filter P l = filter Q l.
Proof.
  induction l as [|x l IH]; intros HPQ; [done|]. specialize (IH ltac:(intros; apply HPQ; by right)). rewrite !filter_cons, IH.
  assert (Hx := HPQ x ltac:(left)). destruct (decide (P x)), (decide (Q x)); tauto.
Qed.
Lemma chain_count lo hi l : chain lo hi l → measure l = Z.of_nat (length (filter (λ x, covered x l) (seqZ lo (hi - lo)))).
Proof.
  revert lo. induction l as [|b l IH]; intros lo Hc.
  - unfold measure. cbn [foldr]. rewrite filter_none; [done|]. intros x _ H. by apply covered_nil in H.
  - destruct Hc as (H1 & H2 & Hc). assert (Hle := chain_le _ _ _ Hc). specialize (IH _ Hc).
    replace (hi - lo) with ((b.1 - lo) + ((b.2 - b.1) + (hi - b.2))) by lia.
    rewrite !seqZ_app, !filter_app, !length_app by lia.
    rewrite filter_none, filter_all.
    + replace (lo + (b.1 - lo) + (b.2 - b.1)) with b.2 by lia.
      assert (E : filter (λ x, covered x (b :: l)) (seqZ b.2 (hi - b.2)) = filter (λ x, covered x l) (seqZ b.2 (hi - b.2))).
      { apply filter_same. intros x Hx%elem_of_seqZ. rewrite covered_cons. split; [intros [?|?]; [lia|done]|by right]. }
      rewrite E, length_seqZ. cbn [length]. change (measure (b :: l)) with (b.2 - b.1 + measure l). lia.
    + intros x Hx%elem_of_seqZ. apply covered_cons. left. lia.
    + intros x Hx%elem_of_seqZ. rewrite covered_cons. intros [?|Hx']; [lia|]. apply (chain_covered _ _ _ _ Hc) in Hx'. lia.
Qed.
Lemma chain_measure_sub lo hi l l' : chain lo hi l → chain lo hi l' → (∀ x, covered x l' → covered x l) → measure l' <= measure l.
Proof.
  intros H H' Hs. rewrite (chain_count _ _ _ H), (chain_count _ _ _ H'). apply inj_le, count_impl. auto.
Qed.
