(* ===== verification/TcpReass.v ===== *)
(** * TcpReass: receiving data in TCP (bsd/netinet/tcp_input.c, tcp_sack.c)

    The part of [tcp_input] that takes the data of a segment of an established
    connection: the segment is trimmed to the window ([trim_head],
    [trim_tail]), its data is given to the socket at once or queued and
    presented in order ([tcp_reass]), the received blocks are noted for the
    SACK option ([tcp_update_sack_list]), and a FIN is processed. The options
    [tcp_output] writes from these blocks are [sack_option]. An mbuf chain is
    the list of its octets. The counters for statistics, the growth of the
    socket buffer, the urgent pointer, the timers, and a new connection request
    in TIME_WAIT are left out. *)

From S2P Require Import Prelude TcpSeq.

(** ** Constants (tcp.h, tcp_var.h, tcp_fsm.h) *)

Definition TH_FIN : Z := 0x01.
Definition TH_SYN : Z := 0x02.
Definition TH_PUSH : Z := 0x08.
Definition TF_ACKNOW : Z := 0x00001.
Definition TF_DELACK : Z := 0x00002.
Definition TF_STREAMING_ON : Z := 0x2000000.
Definition TF_STRETCHACK : Z := 0x80000000.
Definition TF_RCVUNACK_WAITSS : Z := 0x2.
Definition TF_LAST_IS_PSH : Z := 0x10.
Definition TF_REASS_INPROG : Z := 0x800000.
Definition TCP_FORCED_ACKS_COUNT : Z := 16.
Definition MAX_SACK_BLKS : nat := 6.
Definition MAX_TCPOPTLEN : Z := 40.
Definition TCPOLEN_SACK : Z := 8.
Definition TCPOPT_NOP : Z := 1.
Definition TCPOPT_SACK : Z := 5.
Definition TCPS_SYN_RECEIVED : Z := 3.
Definition TCPS_ESTABLISHED : Z := 4.
Definition TCPS_CLOSE_WAIT : Z := 5.
Definition TCPS_FIN_WAIT_1 : Z := 6.
Definition TCPS_CLOSING : Z := 7.
Definition TCPS_FIN_WAIT_2 : Z := 9.
Definition TCPS_TIME_WAIT : Z := 10.
Definition TCPS_HAVEESTABLISHED (s : Z) : bool := TCPS_ESTABLISHED <=? s.
Definition TCPS_HAVERCVDFIN (s : Z) : bool := TCPS_TIME_WAIT <=? s.

(** Flags: set, clear, test. *)
Definition has (flags f : Z) : bool := truthy (Z.land flags f).

(** ** State *)

(** A segment: its header, its length and its data; also an entry of the
    reassembly queue (struct tseg_qent). *)
Record segment := Segment { th_seq : Z; th_flags : Z; tqe_len : Z; tqe_m : bytes }.
#[export] Instance eta_segment : Eta segment := λ s, Segment (th_seq s) (th_flags s) (tqe_len s) (tqe_m s).

Record sackblk := Sackblk { sb_start : Z; sb_end : Z }.

(** The fields of struct tcpcb for the receiving side, with the buffer and the
    state of the socket. *)
Record tcpcb := Tcpcb {
  rcv_nxt : Z;
  rcv_wnd : Z;
  rcv_high : Z;
  t_state : Z;
  t_flags : Z;
  t_flagsext : Z;
  t_segq : list segment;
  t_reassqlen : Z;
  t_dsack_lseq : Z;
  t_dsack_rseq : Z;
  rcv_numsacks : Z;
  sackblks : list sackblk;
  t_forced_acks : Z;
  rcv_by_unackwin : Z;
  rcv_by_unackhalfwin : Z;
  rcv_unackwin : Z;
  rcv_waitforss : Z;
  so_rcv : bytes;
  cantrcvmore : bool }.
#[export] Instance eta_tcpcb : Eta tcpcb := λ t,
  Tcpcb (rcv_nxt t) (rcv_wnd t) (rcv_high t) (t_state t) (t_flags t) (t_flagsext t) (t_segq t) (t_reassqlen t)
    (t_dsack_lseq t) (t_dsack_rseq t) (rcv_numsacks t) (sackblks t) (t_forced_acks t) (rcv_by_unackwin t)
    (rcv_by_unackhalfwin t) (rcv_unackwin t) (rcv_waitforss t) (so_rcv t) (cantrcvmore t).
Abbreviation TCP := (ST tcpcb).

(** What the environment decides: the time and the interval of the stretched
    acknowledgements, the sizes of the socket buffer, whether a class of mbufs
    of the packet is under pressure, whether the acknowledgement may be
    delayed, whether acknowledgements are limited, and whether the users of
    the socket are gone. *)
Record environment := Environment {
  tcp_now : Z;
  tcp_rcvunackwin : Z;
  sb_hiwat : Z;
  tcp_autorcvbuf_max : Z;
  under_pressure : bool;
  delay_ack : bool;
  ack_ratelimited : bool;
  close_it : bool }.

Section receiver.
Context (env : environment).

Definition set_flags (f : Z) : TCP unit := modify (λ t, t <| t_flags := Z.lor (t_flags t) f |>).
Definition acknow : TCP unit := set_flags TF_ACKNOW.

(** ** The SACK list *)

Definition tcp_reset_stretch_ack : TCP unit :=
  modify (λ t, t <| t_flags := Z.ldiff (t_flags t) (Z.lor TF_STRETCHACK TF_STREAMING_ON) |>
                 <| rcv_by_unackwin := 0 |>
                 <| rcv_by_unackhalfwin := 0 |>
                 <| rcv_unackwin := u32 (tcp_now env + tcp_rcvunackwin env) |>
                 <| t_flagsext := Z.lor (t_flagsext t) TF_RCVUNACK_WAITSS |>
                 <| rcv_waitforss := 0 |>).

(** The pass over the blocks: those that [head_blk] touches are merged into
    it, the others saved. *)
Fixpoint merge_blocks (nxt : Z) (blks : list sackblk) (head_blk : sackblk) : sackblk * list sackblk :=
  match blks with
  | [] => (head_blk, [])
  | b :: blks =>
      let start := sb_start b in
      let bend := sb_end b in
      if SEQ_GEQ start bend || SEQ_LEQ start nxt then merge_blocks nxt blks head_blk
      else if SEQ_LEQ (sb_start head_blk) bend && SEQ_GEQ (sb_end head_blk) start then
        merge_blocks nxt blks
          (Sackblk (if SEQ_GT (sb_start head_blk) start then start else sb_start head_blk)
                   (if SEQ_LT (sb_end head_blk) bend then bend else sb_end head_blk))
      else
        let '(head_blk, saved) := merge_blocks nxt blks head_blk in (head_blk, b :: saved)
  end.

(** The blocks [l] are copied to the start of the array. *)
Definition copy_blocks (l : list sackblk) : TCP unit := λ t,
  if (length (sackblks t) <? length l)%nat then Crash
  else Ret (tt, t <| sackblks := l ++ drop (length l) (sackblks t) |>).

Definition tcp_update_sack_list (rcv_start rcv_end : Z) : TCP unit :=
  t ← get;
  blks ← lift (of_opt (if (Z.to_nat (rcv_numsacks t) <=? length (sackblks t))%nat
                       then Some (take (Z.to_nat (rcv_numsacks t)) (sackblks t)) else None));
  let '(head_blk, saved) := merge_blocks (rcv_nxt t) blks (Sackblk rcv_start rcv_end) in
  let l := if SEQ_GT (sb_start head_blk) (rcv_nxt t)
           then head_blk :: (if (MAX_SACK_BLKS <=? length saved)%nat then take (length saved - 1) saved else saved)
           else saved in
  copy_blocks l;;
  modify (λ t, t <| rcv_numsacks := Z.of_nat (length l) |>);;
  t ← get;
  when (has (t_flags t) TF_STRETCHACK && (0 <? rcv_numsacks t)) tcp_reset_stretch_ack;;
  when (0 <? rcv_numsacks t) (modify (λ t, t <| t_forced_acks := TCP_FORCED_ACKS_COUNT |>)).

Definition tcp_clean_sackreport : TCP unit :=
  modify (λ t, t <| rcv_numsacks := 0 |> <| sackblks := replicate MAX_SACK_BLKS (Sackblk 0 0) |>).

(** The SACK option of [tcp_output], after [optlen] octets of other options:
    the padding, the header and the blocks. *)
Definition sack_option (optlen : Z) : TCP bytes :=
  t ← get;
  let dsack := negb (t_dsack_lseq t =? 0) && negb (t_dsack_rseq t =? 0) in
  if ((0 <? rcv_numsacks t) || dsack) && (TCPOLEN_SACK <=? MAX_TCPOPTLEN - optlen - 2) then
    let nsack := Z.min ((MAX_TCPOPTLEN - optlen - 2) / TCPOLEN_SACK) (rcv_numsacks t + bool_int dsack) in
    let sackoptlen := 2 + nsack * TCPOLEN_SACK in
    let padlen := (MAX_TCPOPTLEN - optlen - sackoptlen) mod 4 in
    let send_dsack := dsack && (0 <? nsack) && ((rcv_numsacks t =? 0) || (1 <? nsack)) in
    let nsack := if send_dsack then nsack - 1 else nsack in
    if negb ((nsack =? 0) || (nsack <=? rcv_numsacks t)) then lift Crash
    else
      blks ← lift (of_opt (if (Z.to_nat nsack <=? length (sackblks t))%nat
                           then Some (take (Z.to_nat nsack) (sackblks t)) else None));
      mret (replicate (Z.to_nat padlen) TCPOPT_NOP ++ [TCPOPT_SACK; sackoptlen] ++
            (if send_dsack then be32 (t_dsack_lseq t) ++ be32 (t_dsack_rseq t) else []) ++
            concat (map (λ b, be32 (sb_start b) ++ be32 (sb_end b)) blks))
  else mret [].

(** ** The reassembly queue *)

Definition qlimit : Z := Z.min (Z.max 100 (Z.shiftr (sb_hiwat env) 10)) (Z.shiftr (tcp_autorcvbuf_max env) 10).

(** The entries up to the last one that does not begin after [seq], and the
    entries from [q] on. *)
Fixpoint find_place (seq : Z) (l : list segment) : list segment * list segment :=
  match l with
  | [] => ([], [])
  | q :: l' =>
      if SEQ_GT (th_seq q) seq then ([], l)
      else let '(before, q') := find_place seq l' in (q :: before, q')
  end.

(** [m_adj] for a positive and for a negative count. *)
Definition m_adj (i : Z) (m : bytes) : bytes :=
  if 0 <=? i then drop (Z.to_nat i) m else take (length m - Z.to_nat (- i)) m.

(** How many octets from [seq] on the entries before the place hold. *)
Definition overlap (before : list segment) (seq : Z) : Z :=
  match last before with Some p => s32 (th_seq p + tqe_len p - seq) | None => 0 end.

(** The following entries that the segment overlaps are trimmed or dequeued. *)
Fixpoint trim_following (seq tlen : Z) (dsack_set : bool) (q : list segment) : TCP (list segment) :=
  match q with
  | [] => mret []
  | s :: rest =>
      let i := s32 (seq + tlen - th_seq s) in
      if i <=? 0 then mret q
      else
        when ((1 <? i) && negb dsack_set)
          (modify (λ t,
             if t_dsack_lseq t =? 0 then
               t <| t_dsack_lseq := th_seq s |> <| t_dsack_rseq := u32 (th_seq s + Z.min i (tqe_len s)) |>
             else t <| t_dsack_rseq := u32 (t_dsack_rseq t + Z.min i (tqe_len s)) |>));;
        if i <? tqe_len s then
          mret (Segment (u32 (th_seq s + i)) (th_flags s) (tqe_len s - i) (m_adj i (tqe_m s)) :: rest)
        else
          modify (λ t, t <| t_reassqlen := t_reassqlen t - 1 |>);;
          trim_following seq tlen dsack_set rest
  end.

(** Giving the data of a segment to the socket. *)
Definition sbappendstream (s : segment) : TCP unit :=
  modify (λ t, t <| t_flagsext := if has (th_flags s) TH_PUSH then Z.lor (t_flagsext t) TF_LAST_IS_PSH
                                  else Z.ldiff (t_flagsext t) TF_LAST_IS_PSH |>
                 <| so_rcv := so_rcv t ++ tqe_m s |>).

(** The loop that presents the queue [l]; [flags] are those of the last
    segment. *)
Fixpoint present_loop (l : list segment) (flags : Z) : TCP Z :=
  match l with
  | [] => mret flags
  | q :: l =>
      t ← get;
      if th_seq q =? rcv_nxt t then
        modify (λ t, t <| rcv_nxt := u32 (rcv_nxt t + tqe_len q) |> <| t_segq := l |>);;
        (if cantrcvmore t then skip else sbappendstream q);;
        modify (λ t, t <| t_reassqlen := t_reassqlen t - 1 |>);;
        present_loop l (Z.land (th_flags q) TH_FIN)
      else mret flags
  end.

Definition present : TCP Z :=
  t ← get;
  if negb (TCPS_HAVEESTABLISHED (t_state t)) then mret 0
  else
    match t_segq t with
    | [] => mret 0
    | q :: _ =>
        if negb (th_seq q =? rcv_nxt t) || has (t_flagsext t) TF_REASS_INPROG then mret 0
        else
          modify (λ t, t <| t_flagsext := Z.lor (t_flagsext t) TF_REASS_INPROG |>);;
          flags ← present_loop (t_segq t) 0;
          modify (λ t, t <| t_flagsext := Z.ldiff (t_flagsext t) TF_REASS_INPROG |>);;
          mret flags
    end.

(** The segment at its place, of which the entries before hold [i] octets. The
    result is the flags and the length that is left in [*tlenp]. *)
Definition enqueue (th : segment) (before q : list segment) (i : Z) : TCP (Z * Z) :=
  when (1 <? i)
    (modify (λ t, t <| t_dsack_lseq := th_seq th |>
                    <| t_dsack_rseq := u32 (th_seq th + Z.min i (tqe_len th)) |>));;
  if (0 <? i) && (tqe_len th <=? i) then
    modify (λ t, t <| t_reassqlen := t_reassqlen t - 1 |>);;
    flags ← present;
    mret (flags, tqe_len th)
  else
    let te := if 0 <? i
              then Segment (u32 (th_seq th + i)) (th_flags th) (tqe_len th - i) (m_adj i (tqe_m th)) else th in
    q ← trim_following (th_seq te) (tqe_len te) (1 <? i) q;
    modify (λ t, t <| t_segq := before ++ te :: q |>);;
    flags ← present;
    mret (flags, tqe_len te).

Definition tcp_reass (th : segment) : TCP (Z * Z) :=
  tcp_reset_stretch_ack;;
  modify (λ t, t <| t_forced_acks := TCP_FORCED_ACKS_COUNT |>);;
  t ← get;
  if negb (th_seq th =? rcv_nxt t) && (under_pressure env || (qlimit <=? t_reassqlen t + 1)) then mret (0, 0)
  else
    modify (λ t, t <| t_reassqlen := t_reassqlen t + 1 |>);;
    let '(before, q) := find_place (th_seq th) (t_segq t) in
    enqueue th before q (overlap before (th_seq th)).

(** ** A segment of an established connection *)

(** Data before [rcv_nxt]; the result is the rest of the segment with
    [thflags], the copy of its flags that the code goes on with. *)
Definition trim_head (th : segment) : TCP (segment * Z) :=
  t ← get;
  let thflags := th_flags th in
  let todrop := s32 (rcv_nxt t - th_seq th) in
  if todrop <=? 0 then mret (th, thflags)
  else
    let syn := has thflags TH_SYN in
    let thflags := if syn then Z.ldiff thflags TH_SYN else thflags in
    let seq := if syn then u32 (th_seq th + 1) else th_seq th in
    let todrop := if syn then todrop - 1 else todrop in
    let all := (tqe_len th <? todrop) || ((todrop =? tqe_len th) && negb (has thflags TH_FIN)) in
    when (all && negb (syn && ack_ratelimited env)) acknow;;
    let thflags := if all then Z.ldiff thflags TH_FIN else thflags in
    let todrop := if all then tqe_len th else todrop in
    when (1 <? todrop)
      (modify (λ t, t <| t_dsack_lseq := seq |> <| t_dsack_rseq := u32 (seq + todrop) |>);; acknow);;
    mret (Segment (u32 (seq + todrop)) (th_flags th) (tqe_len th - todrop) (m_adj todrop (tqe_m th)), thflags).

(** Data after the window; nothing is left of a segment that is dropped. *)
Definition trim_tail (th : segment) (thflags : Z) : TCP (option (segment * Z)) :=
  t ← get;
  let todrop := s32 (th_seq th + tqe_len th - (rcv_nxt t + rcv_wnd t)) in
  if todrop <=? 0 then mret (Some (th, thflags))
  else
    let trimmed := Some (Segment (th_seq th) (th_flags th) (tqe_len th - todrop) (m_adj (- todrop) (tqe_m th)),
                         Z.ldiff thflags (Z.lor TH_PUSH TH_FIN)) in
    if tqe_len th <=? todrop then
      if (rcv_wnd t =? 0) && (th_seq th =? rcv_nxt t) then acknow;; mret trimmed
      else acknow;; mret None
    else mret trimmed.

Definition note_high (seq : Z) : TCP unit :=
  modify (λ t, if SEQ_LT (rcv_high t) seq then t <| rcv_high := seq |> else t).

(** The segment is taken in directly or through the queue; the result is the
    flags and the length. *)
Definition text (th : segment) : TCP (Z * Z) :=
  t ← get;
  if (th_seq th =? rcv_nxt t) && bool_decide (t_segq t = []) then
    (if delay_ack env && negb (has (t_flags t) TF_ACKNOW) then set_flags TF_DELACK else acknow);;
    modify (λ t, t <| rcv_nxt := u32 (rcv_nxt t + tqe_len th) |>);;
    t ← get;
    note_high (rcv_nxt t);;
    sbappendstream th;;
    mret (Z.land (th_flags th) TH_FIN, tqe_len th)
  else
    note_high (u32 (th_seq th + tqe_len th));;
    r ← tcp_reass th;
    acknow;;
    mret r.

(** The segment text; the result is the flags. *)
Definition dodata (th : segment) (thflags : Z) : TCP Z :=
  t ← get;
  if (truthy (tqe_len th) || has thflags TH_FIN) && negb (TCPS_HAVERCVDFIN (t_state t)) &&
     TCPS_HAVEESTABLISHED (t_state t)
  then
    let save_end := u32 (th_seq th + tqe_len th) in
    '(thflags, tlen) ← text th;
    when ((0 <? tlen) || has (th_flags th) TH_FIN)
      (tcp_update_sack_list (th_seq th) (if has (th_flags th) TH_FIN then u32 (save_end + 1) else save_end));;
    mret thflags
  else mret (Z.ldiff thflags TH_FIN).

Definition process_fin (thflags : Z) : TCP unit :=
  if has thflags TH_FIN then
    t ← get;
    when (negb (TCPS_HAVERCVDFIN (t_state t)))
      (modify (λ t, t <| cantrcvmore := true |>);; acknow;;
       modify (λ t, t <| rcv_nxt := u32 (rcv_nxt t + 1) |>));;
    modify (λ t, t <| t_state :=
      if (t_state t =? TCPS_SYN_RECEIVED) || (t_state t =? TCPS_ESTABLISHED) then TCPS_CLOSE_WAIT
      else if t_state t =? TCPS_FIN_WAIT_1 then TCPS_CLOSING
      else if t_state t =? TCPS_FIN_WAIT_2 then TCPS_TIME_WAIT
      else t_state t |>);;
    when (t_state t =? TCPS_FIN_WAIT_2) acknow
  else skip.

(** What becomes of the connection. *)
Inductive fate :=
  | Kept
  | Dropped
  | Reset.

(** The whole path of the data; the acknowledgement in the same segment is
    processed on the sending side. *)
Definition tcp_input_data (th : segment) : TCP fate :=
  '(th, thflags) ← trim_head th;
  t ← get;
  if truthy (tqe_len th) && (close_it env || cantrcvmore t) then mret Reset
  else
    r ← trim_tail th thflags;
    match r with
    | None => mret Dropped
    | Some (th, thflags) =>
        thflags ← dodata th thflags;
        process_fin thflags;;
        mret Kept
    end.
End receiver.
