(* ===== verification/TcpReassFun.v ===== *)
(** * TcpReassFun: the data that TCP receives

    The socket gets the octets of the stream in order, each once, whatever
    segments arrive and in whatever order; the blocks of the SACK option are
    disjoint and lie in the queue. The unbounded sequence numbers of a
    specification are reduced by [norm] and [normb]. *)

From S2P Require Import Prelude TcpSeq TcpReass.

(** ** The octets of a stream *)

Section slice.
Context (S : Z → Z).

Definition slice (a n : Z) : bytes := S <$> seqZ a n.

Lemma slice_length a n : 0 <= n → Z.of_nat (length (slice a n)) = n.
Proof. intros. unfold slice. rewrite length_fmap, length_seqZ. lia. Qed.
Lemma slice_app a n m : 0 <= n → 0 <= m → slice a (n + m) = slice a n ++ slice (a + n) m.
Proof. intros. unfold slice. by rewrite seqZ_app, fmap_app by lia. Qed.
Lemma slice_drop a n i : 0 <= i <= n → drop (Z.to_nat i) (slice a n) = slice (a + i) (n - i).
Proof.
  intros H. replace n with (i + (n - i)) at 1 by lia. rewrite slice_app by lia.
  replace (Z.to_nat i) with (length (slice a i)) by (assert (E := slice_length a i); lia). apply drop_app_length.
Qed.
Lemma slice_take a n i : 0 <= i <= n → take (Z.to_nat i) (slice a n) = slice a i.
Proof.
  intros H. replace n with (i + (n - i)) at 1 by lia. rewrite slice_app by lia.
  replace (Z.to_nat i) with (length (slice a i)) by (assert (E := slice_length a i); lia). apply take_app_length.
Qed.
Lemma m_adj_slice a n i : 0 <= i <= n → m_adj i (slice a n) = slice (a + i) (n - i).
Proof. intros H. unfold m_adj. rewrite (proj2 (Z.leb_le 0 i)) by lia. by apply slice_drop. Qed.
Lemma m_adj_slice_tail a n i : 0 < i <= n → m_adj (- i) (slice a n) = slice a (n - i).
Proof.
  intros H. unfold m_adj. rewrite (proj2 (Z.leb_gt 0 (- i))) by lia.
  replace (length (slice a n) - Z.to_nat (- - i))%nat with (Z.to_nat (n - i)) by (assert (E := slice_length a n); lia).
  apply slice_take. lia.
Qed.
End slice.

(** ** Sequence numbers and queue entries *)

Definition norm (s : segment) : segment := s <| th_seq := u32 (th_seq s) |>.
Definition seg_iv (s : segment) : Z * Z := (th_seq s, th_seq s + tqe_len s).
Definition normb (b : Z * Z) : sackblk := Sackblk (u32 b.1) (u32 b.2).

(** The segment holds its part of the stream. *)
Definition of_stream (S : Z → Z) (s : segment) : Prop := tqe_m s = slice S (th_seq s) (tqe_len s).

Lemma ivs_app q q' : seg_iv <$> (q ++ q') = (seg_iv <$> q) ++ (seg_iv <$> q').
Proof. apply fmap_app. Qed.

Lemma find_place_spec X lo q : chain lo (lo + SPAN) (seg_iv <$> q) → lo - SPAN <= X <= lo + SPAN →
  ∃ q1 q2, find_place (u32 X) (norm <$> q) = (norm <$> q1, norm <$> q2) ∧ q = q1 ++ q2 ∧
    Forall (λ s, th_seq s <= X) q1 ∧ (∀ s q', q2 = s :: q' → X < th_seq s).
Proof.
  intros Hc HX. assert (Hnear : ∀ s, s ∈ q → near (th_seq s) X).
  { intros s Hs. assert (H := chain_elem _ _ _ (seg_iv s) Hc ltac:(by apply list_elem_of_fmap_2)). simpl in H. span. near. }
  clear Hc. induction q as [|s q IH].
  - exists [], []. split_and!; [done..|by constructor|done].
  - cbn [fmap list_fmap find_place]. change (th_seq (norm s)) with (u32 (th_seq s)).
    rewrite seq_gt by (apply Hnear; left). destruct (Z.ltb_spec X (th_seq s)) as [Hlt|Hge].
    + exists [], (s :: q). split_and!; [done..|by constructor|]. by intros ? ? [= -> ->].
    + destruct IH as (q1 & q2 & E & -> & H1 & H2); [intros s' Hs'; apply Hnear; by right|].
      rewrite E. exists (s :: q1), q2. split_and!; [done..|by constructor|done].
Qed.

(** The parts of the state that matter for the data. *)
Definition core (t : tcpcb) :=
  (rcv_nxt t, rcv_wnd t, t_state t, so_rcv t, cantrcvmore t, rcv_numsacks t, sackblks t,
   has (t_flagsext t) TF_REASS_INPROG).

(** What the loop over the following entries does to the state. *)
Lemma trim_following_run X n d q lo hi t :
  chain lo hi (seg_iv <$> q) → X <= lo → 0 <= n → X + n <= hi → hi <= X + SPAN →
  ∃ q' t', trim_following (u32 X) n d (norm <$> q) t = Ret (norm <$> q', t') ∧
    core t' = core t ∧ t_segq t' = t_segq t ∧
    t_reassqlen t' - Z.of_nat (length q') = t_reassqlen t - Z.of_nat (length q) ∧
    chain (X + n) hi (seg_iv <$> q') ∧
    (∀ x, covered x (seg_iv <$> q) → x < X + n ∨ covered x (seg_iv <$> q')) ∧
    (∀ x, covered x (seg_iv <$> q') → covered x (seg_iv <$> q)) ∧
    (∀ S, Forall (of_stream S) q → Forall (of_stream S) q') ∧
    (∀ P : Z → Prop, Forall (λ s, P (th_flags s)) q → Forall (λ s, P (th_flags s)) q').
Proof.
  intros Hc HX Hn Hhi Hspan. revert lo t Hc HX. induction q as [|s q IH]; intros lo t Hc HX.
  { exists [], t. split_and!; try done. intros x Hx. by apply covered_nil in Hx. }
  cbn [fmap list_fmap chain seg_iv fst snd] in Hc. destruct Hc as (Hlo & Hne & Hc). assert (Hle := chain_le _ _ _ Hc).
  cbn [fmap list_fmap trim_following]. change (th_seq (norm s)) with (u32 (th_seq s)).
  change (tqe_len (norm s)) with (tqe_len s). rewrite u32_diff_add by (span; near).
  set (i := X + n - th_seq s) in *.
  destruct (Z.leb_spec i 0) as [Hi|Hi].
  { exists (s :: q), t. split_and!; try done; [|tauto]. cbn [fmap list_fmap chain seg_iv fst snd]. split_and!; [lia|done..]. }
  match goal with |- context [when ?b ?m ≫= ?k] =>
    assert (Ht : ∃ t1, (∀ B (f : unit → TCP B), (when b m ≫= f) t = f tt t1) ∧ core t1 = core t ∧ t_segq t1 = t_segq t ∧
      t_reassqlen t1 = t_reassqlen t) end.
  { destruct (_ && _); [|by exists t]. eexists. split; [intros; apply modify_run|]. by destruct (t_dsack_lseq t =? 0). }
  destruct Ht as (t1 & E1 & Hcore & Hq & Hl). rewrite E1.
  destruct (Z.ltb_spec i (tqe_len s)) as [Hlt|Hge].
  - exists (Segment (th_seq s + i) (th_flags s) (tqe_len s - i) (m_adj i (tqe_m s)) :: q), t1.
    split_and!; try done.
    + unfold norm at 2. cbn. by rewrite u32_add.
    + by rewrite Hl.
    + cbn [fmap list_fmap chain seg_iv fst snd th_seq tqe_len]. replace (th_seq s + i + (tqe_len s - i)) with (th_seq s + tqe_len s) by lia.
      split_and!; [lia|lia|done].
    + intros x. cbn [fmap list_fmap]. rewrite !covered_cons. cbn [seg_iv fst snd th_seq tqe_len]. intros [?|?]; [|tauto].
      destruct (Z.lt_ge_cases x (X + n)); [by left|]. right. left. lia.
    + intros x. cbn [fmap list_fmap]. rewrite !covered_cons. cbn [seg_iv fst snd th_seq tqe_len]. intros [?|?]; [|tauto]. left. lia.
    + intros S [Hs HS]%Forall_cons. constructor; [|done]. unfold of_stream in *. cbn [tqe_m th_seq tqe_len]. rewrite Hs.
      apply m_adj_slice. lia.
    + intros P [Hs HS]%Forall_cons. by constructor.
  - rewrite modify_run. destruct (IH _ (t1 <| t_reassqlen := t_reassqlen t1 - 1 |>) Hc ltac:(lia)) as (q' & t' & E & H1 & H2 & H3 & H4 & H5 & H6 & H7 & H8).
    exists q', t'. split_and!; try done.
    + by rewrite H1.
    + by rewrite H2.
    + rewrite H3. cbn -[Z.of_nat length]. rewrite Hl. cbn [length]. lia.
    + intros x. cbn [fmap list_fmap]. rewrite covered_cons. cbn [seg_iv fst snd]. intros [?|?%H5]; [left; lia|done].
    + intros x ?%H6. cbn [fmap list_fmap]. rewrite covered_cons. by right.
    + intros S [Hs HS]%Forall_cons. by apply H7.
    + intros P [Hs HS]%Forall_cons. by apply H8.
Qed.

(** ** Presenting the queue *)

Lemma has_lor f g h : Z.land g h = 0 → has (Z.lor f g) h = has f h.
Proof. intros E. unfold has. by rewrite Z.land_lor_distr_l, E, Z.lor_0_r. Qed.
Lemma has_ldiff f g h : Z.land g h = 0 → has (Z.ldiff f g) h = has f h.
Proof.
  intros E. unfold has. f_equal. apply Z.bits_inj'. intros n Hn. rewrite !Z.land_spec, Z.ldiff_spec.
  assert (E' := Z.land_spec g h n). rewrite E, Z.bits_0 in E'. destruct (Z.testbit f n), (Z.testbit g n), (Z.testbit h n); done.
Qed.
Lemma has_cleared f g : has (Z.ldiff f g) g = false.
Proof.
  unfold has, truthy. rewrite Z.land_comm, Z.ldiff_land, (Z.land_comm f), Z.land_assoc, <- (Z.ldiff_land g g), Z.ldiff_diag. done.
Qed.

(** The fields that presenting the queue leaves alone. *)
Definition rest (t : tcpcb) := (rcv_wnd t, t_state t, cantrcvmore t, rcv_numsacks t, sackblks t).

Section stream.
Context (S : Z → Z).

(** The queue [q] of a receiver that waits for the octet [N]: the entries are
    in order, after [N] and not overlapping, and hold parts of the stream. *)
Definition queued (lo N : Z) (q : list segment) : Prop :=
  chain lo (N + SPAN) (seg_iv <$> q) ∧ Forall (of_stream S) q ∧ Forall (λ s, has (th_flags s) TH_FIN = false) q.

Definition waiting (N : Z) (q : list segment) (t : tcpcb) : Prop :=
  rcv_nxt t = u32 N ∧ t_segq t = norm <$> q ∧ t_reassqlen t = Z.of_nat (length q).

Lemma present_loop_run hi N q t :
  chain N hi (seg_iv <$> q) → hi <= N + SPAN → Forall (of_stream S) q → Forall (λ s, has (th_flags s) TH_FIN = false) q →
  waiting N q t → cantrcvmore t = false →
  ∃ N' q1 q' t', present_loop (norm <$> q) 0 t = Ret (0, t') ∧ waiting N' q' t' ∧ q = q1 ++ q' ∧ N <= N' <= hi ∧
    chain (N' + 1) (Z.max hi (N' + 1)) (seg_iv <$> q') ∧ (∀ x, covered x (seg_iv <$> q) → x < N' ∨ covered x (seg_iv <$> q')) ∧
    so_rcv t' = so_rcv t ++ slice S N (N' - N) ∧ rest t' = rest t ∧
    has (t_flagsext t') TF_REASS_INPROG = has (t_flagsext t) TF_REASS_INPROG.
Proof.
  intros Hc Hspan HS Hfin. revert N t Hc Hspan. induction q as [|s q IH]; intros N t Hc Hspan Hw Hopen.
  { exists N, [], [], t. simpl in Hc. split_and!; try done; try lia.
    - simpl. lia.
    - tauto.
    - by rewrite Z.sub_diag, app_nil_r. }
  cbn [fmap list_fmap present_loop]. rewrite get_run. destruct Hw as (Hnxt & Hq & Hl). rewrite Hnxt.
  change (th_seq (norm s)) with (u32 (th_seq s)).
  cbn [fmap list_fmap chain seg_iv fst snd] in Hc. destruct Hc as (Hlo & Hne & Hc). assert (Hle := chain_le _ _ _ Hc).
  rewrite seq_eq by (span; near). apply Forall_cons in HS as [Hs HS]. apply Forall_cons in Hfin as [Hf Hfin].
  destruct (Z.eqb_spec (th_seq s) N) as [HsN|Hgap].
  - unfold of_stream in Hs. rewrite HsN in *. rewrite modify_run. rewrite Hopen. unfold sbappendstream. rewrite !modify_run.
    assert (Hz : Z.land (th_flags (norm s)) TH_FIN = 0).
    { unfold has, truthy in Hf. change (th_flags (norm s)) with (th_flags s). lia. }
    rewrite Hz. match goal with |- context [present_loop _ _ ?t1] => set (t1' := t1) end.
    destruct (IH HS Hfin (N + tqe_len s) t1') as
      (N' & q1 & q' & t' & E & Hw' & -> & HN & Hch & Hcov & Hso & Hr & Hin).
    + done.
    + lia.
    + unfold waiting, t1'. cbn -[Z.of_nat]. rewrite Hnxt, Hl, u32_add. split_and!; [done..|]. cbn [length]. lia.
    + done.
    + exists N', (s :: q1), q', t'. split_and!; try done; try lia.
      * intros x. cbn [fmap list_fmap]. rewrite covered_cons. cbn [seg_iv fst snd]. rewrite HsN. intros [?|?%Hcov]; [left; lia|done].
      * rewrite Hso. unfold t1'. cbn. rewrite <- (assoc_L (++)). f_equal. rewrite Hs.
        replace (N' - N) with (tqe_len s + (N' - (N + tqe_len s))) by lia. by rewrite slice_app by lia.
      * rewrite Hin. unfold t1'. cbn -[has]. destruct (has (th_flags s) TH_PUSH); [by apply has_lor|by apply has_ldiff].
  - exists N, [], (s :: q), t. split_and!; try done; try lia.
    + cbn [fmap list_fmap chain seg_iv fst snd]. split_and!; [lia..|]. eapply chain_weaken; [done|lia..].
    + tauto.
    + by rewrite Z.sub_diag, app_nil_r.
Qed.
End stream.

(** ** The SACK list *)

(** Two blocks overlap or are adjacent. *)
Definition touch (b c : Z * Z) : Prop := b.1 <= c.2 ∧ c.1 <= b.2.
Fixpoint separated (l : list (Z * Z)) : Prop :=
  match l with
  | [] => True
  | b :: l => Forall (λ c, ¬ touch b c) l ∧ separated l
  end.
Definition block_ok (N : Z) (b : Z * Z) : Prop := N - SPAN <= b.1 < b.2 ∧ b.2 <= N + SPAN.

Lemma separated_sublist l l' : l' `sublist_of` l → separated l → separated l'.
Proof.
  induction 1 as [|x l1 l2 Hs IH|x l1 l2 Hs IH]; simpl; [done| |tauto]. intros [H1 H2]. split; [|tauto].
  rewrite Forall_forall in *. intros c Hc. apply H1. by eapply elem_of_sublist.
Qed.

(** The head [h] merged with the blocks [B] is [h'], and [B'] is what is left
    of them. *)
Definition merged (N : Z) (B : list (Z * Z)) (h h' : Z * Z) (B' : list (Z * Z)) : Prop :=
  block_ok N h' ∧ B' `sublist_of` B ∧ Forall (λ b, N < b.1) B' ∧ h'.1 <= h.1 ∧ h.2 <= h'.2 ∧
  (∀ x, h'.1 <= x < h'.2 → h.1 <= x < h.2 ∨ covered x (filter (λ b, N < b.1) B)) ∧
  (∀ x, covered x (filter (λ b, N < b.1) B) → h'.1 <= x < h'.2 ∨ covered x B') ∧
  (∀ c, c.1 < c.2 → ¬ touch c h → Forall (λ b, ¬ touch c b) B → ¬ touch c h') ∧
  (separated B → separated (h' :: B')).

Lemma merge_blocks_run N B h : block_ok N h → Forall (block_ok N) B →
  ∃ h' B', merge_blocks (u32 N) (normb <$> B) (normb h) = (normb h', normb <$> B') ∧ merged N B h h' B'.
Proof.
  unfold merged. intros Hh HB. revert h Hh. induction HB as [|b B Hb HB IH]; intros h Hh.
  { exists h, []. split_and!; try done; try lia; try (by repeat constructor); tauto. }
  cbn [fmap list_fmap merge_blocks normb sb_start sb_end]. unfold block_ok in Hb, Hh. rewrite seq_geq by (span; near).
  rewrite seq_leq by (span; near). rewrite (proj2 (Z.leb_gt b.2 b.1)) by lia. cbn [orb].
  destruct (Z.leb_spec b.1 N) as [Hle|Hgt].
  - destruct (IH h Hh) as (h' & B' & E & H1 & H2 & H3 & H4 & H5 & H6 & H7 & H8 & H9). exists h', B'.
    rewrite filter_cons_False by lia. split_and!; try done.
    + by constructor.
    + intros c Hc Ht [Hcb HcB]%Forall_cons. by apply H8.
    + intros [_ Hs]. by apply H9.
  - rewrite (seq_leq h.1), (seq_geq h.2), (seq_gt h.1), (seq_lt h.2) by (span; near).
    rewrite filter_cons_True by lia.
    destruct ((h.1 <=? b.2) && (b.1 <=? h.2)) eqn:Et.
    + set (h1 := (Z.min h.1 b.1, Z.max h.2 b.2)). destruct (IH h1) as (h' & B' & E & H1 & H2 & H3 & H4 & H5 & H6 & H7 & H8 & H9).
      { unfold block_ok, h1. cbn [fst snd]. lia. }
      exists h', B'. unfold h1 in *. cbn [fst snd] in *. split_and!; try done; try lia.
      * rewrite <- E. f_equal. unfold normb. cbn [fst snd].
        destruct (Z.ltb_spec b.1 h.1), (Z.ltb_spec h.2 b.2); rewrite ?Z.min_l, ?Z.min_r, ?Z.max_l, ?Z.max_r by lia; done.
      * by constructor.
      * intros x Hx%H6. rewrite covered_cons. destruct Hx as [Hx|Hx]; [|tauto].
        destruct (decide (h.1 <= x < h.2)); [by left|]. right. left. lia.
      * intros x. rewrite covered_cons. intros [Hx|Hx%H7]; [left; lia|done].
      * intros c Hc0 Ht [Hcb HcB]%Forall_cons. apply H8; [done| |done]. unfold touch in *. cbn [fst snd]. lia.
      * intros [_ Hs]. by apply H9.
    + destruct (IH h Hh) as (h' & B' & E & H1 & H2 & H3 & H4 & H5 & H6 & H7 & H8 & H9). rewrite E.
      exists h', (b :: B'). split_and!; try done.
      * by constructor.
      * by constructor.
      * intros x Hx%H6. rewrite covered_cons. tauto.
      * intros x. rewrite !covered_cons. intros [Hx|Hx%H7]; tauto.
      * intros c Hc0 Ht [Hcb HcB]%Forall_cons. by apply H8.
      * intros [Hsb Hs]. destruct (H9 Hs) as [Hs1 Hs2]. assert (Hn : ¬ touch b h') by (apply H8; [lia|unfold touch; lia|done]).
        split; [constructor; [|done]; unfold touch in *; lia|]. split; [|done].
        rewrite Forall_forall in *. intros c Hc0. apply Hsb. by eapply elem_of_sublist.
Qed.

(** The array holds the blocks [B]. *)
Definition sacks (B : list (Z * Z)) (t : tcpcb) : Prop :=
  ∃ pad, sackblks t = (normb <$> B) ++ pad ∧ rcv_numsacks t = Z.of_nat (length B) ∧ length (sackblks t) = MAX_SACK_BLKS.

(** The fields that the SACK list does not concern. *)
Definition data_part (t : tcpcb) :=
  (rcv_nxt t, rcv_wnd t, t_state t, t_segq t, t_reassqlen t, so_rcv t, cantrcvmore t, has (t_flagsext t) TF_REASS_INPROG).

Lemma reset_stretch_ack_run env {X} (f : unit → TCP X) t : ∃ t', (tcp_reset_stretch_ack env ≫= f) t = f tt t' ∧
  data_part t' = data_part t ∧ (∀ B, sacks B t → sacks B t').
Proof.
  unfold tcp_reset_stretch_ack. eexists. split; [apply modify_run|]. split; [|done].
  unfold data_part. cbn -[has]. by rewrite has_lor.
Qed.

(** What an update makes of the blocks [B]: [a] to [b] was received, and the
    octet [N] is the next one. *)
Definition updated (N : Z) (B : list (Z * Z)) (a b : Z) (B' : list (Z * Z)) : Prop :=
  Forall (block_ok N) B' ∧ Forall (λ c, N < c.1) B' ∧
  (∀ x, covered x B' → a <= x < b ∨ covered x (filter (λ c, N < c.1) B)) ∧
  (separated B → separated B') ∧
  (N < a → ∃ h l, B' = h :: l ∧ h.1 <= a ∧ b <= h.2) ∧
  (N < a → (length B' < MAX_SACK_BLKS)%nat → ∀ x, a <= x < b ∨ covered x (filter (λ c, N < c.1) B) → covered x B').

Lemma merged_updated N B a b h Bs k :
  merged N B (a, b) h Bs → Forall (block_ok N) B → (k <= length Bs ∧ (k < MAX_SACK_BLKS - 1 → k = length Bs))%nat →
  updated N B a b (if N <? h.1 then h :: take k Bs else Bs).
Proof.
  intros (H1 & H2 & H3 & H4 & H5 & H6 & H7 & H8 & H9) HB Hk. cbn [fst snd] in *. unfold block_ok in H1.
  assert (HBs : Forall (block_ok N) Bs).
  { rewrite Forall_forall in *. intros c Hc. apply HB. by eapply elem_of_sublist. }
  assert (Hcov : ∀ x, covered x Bs → covered x (filter (λ c, N < c.1) B)).
  { intros x (c & Hc & Hx). exists c. split; [|done]. apply list_elem_of_filter. split; [|by eapply elem_of_sublist].
    rewrite Forall_forall in H3. by apply H3. }
  assert (Hfirst : N < a → N < h.1).
  { intros Ha. destruct (H6 h.1 ltac:(lia)) as [?|(c & [? ?]%list_elem_of_filter & ?)]; lia. }
  unfold updated. destruct (Z.ltb_spec N h.1) as [Hh|Hh]; split_and!; try done.
  - constructor; [done|]. by apply Forall_take.
  - constructor; [done|]. by apply Forall_take.
  - intros x. rewrite covered_cons. intros [Hx|(c & Hc & Hx)]; [by apply H6|right]. apply Hcov. exists c. split; [|done].
    eapply elem_of_sublist; [done|apply sublist_take].
  - intros Hs. destruct (H9 Hs) as [Hs1 Hs2']. split; [by apply Forall_take|]. eapply separated_sublist; [apply sublist_take|done].
  - intros _. by exists h, (take k Bs).
  - cbn [length]. rewrite length_take. intros _ Hl x Hx. replace k with (length Bs) by lia. rewrite firstn_all, covered_cons.
    destruct Hx as [Hx|Hx]; [left; lia|]. by apply H7.
  - intros x Hx. right. by apply Hcov.
  - intros Hs. by destruct (H9 Hs).
  - intros Ha. specialize (Hfirst Ha). lia.
  - intros Ha. specialize (Hfirst Ha). lia.
Qed.

Lemma update_run env N B a b t :
  rcv_nxt t = u32 N → sacks B t → Forall (block_ok N) B → block_ok N (a, b) →
  ∃ B' t', tcp_update_sack_list env (u32 a) (u32 b) t = Ret (tt, t') ∧ sacks B' t' ∧ data_part t' = data_part t ∧ updated N B a b B'.
Proof.
  intros Hnxt (pad & Hblk & Hnum & Hlen) HB Hab. unfold tcp_update_sack_list. rewrite get_run.
  assert (HlB : (length B <= MAX_SACK_BLKS)%nat) by (rewrite <- Hlen, Hblk, length_app, length_fmap; lia).
  rewrite Hnum, Nat2Z.id, Hlen, (proj2 (Nat.leb_le _ _)) by done. cbn [of_opt]. rewrite (lift_run _ _ _ _ eq_refl), Hnxt, Hblk.
  rewrite <- (length_fmap normb B), take_app_length. change (Sackblk (u32 a) (u32 b)) with (normb (a, b)).
  destruct (merge_blocks_run N B (a, b) Hab HB) as (h & Bs & -> & Hm). assert (H := Hm). destruct H as ([H1 H1'] & H2 & _).
  cbn [normb sb_start]. rewrite seq_gt, length_fmap by (span; near).
  assert (HlBs := sublist_length _ _ H2).
  set (k := if (MAX_SACK_BLKS <=? length Bs)%nat then (length Bs - 1)%nat else length Bs).
  assert (Hk : (k <= length Bs ∧ k < MAX_SACK_BLKS ∧ (k < MAX_SACK_BLKS - 1 → k = length Bs))%nat).
  { unfold k, MAX_SACK_BLKS in *. destruct (6 <=? length Bs)%nat eqn:E; [apply Nat.leb_le in E|apply Nat.leb_gt in E]; lia. }
  set (B' := if N <? h.1 then h :: take k Bs else Bs).
  cbv zeta. replace (if N <? h.1 then _ else _) with (normb <$> B'); last first.
  { unfold B', k. destruct (N <? h.1); [|done]. cbn [fmap list_fmap]. f_equal.
    destruct (MAX_SACK_BLKS <=? length Bs)%nat; [by rewrite fmap_take|]. by rewrite firstn_all. }
  assert (HlB' : (length B' <= MAX_SACK_BLKS)%nat).
  { unfold B'. destruct (N <? h.1); cbn [length]; rewrite ?length_take; lia. }
  set (t1 := t <| sackblks := (normb <$> B') ++ drop (length (normb <$> B')) (sackblks t) |>).
  rewrite (bind_run _ _ t tt t1).
  2:{ unfold copy_blocks. rewrite Hlen, length_fmap. destruct (Nat.ltb_spec MAX_SACK_BLKS (length B')); [lia|]. unfold t1. by rewrite length_fmap. }
  rewrite modify_run. set (t2 := t1 <| rcv_numsacks := Z.of_nat (length (normb <$> B')) |>). rewrite get_run.
  assert (Hs2 : sacks B' t2).
  { eexists. split; [reflexivity|]. split; [unfold t2; cbn; by rewrite length_fmap|].
    unfold t2, t1. cbn -[drop]. rewrite length_app, length_drop, length_fmap, Hlen. lia. }
  assert (Hd2 : data_part t2 = data_part t) by done. clearbody t2. clear t1.
  assert (Ht3 : ∃ t3, (∀ X (f : unit → TCP X), (when (has (t_flags t2) TF_STRETCHACK && (0 <? rcv_numsacks t2))
      (tcp_reset_stretch_ack env) ≫= f) t2 = f tt t3) ∧ sacks B' t3 ∧ data_part t3 = data_part t).
  { destruct (_ && _); [|by exists t2]. unfold tcp_reset_stretch_ack. eexists. split; [intros; apply modify_run|]. split; [done|].
    rewrite <- Hd2. unfold data_part. cbn -[has]. by rewrite has_lor. }
  destruct Ht3 as (t3 & -> & Hs3 & Hd3).
  assert (Hret : ∃ t4, when (0 <? rcv_numsacks t2) (modify (λ t, t <| t_forced_acks := TCP_FORCED_ACKS_COUNT |>)) t3 = Ret (tt, t4) ∧
    sacks B' t4 ∧ data_part t4 = data_part t).
  { destruct (0 <? rcv_numsacks t2); [|by exists t3]. by eexists. }
  destruct Hret as (t4 & E4 & Hs4 & Hd4). exists B', t4. split; [done|]. split; [done|]. split; [done|].
  apply merged_updated; [done|done|]. split; [lia|tauto].
Qed.

(** ** A segment in the queue *)

Section reassembly.
Context (env : environment) (S : Z → Z).

(** The connection takes data. *)
Definition taking (t : tcpcb) : Prop :=
  TCPS_HAVEESTABLISHED (t_state t) = true ∧ TCPS_HAVERCVDFIN (t_state t) = false ∧ cantrcvmore t = false ∧
  has (t_flagsext t) TF_REASS_INPROG = false.

Lemma present_run N q t : queued S N N q → waiting N q t → taking t →
  ∃ N' q' t', present t = Ret (0, t') ∧ waiting N' q' t' ∧ N <= N' <= N + SPAN ∧ queued S (N' + 1) N' q' ∧
    (∀ x, covered x (seg_iv <$> q) → x < N' ∨ covered x (seg_iv <$> q')) ∧
    so_rcv t' = so_rcv t ++ slice S N (N' - N) ∧ rest t' = rest t ∧ taking t'.
Proof.
  intros (Hc & HS & Hfin) Hw Ht. assert (Htk := Ht). destruct Ht as (He & Hf & Ho & Hi).
  unfold present. rewrite get_run, He. cbn [negb]. assert (Hw0 := Hw). destruct Hw0 as (Hn & Hq & Hl). rewrite Hq.
  destruct q as [|s q].
  { exists N, [], t. cbn [fmap list_fmap]. split_and!; try done; try (span; lia).
    - split; [|done]. simpl. span. lia.
    - tauto.
    - by rewrite Z.sub_diag, app_nil_r. }
  cbn [fmap list_fmap]. rewrite Hn, Hi, orb_false_r. change (th_seq (norm s)) with (u32 (th_seq s)).
  assert (Hs := chain_elem _ _ _ (seg_iv s) Hc ltac:(cbn; left)). cbn [seg_iv fst snd] in Hs.
  rewrite seq_eq by (span; near). destruct (Z.eqb_spec (th_seq s) N) as [HsN|HsN]; cbn [negb].
  - rewrite modify_run. set (t1 := t <| t_flagsext := _ |>). change (norm s :: (norm <$> q)) with (norm <$> s :: q).
    destruct (present_loop_run S (N + SPAN) N (s :: q) t1) as (N' & q1 & q' & t' & E & Hw' & Eq & HN & Hch & Hcov & Hso & Hr & Hin);
      [done|lia|done|done|done|done|].
    rewrite (bind_run _ _ _ _ _ E), modify_run. eexists N', q', _. split; [reflexivity|]. split_and!; try done; try lia.
    + rewrite Eq in HS, Hfin. apply Forall_app in HS as [_ HS]. apply Forall_app in Hfin as [_ Hfin]. split; [|done].
      eapply chain_weaken; [done|lia|span; lia].
    + unfold rest in Hr. simplify_eq Hr. intros _ Hst Hcm _ _. unfold taking. cbn -[has TCPS_HAVEESTABLISHED TCPS_HAVERCVDFIN].
      rewrite Hst, Hcm. split_and!; [done..|]. apply has_cleared.
  - exists N, (s :: q), t. split_and!; try done; try (span; lia).
    + split; [|done]. cbn [fmap list_fmap chain seg_iv fst snd] in *. destruct Hc as (? & ? & Hc). split_and!; [lia|done|].
      eapply chain_weaken; [done|lia..].
    + tauto.
    + by rewrite Z.sub_diag, app_nil_r.
Qed.

(** Where the data before the place ends. *)
Definition end_before (N : Z) (q : list segment) : Z :=
  match last q with Some p => th_seq p + tqe_len p | None => N end.

Lemma place_spec N hi X q1 q2 :
  chain N hi (seg_iv <$> (q1 ++ q2)) → Forall (λ s, th_seq s <= X) q1 → (∀ s q', q2 = s :: q' → X < th_seq s) →
  N <= X <= hi → N <= end_before N q1 ∧ chain N (end_before N q1) (seg_iv <$> q1) ∧
    (end_before N q1 <= hi ∧ chain (Z.max X (end_before N q1)) (Z.max X hi) (seg_iv <$> q2)).
Proof.
  intros Hc H1 H2 HX. rewrite ivs_app in Hc. apply chain_app in Hc as (mid & Hc1 & Hc2).
  assert (H : N <= end_before N q1 ∧ chain N (end_before N q1) (seg_iv <$> q1) ∧ end_before N q1 <= mid).
  { unfold end_before. destruct q1 as [|p q1 _] using rev_ind; [simpl in *; lia|]. rewrite last_snoc.
    rewrite ivs_app in *. apply chain_app in Hc1 as (m & Hm & Hp). cbn [fmap list_fmap chain seg_iv fst snd] in Hp.
    assert (Hle := chain_le _ _ _ Hm). split; [lia|]. split; [|lia]. apply chain_app. exists m. split; [done|].
    cbn [fmap list_fmap chain seg_iv fst snd]. lia. }
  destruct H as (Ha & Hb & Hcm). split; [done|]. split; [done|]. assert (Hle := chain_le _ _ _ Hc2). split; [lia|].
  destruct q2 as [|s q2]; [simpl; lia|]. specialize (H2 s q2 eq_refl). cbn [fmap list_fmap chain seg_iv fst snd] in *.
  destruct Hc2 as (? & ? & Hc2). split_and!; [lia|lia|]. eapply chain_weaken; [done|lia..].
Qed.

(** The new entry, without the octets that the entries before it hold. *)
Definition entry (N X n : Z) (th : segment) (q1 : list segment) : segment :=
  let e := end_before N q1 in
  if X <? e then Segment e (th_flags th) (X + n - e) (m_adj (e - X) (tqe_m th)) else th.

(** What a received segment leaves: the octets from [N] on are presented up
    to [N'], the others are in [q']. *)
Definition accepted (N X n : Z) (q : list segment) (t : tcpcb) (N' : Z) (q' : list segment) (t' : tcpcb) : Prop :=
  waiting N' q' t' ∧ N <= N' <= N + SPAN ∧ queued S (N' + 1) N' q' ∧
  (∀ x, X <= x < X + n ∨ covered x (seg_iv <$> q) → x < N' ∨ covered x (seg_iv <$> q')) ∧
  so_rcv t' = so_rcv t ++ slice S N (N' - N) ∧ rest t' = rest t ∧ taking t'.

(** The states agree in all that matters for the data, except the queue. *)
Definition same (t t' : tcpcb) : Prop := core t' = core t ∧ t_segq t' = t_segq t.
Lemma same_facts t t' : same t t' → rcv_nxt t' = rcv_nxt t ∧ so_rcv t' = so_rcv t ∧ rest t' = rest t ∧ (taking t → taking t').
Proof.
  intros [H _]. unfold core in H. simplify_eq H. intros. unfold rest, taking. split_and!; congruence.
Qed.

Lemma overlap_spec N X q1 : N <= X <= N + SPAN → N <= end_before N q1 <= N + SPAN →
  let i := overlap (norm <$> q1) (u32 X) in (0 <? i) = (X <? end_before N q1) ∧ (X < end_before N q1 → i = end_before N q1 - X).
Proof.
  intros HX He. unfold overlap, end_before in *. rewrite fmap_last. destruct (last q1) as [p|]; cbn [fmap option_fmap option_map].
  - change (th_seq (norm p)) with (u32 (th_seq p)). change (tqe_len (norm p)) with (tqe_len p).
    rewrite u32_diff_add by (span; near). split; [|done]. apply eq_true_iff_eq. lia.
  - split; [|lia]. symmetry. apply Z.ltb_ge. lia.
Qed.

(** The queue with the new entry. *)
Lemma insert_queued N th q1 q2 q2' :
  queued S (N + 1) N (q1 ++ q2) → N <= th_seq th → 0 < tqe_len th → th_seq th + tqe_len th <= N + SPAN →
  of_stream S th → has (th_flags th) TH_FIN = false →
  let te := entry N (th_seq th) (tqe_len th) th q1 in
  end_before N q1 < th_seq th + tqe_len th → chain N (end_before N q1) (seg_iv <$> q1) →
  chain (th_seq th + tqe_len th) (N + SPAN) (seg_iv <$> q2') →
  Forall (of_stream S) q2' → Forall (λ s, has (th_flags s) TH_FIN = false) q2' →
  queued S N N (q1 ++ te :: q2') ∧
  th_seq te = Z.max (th_seq th) (end_before N q1) ∧ th_seq te + tqe_len te = th_seq th + tqe_len th.
Proof.
  intros (Hc & HS & Hf) HN Hn Hhi Hs Hfin te He Hc1 Hc2 HS2 Hf2.
  assert (Hte : th_seq te = Z.max (th_seq th) (end_before N q1) ∧ th_seq te + tqe_len te = th_seq th + tqe_len th ∧
    of_stream S te ∧ has (th_flags te) TH_FIN = false).
  { unfold te, entry. destruct (Z.ltb_spec (th_seq th) (end_before N q1)).
    - cbn [th_seq tqe_len th_flags]. split_and!; [lia|lia| |done]. unfold of_stream in *. cbn [tqe_m th_seq tqe_len]. rewrite Hs.
      rewrite m_adj_slice by lia. f_equal; lia.
    - split_and!; [lia|lia|done|done]. }
  destruct Hte as (E1 & E2 & H3 & H4). split_and!; [|done|done].
  apply Forall_app in HS as [HS1 _]. apply Forall_app in Hf as [Hf1 _]. split.
  - rewrite ivs_app. apply chain_app. exists (end_before N q1). split; [done|]. cbn [fmap list_fmap chain seg_iv fst snd].
    rewrite E2. split_and!; [lia|lia|done].
  - split; apply Forall_app; (split; [done|]); by constructor.
Qed.

Lemma present_accepted N X n q qn t t1 :
  queued S N N qn → waiting N qn t1 → taking t1 → so_rcv t1 = so_rcv t → rest t1 = rest t →
  (∀ x, X <= x < X + n ∨ covered x (seg_iv <$> q) → covered x (seg_iv <$> qn)) →
  ∃ N' q' t', present t1 = Ret (0, t') ∧ accepted N X n q t N' q' t'.
Proof.
  intros Hq Hw Ht Hso Hr Hc. destruct (present_run N qn t1 Hq Hw Ht) as (N' & q' & t' & E & Hw' & HN & Hq' & Hcov & Hso' & Hr' & Ht').
  exists N', q', t'. split; [done|]. split_and!; try done; [lia|lia| | |].
  - intros x Hx. by apply Hcov, Hc.
  - by rewrite Hso', Hso.
  - by rewrite Hr'.
Qed.

(** The insertion of the new entry. *)
Lemma insert_run N th q1 q2 t t3 d :
  let te := entry N (th_seq th) (tqe_len th) th q1 in
  queued S (N + 1) N (q1 ++ q2) → same t t3 → waiting N (q1 ++ q2) t → t_reassqlen t3 = t_reassqlen t + 1 → taking t →
  N <= th_seq th → 0 < tqe_len th → th_seq th + tqe_len th <= N + SPAN → of_stream S th → has (th_flags th) TH_FIN = false →
  end_before N q1 < th_seq th + tqe_len th → chain N (end_before N q1) (seg_iv <$> q1) →
  chain (Z.max (th_seq th) (end_before N q1)) (N + SPAN) (seg_iv <$> q2) →
  Forall (λ s, th_seq s <= th_seq th) q1 →
  ∃ N' q' t', (q ← trim_following (th_seq (norm te)) (tqe_len (norm te)) d (norm <$> q2);
               modify (λ t, t <| t_segq := (norm <$> q1) ++ norm te :: q |>);;
               flags ← present;
               mret (flags, tqe_len (norm te))) t3 = Ret ((0, tqe_len te), t') ∧
    0 < tqe_len te ∧ accepted N (th_seq th) (tqe_len th) (q1 ++ q2) t N' q' t'.
Proof.
  intros te Hqd H3 Hw Hl3 Ht HN Hn Hhi Hs Hfin He Hc1 Hc2 Hle.
  destruct (same_facts _ _ H3) as (Hn3 & Hso3 & Hr3 & Ht3). specialize (Ht3 Ht). destruct Hw as (Hnxt & Hq & Hl).
  assert (Hte : th_seq te = Z.max (th_seq th) (end_before N q1) ∧ th_seq te + tqe_len te = th_seq th + tqe_len th).
  { unfold te, entry. destruct (Z.ltb_spec (th_seq th) (end_before N q1)); cbn [th_seq tqe_len]; lia. }
  destruct Hte as [E1 E2]. change (th_seq (norm te)) with (u32 (th_seq te)). change (tqe_len (norm te)) with (tqe_len te).
  destruct (trim_following_run (th_seq te) (tqe_len te) d q2 (th_seq te) (N + SPAN) t3) as
    (q2' & t4 & E & Hcore & Hq4 & Hl4 & Hch & Hcov & Hsub & HS4 & Hf4); [by rewrite E1|lia|lia|lia|lia|].
  rewrite (bind_run _ _ _ _ _ E), modify_run. set (t5 := t4 <| t_segq := _ |>).
  rewrite E2 in *. assert (Hqd' := Hqd). destruct Hqd' as (_ & HS & Hf). apply Forall_app in HS as [_ HS2]. apply Forall_app in Hf as [_ Hf2].
  destruct (insert_queued N th q1 q2 q2' Hqd HN Hn Hhi Hs Hfin He Hc1 Hch (HS4 _ HS2)
    (Hf4 (λ f, has f TH_FIN = false) Hf2)) as [Hqn _].
  fold te in Hqn.
  destruct (same_facts t3 t4 (conj Hcore Hq4)) as (Hn5 & Hso5 & Hr5 & Ht5). specialize (Ht5 Ht3).
  destruct (present_accepted N (th_seq th) (tqe_len th) (q1 ++ q2) (q1 ++ te :: q2') t t5) as (N' & q' & t' & Ep & Ha).
  - done.
  - split_and!.
    + change (rcv_nxt t5) with (rcv_nxt t4). congruence.
    + unfold t5. cbn. by rewrite fmap_app.
    + unfold t5. cbn -[Z.of_nat length]. rewrite length_app in *. cbn [length]. lia.
  - exact Ht5.
  - change (so_rcv t5) with (so_rcv t4). congruence.
  - change (rest t5) with (rest t4). congruence.
  - intros x. rewrite !ivs_app, !covered_app. cbn [fmap list_fmap]. rewrite covered_cons. cbn [seg_iv fst snd]. rewrite E2.
    intros [Hx|[Hx|Hx]].
    + destruct (Z.lt_ge_cases x (th_seq te)); [|right; left; lia]. left. unfold end_before in *.
      destruct (last q1) as [p|] eqn:El; [|lia]. apply last_Some_elem_of in El. exists (seg_iv p).
      split; [by apply list_elem_of_fmap_2|]. rewrite Forall_forall in Hle. specialize (Hle p El). cbn [seg_iv fst snd]. lia.
    + by left.
    + right. destruct (Hcov x Hx) as [Hx'|]; [|by right]. destruct (chain_covered _ _ _ _ Hc2 Hx). left. lia.
  - rewrite (bind_run _ _ _ _ _ Ep). exists N', q', t'. split; [done|]. split; [lia|done].
Qed.

(** The segment between the entries [q1] and [q2]. *)
Lemma enqueue_run N th q1 q2 t t2 :
  queued S (N + 1) N (q1 ++ q2) → same t t2 → waiting N (q1 ++ q2) t → t_reassqlen t2 = t_reassqlen t + 1 → taking t →
  N <= th_seq th → 0 < tqe_len th → th_seq th + tqe_len th <= N + SPAN → of_stream S th → has (th_flags th) TH_FIN = false →
  Forall (λ s, th_seq s <= th_seq th) q1 → (∀ s q', q2 = s :: q' → th_seq th < th_seq s) →
  ∃ n' N' q' t', enqueue (norm th) (norm <$> q1) (norm <$> q2) (overlap (norm <$> q1) (u32 (th_seq th))) t2 = Ret ((0, n'), t') ∧
    0 < n' ∧ accepted N (th_seq th) (tqe_len th) (q1 ++ q2) t N' q' t'.
Proof.
  intros Hqd H2 Hw Hl2 Ht HN Hn Hhi Hs Hfin Hle Hgt. assert (Hc : chain N (N + SPAN) (seg_iv <$> (q1 ++ q2))).
  { eapply chain_weaken; [apply Hqd|lia..]. }
  destruct (place_spec N (N + SPAN) (th_seq th) q1 q2 Hc Hle Hgt ltac:(lia)) as (He & Hc1 & He2 & Hc2).
  destruct (overlap_spec N (th_seq th) q1 ltac:(lia) ltac:(lia)) as [Hi Hi2].
  set (i := overlap (norm <$> q1) (u32 (th_seq th))) in *. set (e := end_before N q1) in *.
  unfold enqueue. match goal with |- context [when ?b ?m ≫= _] =>
    assert (Ht3 : ∃ t3, (∀ X (f : unit → TCP X), (when b m ≫= f) t2 = f tt t3) ∧ same t t3 ∧ t_reassqlen t3 = t_reassqlen t + 1) end.
  { destruct (1 <? i); [|by exists t2]. eexists. split; [intros; apply modify_run|]. by destruct H2. }
  destruct Ht3 as (t3 & -> & H3 & Hl3). clear H2 Hl2 t2. destruct (same_facts _ _ H3) as (Hn3 & Hso3 & Hr3 & Ht3).
  specialize (Ht3 Ht). destruct Hw as (Hnxt & Hq & Hl). destruct H3 as [Hcore3 Hq3].
  change (th_seq (norm th)) with (u32 (th_seq th)). change (tqe_len (norm th)) with (tqe_len th). rewrite Hi.
  destruct ((th_seq th <? e) && (tqe_len th <=? i)) eqn:Ed.
  - rewrite modify_run. set (t4 := t3 <| t_reassqlen := _ |>).
    destruct (present_accepted N (th_seq th) (tqe_len th) (q1 ++ q2) (q1 ++ q2) t t4) as (N' & q' & t' & E & Ha).
    + destruct Hqd as (_ & ? & ?). done.
    + split_and!; [unfold t4; cbn; congruence..|]. unfold t4. cbn -[Z.of_nat]. lia.
    + done.
    + done.
    + done.
    + intros x [Hx|Hx]; [|done]. rewrite ivs_app, covered_app. left. unfold e, end_before in *.
      destruct (last q1) as [p|] eqn:El; [|lia]. apply last_Some_elem_of in El. exists (seg_iv p).
      split; [by apply list_elem_of_fmap_2|]. rewrite Forall_forall in Hle. specialize (Hle p El). cbn [seg_iv fst snd]. lia.
    + rewrite (bind_run _ _ _ _ _ E). exists (tqe_len th), N', q', t'. split; [done|]. done.
  - replace (if th_seq th <? e then _ else _) with (norm (entry N (th_seq th) (tqe_len th) th q1)).
    + destruct (insert_run N th q1 q2 t t3 (1 <? i)) as (N' & q' & t' & E & Hpos & Ha); try done; [lia|by replace (N + SPAN) with (Z.max (th_seq th) (N + SPAN)) by lia|].
      exists (tqe_len (entry N (th_seq th) (tqe_len th) th q1)), N', q', t'. split; [exact E|done].
    + unfold entry. fold e. destruct (Z.ltb_spec (th_seq th) e) as [Hlt|Hge]; [|done]. unfold norm. cbn. rewrite (Hi2 Hlt), u32_add.
      replace (th_seq th + (e - th_seq th)) with e by lia.
      by replace (tqe_len th - (e - th_seq th)) with (th_seq th + tqe_len th - e) by lia.
Qed.

Lemma reass_run N th q t :
  queued S (N + 1) N q → waiting N q t → taking t → N <= th_seq th → 0 < tqe_len th → th_seq th + tqe_len th <= N + SPAN →
  of_stream S th → has (th_flags th) TH_FIN = false →
  ∃ n' t', tcp_reass env (norm th) t = Ret ((0, n'), t') ∧
    ((n' = 0 ∧ same t t' ∧ t_reassqlen t' = t_reassqlen t ∧ th_seq th ≠ N ∧
      (under_pressure env = true ∨ qlimit env <= Z.of_nat (length q) + 1)) ∨
     (0 < n' ∧ ∃ N' q', accepted N (th_seq th) (tqe_len th) q t N' q' t')).
Proof.
  intros Hqd Hw Ht HN Hn Hhi Hs Hfin. unfold tcp_reass, tcp_reset_stretch_ack. rewrite !modify_run.
  match goal with |- context [(get ≫= _) ?t1] => set (t0 := t1) end.
  assert (H0 : same t t0).
  { split; [|done]. unfold core, t0. cbn -[has]. by rewrite has_lor. }
  assert (Hl0 : t_reassqlen t0 = t_reassqlen t) by done. clearbody t0. rewrite get_run.
  destruct (same_facts _ _ H0) as (Hn0 & _). assert (Hw' := Hw). destruct Hw' as (Hnxt & Hq & Hl). rewrite Hn0, Hnxt, Hl0, Hl.
  change (th_seq (norm th)) with (u32 (th_seq th)). rewrite seq_eq by (span; near).
  destruct (negb (th_seq th =? N) && _) eqn:Edrop.
  { exists 0, t0. split; [done|]. left. apply andb_true_iff in Edrop as [E1 E2]. apply orb_true_iff in E2.
    split_and!; [done|done|congruence|lia|]. destruct E2 as [->|]; [by left|right; lia]. }
  clear Edrop. rewrite modify_run. set (t2 := t0 <| t_reassqlen := _ |>).
  replace (t_segq t0) with (norm <$> q) by (destruct H0; congruence).
  assert (Hc : chain N (N + SPAN) (seg_iv <$> q)) by (eapply chain_weaken; [apply Hqd|lia..]).
  destruct (find_place_spec (th_seq th) N q Hc ltac:(span; lia)) as (q1 & q2 & -> & -> & H1 & H2).
  destruct (enqueue_run N th q1 q2 t t2) as (n' & N' & q' & t' & E & Hpos & Ha); try done.
  { unfold t2. cbn -[Z.of_nat]. congruence. }
  exists n', t'. split; [exact E|]. right. split; [done|]. by exists N', q'.
Qed.

(** ** The receiver *)

(** The receiver has given the octets from [N0] to [N] to the socket, holds
    [q], and reports [B]. *)
Record receiver (N0 N : Z) (q : list segment) (B : list (Z * Z)) (t : tcpcb) : Prop := {
  r_waiting : waiting N q t;
  r_queued : queued S (N + 1) N q;
  r_taking : taking t;
  r_window : 0 <= rcv_wnd t <= SPAN;
  r_start : N0 <= N;
  r_data : so_rcv t = slice S N0 (N - N0);
  r_sacks : sacks B t;
  r_separated : separated B;
  r_blocks : Forall (λ b, N < b.1 < b.2) B;
  r_held : ∀ x, covered x B → covered x (seg_iv <$> q) }.

Lemma blocks_bounded N N' q B : queued S (N + 1) N q → Forall (λ b, N < b.1 < b.2) B →
  (∀ x, covered x B → covered x (seg_iv <$> q)) → N <= N' <= N + SPAN → Forall (block_ok N') B.
Proof.
  intros (Hc & _) HB Hh HN. rewrite Forall_forall in *. intros b Hb. specialize (HB b Hb).
  assert (Hx : covered (b.2 - 1) B) by (exists b; split; [done|lia]).
  apply Hh, (chain_covered _ _ _ _ Hc) in Hx. unfold block_ok. lia.
Qed.

(** Noting a segment that was accepted. *)
Lemma note_accepted N0 N X n q B t N' q' t' : receiver N0 N q B t → N <= X → 0 < n → X + n <= N + SPAN →
  accepted N X n q t N' q' t' →
  ∃ B' t2, tcp_update_sack_list env (u32 X) (u32 (X + n)) t' = Ret (tt, t2) ∧ receiver N0 N' q' B' t2.
Proof.
  intros [Hw Hq Ht Hwnd HN0 Hd Hs Hsep HB Hh] HX Hn Hhi (Hw' & HN & Hq' & Hcov & Hso & Hr & Ht').
  destruct (update_run env N' B X (X + n) t') as (B' & t2 & E & Hs2 & Hd2 & Hok & Hgt & Hsound & Hsep' & _).
  - apply Hw'.
  - injection Hr as _ _ _ En Eb. unfold sacks in *. by rewrite Eb, En.
  - by apply (blocks_bounded N N' q B).
  - unfold block_ok. cbn [fst snd]. lia.
  - exists B', t2. split; [done|]. injection Hd2 as Hn2 Hwd2 Hst2 Hq2 Hl2 Hso2 Hcm2 Hi2. injection Hr as Hwd Hst Hcm _ _.
    split.
    + unfold waiting in *. by rewrite Hn2, Hq2, Hl2.
    + done.
    + unfold taking in *. by rewrite Hst2, Hcm2, Hi2.
    + by rewrite Hwd2, Hwd.
    + lia.
    + rewrite Hso2, Hso, Hd. replace (N' - N0) with ((N - N0) + (N' - N)) by lia. rewrite slice_app by lia. do 2 f_equal. lia.
    + done.
    + auto.
    + rewrite Forall_forall in *. intros b Hb. specialize (Hgt b Hb). specialize (Hok b Hb). unfold block_ok in Hok. lia.
    + intros x Hx. assert (HxN : N' < x).
      { destruct Hx as (b & Hb & Hx). rewrite Forall_forall in Hgt. specialize (Hgt b Hb). lia. }
      assert (H : x < N' ∨ covered x (seg_iv <$> q')); [|destruct H; [lia|done]]. apply Hcov.
      destruct (Hsound x Hx) as [?|(b & [_ Hb]%list_elem_of_filter & Hxb)]; [by left|]. right. apply Hh. by exists b.
Qed.

(** ** Trimming to the window *)

(** A segment of data. *)
Definition plain (s : segment) : Prop :=
  of_stream S s ∧ 0 <= tqe_len s <= SPAN ∧ has (th_flags s) TH_FIN = false ∧ has (th_flags s) TH_SYN = false.

Lemma when_flags (b : bool) f t : ∃ t', (∀ X (k : unit → TCP X), (when b (set_flags f) ≫= k) t = k tt t') ∧
  same t t' ∧ t_reassqlen t' = t_reassqlen t.
Proof. destruct b; [|by exists t]. eexists. by split; [intros; apply modify_run|]. Qed.

Lemma trim_head_run N th t : rcv_nxt t = u32 N → N - SPAN <= th_seq th <= N + SPAN → plain th →
  ∃ th' fl t', trim_head env (norm th) t = Ret ((norm th', fl), t') ∧ same t t' ∧ t_reassqlen t' = t_reassqlen t ∧
    plain th' ∧ has fl TH_FIN = false ∧ th_seq th' + tqe_len th' = th_seq th + tqe_len th ∧
    (tqe_len th' = 0 ∨ N <= th_seq th') ∧ (∀ x, N <= x < th_seq th + tqe_len th → th_seq th <= x → th_seq th' <= x) ∧
    (0 < tqe_len th → th_seq th' + tqe_len th' <= N → tqe_len th' = 0).
Proof.
  intros Hn HX Hp. assert (Hp' := Hp). destruct Hp' as (Hs & Hlen & Hfin & Hsyn). unfold trim_head. rewrite get_run, Hn.
  change (th_seq (norm th)) with (u32 (th_seq th)). change (tqe_len (norm th)) with (tqe_len th).
  change (th_flags (norm th)) with (th_flags th). rewrite u32_diff, Hsyn by (span; near).
  destruct (Z.leb_spec (N - th_seq th) 0) as [Hge|Hlt].
  { exists th, (th_flags th), t. split_and!; try done; [right; lia|lia]. }
  cbv zeta. cbn [andb negb]. rewrite andb_true_r, Hfin. cbn [negb]. rewrite andb_true_r.
  set (all := (tqe_len th <? N - th_seq th) || (N - th_seq th =? tqe_len th)).
  destruct (when_flags all TF_ACKNOW t) as (t1 & E1 & H1 & Hl1). unfold acknow. rewrite E1.
  set (d := if all then tqe_len th else N - th_seq th).
  assert (Hd : d = Z.min (tqe_len th) (N - th_seq th)) by (unfold d, all; destruct (_ || _) eqn:E; lia). clearbody d.
  match goal with |- context [when ?b ?m ≫= _] =>
    assert (Ht2 : ∃ t2, (∀ X (k : unit → TCP X), (when b m ≫= k) t1 = k tt t2) ∧ same t t2 ∧ t_reassqlen t2 = t_reassqlen t) end.
  { destruct (1 <? d); [|by exists t1]. eexists. split; [done|]. by destruct H1. }
  destruct Ht2 as (t2 & -> & H2 & Hl2).
  eexists (Segment (th_seq th + d) (th_flags th) (tqe_len th - d) (m_adj d (tqe_m th))), _, t2.
  split. { unfold norm. cbn. by rewrite u32_add. }
  split_and!; try done; cbn [th_seq tqe_len]; try lia.
  - split_and!; cbn [th_seq tqe_len th_flags]; try done; [|lia|lia]. unfold of_stream in *. cbn [th_seq tqe_len tqe_m]. rewrite Hs.
    apply m_adj_slice. lia.
  - destruct all; [apply has_cleared|done].
Qed.

Lemma trim_tail_run N th fl t : rcv_nxt t = u32 N → 0 <= rcv_wnd t <= SPAN → plain th → has fl TH_FIN = false →
  N - SPAN <= th_seq th <= N + SPAN → tqe_len th = 0 ∨ N <= th_seq th →
  ∃ r t', trim_tail (norm th) fl t = Ret (r, t') ∧ same t t' ∧ t_reassqlen t' = t_reassqlen t ∧
    match r with
    | None => N + rcv_wnd t <= th_seq th
    | Some (th', fl') => ∃ s', th' = norm s' ∧ plain s' ∧ has fl' TH_FIN = false ∧ th_seq s' = th_seq th ∧
        (tqe_len s' = 0 ∨ N <= th_seq s' ∧ th_seq s' + tqe_len s' <= N + rcv_wnd t) ∧
        (∀ x, th_seq th <= x < th_seq th + tqe_len th → x < N + rcv_wnd t → x < th_seq s' + tqe_len s')
    end.
Proof.
  intros Hn Hw Hp Hfl HX Hpos. assert (Hp' := Hp). destruct Hp' as (Hs & Hlen & Hfin & Hsyn). unfold trim_tail. rewrite get_run, Hn.
  change (th_seq (norm th)) with (u32 (th_seq th)). change (tqe_len (norm th)) with (tqe_len th).
  rewrite u32_diff_add2, seq_eq by (span; near). set (d := th_seq th + tqe_len th - (N + rcv_wnd t)).
  destruct (Z.leb_spec d 0) as [Hd|Hd].
  { eexists _, t. split; [reflexivity|]. split_and!; [done..|]. exists th. split_and!; try done; lia. }
  assert (Hcut : tqe_len th <= d → (rcv_wnd t =? 0) && (th_seq th =? N) = false → N + rcv_wnd t <= th_seq th) by lia.
  set (s' := Segment (th_seq th) (th_flags th) (tqe_len th - d) (m_adj (- d) (tqe_m th))).
  assert (Hs' : d <= tqe_len th → plain s').
  { unfold s'. intros Hdl. split_and!; cbn [th_seq tqe_len th_flags]; try done; [|lia|lia]. unfold of_stream in *. cbn [th_seq tqe_len tqe_m].
    rewrite Hs. apply m_adj_slice_tail. lia. }
  assert (Hf' : has (Z.ldiff fl (Z.lor TH_PUSH TH_FIN)) TH_FIN = false).
  { unfold has, truthy in *. apply negb_false_iff, Z.eqb_eq in Hfl. apply negb_false_iff, Z.eqb_eq.
    rewrite Z.ldiff_land, (Z.land_comm fl), <- Z.land_assoc, Hfl. apply Z.land_0_r. }
  destruct (Z.leb_spec (tqe_len th) d) as [Hall|Hpart]; [destruct ((rcv_wnd t =? 0) && (th_seq th =? N)) eqn:Ez|].
  - eexists _, _. split; [reflexivity|]. split_and!; [done..|]. exists s'. split; [reflexivity|].
    unfold s'. split_and!; [apply Hs'; lia|done|done|cbn; lia|cbn; lia].
  - eexists _, _. split; [reflexivity|]. split_and!; [done..|]. by apply Hcut.
  - eexists _, _. split; [reflexivity|]. split_and!; [done..|]. exists s'. split; [reflexivity|].
    unfold s'. split_and!; [apply Hs'; lia|done|done|cbn; lia|cbn; lia].
Qed.

(** ** The data path *)

Lemma receiver_same N0 N q B t t' : same t t' → t_reassqlen t' = t_reassqlen t → receiver N0 N q B t → receiver N0 N q B t'.
Proof.
  intros [Hc Hq] Hl [Hw Hqd Ht Hwnd HN0 Hd Hs Hsep HB Hh]. injection Hc as En Ew Es Ed Ec Eu Eb Ei.
  split; try done.
  - unfold waiting in *. by rewrite En, Hq, Hl.
  - unfold taking in *. by rewrite Es, Ec, Ei.
  - by rewrite Ew.
  - by rewrite Ed.
  - unfold sacks in *. by rewrite Eb, Eu.
Qed.

(** The segment does not find room in the queue. *)
Definition no_room (N : Z) (th : segment) (q : list segment) : Prop :=
  th_seq th ≠ N ∧ (under_pressure env = true ∨ qlimit env <= Z.of_nat (length q) + 1).

Lemma text_fast N0 N B th t :
  receiver N0 N [] B t → of_stream S th → 0 < tqe_len th <= SPAN → th_seq th = N →
  ∃ t', text env (norm th) t = Ret ((Z.land (th_flags th) TH_FIN, tqe_len th), t') ∧ accepted N (th_seq th) (tqe_len th) [] t (N + tqe_len th) [] t'.
Proof.
  intros [Hw Hq Ht Hwnd HN0 Hd Hs Hsep HB Hh] Hst Hn EX. destruct Hw as (Hnxt & Hsq & Hl).
  unfold text. rewrite get_run, Hnxt, Hsq. change (th_seq (norm th)) with (u32 (th_seq th)). rewrite EX, Z.eqb_refl.
  change (tqe_len (norm th)) with (tqe_len th). rewrite bool_decide_true by done. cbn [andb].
  assert (H1 : ∃ t1, (∀ X (k : unit → TCP X), ((if delay_ack env && negb (has (t_flags t) TF_ACKNOW) then set_flags TF_DELACK
    else acknow) ≫= k) t = k tt t1) ∧ same t t1 ∧ t_reassqlen t1 = t_reassqlen t).
  { destruct (_ && _); eexists; (split; [intros; apply modify_run|done]). }
  destruct H1 as (t1 & -> & H1 & Hl1). destruct (same_facts _ _ H1) as (Hn1 & Hso1 & Hr1 & Ht1). specialize (Ht1 Ht).
  rewrite modify_run, get_run. unfold note_high, sbappendstream. rewrite !modify_run.
  match goal with |- context [mret _ ?t2] => set (t3 := t2) end. exists t3. split; [done|].
  assert (H3 : rcv_nxt t3 = u32 (rcv_nxt t1 + tqe_len th) ∧ t_segq t3 = t_segq t1 ∧ t_reassqlen t3 = t_reassqlen t1 ∧
    so_rcv t3 = so_rcv t1 ++ tqe_m th ∧ rest t3 = rest t1 ∧ (taking t1 → taking t3)).
  { unfold t3. clear -Ht1. cbn. destruct (SEQ_LT _ _); (split_and!; [done..|]); intros (? & ? & ? & ?); (split_and!; [done..|]); cbn -[has];
      destruct (has (th_flags th) TH_PUSH); rewrite ?has_lor, ?has_ldiff by done; done. }
  clearbody t3. destruct H3 as (E1 & E2 & E3 & E4 & E5 & E6). destruct H1 as [Hc1 Hq1]. split_and!; try done; try (span; lia).
  - split_and!; [rewrite E1, Hn1, Hnxt; apply u32_add|by rewrite E2, Hq1, Hsq|by rewrite E3, Hl1, Hl].
  - split; [simpl; span; lia|done].
  - intros x [Hx|Hx%covered_nil]; [left; lia|done].
  - rewrite E4, Hso1, Hst, EX. do 2 f_equal. lia.
  - by rewrite E5.
  - auto.
Qed.

Lemma text_run N0 N q B th t :
  receiver N0 N q B t → plain th → 0 < tqe_len th → N <= th_seq th → th_seq th + tqe_len th <= N + SPAN →
  ∃ n' t', text env (norm th) t = Ret ((0, n'), t') ∧
    ((n' = 0 ∧ same t t' ∧ t_reassqlen t' = t_reassqlen t ∧ no_room N th q) ∨
     (0 < n' ∧ ∃ N' q', accepted N (th_seq th) (tqe_len th) q t N' q' t')).
Proof.
  intros Hrec Hp Hn HN Hhi. destruct (decide (th_seq th = N ∧ q = [])) as [[EX ->]|Hslow].
  { destruct Hp as (Hst & Hlen & Hfin & _). destruct (text_fast _ _ _ _ _ Hrec Hst ltac:(lia) EX) as (t' & E & Ha). exists (tqe_len th), t'.
    unfold has, truthy in Hfin. apply negb_false_iff, Z.eqb_eq in Hfin. rewrite Hfin in E. split; [done|].
    right. split; [done|]. by exists (N + tqe_len th), []. }
  assert (H := Hrec). destruct H as [(Hnxt & Hsq & Hl) Hq _ _ _ _ _ _ _ _]. destruct Hp as (Hst & Hlen & Hfin & Hsyn).
  unfold text. rewrite get_run, Hnxt, Hsq. change (th_seq (norm th)) with (u32 (th_seq th)). rewrite seq_eq by (span; near).
  destruct ((th_seq th =? N) && bool_decide (norm <$> q = [])) eqn:Efast.
  { apply andb_true_iff in Efast as [EX%Z.eqb_eq Eq%bool_decide_eq_true]. destruct Hslow. split; [done|].
    by apply fmap_nil_inv in Eq. }
  unfold note_high. rewrite modify_run. match goal with |- context [(tcp_reass _ _ ≫= _) ?t1] => set (t1' := t1) end.
  assert (H1 : same t t1' ∧ t_reassqlen t1' = t_reassqlen t) by (unfold t1'; by destruct (SEQ_LT _ _)). clearbody t1'.
  destruct H1 as [H1 Hl1]. destruct (receiver_same _ _ _ _ _ _ H1 Hl1 Hrec) as [Hw1 _ Ht1 _ _ _ _ _ _ _].
  destruct (same_facts _ _ H1) as (Hn1 & Hso1 & Hr1 & _).
  destruct (reass_run N th q t1' Hq Hw1 Ht1 HN Hn Hhi Hst Hfin) as (n' & t2 & E & Hres). rewrite (bind_run _ _ _ _ _ E).
  unfold acknow, set_flags. rewrite modify_run. eexists n', _. split; [reflexivity|].
  destruct Hres as [(-> & H2 & Hl2 & Hroom)|(Hpos & N' & q' & Ha)]; [left|right].
  - split_and!; [done|destruct H1, H2; split; by etrans|by etrans|done..].
  - split; [done|]. exists N', q'. destruct Ha as (A1 & A2 & A3 & A4 & A5 & A6 & A7). split_and!; try done; try lia.
    + by rewrite <- Hso1.
    + by rewrite <- Hr1.
Qed.

(** What the data path promises for a segment. *)
Definition taken (N0 N : Z) (q : list segment) (th : segment) (t' : tcpcb) : Prop :=
  ∃ N' q' B', receiver N0 N' q' B' t' ∧ N <= N' ∧
    (∀ x, covered x (seg_iv <$> q) → x < N' ∨ covered x (seg_iv <$> q')) ∧
    (no_room N th q ∨ ∀ x, th_seq th <= x < th_seq th + tqe_len th → x < N' ∨ covered x (seg_iv <$> q')).

Lemma dodata_run N0 N q B th fl t :
  receiver N0 N q B t → plain th → has fl TH_FIN = false →
  tqe_len th = 0 ∨ N <= th_seq th ∧ th_seq th + tqe_len th <= N + SPAN →
  ∃ fl' t', dodata env (norm th) fl t = Ret (fl', t') ∧ has fl' TH_FIN = false ∧ taken N0 N q th t'.
Proof.
  intros Hrec Hp Hfl Hpos. assert (H := Hp). destruct H as (_ & Hlen & Hfin & _). unfold dodata. rewrite get_run.
  change (tqe_len (norm th)) with (tqe_len th). rewrite Hfl, orb_false_r. unfold truthy.
  destruct (Z.eqb_spec (tqe_len th) 0) as [E0|Hne]; cbn [negb andb].
  { eexists _, t. split; [reflexivity|]. split; [apply has_cleared|]. exists N, q, B. split_and!; [done|lia|auto|]. right. lia. }
  assert (Ht := r_taking _ _ _ _ _ Hrec). destruct Ht as (He & Hf & _). rewrite He, Hf. cbn [negb andb].
  destruct (text_run N0 N q B th t Hrec Hp ltac:(lia) ltac:(lia) ltac:(lia)) as (n' & t1 & E & Hres). rewrite (bind_run _ _ _ _ _ E).
  change (th_flags (norm th)) with (th_flags th). rewrite Hfin, orb_false_r. change (th_seq (norm th)) with (u32 (th_seq th)).
  rewrite u32_add. destruct Hres as [(-> & H1 & Hl1 & Hroom)|(Hpos' & N' & q' & Ha)].
  - exists 0, t1. split; [done|]. split; [done|]. exists N, q, B. split_and!; [by eapply receiver_same|lia|auto|by left].
  - destruct (note_accepted N0 N (th_seq th) (tqe_len th) q B t N' q' t1 Hrec ltac:(lia) ltac:(lia) ltac:(lia) Ha)
      as (B' & t2 & E2 & Hrec2).
    rewrite (proj2 (Z.ltb_lt 0 n')) by done. cbn [when]. rewrite (bind_run _ _ _ _ _ E2). exists 0, t2. split; [done|]. split; [done|].
    destruct Ha as (_ & HN & _ & Hcov & _). exists N', q', B'. split_and!; [done|lia|by intros x Hx; apply Hcov; right|].
    right. intros x Hx. apply Hcov. by left.
Qed.
End reassembly.

(** ** Theorems *)

(** C25: Data arrives in order and once. Whatever segments of a stream arrive, in
    whatever order, repeated, overlapping or outside of the window, the octets in
    the socket buffer are the stream from its start up to [rcv_nxt] (in
    unbounded sequence numbers, of which the fields hold the low 32 bits), the queue holds the
    rest without gaps at its start, nothing received is lost later, and an octet inside the
    window is taken in unless there is no room in the queue; the blocks of
    the SACK option are separate, after [rcv_nxt], and all their octets are in the queue. *)
Theorem tcp_input_data_correct (env : environment) (S : Z → Z) (N0 N : Z) (q : list segment) (B : list (Z * Z)) (t : tcpcb) (th : segment) :
  receiver S N0 N q B t → close_it env = false → plain S th → N - SPAN <= th_seq th → th_seq th + tqe_len th <= N + SPAN →
  ∃ f t', tcp_input_data env (norm th) t = Ret (f, t') ∧ f ≠ Reset ∧
    ∃ N' q' B', receiver S N0 N' q' B' t' ∧ N <= N' ∧
      (∀ x, covered x (seg_iv <$> q) → x < N' ∨ covered x (seg_iv <$> q')) ∧
      (∀ x, th_seq th <= x < th_seq th + tqe_len th → x < N + rcv_wnd t → x < N' ∨ covered x (seg_iv <$> q') ∨
        under_pressure env = true ∨ qlimit env <= Z.of_nat (length q) + 1).
Proof.
  intros Hrec Hclose Hp HX Hhi. assert (Hp' := Hp). destruct Hp' as (_ & Hlen & _ & _). assert (Hr := Hrec).
  destruct Hr as [(Hn & _ & _) _ Htk Hwnd _ _ _ _ _ _]. unfold tcp_input_data.
  destruct (trim_head_run env S N th t Hn ltac:(lia) Hp) as (th1 & fl1 & t1 & E1 & H1 & Hl1 & Hp1 & Hfl1 & Eend & Hpos1 & Hx1 & _).
  rewrite (bind_run _ _ _ _ _ E1), get_run. assert (Hrec1 := receiver_same S _ _ _ _ _ _ H1 Hl1 Hrec).
  rewrite Hclose. assert (Hcm : cantrcvmore t1 = false) by apply Hrec1. rewrite Hcm, andb_false_r.
  assert (Hn1 : rcv_nxt t1 = u32 N) by apply Hrec1. assert (Hw1 := r_window _ _ _ _ _ _ Hrec1).
  assert (Ew : rcv_wnd t1 = rcv_wnd t) by (destruct H1 as [Hc _]; injection Hc; done).
  assert (Hs1 : N - SPAN <= th_seq th1 <= N + SPAN). { destruct Hp1 as (_ & ? & _). lia. }
  destruct (trim_tail_run S N th1 fl1 t1 Hn1 Hw1 Hp1 Hfl1 Hs1 Hpos1) as (r & t2 & E2 & H2 & Hl2 & Hr).
  rewrite (bind_run _ _ _ _ _ E2). assert (Hrec2 := receiver_same S _ _ _ _ _ _ H2 Hl2 Hrec1). rewrite Ew in *.
  destruct r as [[th2 fl2]|].
  - destruct Hr as (s & -> & Hp2 & Hfl2 & Es & Hpos2 & Hx2).
    destruct (dodata_run env S N0 N q B s fl2 t2 Hrec2 Hp2 Hfl2 ltac:(lia)) as (fl3 & t3 & E3 & Hfl3 & N' & q' & B' & Hrec3 & HN & Hcov & Hall).
    rewrite (bind_run _ _ _ _ _ E3). unfold process_fin. rewrite Hfl3. exists Kept, t3. split; [done|]. split; [done|].
    exists N', q', B'. split_and!; [done..|]. intros x Hx Hxw. destruct (Z.lt_ge_cases x N) as [|HxN]; [left; lia|].
    specialize (Hx1 x ltac:(lia) ltac:(lia)). specialize (Hx2 x ltac:(lia) ltac:(lia)).
    destruct Hall as [[_ ?]|Hall]; [tauto|]. specialize (Hall x ltac:(lia)). tauto.
  - exists Dropped, t2. split; [done|]. split; [done|]. exists N, q, B. split_and!; [done|lia|auto|].
    intros x Hx Hxw. destruct (Z.lt_ge_cases x N) as [|HxN]; [left; lia|]. specialize (Hx1 x ltac:(lia) ltac:(lia)). lia.
Qed.

(** C34: The SACK list is that of RFC 2018. After a segment beyond [rcv_nxt] was received the
    first block contains it; the blocks are separate, begin after [rcv_nxt] and report only what
    was reported before or is received now; and nothing reported before is
    lost as long as the list is not full. *)
Theorem sack_list_correct (env : environment) (N : Z) (B : list (Z * Z)) (a b : Z) (t : tcpcb) :
  rcv_nxt t = u32 N → sacks B t → Forall (block_ok N) B → separated B → block_ok N (a, b) →
  ∃ B' t', tcp_update_sack_list env (u32 a) (u32 b) t = Ret (tt, t') ∧ sacks B' t' ∧ data_part t' = data_part t ∧
    (length B' <= MAX_SACK_BLKS)%nat ∧ separated B' ∧ Forall (λ c, N < c.1 < c.2) B' ∧
    (∀ x, covered x B' → a <= x < b ∨ covered x B) ∧
    (N < a → ∃ h l, B' = h :: l ∧ h.1 <= a ∧ b <= h.2) ∧
    (N < a → (length B' < MAX_SACK_BLKS)%nat → ∀ x, N < x → a <= x < b ∨ covered x (filter (λ c, N < c.1) B) → covered x B').
Proof.
  intros Hn Hs HB Hsep Hab. destruct (update_run env N B a b t Hn Hs HB Hab) as (B' & t' & E & Hs' & Hd & Hok & Hgt & Hsound & Hsep' & Hhd & Hall).
  exists B', t'. split_and!; try done.
  - destruct Hs' as (pad & E' & _ & Hl). rewrite <- Hl, E', length_app, length_fmap. lia.
  - auto.
  - rewrite Forall_forall in *. intros c Hc. specialize (Hok c Hc). specialize (Hgt c Hc). unfold block_ok in Hok. lia.
  - intros x Hx. destruct (Hsound x Hx) as [?|(c & [_ ?]%list_elem_of_filter & ?)]; [by left|right]. by exists c.
  - intros Ha Hl x _ Hx. by apply Hall.
Qed.

(** A segment with a FIN. *)
Definition fin_segment (S : Z → Z) (X n : Z) : segment := Segment X TH_FIN n (slice S X n).

Lemma trim_head_ahead env N th t : rcv_nxt t = u32 N → N <= th_seq th <= N + SPAN →
  trim_head env (norm th) t = Ret ((norm th, th_flags th), t).
Proof.
  intros Hn HX. unfold trim_head. rewrite get_run, Hn. change (th_seq (norm th)) with (u32 (th_seq th)).
  rewrite u32_diff by (span; near). by rewrite (proj2 (Z.leb_le (N - th_seq th) 0)) by lia.
Qed.
Lemma trim_tail_excess N th t : rcv_nxt t = u32 N → 0 <= rcv_wnd t <= SPAN → N <= th_seq th <= N + SPAN → 0 <= tqe_len th <= SPAN →
  s32 (th_seq (norm th) + tqe_len (norm th) - (rcv_nxt t + rcv_wnd t)) = th_seq th + tqe_len th - (N + rcv_wnd t).
Proof.
  intros Hn Hw HX Hl. rewrite Hn. change (th_seq (norm th)) with (u32 (th_seq th)). change (tqe_len (norm th)) with (tqe_len th).
  apply u32_diff_add2. span. near.
Qed.

Lemma process_fin_run t : t_state t = TCPS_ESTABLISHED →
  ∃ t', process_fin TH_FIN t = Ret (tt, t') ∧ t_state t' = TCPS_CLOSE_WAIT ∧ cantrcvmore t' = true ∧
    rcv_nxt t' = u32 (rcv_nxt t + 1) ∧ so_rcv t' = so_rcv t.
Proof.
  intros Hst. unfold process_fin. change (has TH_FIN TH_FIN) with true. cbv iota. rewrite get_run, Hst. eexists. split; [reflexivity|].
  cbn. by rewrite Hst.
Qed.

(** C38: A segment with a FIN that reaches beyond the window closes the connection too
    early: [trim_tail] drops the data after the window and clears the FIN in its
    copy of the flags, but the flags of the header are the ones used afterwards.
    The socket gets the octets of the window and can receive no more, and the
    FIN counts as the octet after them. *)
Theorem fin_beyond_window (env : environment) (S : Z → Z) (N0 N : Z) (B : list (Z * Z)) (t : tcpcb) (n : Z) :
  receiver S N0 N [] B t → close_it env = false → t_state t = TCPS_ESTABLISHED → 0 < rcv_wnd t < n → n <= SPAN →
  ∃ t', tcp_input_data env (norm (fin_segment S N n)) t = Ret (Kept, t') ∧ t_state t' = TCPS_CLOSE_WAIT ∧
    cantrcvmore t' = true ∧ rcv_nxt t' = u32 (N + rcv_wnd t + 1) ∧ so_rcv t' = slice S N0 (N + rcv_wnd t - N0).
Proof.
  intros Hrec Hclose Hst Hw Hn. assert (Hr := Hrec). destruct Hr as [(Hnxt & Hsq & Hl) _ Htk Hwnd HN0 Hd _ _ _ _].
  unfold tcp_input_data. rewrite (bind_run _ _ _ _ _ (trim_head_ahead env N (fin_segment S N n) t Hnxt ltac:(cbn; span; lia))), get_run.
  destruct Htk as (_ & _ & Hcm & _). rewrite Hclose, Hcm, andb_false_r.
  set (w := rcv_wnd t) in *. set (s := Segment N TH_FIN w (slice S N w)).
  rewrite (bind_run _ _ t (Some (norm s, 0)) t).
  2:{ unfold trim_tail. rewrite get_run, (trim_tail_excess N) by (cbn; span; lia). fold w.
      change (tqe_len (norm (fin_segment S N n))) with n. change (tqe_m (norm (fin_segment S N n))) with (slice S N n).
      change (tqe_len (fin_segment S N n)) with n. change (th_seq (fin_segment S N n)) with N.
      replace (N + n - (N + w)) with (n - w) by lia. rewrite (proj2 (Z.leb_gt (n - w) 0)), (proj2 (Z.leb_gt n (n - w))) by lia.
      rewrite m_adj_slice_tail by lia. by replace (n - (n - w)) with w by lia. }
  destruct (text_fast env S N0 N B s t Hrec eq_refl ltac:(cbn; lia) eq_refl) as (t1 & E1 & Hw1 & HN1 & _ & _ & Hso1 & Hr1 & Ht1).
  change (tqe_len s) with w in *. change (th_seq s) with N in *. injection Hr1 as Ew1 Est1 Ecm1 En1 Eb1. destruct Hrec as [_ Hq0 _ _ _ _ Hs0 _ HB0 Hh0].
  destruct (update_run env (N + w) B N (N + w + 1) t1) as (B' & t2 & E2 & Hs2 & Hd2 & _).
  { apply Hw1. }
  { unfold sacks in *. by rewrite En1, Eb1. }
  { apply (blocks_bounded S N (N + w) [] B); [done|done|done|lia]. }
  { unfold block_ok. cbn [fst snd]. span. lia. }
  injection Hd2 as Enx2 _ Est2 _ _ Eso2 _ _. rewrite (bind_run (dodata env (norm s) 0) _ t TH_FIN t2).
  - destruct (process_fin_run t2 ltac:(congruence)) as (t3 & E3 & F1 & F2 & F3 & F4). rewrite (bind_run _ _ _ _ _ E3).
    exists t3. split_and!; [done..|rewrite F3, Enx2; destruct Hw1 as [-> _]; by rewrite u32_add|].
    rewrite F4, Eso2, Hso1, Hd. replace (N + w - N0) with ((N - N0) + w) by lia. rewrite slice_app by lia. do 2 f_equal; lia.
  - unfold dodata. rewrite get_run, Hst. change (truthy (tqe_len (norm s))) with (negb (w =? 0)).
    rewrite (proj2 (Z.eqb_neq w 0)) by lia. cbn [negb orb].
    change (TCPS_HAVERCVDFIN TCPS_ESTABLISHED) with false. change (TCPS_HAVEESTABLISHED TCPS_ESTABLISHED) with true.
    cbn [negb andb]. rewrite (bind_run _ _ _ _ _ E1). change (Z.land (th_flags s) TH_FIN) with TH_FIN.
    change (has (th_flags (norm s)) TH_FIN) with true. rewrite orb_true_r. cbn [when].
    change (th_seq (norm s)) with (u32 N). change (tqe_len (norm s)) with w. rewrite u32_add, <- Z.add_assoc, u32_add, Z.add_assoc. by rewrite (bind_run _ _ _ _ _ E2).
Qed.

(** C39: A segment with a FIN for which there is no room in the queue is
    reported in the SACK option all the same: the queue stays as it is, and
    the first block has all octets of the segment. *)
Theorem fin_dropped_reported (env : environment) (S : Z → Z) (N0 N : Z) (q : list segment) (B : list (Z * Z)) (t : tcpcb) (X n : Z) :
  receiver S N0 N q B t → close_it env = false → under_pressure env = true → N < X → 0 < n → X + n + 1 <= N + rcv_wnd t →
  ∃ t', tcp_input_data env (norm (fin_segment S X n)) t = Ret (Kept, t') ∧ t_segq t' = t_segq t ∧ rcv_nxt t' = rcv_nxt t ∧
    ∃ h l, sacks (h :: l) t' ∧ h.1 <= X ∧ X + n < h.2.
Proof.
  intros Hrec Hclose Hpress HX Hn Hhi. assert (Hr := Hrec).
  destruct Hr as [(Hnxt & Hsq & Hl) Hq (He & Hf & Hcm & Hi) Hwnd _ _ Hs Hsep HB Hh].
  set (s := fin_segment S X n). unfold tcp_input_data.
  rewrite (bind_run _ _ _ _ _ (trim_head_ahead env N s t Hnxt ltac:(cbn; lia))), get_run. rewrite Hclose, Hcm, andb_false_r.
  rewrite (bind_run _ _ t (Some (norm s, TH_FIN)) t).
  2:{ unfold trim_tail. rewrite get_run, (trim_tail_excess N) by (cbn; lia). cbn [th_seq tqe_len s fin_segment].
      by rewrite (proj2 (Z.leb_le _ 0)) by lia. }
  assert (Ht1 : ∃ t1, text env (norm s) t = Ret ((0, 0), t1) ∧ data_part t1 = data_part t ∧ sacks B t1).
  { unfold text. rewrite get_run, Hnxt. change (th_seq (norm s)) with (u32 X). rewrite seq_eq by (span; near).
    rewrite (proj2 (Z.eqb_neq X N)) by lia. cbn [andb]. unfold note_high. rewrite modify_run.
    match goal with |- context [(tcp_reass _ _ ≫= _) ?t0] => set (t0' := t0) end.
    assert (H0 : data_part t0' = data_part t ∧ sacks B t0') by (unfold t0'; by destruct (SEQ_LT _ _)). clearbody t0'. destruct H0 as [Hd0 Hs0].
    assert (Hn0 : rcv_nxt t0' = u32 N) by (injection Hd0; congruence).
    assert (E : ∃ t1, tcp_reass env (norm s) t0' = Ret ((0, 0), t1) ∧ data_part t1 = data_part t ∧ sacks B t1).
    { unfold tcp_reass, tcp_reset_stretch_ack. rewrite !modify_run, get_run. cbn [rcv_nxt update_field]. rewrite Hn0.
      change (th_seq (norm s)) with (u32 X). rewrite seq_eq by (span; near). rewrite (proj2 (Z.eqb_neq X N)), Hpress by lia.
      eexists. split; [reflexivity|]. split; [|done]. rewrite <- Hd0. unfold data_part. cbn -[has]. by rewrite has_lor. }
    destruct E as (t1 & E & Hd1 & Hs1). rewrite (bind_run _ _ _ _ _ E). by eexists. }
  destruct Ht1 as (t1 & E1 & Hd1 & Hs1). injection Hd1 as Enx1 _ _ Esq1 _ _ _ _.
  destruct (update_run env N B X (X + n + 1) t1) as (B' & t2 & E2 & Hs2 & Hd2 & _ & _ & _ & _ & Hhd & _).
  { by rewrite Enx1. }
  { done. }
  { apply (blocks_bounded S N N q B); [done|done|done|span; lia]. }
  { unfold block_ok. cbn [fst snd]. span. lia. }
  injection Hd2 as Enx2 _ _ Esq2 _ _ _ _. destruct (Hhd HX) as (h & l & -> & H1 & H2).
  rewrite (bind_run (dodata env (norm s) TH_FIN) _ t 0 t2).
  - exists t2. split_and!; [done|congruence|congruence|]. exists h, l. split_and!; [done|done|lia].
  - unfold dodata. rewrite get_run, He, Hf. change (has TH_FIN TH_FIN) with true. rewrite orb_true_r. cbn [negb andb].
    rewrite (bind_run _ _ _ _ _ E1). change (has (th_flags (norm s)) TH_FIN) with true. cbn [orb when]. rewrite orb_true_r.
    change (th_seq (norm s)) with (u32 X). change (tqe_len (norm s)) with n. rewrite u32_add, <- Z.add_assoc, u32_add, Z.add_assoc. by rewrite (bind_run _ _ _ _ _ E2).
Qed.

(** ** A connection whose sequence numbers are about to wrap *)

Definition sample_stream (x : Z) : Z := x mod 256.
Definition sample_start : Z := 2 ^ 32 - 2.
Definition sample_env (pressure : bool) : environment := Environment 0 0 131072 4194304 pressure false false false.
Definition sample_tcpcb : tcpcb :=
  Tcpcb (2 ^ 32 - 2) 1000 0 TCPS_ESTABLISHED 0 0 [] 0 0 0 0 (replicate MAX_SACK_BLKS (Sackblk 0 0)) 0 0 0 0 0 [] false.
Definition sample_segment : segment := Segment (sample_start + 4) 0x10 3 (slice sample_stream (sample_start + 4) 3).

Lemma sample_receiver : receiver sample_stream sample_start sample_start [] [] sample_tcpcb.
Proof.
  split; try done.
  - by exists (replicate MAX_SACK_BLKS (Sackblk 0 0)).
Qed.

Lemma tcp_input_data_correct_witness :
  ∃ f t', tcp_input_data (sample_env false) (norm sample_segment) sample_tcpcb = Ret (f, t') ∧ f ≠ Reset.
Proof.
  destruct (tcp_input_data_correct (sample_env false) sample_stream sample_start sample_start [] [] sample_tcpcb sample_segment
    sample_receiver eq_refl) as (f & t' & E & Hf & _).
  - repeat split; vm_compute; discriminate.
  - vm_compute. discriminate.
  - vm_compute. discriminate.
  - by exists f, t'.
Defined.

Lemma sack_list_correct_witness :
  ∃ B' t', tcp_update_sack_list (sample_env false) (u32 (sample_start + 4)) (u32 (sample_start + 7)) sample_tcpcb = Ret (tt, t') ∧
    sacks B' t' ∧ separated B'.
Proof.
  destruct (sack_list_correct (sample_env false) sample_start [] (sample_start + 4) (sample_start + 7) sample_tcpcb)
    as (B' & t' & E & Hs & _ & _ & Hsep & _).
  - done.
  - apply sample_receiver.
  - constructor.
  - done.
  - repeat split; vm_compute; discriminate.
  - by exists B', t'.
Defined.

Lemma fin_beyond_window_witness :
  ∃ t', tcp_input_data (sample_env false) (norm (fin_segment sample_stream sample_start 1460)) sample_tcpcb = Ret (Kept, t') ∧
    cantrcvmore t' = true ∧ rcv_nxt t' = 999.
Proof.
  destruct (fin_beyond_window (sample_env false) sample_stream sample_start sample_start [] sample_tcpcb 1460 sample_receiver)
    as (t' & E & _ & Hc & Hn & _); [done|done|vm_compute; done|vm_compute; discriminate|].
  by exists t'.
Defined.

Lemma fin_dropped_reported_witness :
  ∃ t', tcp_input_data (sample_env true) (norm (fin_segment sample_stream (sample_start + 4) 3)) sample_tcpcb = Ret (Kept, t') ∧
    t_segq t' = [] ∧ rcv_nxt t' = 2 ^ 32 - 2.
Proof.
  destruct (fin_dropped_reported (sample_env true) sample_stream sample_start sample_start [] [] sample_tcpcb (sample_start + 4) 3
    sample_receiver) as (t' & E & Hq & Hn & _); [done|done|vm_compute; done|done|vm_compute; discriminate|].
  by exists t'.
Defined.
