(* ===== verification/TcpOpt.v ===== *)
(** * TcpOpt: the options of a received segment (bsd/netinet/tcp_input.c)

    [tcp_dooptions] reads the options of a segment in a kernel without MPTCP.
    Reading outside of the options is [Crash]; whatever the octets are, the
    blocks of a SACK option that it finds are inside of them. *)

From S2P Require Import Prelude TcpSeq TcpReass.

(** ** Reading *)

Definition TCPOPT_EOL : Z := 0.
Definition TCPOPT_MAXSEG : Z := 2.
Definition TCPOLEN_MAXSEG : Z := 4.
Definition TCPOPT_WINDOW : Z := 3.
Definition TCPOLEN_WINDOW : Z := 3.
Definition TCPOPT_SACK_PERMITTED : Z := 4.
Definition TCPOLEN_SACK_PERMITTED : Z := 2.
Definition TCPOPT_TIMESTAMP : Z := 8.
Definition TCPOLEN_TIMESTAMP : Z := 10.
Definition TCPOPT_FASTOPEN : Z := 34.
Definition TCPOLEN_FASTOPEN_REQ : Z := 2.
Definition TFO_COOKIE_LEN_MIN : Z := 4.
Definition TFO_COOKIE_LEN_MAX : Z := 16.
Definition TCP_MAX_WINSHIFT : Z := 14.
Definition TCPS_LISTEN : Z := 1.
Definition TCPS_SYN_SENT : Z := 2.
Definition TOF_TS : Z := 0x0001.
Definition TOF_MSS : Z := 0x0010.
Definition TOF_SCALE : Z := 0x0020.
Definition TOF_SACK : Z := 0x0100.
Definition TOF_TFO : Z := 0x0400.
Definition TOF_TFOREQ : Z := 0x0800.

(** The options that were found; the pointers are the octets from there on.
    [req_tstmp] is [TF_REQ_TSTMP] of the connection. *)
Record tcpopt := Tcpopt {
  to_flags : Z;
  to_tsval : Z;
  to_tsecr : Z;
  to_mss : Z;
  to_requested_s_scale : Z;
  to_nsacks : Z;
  to_sacks : bytes;
  to_tfo : bytes;
  req_tstmp : bool }.
#[export] Instance eta_tcpopt : Eta tcpopt := λ o,
  Tcpopt (to_flags o) (to_tsval o) (to_tsecr o) (to_mss o) (to_requested_s_scale o) (to_nsacks o) (to_sacks o) (to_tfo o) (req_tstmp o).

Section options.
Context (syn : bool) (state ts_offset : Z).

(** One option at [cp] of the length [optlen]. *)
Definition do_option (cp : bytes) (opt optlen : Z) (to : tcpopt) : outcome tcpopt :=
  let flag f to := to <| to_flags := Z.lor (to_flags to) f |> in
  if opt =? TCPOPT_MAXSEG then
    if negb (optlen =? TCPOLEN_MAXSEG) || negb syn then Ret to
    else mss ← of_opt (rd16 cp 2); Ret (flag TOF_MSS (to <| to_mss := mss |>))
  else if opt =? TCPOPT_WINDOW then
    if negb (optlen =? TCPOLEN_WINDOW) || negb syn then Ret to
    else sc ← of_opt (rd8 cp 2); Ret (flag TOF_SCALE to <| to_requested_s_scale := Z.min sc TCP_MAX_WINSHIFT |>)
  else if opt =? TCPOPT_TIMESTAMP then
    if negb (optlen =? TCPOLEN_TIMESTAMP) then Ret to
    else
      tsval ← of_opt (rd32 cp 2);
      tsecr ← of_opt (rd32 cp 6);
      Ret (flag TOF_TS to <| to_tsval := tsval |> <| to_tsecr := u32 (tsecr - ts_offset) |> <| req_tstmp := true |>)
  else if opt =? TCPOPT_SACK_PERMITTED then
    if negb (optlen =? TCPOLEN_SACK_PERMITTED) || negb syn then Ret to else Ret (flag TOF_SACK to)
  else if opt =? TCPOPT_SACK then
    if (optlen <=? 2) || negb ((optlen - 2) mod TCPOLEN_SACK =? 0) then Ret to
    else Ret (to <| to_nsacks := (optlen - 2) / TCPOLEN_SACK |> <| to_sacks := drop 2 cp |>)
  else if opt =? TCPOPT_FASTOPEN then
    if optlen =? TCPOLEN_FASTOPEN_REQ then
      if negb (state =? TCPS_LISTEN) then Ret to else Ret (flag TOF_TFOREQ to)
    else if (optlen <? TCPOLEN_FASTOPEN_REQ) || (TFO_COOKIE_LEN_MAX <? optlen - TCPOLEN_FASTOPEN_REQ) ||
            (optlen - TCPOLEN_FASTOPEN_REQ <? TFO_COOKIE_LEN_MIN) then Ret to
    else if negb (state =? TCPS_LISTEN) && negb (state =? TCPS_SYN_SENT) then Ret to
    else Ret (flag TOF_TFO to <| to_tfo := drop 1 cp |>)
  else Ret to.

(** The loop over the [cnt] octets at [cp]; every option takes one octet at
    least, so that [cnt] is fuel enough. *)
Fixpoint options_loop (fuel : nat) (cp : bytes) (cnt : Z) (to : tcpopt) : outcome tcpopt :=
  if cnt <=? 0 then Ret to
  else
    match fuel with
    | O => Crash
    | S fuel =>
        opt ← of_opt (rd8 cp 0);
        if opt =? TCPOPT_EOL then Ret to
        else
          let next optlen := to ← do_option cp opt optlen to; options_loop fuel (drop (Z.to_nat optlen) cp) (cnt - optlen) to in
          if opt =? TCPOPT_NOP then next 1
          else if cnt <? 2 then Ret to
          else
            optlen ← of_opt (rd8 cp 1);
            if (optlen <? 2) || (cnt <? optlen) then Ret to else next optlen
    end.
Definition tcp_dooptions (cp : bytes) (cnt : Z) (to : tcpopt) : outcome tcpopt := options_loop (Z.to_nat cnt) cp cnt to.

(** ** The reader is safe *)

(** The SACK blocks are inside of the options. *)
Definition sacks_inside (limit : Z) (to : tcpopt) : Prop :=
  bytes_ok (to_sacks to) ∧ 0 <= to_nsacks to ∧ 8 * to_nsacks to <= Z.of_nat (length (to_sacks to)) ∧ 8 * to_nsacks to + 2 <= Z.max 2 limit.

Lemma do_option_run limit cp opt optlen to : bytes_ok cp → 0 <= optlen <= Z.of_nat (length cp) → optlen <= limit → sacks_inside limit to →
  ∃ to', do_option cp opt optlen to = Ret to' ∧ sacks_inside limit to'.
Proof.
  intros Hb Ho Hl Hs. unfold do_option. cbv zeta.
  destruct (opt =? TCPOPT_MAXSEG).
  { destruct (Z.eqb_spec optlen TCPOLEN_MAXSEG) as [E|_]; [|by exists to]. destruct syn; [|by exists to]. unfold TCPOLEN_MAXSEG in E. cbn [negb orb].
    destruct (read_returns cp 2 2) as (v & Ev); [lia|]. unfold rd16. rewrite Ev. by eexists. }
  destruct (opt =? TCPOPT_WINDOW).
  { destruct (Z.eqb_spec optlen TCPOLEN_WINDOW) as [E|_]; [|by exists to]. destruct syn; [|by exists to]. unfold TCPOLEN_WINDOW in E. cbn [negb orb].
    destruct (rd8_returns cp 2 Hb) as (v & Ev & _); [lia|]. rewrite Ev. by eexists. }
  destruct (opt =? TCPOPT_TIMESTAMP).
  { destruct (Z.eqb_spec optlen TCPOLEN_TIMESTAMP) as [E|_]; [|by exists to]. unfold TCPOLEN_TIMESTAMP in E. cbn [negb].
    destruct (read_returns cp 2 4) as (v & Ev); [lia|]. destruct (read_returns cp 6 4) as (w & Ew); [lia|].
    unfold rd32. rewrite Ev, Ew. by eexists. }
  destruct (opt =? TCPOPT_SACK_PERMITTED); [destruct (_ || _); by eexists|].
  destruct (opt =? TCPOPT_SACK).
  { destruct (_ || _) eqn:E; [by eexists|]. apply orb_false_elim in E as (E1%Z.leb_gt & E2). eexists. split; [done|].
    unfold TCPOLEN_SACK in *. split_and!; cbn; [by apply Forall_drop|apply Z.div_pos; lia|rewrite length_drop|];
      assert (Hd := Z.mul_div_le (optlen - 2) 8); lia. }
  destruct (opt =? TCPOPT_FASTOPEN); [|by eexists]. destruct (optlen =? _); [destruct (negb _); by eexists|].
  destruct (_ || _); [by eexists|]. destruct (_ && _); by eexists.
Qed.

Lemma options_loop_run limit fuel : ∀ cp cnt to, bytes_ok cp → cnt <= Z.of_nat (length cp) → cnt <= Z.of_nat fuel → cnt <= limit → sacks_inside limit to →
  ∃ to', options_loop fuel cp cnt to = Ret to' ∧ sacks_inside limit to'.
Proof.
  induction fuel as [|fuel IH]; intros cp cnt to Hb Hc Hf Hl Hs; cbn [options_loop].
  { rewrite (proj2 (Z.leb_le _ _)) by lia. by exists to. }
  destruct (Z.leb_spec cnt 0); [by exists to|]. destruct (rd8_returns cp 0 Hb) as (opt & Eo & Hopt); [lia|]. rewrite Eo. cbn [of_opt mbind outcome_bind].
  destruct (opt =? TCPOPT_EOL); [by exists to|]. cbv zeta.
  assert (Hnext : ∀ optlen, 1 <= optlen <= cnt → ∃ to', (to ← do_option cp opt optlen to;
    options_loop fuel (drop (Z.to_nat optlen) cp) (cnt - optlen) to) = Ret to' ∧ sacks_inside limit to').
  { intros optlen Hlen. destruct (do_option_run limit cp opt optlen to Hb) as (to1 & E1 & Hs1); [lia|lia|done|]. rewrite E1. cbn [mbind outcome_bind].
    apply IH; [by apply Forall_drop|rewrite length_drop; lia|lia|lia|done]. }
  destruct (opt =? TCPOPT_NOP); [apply Hnext; lia|]. destruct (Z.ltb_spec cnt 2); [by exists to|].
  destruct (rd8_returns cp 1 Hb) as (optlen & El & Hol); [lia|]. rewrite El. cbn [of_opt mbind outcome_bind].
  destruct (_ || _) eqn:E; [by exists to|]. apply orb_false_elim in E as (E1%Z.ltb_ge & E2%Z.ltb_ge). apply Hnext. lia.
Qed.
End options.
