(* ===== verification/TcpSack.v ===== *)
(** * TcpSack: the SACK scoreboard of the sender (bsd/netinet/tcp_sack.c, tcp_subr.c)

    The sending side of TCP keeps the holes between the blocks that the
    receiver has reported, the part of each hole that was sent again, a
    pointer to the next hole to send from ([nexthole]) and the number of
    octets sent again; and the list of retransmitted segments
    ([tcp_rxtseg_insert] and the like). A hole is identified by its address,
    the list of holes is in the order of the TAILQ. A failed VERIFY is
    [Crash]. Statistics, the cache of the ECN heuristics, the messages of the
    sanity check in [tcp_sack_output], the check for spurious timeouts and what
    the congestion control does to its windows are left out. *)

From S2P Require Import Prelude TcpSeq.

(** ** Constants *)

Definition TCP_MAX_SACK : nat := 4.
Definition TF_SENT_TLPROBE : Z := 0x1000.
Definition TF_PKTS_REORDERED : Z := 0x2000.
Definition TF_DELAY_RECOVERY : Z := 0x4000.
Definition TF_RESCUE_RXT : Z := 0x80000.
Definition TCP_RXT_SPURIOUS : Z := 0x1.
Definition TCP_RXT_DSACK_FOR_TLP : Z := 0x2.
Definition TCP_RTT_SHIFT : Z := 5.
Definition tcprexmtthresh : Z := 3.

(** ** State *)

Record sackhole := Sackhole { h_addr : Z; h_start : Z; h_end : Z; h_rxmit : Z; h_rxmit_start : Z }.
#[export] Instance eta_sackhole : Eta sackhole := λ h, Sackhole (h_addr h) (h_start h) (h_end h) (h_rxmit h) (h_rxmit_start h).

Record sblk := Sblk { b_start : Z; b_end : Z }.

Record rxt_seg := Rxt_seg { rx_start : Z; rx_end : Z; rx_count : Z; rx_flags : Z }.
#[export] Instance eta_rxt_seg : Eta rxt_seg := λ r, Rxt_seg (rx_start r) (rx_end r) (rx_count r) (rx_flags r).

(** The fields of struct tcpcb for the sending side. [zone] is the next
    address of the zone of holes, [globalholes] the number of holes of all
    connections; [in_recovery] is [TF_FASTRECOVERY] of [t_flags]; the last two
    fields are the counters that [tcp_sack_doack] has as parameters. *)
Record sndcb := Sndcb {
  snd_una : Z;
  snd_nxt : Z;
  snd_max : Z;
  snd_wnd : Z;
  snd_fack : Z;
  snd_recover : Z;
  sack_newdata : Z;
  send_highest_sack : Z;
  snd_holes : list sackhole;
  snd_numholes : Z;
  nexthole : option Z;
  sack_bytes_rexmit : Z;
  sack_bytes_acked : Z;
  snd_flagsext : Z;
  t_rxtshift : Z;
  t_reordered_pkts : Z;
  t_reorderwin : Z;
  t_srtt : Z;
  t_maxseg : Z;
  t_new_dupacks : Z;
  snd_cwnd : Z;
  snd_ssthresh : Z;
  t_rxt_segments : list rxt_seg;
  t_dsack_lastuna : Z;
  t_tlphighrxt : Z;
  t_dsack_recvd : Z;
  zone : Z;
  globalholes : Z;
  in_recovery : bool;
  max_sndwnd : Z;
  newbytes_acked : Z;
  after_rexmit_acked : Z }.
#[export] Instance eta_sndcb : Eta sndcb := λ s,
  Sndcb (snd_una s) (snd_nxt s) (snd_max s) (snd_wnd s) (snd_fack s) (snd_recover s) (sack_newdata s) (send_highest_sack s)
    (snd_holes s) (snd_numholes s) (nexthole s) (sack_bytes_rexmit s) (sack_bytes_acked s) (snd_flagsext s) (t_rxtshift s)
    (t_reordered_pkts s) (t_reorderwin s) (t_srtt s) (t_maxseg s) (t_new_dupacks s) (snd_cwnd s) (snd_ssthresh s)
    (t_rxt_segments s) (t_dsack_lastuna s) (t_tlphighrxt s) (t_dsack_recvd s) (zone s) (globalholes s) (in_recovery s)
    (max_sndwnd s) (newbytes_acked s) (after_rexmit_acked s).
Abbreviation SND := (ST sndcb).

(** The time and the settings. *)
Record settings := Settings {
  snd_now : Z;
  tcp_do_better_lr : bool;
  tcp_sack_maxholes : Z;
  tcp_sack_globalmaxholes : Z;
  tcp_autosndbuf_max : Z }.

Definition flagged (flags f : Z) : bool := truthy (Z.land flags f).

(** ** The retransmitted segments (tcp_subr.c) *)

(** The segments up to the last one that begins at [start] or before. *)
Fixpoint rxt_split (start : Z) (l : list rxt_seg) : list rxt_seg * list rxt_seg :=
  match l with
  | [] => ([], [])
  | r :: l' =>
      if SEQ_GT (rx_start r) start then ([], l)
      else let '(before, after) := rxt_split start l' in (r :: before, after)
  end.

Definition count_up (r : rxt_seg) : rxt_seg := r <| rx_count := u16 (rx_count r + 1) |>.

(** The list [before ++ [prev]] with the last element replaced. *)
Definition set_last (before : list rxt_seg) (r : rxt_seg) : list rxt_seg := removelast before ++ [r].

(** The rest of [tcp_rxtseg_insert], from the look at the next segment on. *)
Definition rxtseg_next (before after : list rxt_seg) (start send rxcount : Z) : SND unit :=
  let '(after, send, rxcount) :=
    match after with
    | next :: rest =>
        if SEQ_LT (rx_start next) send then
          if SEQ_LEQ (rx_end next) send then (count_up next :: rest, u32 (rx_start next - 1), rxcount)
          else (next <| rx_start := u32 (send + 1) |> :: rest, send, rx_count next)
        else (after, send, rxcount)
    | [] => (after, send, rxcount)
    end in
  let l := if SEQ_LT start send then before ++ Rxt_seg start send (u16 (rxcount + 1)) 0 :: after else before ++ after in
  modify (λ s, s <| t_rxt_segments := l |>).

Definition tcp_rxtseg_insert (start send : Z) : SND unit :=
  s ← get;
  when (bool_decide (t_rxt_segments s = [])) (modify (λ s, s <| t_dsack_lastuna := snd_una s |>));;
  let '(before, after) := rxt_split start (t_rxt_segments s) in
  match last before with
  | Some prev =>
      if SEQ_LEQ (rx_start prev) start && SEQ_GEQ (rx_end prev) send then
        modify (λ s, s <| t_rxt_segments := set_last before (count_up prev) ++ after |>)
      else if SEQ_GT (rx_end prev) start then
        if (rx_start prev =? start) && SEQ_GT send (rx_end prev)
        then rxtseg_next (set_last before (count_up prev)) after (u32 (rx_end prev + 1)) send 0
        else rxtseg_next (set_last before (prev <| rx_end := u32 (start - 1) |>)) after start send (rx_count prev)
      else rxtseg_next before after start send 0
  | None => rxtseg_next before after start send 0
  end.

Fixpoint rxtseg_find (start send : Z) (l : list rxt_seg) : option rxt_seg :=
  match l with
  | [] => None
  | r :: l =>
      if SEQ_LEQ (rx_start r) start && SEQ_GEQ (rx_end r) send then Some r
      else if SEQ_GT (rx_start r) start then None
      else rxtseg_find start send l
  end.

Fixpoint rxtseg_update (start send : Z) (f : rxt_seg → rxt_seg) (l : list rxt_seg) : list rxt_seg :=
  match l with
  | [] => []
  | r :: l' =>
      if SEQ_LEQ (rx_start r) start && SEQ_GEQ (rx_end r) send then f r :: l'
      else if SEQ_GT (rx_start r) start then l
      else r :: rxtseg_update start send f l'
  end.

Fixpoint set_spurious (start send : Z) (l : list rxt_seg) : list rxt_seg :=
  match l with
  | [] => []
  | r :: l =>
      let r' := if SEQ_GEQ (rx_start r) start && SEQ_LEQ (rx_end r) send && (rx_count r =? 1)
                then r <| rx_flags := Z.lor (rx_flags r) TCP_RXT_SPURIOUS |> else r in
      r' :: (if SEQ_GEQ (rx_start r) send then l else set_spurious start send l)
  end.
Definition tcp_rxtseg_set_spurious (start send : Z) : SND unit :=
  modify (λ s, s <| t_rxt_segments := set_spurious start send (t_rxt_segments s) |>).

Definition tcp_rxtseg_clean : SND unit :=
  modify (λ s, s <| t_rxt_segments := [] |> <| t_dsack_lastuna := snd_max s |>).

Section sender.
Context (cfg : settings).

(** ** Holes *)

Definition find_hole (a : Z) (l : list sackhole) : option sackhole := snd <$> list_find (λ h, h_addr h = a) l.
Definition hole (a : Z) : SND sackhole := s ← get; lift (of_opt (find_hole a (snd_holes s))).
Definition set_hole (a : Z) (f : sackhole → sackhole) : SND unit :=
  modify (λ s, s <| snd_holes := map (λ h, if h_addr h =? a then f h else h) (snd_holes s) |>).

(** [TAILQ_PREV] and [TAILQ_NEXT] of the hole at [a]. *)
Fixpoint prev_from (p : option Z) (a : Z) (l : list sackhole) : option Z :=
  match l with
  | [] => None
  | h :: l => if h_addr h =? a then p else prev_from (Some (h_addr h)) a l
  end.
Fixpoint next_of (a : Z) (l : list sackhole) : option Z :=
  match l with
  | [] => None
  | h :: l => if h_addr h =? a then h_addr <$> head l else next_of a l
  end.
Definition prev_hole (a : Z) : SND (option Z) := s ← get; mret (prev_from None a (snd_holes s)).

(** [TAILQ_INSERT_AFTER] *)
Fixpoint insert_after (a : Z) (n : sackhole) (l : list sackhole) : list sackhole :=
  match l with
  | [] => []
  | h :: l => if h_addr h =? a then h :: n :: l else h :: insert_after a n l
  end.

Definition tcp_sackhole_alloc (start hend : Z) : SND (option sackhole) :=
  s ← get;
  if (tcp_sack_maxholes cfg <=? snd_numholes s) || (tcp_sack_globalmaxholes cfg <=? globalholes s) then mret None
  else
    let h := Sackhole (zone s) start hend start 0 in
    modify (λ s, s <| zone := zone s + 1 |> <| snd_numholes := s16 (snd_numholes s + 1) |> <| globalholes := globalholes s + 1 |>);;
    mret (Some h).

Definition tcp_sackhole_insert (start hend : Z) (after : option Z) : SND (option sackhole) :=
  h ← tcp_sackhole_alloc start hend;
  match h with
  | None => mret None
  | Some h =>
      let h := h <| h_rxmit_start := snd_now cfg |> in
      modify (λ s, s <| snd_holes := match after with Some a => insert_after a h (snd_holes s) | None => snd_holes s ++ [h] end |>);;
      modify (λ s, s <| nexthole := match nexthole s with None => Some (h_addr h) | Some a => Some a end |>);;
      mret (Some h)
  end.

Definition tcp_sackhole_remove (a : Z) : SND unit :=
  modify (λ s, s <| nexthole := if bool_decide (nexthole s = Some a) then next_of a (snd_holes s) else nexthole s |>);;
  modify (λ s, s <| snd_holes := filter (λ h, h_addr h ≠ a) (snd_holes s) |>
                 <| snd_numholes := s16 (snd_numholes s - 1) |> <| globalholes := globalholes s - 1 |>).

(** ** Processing an acknowledgement *)

Definition tcp_sack_detect_reordering (h : sackhole) (sacked_seq fack : Z) : SND unit :=
  s ← get;
  if SEQ_GT (h_end h) fack || (0 <? t_rxtshift s) then skip
  else if SEQ_LT (h_rxmit h) sacked_seq &&
          (negb (tcp_do_better_lr cfg) ||
           bool_decide (rxtseg_find (u32 (sacked_seq - 1)) (u32 (sacked_seq - 1)) (t_rxt_segments s) = None)) then
    modify (λ s, s <| snd_flagsext := Z.lor (snd_flagsext s) TF_PKTS_REORDERED |>
                   <| t_reordered_pkts := t_reordered_pkts s + 1 |>);;
    if negb (SEQ_GEQ fack (h_rxmit h)) then lift Crash
    else if 0 <? h_rxmit_start h then
      let rext := s32 (snd_now cfg - h_rxmit_start h) in
      if rext <? 0 then skip
      else modify (λ s, s <| t_reorderwin :=
             Z.max (Z.min (Z.max (t_reorderwin s) rext) (Z.shiftr (t_srtt s) (TCP_RTT_SHIFT - 1))) 10 |>)
    else skip
  else skip.

Definition tcp_sack_update_byte_counter (start hend : Z) : SND unit :=
  modify (λ s, s <| newbytes_acked := u32 (newbytes_acked s + u32 (hend - start)) |>
                 <| after_rexmit_acked := if SEQ_GEQ start (send_highest_sack s)
                                          then u32 (after_rexmit_acked s + u32 (hend - start)) else after_rexmit_acked s |>).

Definition TCP_VALIDATE_SACK_SEQ_NUMBERS (s : sndcb) (sb : sblk) (ack : Z) : bool :=
  SEQ_GT (b_end sb) (b_start sb) && SEQ_GT (b_start sb) (snd_una s) && SEQ_GT (b_start sb) ack &&
  SEQ_LT (b_start sb) (snd_max s) && SEQ_GT (b_end sb) (snd_una s) && SEQ_LEQ (b_end sb) (snd_max s).

(** The [n] blocks of an option. *)
Fixpoint read_sacks (n : nat) (to_sacks : bytes) : outcome (list sblk) :=
  match n with
  | O => Ret []
  | S n =>
      start ← of_opt (rd32 to_sacks 0);
      bend ← of_opt (rd32 to_sacks 4);
      l ← read_sacks n (drop 8 to_sacks);
      Ret (Sblk start bend :: l)
  end.

(** The exchange sort by [end]: a pass compares the block at [i] with those
    after it. *)
Fixpoint sort_pass (x : sblk) (l : list sblk) : sblk * list sblk :=
  match l with
  | [] => (x, [])
  | y :: l =>
      if SEQ_GT (b_end x) (b_end y)
      then let '(m, l) := sort_pass y l in (m, x :: l)
      else let '(m, l) := sort_pass x l in (m, y :: l)
  end.
Fixpoint sort_blocks (n : nat) (l : list sblk) : list sblk :=
  match n, l with
  | S n, x :: l => let '(m, l) := sort_pass x l in m :: sort_blocks n l
  | _, _ => l
  end.

(** The number of retransmitted octets without, and with, those of a hole. *)
Definition forget_rexmit (h : sackhole) : SND unit :=
  modify (λ s, s <| sack_bytes_rexmit := Z.max 0 (s32 (sack_bytes_rexmit s - (h_rxmit h - h_start h))) |>).
Definition count_rexmit (h : sackhole) : SND unit :=
  modify (λ s, s <| sack_bytes_rexmit := s32 (sack_bytes_rexmit s + (h_rxmit h - h_start h)) |>).

(** A block inside of the hole [h]: the hole is split. *)
Definition split_hole (sb : sblk) (h : sackhole) (old_fack : Z) : SND unit :=
  let a := h_addr h in
  tcp_sack_detect_reordering h (b_end sb) old_fack;;
  temp ← tcp_sackhole_insert (b_end sb) (h_end h) (Some a);
  match temp with
  | None => skip
  | Some t =>
      tcp_sack_update_byte_counter (b_start sb) (b_end sb);;
      (if SEQ_GT (h_rxmit h) (h_rxmit t) then
         set_hole (h_addr t) (λ t, t <| h_rxmit := h_rxmit h |>);;
         t ← hole (h_addr t);
         count_rexmit t
       else skip);;
      set_hole a (λ h, h <| h_end := b_start sb |> <| h_rxmit := SEQ_MIN (h_rxmit h) (b_start sb) |>);;
      set_hole (h_addr t) (λ t, t <| h_rxmit_start := h_rxmit_start h |>)
  end.

(** What the loop goes on with: the next block or this one, and the hole. *)
Definition doack_step (sb : sblk) (a : Z) (old_fack : Z) : SND (bool * option Z) :=
  h ← hole a;
  if SEQ_GEQ (b_start sb) (h_end h) then mret (true, Some a)
  else if SEQ_LEQ (b_end sb) (h_start h) then p ← prev_hole a; mret (false, p)
  else
    forget_rexmit h;;
    if SEQ_LEQ (b_start sb) (h_start h) && SEQ_GEQ (b_end sb) (h_end h) then
      tcp_sack_update_byte_counter (h_start h) (h_end h);;
      tcp_sack_detect_reordering h (h_end h) old_fack;;
      p ← prev_hole a;
      tcp_sackhole_remove a;;
      mret (false, p)
    else
      (if SEQ_LEQ (b_start sb) (h_start h) then
         tcp_sack_update_byte_counter (h_start h) (b_end sb);;
         tcp_sack_detect_reordering h (b_end sb) old_fack;;
         set_hole a (λ h, h <| h_start := b_end sb |> <| h_rxmit := SEQ_MAX (h_rxmit h) (b_end sb) |>)
       else if SEQ_GEQ (b_end sb) (h_end h) then
         tcp_sack_update_byte_counter (b_start sb) (h_end h);;
         tcp_sack_detect_reordering h (h_end h) old_fack;;
         set_hole a (λ h, h <| h_end := b_start sb |> <| h_rxmit := SEQ_MIN (h_rxmit h) (b_start sb) |>)
       else split_hole sb h old_fack);;
      h ← hole a;
      count_rexmit h;;
      if SEQ_LEQ (b_start sb) (h_start h) then p ← prev_hole a; mret (false, p) else mret (true, Some a).

(** The blocks are in the order of the loop, the last one first. *)
Fixpoint doack_loop (fuel : nat) (blks : list sblk) (cur : option Z) (old_fack : Z) : SND unit :=
  match blks, cur with
  | sb :: rest, Some a =>
      match fuel with
      | O => lift Crash
      | S fuel =>
          '(next, cur) ← doack_step sb a old_fack;
          doack_loop fuel (if next : bool then rest else blks) cur old_fack
      end
  | _, _ => skip
  end.

(** The blocks completely after [fack] are skipped. *)
Fixpoint skip_blocks (fack : Z) (blks : list sblk) : list sblk :=
  match blks with
  | sb :: rest => if SEQ_LT fack (b_start sb) then skip_blocks fack rest else blks
  | [] => []
  end.

(** [snd_fack] advances to the end of the highest block. *)
Definition advance_fack (sb : sblk) : SND unit :=
  s ← get;
  if SEQ_LT (snd_fack s) (b_end sb) then
    tcp_sack_update_byte_counter (snd_fack s) (b_end sb);;
    modify (λ s, s <| snd_fack := b_end sb |>)
  else skip.

(** The part of [tcp_sack_doack] before the loop: [blks] is the sorted list
    from its end; the result is what the loop begins with. *)
Definition highest_block (blks : list sblk) : SND (list sblk) :=
  s ← get;
  match blks with
  | [] => lift Crash
  | sb :: rest =>
      if SEQ_LT (snd_fack s) (b_start sb) then
        temp ← tcp_sackhole_insert (snd_fack s) (b_start sb) None;
        match temp with
        | Some _ =>
            modify (λ s, s <| snd_fack := b_end sb |>);;
            tcp_sack_update_byte_counter (b_start sb) (b_end sb);;
            mret rest
        | None =>
            let blks := skip_blocks (snd_fack s) blks in
            (match blks with sb :: _ => advance_fack sb | [] => skip end);;
            mret blks
        end
      else advance_fack sb;; mret blks
  end.

(** [to_nsacks] blocks at [to_sacks]. *)
Definition tcp_sack_doack (th_ack : Z) (to_nsacks : nat) (to_sacks : bytes) : SND unit :=
  s ← get;
  sacks ← lift (read_sacks to_nsacks to_sacks);
  let blocks := (if SEQ_LT (snd_una s) th_ack && negb (bool_decide (snd_holes s = [])) then [Sblk (snd_una s) th_ack] else []) ++
                filter (λ sb, TCP_VALIDATE_SACK_SEQ_NUMBERS s sb th_ack = true) sacks in
  if bool_decide (blocks = []) then skip
  else if (TCP_MAX_SACK + 1 <? length blocks)%nat then lift Crash
  else
    let blks := reverse (sort_blocks (length blocks) blocks) in
    when (bool_decide (snd_holes s = [])) (modify (λ s, s <| snd_fack := SEQ_MAX (snd_una s) th_ack |>));;
    s ← get;
    let old_fack := snd_fack s in
    blks ← highest_block blks;
    s ← get;
    doack_loop (length blks + length (snd_holes s)) blks (h_addr <$> last (snd_holes s)) old_fack.

(** ** Sending again *)

Fixpoint free_loop (n : nat) : SND unit :=
  match n with
  | O => skip
  | S n =>
      s ← get;
      match snd_holes s with
      | [] => skip
      | q :: _ => tcp_sackhole_remove (h_addr q);; free_loop n
      end
  end.
Definition tcp_free_sackholes : SND unit :=
  s ← get;
  free_loop (length (snd_holes s));;
  modify (λ s, s <| sack_bytes_rexmit := 0 |> <| sack_bytes_acked := 0 |> <| t_new_dupacks := 0 |>
                 <| nexthole := None |> <| sack_newdata := 0 |>).

(** The walk over the scoreboard: the next hole and the octets sent again. *)
Fixpoint output_debug (una : Z) (l : list sackhole) (n : Z) : option Z * Z :=
  match l with
  | [] => (None, n)
  | p :: l =>
      if SEQ_LT (h_rxmit p) (h_end p) then
        if SEQ_LT (h_rxmit p) una then output_debug una l n
        else (Some (h_addr p), s32 (n + (h_rxmit p - h_start p)))
      else output_debug una l (s32 (n + (h_rxmit p - h_start p)))
  end.

(** The first hole of [l] that is not completely sent again. *)
Definition unfinished (l : list sackhole) : option Z :=
  h_addr ∘ snd <$> list_find (λ h, SEQ_LT (h_rxmit h) (h_end h) = true) l.

(** The holes after the one at [a]. *)
Fixpoint after_hole (a : Z) (l : list sackhole) : list sackhole :=
  match l with
  | [] => []
  | h :: l => if h_addr h =? a then l else after_hole a l
  end.

(** The hint: the hole that [nexthole] leads to, and the cached number. *)
Definition cached_output : SND (option Z * Z) :=
  s ← get;
  match nexthole s with
  | None => mret (None, sack_bytes_rexmit s)
  | Some a =>
      h ← hole a;
      if SEQ_LT (h_rxmit h) (h_end h) then mret (Some a, sack_bytes_rexmit s)
      else
        let n := unfinished (after_hole a (snd_holes s)) in
        (match n with Some b => modify (λ s, s <| nexthole := Some b |>) | None => skip end);;
        mret (n, sack_bytes_rexmit s)
  end.

(** The walk overrides the hint where they differ. *)
Definition tcp_sack_output : SND (option Z * Z) :=
  s ← get;
  let '(dbg_hole, dbg_bytes) := output_debug (snd_una s) (snd_holes s) 0 in
  _ ← cached_output;
  mret (dbg_hole, dbg_bytes).

(** [tcp_output] sends [len] octets of the hole at [a] again. *)
Definition sack_rexmit (a len : Z) : SND unit :=
  h ← hole a;
  modify (λ s, s <| send_highest_sack := snd_nxt s |> <| t_new_dupacks := 0 |>);;
  tcp_rxtseg_insert (h_rxmit h) (u32 (h_rxmit h + len - 1));;
  set_hole a (λ h, h <| h_rxmit := u32 (h_rxmit h + len) |>);;
  modify (λ s, s <| sack_bytes_rexmit := s32 (sack_bytes_rexmit s + len) |>).

(** [tcp_output] when [lost] octets could not be sent. *)
Definition sack_rexmit_failed (a lost : Z) : SND unit :=
  s ← get;
  h ← hole a;
  let clip := λ h : sackhole, if SEQ_LT (h_rxmit h) (h_start h) then h <| h_rxmit := h_start h |> else h in
  let '(rxmit, lost) := if SEQ_GT (u32 (h_rxmit h - lost)) (snd_una s) then (u32 (h_rxmit h - lost), lost)
                        else (snd_una s, u32 (h_rxmit h - snd_una s)) in
  set_hole a (λ h, clip (h <| h_rxmit := rxmit |>));;
  modify (λ s, s <| sack_bytes_rexmit := Z.max 0 (s32 (sack_bytes_rexmit s - lost)) |>).

Definition tcp_flight_size : SND Z :=
  s ← get;
  if (sack_bytes_acked s <? 0) || (sack_bytes_rexmit s <? 0) then lift Crash
  else mret (Z.max 0 (s32 (snd_nxt s - snd_una s - sack_bytes_acked s))).

(** [tcp_sack_partialack] without the call of [tcp_output] at its end. *)
Definition tcp_sack_partialack (th_ack : Z) : SND unit :=
  s ← get;
  let num_segs := if 2 <? u32 (th_ack - snd_una s) / t_maxseg s then 2 else 1 in
  cwnd ← (if tcp_do_better_lr cfg then f ← tcp_flight_size; mret (u32 (f + num_segs * t_maxseg s))
          else mret (u32 (sack_bytes_rexmit s + (snd_nxt s - sack_newdata s) + num_segs * t_maxseg s)));
  modify (λ s, s <| snd_cwnd := Z.min cwnd (snd_ssthresh s) |>);;
  s ← get;
  if SEQ_LT (snd_fack s) (snd_recover s) && (snd_fack s =? th_ack) && bool_decide (snd_holes s = []) then
    temp ← tcp_sackhole_insert (snd_fack s) (snd_recover s) None;
    match temp with
    | Some _ => modify (λ s, s <| snd_fack := snd_recover s |>)
    | None => skip
    end
  else skip.

Definition tcp_sack_lost_rexmit : SND unit :=
  modify (λ s, s <| snd_holes := map (λ h, h <| h_rxmit := h_start h |> <| h_rxmit_start := snd_now cfg |>) (snd_holes s) |>);;
  modify (λ s, s <| nexthole := h_addr <$> head (snd_holes s) |> <| sack_bytes_rexmit := 0 |> <| sack_newdata := snd_nxt s |>).

(** The walk of [tcp_sack_adjust] from the hole [cur] on: the new [snd_nxt]. *)
Fixpoint adjust_loop (nxt fack : Z) (cur : sackhole) (l : list sackhole) : Z :=
  match l with
  | [] => if SEQ_LT nxt (h_end cur) then nxt else fack
  | p :: l =>
      if SEQ_LT nxt (h_end cur) then nxt
      else if SEQ_GEQ nxt (h_start p) then adjust_loop nxt fack p l
      else h_start p
  end.
Definition tcp_sack_adjust : SND unit :=
  s ← get;
  match snd_holes s with
  | [] => skip
  | cur :: l =>
      if SEQ_GEQ (snd_nxt s) (snd_fack s) then skip
      else modify (λ s, s <| snd_nxt := adjust_loop (snd_nxt s) (snd_fack s) cur l |>)
  end.

(** [sack_on] is [SACK_ENABLED(tp)], [recovering] is [IN_FASTRECOVERY(tp)]. *)
Definition tcp_sack_byte_islost (sack_on recovering : bool) : SND bool :=
  s ← get;
  if negb sack_on || recovering || bool_decide (snd_holes s = []) || flagged (snd_flagsext s) TF_PKTS_REORDERED then mret false
  else
    let unacked := u32 (snd_max s - snd_una s) in
    let holes := foldl (λ n h, u32 (n + u32 (h_end h - h_start h))) 0 (snd_holes s) in
    if unacked <? holes then lift Crash
    else mret ((tcprexmtthresh - 1) * t_maxseg s <? unacked - holes).

(** ** Duplicate SACK *)

Definition TCP_DSACK_SEQ_IN_WINDOW (s : sndcb) (seq una : Z) : bool :=
  SEQ_LEQ seq (snd_max s) && SEQ_GEQ seq (u32 (una - Z.min (snd_wnd s) (tcp_autosndbuf_max cfg))).

(** The result is whether the option was a DSACK, with the blocks that are left. *)
Definition tcp_sack_process_dsack (th_ack : Z) (to_nsacks : nat) (to_sacks : bytes) : SND (bool * (nat * bytes)) :=
  s ← get;
  first ← lift (read_sacks 1 to_sacks);
  second ← lift (if (1 <? to_nsacks)%nat then read_sacks 1 (drop 8 to_sacks) else Ret []);
  match first with
  | [] => lift Crash
  | f :: _ =>
      let dropped := ((to_nsacks - 1)%nat, drop 8 to_sacks) in
      let mark :=
        modify (λ s, s <| t_dsack_recvd := t_dsack_recvd s + 1 |>);;
        let tlp := flagged (snd_flagsext s) TF_SENT_TLPROBE && (b_end f =? t_tlphighrxt s) in
        when tlp (modify (λ s, s <| t_rxt_segments := rxtseg_update (b_start f) (u32 (b_end f - 1))
                                     (λ r, r <| rx_flags := Z.lor (rx_flags r) TCP_RXT_DSACK_FOR_TLP |>) (t_rxt_segments s) |>));;
        if (((t_rxtshift s =? 1) && (b_start f =? snd_una s)) || tlp) && bool_decide (snd_holes s = []) &&
           SEQ_GT th_ack (snd_una s)
        then mret (true, dropped)
        else tcp_rxtseg_set_spurious (b_start f) (u32 (b_end f - 1));; mret (true, dropped) in
      if SEQ_LT (b_start f) th_ack && SEQ_LEQ (b_end f) th_ack then
        if negb (TCP_DSACK_SEQ_IN_WINDOW s (b_start f) th_ack && TCP_DSACK_SEQ_IN_WINDOW s (b_end f) th_ack)
        then mret (true, dropped) else mark
      else
        match second with
        | sb :: _ =>
            if SEQ_LEQ (b_start sb) (b_start f) && SEQ_GEQ (b_end sb) (b_end f) then
              if negb (TCP_VALIDATE_SACK_SEQ_NUMBERS s sb th_ack) then mret (true, dropped) else mark
            else mret (false, (to_nsacks, to_sacks))
        | [] => mret (false, (to_nsacks, to_sacks))
        end
  end.

(** ** Fast recovery *)

Definition ENTER_FASTRECOVERY : SND unit :=
  s ← get;
  modify (λ s, s <| in_recovery := true |>);;
  when (negb (bool_decide (t_rxt_segments s = []))) tcp_rxtseg_clean;;
  modify (λ s, s <| t_new_dupacks := 0 |>).

Definition EXIT_FASTRECOVERY : SND unit :=
  modify (λ s, s <| in_recovery := false |> <| t_new_dupacks := 0 |>
                 <| snd_flagsext := Z.ldiff (snd_flagsext s) TF_RESCUE_RXT |> <| sack_bytes_acked := 0 |>).

(** The retransmission timer, after the checks that may drop the connection. *)
Definition rexmt_timeout : SND unit :=
  tcp_free_sackholes;;
  modify (λ s, s <| snd_nxt := snd_una s |> <| snd_recover := snd_max s |>);;
  EXIT_FASTRECOVERY.

(** ** Output (tcp_output.c) *)

(** What [tcp_output] finds outside of the scoreboard: the octets in the socket
    buffer, the limit of one segment, whether it has sent again in this call,
    and whether the FIN was sent ([TF_SENTFIN]). *)
Record output_args := Output_args { sb_cc : Z; seg_limit : Z; sack_rxmted : bool; fin_sent : bool }.

(** The hole to send from and the length, with the octets sent again. *)
Definition sack_choose (rxmted : bool) : SND (option (Z * Z) * Z) :=
  '(p, rxmt) ← tcp_sack_output;
  match p with
  | None => mret (None, rxmt)
  | Some a =>
      s ← get;
      let wnd := Z.min (snd_wnd s) (snd_cwnd s) in
      cwin ← (if tcp_do_better_lr cfg then
                f ← tcp_flight_size;
                let cwin := s32 (wnd - f) in
                mret (if (cwin <=? 0) && negb rxmted then t_maxseg s else cwin)
              else mret (s32 (wnd - rxmt)));
      let cwin := Z.max 0 cwin in
      h ← hole a;
      if SEQ_GT (h_end h) (snd_recover s) then
        if SEQ_GEQ (h_rxmit h) (snd_recover s) then mret (None, rxmt)
        else mret (Some (a, s32 (Z.min cwin (u32 (snd_recover s - h_rxmit h)))), rxmt)
      else mret (Some (a, s32 (Z.min cwin (u32 (h_end h - h_rxmit h)))), rxmt)
  end.

(** The length of a segment from [snd_nxt], and the room in the congestion
    window that is left in a recovery. *)
Definition new_len (cc rxmt : Z) : SND (Z * Z) :=
  s ← get;
  let off := s32 (snd_nxt s - snd_una s) in
  if rxmt =? 0 then mret (s32 (Z.min cc (Z.min (snd_wnd s) (snd_cwnd s)) - off), 0)
  else
    cwin ← (if tcp_do_better_lr cfg then f ← tcp_flight_size; mret (s32 (snd_cwnd s - f))
            else mret (s32 (snd_cwnd s - (snd_nxt s - sack_newdata s) - rxmt)));
    let cwin := Z.max 0 cwin in
    let len := s32 (Z.min cc (snd_wnd s) - off) in
    mret (if 0 <? len then Z.min len cwin else 0, cwin).

(** A segment at [snd_nxt] that was sent before. *)
Definition note_rexmit (len : Z) : SND unit :=
  s ← get;
  when (SEQ_LT (snd_nxt s) (snd_max s) && (1 <? len)) (tcp_rxtseg_insert (snd_nxt s) (u32 (snd_nxt s + len - 1))).

(** The rescue retransmission: once in a recovery the last octets before
    [snd_recover] are sent again; [snd_nxt] comes back to where it was. *)
Definition rescue_rxt (sentfin : bool) (cwin limit : Z) : SND unit :=
  s ← get;
  let len := Z.min (Z.min (u32 (snd_recover s - snd_fack s)) (t_maxseg s)) cwin in
  modify (λ s, s <| snd_nxt := u32 (snd_recover s - len) |>);;
  when (sentfin && (snd_max s =? snd_recover s)) (modify (λ s, s <| snd_nxt := u32 (snd_nxt s - 1) |>));;
  modify (λ s, s <| snd_flagsext := Z.lor (snd_flagsext s) TF_RESCUE_RXT |>);;
  note_rexmit (Z.min len limit);;
  modify (λ t, t <| snd_nxt := snd_nxt s |>).

Definition send_new (len : Z) : SND unit :=
  note_rexmit len;;
  modify (λ s, s <| snd_nxt := u32 (snd_nxt s + len) |>);;
  modify (λ s, if SEQ_GT (snd_nxt s) (snd_max s) then s <| snd_max := snd_nxt s |> else s).

(** Nothing is sent from the scoreboard. *)
Definition output_new (o : output_args) (rxmt : Z) : SND unit :=
  '(len, cwin) ← new_len (sb_cc o) rxmt;
  s ← get;
  if (len =? 0) && (0 <? cwin) && SEQ_LT (snd_fack s) (snd_recover s) && negb (flagged (snd_flagsext s) TF_RESCUE_RXT)
  then rescue_rxt (fin_sent o) cwin (seg_limit o)
  else when (0 <? len) (send_new (Z.min len (seg_limit o))).

(** One segment with data: from the scoreboard, or from [snd_nxt] on. *)
Definition output_data (o : output_args) : SND unit :=
  s ← get;
  when (SEQ_LT (snd_nxt s) (snd_max s)) tcp_sack_adjust;;
  '(p, rxmt) ← (if in_recovery s then sack_choose (sack_rxmted o) else mret (None, 0));
  match p with
  | Some (a, len) => if 0 <? len then sack_rexmit a (Z.min len (seg_limit o)) else output_new o rxmt
  | None => output_new o rxmt
  end.

Fixpoint tcp_output (os : list output_args) : SND unit :=
  match os with
  | [] => skip
  | o :: os => output_data o;; tcp_output os
  end.

(** ** The acknowledgement of an established connection (tcp_input.c) *)

Definition tcp_update_snd_una (ack : Z) : SND unit :=
  modify (λ s, s <| snd_una := ack |>);;
  modify (λ s, if SEQ_LT (send_highest_sack s) (snd_una s)
               then s <| send_highest_sack := snd_una s |> <| t_new_dupacks := 0 |> else s).

(** [snd_una] advances, and with it [snd_recover], [snd_nxt] and the list of
    retransmitted segments; the window becomes smaller by what leaves the
    socket buffer of [cc] octets. *)
Definition advance_una (cc th_ack : Z) : SND unit :=
  s ← get;
  (if SEQ_GEQ th_ack (snd_una s) then skip else lift Crash);;
  modify (λ s, s <| snd_wnd := u32 (snd_wnd s - Z.min (u32 (th_ack - snd_una s)) cc) |>);;
  when (negb (in_recovery s) && SEQ_GT (snd_una s) (snd_recover s) && SEQ_LEQ th_ack (snd_recover s))
    (modify (λ s, s <| snd_recover := u32 (th_ack - 1) |>));;
  when (in_recovery s && SEQ_GEQ th_ack (snd_recover s)) EXIT_FASTRECOVERY;;
  tcp_update_snd_una th_ack;;
  modify (λ s, if SEQ_GT (snd_una s) (snd_recover s) then s <| snd_recover := snd_una s |> else s);;
  modify (λ s, if SEQ_LT (snd_nxt s) (snd_una s) then s <| snd_nxt := snd_una s |> else s);;
  s ← get;
  when (negb (bool_decide (t_rxt_segments s = [])) && negb (TCP_DSACK_SEQ_IN_WINDOW s (t_dsack_lastuna s) (snd_una s)))
    tcp_rxtseg_clean.

(** What a segment with an acknowledgement brings, and what its processing
    finds outside of the scoreboard: [dup] whether it counts as a duplicate,
    [adv_dup] whether it may count as one although it acknowledges new data,
    [ece] is [TE_INRECOVERY], [sentfin] is [TF_SENTFIN], [a_cc] the octets in
    the socket buffer, [outputs] the segments that [tcp_output] sends when it is
    called. *)
Record ack_args := Ack_args {
  th_ack : Z;
  a_nsacks : nat;
  a_sacks : bytes;
  dup : bool;
  adv_dup : bool;
  ece : bool;
  sentfin : bool;
  rexmtthresh : Z;
  a_cc : Z;
  outputs : list output_args }.
#[export] Instance eta_ack_args : Eta ack_args := λ a,
  Ack_args (th_ack a) (a_nsacks a) (a_sacks a) (dup a) (adv_dup a) (ece a) (sentfin a) (rexmtthresh a) (a_cc a) (outputs a).

(** Whether losses of segments sent again are to be repaired; the congestion
    window is a validated one. *)
Definition dupack_lost (a : ack_args) : SND unit :=
  when (tcp_do_better_lr cfg) (
    modify (λ s, s <| t_new_dupacks := t_new_dupacks s + after_rexmit_acked s / t_maxseg s |>);;
    s ← get;
    when ((rexmtthresh a <=? t_new_dupacks s) && in_recovery s) (
      tcp_sack_lost_rexmit;;
      ENTER_FASTRECOVERY;;
      modify (λ s, s <| snd_recover := if sentfin a then u32 (snd_max s - 1) else snd_max s |> <| snd_cwnd := snd_ssthresh s |>))).

(** The begin of the processing of a duplicate. *)
Definition process_dupack (a : ack_args) : SND unit :=
  modify (λ s, s <| sack_bytes_acked := s32 (sack_bytes_acked s + newbytes_acked s) |>);;
  dupack_lost a.

(** What becomes of the recovery by an acknowledgement of new data. *)
Definition ack_recovery (a : ack_args) : SND unit :=
  s ← get;
  if in_recovery s then
    if SEQ_LT (th_ack a) (snd_recover s) then
      if ece a then skip else tcp_sack_partialack (th_ack a);; tcp_output (outputs a)
    else EXIT_FASTRECOVERY
  else if Z.land (snd_flagsext s) (Z.lor TF_PKTS_REORDERED TF_DELAY_RECOVERY) =? Z.lor TF_PKTS_REORDERED TF_DELAY_RECOVERY then
    when (SEQ_GEQ (th_ack a) (snd_recover s) || bool_decide (snd_holes s = [])) (
      modify (λ s, s <| snd_flagsext := Z.ldiff (snd_flagsext s) TF_DELAY_RECOVERY |>);; EXIT_FASTRECOVERY)
  else modify (λ s, s <| t_new_dupacks := 0 |>).

(** The acknowledgement of a segment, up to the new [snd_una] and the count of
    duplicates; the result is whether it was dropped. *)
Definition tcp_input_ack (a : ack_args) : SND bool :=
  s ← get;
  if SEQ_GT (th_ack a) (snd_max s) then mret true
  else if SEQ_LT (th_ack a) (u32 (snd_una s - max_sndwnd s)) then mret true
  else
    modify (λ s, s <| newbytes_acked := 0 |> <| after_rexmit_acked := 0 |>);;
    '(recvd_dsack, (nsacks, sacks)) ←
      (if (0 <? a_nsacks a)%nat then tcp_sack_process_dsack (th_ack a) (a_nsacks a) (a_sacks a)
       else mret (false, (a_nsacks a, a_sacks a)));
    if recvd_dsack && SEQ_LEQ (th_ack a) (snd_una s) && (nsacks =? 0)%nat then mret true
    else
      s ← get;
      when ((0 <? nsacks)%nat || negb (bool_decide (snd_holes s = []))) (tcp_sack_doack (th_ack a) nsacks sacks);;
      s ← get;
      (if SEQ_LEQ (th_ack a) (snd_una s) then when (dup a) (process_dupack a)
       else
         ack_recovery a;;
         advance_una (a_cc a) (th_ack a);;
         s ← get;
         when (adv_dup a && (0 <? newbytes_acked s) && (0 <? nsacks)%nat && negb (flagged (snd_flagsext s) TF_PKTS_REORDERED))
           (process_dupack a));;
      mret false.

(** Fast recovery begins with the [rexmtthresh]-th duplicate. *)
Definition begin_recovery (fin : bool) : SND unit :=
  modify (λ s, s <| snd_recover := if fin then u32 (snd_max s - 1) else snd_max s |>);;
  ENTER_FASTRECOVERY;;
  modify (λ s, s <| sack_newdata := snd_nxt s |> <| snd_cwnd := if tcp_do_better_lr cfg then snd_ssthresh s else t_maxseg s |>).

(** [tcp_update_window]: a window of [th_win] with the scale of the connection. *)
Definition update_window (th_win snd_scale : Z) : SND unit :=
  modify (λ s, s <| snd_wnd := Z.shiftl th_win snd_scale |>);;
  modify (λ s, if max_sndwnd s <? snd_wnd s then s <| max_sndwnd := snd_wnd s |> else s).
End sender.
