(* ===== verification/TcpSackFun.v ===== *)
(** * TcpSackFun: the scoreboard is what was not acknowledged

    The holes are, in unbounded sequence numbers, a sorted list of intervals;
    processing an acknowledgement removes exactly the blocks it reports, as
    long as there is room for holes, and never more; the pointer to the next
    hole and the number of octets sent again are those of a walk over the
    list. *)

From S2P Require Import Prelude TcpSeq TcpSack.

Definition normh (h : sackhole) : sackhole :=
  Sackhole (h_addr h) (u32 (h_start h)) (u32 (h_end h)) (u32 (h_rxmit h)) (h_rxmit_start h).
Definition hole_iv (h : sackhole) : Z * Z := (h_start h, h_end h).
Definition sblk_of (b : Z * Z) : sblk := Sblk (u32 b.1) (u32 b.2).

(** ** Lists of holes with distinct addresses *)

Definition addrs (A : list sackhole) : list Z := h_addr <$> A.

Lemma addrs_norm A : addrs (normh <$> A) = addrs A.
Proof. unfold addrs. rewrite <- list_fmap_compose. by apply list_fmap_ext. Qed.

Section lists.
Context (L R : list sackhole) (c : sackhole) (Hnd : NoDup (addrs (L ++ c :: R))).

Lemma addr_notin_L : h_addr c ∉ addrs L.
Proof.
  unfold addrs in *. rewrite fmap_app in Hnd. cbn [fmap list_fmap] in Hnd. intros H. apply NoDup_app in Hnd as (_ & Hd & _).
  apply (Hd _ H). left.
Qed.
Lemma addr_notin_R : h_addr c ∉ addrs R.
Proof.
  unfold addrs in *. rewrite fmap_app in Hnd. cbn [fmap list_fmap] in Hnd. apply NoDup_app in Hnd as (_ & _ & Hd).
  by apply NoDup_cons in Hd as [? _].
Qed.
Lemma neq_notin h l : h ∈ l → h_addr c ∉ addrs l → h_addr h ≠ h_addr c.
Proof. intros Hh Hn E. apply Hn. rewrite <- E. by apply list_elem_of_fmap_2. Qed.

Lemma find_hole_mid : find_hole (h_addr c) (L ++ c :: R) = Some c.
Proof.
  unfold find_hole. assert (HL := addr_notin_L). revert HL. clear Hnd. induction L as [|h l IH]; intros HL; cbn [app list_find].
  - by rewrite decide_True.
  - rewrite decide_False.
    + rewrite <- IH; [|set_solver]. destruct (list_find _ (l ++ c :: R)) as [[i x]|]; done.
    + intros E. apply HL. rewrite <- E. left.
Qed.

Lemma map_hole_mid (f : sackhole → sackhole) :
  map (λ h, if h_addr h =? h_addr c then f h else h) (L ++ c :: R) = L ++ f c :: R.
Proof.
  assert (H : ∀ l, h_addr c ∉ addrs l → map (λ h, if h_addr h =? h_addr c then f h else h) l = l).
  { induction l as [|h l IH]; intros Hl; [done|]. cbn [map]. rewrite (proj2 (Z.eqb_neq _ _)).
    - rewrite IH; [done|]. set_solver.
    - intros E. apply Hl. rewrite <- E. left. }
  rewrite map_app. cbn [map]. rewrite Z.eqb_refl, !H; [done|apply addr_notin_R|apply addr_notin_L].
Qed.

Lemma insert_after_mid n : insert_after (h_addr c) n (L ++ c :: R) = L ++ c :: n :: R.
Proof.
  assert (HL := addr_notin_L). revert HL. clear Hnd. induction L as [|h l IH]; intros HL; cbn [app insert_after].
  - by rewrite Z.eqb_refl.
  - rewrite (proj2 (Z.eqb_neq _ _)); [|intros E; apply HL; rewrite <- E; left]. rewrite IH; [done|]. set_solver.
Qed.

Lemma remove_mid : filter (λ h, h_addr h ≠ h_addr c) (L ++ c :: R) = L ++ R.
Proof.
  rewrite filter_app, filter_cons_False by (intros H; by apply H).
  rewrite !filter_all; [done| |]; intros h Hh; (eapply neq_notin; [done|]); [apply addr_notin_R|apply addr_notin_L].
Qed.

Lemma prev_mid p : prev_from p (h_addr c) (L ++ c :: R) = match last L with Some h => Some (h_addr h) | None => p end.
Proof.
  assert (HL := addr_notin_L). revert p HL. clear Hnd. induction L as [|h l IH]; intros p HL; cbn [app prev_from].
  - by rewrite Z.eqb_refl.
  - rewrite (proj2 (Z.eqb_neq _ _)); [|intros E; apply HL; rewrite <- E; left]. rewrite IH by set_solver.
    destruct l as [|h' l]; [done|]. rewrite last_cons_cons. destruct (last (h' :: l)) eqn:E; [done|]. by apply last_None in E.
Qed.

Lemma next_mid : next_of (h_addr c) (L ++ c :: R) = h_addr <$> head R.
Proof.
  assert (HL := addr_notin_L). revert HL. clear Hnd. induction L as [|h l IH]; intros HL; cbn [app next_of].
  - by rewrite Z.eqb_refl.
  - rewrite (proj2 (Z.eqb_neq _ _)); [|intros E; apply HL; rewrite <- E; left]. apply IH. set_solver.
Qed.

Lemma after_mid : after_hole (h_addr c) (L ++ c :: R) = R.
Proof.
  assert (HL := addr_notin_L). revert HL. clear Hnd. induction L as [|h l IH]; intros HL; cbn [app after_hole].
  - by rewrite Z.eqb_refl.
  - rewrite (proj2 (Z.eqb_neq _ _)); [|intros E; apply HL; rewrite <- E; left]. apply IH. set_solver.
Qed.

Lemma addr_split P Q h : L ++ c :: R = P ++ h :: Q → h_addr h = h_addr c → P = L ∧ Q = R.
Proof.
  intros E Ea. assert (HL := addr_notin_L). assert (HR := addr_notin_R). apply app_eq_inv in E as [(k & -> & E)|(k & -> & E)].
  - destruct k as [|x k]; cbn [app] in E; injection E as E1 E2; [by rewrite app_nil_r|]. exfalso. apply HL. rewrite <- Ea, E1.
    unfold addrs. rewrite fmap_app, fmap_cons. set_solver.
  - destruct k as [|x k]; cbn [app] in E; injection E as E1 E2; [by rewrite app_nil_r|]. exfalso. apply HR. rewrite <- Ea, E2.
    unfold addrs. rewrite fmap_app, fmap_cons. set_solver.
Qed.
End lists.

(** ** The order of retransmission *)

Definition complete (h : sackhole) : Prop := h_rxmit h = h_end h.
Definition untouched (h : sackhole) : Prop := h_rxmit h = h_start h.

(** Before a hole that is begun all are complete; after one that is not
    complete all are untouched. *)
Fixpoint ordered (A : list sackhole) : Prop :=
  match A with
  | [] => True
  | h :: A => (complete h ∨ Forall untouched A) ∧ ordered A
  end.

Lemma ordered_app A A' :
  ordered (A ++ A') ↔ ordered A ∧ ordered A' ∧ (Forall complete A ∨ Forall untouched A').
Proof.
  induction A as [|h A IH]; cbn [app ordered].
  - split; [intros H; split_and!; [done..|left; constructor]|tauto].
  - rewrite IH, Forall_app, Forall_cons. unfold complete, untouched in *.
    destruct (decide (h_rxmit h = h_end h)); tauto.
Qed.

Lemma ordered_replace L c R l :
  ordered (L ++ c :: R) → ordered l → (complete c → Forall complete l) → (untouched c → Forall untouched l) → ordered (L ++ l ++ R).
Proof.
  rewrite !ordered_app. change (c :: R) with ([c] ++ R). rewrite ordered_app, !Forall_app, !Forall_singleton. tauto.
Qed.

(** All holes before the one at [nexthole] are complete. *)
Definition hint_ok (A : list sackhole) (n : option Z) : Prop :=
  match n with
  | None => Forall complete A
  | Some a => ∃ P h Q, A = P ++ h :: Q ∧ h_addr h = a ∧ Forall complete P
  end.

Definition rexmitted (A : list sackhole) : Z := foldr (λ h n, (h_rxmit h - h_start h) + n) 0 A.
Lemma rexmitted_app A A' : rexmitted (A ++ A') = rexmitted A + rexmitted A'.
Proof. induction A as [|h A IH]; [done|]. cbn [app]. unfold rexmitted in *. cbn [foldr]. lia. Qed.
Lemma rexmitted_cons h A : rexmitted (h :: A) = h_rxmit h - h_start h + rexmitted A.
Proof. done. Qed.

Definition holes_iv (A : list sackhole) : list (Z * Z) := hole_iv <$> A.
Lemma holes_iv_app A A' : holes_iv (A ++ A') = holes_iv A ++ holes_iv A'.
Proof. apply fmap_app. Qed.
Definition rxmit_ok (h : sackhole) : Prop := h_start h <= h_rxmit h <= h_end h.

Lemma rexmitted_bound lo hi A : chain lo hi (holes_iv A) → Forall rxmit_ok A → 0 <= rexmitted A <= hi - lo.
Proof.
  intros Hc HA. revert lo Hc. induction HA as [|h A Hh HA IH]; intros lo Hc; [simpl in *; unfold rexmitted; simpl; lia|].
  cbn [holes_iv fmap list_fmap chain hole_iv fst snd] in Hc. destruct Hc as (? & ? & Hc%IH). rewrite rexmitted_cons. unfold rxmit_ok in Hh. lia.
Qed.

(** ** The scoreboard *)

Section scoreboard.
Context (cfg : settings).

(** The holes [A] between the octets [U] and [F], which is [snd_fack] unless
    there are none; [M] is [snd_max]. *)
Record board (U F M : Z) (A : list sackhole) (s : sndcb) : Prop := {
  b_una : snd_una s = u32 U;
  b_max : snd_max s = u32 M;
  b_fack : A ≠ [] → snd_fack s = u32 F;
  b_holes : snd_holes s = normh <$> A;
  b_chain : chain U F (holes_iv A);
  b_window : F <= M <= U + SPAN;
  b_rxmit : Forall rxmit_ok A;
  b_addrs : NoDup (addrs A);
  b_zone : Forall (λ a, a < zone s) (addrs A);
  b_num : snd_numholes s = Z.of_nat (length A);
  b_limit : Z.of_nat (length A) <= 32767;
  b_bytes : sack_bytes_rexmit s = rexmitted A;
  b_order : ordered A;
  b_hint : hint_ok A (nexthole s) }.

(** The fields that a step of the loop may change are those of the holes and the
    counters; these it keeps. *)
Definition kept (s : sndcb) :=
  (snd_una s, snd_nxt s, snd_max s, snd_wnd s, snd_fack s, snd_recover s, sack_newdata s, t_rxt_segments s,
   (in_recovery s, max_sndwnd s, snd_cwnd s, snd_ssthresh s, t_maxseg s, sack_bytes_acked s)).
(** The holes and what is kept about them. *)
Definition holes_part (s : sndcb) :=
  (snd_holes s, snd_numholes s, nexthole s, sack_bytes_rexmit s, zone s, globalholes s).

Lemma detect_run h sacked F0 lo s :
  rxmit_ok h → lo <= h_start h → h_end h <= lo + SPAN → lo <= F0 <= lo + SPAN →
  ∃ s', tcp_sack_detect_reordering cfg (normh h) sacked (u32 F0) s = Ret (tt, s') ∧
    kept s' = kept s ∧ holes_part s' = holes_part s ∧ newbytes_acked s' = newbytes_acked s.
Proof.
  unfold rxmit_ok. intros Hr Hlo Hhi HF. unfold tcp_sack_detect_reordering. rewrite get_run.
  cbn [normh h_end h_rxmit h_rxmit_start]. rewrite seq_gt, seq_geq by (span; near).
  destruct (Z.ltb_spec F0 (h_end h)) as [?|Hle]; cbn [orb]; [by exists s|].
  destruct (0 <? t_rxtshift s); [by exists s|]. destruct (_ && _); [|by exists s]. rewrite modify_run.
  rewrite (proj2 (Z.leb_le (h_rxmit h) F0)) by lia. cbn [negb].
  destruct (0 <? h_rxmit_start h); [|by eexists]. destruct (_ <? 0); by eexists.
Qed.

Lemma counter_run a b s : 0 <= b - a < 2 ^ 32 →
  ∃ s', tcp_sack_update_byte_counter (u32 a) (u32 b) s = Ret (tt, s') ∧ kept s' = kept s ∧ holes_part s' = holes_part s ∧
    newbytes_acked s' = u32 (newbytes_acked s + (b - a)).
Proof.
  intros H. eexists. split; [reflexivity|]. split; [done|]. split; [done|]. cbn. by rewrite u32_sub, (u32_id (b - a)).
Qed.

(** Replacing a hole [c] by the holes [l] inside of it. *)
Definition inside (c : sackhole) (l : list sackhole) : Prop :=
  chain (h_start c) (h_end c) (holes_iv l) ∧ Forall rxmit_ok l ∧ ordered l ∧
  (complete c → Forall complete l) ∧ (untouched c → Forall untouched l).

Lemma board_replace U F M L c R l s s' :
  board U F M (L ++ c :: R) s → inside c l → kept s' = kept s →
  snd_holes s' = normh <$> (L ++ l ++ R) → NoDup (addrs (L ++ l ++ R)) → Forall (λ a, a < zone s') (addrs (L ++ l ++ R)) →
  snd_numholes s' = Z.of_nat (length (L ++ l ++ R)) → Z.of_nat (length (L ++ l ++ R)) <= 32767 →
  sack_bytes_rexmit s' = rexmitted (L ++ l ++ R) → hint_ok (L ++ l ++ R) (nexthole s') →
  board U F M (L ++ l ++ R) s'.
Proof.
  intros [] (Hc & Hr & Ho & Hcc & Hcu) Hk ? ? ? ? ? ? ?. injection Hk as ? ? ? ? E ? ? ? _ _ _ _ _ _. split; try done; try congruence.
  - intros _. rewrite E. apply b_fack0. by destruct L.
  - rewrite !holes_iv_app in *. apply chain_app in b_chain0 as (m & Hm1 & Hm2). apply chain_app. exists m. split; [done|].
    cbn [holes_iv fmap list_fmap chain hole_iv fst snd] in Hm2. destruct Hm2 as (Hm2 & _ & Hm3). apply chain_app. exists (h_end c).
    split; [|done]. by eapply chain_weaken.
  - rewrite !Forall_app in *. rewrite Forall_cons in b_rxmit0. tauto.
  - by eapply ordered_replace.
Qed.

Lemma hint_replace L c R l a :
  NoDup (addrs (L ++ c :: R)) → (complete c → Forall complete l) → (a = h_addr c → h_addr <$> head l = Some a) →
  hint_ok (L ++ c :: R) (Some a) → hint_ok (L ++ l ++ R) (Some a).
Proof.
  intros Hnd Hc Ha (P & h & Q & E & Hh & HP). apply app_eq_inv in E as [(k & -> & E)|(k & -> & E)].
  - destruct k as [|x k]; cbn [app] in E; injection E as -> ->.
    + rewrite app_nil_r in *. destruct l as [|x l]; [by specialize (Ha (eq_sym Hh))|]. exists P, x, (l ++ R).
      split_and!; [done| |done]. specialize (Ha (eq_sym Hh)). by injection Ha.
    + exists P, x, (k ++ l ++ R). split_and!; [|done..]. by rewrite <- !app_assoc.
  - apply Forall_app in HP as (HP & Hk). destruct k as [|x k]; cbn [app] in E; injection E as E1 E2.
    + rewrite <- E1 in Hh. rewrite E2. destruct l as [|x l]; [by specialize (Ha (eq_sym Hh))|]. exists L, x, (l ++ Q).
      split_and!; [done| |done]. specialize (Ha (eq_sym Hh)). by injection Ha.
    + rewrite <- E1 in Hk. rewrite E2. apply Forall_cons in Hk as (Hx & Hk). exists (L ++ l ++ k), h, Q.
      split_and!; [by rewrite <- !app_assoc|done|]. rewrite !Forall_app. tauto.
Qed.

Lemma board_mid U F M L c R s : board U F M (L ++ c :: R) s →
  U <= h_start c ∧ h_start c < h_end c ∧ h_end c <= F ∧ F <= M ∧ M <= U + SPAN ∧ rxmit_ok c ∧
  0 <= rexmitted (L ++ R) ∧ rexmitted (L ++ R) + (h_rxmit c - h_start c) = rexmitted (L ++ c :: R) ∧
  rexmitted (L ++ R) + (h_end c - h_start c) <= SPAN.
Proof.
  intros []. rewrite holes_iv_app in b_chain0. apply chain_app in b_chain0 as (m & H1 & H2).
  cbn [holes_iv fmap list_fmap chain hole_iv fst snd] in H2. destruct H2 as (H2 & H3 & H4).
  rewrite !rexmitted_app, rexmitted_cons. rewrite Forall_app, Forall_cons in b_rxmit0. destruct b_rxmit0 as (HL & Hc & HR).
  assert (Hr1 := rexmitted_bound _ _ _ H1 HL). assert (Hr2 := rexmitted_bound _ _ _ H4 HR).
  apply chain_le in H1, H4. split_and!; try done; lia.
Qed.

(** Reading, changing and counting the hole [c] of a list. *)
Section middle.
Context (L R : list sackhole) (c : sackhole) (Hnd : NoDup (addrs (L ++ c :: R))).

Lemma nodup_norm : NoDup (addrs ((normh <$> L) ++ normh c :: (normh <$> R))).
Proof. change (NoDup (addrs ((normh <$> L) ++ (normh <$> c :: R)))). by rewrite <- fmap_app, addrs_norm. Qed.

Lemma hole_run s {X} (k : sackhole → SND X) : snd_holes s = normh <$> L ++ c :: R → (hole (h_addr c) ≫= k) s = k (normh c) s.
Proof.
  intros E. apply (bind_run (hole (h_addr c)) k s (normh c) s). unfold hole. rewrite get_run, E, fmap_app, fmap_cons.
  change (h_addr c) with (h_addr (normh c)).
  by rewrite (find_hole_mid _ _ (normh c) nodup_norm).
Qed.

Lemma prev_run s {X} (k : option Z → SND X) : snd_holes s = normh <$> L ++ c :: R →
  (prev_hole (h_addr c) ≫= k) s = k (h_addr <$> last L) s.
Proof.
  intros E. apply (bind_run (prev_hole (h_addr c)) k s _ s). unfold prev_hole. rewrite get_run, E, fmap_app, fmap_cons.
  change (h_addr c) with (h_addr (normh c)).
  rewrite (prev_mid _ _ (normh c) nodup_norm), fmap_last. by destruct (last L).
Qed.

Lemma set_hole_run f c' s : snd_holes s = normh <$> L ++ c :: R → f (normh c) = normh c' →
  set_hole (h_addr c) f s = Ret (tt, s <| snd_holes := normh <$> L ++ c' :: R |>).
Proof.
  intros E Ef. unfold set_hole, modify. rewrite E, fmap_app, fmap_cons. change (h_addr c) with (h_addr (normh c)).
  rewrite (map_hole_mid _ _ (normh c) nodup_norm), Ef. by rewrite fmap_app.
Qed.

Lemma remove_run s : snd_holes s = normh <$> L ++ c :: R →
  tcp_sackhole_remove (h_addr c) s = Ret (tt, s <| nexthole := if bool_decide (nexthole s = Some (h_addr c)) then h_addr <$> head R else nexthole s |>
    <| snd_holes := normh <$> L ++ R |> <| snd_numholes := s16 (snd_numholes s - 1) |> <| globalholes := globalholes s - 1 |>).
Proof.
  intros E. unfold tcp_sackhole_remove. rewrite modify_run. unfold modify.
  change (snd_holes (_ <| nexthole := _ |>)) with (snd_holes s). rewrite E, !fmap_app, fmap_cons. change (h_addr c) with (h_addr (normh c)).
  rewrite (remove_mid _ _ (normh c) nodup_norm), (next_mid _ _ (normh c) nodup_norm). by destruct R.
Qed.

Lemma sackhole_insert_run s lo hi : snd_holes s = normh <$> L ++ c :: R →
  snd_numholes s < tcp_sack_maxholes cfg → globalholes s < tcp_sack_globalmaxholes cfg →
  let t := Sackhole (zone s) lo hi lo (snd_now cfg) in
  tcp_sackhole_insert cfg (u32 lo) (u32 hi) (Some (h_addr c)) s =
  Ret (Some (normh t), s <| zone := zone s + 1 |> <| snd_numholes := s16 (snd_numholes s + 1) |> <| globalholes := globalholes s + 1 |>
    <| snd_holes := normh <$> L ++ c :: t :: R |> <| nexthole := match nexthole s with None => Some (zone s) | Some a => Some a end |>).
Proof.
  intros E H1 H2 t. unfold tcp_sackhole_insert.
  erewrite bind_run; [|unfold tcp_sackhole_alloc; rewrite get_run, (proj2 (Z.leb_gt _ _) H1), (proj2 (Z.leb_gt _ _) H2); cbn [orb];
    rewrite modify_run; reflexivity].
  cbv beta iota zeta. rewrite modify_run. change (snd_holes (_ <| globalholes := _ |>)) with (snd_holes s). rewrite E, !fmap_app, !fmap_cons.
  change (h_addr c) with (h_addr (normh c)). rewrite (insert_after_mid _ _ (normh c) nodup_norm). by rewrite modify_run.
Qed.
End middle.

Lemma insert_full s start hend after :
  tcp_sack_maxholes cfg <= snd_numholes s ∨ tcp_sack_globalmaxholes cfg <= globalholes s →
  tcp_sackhole_insert cfg start hend after s = Ret (None, s).
Proof.
  intros H. unfold tcp_sackhole_insert. rewrite (bind_run (tcp_sackhole_alloc cfg start hend) _ s None s); [done|].
  unfold tcp_sackhole_alloc. rewrite get_run.
  rewrite <- !Z.leb_le, <- orb_true_iff in H. by rewrite H.
Qed.

(** The end of a step that trims the hole. *)
Lemma tail_run L R c b s :
  NoDup (addrs (L ++ c :: R)) → snd_holes s = normh <$> L ++ c :: R → sack_bytes_rexmit s = rexmitted (L ++ R) →
  rxmit_ok c → 0 <= rexmitted (L ++ R) → rexmitted (L ++ R) + (h_end c - h_start c) <= SPAN → near b (h_start c) →
  (h ← hole (h_addr c); count_rexmit h;;
   if SEQ_LEQ (u32 b) (h_start h) then p ← prev_hole (h_addr c); mret (false, p) else mret (true, Some (h_addr c))) s =
  Ret (if b <=? h_start c then (false, h_addr <$> last L) else (true, Some (h_addr c)),
       s <| sack_bytes_rexmit := rexmitted (L ++ c :: R) |>).
Proof.
  unfold rxmit_ok. intros Hnd Hs Hb Hr H0 H1 Hn. rewrite (hole_run L R c Hnd _ _ Hs). unfold count_rexmit. rewrite modify_run.
  replace (s32 _) with (rexmitted (L ++ c :: R)).
  2:{ rewrite Hb. cbn [normh h_rxmit h_start]. rewrite !rexmitted_app, rexmitted_cons in *. span.
      rewrite s32_count by lia. lia. }
  cbn [normh h_start]. rewrite seq_leq by done. destruct (b <=? h_start c); [|done].
  by rewrite (prev_run L R c Hnd).
Qed.

(** The hole keeps its place. *)
Lemma board_trim U F M L c c' R s s' :
  board U F M (L ++ c :: R) s → inside c [c'] → h_addr c' = h_addr c → kept s' = kept s →
  holes_part s' = (normh <$> L ++ c' :: R, snd_numholes s, nexthole s, rexmitted (L ++ c' :: R), zone s, globalholes s) →
  board U F M (L ++ c' :: R) s'.
Proof.
  intros Hb Hi Ha Hk Hp. injection Hp as Hh Hnum Hnx Hby Hz _. assert (Hbb := Hb). destruct Hbb.
  assert (Eadr : addrs (L ++ c' :: R) = addrs (L ++ c :: R)).
  { unfold addrs. rewrite !fmap_app, !fmap_cons. by rewrite Ha. }
  eapply (board_replace U F M L c R [c']); cbn [app]; rewrite ?Eadr, ?Hz; try done.
  - rewrite Hnum, b_num0, !length_app. done.
  - rewrite !length_app in *. done.
  - rewrite Hnx. destruct Hi as (_ & _ & _ & Hc & _). destruct (nexthole s) as [a|].
    + apply (hint_replace L c R [c']); [done|done|intros ->; cbn; by rewrite Ha|done].
    + cbn [hint_ok] in *. rewrite Forall_app, Forall_cons in *. destruct b_hint0 as (? & Hcc & ?). split_and!; [done| |done].
      by apply Hc.
Qed.

(** *** A step of the loop *)

(** The hole [c] is replaced by [k ++ l]; the loop goes on with the last hole of
    [L ++ k], and with the next block if [nb]. *)
Record stepped (U F M : Z) (L : list sackhole) (c : sackhole) (R : list sackhole) (b : Z * Z)
    (nb : bool) (k l : list sackhole) (s s' : sndcb) : Prop := {
  st_board : board U F M (L ++ k ++ l ++ R) s';
  st_kept : kept s' = kept s;
  st_chain : chain (h_start c) (h_end c) (holes_iv (k ++ l));
  st_left : ∀ x, h_start c <= x < h_end c → ¬ b.1 <= x < b.2 → covered x (holes_iv (k ++ l));
  st_next : if nb then length k = 1%nat ∧ h_start c < b.1 else k = [];
  st_after : Forall (λ h, b.2 <= h_start h) l;
  st_room : (snd_numholes s < tcp_sack_maxholes cfg ∧ globalholes s < tcp_sack_globalmaxholes cfg) ∨ b.1 <= h_start c →
    ∀ x, covered x (holes_iv (k ++ l)) → ¬ b.1 <= x < b.2;
  st_len : (length (k ++ l) <= if nb then 2 else 1)%nat;
  st_global : globalholes s' = globalholes s + (Z.of_nat (length (k ++ l)) - 1);
  st_bytes : newbytes_acked s' = u32 (newbytes_acked s + (h_end c - h_start c - measure (holes_iv (k ++ l)))) }.

(** A block of an acknowledgement. *)
Definition blk_ok (U M : Z) (b : Z * Z) : Prop := U <= b.1 ∧ b.1 < b.2 ∧ b.2 <= M.


Section step.
Context (U F M F0 : Z) (L : list sackhole) (c : sackhole) (R : list sackhole) (b : Z * Z) (s : sndcb).
Context (Hb : board U F M (L ++ c :: R) s) (Hblk : blk_ok U M b) (HF0 : U <= F0 <= U + SPAN).
Context (Hnew : 0 <= newbytes_acked s < 2 ^ 32).

Definition steps_to (nb : bool) (k l : list sackhole) : Prop :=
  ∃ s', doack_step cfg (sblk_of b) (h_addr c) (u32 F0) s = Ret ((nb, h_addr <$> last (L ++ k)), s') ∧
    stepped U F M L c R b nb k l s s'.

Ltac covers := rewrite ?holes_iv_app; cbn [app holes_iv fmap list_fmap hole_iv]; rewrite ?covered_cons, ?covered_nil; cbn [hole_iv fst snd h_start h_end].

Lemma step_beyond : h_end c <= b.1 → steps_to true [c] [].
Proof.
  intros H. assert (Hm := board_mid _ _ _ _ _ _ _ Hb). destruct Hm as (? & ? & ? & ? & ? & ? & _). destruct Hblk as (? & ? & ?).
  exists s. split.
  - unfold doack_step. rewrite (hole_run L R c (b_addrs _ _ _ _ _ Hb) _ _ (b_holes _ _ _ _ _ Hb)).
    cbn [normh h_end sblk_of b_start]. rewrite seq_geq by (span; near). rewrite (proj2 (Z.leb_le _ _)) by done.
    by rewrite last_snoc.
  - split; try done; try (apply le_n); try (apply le_S, le_n).
    + cbn. lia.
    + intros x ? ?. covers. lia.
    + split; [done|lia].
    + intros _ x. covers. lia.
    + cbn. lia.
    + cbn. rewrite u32_id; lia.
Qed.

Lemma step_before : b.2 <= h_start c → steps_to false [] [c].
Proof.
  intros H. assert (Hm := board_mid _ _ _ _ _ _ _ Hb). destruct Hm as (? & ? & ? & ? & ? & ? & _). destruct Hblk as (? & ? & ?).
  exists s. split.
  - unfold doack_step. rewrite (hole_run L R c (b_addrs _ _ _ _ _ Hb) _ _ (b_holes _ _ _ _ _ Hb)).
    cbn [normh h_end h_start sblk_of b_start b_end]. rewrite seq_geq, seq_leq by (span; near).
    rewrite (proj2 (Z.leb_gt _ _)), (proj2 (Z.leb_le _ _)) by lia.
    rewrite (prev_run L R c (b_addrs _ _ _ _ _ Hb) _ _ (b_holes _ _ _ _ _ Hb)). by rewrite app_nil_r.
  - split; try done; try (apply le_n); try (apply le_S, le_n).
    + cbn. lia.
    + intros x ? ?. covers. lia.
    + by constructor.
    + intros _ x. covers. lia.
    + cbn. lia.
    + cbn. rewrite u32_id; lia.
Qed.

(** A block that overlaps the hole: its retransmitted octets are first taken
    from the count. *)
Let s1 : sndcb := s <| sack_bytes_rexmit := rexmitted (L ++ R) |>.

Lemma step_overlap r : b.1 < h_end c → h_start c < b.2 →
  (let a := h_addr c in let h := normh c in let sb := sblk_of b in
   if (b.1 <=? h_start c) && (h_end c <=? b.2) then
     tcp_sack_update_byte_counter (u32 (h_start c)) (u32 (h_end c));;
     tcp_sack_detect_reordering cfg h (u32 (h_end c)) (u32 F0);;
     p ← prev_hole a; tcp_sackhole_remove a;; mret (false, p)
   else
     (if b.1 <=? h_start c then
        tcp_sack_update_byte_counter (u32 (h_start c)) (u32 b.2);;
        tcp_sack_detect_reordering cfg h (u32 b.2) (u32 F0);;
        set_hole a (λ h, h <| h_start := u32 b.2 |> <| h_rxmit := SEQ_MAX (h_rxmit h) (u32 b.2) |>)
      else if h_end c <=? b.2 then
        tcp_sack_update_byte_counter (u32 b.1) (u32 (h_end c));;
        tcp_sack_detect_reordering cfg h (u32 (h_end c)) (u32 F0);;
        set_hole a (λ h, h <| h_end := u32 b.1 |> <| h_rxmit := SEQ_MIN (h_rxmit h) (u32 b.1) |>)
      else split_hole cfg sb h (u32 F0));;
     h ← hole a; count_rexmit h;;
     if SEQ_LEQ (u32 b.1) (h_start h) then p ← prev_hole a; mret (false, p) else mret (true, Some a)) s1 = r →
  doack_step cfg (sblk_of b) (h_addr c) (u32 F0) s = r.
Proof.
  intros H1 H2 <-. assert (Hm := board_mid _ _ _ _ _ _ _ Hb). destruct Hm as (? & ? & ? & ? & ? & Hr & ? & Hx & ?).
  destruct Hblk as (? & ? & ?). unfold rxmit_ok in Hr.
  unfold doack_step. rewrite (hole_run L R c (b_addrs _ _ _ _ _ Hb) _ _ (b_holes _ _ _ _ _ Hb)).
  cbn [normh h_end h_start sblk_of b_start b_end]. rewrite !seq_geq, !seq_leq by (span; near).
  rewrite (proj2 (Z.leb_gt (h_end c) b.1)), (proj2 (Z.leb_gt b.2 (h_start c))) by lia.
  unfold forget_rexmit. rewrite modify_run. change (h_rxmit (normh c)) with (u32 (h_rxmit c)). change (h_start (normh c)) with (u32 (h_start c)). rewrite (b_bytes _ _ _ _ _ Hb).
  rewrite s32_discount by (span; lia). by rewrite <- Hx, Z.add_simpl_r, Z.max_r by lia.
Qed.

(** The two updates that every case begins with. *)
Lemma counters_run lo hi sacked :
  lo < hi → U <= lo → hi <= M →
  ∃ s2, (∀ X (k : unit → SND X), (tcp_sack_update_byte_counter (u32 lo) (u32 hi) ≫= λ _,
      tcp_sack_detect_reordering cfg (normh c) sacked (u32 F0) ≫= k) s1 = k tt s2) ∧
    kept s2 = kept s ∧ holes_part s2 = (snd_holes s, snd_numholes s, nexthole s, rexmitted (L ++ R), zone s, globalholes s) ∧
    newbytes_acked s2 = u32 (newbytes_acked s + (hi - lo)).
Proof.
  intros H1 H2 H3. assert (Hm := board_mid _ _ _ _ _ _ _ Hb). destruct Hm as (? & ? & ? & ? & ? & Hr & ? & Hx & ?).
  destruct (counter_run lo hi s1) as (t & E & K & P & N); [span; lia|].
  destruct (detect_run c sacked F0 U t) as (s2 & E' & K' & P' & N'); [done|lia..|].
  exists s2. split_and!; [|by rewrite K', K| |].
  - intros X k. rewrite (bind_run _ _ _ _ _ E). by rewrite (bind_run _ _ _ _ _ E').
  - by rewrite P', P.
  - by rewrite N', N.
Qed.

Lemma board_remove s' :
  kept s' = kept s → snd_holes s' = normh <$> L ++ R → zone s' = zone s → snd_numholes s' = s16 (snd_numholes s - 1) →
  sack_bytes_rexmit s' = rexmitted (L ++ R) →
  nexthole s' = (if bool_decide (nexthole s = Some (h_addr c)) then h_addr <$> head R else nexthole s) →
  board U F M (L ++ R) s'.
Proof.
  intros Hk Hh Hz Hn Hby Hnx. assert (Hbb := Hb). destruct Hbb. assert (Hadr := b_addrs0).
  unfold addrs in b_addrs0, b_zone0. rewrite fmap_app, fmap_cons in b_addrs0, b_zone0.
  apply (board_replace U F M L c R [] s); cbn [app]; try done.
  - split_and!; try done. cbn. assert (Hm := board_mid _ _ _ _ _ _ _ Hb). lia.
  - unfold addrs. rewrite fmap_app. rewrite <- Permutation_middle in b_addrs0. by apply NoDup_cons in b_addrs0 as [_ ?].
  - rewrite Hz. unfold addrs. rewrite fmap_app. rewrite Forall_app, Forall_cons in *. tauto.
  - rewrite Hn, b_num0, s16_id; rewrite !length_app in *; cbn [length] in *; lia.
  - rewrite !length_app in *; cbn [length] in *; lia.
  - rewrite Hnx. case_bool_decide as En.
    + rewrite En in b_hint0. destruct b_hint0 as (P & h & Q & E & Ha & HP).
      destruct (addr_split L R c Hadr P Q h E Ha) as [E1 E2]. rewrite <- E1, <- E2.
      destruct Q as [|q Q]; cbn; [by rewrite app_nil_r|]. by exists P, q, Q.
    + destruct (nexthole s) as [a|]; [|cbn [hint_ok] in *; rewrite Forall_app, Forall_cons in *; tauto].
      apply (hint_replace L c R []); [done|done| |done]. congruence.
Qed.

Lemma step_delete : b.1 <= h_start c → h_end c <= b.2 → steps_to false [] [].
Proof.
  intros H1 H2. assert (Hm := board_mid _ _ _ _ _ _ _ Hb). destruct Hm as (? & ? & ? & ? & ? & Hr & ? & Hx & ?).
  destruct (counters_run (h_start c) (h_end c) (u32 (h_end c))) as (s2 & E & K & P & N); [lia..|].
  injection P as Ph Pn Px Pb Pz Pg. rewrite (b_holes _ _ _ _ _ Hb) in Ph. assert (Hnd := b_addrs _ _ _ _ _ Hb).
  eexists. split.
  - apply step_overlap; [lia..|]. cbv zeta. rewrite (proj2 (Z.leb_le b.1 _)), (proj2 (Z.leb_le _ b.2)) by done. cbn [andb].
    rewrite E, (prev_run L R c Hnd _ _ Ph). rewrite (bind_run _ _ _ _ _ (remove_run L R c Hnd _ Ph)). rewrite app_nil_r. reflexivity.
  - split; try done; try (apply le_n); try (apply le_S, le_n).
    + apply board_remove; try done; cbn; by rewrite ?Px, ?Pn.
    + cbn. lia.
    + intros x ? ?. covers. lia.
    + intros _ x. covers. lia.
    + cbn. lia.
    + cbn. rewrite N. f_equal. lia.
Qed.

(** The hole keeps its place and is trimmed to [c'] by [f]. *)
Lemma step_trim c' lo hi sacked (f : sackhole → sackhole) :
  lo < hi → U <= lo → hi <= M → inside c [c'] → h_addr c' = h_addr c → f (normh c) = normh c' →
  ∃ s', ((tcp_sack_update_byte_counter (u32 lo) (u32 hi);;
          tcp_sack_detect_reordering cfg (normh c) sacked (u32 F0);; set_hole (h_addr c) f);;
         h ← hole (h_addr c); count_rexmit h;;
         if SEQ_LEQ (u32 b.1) (h_start h) then p ← prev_hole (h_addr c); mret (false, p) else mret (true, Some (h_addr c))) s1 =
        Ret (if b.1 <=? h_start c' then (false, h_addr <$> last L) else (true, Some (h_addr c)), s') ∧
    board U F M (L ++ c' :: R) s' ∧ kept s' = kept s ∧ globalholes s' = globalholes s ∧
    newbytes_acked s' = u32 (newbytes_acked s + (hi - lo)).
Proof.
  intros ? ? ? Hi Ha Hf. assert (Hnd := b_addrs _ _ _ _ _ Hb). destruct Hblk as (? & ? & ?).
  assert (Hm := board_mid _ _ _ _ _ _ _ Hb). destruct Hm as (? & ? & ? & ? & ? & _ & ? & _ & ?).
  assert (Hi' := Hi). destruct Hi' as (Hch & Hr & _). rewrite Forall_singleton in Hr.
  cbn in Hch.
  destruct (counters_run lo hi sacked) as (s2 & E & K & P & N); [done..|].
  injection P as Ph Pn Px Pb Pz Pg. rewrite (b_holes _ _ _ _ _ Hb) in Ph.
  assert (E' := E _ (λ _, set_hole (h_addr c) f)). cbv beta in E'. rewrite (set_hole_run L R c Hnd f c' _ Ph Hf) in E'.
  rewrite (bind_run _ _ _ _ _ E').
  assert (Hnd' : NoDup (addrs (L ++ c' :: R))).
  { replace (addrs (L ++ c' :: R)) with (addrs (L ++ c :: R)); [done|]. unfold addrs. rewrite !fmap_app, !fmap_cons. by rewrite Ha. }
  rewrite <- Ha. eexists. split; [apply (tail_run L R c'); try done; span; unfold near; lia|]. split_and!; try done.
  eapply (board_trim U F M L c c' R); [done..|]. unfold holes_part. cbn. by rewrite Pn, Px, Pz, Pg.
Qed.

Lemma step_start : b.1 <= h_start c → h_start c < b.2 → b.2 < h_end c →
  steps_to false [] [Sackhole (h_addr c) b.2 (h_end c) (Z.max (h_rxmit c) b.2) (h_rxmit_start c)].
Proof.
  intros H1 H2 H3. assert (Hm := board_mid _ _ _ _ _ _ _ Hb). destruct Hm as (? & ? & ? & ? & ? & Hr & ? & Hx & ?).
  destruct Hblk as (? & ? & ?). unfold rxmit_ok in Hr. set (c' := Sackhole _ _ _ _ _).
  assert (Hin : inside c [c']).
  { split_and!; cbn; rewrite ?Forall_singleton; unfold rxmit_ok, complete, untouched, c'; cbn; try lia; split; [by right|done]. }
  destruct (step_trim c' (h_start c) b.2 (u32 b.2) (λ h, h <| h_start := u32 b.2 |> <| h_rxmit := SEQ_MAX (h_rxmit h) (u32 b.2) |>))
    as (s' & E & B & K & G & N); [lia..|done|done| |].
  { unfold normh, c'. cbn. by rewrite seq_max by (span; near). }
  rewrite (proj2 (Z.leb_le b.1 (h_start c'))) in E by (cbn; lia).
  exists s'. subst c'. split.
  - apply step_overlap; [lia..|]. cbv zeta. rewrite (proj2 (Z.leb_le b.1 _)), (proj2 (Z.leb_gt _ b.2)) by lia. cbn [andb].
    rewrite app_nil_r. exact E.
  - split; try done; try (apply le_n); try (apply le_S, le_n).
    + cbn. lia.
    + intros x ? ?. covers. lia.
    + constructor; [cbn; lia|constructor].
    + intros _ x. covers. lia.
    + cbn. lia.
    + rewrite N. f_equal. cbn. lia.
Qed.

Lemma step_end : h_start c < b.1 → b.1 < h_end c → h_end c <= b.2 →
  steps_to true [Sackhole (h_addr c) (h_start c) b.1 (Z.min (h_rxmit c) b.1) (h_rxmit_start c)] [].
Proof.
  intros H1 H2 H3. assert (Hm := board_mid _ _ _ _ _ _ _ Hb). destruct Hm as (? & ? & ? & ? & ? & Hr & ? & Hx & ?).
  destruct Hblk as (? & ? & ?). unfold rxmit_ok in Hr. set (c' := Sackhole _ _ _ _ _).
  assert (Hin : inside c [c']).
  { split_and!; cbn; rewrite ?Forall_singleton; unfold rxmit_ok, complete, untouched, c'; cbn; try lia; split; [by right|done]. }
  destruct (step_trim c' b.1 (h_end c) (u32 (h_end c)) (λ h, h <| h_end := u32 b.1 |> <| h_rxmit := SEQ_MIN (h_rxmit h) (u32 b.1) |>))
    as (s' & E & B & K & G & N); [lia..|done|done| |].
  { unfold normh, c'. cbn. by rewrite seq_min by (span; near). }
  rewrite (proj2 (Z.leb_gt b.1 (h_start c'))) in E by (cbn; lia).
  exists s'. subst c'. split.
  - apply step_overlap; [lia..|]. cbv zeta. rewrite (proj2 (Z.leb_gt b.1 _)), (proj2 (Z.leb_le _ b.2)) by lia. cbn [andb].
    rewrite last_snoc. exact E.
  - split; try done; try (apply le_n); try (apply le_S, le_n).
    + cbn. lia.
    + intros x ? ?. covers. lia.
    + intros _ x. covers. lia.
    + cbn. lia.
    + rewrite N. f_equal. cbn. lia.
Qed.

Lemma step_full : h_start c < b.1 → b.2 < h_end c →
  tcp_sack_maxholes cfg <= snd_numholes s ∨ tcp_sack_globalmaxholes cfg <= globalholes s → steps_to true [c] [].
Proof.
  intros H1 H2 H3. assert (Hm := board_mid _ _ _ _ _ _ _ Hb). destruct Hm as (? & ? & ? & ? & ? & Hr & ? & Hx & ?).
  destruct Hblk as (? & ? & ?). assert (Hnd := b_addrs _ _ _ _ _ Hb).
  destruct (detect_run c (u32 b.2) F0 U s1) as (s2 & E & K & P & N); [done|lia..|].
  injection P as Ph Pn Px Pb Pz Pg. cbn in Ph, Pb. rewrite (b_holes _ _ _ _ _ Hb) in Ph.
  assert (Es : split_hole cfg (sblk_of b) (normh c) (u32 F0) s1 = Ret (tt, s2)).
  { unfold split_hole. cbv zeta. change (b_end (sblk_of b)) with (u32 b.2). rewrite (bind_run _ _ _ _ _ E).
    by rewrite (bind_run _ _ _ _ _ (insert_full s2 _ _ _ ltac:(by rewrite Pn, Pg))). }
  eexists. split.
  - apply step_overlap; [lia..|]. cbv zeta. rewrite (proj2 (Z.leb_gt b.1 _)), (proj2 (Z.leb_gt _ b.2)) by lia. cbn [andb].
    rewrite (bind_run _ _ _ _ _ Es). rewrite (tail_run L R c) by (done || (span; near)). rewrite (proj2 (Z.leb_gt b.1 (h_start c))) by lia.
    rewrite last_snoc. reflexivity.
  - split; try done; try (apply le_n); try (apply le_S, le_n).
    + cbn [app]. eapply (board_trim U F M L c c R); try done.
      * split_and!; cbn; rewrite ?Forall_singleton; try done; try lia. split; [by right|done].
      * unfold holes_part. cbn. by rewrite Ph, Pn, Px, Pz, Pg.
    + cbn. lia.
    + intros x ? ?. covers. lia.
    + intros ?. lia.
    + cbn in Pg |- *. lia.
    + cbn in N |- *. rewrite N, u32_id; lia.
Qed.

(** The hole is split. *)
Section split.
Context (H1 : h_start c < b.1) (H2 : b.2 < h_end c).
Context (Hnum : snd_numholes s < tcp_sack_maxholes cfg) (Hglob : globalholes s < tcp_sack_globalmaxholes cfg).

Let c1 : sackhole := Sackhole (h_addr c) (h_start c) b.1 (Z.min (h_rxmit c) b.1) (h_rxmit_start c).
Let temp (rx st : Z) : sackhole := Sackhole (zone s) b.2 (h_end c) rx st.
Let t : sackhole := temp (Z.max (h_rxmit c) b.2) (h_rxmit_start c).

Lemma split_nodup x y : h_addr x = h_addr c → h_addr y = zone s → NoDup (addrs (L ++ x :: y :: R)).
Proof.
  intros Ex Ey. unfold addrs. rewrite !fmap_app, !fmap_cons. rewrite Ex, Ey.
  assert (Hnd := b_addrs _ _ _ _ _ Hb). assert (Hz := b_zone _ _ _ _ _ Hb). unfold addrs in Hnd, Hz.
  rewrite fmap_app, fmap_cons in Hnd, Hz. rewrite (cons_middle _ (h_addr <$> L)), app_assoc, <- Permutation_middle. apply NoDup_cons. split.
  - intros Hin. rewrite <- app_assoc in Hin. rewrite Forall_forall in Hz. specialize (Hz _ Hin). lia.
  - by rewrite <- app_assoc.
Qed.

(** What was sent again of the new hole. *)
Lemma split_rexmit s2 {X} (k : unit → SND X) :
  snd_holes s2 = normh <$> L ++ c :: temp b.2 (snd_now cfg) :: R → sack_bytes_rexmit s2 = rexmitted (L ++ R) →
  ((if SEQ_GT (u32 (h_rxmit c)) (u32 b.2) then
      set_hole (zone s) (λ t, t <| h_rxmit := u32 (h_rxmit c) |>);; t ← hole (zone s); count_rexmit t
    else skip) ≫= k) s2 =
  let t1 := temp (Z.max (h_rxmit c) b.2) (snd_now cfg) in
  k tt (s2 <| snd_holes := normh <$> L ++ c :: t1 :: R |> <| sack_bytes_rexmit := rexmitted (L ++ t1 :: R) |>).
Proof.
  intros Eh Eb. cbv zeta. set (t1 := temp _ _). assert (Hm := board_mid _ _ _ _ _ _ _ Hb).
  destruct Hm as (? & ? & ? & ? & ? & Hr & ? & Hx & ?). unfold rxmit_ok in Hr. destruct Hblk as (? & ? & ?).
  rewrite seq_gt by (span; near). destruct (Z.ltb_spec b.2 (h_rxmit c)) as [Hlt|Hle].
  - apply bind_run. rewrite cons_middle, app_assoc in Eh. assert (Hnd := split_nodup c t1 eq_refl eq_refl).
    assert (Hnd0 := split_nodup c (temp b.2 (snd_now cfg)) eq_refl eq_refl).
    rewrite (cons_middle c), app_assoc in Hnd, Hnd0. rewrite (cons_middle c), app_assoc.
    assert (Ef : normh (temp b.2 (snd_now cfg)) <| h_rxmit := u32 (h_rxmit c) |> = normh t1) by (unfold t1; by rewrite Z.max_l by lia).
    rewrite (bind_run _ _ _ _ _ (set_hole_run (L ++ [c]) R _ Hnd0 (λ t, t <| h_rxmit := u32 (h_rxmit c) |>) t1 _ Eh Ef)).
    rewrite (hole_run (L ++ [c]) R t1 Hnd) by done. unfold count_rexmit, modify.
    replace (s32 _) with (rexmitted (L ++ t1 :: R)); [done|]. cbn. rewrite Eb. unfold t1. cbn. rewrite Z.max_l by lia. rewrite s32_count by (span; lia). rewrite !rexmitted_app, rexmitted_cons. cbn. lia.
  - assert (Et : t1 = temp b.2 (snd_now cfg)) by (unfold t1; by rewrite Z.max_r by lia). rewrite Et, <- Eh.
    replace (rexmitted (L ++ temp b.2 (snd_now cfg) :: R)) with (sack_bytes_rexmit s2); [by destruct s2|].
    rewrite Eb, !rexmitted_app, rexmitted_cons. cbn. lia.
Qed.

Lemma split_run :
  ∃ s', split_hole cfg (sblk_of b) (normh c) (u32 F0) s1 = Ret (tt, s') ∧ kept s' = kept s ∧
    holes_part s' = (normh <$> L ++ c1 :: t :: R, s16 (snd_numholes s + 1),
      match nexthole s with None => Some (zone s) | Some a => Some a end, rexmitted (L ++ t :: R), zone s + 1, globalholes s + 1) ∧
    newbytes_acked s' = u32 (newbytes_acked s + (b.2 - b.1)).
Proof.
  assert (Hm := board_mid _ _ _ _ _ _ _ Hb). destruct Hm as (? & ? & ? & ? & ? & Hr & ? & Hx & ?).
  destruct Hblk as (? & ? & ?). assert (Hnd := b_addrs _ _ _ _ _ Hb).
  destruct (detect_run c (u32 b.2) F0 U s1) as (s2 & E & K & P & N); [done|lia..|].
  injection P as Ph Pn Px Pb Pz Pg. cbn in Ph, Pn, Px, Pb, Pz, Pg. rewrite (b_holes _ _ _ _ _ Hb) in Ph.
  unfold split_hole. cbv zeta. change (b_end (sblk_of b)) with (u32 b.2). change (b_start (sblk_of b)) with (u32 b.1).
  rewrite (bind_run _ _ _ _ _ E). change (h_end (normh c)) with (u32 (h_end c)).
  rewrite (bind_run _ _ _ _ _ (sackhole_insert_run L R c Hnd s2 b.2 (h_end c) Ph ltac:(by rewrite Pn) ltac:(by rewrite Pg))).
  rewrite Pz. fold (temp b.2 (snd_now cfg)). set (t0 := temp b.2 (snd_now cfg)). set (s3 := s2 <| zone := _ |> <| snd_numholes := _ |>
    <| globalholes := _ |> <| snd_holes := _ |> <| nexthole := _ |>).
  destruct (counter_run b.1 b.2 s3) as (s4 & E4 & K4 & P4 & N4); [span; lia|].
  injection P4 as Ph4 Pn4 Px4 Pb4 Pz4 Pg4. cbv beta iota. rewrite (bind_run _ _ _ _ _ E4).
  change (h_addr (normh t0)) with (zone s). change (h_rxmit (normh c)) with (u32 (h_rxmit c)). change (h_rxmit (normh t0)) with (u32 b.2).
  change (h_addr (normh c)) with (h_addr c). change (h_rxmit_start (normh c)) with (h_rxmit_start c).
  rewrite (split_rexmit s4) by (done || (rewrite Pb4; exact Pb)). cbv zeta. set (t1 := temp _ (snd_now cfg)).
  assert (Ec : normh c <| h_end := u32 b.1 |> <| h_rxmit := SEQ_MIN (h_rxmit (normh c)) (u32 b.1) |> = normh c1).
  { cbn. unfold rxmit_ok in Hr. rewrite seq_min by (span; near). done. }
  assert (Hn1 := split_nodup c t1 eq_refl eq_refl). assert (Hn2 := split_nodup c1 t1 eq_refl eq_refl).
  rewrite (cons_middle c1), app_assoc in Hn2.
  change (zone s) with (h_addr t1). set (s5 := s4 <| snd_holes := _ |> <| sack_bytes_rexmit := _ |>).
  assert (Ph5 : snd_holes s5 = normh <$> L ++ c :: t1 :: R) by done.
  rewrite (bind_run _ _ _ _ _ (set_hole_run L (t1 :: R) c Hn1
    (λ h, h <| h_end := u32 b.1 |> <| h_rxmit := SEQ_MIN (h_rxmit h) (u32 b.1) |>) c1 _ Ph5 Ec)).
  erewrite (set_hole_run (L ++ [c1]) R t1 Hn2 (λ t, t <| h_rxmit_start := h_rxmit_start c |>) t); [| |reflexivity].
  2:{ cbn. by rewrite <- app_assoc. }
  eexists. split; [done|]. split_and!.
  - transitivity (kept s4); [done|]. rewrite K4. transitivity (kept s2); [done|]. by rewrite K.
  - unfold holes_part. cbn. rewrite <- app_assoc. cbn [app]. rewrite Pn4, Px4, Pz4, Pg4. cbn. rewrite Pn, Px, Pg.
    do 3 f_equal. rewrite !rexmitted_app, !rexmitted_cons. done.
  - transitivity (newbytes_acked s4); [done|]. rewrite N4. f_equal. f_equal. transitivity (newbytes_acked s2); [done|]. by rewrite N.
Qed.

Lemma split_inside : inside c [c1; t].
Proof.
  assert (Hm := board_mid _ _ _ _ _ _ _ Hb). destruct Hm as (? & ? & ? & ? & ? & Hr & _). unfold rxmit_ok in Hr.
  destruct Hblk as (? & ? & ?).
  split_and!; rewrite ?Forall_cons, ?Forall_nil; cbn; rewrite ?Forall_cons, ?Forall_nil; unfold rxmit_ok, complete, untouched; cbn; try lia.
Qed.

Context (Hmax : tcp_sack_maxholes cfg <= 32767).

Lemma split_board s' : kept s' = kept s →
  holes_part s' = (normh <$> L ++ c1 :: t :: R, s16 (snd_numholes s + 1),
    match nexthole s with None => Some (zone s) | Some a => Some a end, rexmitted (L ++ c1 :: t :: R), zone s + 1, globalholes s + 1) →
  board U F M (L ++ c1 :: t :: R) s'.
Proof.
  intros K P. injection P as Ph Pn Px Pb Pz Pg. assert (Hbb := Hb). destruct Hbb. assert (Hin := split_inside).
  assert (Hlen : length (L ++ c1 :: t :: R) = S (length (L ++ c :: R))) by (rewrite !length_app; cbn [length]; lia).
  apply (board_replace U F M L c R [c1; t] s); cbn [app]; try done.
  - by apply split_nodup.
  - rewrite Pz. unfold addrs in *. rewrite fmap_app, !fmap_cons in *. rewrite Forall_app, !Forall_cons in *. cbn.
    destruct b_zone0 as (HL & Hc & HR). split_and!; [|lia..|]; (eapply Forall_impl; [done|]); cbn; lia.
  - rewrite Pn, Hlen, b_num0, s16_id; lia.
  - lia.
  - rewrite Px. destruct Hin as (_ & _ & _ & Hcc & _). destruct (nexthole s) as [a|].
    + by apply (hint_replace L c R [c1; t]); [..|intros ->|].
    + cbn [hint_ok] in *. rewrite Forall_app, Forall_cons in b_hint0. destruct b_hint0 as (HL & Hc & HR). specialize (Hcc Hc).
      rewrite Forall_cons in Hcc. destruct Hcc as (Hc1 & _). exists (L ++ [c1]), t, R. rewrite <- app_assoc. split_and!; [done..|].
      rewrite Forall_app, Forall_singleton. done.
Qed.

Lemma step_split : steps_to true [c1] [t].
Proof.
  assert (Hm := board_mid _ _ _ _ _ _ _ Hb). destruct Hm as (? & ? & ? & ? & ? & Hr & ? & Hx & ?). unfold rxmit_ok in Hr.
  destruct Hblk as (? & ? & ?). destruct split_run as (s2 & E & K & P & N).
  assert (P' := P). injection P' as Ph Pn Px Pb Pz Pg. assert (Hin := split_inside).
  assert (Hnd := split_nodup c1 t eq_refl eq_refl).
  assert (Ht : rexmitted (L ++ t :: R) = rexmitted (L ++ R) + (Z.max (h_rxmit c) b.2 - b.2)).
  { rewrite !rexmitted_app, rexmitted_cons. cbn. lia. }
  eexists. split.
  - apply step_overlap; [lia..|]. cbv zeta. rewrite (proj2 (Z.leb_gt b.1 _)), (proj2 (Z.leb_gt _ b.2)) by lia. cbn [andb].
    rewrite (bind_run _ _ _ _ _ E). change (h_addr c) with (h_addr c1).
    rewrite (tail_run L (t :: R) c1); [|done..| | | |]; [..|unfold near, c1; cbn; span; lia]; cycle 1.
    { unfold rxmit_ok, c1. cbn. lia. } { rewrite Ht. lia. } { rewrite Ht. unfold c1. cbn. lia. }
    rewrite (proj2 (Z.leb_gt b.1 (h_start c1))) by (cbn; lia). rewrite last_snoc. reflexivity.
  - split; try done; try (apply le_n); try (apply le_S, le_n).
    + cbn [app]. apply split_board; [done|]. unfold holes_part. cbn. by rewrite Ph, Pn, Px, Pz, Pg.
    + by destruct Hin.
    + intros x ? ?. covers. unfold c1, t, temp. cbn. lia.
    + constructor; [cbn; lia|constructor].
    + intros _ x. covers. unfold c1, t, temp. cbn. lia.
    + cbn in N |- *. rewrite N. f_equal. lia.
Qed.
End split.

Context (Hmax : tcp_sack_maxholes cfg <= 32767).

Lemma step_run : ∃ nb k l, steps_to nb k l.
Proof.
  destruct (Z.le_gt_cases (h_end c) b.1); [eexists _, _, _; by apply step_beyond|].
  destruct (Z.le_gt_cases b.2 (h_start c)); [eexists _, _, _; by apply step_before|].
  destruct (Z.le_gt_cases b.1 (h_start c)), (Z.le_gt_cases (h_end c) b.2).
  - eexists _, _, _. by apply step_delete.
  - eexists _, _, _. by apply step_start.
  - eexists _, _, _. by apply step_end.
  - destruct (Z.le_gt_cases (tcp_sack_maxholes cfg) (snd_numholes s)); [eexists _, _, _; apply step_full; auto|].
    destruct (Z.le_gt_cases (tcp_sack_globalmaxholes cfg) (globalholes s)); [eexists _, _, _; apply step_full; auto|].
    eexists _, _, _. by apply step_split.
Qed.
End step.

(** *** The loop *)

(** The blocks by their end, the highest one first. *)
Fixpoint sorted (blks : list (Z * Z)) : Prop :=
  match blks with
  | [] => True
  | b :: blks => Forall (λ x, x.2 <= b.2) blks ∧ sorted blks
  end.

(** The holes [L] become [L'] by the blocks; no room is needed for a block from
    the first octet on. *)
Record trimmed (U : Z) (blks : list (Z * Z)) (L L' : list (Z * Z)) (room : Prop) : Prop := {
  tr_sub : ∀ x, covered x L' → covered x L;
  tr_kept : ∀ x, covered x L → ¬ covered x blks → covered x L';
  tr_gone : ∀ b, b ∈ blks → room ∨ b.1 <= U → ∀ x, covered x L' → ¬ b.1 <= x < b.2 }.

Definition room (n : nat) (s : sndcb) : Prop :=
  snd_numholes s + Z.of_nat n <= tcp_sack_maxholes cfg ∧ globalholes s + Z.of_nat n <= tcp_sack_globalmaxholes cfg.

Lemma trimmed_nil U L (P : Prop) : trimmed U [] L L P.
Proof. split; [done..|]. intros b Hb. by apply elem_of_nil in Hb. Qed.
Lemma trimmed_none U blks (P : Prop) : trimmed U blks [] [] P.
Proof. split; [done..|]. intros b _ _ x H. by apply covered_nil in H. Qed.

(** One step of the loop, and then the rest of it. *)
Lemma trimmed_step U (nb : bool) b blks L (c : Z * Z) k l L1 (P P1 : Prop) :
  (∀ x, covered x L → x < c.1) → (∀ x, covered x (k ++ l) → c.1 <= x < c.2) →
  (∀ x, c.1 <= x < c.2 → ¬ b.1 <= x < b.2 → covered x (k ++ l)) →
  (if nb then c.1 < b.1 else k = []) → (∀ x, covered x l → b.2 <= x) → Forall (λ x : Z * Z, x.2 <= b.2) blks →
  (P → P1) → (P ∨ b.1 <= U → ∀ x, covered x (k ++ l) → ¬ b.1 <= x < b.2) →
  trimmed U (if nb then blks else b :: blks) (L ++ k) L1 P1 → trimmed U (b :: blks) (L ++ [c]) (L1 ++ l) P.
Proof.
  intros HL Hkl Hleft Hnb Hl Hs HP Hdis []. split.
  - intros x. specialize (Hkl x). specialize (tr_sub0 x). rewrite !covered_app, covered_cons, covered_nil in *. tauto.
  - intros x H1 H2. specialize (Hleft x). specialize (tr_kept0 x). rewrite !covered_app, !covered_cons, !covered_nil in *.
    assert (¬ covered x (if nb then blks else b :: blks)) by (destruct nb; rewrite ?covered_cons; tauto). tauto.
  - intros b' Hb' HPb x H1. apply covered_app in H1 as [H1|H1].
    + assert (HPb1 : P1 ∨ b'.1 <= U) by tauto. destruct nb; [|by apply tr_gone0].
      apply elem_of_cons in Hb' as [->|Hb']; [|by apply tr_gone0]. specialize (tr_sub0 x H1). apply covered_app in tr_sub0 as [H3|H3].
      * specialize (HL x H3). lia.
      * apply Hdis; [done|]. rewrite covered_app. by left.
    + specialize (Hl x H1). apply elem_of_cons in Hb' as [->|Hb']; [lia|]. rewrite Forall_forall in Hs. specialize (Hs _ Hb'). simpl in Hs. lia.
Qed.

Lemma board_before U F M L c R s x : board U F M (L ++ c :: R) s → covered x (holes_iv L) → x < h_start c.
Proof.
  intros [] Hx. rewrite holes_iv_app in b_chain0. apply chain_app in b_chain0 as (m & Hm1 & Hm2).
  apply (chain_covered _ _ _ _ Hm1) in Hx. cbn in Hm2. lia.
Qed.
Lemma covered_after l lo x : Forall (λ h, lo <= h_start h) l → covered x (holes_iv l) → lo <= x.
Proof.
  intros Hl (b & Hb & Hx). apply list_elem_of_fmap in Hb as (h & -> & Hh). rewrite Forall_forall in Hl. specialize (Hl _ Hh). cbn in *. lia.
Qed.

Section loop.
Context (U F M F0 : Z) (HF0 : U <= F0 <= U + SPAN) (Hmax : tcp_sack_maxholes cfg <= 32767).

(** The loop runs on the holes [L] with the blocks that are left; the holes
    [R] are done with. *)
Lemma loop_run fuel : ∀ blks L R s,
  board U F M (L ++ R) s → 0 <= newbytes_acked s < 2 ^ 32 → sorted blks → Forall (blk_ok U M) blks →
  (∀ b h, b ∈ blks → h ∈ R → b.2 <= h_start h) → (length blks + length L <= fuel)%nat →
  ∃ L' s', doack_loop cfg fuel (sblk_of <$> blks) (h_addr <$> last L) (u32 F0) s = Ret (tt, s') ∧
    board U F M (L' ++ R) s' ∧ kept s' = kept s ∧
    trimmed U blks (holes_iv L) (holes_iv L') (room (length blks) s) ∧
    newbytes_acked s' = u32 (newbytes_acked s + (measure (holes_iv L) - measure (holes_iv L'))).
Proof.
  induction fuel as [|fuel IH]; intros blks L R s Hb Hnew Hs Hok HR Hf.
  { destruct blks; [|simpl in Hf; lia]. exists L, s. split_and!; try done; [apply trimmed_nil|]. rewrite Z.sub_diag, u32_id; lia. }
  destruct blks as [|b blks].
  { exists L, s. split_and!; try done; [apply trimmed_nil|]. rewrite Z.sub_diag, u32_id; lia. }
  destruct L as [|c L _] using rev_ind.
  { exists [], s. split_and!; try done; [apply trimmed_none|]. rewrite Z.sub_diag, u32_id; lia. }
  rewrite last_snoc. rewrite <- app_assoc in Hb. cbn [app] in Hb. assert (Hokb := Hok). apply Forall_cons in Hokb as (Hbo & Hoks).
  destruct (step_run U F M F0 L c R b s Hb Hbo HF0 Hnew Hmax) as (nb & k & l & s1 & E & []).
  cbn [doack_loop fmap option_fmap option_map list_fmap]. rewrite (bind_run _ _ _ _ _ E).
  destruct Hs as (Hs1 & Hs). assert (Hm := board_mid _ _ _ _ _ _ _ Hb). destruct Hm as (HUc & Hce & _).
  set (blks1 := if nb then blks else b :: blks).
  replace (if nb then sblk_of <$> blks else sblk_of b :: (sblk_of <$> blks)) with (sblk_of <$> blks1) by (by destruct nb).
  assert (Hb1 : ∀ b', b' ∈ blks1 → b' ∈ b :: blks) by (destruct nb; set_solver).
  destruct (IH blks1 (L ++ k) (l ++ R) s1) as (L1 & s' & E1 & B1 & K1 & T1 & N1).
  { by rewrite <- app_assoc. } { rewrite st_bytes0. apply u32_range. } { by destruct nb. } { by destruct nb. }
  { intros b' h Hb' Hh. apply elem_of_app in Hh as [Hh|Hh]; [|by apply HR; [apply Hb1|]]. rewrite Forall_forall in st_after0. rewrite Forall_forall in Hs1.
    specialize (st_after0 _ Hh). apply Hb1, elem_of_cons in Hb' as [->|Hb']; [done|]. specialize (Hs1 _ Hb'). simpl in *. lia. }
  { unfold blks1. rewrite length_app in *. cbn [length] in *. destruct nb; [destruct st_next0|rewrite st_next0]; cbn [length]; lia. }
  exists (L1 ++ l), s'. split; [done|]. split; [by rewrite <- app_assoc|]. split; [congruence|]. split.
  - rewrite !holes_iv_app. apply (trimmed_step U nb b blks _ (hole_iv c) (holes_iv k) (holes_iv l) _ _ (room (length blks1) s1)).
    + intros x. by eapply board_before.
    + intros x. rewrite <- holes_iv_app. by apply chain_covered.
    + intros x. rewrite <- holes_iv_app. apply st_left0.
    + destruct nb; [tauto|by rewrite st_next0].
    + intros x. by apply covered_after.
    + done.
    + unfold room. intros (Hr1 & Hr2). cbn [length] in Hr1, Hr2.
      rewrite st_global0, (b_num _ _ _ _ _ st_board0). rewrite (b_num _ _ _ _ _ Hb) in Hr1. unfold blks1.
      rewrite !length_app in *. cbn [length] in Hr1. destruct nb; cbn [length]; lia.
    + unfold room. cbn [length]. intros Hr x. rewrite <- holes_iv_app. apply st_room0. destruct Hr as [(? & ?)|?]; [left|right]; lia.
    + by rewrite <- holes_iv_app.
  - rewrite N1, st_bytes0, u32_add. f_equal. rewrite !holes_iv_app, !measure_app. cbn. lia.
Qed.
End loop.

(** *** Sorting the blocks *)

Section sort.
Context (U M : Z) (Hwin : M <= U + SPAN).

Lemma sort_pass_run l : ∀ x, Forall (blk_ok U M) (x :: l) →
  ∃ m l', sort_pass (sblk_of x) (sblk_of <$> l) = (sblk_of m, sblk_of <$> l') ∧ m :: l' ≡ₚ x :: l ∧ Forall (λ y, m.2 <= y.2) l'.
Proof.
  induction l as [|y l IH]; intros x Hok.
  { exists x, []. done. }
  rewrite !Forall_cons in Hok. destruct Hok as (Hx & Hy & Hl). cbn [fmap list_fmap sort_pass sblk_of b_end].
  unfold blk_ok in Hx, Hy. rewrite seq_gt by (span; near). destruct (Z.ltb_spec y.2 x.2) as [Hlt|Hle].
  - destruct (IH y) as (m & l' & E & Hp & Hm); [by constructor|]. unfold sblk_of at 1 in E. exists m, (x :: l').
    change (Sblk (u32 y.1) (u32 y.2)) with (sblk_of y) in *. rewrite E. split_and!; [done| |].
    + by rewrite (Permutation_swap x m), Hp.
    + constructor; [|done]. assert (Hym : y ∈ m :: l') by (rewrite Hp; left). apply elem_of_cons in Hym as [->|Hym]; [lia|].
      rewrite Forall_forall in Hm. specialize (Hm _ Hym). simpl in Hm. lia.
  - destruct (IH x) as (m & l' & E & Hp & Hm); [by constructor|]. exists m, (y :: l').
    change (Sblk (u32 x.1) (u32 x.2)) with (sblk_of x) in *. rewrite E. split_and!; [done| |].
    + rewrite (Permutation_swap y m). rewrite Hp. apply Permutation_swap.
    + constructor; [|done]. assert (Hxm : x ∈ m :: l') by (rewrite Hp; left). apply elem_of_cons in Hxm as [->|Hxm]; [lia|].
      rewrite Forall_forall in Hm. specialize (Hm _ Hxm). simpl in Hm. lia.
Qed.

Lemma sorted_snoc l b : sorted (l ++ [b]) ↔ sorted l ∧ Forall (λ x, b.2 <= x.2) l.
Proof.
  induction l as [|a l IH]; cbn [app sorted]; [rewrite !Forall_nil; tauto|]. rewrite IH, Forall_app, !Forall_cons, Forall_nil. tauto.
Qed.

Lemma sort_blocks_run n : ∀ l, (length l <= n)%nat → Forall (blk_ok U M) l →
  ∃ l', sort_blocks n (sblk_of <$> l) = sblk_of <$> l' ∧ l' ≡ₚ l ∧ sorted (reverse l').
Proof.
  induction n as [|n IH]; intros [|x l] Hn Hok; [by exists []|simpl in Hn; lia|by exists []|].
  destruct (sort_pass_run l x Hok) as (m & l1 & E & Hp & Hm). cbn [fmap list_fmap sort_blocks].
  change (list_fmap _ _ _ l) with (sblk_of <$> l). rewrite E.
  destruct (IH l1) as (l' & E' & Hp' & Hs).
  - apply Permutation_length in Hp. cbn [length] in *. lia.
  - rewrite <- Hp in Hok. by apply Forall_cons in Hok as [_ ?].
  - exists (m :: l'). rewrite E'. split_and!; [done|by rewrite Hp'|]. rewrite reverse_cons, sorted_snoc. split; [done|].
    by rewrite reverse_Permutation, Hp'.
Qed.
End sort.

(** *** Beyond the highest block so far *)

(** What the scoreboard takes for not received. *)
Definition pending (M : Z) (A : list sackhole) (F x : Z) : Prop := covered x (holes_iv A) ∨ F <= x < M.
Definition outstanding (M : Z) (A : list sackhole) (F : Z) : Z := measure (holes_iv A) + (M - F).

(** What is kept when [snd_fack] advances. *)
Definition kept' (s : sndcb) :=
  (snd_una s, snd_nxt s, snd_max s, snd_wnd s, snd_recover s, sack_newdata s, t_rxt_segments s,
   (in_recovery s, max_sndwnd s, snd_cwnd s, snd_ssthresh s, t_maxseg s, sack_bytes_acked s)).
Lemma kept_kept' s s' : kept s' = kept s → kept' s' = kept' s.
Proof. intros H. injection H as ? ? ? ? ? ? ? ? ? ? ? ? ? ?. unfold kept'. congruence. Qed.

Lemma append_run s lo hi A : snd_holes s = normh <$> A →
  snd_numholes s < tcp_sack_maxholes cfg → globalholes s < tcp_sack_globalmaxholes cfg →
  let t := Sackhole (zone s) lo hi lo (snd_now cfg) in
  tcp_sackhole_insert cfg (u32 lo) (u32 hi) None s =
  Ret (Some (normh t), s <| zone := zone s + 1 |> <| snd_numholes := s16 (snd_numholes s + 1) |> <| globalholes := globalholes s + 1 |>
    <| snd_holes := normh <$> A ++ [t] |> <| nexthole := match nexthole s with None => Some (zone s) | Some a => Some a end |>).
Proof.
  intros E H1 H2 t. unfold tcp_sackhole_insert.
  erewrite bind_run; [|unfold tcp_sackhole_alloc; rewrite get_run, (proj2 (Z.leb_gt _ _) H1), (proj2 (Z.leb_gt _ _) H2); cbn [orb];
    rewrite modify_run; reflexivity].
  cbv beta iota zeta. rewrite modify_run. change (snd_holes (_ <| globalholes := _ |>)) with (snd_holes s). rewrite E, !fmap_app.
  by rewrite modify_run.
Qed.

Lemma board_append U F M A s s' hi F1 :
  let t := Sackhole (zone s) F hi F (snd_now cfg) in
  board U F M A s → F < hi → hi <= F1 → F1 <= M → snd_numholes s < tcp_sack_maxholes cfg → tcp_sack_maxholes cfg <= 32767 →
  kept' s' = kept' s → snd_fack s' = u32 F1 →
  holes_part s' = (normh <$> A ++ [t], s16 (snd_numholes s + 1),
    match nexthole s with None => Some (zone s) | Some a => Some a end, sack_bytes_rexmit s, zone s + 1, globalholes s + 1) →
  board U F1 M (A ++ [t]) s'.
Proof.
  intros t [] H1 H2 H3 H4 H5 Hk Hf P. injection Hk as ? ? ? ? ? ? ? _ _ _ _ _ _. injection P as Ph Pn Px Pb Pz Pg.
  split; try done; try congruence; try lia.
  - rewrite holes_iv_app. apply chain_app. exists F. split; [done|]. cbn. lia.
  - rewrite Forall_app, Forall_singleton. split; [done|]. unfold rxmit_ok. cbn. lia.
  - unfold addrs in *. rewrite fmap_app. cbn. rewrite <- Permutation_cons_append. apply NoDup_cons. split; [|done].
    intros Hin. rewrite Forall_forall in b_zone0. specialize (b_zone0 _ Hin). lia.
  - unfold addrs in *. rewrite Pz, fmap_app, Forall_app. cbn. rewrite Forall_singleton. split; [|lia].
    eapply Forall_impl; [done|]. cbn. lia.
  - rewrite Pn, b_num0, s16_id, length_app; cbn [length]; lia.
  - rewrite length_app. cbn [length]. lia.
  - rewrite Pb, b_bytes0, rexmitted_app. cbn. lia.
  - rewrite ordered_app. split_and!; [done|by repeat constructor|]. right. by repeat constructor.
  - rewrite Px. destruct (nexthole s) as [a|].
    + destruct b_hint0 as (P & h & Q & -> & Ha & HP). exists P, h, (Q ++ [t]). by rewrite <- app_assoc.
    + by exists A, t, [].
Qed.

(** What the loop begins with: the holes [A1] below [F1], and the blocks [blks]. *)
Record begun (U F M : Z) (A : list sackhole) (B : list (Z * Z)) (s : sndcb)
    (A1 : list sackhole) (F1 : Z) (blks : list (Z * Z)) (s1 : sndcb) : Prop := {
  bg_board : board U F1 M A1 s1;
  bg_kept : kept' s1 = kept' s;
  bg_sorted : sorted blks;
  bg_blks : ∀ b, b ∈ blks → b ∈ B;
  bg_sub : ∀ x, pending M A1 F1 x → pending M A F x;
  bg_left : ∀ x, pending M A F x → ¬ covered x B → pending M A1 F1 x;
  bg_beyond : ∀ b, b ∈ B → room 1 s ∨ b.1 <= U → ∀ x, F1 <= x → ¬ b.1 <= x < b.2;
  bg_rest : ∀ b, b ∈ B → room 1 s ∨ b.1 <= U → b ∈ blks ∨ ∀ x, covered x (holes_iv A1) → ¬ b.1 <= x < b.2;
  bg_room : room (length B) s → room (length blks) s1;
  bg_bytes : newbytes_acked s1 = u32 (newbytes_acked s + (outstanding M A F - outstanding M A1 F1)) }.

Section highest.
Context (U F M : Z) (A : list sackhole) (s : sndcb) (Hmax : tcp_sack_maxholes cfg <= 32767).
Context (Hb : board U F M A s) (Hf : snd_fack s = u32 F) (Hnew : 0 <= newbytes_acked s < 2 ^ 32).

Lemma sorted_end b B b' : sorted (b :: B) → b' ∈ b :: B → b'.2 <= b.2.
Proof.
  intros (Hs & _) Hin. apply elem_of_cons in Hin as [->|Hin]; [done|]. rewrite Forall_forall in Hs. by specialize (Hs _ Hin).
Qed.

Lemma board_low x : covered x (holes_iv A) → U <= x < F.
Proof. destruct Hb. by apply chain_covered. Qed.

Lemma board_advance F1 s' : F <= F1 <= M → holes_part s' = holes_part s → kept' s' = kept' s → snd_fack s' = u32 F1 → board U F1 M A s'.
Proof.
  intros H P K E. injection P as Ph Pn Px Pb Pz Pg. injection K as ? ? ? ? ? ? ? _ _ _ _ _ _. destruct Hb.
  split; try done; try congruence; try lia.
  - by eapply chain_weaken; [| |apply H].
  - by rewrite Pz.
Qed.

Lemma advance_run b : blk_ok U M b →
  ∃ s1, advance_fack (sblk_of b) s = Ret (tt, s1) ∧ kept' s1 = kept' s ∧ holes_part s1 = holes_part s ∧
    snd_fack s1 = u32 (Z.max F b.2) ∧ newbytes_acked s1 = u32 (newbytes_acked s + (Z.max F b.2 - F)).
Proof.
  intros (? & ? & ?). assert (Hw := b_window _ _ _ _ _ Hb). assert (Hc := chain_le _ _ _ (b_chain _ _ _ _ _ Hb)).
  unfold advance_fack. rewrite get_run. rewrite Hf. cbn [sblk_of b_end]. rewrite seq_lt by (span; near).
  destruct (Z.ltb_spec F b.2) as [Hlt|Hle].
  - rewrite Z.max_r by lia. destruct (counter_run F b.2 s) as (t & E & K & P & N); [span; lia|].
    rewrite (bind_run _ _ _ _ _ E). eexists. split; [done|]. split_and!; [|done..].
    transitivity (kept' t); [done|]. by apply kept_kept'.
  - rewrite Z.max_l by lia. exists s. split_and!; try done. rewrite Z.sub_diag, u32_id; lia.
Qed.

(** The block [b], the first of [b :: B], begins at [F] or before. *)
Lemma begun_advance b B B0 : sorted (b :: B) → Forall (blk_ok U M) (b :: B) → b.1 <= F → (∀ b', b' ∈ b :: B → b' ∈ B0) →
  (∀ b', b' ∈ B0 → room 1 s ∨ b'.1 <= U → b' ∈ b :: B) → (length (b :: B) <= length B0)%nat →
  ∃ s1, advance_fack (sblk_of b) s = Ret (tt, s1) ∧ begun U F M A B0 s A (Z.max F b.2) (b :: B) s1.
Proof.
  intros Hs Hok Hbf Hsub Hroom Hlen. apply Forall_cons in Hok as (Hbo & Hok).
  destruct (advance_run b Hbo) as (s1 & E & K & P & Ef & N). exists s1. split; [done|].
  assert (Hw := b_window _ _ _ _ _ Hb). destruct Hbo as (? & ? & ?). split; try done.
  - apply board_advance; [lia|done..].
  - intros x [Hx|Hx]; [by left|right; lia].
  - intros x [Hx|Hx] Hn; [by left|right]. split; [|lia]. apply Z.nlt_ge. intros Hlt. apply Hn. exists b. split; [|lia]. apply Hsub. left.
  - intros b' Hb' Hr x Hx. assert (He := sorted_end _ _ _ Hs (Hroom _ Hb' Hr)). lia.
  - intros b' Hb' Hr. left. by apply Hroom.
  - injection P as _ Pn _ _ _ Pg. unfold room. rewrite Pn, Pg. lia.
  - rewrite N. f_equal. unfold outstanding. lia.
Qed.

Lemma skip_blocks_run B : Forall (blk_ok U M) B → sorted B →
  ∃ B', skip_blocks (u32 F) (sblk_of <$> B) = sblk_of <$> B' ∧ sorted B' ∧ B' ⊆ B ∧ (length B' <= length B)%nat ∧
    match B' with b :: _ => b.1 <= F | [] => True end ∧ ∀ b, b ∈ B → b.1 <= F → b ∈ B'.
Proof.
  assert (Hw := b_window _ _ _ _ _ Hb). assert (Hc := chain_le _ _ _ (b_chain _ _ _ _ _ Hb)).
  induction B as [|b B IH]; intros Hok Hs; [by exists []|]. apply Forall_cons in Hok as ((? & ? & ?) & Hok).
  cbn [fmap list_fmap skip_blocks sblk_of b_start]. rewrite seq_lt by (span; near). destruct (Z.ltb_spec F b.1).
  - destruct Hs as (_ & Hs). destruct (IH Hok Hs) as (B' & E & Hs' & Hsub & Hlen & Hh & Hl). exists B'. split_and!; [done..|set_solver|simpl; lia|done|].
    intros b' [->|Hb']%elem_of_cons; [lia|by apply Hl].
  - exists (b :: B). split_and!; done.
Qed.

Lemma begun_append b B : sorted (b :: B) → blk_ok U M b → F < b.1 → room 1 s →
  ∃ A1 s1, (temp ← tcp_sackhole_insert cfg (u32 F) (u32 b.1) None;
      match temp with
      | Some _ => modify (λ s, s <| snd_fack := u32 b.2 |>);; tcp_sack_update_byte_counter (u32 b.1) (u32 b.2);; mret (sblk_of <$> B)
      | None =>
          let blks := skip_blocks (u32 F) (sblk_of <$> b :: B) in
          (match blks with sb :: _ => advance_fack sb | [] => skip end);; mret blks
      end) s = Ret (sblk_of <$> B, s1) ∧ begun U F M A (b :: B) s A1 b.2 B s1.
Proof.
  intros Hs (? & ? & ?) Hlt (Hr1 & Hr2). assert (Hw := b_window _ _ _ _ _ Hb).
  set (t := Sackhole (zone s) F b.1 F (snd_now cfg)).
  rewrite (bind_run _ _ _ _ _ (append_run s F b.1 A (b_holes _ _ _ _ _ Hb) ltac:(lia) ltac:(lia))). cbv beta iota. rewrite modify_run.
  set (s2 := _ <| snd_fack := _ |>). destruct (counter_run b.1 b.2 s2) as (s1 & E & K & P & N); [span; lia|].
  rewrite (bind_run _ _ _ _ _ E). exists (A ++ [t]), s1. split; [done|]. destruct Hs as (Hs1 & Hs). split; try done.
  - apply (board_append U F M A s s1 b.1); try done; try lia.
    + by apply kept_kept' in K.
    + by injection K.
  - by apply kept_kept' in K.
  - set_solver.
  - intros x [Hx|Hx]; [|right; lia]. rewrite holes_iv_app, covered_app in Hx. destruct Hx as [Hx|Hx]; [by left|].
    apply covered_cons in Hx as [Hx|Hx]; [|by apply covered_nil in Hx]. right. cbn in Hx. lia.
  - intros x [Hx|Hx] Hn; [left; rewrite holes_iv_app, covered_app; by left|]. destruct (Z.lt_ge_cases x b.2); [left|right; lia].
    rewrite holes_iv_app, covered_app. right. apply covered_cons. left. cbn. rewrite covered_cons in Hn. lia.
  - intros b' Hb' _ x Hx. assert (He := sorted_end b B b' (conj Hs1 Hs) Hb'). lia.
  - intros b' Hb' _. apply elem_of_cons in Hb' as [->|Hb']; [right|by left]. intros x Hx. rewrite holes_iv_app, covered_app in Hx.
    destruct Hx as [Hx|Hx]; [apply board_low in Hx; lia|]. apply covered_cons in Hx as [Hx|Hx]; [|by apply covered_nil in Hx]. cbn in Hx. lia.
  - injection P as _ Pn _ _ _ Pg. unfold room. rewrite Pn, Pg. cbn. rewrite (b_num _ _ _ _ _ Hb) in *. rewrite s16_id; lia.
  - rewrite N. f_equal. unfold outstanding. rewrite holes_iv_app, measure_app. cbn. lia.
Qed.

Lemma highest_run b B : sorted (b :: B) → Forall (blk_ok U M) (b :: B) →
  ∃ A1 F1 blks s1, highest_block cfg (sblk_of <$> b :: B) s = Ret (sblk_of <$> blks, s1) ∧
    begun U F M A (b :: B) s A1 F1 blks s1.
Proof.
  intros Hs Hok. assert (Hw := b_window _ _ _ _ _ Hb). assert (Hc := chain_le _ _ _ (b_chain _ _ _ _ _ Hb)).
  assert (Hok' := Hok). apply Forall_cons in Hok' as ((? & ? & ?) & Hoks). unfold highest_block. rewrite get_run.
  cbn [fmap list_fmap sblk_of b_start]. change (list_fmap _ _ _ B) with (sblk_of <$> B). rewrite Hf, seq_lt by (span; near).
  destruct (Z.ltb_spec F b.1) as [Hlt|Hle].
  2:{ destruct (begun_advance b B (b :: B)) as (s1 & E & Hbg); [done..|]. exists A, (Z.max F b.2), (b :: B), s1.
      change (Sblk (u32 b.1) (u32 b.2)) with (sblk_of b). by rewrite (bind_run _ _ _ _ _ E). }
  assert (Hroom : room 1 s ∨ tcp_sack_maxholes cfg <= snd_numholes s ∨ tcp_sack_globalmaxholes cfg <= globalholes s).
  { unfold room. lia. }
  destruct Hroom as [Hroom|Hroom].
  - destruct (begun_append b B) as (A1 & s1 & E & Hbg); [done..|]. exists A1, b.2, B, s1. split; [exact E|done].
  - rewrite (bind_run _ _ _ _ _ (insert_full s _ _ _ Hroom)).
    destruct (skip_blocks_run (b :: B) Hok Hs) as (B' & E & Hs' & Hsub & Hlen & Hh & Hlow). cbv zeta.
    change (sblk_of b :: (sblk_of <$> B)) with (sblk_of <$> b :: B). rewrite E.
    destruct B' as [|b' B'].
    { assert (Hno : ∀ b', b' ∈ b :: B → room 1 s ∨ b'.1 <= U → False).
      { intros b' Hb' Hr. destruct (elem_of_nil b') as [Hnil _]. apply Hnil, Hlow; [done|]. unfold room in Hr. lia. }
      exists A, F, [], s. split; [done|]. split; try done; try (intros b' Hb' Hr; destruct (Hno _ Hb' Hr)); try set_solver.
      - unfold room in *. cbn [length]. lia.
      - rewrite Z.sub_diag, u32_id; lia. }
    destruct (begun_advance b' B' (b :: B)) as (s1 & E1 & Hbg); try done.
    { rewrite Forall_forall in Hok. apply Forall_forall. intros x Hx. by apply Hok, Hsub. }
    { intros x Hx Hr. apply Hlow; [done|]. unfold room in Hr. lia. }
    exists A, (Z.max F b'.2), (b' :: B'), s1. cbn [fmap list_fmap]. rewrite (bind_run _ _ _ _ _ E1). done.
Qed.
End highest.

(** *** The whole acknowledgement *)

(** The unbounded number next to [U] of the 32 bits [a]. *)
Definition unwrap (U a : Z) : Z := U + s32 (a - u32 U).
Definition unwrap_blk (U : Z) (sb : sblk) : Z * Z := (unwrap U (b_start sb), unwrap U (b_end sb)).
(** A block that is accepted: new data after [snd_una] and the acknowledgement. *)
Definition valid_blk (U K M : Z) (b : Z * Z) : Prop := U < b.1 ∧ K < b.1 ∧ b.1 < b.2 ∧ b.2 <= M.
#[local] Instance valid_blk_dec U K M b : Decision (valid_blk U K M b).
Proof. unfold valid_blk. apply _. Defined.

Definition u32_blk (sb : sblk) : Prop := 0 <= b_start sb < 2 ^ 32 ∧ 0 <= b_end sb < 2 ^ 32.

Lemma unwrap_u32 U a : 0 <= a < 2 ^ 32 → u32 (unwrap U a) = a.
Proof. unfold unwrap, s32, u32. change (2 ^ 31) with 2147483648. change (2 ^ 32) with 4294967296. zlia. Qed.
Lemma unwrap_blk_u32 U sb : u32_blk sb → sblk_of (unwrap_blk U sb) = sb.
Proof. intros (? & ?). unfold sblk_of, unwrap_blk. cbn. rewrite !unwrap_u32 by done. by destruct sb. Qed.
Lemma unwrap_range U a : U - 2 ^ 31 <= unwrap U a < U + 2 ^ 31.
Proof. unfold unwrap, s32. change (2 ^ 31) with 2147483648. change (2 ^ 32) with 4294967296. zlia. Qed.

Lemma validate_run U K M s sb : snd_una s = u32 U → snd_max s = u32 M → U - SPAN <= K <= M → U <= M <= U + SPAN → u32_blk sb →
  TCP_VALIDATE_SACK_SEQ_NUMBERS s sb (u32 K) = true ↔ valid_blk U K M (unwrap_blk U sb).
Proof.
  intros Eu Em HK HM (Hs1 & Hs2). unfold TCP_VALIDATE_SACK_SEQ_NUMBERS, valid_blk, unwrap_blk. cbn [fst snd]. rewrite Eu, Em.
  assert (Hg : ∀ a, SEQ_GT a (u32 U) = (U <? unwrap U a)).
  { intros a. unfold SEQ_GT, unwrap. apply eq_true_iff_eq. lia. }
  assert (Hx := unwrap_range U (b_start sb)). assert (Hy := unwrap_range U (b_end sb)). rewrite !Hg.
  rewrite <- (unwrap_u32 U (b_start sb) Hs1) at 1 3 4. rewrite <- (unwrap_u32 U (b_end sb) Hs2) at 1 3.
  set (x := unwrap U (b_start sb)) in *. set (y := unwrap U (b_end sb)) in *. clearbody x y. clear Hg.
  destruct (Z.ltb_spec U x); [|rewrite andb_false_r; cbn [andb]; split; [done|lia]].
  destruct (Z.ltb_spec U y); [|rewrite !andb_false_r; cbn [andb]; split; [done|lia]].
  rewrite (seq_lt x M), (seq_leq y M), (seq_gt y x) by (span; near).
  destruct (Z.ltb_spec x M); [|rewrite !andb_false_r; cbn [andb]; split; [done|lia]].
  rewrite seq_gt by (span; near). rewrite !andb_true_iff. lia.
Qed.

Lemma rd32_u32 buf off : bytes_ok buf → (off + 4 <= length buf)%nat → ∃ v, rd32 buf off = Some v ∧ 0 <= v < 2 ^ 32.
Proof.
  intros Hb Hl. unfold rd32, read_at. rewrite bool_decide_true by done. eexists. split; [done|].
  assert (H : bytes_ok (take 4 (drop off buf))) by (by apply Forall_take, Forall_drop).
  assert (Hn : length (take 4 (drop off buf)) = 4%nat) by (rewrite length_take, length_drop; lia).
  destruct (take 4 (drop off buf)) as [|a [|b [|c [|d [|]]]]]; try done. rewrite !Forall_cons in H. unfold byte_ok in H. cbn.
  change (2 ^ 32) with 4294967296. lia.
Qed.

Lemma read_sacks_run n : ∀ buf, bytes_ok buf → (8 * n <= length buf)%nat →
  ∃ sacks, read_sacks n buf = Ret sacks ∧ length sacks = n ∧ Forall u32_blk sacks.
Proof.
  induction n as [|n IH]; intros buf Hb Hl; [by exists []|].
  destruct (rd32_u32 buf 0 Hb) as (v & E & Hv); [lia|]. destruct (rd32_u32 buf 4 Hb) as (w & E' & Hw); [lia|].
  destruct (IH (drop 8 buf)) as (sacks & Es & Hn & Hs); [by apply Forall_drop|rewrite length_drop; lia|].
  exists (Sblk v w :: sacks). cbn [read_sacks]. rewrite E, E'. cbn. rewrite Es. cbn. split_and!; [done|by rewrite Hn|]. by constructor.
Qed.

(** The blocks that an acknowledgement reports: what it acknowledges itself, if
    there are holes, and the blocks of the option that are valid. *)
Definition reported (U K M : Z) (A : list sackhole) (sacks : list sblk) : list (Z * Z) :=
  (if (U <? K) && negb (bool_decide (A = [])) then [(U, K)] else []) ++ filter (valid_blk U K M) (unwrap_blk U <$> sacks).
(** Where the holes end: nothing is known when there are none. *)
Definition fack_of (U K F : Z) (A : list sackhole) : Z := if bool_decide (A = []) then Z.max U K else F.

(** The scoreboard [A], [F] becomes [A'], [F'] by the blocks [B]. *)
Record acknowledged (U M : Z) (A : list sackhole) (F : Z) (B : list (Z * Z)) (s : sndcb)
    (A' : list sackhole) (F' : Z) (s' : sndcb) : Prop := {
  ak_board : board U F' M A' s';
  ak_kept : kept' s' = kept' s;
  ak_sub : ∀ x, pending M A' F' x → pending M A F x;
  ak_left : ∀ x, pending M A F x → ¬ covered x B → pending M A' F' x;
  ak_gone : ∀ b, b ∈ B → room (length B) s ∨ b.1 <= U → ∀ x, pending M A' F' x → ¬ b.1 <= x < b.2;
  ak_bytes : newbytes_acked s' = u32 (newbytes_acked s + (outstanding M A F - outstanding M A' F')) }.

Lemma doack_blocks U K M A s sacks : snd_una s = u32 U → snd_max s = u32 M → snd_holes s = normh <$> A →
  U - SPAN <= K <= M → U <= M <= U + SPAN → Forall u32_blk sacks →
  (if SEQ_LT (snd_una s) (u32 K) && negb (bool_decide (snd_holes s = [])) then [Sblk (snd_una s) (u32 K)] else []) ++
  filter (λ sb, TCP_VALIDATE_SACK_SEQ_NUMBERS s sb (u32 K) = true) sacks = sblk_of <$> reported U K M A sacks.
Proof.
  intros Eu Em Eh HK HM Hs. unfold reported. rewrite fmap_app. f_equal.
  - rewrite Eu, seq_lt by (span; near). rewrite Eh. replace (bool_decide (normh <$> A = [])) with (bool_decide (A = [])).
    + by destruct (_ && _).
    + apply bool_decide_ext. split; [by intros ->|]. by intros ?%fmap_nil_inv.
  - induction Hs as [|sb sacks Hsb Hs IH]; [done|]. cbn [fmap list_fmap]. rewrite !filter_cons.
    assert (Hv := validate_run U K M s sb Eu Em HK HM Hsb). destruct (decide (TCP_VALIDATE_SACK_SEQ_NUMBERS _ _ _ = true)) as [Hd|Hd].
    + rewrite decide_True by tauto. cbn [fmap list_fmap]. by rewrite IH, unwrap_blk_u32.
    + rewrite decide_False by tauto. done.
Qed.

Lemma reported_ok U K M A sacks : K <= M → Forall (blk_ok U M) (reported U K M A sacks).
Proof.
  intros HK. unfold reported. apply Forall_app. split.
  - destruct (Z.ltb_spec U K); cbn [andb]; [|constructor]. destruct (negb _); repeat constructor; cbn; lia.
  - apply Forall_forall. intros b (Hb & _)%list_elem_of_filter. unfold valid_blk in Hb. unfold blk_ok. lia.
Qed.

Section doack.
Context (U K M : Z) (HK : U - SPAN <= K <= M) (Hmax : tcp_sack_maxholes cfg <= 32767).

Lemma begun_loop F A B s A1 F1 blks s1 :
  begun U F M A B s A1 F1 blks s1 → Forall (blk_ok U M) B → (1 <= length B)%nat → U <= F <= U + SPAN →
  ∃ A' s', doack_loop cfg (length (sblk_of <$> blks) + length (snd_holes s1)) (sblk_of <$> blks) (h_addr <$> last (snd_holes s1)) (u32 F) s1 =
      Ret (tt, s') ∧ acknowledged U M A F B s A' F1 s'.
Proof.
  intros [] Hok Hlen HF. assert (Hh := b_holes _ _ _ _ _ bg_board0). rewrite Hh, fmap_last, !length_fmap.
  replace (h_addr <$> (normh <$> last A1)) with (h_addr <$> last A1) by (by destruct (last A1)).
  destruct (loop_run U F1 M F HF Hmax (length blks + length A1) blks A1 [] s1) as (L' & s' & E & Hb & Hk & [] & N).
  { by rewrite app_nil_r. } { rewrite bg_bytes0. apply u32_range. } { done. }
  { rewrite Forall_forall in Hok. apply Forall_forall. intros x Hx. by apply Hok, bg_blks0. }
  { intros b h _ Hh'. by apply elem_of_nil in Hh'. } { lia. }
  rewrite app_nil_r in Hb. exists L', s'. split; [done|].
  assert (Hsub : ∀ x, covered x blks → covered x B) by (intros x (b & ? & ?); exists b; auto).
  assert (Hr1 : room (length B) s → room 1 s) by (unfold room; lia). split.
  - done.
  - rewrite <- bg_kept0. by apply kept_kept'.
  - intros x [Hx|Hx]; apply bg_sub0; [left; by apply tr_sub0|by right].
  - intros x Hx Hn. destruct (bg_left0 x Hx Hn) as [Hp|Hp]; [left|by right]. apply tr_kept0; [done|]. by intros ?%Hsub.
  - intros b Hbin Hr. assert (Hr' : room 1 s ∨ b.1 <= U) by tauto. intros x [Hx|Hx]; [|by apply bg_beyond0; [..|apply Hx]].
    destruct (bg_rest0 b Hbin Hr') as [Hbl|Hbl]; [|by apply Hbl, tr_sub0]. apply tr_gone0; tauto.
  - rewrite N, bg_bytes0, u32_add. f_equal. unfold outstanding. lia.
Qed.

(** Before the blocks are looked at [snd_fack] is set when there are no holes. *)
Lemma board_start F A s : board U F M A s → board U (fack_of U K F A) M A s.
Proof.
  intros Hb. unfold fack_of. case_bool_decide as E; [|done]. assert (Hc := chain_le _ _ _ (b_chain _ _ _ _ _ Hb)). destruct Hb.
  split; try done; [|lia]. rewrite E. cbn. lia.
Qed.

Lemma start_run F A s : board U F M A s →
  ∃ s0, (∀ X (k : unit → SND X),
      (when (bool_decide (snd_holes s = [])) (modify (λ s, s <| snd_fack := SEQ_MAX (snd_una s) (u32 K) |>)) ≫= k) s = k tt s0) ∧
    board U (fack_of U K F A) M A s0 ∧ snd_fack s0 = u32 (fack_of U K F A) ∧ kept' s0 = kept' s ∧
    snd_numholes s0 = snd_numholes s ∧ globalholes s0 = globalholes s ∧ newbytes_acked s0 = newbytes_acked s.
Proof.
  intros Hb. assert (Hs := board_start F A s Hb). assert (Hw := b_window _ _ _ _ _ Hb).
  assert (Hc := chain_le _ _ _ (b_chain _ _ _ _ _ Hb)). assert (Eh : snd_holes s = [] ↔ A = []).
  { rewrite (b_holes _ _ _ _ _ Hb). split; [by intros ?%fmap_nil_inv|by intros ->]. }
  rewrite (bool_decide_ext _ _ Eh). destruct (decide (A = [])) as [EA|EA].
  - rewrite bool_decide_true by done. eexists. split; [intros; apply modify_run|]. split_and!; try done.
    + apply (board_advance U (fack_of U K F A) M A s Hs); try done; [destruct Hs; lia|].
      cbn. unfold fack_of. rewrite bool_decide_true by done. rewrite (b_una _ _ _ _ _ Hb), seq_max by (span; near). done.
    + cbn. unfold fack_of. rewrite bool_decide_true by done. rewrite (b_una _ _ _ _ _ Hb), seq_max by (span; near). done.
  - rewrite bool_decide_false by done. exists s. split; [done|]. split_and!; try done. by apply (b_fack _ _ _ _ _ Hs).
Qed.

Lemma acknowledged_perm A F B B' s s0 A' F' s' : B' ≡ₚ B → kept' s0 = kept' s →
  snd_numholes s0 = snd_numholes s → globalholes s0 = globalholes s → newbytes_acked s0 = newbytes_acked s →
  acknowledged U M A F B' s0 A' F' s' → acknowledged U M A F B s A' F' s'.
Proof.
  intros Hp Hk Hn Hg Hy []. split; try done.
  - congruence.
  - intros x Hx Hc. apply ak_left0; [done|]. by rewrite (covered_perm x _ _ Hp).
  - intros b Hb Hr x Hx. apply ak_gone0; [by rewrite Hp| |done]. unfold room in *. by rewrite Hn, Hg, Hp.
  - by rewrite ak_bytes0, Hy.
Qed.

Lemma doack_sorted F A B blks s : board U F M A s → 0 <= newbytes_acked s < 2 ^ 32 →
  sorted blks → blks ≡ₚ B → Forall (blk_ok U M) B → B ≠ [] →
  ∃ A' F' s',
    (when (bool_decide (snd_holes s = [])) (modify (λ s, s <| snd_fack := SEQ_MAX (snd_una s) (u32 K) |>));;
     s0 ← get;
     blks ← highest_block cfg (sblk_of <$> blks);
     s1 ← get;
     doack_loop cfg (length blks + length (snd_holes s1)) blks (h_addr <$> last (snd_holes s1)) (snd_fack s0)) s = Ret (tt, s') ∧
    acknowledged U M A (fack_of U K F A) B s A' F' s'.
Proof.
  intros Hb Hnew Hs Hp Hok Hne. destruct (start_run F A s Hb) as (s0 & E0 & Hb0 & Hf0 & K0 & Hn0 & Hg0 & Hy0).
  destruct blks as [|b blks]; [by apply Permutation_nil_l in Hp|]. assert (Hok' : Forall (blk_ok U M) (b :: blks)) by (by rewrite Hp).
  destruct (highest_run U (fack_of U K F A) M A s0 Hmax Hb0 Hf0 ltac:(by rewrite Hy0) b blks Hs Hok') as (A1 & F1 & blks1 & s1 & E1 & Hbg).
  destruct (begun_loop _ _ _ _ _ _ _ _ Hbg Hok') as (A' & s' & E2 & Hak).
  { cbn. lia. } { destruct Hb0. apply chain_le in b_chain0. lia. }
  exists A', F1, s'. split.
  - rewrite E0, get_run, (bind_run _ _ _ _ _ E1), get_run, Hf0. exact E2.
  - by apply (acknowledged_perm A _ B (b :: blks) s s0).
Qed.

Lemma doack_run F A s n to_sacks :
  board U F M A s → bytes_ok to_sacks → (8 * n <= length to_sacks)%nat → (n <= TCP_MAX_SACK)%nat → 0 <= newbytes_acked s < 2 ^ 32 →
  ∃ sacks A' F' s', read_sacks n to_sacks = Ret sacks ∧ tcp_sack_doack cfg (u32 K) n to_sacks s = Ret (tt, s') ∧
    acknowledged U M A (fack_of U K F A) (reported U K M A sacks) s A' F' s'.
Proof.
  intros Hb Hby Hl Hn Hnew. destruct (read_sacks_run n to_sacks Hby Hl) as (sacks & Es & Hsn & Hsb). exists sacks.
  assert (Hw := b_window _ _ _ _ _ Hb). assert (Hc := chain_le _ _ _ (b_chain _ _ _ _ _ Hb)).
  set (F1 := fack_of U K F A). assert (HF1 : U <= F1 <= M) by (unfold F1, fack_of; case_bool_decide; lia).
  unfold tcp_sack_doack. rewrite get_run, (lift_run _ _ _ _ Es).
  rewrite (doack_blocks U K M A s sacks (b_una _ _ _ _ _ Hb) (b_max _ _ _ _ _ Hb) (b_holes _ _ _ _ _ Hb) HK ltac:(lia) Hsb).
  assert (Hok := reported_ok U K M A sacks ltac:(lia)). assert (Hlen : (length (reported U K M A sacks) <= S n)%nat).
  { unfold reported. rewrite length_app. assert (Hf := length_filter (valid_blk U K M) (unwrap_blk U <$> sacks)).
    rewrite length_fmap in Hf. destruct (_ && _); cbn [length]; lia. }
  set (B := reported U K M A sacks) in *. cbv zeta. assert (HB : bool_decide (sblk_of <$> B = []) = bool_decide (B = [])).
  { apply bool_decide_ext. split; [by intros ?%fmap_nil_inv|by intros ->]. }
  rewrite HB. clearbody B. destruct (decide (B = [])) as [Ed|Ed]; [rewrite bool_decide_true by done|rewrite bool_decide_false by done].
  { exists A, F1, s. split; [done|]. split; [done|]. split; try done.
    - by apply board_start.
    - intros b Hbin. rewrite Ed in Hbin. by apply elem_of_nil in Hbin.
    - rewrite Z.sub_diag, u32_id; lia. }
  rewrite length_fmap, (proj2 (Nat.ltb_ge _ _)) by lia.
  destruct (sort_blocks_run U M ltac:(lia) (length B) B ltac:(done) Hok) as (B' & Eb & Hp & Hs). rewrite Eb.
  replace (reverse (sblk_of <$> B')) with (sblk_of <$> reverse B') by apply fmap_reverse.
  destruct (doack_sorted F A B (reverse B') s Hb Hnew Hs ltac:(by rewrite reverse_Permutation) Hok Ed) as (A' & F' & s' & E & Hak).
  exists A', F', s'. split; [done|]. split; [exact E|done].
Qed.
End doack.
End scoreboard.
