(* ===== verification/TcpSackOps.v ===== *)
(** * TcpSackOps: what the sender does with the scoreboard

    Every operation on the scoreboard of [TcpSack] keeps it well formed
    ([board] of [TcpSackFun]): sending from it, a lost retransmission, a partial
    acknowledgement, a timeout, the advance of [snd_una]. The hint is what the
    walk over the scoreboard finds. *)

From S2P Require Import Prelude TcpSeq TcpSack TcpSackFun.

(** ** The hint *)

(** The first hole with octets that were not sent again. *)
Fixpoint first_open (A : list sackhole) : option Z :=
  match A with
  | [] => None
  | h :: A => if h_rxmit h <? h_end h then Some (h_addr h) else first_open A
  end.

Lemma rexmitted_untouched A : Forall untouched A → rexmitted A = 0.
Proof. induction 1 as [|h A Hh HA IH]; [done|]. rewrite rexmitted_cons, IH. unfold untouched in Hh. lia. Qed.

(** The walk of [tcp_sack_output_debug]. *)
Lemma debug_run U A : ∀ lo hi n, chain lo hi (holes_iv A) → Forall rxmit_ok A → ordered A → U <= lo → hi <= U + SPAN →
  0 <= n → n + (hi - lo) <= SPAN →
  output_debug (u32 U) (normh <$> A) n = (first_open A, n + rexmitted A).
Proof.
  induction A as [|h A IH]; intros lo hi n Hc Hr Ho HU Hhi Hn Hs; [cbn; f_equal; lia|].
  apply Forall_cons in Hr as (Hh & Hr). cbn [holes_iv fmap list_fmap chain] in Hc. destruct Hc as (H1 & H2 & Hc).
  assert (Hle := chain_le _ _ _ Hc). cbn [hole_iv fst snd] in *. unfold rxmit_ok in Hh. destruct Ho as (Hoh & Ho).
  cbn [fmap list_fmap output_debug first_open]. change (list_fmap _ _ normh A) with (normh <$> A).
  cbn [normh h_rxmit h_end h_start h_addr]. rewrite !seq_lt by (span; near). rewrite rexmitted_cons.
  destruct (Z.ltb_spec (h_rxmit h) (h_end h)) as [Hlt|Hge].
  - rewrite (proj2 (Z.ltb_ge (h_rxmit h) U)) by lia. rewrite s32_count by (span; lia).
    destruct Hoh as [Hcm|Hu]; [unfold complete in Hcm; lia|]. by rewrite rexmitted_untouched, Z.add_0_r.
  - rewrite s32_count by (span; lia). rewrite (IH (h_end h) hi) by (done || (span; lia)). f_equal. lia.
Qed.

Lemma board_debug U F M A s : board U F M A s → output_debug (snd_una s) (snd_holes s) 0 = (first_open A, rexmitted A).
Proof.
  intros []. rewrite b_una, b_holes. apply (debug_run U A U F 0); try done; lia.
Qed.

Lemma first_open_app P A : Forall complete P → first_open (P ++ A) = first_open A.
Proof.
  induction 1 as [|h P Hh HP IH]; [done|]. cbn [app first_open]. unfold complete in Hh. by rewrite (proj2 (Z.ltb_ge _ _)) by lia.
Qed.

Lemma unfinished_run U F A : chain U F (holes_iv A) → Forall rxmit_ok A → F <= U + SPAN →
  unfinished (normh <$> A) = first_open A.
Proof.
  unfold unfinished. intros Hc Hr HF. revert U Hc HF. induction Hr as [|h A Hh HA IH]; intros U Hc HF; [done|].
  cbn [holes_iv fmap list_fmap chain] in Hc. destruct Hc as (H1 & H2 & Hc). assert (Hle := chain_le _ _ _ Hc).
  cbn [hole_iv fst snd] in *. unfold rxmit_ok in Hh. cbn [fmap list_fmap list_find first_open].
  change (list_fmap _ _ normh A) with (normh <$> A). specialize (IH (h_end h) Hc ltac:(lia)).
  cbn [normh h_rxmit h_end h_addr] in *. destruct (Z.ltb_spec (h_rxmit h) (h_end h)) as [Hlt|Hge].
  - rewrite decide_True; [done|]. rewrite seq_lt by (span; near). by apply Z.ltb_lt.
  - rewrite decide_False; [|rewrite seq_lt by (span; near); intros ?%Z.ltb_lt; lia]. rewrite <- IH. by destruct (list_find _ _) as [[]|].
Qed.

Lemma board_hint U F M A n s s' : board U F M A s → hint_ok A n →
  kept s' = kept s → holes_part s' = (snd_holes s, snd_numholes s, n, sack_bytes_rexmit s, zone s, globalholes s) → board U F M A s'.
Proof.
  intros [] Hn Hk Hp. injection Hp as Ph Pn Px Pb Pz Pg. injection Hk as ? ? ? ? ? ? ? ? _ _ _ _ _ _. split; try done; try congruence.
  - intros Hne. rewrite <- (b_fack Hne). done.
  - by rewrite Pz.
Qed.

Lemma first_open_split A a : first_open A = Some a →
  ∃ P h Q, A = P ++ h :: Q ∧ h_addr h = a ∧ Forall (λ h, h_end h <= h_rxmit h) P ∧ h_rxmit h < h_end h.
Proof.
  induction A as [|h A IH]; [done|]. cbn [first_open]. destruct (Z.ltb_spec (h_rxmit h) (h_end h)).
  - intros [= <-]. by exists [], h, A.
  - intros (P & h' & Q & -> & Ha & HP & Hh)%IH. exists (h :: P), h', Q. split_and!; [done..|by constructor|done].
Qed.

(** The hint leads to the hole that the walk finds, with the same number. *)
Lemma cached_run U F M A s : board U F M A s →
  ∃ s', cached_output s = Ret ((first_open A, rexmitted A), s') ∧ board U F M A s' ∧ (∃ n, s' = s <| nexthole := n |>).
Proof.
  intros Hb. assert (Hbb := Hb). destruct Hbb. unfold cached_output. rewrite get_run. destruct (nexthole s) as [a|] eqn:En.
  2:{ exists s. rewrite b_bytes. cbn [hint_ok] in b_hint. split.
      - rewrite <- (app_nil_r A), first_open_app by done. by rewrite app_nil_r.
      - split; [done|]. exists None. destruct s; cbn in En; by rewrite En. }
  destruct b_hint as (P & h & Q & E & Ha & HP). rewrite E in b_addrs, b_holes, b_chain, b_rxmit. rewrite <- Ha.
  rewrite (hole_run P Q h b_addrs _ _ b_holes). assert (Hm := board_mid U F M P h Q s ltac:(by rewrite <- E)).
  destruct Hm as (H1 & H2 & H3 & H4 & H5 & Hr & _). unfold rxmit_ok in Hr.
  cbn [normh h_rxmit h_end]. rewrite seq_lt by (span; near). rewrite b_bytes, E, first_open_app by done. cbn [first_open].
  destruct (Z.ltb_spec (h_rxmit h) (h_end h)) as [Hlt|Hge].
  { exists s. split; [done|]. split; [by rewrite <- E|]. exists (Some a). destruct s; cbn in En; by rewrite En. }
  assert (Hch : complete h) by (unfold complete; lia).
  rewrite b_holes, fmap_app, fmap_cons. change (h_addr h) with (h_addr (normh h)).
  rewrite (after_mid _ _ (normh h) (nodup_norm P Q h b_addrs)).
  rewrite holes_iv_app in b_chain. apply chain_app in b_chain as (m & Hm1 & Hm2). cbn [holes_iv fmap list_fmap chain hole_iv] in Hm2.
  destruct Hm2 as (_ & _ & Hm2). cbn in Hm2. rewrite (unfinished_run (h_end h) F Q Hm2) by
    (rewrite ?Forall_app, ?Forall_cons in b_rxmit; tauto || (apply chain_le in Hm1; lia)).
  destruct (first_open Q) as [q|] eqn:Eq.
  - rewrite modify_run. eexists. split; [done|]. split; [|by eexists]. rewrite <- E. apply (board_hint U F M A (Some q) s); try done.
    apply first_open_split in Eq as (P' & h' & Q' & -> & Ha' & HP' & _). exists (P ++ h :: P'), h', Q'. rewrite E.
    split_and!; [by rewrite <- app_assoc|done|]. rewrite Forall_app, Forall_cons. split_and!; [done..|].
    rewrite !Forall_app, !Forall_cons, Forall_app in b_rxmit. apply Forall_forall. intros x Hx. unfold complete.
    destruct b_rxmit as (_ & _ & Hx1 & _). rewrite Forall_forall in Hx1, HP'. specialize (Hx1 _ Hx). specialize (HP' _ Hx).
    unfold rxmit_ok in Hx1. simpl in HP'. lia.
  - exists s. split; [done|]. split; [by rewrite <- E|]. exists (Some a). destruct s; cbn in En; by rewrite En.
Qed.

(** ** The state of the sender *)

(** The largest window, 16 bits scaled by at most 14, and the largest socket
    buffer. *)
Definition WMAX : Z := 65535 * 2 ^ 14.

(** The fields that matter. *)
Definition view (s : sndcb) :=
  (snd_una s, snd_nxt s, snd_max s, snd_wnd s, snd_fack s, snd_recover s, holes_part s,
   (in_recovery s, max_sndwnd s, snd_cwnd s, snd_ssthresh s, t_maxseg s)).

(** The numbers [U], [F], [M] and the holes [A] of the scoreboard, and the
    numbers of [snd_nxt] and [snd_recover]. *)
Record sender (U F M : Z) (A : list sackhole) (N Rc : Z) (s : sndcb) : Prop := {
  s_board : board U F M A s;
  s_nxt : snd_nxt s = u32 N;
  s_range : U <= N <= M;
  s_recover : snd_recover s = u32 Rc;
  s_rrange : U - SPAN <= Rc <= M;
  s_wnd : 0 <= snd_wnd s;
  s_mwnd : 0 <= max_sndwnd s <= WMAX;
  s_cwnd : 0 <= snd_cwnd s;
  s_thresh : 0 <= snd_ssthresh s;
  s_seg : 0 <= t_maxseg s }.

Lemma sender_view U F M A N Rc s s' : view s' = view s → sender U F M A N Rc s → sender U F M A N Rc s'.
Proof.
  intros E [Hb]. injection E as E1 E2 E3 E4 E5 E6 E7 E8 E9 E10 E11 E12 E13 E14 E15 E16 E17.
  destruct Hb. split; try congruence. split; try congruence.
  - intros Hne. rewrite E5. by apply b_fack.
  - by rewrite E11.
Qed.

(** The list of retransmitted segments is apart from all of this. *)
Lemma rxtseg_next_run before after a b n s :
  ∃ s', rxtseg_next before after a b n s = Ret (tt, s') ∧ view s' = view s ∧ sack_bytes_acked s' = sack_bytes_acked s.
Proof. unfold rxtseg_next. destruct (match after with [] => _ | _ => _ end) as [[? ?] ?]. by eexists. Qed.
Lemma rxtseg_insert_run a b s :
  ∃ s', tcp_rxtseg_insert a b s = Ret (tt, s') ∧ view s' = view s ∧ sack_bytes_acked s' = sack_bytes_acked s.
Proof.
  unfold tcp_rxtseg_insert. rewrite get_run.
  assert (∃ s1, (∀ X (k : unit → SND X), (when (bool_decide (t_rxt_segments s = [])) (modify (λ s, s <| t_dsack_lastuna := snd_una s |>)) ≫= k) s = k tt s1) ∧
    view s1 = view s ∧ sack_bytes_acked s1 = sack_bytes_acked s) as (s1 & E & V & B).
  { destruct (bool_decide _); eexists; (split; [intros; (apply modify_run || reflexivity)|done]). }
  rewrite E. destruct (rxt_split a (t_rxt_segments s)) as [before after].
  assert (Hn : ∀ before after a b n, ∃ s', rxtseg_next before after a b n s1 = Ret (tt, s') ∧ view s' = view s ∧ sack_bytes_acked s' = sack_bytes_acked s).
  { intros. destruct (rxtseg_next_run before0 after0 a0 b0 n s1) as (s' & ? & ? & ?). exists s'. split_and!; [done|congruence..]. }
  destruct (last before) as [prev|]; [|apply Hn]. destruct (_ && _); [by eexists|]. destruct (SEQ_GT _ _); [|apply Hn].
  destruct (_ && _); apply Hn.
Qed.

(** ** Sending again *)

(** The holes stay where they are; what was sent again of them changes. *)
Lemma board_same U F M A A' s s' : board U F M A s → addrs A' = addrs A → holes_iv A' = holes_iv A →
  Forall rxmit_ok A' → ordered A' → hint_ok A' (nexthole s') → snd_fack s' = snd_fack s → snd_una s' = snd_una s → snd_max s' = snd_max s →
  holes_part s' = (normh <$> A', snd_numholes s, nexthole s', rexmitted A', zone s, globalholes s) → board U F M A' s'.
Proof.
  intros [] Ea Ei Hr Ho Hh Ef Eu Em Hp. injection Hp as Ph Pn Pb Pz _.
  assert (El : length A' = length A) by (rewrite <- (length_fmap hole_iv A), <- (length_fmap hole_iv A'); by f_equal).
  split; try done; try congruence.
  - intros Hne. rewrite Ef. apply b_fack. by destruct A, A'.
  - rewrite Ea, Pz. done.
Qed.

Definition sent (h : sackhole) (len : Z) : sackhole := h <| h_rxmit := h_rxmit h + len |>.

Lemma hint_sent P h Q len n : hint_ok (P ++ h :: Q) n → h_rxmit h < h_end h → hint_ok (P ++ sent h len :: Q) n.
Proof.
  intros Hh Hlt. destruct n as [a|]; cbn [hint_ok] in *.
  2:{ rewrite Forall_app, Forall_cons in Hh. unfold complete in Hh. lia. }
  destruct Hh as (P' & h' & Q' & E & Ha & HP'). apply app_eq_inv in E as [(k & -> & E)|(k & -> & E)].
  - destruct k as [|x k]; cbn [app] in E; injection E as E1 E2.
    + rewrite app_nil_r. exists P', (sent h len), Q. split_and!; [done| |done]. by rewrite <- Ha, E1.
    + exists P', x, (k ++ sent h len :: Q). split_and!; [by rewrite <- app_assoc| |done]. by rewrite <- Ha, E1.
  - rewrite Forall_app in HP'. destruct k as [|x k]; cbn [app] in E; injection E as E1 E2.
    + exists P, (sent h len), Q. split_and!; [done| |tauto]. by rewrite <- Ha, <- E1.
    + rewrite Forall_cons, <- E1 in HP'. unfold complete in HP'. lia.
Qed.

Lemma rexmit_run U F M P h Q N Rc len s : sender U F M (P ++ h :: Q) N Rc s →
  Forall (λ h, h_end h <= h_rxmit h) P → 0 < len → h_rxmit h + len <= h_end h →
  ∃ s', sack_rexmit (h_addr h) len s = Ret (tt, s') ∧ sender U F M (P ++ sent h len :: Q) N Rc s' ∧
    sack_bytes_acked s' = sack_bytes_acked s ∧ in_recovery s' = in_recovery s.
Proof.
  intros [Hb Hn HN Hrc HR Hw Hmw Hcw Hth Hsg] HP Hl1 Hl2. assert (Hbb := Hb). destruct Hbb.
  assert (Hm := board_mid _ _ _ _ _ _ _ Hb). destruct Hm as (H1 & H2 & H3 & H4 & H5 & Hr & H6 & H7 & H8). unfold rxmit_ok in Hr.
  assert (HPc : Forall complete P).
  { rewrite Forall_app in b_rxmit. destruct b_rxmit as (Hx & _). apply Forall_forall. intros x Hin. unfold complete.
    rewrite Forall_forall in Hx, HP. specialize (Hx _ Hin). specialize (HP _ Hin). unfold rxmit_ok in Hx. simpl in HP. lia. }
  assert (HQ : Forall untouched Q).
  { rewrite ordered_app in b_order. cbn [ordered] in b_order. destruct b_order as (_ & ([Hc|Hu] & _) & _); [unfold complete in Hc; lia|done]. }
  unfold sack_rexmit. rewrite (hole_run P Q h b_addrs _ _ b_holes), modify_run. set (s1 := _ <| t_new_dupacks := 0 |>).
  destruct (rxtseg_insert_run (h_rxmit (normh h)) (u32 (h_rxmit (normh h) + len - 1)) s1) as (s2 & E & V & B). rewrite (bind_run _ _ _ _ _ E).
  assert (V' : view s2 = view s) by (by rewrite V). injection V' as V1 V2 V3 V4 V5 V6 V7 V8 V9 V10 V11 V12 V13 V14 V15 V16 V17.
  assert (Ef : (λ h, h <| h_rxmit := u32 (h_rxmit h + len) |>) (normh h) = normh (sent h len)).
  { unfold sent, normh. cbn. by rewrite u32_add. }
  rewrite (bind_run _ _ _ _ _ (set_hole_run P Q h b_addrs _ _ _ (eq_trans V7 b_holes) Ef)). eexists. split; [done|].
  assert (Er : rexmitted (P ++ sent h len :: Q) = rexmitted (P ++ h :: Q) + len).
  { rewrite !rexmitted_app, !rexmitted_cons. cbn. lia. }
  split; [|done]. split; cbn; try congruence; try lia. eapply board_same; [exact Hb|..]; cbn; try congruence.
  - unfold addrs. rewrite !fmap_app, !fmap_cons. done.
  - rewrite !holes_iv_app. done.
  - rewrite Forall_app, Forall_cons in *. split_and!; [tauto| |tauto]. unfold rxmit_ok. cbn. lia.
  - rewrite ordered_app in *. cbn [ordered] in *. split_and!; try tauto.
  - rewrite V9. apply hint_sent; [done|lia].
  - unfold holes_part. cbn. rewrite V8, V11, V12, V10, b_bytes, Er. rewrite s32_id; [done|]. span. lia.
Qed.

Section operations.
Context (cfg : settings).

(** All holes are to be sent again from their start. *)
Definition fresh (h : sackhole) : sackhole := h <| h_rxmit := h_start h |> <| h_rxmit_start := snd_now cfg |>.

Lemma lost_run U F M A N Rc s : sender U F M A N Rc s →
  ∃ s', tcp_sack_lost_rexmit cfg s = Ret (tt, s') ∧ sender U F M (fresh <$> A) N Rc s' ∧
    sack_bytes_acked s' = sack_bytes_acked s ∧ in_recovery s' = in_recovery s.
Proof.
  intros [Hb Hn HN Hrc HR Hw Hmw Hcw Hth Hsg]. assert (Hbb := Hb). destruct Hbb.
  unfold tcp_sack_lost_rexmit. rewrite modify_run. eexists. split; [done|]. split; [|done]. split; cbn; try done.
  assert (Eh : map (λ h, h <| h_rxmit := h_start h |> <| h_rxmit_start := snd_now cfg |>) (snd_holes s) = normh <$> (fresh <$> A)).
  { rewrite b_holes. change (map ?f ?l) with (f <$> l). rewrite <- !list_fmap_compose. by apply list_fmap_ext. }
  assert (Hu : Forall untouched (fresh <$> A)) by (apply Forall_fmap, Forall_true; by intros).
  eapply board_same; [exact Hb|..]; cbn; try done.
  - unfold addrs. rewrite <- list_fmap_compose. by apply list_fmap_ext.
  - unfold holes_iv. rewrite <- list_fmap_compose. by apply list_fmap_ext.
  - apply Forall_fmap. rewrite Forall_forall in b_rxmit. apply Forall_forall. intros h Hh. specialize (b_rxmit _ Hh).
    unfold rxmit_ok in *. cbn. lia.
  - clear -Hu. induction A as [|h A IH]; [done|]. apply Forall_cons in Hu as (? & Hu). cbn. split; [by right|by apply IH].
  - rewrite Eh. destruct A as [|h A]; [constructor|]. cbn. by eexists [], _, _.
  - unfold holes_part. cbn. rewrite Eh, (rexmitted_untouched _ Hu). done.
Qed.

(** All holes are removed. *)
Definition apart (s : sndcb) :=
  (snd_una s, snd_nxt s, snd_max s, snd_wnd s, snd_fack s, snd_recover s, zone s,
   (in_recovery s, max_sndwnd s, snd_cwnd s, snd_ssthresh s, t_maxseg s)).

Lemma free_loop_run A : ∀ s, snd_holes s = normh <$> A → NoDup (addrs A) → snd_numholes s = Z.of_nat (length A) → Z.of_nat (length A) <= 32767 →
  ∃ s', free_loop (length A) s = Ret (tt, s') ∧ snd_holes s' = [] ∧ snd_numholes s' = 0 ∧ apart s' = apart s.
Proof.
  induction A as [|h A IH]; intros s Hh Hnd Hn Hl; [by exists s|]. cbn [length free_loop]. rewrite get_run, Hh. cbn [fmap list_fmap].
  assert (Hr := remove_run [] A h Hnd s Hh). cbn [app] in Hr. change (h_addr (normh h)) with (h_addr h). rewrite (bind_run _ _ _ _ _ Hr).
  set (s1 := _ <| globalholes := _ |>). destruct (IH s1) as (s' & E & Eh & En & Ea).
  - done.
  - by apply NoDup_cons in Hnd as [_ ?].
  - cbn. rewrite Hn, s16_id; cbn [length] in *; lia.
  - cbn [length] in *. lia.
  - exists s'. split_and!; done.
Qed.

Lemma free_run U F M A N Rc s : sender U F M A N Rc s →
  ∃ s', tcp_free_sackholes s = Ret (tt, s') ∧ sender U U M [] N Rc s' ∧ in_recovery s' = in_recovery s.
Proof.
  intros [Hb Hn HN Hrc HR Hw Hmw Hcw Hth Hsg]. destruct Hb.
  unfold tcp_free_sackholes. rewrite get_run. rewrite b_holes, length_fmap.
  destruct (free_loop_run A s b_holes b_addrs b_num b_limit) as (s1 & E & Eh & En & Ea). rewrite (bind_run _ _ _ _ _ E).
  eexists. split; [done|]. injection Ea as E1 E2 E3 E4 E5 E6 E7 E8 E9 E10 E11 E12. split; [|done].
  split; cbn; try congruence; try lia. apply chain_le in b_chain. split; cbn; try done; try congruence; try lia. constructor.
Qed.

Lemma exit_run s : ∃ s', EXIT_FASTRECOVERY s = Ret (tt, s') ∧ holes_part s' = holes_part s ∧ snd_recover s' = snd_recover s ∧
  snd_nxt s' = snd_nxt s ∧ sack_bytes_acked s' = 0 ∧ (∀ U F M A N Rc, sender U F M A N Rc s → sender U F M A N Rc s').
Proof. eexists. split; [done|]. split_and!; try done. intros U F M A N Rc [[]]. split; try done. Qed.

Lemma timeout_run U F M A N Rc s : sender U F M A N Rc s →
  ∃ s', rexmt_timeout s = Ret (tt, s') ∧ sender U U M [] U M s'.
Proof.
  intros Hs. destruct (free_run U F M A N Rc s Hs) as (s1 & E & [Hb Hn HN Hrc HR Hw Hmw Hcw Hth Hsg] & _).
  unfold rexmt_timeout. rewrite (bind_run _ _ _ _ _ E), modify_run. set (s2 := _ <| snd_recover := _ |>).
  destruct (exit_run s2) as (s' & E' & _ & _ & _ & _ & H). exists s'. split; [done|]. apply H. destruct Hb.
  split; cbn; try done; try lia.
Qed.

(** ** Output *)

Lemma board_rexmitted U F M A s : board U F M A s → 0 <= sack_bytes_rexmit s <= SPAN.
Proof. intros []. rewrite b_bytes. assert (H := rexmitted_bound _ _ _ b_chain b_rxmit). lia. Qed.

Lemma flight_run U F M A s : board U F M A s → 0 <= sack_bytes_acked s →
  tcp_flight_size s = Ret (Z.max 0 (s32 (snd_nxt s - snd_una s - sack_bytes_acked s)), s).
Proof.
  intros Hb Ha. apply board_rexmitted in Hb. unfold tcp_flight_size. rewrite get_run.
  by rewrite !(proj2 (Z.ltb_ge _ _)) by lia.
Qed.

Lemma output_run U F M A N Rc s : sender U F M A N Rc s →
  ∃ s', tcp_sack_output s = Ret ((first_open A, rexmitted A), s') ∧ sender U F M A N Rc s' ∧ (∃ n, s' = s <| nexthole := n |>).
Proof.
  intros Hs. destruct (cached_run U F M A s (s_board _ _ _ _ _ _ _ Hs)) as (s' & E & Hb & n & En).
  unfold tcp_sack_output. rewrite get_run, (board_debug U F M A s (s_board _ _ _ _ _ _ _ Hs)), (bind_run _ _ _ _ _ E).
  exists s'. split; [done|]. split; [|by exists n]. destruct Hs. rewrite En in *. by split.
Qed.

(** What may be sent again: [len] octets of the first hole that is not done. *)
Definition sendable (A : list sackhole) (p : option (Z * Z)) : Prop :=
  match p with
  | None => True
  | Some (a, len) => 0 < len → ∃ P h Q, A = P ++ h :: Q ∧ h_addr h = a ∧ Forall (λ h, h_end h <= h_rxmit h) P ∧ h_rxmit h + len <= h_end h
  end.

Lemma choose_run U F M A N Rc rx s : sender U F M A N Rc s → 0 <= sack_bytes_acked s →
  ∃ p s', sack_choose cfg rx s = Ret ((p, rexmitted A), s') ∧ sender U F M A N Rc s' ∧ (∃ n, s' = s <| nexthole := n |>) ∧ sendable A p.
Proof.
  intros Hs Ha. unfold sack_choose. destruct (output_run U F M A N Rc s Hs) as (s1 & E & Hs1 & n & En). rewrite (bind_run _ _ _ _ _ E).
  destruct (first_open A) as [a|] eqn:Ef; [|exists None, s1; split_and!; [done..|by exists n|done]].
  apply first_open_split in Ef as (P & h & Q & EA & Had & HP & Hlt). rewrite get_run.
  assert (Ha1 : 0 <= sack_bytes_acked s1) by (by rewrite En).
  set (c := if tcp_do_better_lr cfg then _ else _).
  assert (Hc : ∃ cwin, c s1 = Ret (cwin, s1)).
  { unfold c. destruct (tcp_do_better_lr cfg); [|by eexists]. rewrite (bind_run _ _ _ _ _ (flight_run U F M A s1 (s_board _ _ _ _ _ _ _ Hs1) Ha1)).
    by eexists. }
  destruct Hc as (cwin & Hc). rewrite (bind_run _ _ _ _ _ Hc). cbv zeta. clear c Hc.
  assert (Hs1' := Hs1). destruct Hs1' as [Hb Hn HN Hrc HR _ _ _ _ _]. assert (Hbb := Hb). destruct Hbb.
  rewrite EA in *. rewrite <- Had, (hole_run P Q h b_addrs _ _ b_holes).
  assert (Hm := board_mid _ _ _ _ _ _ _ Hb). destruct Hm as (H1 & H2 & H3 & H4 & H5 & Hr & _). unfold rxmit_ok in Hr.
  cbn [normh h_rxmit h_end]. rewrite Hrc, seq_gt, seq_geq, !u32_sub by (span; near). rewrite (u32_id (h_end h - h_rxmit h)) by (span; lia).
  assert (Hlen : ∀ lim, 0 <= lim <= h_end h - h_rxmit h → sendable (P ++ h :: Q) (Some (h_addr h, s32 (Z.min (Z.max 0 cwin) lim)))).
  { intros lim Hlim _. exists P, h, Q. split_and!; try done. rewrite s32_id by (span; lia). lia. }
  destruct (Z.ltb_spec Rc (h_end h)).
  - destruct (Z.leb_spec Rc (h_rxmit h)).
    + exists None, s1. split_and!; [done..|by exists n|done].
    + rewrite u32_id by (span; lia). eexists _, s1. split; [done|]. split_and!; [done|by exists n|apply Hlen; lia].
  - eexists _, s1. split; [done|]. split_and!; [done|by exists n|apply Hlen; lia].
Qed.

(** The next octet from [N] on that is in a hole, or [F]. *)
Record adjusted (A : list sackhole) (F N N' : Z) : Prop := {
  ad_range : N <= N' <= F;
  ad_sacked : ∀ x, N <= x < N' → ¬ covered x (holes_iv A);
  ad_hole : (N' = N ∧ ∀ x, covered x (holes_iv A) → N < x) ∨ covered N' (holes_iv A) ∨ N' = F }.

Lemma adjust_loop_run U F N l : ∀ cur, chain U F (holes_iv (cur :: l)) → U <= N < F → F <= U + SPAN →
  ∃ N', adjust_loop (u32 N) (u32 F) (normh cur) (normh <$> l) = u32 N' ∧ adjusted (cur :: l) F N N'.
Proof.
  induction l as [|p l IH]; intros cur Hc HN HF; cbn [fmap list_fmap adjust_loop]; cbn [holes_iv fmap list_fmap chain hole_iv fst snd] in Hc;
    cbn [normh h_end h_start].
  - destruct Hc as (Hc1 & Hc2 & Hc3). cbn in Hc1, Hc2, Hc3. rewrite seq_lt by (span; near). destruct (Z.ltb_spec N (h_end cur)).
    + exists N. split; [done|]. split; [lia|lia|]. destruct (Z.lt_ge_cases N (h_start cur)).
      * left. split; [done|]. intros x [Hx|Hx]%covered_cons; [cbn in Hx; lia|by apply covered_nil in Hx].
      * right. left. apply covered_cons. left. cbn. lia.
    + exists F. split; [done|]. split; [lia| |by right; right]. intros x Hx [Hx'|Hx']%covered_cons; [cbn in Hx'; lia|by apply covered_nil in Hx'].
  - destruct Hc as (Hc1 & Hc2 & Hc3 & Hc4 & Hc5). cbn in Hc1, Hc2, Hc3, Hc4, Hc5. assert (Hle := chain_le _ _ _ Hc5).
    rewrite seq_lt, seq_geq by (span; near). destruct (Z.ltb_spec N (h_end cur)).
    + exists N. split; [done|]. split; [lia|lia|]. destruct (Z.lt_ge_cases N (h_start cur)).
      * left. split; [done|]. intros x [Hx|Hx]%covered_cons; [cbn in Hx; lia|].
        apply (chain_covered (h_end cur) F) in Hx; [lia|]. cbn. split_and!; [lia..|done].
      * right. left. apply covered_cons. left. cbn. lia.
    + destruct (Z.leb_spec (h_start p) N).
      * destruct (IH p) as (N' & E & []); [cbn; split_and!; [lia..|done]|done|done|]. exists N'. split; [exact E|]. split; [lia| |].
        -- intros x Hx [Hx'|Hx']%covered_cons; [cbn in Hx'; lia|]. by apply (ad_sacked0 x).
        -- right. destruct ad_hole0 as [(-> & Hd)|[Hd|Hd]]; [|left; apply covered_cons; by right|by right].
           assert (N < h_start p); [apply Hd, covered_cons; left; cbn; lia|lia].
      * exists (h_start p). split; [done|]. split; [lia| |].
        -- intros x Hx [Hx'|Hx']%covered_cons; [cbn in Hx'; lia|]. apply (chain_covered (h_start p) F) in Hx'; [lia|]. cbn. split_and!; [lia..|done].
        -- right. left. apply covered_cons. right. apply covered_cons. left. cbn. lia.
Qed.

Lemma adjust_run U F M A N Rc s : sender U F M A N Rc s →
  ∃ N', tcp_sack_adjust s = Ret (tt, s <| snd_nxt := u32 N' |>) ∧ sender U F M A N' Rc (s <| snd_nxt := u32 N' |>) ∧
    (A ≠ [] → N < F → adjusted A F N N') ∧ (A = [] ∨ F <= N → N' = N).
Proof.
  intros [Hb Hn HN Hrc HR Hw Hmw Hcw Hth Hsg]. assert (Hbb := Hb). destruct Hbb. unfold tcp_sack_adjust. rewrite get_run.
  assert (Hset : ∀ N', U <= N' <= M → sender U F M A N' Rc (s <| snd_nxt := u32 N' |>)).
  { intros N' HN'. split; try done. }
  assert (Hsame : s = s <| snd_nxt := u32 N |>) by (rewrite <- Hn; by destruct s).
  destruct A as [|cur l].
  { exists N. rewrite b_holes. cbn [fmap list_fmap]. split; [by rewrite <- Hsame|]. split; [by apply Hset|done]. }
  rewrite b_holes. cbn [fmap list_fmap]. change (list_fmap _ _ normh l) with (normh <$> l).
  assert (Hle := chain_le _ _ _ b_chain). rewrite Hn, b_fack, seq_geq by (done || (span; near)). destruct (Z.leb_spec F N).
  { exists N. split; [by rewrite <- Hsame|]. split; [by apply Hset|]. split; [lia|done]. }
  destruct (adjust_loop_run U F N l cur b_chain ltac:(lia) ltac:(lia)) as (N' & E & Had). exists N'. unfold modify. rewrite Hn, b_fack, E by done.
  split; [done|]. split; [apply Hset; destruct Had; lia|]. split; [done|]. intros [?|?]; [done|lia].
Qed.

Lemma new_len_run U F M A N Rc cc rxmt s : sender U F M A N Rc s → 0 <= sack_bytes_acked s → 0 <= cc <= WMAX →
  ∃ len cwin, new_len cfg cc rxmt s = Ret ((len, cwin), s) ∧ (0 < len → N + len <= U + WMAX).
Proof.
  intros [Hb Hn HN Hrc HR Hw Hmw Hcw Hth Hsg] Ha Hcc. assert (Hbb := Hb). destruct Hbb.
  assert (Hoff : s32 (snd_nxt s - snd_una s) = N - U) by (rewrite Hn, b_una; apply u32_diff; span; near).
  unfold new_len. rewrite get_run, Hoff. unfold WMAX in *. destruct (rxmt =? 0).
  { eexists _, _. split; [done|]. rewrite s32_id by (span; lia). lia. }
  set (c := if tcp_do_better_lr cfg then _ else _).
  assert (Hc : ∃ cwin, c s = Ret (cwin, s)).
  { unfold c. destruct (tcp_do_better_lr cfg); [|by eexists]. rewrite (bind_run _ _ _ _ _ (flight_run U F M A s Hb Ha)). by eexists. }
  destruct Hc as (cwin & Hc). rewrite (bind_run _ _ _ _ _ Hc). eexists _, _. split; [done|].
  cbv zeta. rewrite s32_id by (span; lia). destruct (Z.ltb_spec 0 (Z.min cc (snd_wnd s) - (N - U))); lia.
Qed.

Lemma note_run len s : ∃ s', note_rexmit len s = Ret (tt, s') ∧ view s' = view s ∧ sack_bytes_acked s' = sack_bytes_acked s.
Proof. unfold note_rexmit. rewrite get_run. destruct (_ && _); [|by exists s]. apply rxtseg_insert_run. Qed.

Lemma send_new_run U F M A N Rc len s : sender U F M A N Rc s → 0 < len → N + len <= U + WMAX →
  ∃ s', send_new len s = Ret (tt, s') ∧ sender U F (Z.max M (N + len)) A (N + len) Rc s' ∧
    sack_bytes_acked s' = sack_bytes_acked s ∧ in_recovery s' = in_recovery s.
Proof.
  intros Hs Hl Hw. unfold send_new. destruct (note_run len s) as (s1 & E & V & B).
  rewrite (bind_run _ _ _ _ _ E), modify_run. apply (sender_view _ _ _ _ _ _ _ s1) in Hs; [|done]. destruct Hs as [Hb Hn HN Hrc HR Hwn Hmw Hcw Hth Hsg].
  eexists. split; [done|]. unfold WMAX in *. assert (Hbb := Hb). destruct Hbb. cbn. rewrite Hn, u32_add, b_max, seq_gt by (span; near).
  assert (Er : in_recovery s1 = in_recovery s) by (by injection V).
  destruct (Z.ltb_spec M (N + len)); (split; [|done]); [rewrite Z.max_r by lia|rewrite Z.max_l by lia].
  - split; try done; try lia. split; try done. span. lia.
  - split; try done; try lia.
Qed.

Lemma rescue_run fin cwin lim s : ∃ s', rescue_rxt fin cwin lim s = Ret (tt, s') ∧ view s' = view s ∧ sack_bytes_acked s' = sack_bytes_acked s.
Proof.
  unfold rescue_rxt. rewrite get_run, modify_run. set (s1 := s <| snd_nxt := _ |>).
  assert (∃ n, (∀ X (k : unit → SND X), (when (fin && (snd_max s =? snd_recover s)) (modify (λ s, s <| snd_nxt := u32 (snd_nxt s - 1) |>)) ≫= k) s1 =
    k tt (s1 <| snd_nxt := n |>))) as (n & E).
  { destruct (_ && _); [exists (u32 (snd_nxt s1 - 1))|exists (snd_nxt s1); by destruct s]. intros. exact (modify_run _ k s1). }
  rewrite E, modify_run. set (s2 := _ <| snd_flagsext := _ |>). destruct (note_run (Z.min (Z.min (Z.min (u32 (snd_recover s - snd_fack s)) (t_maxseg s)) cwin) lim) s2)
    as (s3 & E3 & V & B). rewrite (bind_run _ _ _ _ _ E3). eexists. split; [reflexivity|]. split; [|done].
  injection V as V1 V2 V3 V4 V5 V6 V7 V8 V9 V10 V11 V12 V13 V14 V15 V16 V17. unfold view, holes_part. cbn. by rewrite V1, V3, V4, V5, V6, V7, V8, V9, V10, V11, V12, V13, V14, V15, V16, V17.
Qed.

(** The sender goes on in the same episode: only [M], [N] and what was sent
    again of the holes change. *)
Definition goes_on (U F M : Z) (A : list sackhole) (Rc : Z) (s s' : sndcb) : Prop :=
  ∃ M' A' N', sender U F M' A' N' Rc s' ∧ M <= M' ∧ holes_iv A' = holes_iv A ∧
    sack_bytes_acked s' = sack_bytes_acked s ∧ in_recovery s' = in_recovery s.

Definition output_ok (o : output_args) : Prop := 0 <= sb_cc o <= WMAX ∧ 1 <= seg_limit o.

Lemma output_new_run U F M A N Rc o rxmt s : sender U F M A N Rc s → 0 <= sack_bytes_acked s → output_ok o →
  ∃ s', output_new cfg o rxmt s = Ret (tt, s') ∧ goes_on U F M A Rc s s'.
Proof.
  intros Hs Ha (Hcc & Hlim). unfold output_new. destruct (new_len_run U F M A N Rc (sb_cc o) rxmt s Hs Ha Hcc) as (len & cwin & E & Hlen).
  rewrite (bind_run _ _ _ _ _ E). cbv beta iota. rewrite get_run. destruct (_ && _).
  { destruct (rescue_run (fin_sent o) cwin (seg_limit o) s) as (s' & E' & V & B). exists s'. split; [done|].
    exists M, A, N. split_and!; [by apply (sender_view _ _ _ _ _ _ s)|lia|done|done|by injection V]. }
  destruct (Z.ltb_spec 0 len).
  - destruct (send_new_run U F M A N Rc (Z.min len (seg_limit o)) s Hs) as (s' & E' & Hs' & B & R); [lia..|]. exists s'. split; [exact E'|].
    eexists _, A, _. split_and!; [done|lia|done..].
  - exists s. split; [done|]. exists M, A, N. split_and!; done.
Qed.

Lemma output_data_run U F M A N Rc o s : sender U F M A N Rc s → 0 <= sack_bytes_acked s → output_ok o →
  ∃ s', output_data cfg o s = Ret (tt, s') ∧ goes_on U F M A Rc s s'.
Proof.
  intros Hs Ha Ho. unfold output_data. rewrite get_run.
  assert (∃ N1 s1, (∀ X (k : unit → SND X), (when (SEQ_LT (snd_nxt s) (snd_max s)) tcp_sack_adjust ≫= k) s = k tt s1) ∧
    sender U F M A N1 Rc s1 ∧ sack_bytes_acked s1 = sack_bytes_acked s ∧ in_recovery s1 = in_recovery s) as (N1 & s1 & E & Hs1 & B1 & R1).
  { destruct (SEQ_LT _ _); [|by exists N, s]. destruct (adjust_run U F M A N Rc s Hs) as (N1 & E & Hs1 & _). exists N1. eexists.
    split; [|done]. intros. by rewrite (bind_run _ _ _ _ _ E). }
  rewrite E. rewrite <- B1 in Ha.
  assert (Hgo : ∀ n s', goes_on U F M A Rc (s1 <| nexthole := n |>) s' → goes_on U F M A Rc s s').
  { intros n s' (M' & A' & N' & H1 & H2 & H3 & H4 & H5). exists M', A', N'. cbn in H4, H5. split_and!; [done..|congruence|congruence]. }
  destruct (in_recovery s).
  2:{ rewrite (bind_run (mret (None, 0)) _ s1 (None, 0) s1 eq_refl). cbv beta iota.
      destruct (output_new_run U F M A N1 Rc o 0 s1 Hs1 Ha Ho) as (s' & E' & Hg). exists s'. split; [exact E'|].
      apply (Hgo (nexthole s1)). by destruct s1. }
  destruct (choose_run U F M A N1 Rc (sack_rxmted o) s1 Hs1 Ha) as (p & s2 & E2 & Hs2 & (n & En) & Hp). rewrite (bind_run _ _ _ _ _ E2). rewrite En in *.
  destruct (output_new_run U F M A N1 Rc o (rexmitted A) _ Hs2 Ha Ho) as (s3 & E3 & Hg3). cbv beta iota.
  destruct p as [[a len1]|]; [destruct (Z.ltb_spec 0 len1) as [Hl|Hl]|].
  - destruct (Hp Hl) as (P & h & Q & EA & Hh & HP & Hle). rewrite EA in Hs2. rewrite <- Hh. destruct Ho as (_ & Hlim).
    destruct (rexmit_run U F M P h Q N1 Rc (Z.min len1 (seg_limit o)) _ Hs2 HP) as (s' & E' & Hs' & B' & R'); [lia..|].
    exists s'. split; [exact E'|]. apply (Hgo n). eexists _, _, _. split_and!; [done|lia| |done..]. rewrite EA, !holes_iv_app. done.
  - exists s3. split; [exact E3|by apply (Hgo n)].
  - exists s3. split; [exact E3|by apply (Hgo n)].
Qed.

Lemma tcp_output_run U F Rc os : ∀ M A N s, sender U F M A N Rc s → 0 <= sack_bytes_acked s → Forall output_ok os →
  ∃ s', tcp_output cfg os s = Ret (tt, s') ∧ goes_on U F M A Rc s s'.
Proof.
  induction os as [|o os IH]; intros M A N s Hs Ha Hos.
  { exists s. split; [done|]. exists M, A, N. split_and!; done. }
  apply Forall_cons in Hos as (Ho & Hos). cbn [tcp_output].
  destruct (output_data_run U F M A N Rc o s Hs Ha Ho) as (s1 & E & M1 & A1 & N1 & Hs1 & HM1 & HA1 & B1 & R1). rewrite (bind_run _ _ _ _ _ E).
  destruct (IH M1 A1 N1 s1 Hs1) as (s' & E' & M' & A' & N' & Hs' & HM' & HA' & B' & R'); [by rewrite B1|done|].
  exists s'. split; [exact E'|]. exists M', A', N'. split_and!; [done|lia|congruence..].
Qed.

(** ** Acknowledgements *)

(** A duplicate SACK changes only the list of retransmitted segments. *)
Lemma dsack_run ack n sacks s : bytes_ok sacks → (8 * n <= length sacks)%nat → (1 <= n)%nat →
  ∃ r n' sacks' s', tcp_sack_process_dsack cfg ack n sacks s = Ret ((r, (n', sacks')), s') ∧ view s' = view s ∧
    sack_bytes_acked s' = sack_bytes_acked s ∧ newbytes_acked s' = newbytes_acked s ∧
    ((n' = n ∧ sacks' = sacks) ∨ (n' = (n - 1)%nat ∧ sacks' = drop 8 sacks)).
Proof.
  intros Hb Hl Hn. unfold tcp_sack_process_dsack. rewrite get_run.
  destruct (read_sacks_run 1 sacks Hb) as (first & E1 & H1 & _); [lia|]. rewrite (lift_run _ _ _ _ E1).
  assert (∃ second, (if (1 <? n)%nat then read_sacks 1 (drop 8 sacks) else Ret []) = Ret second) as (second & E2).
  { destruct (Nat.ltb_spec 1 n); [|by eexists]. destruct (read_sacks_run 1 (drop 8 sacks)) as (l & E & _).
    - by apply Forall_drop.
    - rewrite length_drop. lia.
    - by exists l. }
  rewrite (lift_run _ _ _ _ E2). destruct first as [|f first]; [done|]. cbv zeta.
  set (P := λ m : SND (bool * (nat * bytes)), ∃ r n' sacks' s', m s = Ret ((r, (n', sacks')), s') ∧ view s' = view s ∧
    sack_bytes_acked s' = sack_bytes_acked s ∧ newbytes_acked s' = newbytes_acked s ∧
    ((n' = n ∧ sacks' = sacks) ∨ (n' = (n - 1)%nat ∧ sacks' = drop 8 sacks))).
  assert (Hm : ∀ (t1 t2 : bool) g a b r, P (modify (λ s, s <| t_dsack_recvd := t_dsack_recvd s + 1 |>);;
      when t1 (modify (λ s, s <| t_rxt_segments := g s |>));;
      if t2 then mret (r, ((n - 1)%nat, drop 8 sacks)) else tcp_rxtseg_set_spurious a b;; mret (r, ((n - 1)%nat, drop 8 sacks)))).
  { intros [] [] g a b r; eexists _, _, _, _; (split; [reflexivity|]); split_and!; try done; by right. }
  assert (Hd : ∀ r, P (mret (r, ((n - 1)%nat, drop 8 sacks)))).
  { intros r. eexists _, _, _, s. split; [reflexivity|]. split_and!; try done. by right. }
  assert (Hk : ∀ r, P (mret (r, (n, sacks)))).
  { intros r. eexists _, _, _, s. split; [reflexivity|]. split_and!; try done. by left. }
  enough (H : P (if SEQ_LT (b_start f) ack && SEQ_LEQ (b_end f) ack then _ else _)) by exact H.
  destruct (_ && SEQ_LEQ (b_end f) ack); [destruct (negb _); [apply Hd|apply Hm]|]. destruct second as [|sb second]; [apply Hk|].
  destruct (SEQ_LEQ (b_start sb) (b_start f) && _); [|apply Hk]. destruct (negb _); [apply Hd|apply Hm].
Qed.

Lemma chain_raise lo hi lo' l : chain lo hi l → (∀ x, covered x l → lo' <= x) → lo' <= hi → chain lo' hi l.
Proof.
  destruct l as [|b l]; [done|]. intros (H1 & H2 & H3) Hx Hl. split_and!; [|done..]. apply Hx, covered_cons. left. lia.
Qed.

(** The holes are above the acknowledgement [K]. *)
Definition above (K F : Z) (A : list sackhole) : Prop := A = [] ∨ chain K F (holes_iv A).

(** An acknowledgement of new data leaves no holes below it, whatever the room. *)
Lemma acknowledged_above U K M F A sacks s A' F' s' : U < K → K <= M → board U F M A s →
  acknowledged cfg U M A (fack_of U K F A) (reported U K M A sacks) s A' F' s' → above K F' A'.
Proof.
  intros HK HM Hb []. destruct ak_board. assert (Hw := chain_le _ _ _ b_chain).
  assert (Hp : ∀ x, U <= x → pending M A' F' x → K <= x).
  { intros x Hx Hpx. destruct (decide (A = [])) as [EA|EA].
    - apply ak_sub in Hpx. unfold fack_of in Hpx. rewrite bool_decide_true in Hpx by done. destruct Hpx as [Hpx|Hpx]; [|lia].
      rewrite EA in Hpx. by apply covered_nil in Hpx.
    - apply Z.nlt_ge. intros Hlt. apply (ak_gone (U, K)) in Hpx; [cbn in Hpx; lia| |by right].
      unfold reported. rewrite (proj2 (Z.ltb_lt _ _) HK), bool_decide_false by done. set_solver. }
  right. apply (chain_raise U); [done| |].
  - intros x Hx. apply Hp; [|by left]. apply (chain_covered _ _ _ _ b_chain) in Hx. lia.
  - apply Z.nlt_ge. intros Hlt. assert (K <= F'); [|lia]. apply Hp; [lia|]. right. lia.
Qed.

(** What the scoreboard takes for missing, from [K] on and outside of the blocks
    [B], stays missing. *)
Definition stays (K : Z) (B : list (Z * Z)) (M : Z) (A : list sackhole) (F M' : Z) (A' : list sackhole) (F' : Z) : Prop :=
  ∀ x, pending M A F x → K <= x → ¬ covered x B → pending M' A' F' x.

Lemma stays_refl K B M A F : stays K B M A F M A F.
Proof. by intros x. Qed.
Lemma stays_trans K B M A F M1 A1 F1 M2 A2 F2 : stays K B M A F M1 A1 F1 → stays K B M1 A1 F1 M2 A2 F2 → stays K B M A F M2 A2 F2.
Proof. intros H1 H2 x Hx Hk Hb. by apply H2; [apply H1|..]. Qed.
Lemma stays_same K B M A F M' A' : M <= M' → holes_iv A' = holes_iv A → stays K B M A F M' A' F.
Proof. intros HM E x [Hx|Hx] _ _; [left; by rewrite E|right; lia]. Qed.
Lemma stays_less K B B' M A F M' A' F' : B' ⊆ B → stays K B' M A F M' A' F' → stays K B M A F M' A' F'.
Proof. intros Hs H x Hx Hk Hb. apply H; [done..|]. intros (b & Hin & Hc). apply Hb. exists b. auto. Qed.

(** A hole for the octets up to [snd_recover] when there are none. *)
Lemma partialack_run U F M A N Rc K s : sender U F M A N Rc s → 0 <= sack_bytes_acked s → U <= K <= M → above K F A →
  tcp_sack_maxholes cfg <= 32767 →
  ∃ F' A' s', tcp_sack_partialack cfg (u32 K) s = Ret (tt, s') ∧ sender U F' M A' N Rc s' ∧ above K F' A' ∧
    sack_bytes_acked s' = sack_bytes_acked s ∧ ∀ B, stays K B M A F M A' F'.
Proof.
  intros Hs Ha HK Hab Hmax. unfold tcp_sack_partialack. rewrite get_run. set (c := if tcp_do_better_lr cfg then _ else _).
  assert (Hc : ∃ cwnd, c s = Ret (u32 cwnd, s)).
  { unfold c. destruct (tcp_do_better_lr cfg); [|by eexists].
    rewrite (bind_run _ _ _ _ _ (flight_run U F M A s (s_board _ _ _ _ _ _ _ Hs) Ha)). by eexists. }
  destruct Hc as (cwnd & Hc). rewrite (bind_run _ _ _ _ _ Hc), modify_run, get_run. set (s1 := s <| snd_cwnd := _ |>).
  assert (Hs1 : sender U F M A N Rc s1).
  { destruct Hs as [[]]. split; try done. assert (Hu := u32_range cwnd). cbn. lia. }
  assert (Hs1' := Hs1). destruct Hs1' as [Hb Hn HN Hrc HR Hw Hmw Hcw Hth Hsg].
  destruct (_ && _) eqn:Ec; [|exists F, A, s1; split_and!; [done..|intros; apply stays_refl]].
  apply andb_prop in Ec as ((Ec1 & Ec2)%andb_prop & Ec3%bool_decide_eq_true). apply Z.eqb_eq in Ec2. rewrite (b_holes _ _ _ _ _ Hb) in Ec3.
  apply fmap_nil_inv in Ec3. assert (Hwn := b_window _ _ _ _ _ Hb). assert (Hch := chain_le _ _ _ (b_chain _ _ _ _ _ Hb)).
  rewrite Ec2, Hrc, seq_lt in Ec1 by (span; near). apply Z.ltb_lt in Ec1.
  assert (Hb0 : board U K M [] s1).
  { rewrite Ec3 in Hb. destruct Hb. split; try done; cbn; lia. }
  assert (Hroom : (snd_numholes s1 < tcp_sack_maxholes cfg ∧ globalholes s1 < tcp_sack_globalmaxholes cfg) ∨
    tcp_sack_maxholes cfg <= snd_numholes s1 ∨ tcp_sack_globalmaxholes cfg <= globalholes s1) by lia.
  destruct Hroom as [(Hr1 & Hr2)|Hfull].
  - rewrite Ec2, Hrc. rewrite (bind_run _ _ _ _ _ (append_run cfg s1 K Rc [] (b_holes _ _ _ _ _ Hb0) Hr1 Hr2)).
    cbv beta iota. eexists Rc, _, _. split; [reflexivity|]. split; [|split; [|split; [done|]]].
    + split; try done. cbn [app]. apply (board_append cfg U K M [] s1 _ Rc Rc); try done; try lia.
    + right. cbn. lia.
    + intros B x Hx HKx _. assert (Hxm : x < M) by (rewrite Ec3 in Hx; destruct Hx as [Hx|Hx]; [by apply covered_nil in Hx|lia]).
      destruct (Z.lt_ge_cases x Rc); [left|right; lia]. cbn. apply covered_cons. left. cbn. lia.
  - rewrite (bind_run _ _ _ _ _ (insert_full cfg s1 _ _ _ Hfull)). exists F, A, s1. split_and!; [done..|intros; apply stays_refl].
Qed.

(** [snd_una] advances to [K]; the other fields stay. *)
Definition others (s : sndcb) :=
  (snd_max s, snd_fack s, holes_part s, (max_sndwnd s, snd_cwnd s, snd_ssthresh s, t_maxseg s)).

Lemma sender_advance U F M A N Rc K s s' : sender U F M A N Rc s → U <= K <= M → above K F A →
  snd_una s' = u32 K → snd_recover s' = u32 (Z.max Rc K) → snd_nxt s' = u32 (Z.max N K) →
  0 <= snd_wnd s' → others s' = others s →
  sender K (if bool_decide (A = []) then K else F) M A (Z.max N K) (Z.max Rc K) s'.
Proof.
  intros [Hb Hn HN Hrc HR Hw Hmw Hcw Hth Hsg] HK Hab Eu Er En Ew E. injection E as E1 E2 E3 E4 E5 E6 E7 E8 E9 E10 E11 E12.
  split; try congruence; try (span; lia). destruct Hb. split; try congruence.
  - intros Hne. rewrite E2, bool_decide_false by done. by apply b_fack.
  - case_bool_decide as EA; [rewrite EA; cbn; lia|]. by destruct Hab.
  - case_bool_decide; lia.
  - by rewrite E7.
Qed.

Lemma advance_una_run U F M A N Rc cc K s : sender U F M A N Rc s → U <= K <= M → above K F A →
  ∃ F' N' Rc' s', advance_una cfg cc (u32 K) s = Ret (tt, s') ∧ sender K F' M A N' Rc' s' ∧ ∀ B, stays K B M A F M A F'.
Proof.
  intros Hs HK Hab. assert (Hs' := Hs). destruct Hs' as [Hb Hn HN Hrc HR _ _ _ _ _]. assert (Hwn := b_window _ _ _ _ _ Hb).
  assert (Hch := chain_le _ _ _ (b_chain _ _ _ _ _ Hb)). assert (Hu := b_una _ _ _ _ _ Hb).
  unfold advance_una. rewrite get_run. rewrite Hu, Hrc, seq_gt, seq_leq, (seq_geq K U) by (span; near).
  rewrite (proj2 (Z.leb_le U K)) by lia. rewrite (bind_run skip _ s tt s eq_refl), modify_run. set (s0 := s <| snd_wnd := _ |>).
  assert (Hs0 : sender U F M A N Rc s0) by (destruct Hs as [[]]; split; try done; try (by split); apply Z.mod_pos_bound; lia).
  replace (negb (in_recovery s) && (Rc <? U) && (K <=? Rc)) with false by (destruct (in_recovery s), (Z.ltb_spec Rc U), (Z.leb_spec K Rc); try done; lia).
  rewrite (bind_run skip _ s0 tt s0 eq_refl : (when false _ ≫= _) s0 = _).
  assert (∃ s1, (∀ X (k : unit → SND X), (when (in_recovery s && SEQ_GEQ (u32 K) (u32 Rc)) EXIT_FASTRECOVERY ≫= k) s0 = k tt s1) ∧
    holes_part s1 = holes_part s ∧ sender U F M A N Rc s1) as (s1 & E & P & Hs1).
  { destruct (_ && _); [|by exists s0]. destruct (exit_run s0) as (s1 & E & P & _ & _ & _ & H). exists s1. split; [|split; [done|by apply H]].
    intros. by rewrite (bind_run _ _ _ _ _ E). }
  rewrite E. clear E.
  assert (∃ s2, tcp_update_snd_una (u32 K) s1 = Ret (tt, s2) ∧ snd_una s2 = u32 K ∧ snd_nxt s2 = snd_nxt s1 ∧ snd_recover s2 = snd_recover s1 ∧ snd_wnd s2 = snd_wnd s1 ∧ others s2 = others s1)
    as (s2 & E2 & Eu & En & Er & Ew & Eo).
  { unfold tcp_update_snd_una. rewrite modify_run. eexists. split; [done|]. by destruct (SEQ_LT _ _). }
  rewrite (bind_run _ _ _ _ _ E2), modify_run, modify_run, get_run. set (s3 := if SEQ_GT (snd_una s2) (snd_recover s2) then _ else _).
  set (s4 := if SEQ_LT (snd_nxt s3) (snd_una s3) then _ else _).
  assert (Hs4 : sender K (if bool_decide (A = []) then K else F) M A (Z.max N K) (Z.max Rc K) s4).
  { assert (E3 : snd_una s3 = u32 K ∧ snd_recover s3 = u32 (Z.max Rc K) ∧ snd_nxt s3 = u32 N ∧ 0 <= snd_wnd s3 ∧ others s3 = others s1).
    { destruct Hs1 as [_ Hn1 _ Hrc1 _ Hw1 _ _ _ _]. rewrite <- Ew in Hw1. unfold s3. rewrite Eu, Er, Hrc1, seq_gt by (span; near).
      destruct (Z.ltb_spec Rc K); [rewrite Z.max_r by lia|rewrite Z.max_l by lia]; split_and!; try done; (congruence || (cbn; congruence)). }
    destruct E3 as (Eu3 & Er3 & En3 & Ew3 & Eo3). apply (sender_advance U F M A N Rc K s1); try done; unfold s4;
      rewrite Eu3, En3, seq_lt by (span; near); (destruct (Z.ltb_spec N K); [rewrite ?Z.max_r by lia|rewrite ?(Z.max_l N) by lia]); done. }
  assert (Hst : ∀ B, stays K B M A F M A (if bool_decide (A = []) then K else F)).
  { intros B x Hx HKx _. case_bool_decide as EA; [|done]. right. rewrite EA in Hx. destruct Hx as [Hx|Hx]; [by apply covered_nil in Hx|lia]. }
  destruct (_ && _).
  - eexists _, _, _, _. split; [reflexivity|]. split; [by apply (sender_view _ _ _ _ _ _ s4)|done].
  - eexists _, _, _, s4. split; [reflexivity|done].
Qed.

Lemma enter_run s : ∃ s', ENTER_FASTRECOVERY s = Ret (tt, s') ∧ sack_bytes_acked s' = sack_bytes_acked s ∧ snd_max s' = snd_max s ∧ snd_una s' = snd_una s ∧
  (∀ U F M A N Rc, sender U F M A N Rc s → sender U F M A N Rc s').
Proof.
  unfold ENTER_FASTRECOVERY. rewrite get_run, modify_run. destruct (negb _); eexists; (split; [reflexivity|]); split_and!; try done;
    intros U F M A N Rc [[]]; by split.
Qed.

(** The arguments of an acknowledgement that can be: octets of an option of at
    most four blocks; a [FIN] that was sent is not yet acknowledged, and none was
    sent in the state ESTABLISHED. *)
Definition ack_ok (a : ack_args) (s : sndcb) : Prop :=
  0 <= th_ack a < 2 ^ 32 ∧ bytes_ok (a_sacks a) ∧ (8 * a_nsacks a <= length (a_sacks a))%nat ∧ (a_nsacks a <= TCP_MAX_SACK)%nat ∧
  Forall output_ok (outputs a) ∧ (sentfin a = true → snd_una s ≠ snd_max s) ∧ (adv_dup a = true → sentfin a = false).

Lemma dupack_run U F M A N Rc a s : sender U F M A N Rc s → (sentfin a = true → snd_una s ≠ snd_max s) →
  ∃ A' Rc' s', process_dupack cfg a s = Ret (tt, s') ∧ sender U F M A' N Rc' s' ∧ holes_iv A' = holes_iv A.
Proof.
  intros Hs Hfin. unfold process_dupack. rewrite modify_run. set (s1 := s <| sack_bytes_acked := _ |>).
  assert (Hs1 : sender U F M A N Rc s1) by (by apply (sender_view _ _ _ _ _ _ s)). unfold dupack_lost.
  destruct (tcp_do_better_lr cfg); [|by exists A, Rc, s1]. cbn [when]. rewrite modify_run, get_run. set (s2 := s1 <| t_new_dupacks := _ |>).
  assert (Hs2 : sender U F M A N Rc s2) by (by apply (sender_view _ _ _ _ _ _ s1)).
  destruct (_ && _); [|by exists A, Rc, s2]. cbn [when]. destruct (lost_run U F M A N Rc s2 Hs2) as (s3 & E & Hs3 & _).
  rewrite (bind_run _ _ _ _ _ E). destruct (enter_run s3) as (s4 & E4 & _ & _ & _ & H4). rewrite (bind_run _ _ _ _ _ E4).
  apply H4 in Hs3. clear H4. destruct Hs as [Hb0 _ HN0 _ HR0 _ _ _ _ _]. destruct Hs3 as [Hb Hn HN Hrc HR Hw Hmw Hcw Hth Hsg].
  assert (Eiv : holes_iv (fresh <$> A) = holes_iv A) by (unfold holes_iv; rewrite <- list_fmap_compose; by apply list_fmap_ext).
  exists (fresh <$> A). assert (Hm := b_max _ _ _ _ _ Hb).
  destruct (sentfin a).
  - exists (M - 1). eexists. split; [reflexivity|]. assert (U < M).
    { specialize (Hfin eq_refl). rewrite (b_una _ _ _ _ _ Hb0), (b_max _ _ _ _ _ Hb0) in Hfin.
      destruct (decide (U = M)) as [E'|]; [by rewrite E' in Hfin|lia]. }
    split; [|done]. destruct Hb. split; try done; [|cbn; lia]. cbn. rewrite Hm. unfold u32. by rewrite Zminus_mod_idemp_l.
  - exists M. eexists. split; [reflexivity|]. split; [|done]. destruct Hb. split; try done. lia.
Qed.

Lemma recovery_run U F M A N Rc K a s : sender U F M A N Rc s → th_ack a = u32 K → U <= K <= M → above K F A → 0 <= sack_bytes_acked s →
  Forall output_ok (outputs a) → tcp_sack_maxholes cfg <= 32767 →
  ∃ F' M' A' N' s', ack_recovery cfg a s = Ret (tt, s') ∧ sender U F' M' A' N' Rc s' ∧ M <= M' ∧ above K F' A' ∧
    ∀ B, stays K B M A F M' A' F'.
Proof.
  intros Hs Eack HK Hab Ha Hos Hmax. unfold ack_recovery. rewrite get_run, Eack.
  assert (Hsame : ∀ s', sender U F M A N Rc s' → ∃ F' M' A' N' s'', Ret (tt, s') = Ret (tt, s'') ∧ sender U F' M' A' N' Rc s'' ∧ M <= M' ∧ above K F' A' ∧
    ∀ B, stays K B M A F M' A' F').
  { intros s' Hs'. exists F, M, A, N, s'. split_and!; [done..|lia|done|]. intros B. apply stays_refl. }
  destruct (in_recovery s).
  - destruct (SEQ_LT _ _); [destruct (ece a); [by apply Hsame|]|].
    + destruct (partialack_run U F M A N Rc K s Hs Ha HK Hab Hmax) as (F1 & A1 & s1 & E & Hs1 & Hab1 & B1 & Hst1). rewrite (bind_run _ _ _ _ _ E).
      destruct (tcp_output_run U F1 Rc (outputs a) M A1 N s1 Hs1) as (s2 & E2 & M2 & A2 & N2 & Hs2 & HM2 & HA2 & _); [by rewrite B1|done|].
      exists F1, M2, A2, N2, s2. split_and!; [exact E2|done..| |].
      * unfold above in *. rewrite HA2. destruct Hab1 as [->|Hab1]; [left|by right]. by apply fmap_nil_inv in HA2.
      * intros B. eapply stays_trans; [apply Hst1|by apply stays_same].
    + destruct (exit_run s) as (s1 & E & _ & _ & _ & _ & H). rewrite E. by apply Hsame, H.
  - destruct (Z.land _ _ =? _).
    + destruct (_ || _); [|by apply Hsame]. cbn [when]. rewrite modify_run. set (s1 := s <| snd_flagsext := _ |>).
      destruct (exit_run s1) as (s2 & E & _ & _ & _ & _ & H). rewrite E. apply Hsame, H. by apply (sender_view _ _ _ _ _ _ s).
    + apply Hsame. by apply (sender_view _ _ _ _ _ _ s).
Qed.

Lemma ack_range U M W a : 0 <= a < 2 ^ 32 → U <= M <= U + SPAN → 0 <= W <= SPAN →
  SEQ_GT a (u32 M) = false → SEQ_LT a (u32 (u32 U - W)) = false → U - SPAN <= unwrap U a <= M.
Proof.
  intros Ha HM HW. unfold SEQ_GT, SEQ_LT, unwrap, s32, u32. rewrite !Z.ltb_ge. span. change (2 ^ 32) with 4294967296 in *. zlia.
Qed.

Definition well_formed (s : sndcb) : Prop := ∃ U F M A N Rc, sender U F M A N Rc s.

(** The scoreboard takes the acknowledgement in. *)
Lemma doack_part U F M A N Rc K n sacks l s : sender U F M A N Rc s → U - SPAN <= K <= M → newbytes_acked s = 0 →
  tcp_sack_maxholes cfg <= 32767 → bytes_ok sacks → (8 * n <= length sacks)%nat → (n <= TCP_MAX_SACK)%nat → read_sacks n sacks = Ret l →
  ∃ F' A' s', (∀ X (k : unit → SND X),
      (when ((0 <? n)%nat || negb (bool_decide (snd_holes s = []))) (tcp_sack_doack cfg (u32 K) n sacks) ≫= k) s = k tt s') ∧
    sender U F' M A' N Rc s' ∧ sack_bytes_acked s' = sack_bytes_acked s ∧ (U < K → above K F' A') ∧
    stays K (unwrap_blk U <$> l) M A F M A' F'.
Proof.
  intros Hs HK Hnew Hmax Hby Hl Hn Hrd. assert (Hs' := Hs). destruct Hs' as [Hb Hnx HN Hrc HR Hw Hmw Hcw Hth Hsg].
  destruct ((0 <? n)%nat || _) eqn:Ed.
  - destruct (doack_run cfg U K M HK Hmax F A s n sacks Hb Hby Hl Hn) as (blks & A' & F' & s' & Eb & E & Hak); [rewrite Hnew; lia|].
    rewrite Hrd in Eb. injection Eb as <-.
    exists F', A', s'. split; [intros; cbn [when]; by rewrite (bind_run _ _ _ _ _ E)|].
    assert (Hak' := Hak). destruct Hak' as [Hb' Hk _ Hleft _ _]. injection Hk as E1 E2 E3 E4 E5 E6 E7 E8 E9 E10 E11 E12 E13.
    split; [split; try congruence; try lia|]. split; [done|]. split.
    + intros HUK. apply (acknowledged_above U K M F A l s A' F' s'); [done|lia|done|done].
    + intros x Hx HKx Hn'. apply Hleft.
      * destruct Hx as [Hx|Hx]; [by left|right]. assert (Hch := chain_le _ _ _ (b_chain _ _ _ _ _ Hb)). unfold fack_of. destruct (bool_decide (A = [])); lia.
      * intros (b & Hin & Hc). apply Hn'. unfold reported in Hin. apply elem_of_app in Hin as [Hin|Hin].
        -- destruct ((U <? K) && _); [|by apply elem_of_nil in Hin]. apply list_elem_of_singleton in Hin as ->. cbn in Hc. lia.
        -- apply list_elem_of_filter in Hin as (_ & Hin). by exists b.
  - exists F, A, s. split; [done|]. split; [done|]. split; [done|]. split; [|apply stays_refl]. intros _. left.
    apply orb_false_elim in Ed as (_ & Ed%negb_false_iff%bool_decide_eq_true). rewrite (b_holes _ _ _ _ _ Hb) in Ed. by apply fmap_nil_inv in Ed.
Qed.

Lemma dsack_part U F M A N Rc ack n sacks l s : sender U F M A N Rc s → bytes_ok sacks → (8 * n <= length sacks)%nat → (n <= TCP_MAX_SACK)%nat →
  read_sacks n sacks = Ret l →
  ∃ rd n' sacks' l' s', (∀ X (k : bool * (nat * bytes) → SND X),
      ((if (0 <? n)%nat then tcp_sack_process_dsack cfg ack n sacks else mret (false, (n, sacks))) ≫= k) s = k (rd, (n', sacks')) s') ∧
    sender U F M A N Rc s' ∧ sack_bytes_acked s' = sack_bytes_acked s ∧ newbytes_acked s' = newbytes_acked s ∧
    bytes_ok sacks' ∧ (8 * n' <= length sacks')%nat ∧ (n' <= TCP_MAX_SACK)%nat ∧ read_sacks n' sacks' = Ret l' ∧ l' ⊆ l.
Proof.
  intros Hs Hby Hl Hn Hrd. destruct (Nat.ltb_spec 0 n); [|by exists false, n, sacks, l, s].
  destruct (dsack_run ack n sacks s Hby Hl ltac:(lia)) as (rd & n' & sacks' & s2 & E & V & B & Nb & Hcase).
  assert (Hrd' : ∃ l', read_sacks n' sacks' = Ret l' ∧ l' ⊆ l).
  { destruct Hcase as [(-> & ->)|(-> & ->)]; [by exists l|]. destruct n as [|n]; [lia|]. cbn [read_sacks] in Hrd. replace (S n - 1)%nat with n by lia.
    destruct (of_opt (rd32 sacks 0)); [|done..]. destruct (of_opt (rd32 sacks 4)); [|done..]. cbn in Hrd.
    destruct (read_sacks n (drop 8 sacks)) as [l'| |]; [|done..]. injection Hrd as <-. exists l'. split; [done|]. set_solver. }
  destruct Hrd' as (l' & El' & Hsub).
  exists rd, n', sacks', l', s2. split; [intros; by rewrite (bind_run _ _ _ _ _ E)|]. split; [by apply (sender_view _ _ _ _ _ _ s)|].
  split; [done|]. split; [done|]. destruct Hcase as [(-> & ->)|(-> & ->)]; [done|]. split; [by apply Forall_drop|].
  rewrite length_drop. split_and!; [lia|lia|done|done].
Qed.

(** The sender [s'] after the acknowledgement [K] with the blocks [B]. *)
Definition acked (K : Z) (B : list (Z * Z)) (U F M : Z) (A : list sackhole) (s' : sndcb) : Prop :=
  ∃ U' F' M' A' N' Rc', sender U' F' M' A' N' Rc' s' ∧ (U' = U ∨ U < K ∧ U' = K) ∧ M <= M' ∧ stays U' B M A F M' A' F'.

Lemma acked_wf K B U F M A s' : acked K B U F M A s' → well_formed s'.
Proof. intros (U' & F' & M' & A' & N' & Rc' & Hs & _). by exists U', F', M', A', N', Rc'. Qed.

Lemma input_ack_run U F M A N Rc a l s : sender U F M A N Rc s → ack_ok a s → 0 <= sack_bytes_acked s → tcp_sack_maxholes cfg <= 32767 →
  read_sacks (a_nsacks a) (a_sacks a) = Ret l →
  ∃ r s', tcp_input_ack cfg a s = Ret (r, s') ∧ acked (unwrap U (th_ack a)) (unwrap_blk U <$> l) U F M A s'.
Proof.
  intros Hs (Hack & Hby & Hl & Hn & Hos & Hfin & Hadv) Ha Hmax Hrd. assert (Hs' := Hs). destruct Hs' as [Hb _ HN _ HR _ Hmw _ _ _].
  assert (Hw := b_window _ _ _ _ _ Hb). assert (Hch := chain_le _ _ _ (b_chain _ _ _ _ _ Hb)).
  assert (Hsame : ∀ K B s', sender U F M A N Rc s' → acked K B U F M A s').
  { intros K B s' Hs'. exists U, F, M, A, N, Rc. split_and!; [done|by left|lia|apply stays_refl]. }
  unfold tcp_input_ack. rewrite get_run, (b_una _ _ _ _ _ Hb), (b_max _ _ _ _ _ Hb).
  destruct (SEQ_GT (th_ack a) (u32 M)) eqn:E1; [exists true, s; split; [done|by apply Hsame]|].
  destruct (SEQ_LT (th_ack a) _) eqn:E2; [exists true, s; split; [done|by apply Hsame]|].
  assert (HK := ack_range U M (max_sndwnd s) (th_ack a) Hack ltac:(lia) ltac:(unfold WMAX in *; span; lia) E1 E2).
  assert (EK := unwrap_u32 U (th_ack a) Hack). set (K := unwrap U (th_ack a)) in *. rewrite <- EK. rewrite modify_run.
  set (s1 := _ <| after_rexmit_acked := 0 |>). assert (Hs1 : sender U F M A N Rc s1) by (by apply (sender_view _ _ _ _ _ _ s)).
  destruct (dsack_part U F M A N Rc (u32 K) (a_nsacks a) (a_sacks a) l s1 Hs1 Hby Hl Hn Hrd)
    as (rd & n & sacks & l2 & s2 & E & Hs2 & B2 & N2 & Hby2 & Hl2 & Hn2 & Hrd2 & Hsub).
  rewrite E. clear E. cbv beta iota. destruct (_ && (n =? 0)%nat); [exists true, s2; split; [done|by apply Hsame]|]. rewrite get_run.
  destruct (doack_part U F M A N Rc K n sacks l2 s2 Hs2 HK N2 Hmax Hby2 Hl2 Hn2 Hrd2) as (F3 & A3 & s3 & E3 & Hs3 & B3 & Hab & Hst3).
  apply (stays_less _ (unwrap_blk U <$> l)) in Hst3; [|intros b (x & -> & Hx)%list_elem_of_fmap; by apply list_elem_of_fmap_2, Hsub]. rewrite E3, get_run.
  rewrite (b_una _ _ _ _ _ (s_board _ _ _ _ _ _ _ Hs3)), seq_leq by (span; near). destruct (Z.leb_spec K U) as [HKU|HKU].
  - assert (Hst : stays U (unwrap_blk U <$> l) M A F M A3 F3) by (intros x Hx Hxu Hxb; apply Hst3; [done|lia|done]). destruct (dup a).
    + destruct (dupack_run U F3 M A3 N Rc a s3 Hs3) as (A4 & Rc4 & s4 & E4 & Hs4 & Hiv).
      { intros Hf. specialize (Hfin Hf). rewrite (b_una _ _ _ _ _ Hb), (b_max _ _ _ _ _ Hb) in Hfin. destruct Hs3 as [Hb3 _ _ _ _ _ _ _ _ _].
        by rewrite (b_una _ _ _ _ _ Hb3), (b_max _ _ _ _ _ Hb3). }
      exists false, s4. cbn [when]. rewrite (bind_run _ _ _ _ _ E4). split; [done|]. exists U, F3, M, A4, N, Rc4. split_and!; [done|by left|lia|].
      eapply stays_trans; [done|]. by apply stays_same.
    + exists false, s3. split; [done|]. exists U, F3, M, A3, N, Rc. split_and!; [done|by left|lia|done].
  - destruct (recovery_run U F3 M A3 N Rc K a s3 Hs3) as (F4 & M4 & A4 & N4 & s4 & E4 & Hs4 & HM4 & Hab4 & Hst4); try done.
    { lia. } { by apply Hab. } { by rewrite B3, B2. }
    destruct (advance_una_run U F4 M4 A4 N4 Rc (a_cc a) K s4 Hs4 ltac:(lia) Hab4) as (F5 & N5 & Rc5 & s5 & E5 & Hs5 & Hst5).
    assert (Hst : stays K (unwrap_blk U <$> l) M A F M4 A4 F5) by (eapply stays_trans; [done|]; eapply stays_trans; [apply Hst4|apply Hst5]).
    set (m := ack_recovery cfg a ≫= _).
    assert (Hw2 : ∃ A6 Rc6 s6, m s3 = Ret (tt, s6) ∧ sender K F5 M4 A6 N5 Rc6 s6 ∧ holes_iv A6 = holes_iv A4).
    { unfold m. rewrite (bind_run _ _ _ _ _ E4), (bind_run _ _ _ _ _ E5), get_run. destruct (adv_dup a); [|by exists A4, Rc5, s5].
      destruct (true && _ && _ && _); [|by exists A4, Rc5, s5]. by apply (dupack_run K F5 M4 A4 N5 Rc5); [|rewrite Hadv]. }
    destruct Hw2 as (A6 & Rc6 & s6 & E6 & Hs6 & Hiv). exists false, s6. split; [by rewrite (bind_run _ _ _ _ _ E6)|].
    exists K, F5, M4, A6, N5, Rc6. split_and!; [done|by right|done|]. eapply stays_trans; [done|]. by apply stays_same.
Qed.
End operations.
