(* ===== verification/TcpSender.v ===== *)
(** * TcpSender: the sender of an established connection

    The events of a sender ([TcpSack]): acknowledgements with arbitrary SACK
    options, output, the retransmission timer, the begin of a recovery, new
    windows. Whatever comes, in whatever order, no VERIFY fails and no pointer
    dangles, and the hint that [tcp_sack_output] caches is what a walk over the
    scoreboard finds. *)

From S2P Require Import Prelude TcpSeq TcpReass TcpOpt TcpSack TcpSackFun TcpSackOps.

(** The segment of an acknowledgement has the options [cp]. *)
Inductive event :=
  | Ack (cp : bytes) (ts_offset : Z) (a : ack_args)
  | Output (os : list output_args)
  | Timeout
  | Recover (fin : bool)
  | Window (th_win snd_scale : Z)
  | Congestion (cwnd ssthresh : Z)
  | Islost.

Definition no_options : tcpopt := Tcpopt 0 0 0 0 0 0 [] [] false.
(** The blocks of the SACK option. *)
Definition with_options (to : tcpopt) (a : ack_args) : ack_args := a <| a_nsacks := Z.to_nat (to_nsacks to) |> <| a_sacks := to_sacks to |>.

Section events.
Context (cfg : settings).

Definition on_event (e : event) : SND unit :=
  match e with
  | Ack cp ts_offset a =>
      to ← lift (tcp_dooptions false TCPS_ESTABLISHED ts_offset cp (Z.of_nat (length cp)) no_options);
      _ ← tcp_input_ack cfg (with_options to a);
      skip
  | Output os => tcp_output cfg os
  | Timeout => rexmt_timeout
  | Recover fin => begin_recovery cfg fin
  | Window win scale => update_window win scale
  | Congestion cwnd ssthresh => modify (λ s, s <| snd_cwnd := cwnd |> <| snd_ssthresh := ssthresh |>)
  | Islost => s ← get; _ ← tcp_sack_byte_islost true (in_recovery s); skip
  end.

(** The inputs that can be: at most 40 octets of options, whatever they are. A
    [FIN] that was sent is not yet acknowledged when duplicates come, and none
    was sent in the state ESTABLISHED; the counter of SACKed octets has not
    overflowed. *)
Definition event_ok (e : event) (s : sndcb) : Prop :=
  0 <= sack_bytes_acked s ∧
  match e with
  | Ack cp _ a => bytes_ok cp ∧ (length cp <= 40)%nat ∧ 0 <= th_ack a < 2 ^ 32 ∧ Forall output_ok (outputs a) ∧
      (sentfin a = true → snd_una s ≠ snd_max s) ∧ (adv_dup a = true → sentfin a = false)
  | Output os => Forall output_ok os
  | Recover fin => fin = true → snd_una s ≠ snd_max s
  | Window win scale => 0 <= win < 2 ^ 16 ∧ 0 <= scale <= 14
  | Congestion cwnd ssthresh => 0 <= cwnd ∧ 0 <= ssthresh
  | _ => True
  end.

(** A connection that was just established. *)
Definition initial (s : sndcb) : Prop :=
  snd_holes s = [] ∧ snd_numholes s = 0 ∧ nexthole s = None ∧ sack_bytes_rexmit s = 0 ∧
  0 <= snd_una s < 2 ^ 32 ∧ snd_nxt s = snd_una s ∧ snd_max s = snd_una s ∧
  (snd_recover s = snd_una s ∨ snd_recover s = u32 (snd_una s - 1)) ∧
  0 <= snd_wnd s <= WMAX ∧ 0 <= max_sndwnd s <= WMAX ∧ 0 <= snd_cwnd s ∧ 0 <= snd_ssthresh s ∧ 0 < t_maxseg s.

Inductive reachable : sndcb → Prop :=
  | r_init s : initial s → reachable s
  | r_step s e s' : reachable s → event_ok e s → on_event e s = Ret (tt, s') → reachable s'.

(** ** Every event keeps the sender well formed *)

Lemma initial_wf s : initial s → well_formed s.
Proof.
  intros (Hh & Hn & Hx & Hr & Hu & En & Em & Hrc & Hw & Hmw & Hcw & Hth & Hsg). set (U := snd_una s).
  assert (Hb : board U U U [] s).
  { split; rewrite ?Hh, ?Hn, ?Hx, ?Hr, ?Em, ?u32_id; try done; try constructor; try (span; lia). cbn. lia. }
  destruct Hrc as [Hrc|Hrc]; [exists U, U, U, [], U, U|exists U, U, U, [], U, (U - 1)];
    split; try done; try (span; lia); rewrite ?En, ?Hrc, ?u32_id; done.
Qed.

Lemma holes_sum A lo hi n : chain lo hi (holes_iv A) → 0 <= n → n + (hi - lo) < 2 ^ 32 →
  foldl (λ n h, u32 (n + u32 (h_end h - h_start h))) n (normh <$> A) = n + measure (holes_iv A).
Proof.
  revert lo n. induction A as [|h A IH]; intros lo n Hc Hn Hs; [cbn; lia|]. cbn [holes_iv fmap list_fmap chain] in Hc.
  destruct Hc as (H1 & H2 & Hc). assert (Hle := chain_le _ _ _ Hc). cbn [hole_iv fst snd] in *.
  cbn [fmap list_fmap foldl]. change (list_fmap _ _ normh A) with (normh <$> A). cbn [normh h_end h_start].
  rewrite u32_sub, (u32_id (h_end h - h_start h)), u32_id by lia. rewrite (IH (h_end h)) by (done || lia). cbn. unfold holes_iv, measure. lia.
Qed.

(** The holes are never more than what is outstanding. *)
Lemma islost_run U F M A s on rec : board U F M A s →
  ∃ b, tcp_sack_byte_islost on rec s = Ret (b, s) ∧
    (on = true → rec = false → A ≠ [] → flagged (snd_flagsext s) TF_PKTS_REORDERED = false →
     b = ((tcprexmtthresh - 1) * t_maxseg s <? M - U - measure (holes_iv A))).
Proof.
  intros Hb. assert (Hbb := Hb). destruct Hbb. unfold tcp_sack_byte_islost. rewrite get_run. destruct (_ || _) eqn:Ec.
  - exists false. split; [done|]. intros -> -> Hne Hfl. rewrite Hfl, b_holes in Ec. cbn in Ec. rewrite orb_false_r in Ec.
    apply bool_decide_eq_true in Ec. by apply fmap_nil_inv in Ec.
  - assert (Hle := chain_le _ _ _ b_chain). assert (Hm := chain_measure _ _ _ b_chain). cbv zeta.
    rewrite b_holes, b_max, b_una, (holes_sum A U F) by (done || (span; lia)). rewrite u32_sub, u32_id by (span; lia).
    rewrite (proj2 (Z.ltb_ge _ _)) by lia. eexists. split; [done|]. intros. done.
Qed.

(** The options of a segment have at most four blocks. *)
Lemma options_run cp off a s : bytes_ok cp → (length cp <= 40)%nat → 0 <= th_ack a < 2 ^ 32 → Forall output_ok (outputs a) →
  (sentfin a = true → snd_una s ≠ snd_max s) → (adv_dup a = true → sentfin a = false) →
  ∃ to l, tcp_dooptions false TCPS_ESTABLISHED off cp (Z.of_nat (length cp)) no_options = Ret to ∧ ack_ok (with_options to a) s ∧
    read_sacks (Z.to_nat (to_nsacks to)) (to_sacks to) = Ret l.
Proof.
  intros Hb Hl Ha Ho Hf Hadv. destruct (options_loop_run false TCPS_ESTABLISHED off 40 (Z.to_nat (Z.of_nat (length cp))) cp (Z.of_nat (length cp)) no_options Hb)
    as (to & E & Hs & Hn & H8 & Hlim); [lia|lia|lia|by split_and!|].
  destruct (read_sacks_run (Z.to_nat (to_nsacks to)) (to_sacks to) Hs) as (l & El & _); [lia|].
  exists to, l. split; [done|]. split; [|done]. unfold ack_ok, with_options, TCP_MAX_SACK. cbn. split_and!; try done; lia.
Qed.

Lemma recover_run fin s : (fin = true → snd_una s ≠ snd_max s) → well_formed s →
  ∃ s', begin_recovery cfg fin s = Ret (tt, s') ∧ well_formed s'.
Proof.
  intros Hfin (U & F & M & A & N & Rc & [Hb Hn HN Hrc HR Hw Hmw Hcw Hth Hsg]). unfold begin_recovery. rewrite modify_run.
  set (Rc' := if fin then M - 1 else M). set (s1 := s <| snd_recover := _ |>). assert (HUM : U <= M) by lia.
  assert (Hs1 : sender U F M A N Rc' s1).
  { destruct Hb. split; try done; unfold Rc', s1; cbn.
    - rewrite b_max. destruct fin; [|done]. unfold u32. by rewrite Zminus_mod_idemp_l.
    - span. destruct fin; lia. }
  destruct (enter_run s1) as (s2 & E & _ & _ & _ & H). rewrite (bind_run _ _ _ _ _ E). eexists. split; [reflexivity|].
  exists U, F, M, A, N, Rc'. apply H in Hs1. destruct Hs1 as [Hb2 Hn2 HN2 Hrc2 HR2 Hw2 Hmw2 Hcw2 Hth2 Hsg2]. destruct Hb2.
  split; try done. cbn. by destruct (tcp_do_better_lr cfg).
Qed.

Context (Hmax : tcp_sack_maxholes cfg <= 32767).

Lemma handle_run e s : well_formed s → event_ok e s → ∃ s', on_event e s = Ret (tt, s') ∧ well_formed s'.
Proof.
  intros Hwf (Ha & He). assert (Hwf' := Hwf). destruct Hwf' as (U & F & M & A & N & Rc & Hs). destruct e; cbn [on_event].
  - destruct He as (Hb & Hl & Hack & Hos & Hf & Hadv). destruct (options_run cp ts_offset a s Hb Hl Hack Hos Hf Hadv) as (to & l & Eo & Hok & El).
    destruct (input_ack_run cfg U F M A N Rc _ l s Hs Hok Ha Hmax El) as (r & s' & E & Hw). exists s'.
    rewrite (lift_run _ _ _ _ Eo), (bind_run _ _ _ _ _ E). split; [done|by eapply acked_wf].
  - destruct (tcp_output_run cfg U F Rc os M A N s Hs Ha He) as (s' & E & M' & A' & N' & Hs' & _). exists s'.
    split; [done|]. by exists U, F, M', A', N', Rc.
  - destruct (timeout_run U F M A N Rc s Hs) as (s' & E & Hs'). exists s'. split; [done|]. by exists U, U, M, [], U, M.
  - by apply recover_run.
  - destruct He as (Hw & Hsc). unfold update_window. rewrite modify_run. eexists. split; [reflexivity|].
    exists U, F, M, A, N, Rc. destruct Hs as [[] Hn HN Hrc HR Hwn Hmw Hcw Hth Hsg].
    assert (Hsh : 0 <= Z.shiftl th_win snd_scale <= WMAX).
    { rewrite Z.shiftl_mul_pow2 by lia. unfold WMAX. change (2 ^ 16) with 65536 in Hw. change (2 ^ 14) with 16384.
      assert (1 <= 2 ^ snd_scale <= 16384) by (split; [lia|]; change 16384 with (2 ^ 14); apply Z.pow_le_mono_r; lia). nia. }
    destruct (_ <? _); (split; [by split|..]); (done || exact (proj1 Hsh)).
  - destruct He as (Hc & Ht). eexists. split; [reflexivity|]. exists U, F, M, A, N, Rc. destruct Hs as [[] Hn HN Hrc HR Hwn Hmw Hcw Hth Hsg].
    split; [by split|..]; done.
  - rewrite get_run. destruct (islost_run U F M A s true (in_recovery s) (s_board _ _ _ _ _ _ _ Hs)) as (b & E & _).
    exists s. by rewrite (bind_run _ _ _ _ _ E).
Qed.

Lemma reachable_wf s : reachable s → well_formed s.
Proof.
  induction 1 as [s Hi|s e s' Hr IH He E]; [by apply initial_wf|].
  destruct (handle_run e s IH He) as (s1 & E1 & Hw). rewrite E1 in E. by injection E as ->.
Qed.
End events.

(** The missing octets as intervals. *)
Lemma pending_chain U F M A s : board U F M A s →
  ∃ l, chain U M l ∧ measure l = outstanding M A F ∧ ∀ x, covered x l ↔ pending M A F x.
Proof.
  intros []. unfold outstanding, pending. destruct (Z.lt_ge_cases F M).
  - exists (holes_iv A ++ [(F, M)]). split; [apply chain_app; exists F; split; [done|]; cbn; lia|]. split; [rewrite measure_app; cbn; lia|].
    intros x. rewrite covered_app, covered_cons, covered_nil. cbn. tauto.
  - exists (holes_iv A). split; [eapply chain_weaken; [done|lia|lia]|]. split; [lia|]. intros x. split; [by left|]. intros [?|?]; [done|lia].
Qed.
Lemma outstanding_sub U F M A s F' A' s' : board U F M A s → board U F' M A' s' → (∀ x, pending M A' F' x → pending M A F x) →
  0 <= outstanding M A F - outstanding M A' F' < 2 ^ 32.
Proof.
  intros Hb Hb' Hs. destruct (pending_chain _ _ _ _ _ Hb) as (l & Hc & Hm & Hl). destruct (pending_chain _ _ _ _ _ Hb') as (l' & Hc' & Hm' & Hl').
  rewrite <- Hm, <- Hm'. assert (Hsub := chain_measure_sub U M l l' Hc Hc' ltac:(intros x ?%Hl'; by apply Hl, Hs)).
  assert (H1 := chain_measure _ _ _ Hc). assert (H2 := chain_measure _ _ _ Hc'). destruct Hb. span. lia.
Qed.

(** A connection for the witnesses: nothing outstanding at 1000. *)
Definition sample_cfg : settings := Settings 50 true 128 65536 1048576.
Definition sample : sndcb :=
  Sndcb 1000 1000 1000 65535 1000 1000 0 1000 [] 0 None 0 0 0 0 0 0 320 1000 0 10000 5000 [] 0 0 0 1 0 false 65535 0 0.
Lemma sample_reachable : reachable sample_cfg sample.
Proof. apply r_init. unfold initial, WMAX. cbn. split_and!; try done; lia. Qed.

(** An acknowledgement of 1000 with one block, and a part of another option. *)
Definition sample_options : bytes := [1; 1; 5; 10] ++ be32 2000 ++ be32 3000 ++ [8].
Definition sample_ack (ack : Z) (options : bytes) : event := Ack options 0 (Ack_args ack 0 [] true false false false 3 3000 []).
Lemma sample_options_ok : bytes_ok sample_options.
Proof. unfold sample_options, be32. repeat (apply Forall_app; split); repeat constructor; vm_compute; done. Qed.
Lemma sample_ack_ok ack options s : 0 <= sack_bytes_acked s → bytes_ok options → (length options <= 40)%nat → 0 <= ack < 2 ^ 32 →
  event_ok (sample_ack ack options) s.
Proof. intros Hs Hb Hl Ha. split; [done|]. cbn. split_and!; try done; try lia. Qed.

(** Holes for the witnesses: 1000-2000, sent again up to 1500, and 3000-4000. *)
Definition sample_holes : list sackhole := [Sackhole 0 1000 2000 1500 7; Sackhole 1 3000 4000 3000 8].
Definition sample_board : sndcb :=
  sample <| snd_max := 6000 |> <| snd_nxt := 6000 |> <| snd_fack := 5000 |> <| snd_recover := 6000 |> <| snd_holes := sample_holes |>
    <| snd_numholes := 2 |> <| nexthole := Some 0 |> <| sack_bytes_rexmit := 500 |> <| zone := 2 |> <| globalholes := 2 |> <| in_recovery := true |>.
Lemma sample_board_ok : board 1000 5000 6000 sample_holes sample_board.
Proof.
  split; try done; try (vm_compute; lia).
  - repeat constructor; vm_compute; discriminate.
  - apply (bool_decide_unpack _). by vm_compute.
  - repeat constructor.
  - cbn. split_and!; [right; by repeat constructor|right; constructor|done].
  - exists [], (Sackhole 0 1000 2000 1500 7), [Sackhole 1 3000 4000 3000 8]. by split_and!.
Qed.
Lemma board_nxt U F M A n s : board U F M A s → board U F M A (s <| snd_nxt := n |>).
Proof. intros []. by split. Qed.

(** ** The properties *)

(** C26: Nothing that arrives brings the sender down. In every state that the events of an
    established connection lead to — acknowledgements with any number and any
    octets of options, output, timeouts, recoveries, windows, in whatever order — every
    further event is handled: no VERIFY fails and no freed hole is used, as long as the
    counter [sack_bytes_acked], which nothing bounds outside of a recovery, has not overflowed. *)
Theorem sender_safe (cfg : settings) (s : sndcb) (e : event) :
  tcp_sack_maxholes cfg <= 32767 → reachable cfg s → event_ok e s →
  ∃ s', on_event cfg e s = Ret (tt, s') ∧ reachable cfg s'.
Proof.
  intros Hmax Hr He. destruct (handle_run cfg Hmax e s (reachable_wf cfg Hmax s Hr) He) as (s' & E & _).
  exists s'. split; [done|]. by apply (r_step cfg s e).
Qed.
Lemma sender_safe_witness : ∃ s', on_event sample_cfg (sample_ack 1000 sample_options) sample = Ret (tt, s') ∧ reachable sample_cfg s'.
Proof.
  apply (sender_safe sample_cfg sample (sample_ack 1000 sample_options)).
  - cbn. lia.
  - apply sample_reachable.
  - apply sample_ack_ok; [done|exact sample_options_ok|vm_compute; lia|lia].
Defined.


(** C27: [tcp_sack_doack] implements the scoreboard. In unbounded sequence numbers the octets that
    the sender takes for missing are those of the holes and those from [snd_fack] to
    [snd_max]. Processing an acknowledgement with any option of at most four blocks
    leaves exactly those missing that were missing before and that neither the
    acknowledgement nor a valid block reports, as long as there is room
    for that many more holes; without room no octet that was not reported is taken for
    received. The holes stay sorted and separate, and the number of newly
    acknowledged octets is counted exactly. *)
Theorem sack_doack_correct (cfg : settings) (U K F M : Z) (A : list sackhole) (s : sndcb) (n : nat) (to_sacks : bytes) :
  tcp_sack_maxholes cfg <= 32767 → board U F M A s → U - SPAN <= K <= M → bytes_ok to_sacks → (8 * n <= length to_sacks)%nat →
  (n <= TCP_MAX_SACK)%nat → newbytes_acked s = 0 →
  ∃ sacks A' F' s', read_sacks n to_sacks = Ret sacks ∧ tcp_sack_doack cfg (u32 K) n to_sacks s = Ret (tt, s') ∧ board U F' M A' s' ∧
    (let F1 := fack_of U K F A in let B := reported U K M A sacks in
     (∀ x, pending M A' F' x → pending M A F1 x) ∧
     (∀ x, pending M A F1 x → ¬ covered x B → pending M A' F' x) ∧
     (room cfg (length B) s → ∀ x, pending M A' F' x ↔ pending M A F1 x ∧ ¬ covered x B) ∧
     newbytes_acked s' = outstanding M A F1 - outstanding M A' F').
Proof.
  intros Hmax Hb HK Hby Hl Hn Hnew.
  destruct (doack_run cfg U K M HK Hmax F A s n to_sacks Hb Hby Hl Hn ltac:(lia)) as (sacks & A' & F' & s' & Es & E & []).
  exists sacks, A', F', s'. split_and!; try done. cbv zeta. split_and!; try done.
  - intros Hr x. split; [|intros [? ?]; by apply ak_left]. intros Hx. split; [by apply ak_sub|].
    intros (b & Hin & Hc). by apply (ak_gone b Hin (or_introl Hr) x Hx).
  - rewrite ak_bytes, Hnew. apply u32_id. by eapply outstanding_sub; [apply (board_start U K M HK F A s Hb)| |].
Qed.
Lemma sack_doack_correct_witness :
  ∃ sacks A' F' s', read_sacks 1 (be32 3200 ++ be32 3600) = Ret sacks ∧
    tcp_sack_doack sample_cfg (u32 1500) 1 (be32 3200 ++ be32 3600) sample_board = Ret (tt, s') ∧ board 1000 F' 6000 A' s' ∧
    (let F1 := fack_of 1000 1500 5000 sample_holes in let B := reported 1000 1500 6000 sample_holes sacks in
     (∀ x, pending 6000 A' F' x → pending 6000 sample_holes F1 x) ∧
     (∀ x, pending 6000 sample_holes F1 x → ¬ covered x B → pending 6000 A' F' x) ∧
     (room sample_cfg (length B) sample_board → ∀ x, pending 6000 A' F' x ↔ pending 6000 sample_holes F1 x ∧ ¬ covered x B) ∧
     newbytes_acked s' = outstanding 6000 sample_holes F1 - outstanding 6000 A' F').
Proof.
  apply (sack_doack_correct sample_cfg 1000 1500 5000 6000 sample_holes sample_board 1 (be32 3200 ++ be32 3600)).
  - cbn. lia.
  - apply sample_board_ok.
  - vm_compute. split; discriminate.
  - repeat constructor; vm_compute; done.
  - vm_compute. lia.
  - vm_compute. lia.
  - done.
Defined.

(** C35: [tcp_sack_adjust] skips what was SACKed and nothing else. With holes and [snd_nxt] below
    [snd_fack], the new [snd_nxt] is the first number from the old one on that is in a
    hole, or [snd_fack] if there is none; it stays if it is before the first hole.
    No octet that it skips is missing. *)
Theorem sack_adjust_correct (U F M : Z) (A : list sackhole) (N Rc : Z) (s : sndcb) :
  sender U F M A N Rc s → A ≠ [] → N < F →
  ∃ N', tcp_sack_adjust s = Ret (tt, s <| snd_nxt := u32 N' |>) ∧ N <= N' <= F ∧ (∀ x, N <= x < N' → ¬ pending M A F x) ∧
    ((N' = N ∧ ∀ x, covered x (holes_iv A) → N < x) ∨ covered N' (holes_iv A) ∨ N' = F).
Proof.
  intros Hs HA HN. destruct (adjust_run U F M A N Rc s Hs) as (N' & E & _ & Had & _). destruct (Had HA HN) as [Hr Hsk Hh].
  exists N'. split_and!; try done; try lia. intros x Hx [Hp|Hp]; [by apply (Hsk x)|lia].
Qed.
Lemma sack_adjust_correct_witness :
  ∃ N', tcp_sack_adjust (sample_board <| snd_nxt := 2500 |>) = Ret (tt, sample_board <| snd_nxt := 2500 |> <| snd_nxt := u32 N' |>) ∧
    2500 <= N' <= 5000 ∧ (∀ x, 2500 <= x < N' → ¬ pending 6000 sample_holes 5000 x) ∧
    ((N' = 2500 ∧ ∀ x, covered x (holes_iv sample_holes) → 2500 < x) ∨ covered N' (holes_iv sample_holes) ∨ N' = 5000).
Proof.
  apply (sack_adjust_correct 1000 5000 6000 sample_holes 2500 6000); [|done|lia].
  split; [apply board_nxt, sample_board_ok|..]; try (vm_compute; split; discriminate); vm_compute; (reflexivity || discriminate).
Defined.

(** C37: When sending again fails, the number of octets sent again is wrong
    afterwards. What was lost may have been sent from more than the last
    hole; [h_rxmit] of the last hole does not go below its start, but the
    whole of [lost] is taken from [sack_bytes_rexmit]: the cached number is smaller
    than that of the walk over the scoreboard. *)
Theorem failed_rexmit_miscounted (U F M : Z) (P : list sackhole) (h : sackhole) (Q : list sackhole) (lost : Z) (s : sndcb) :
  board U F M (P ++ h :: Q) s → h_start h < h_rxmit h → Forall untouched Q →
  h_rxmit h - h_start h < lost → lost <= rexmitted (P ++ h :: Q) → U < h_rxmit h - lost →
  ∃ s', sack_rexmit_failed (h_addr h) lost s = Ret (tt, s') ∧
    sack_bytes_rexmit s' = rexmitted P - (lost - (h_rxmit h - h_start h)) ∧
    output_debug (snd_una s') (snd_holes s') 0 = (Some (h_addr h), rexmitted P).
Proof.
  intros Hb Hrx HQ Hl1 Hl2 HU. assert (Hm := board_mid _ _ _ _ _ _ _ Hb). destruct Hm as (H1 & H2 & H3 & H4 & H5 & Hr & H6 & H7 & H8).
  assert (Hbb := Hb). destruct Hbb. unfold sack_rexmit_failed. rewrite get_run, (hole_run P Q h b_addrs _ _ b_holes).
  assert (HP : Forall complete P).
  { rewrite ordered_app, Forall_cons in b_order. destruct b_order as (_ & _ & [?|(Hu & _)]); [done|]. unfold untouched in Hu. lia. }
  assert (Eq0 := rexmitted_untouched _ HQ).
  assert (Eu : u32 (u32 (h_rxmit h) - lost) = u32 (h_rxmit h - lost)) by (unfold u32; by rewrite Zminus_mod_idemp_l).
  cbn [normh h_rxmit]. rewrite Eu, b_una, seq_gt by (span; near). rewrite (proj2 (Z.ltb_lt _ _)) by lia. cbv zeta.
  set (h' := h <| h_rxmit := h_start h |>). erewrite bind_run.
  2:{ apply (set_hole_run P Q h b_addrs _ h' _ b_holes). cbn. rewrite seq_lt by (span; near). rewrite (proj2 (Z.ltb_lt _ _)) by lia. reflexivity. }
  eexists. split; [reflexivity|]. split.
  - cbn. rewrite b_bytes, rexmitted_app, rexmitted_cons, Eq0 in *. rewrite s32_id by (span; lia). lia.
  - cbn. rewrite b_una. assert (Hmid := b_chain). rewrite holes_iv_app in Hmid. apply chain_app in Hmid as (m & Hm1 & Hm2).
    rewrite (debug_run U (P ++ h' :: Q) U F 0); try done; try lia.
    + rewrite first_open_app by done. cbn [first_open]. rewrite (proj2 (Z.ltb_lt _ _)) by (cbn; lia). f_equal.
      rewrite rexmitted_app, rexmitted_cons, Eq0. cbn. lia.
    + by rewrite holes_iv_app in *.
    + rewrite Forall_app, Forall_cons in *. split_and!; try tauto. unfold rxmit_ok in *. cbn. lia.
    + rewrite ordered_app in *. cbn [ordered] in *. split_and!; try tauto.
Qed.
Definition failed_holes : list sackhole := [Sackhole 0 2000 2500 2500 7; Sackhole 1 3000 4000 3100 8].
Lemma failed_rexmit_miscounted_witness :
  ∃ s', sack_rexmit_failed 1 300 (sample_board <| snd_holes := failed_holes |> <| sack_bytes_rexmit := 600 |>) = Ret (tt, s') ∧
    sack_bytes_rexmit s' = 500 - (300 - 100) ∧ output_debug (snd_una s') (snd_holes s') 0 = (Some 1, 500).
Proof.
  apply (failed_rexmit_miscounted 1000 5000 6000 [Sackhole 0 2000 2500 2500 7] (Sackhole 1 3000 4000 3100 8) [] 300);
    try (cbn; lia); [|constructor].
  split; try done; try (vm_compute; lia).
  - repeat constructor; vm_compute; discriminate.
  - apply (bool_decide_unpack _). by vm_compute.
  - repeat constructor.
  - cbn. split_and!; [by left|right; constructor|done].
  - by exists [], (Sackhole 0 2000 2500 2500 7), [Sackhole 1 3000 4000 3100 8].
Defined.

(** Three segments are sent, the second one is SACKed, all of them are
    acknowledged, and one more is sent. *)
Definition reordered : list event :=
  let seg := Output_args 3000 1000 false false in
  [Output [seg; seg; seg]; sample_ack 1000 sample_options; sample_ack 4000 []; Output [Output_args 1000 1000 false false]].

Definition next_state (cfg : settings) (s : sndcb) (e : event) : sndcb := match on_event cfg e s with Ret (_, s') => s' | _ => s end.

Lemma reachable_next cfg s e : tcp_sack_maxholes cfg <= 32767 → reachable cfg s → event_ok e s → reachable cfg (next_state cfg s e).
Proof.
  intros Hmax Hr He. destruct (handle_run cfg Hmax e s (reachable_wf cfg Hmax s Hr) He) as (s' & E & _).
  unfold next_state. rewrite E. by apply (r_step cfg s e).
Qed.

